(* ===== verification/_CoqProject ===== *)
-Q . S2P
Prelude.v
TdMisc.v
Utf8.v
TextParser.v
Json.v
HttpHeader.v
IPAddress.v
Idn.v
Stats.v
ByteFlow.v
Query.v
FileStreamCore.v
HttpConnection.v
FileStreamConnection.v
Workdir.v
HttpUrl.v
HttpReader.v
HttpReaderChecks.v
HttpReaderMessages.v
HttpReaderForms.v
HttpReaderErrors.v
HttpReaderAnswers.v
HttpReaderProperties.v
HttpConnectionBase.v
ConnectionBooks.v
ConnectionProperties.v
Base64.v
Containers.v
TQueue.v
ClientWebhook.v
WebhookActor.v
WebhookDelivery.v
WebhookInvariant.v
WebhookProperties.v
WebhookLiveness.v
ClientFiles.v
FilesProperties.v
ClientUpdates.v
UpdatesBook.v
UpdatesInvariant.v
UpdatesProperties.v
ClientManager.v
