(* ===== verification/Prelude.v ===== *)
(** * A verification library for the Telegram Bot API server fork

    The repository is a file service.  Its C++ part, under
    [src/telegram-bot-api/], is a fork of the Telegram Bot API server with an
    endpoint that streams files, a cleanup of its working directory and webhooks.
    This library models that server ([telegram-bot-api/]) and the parts of TDLib's
    utility libraries that it rests on ([td/tdutils], [td/tdnet], [td/tddb]), as
    Rocq functions, and proves what they promise.  The TypeScript backend and
    frontend, the protocol core of TDLib and its vendored libraries are outside.

    ** The program

    An [HttpConnectionBase] reads a socket, whose bytes an [HttpReader] makes into
    requests, and writes what it is given, with promises for the bytes that have
    left.  Its handler, an [HttpConnection], turns an HTTP request into a [Query] or
    into a file stream and hands it to the [ClientManager], which owns one [Client] per bot token,
    creates clients with flood control and limits the streams of each bot.  A
    [Client] answers queries with TDLib, keeps the bot's updates in a [TQueue]
    that all clients share, and runs a [WebhookActor] that delivers these updates
    to the bot's server.  A [FileStreamConnection] serves one file stream while
    TDLib downloads the file; the [WorkdirCleanupManager] deletes old local copies
    that no stream holds.  Actors interact by closures, handled one after the
    other.

    ** How it is modelled

    An actor is a record with the fields of its class.  A method is a function
    from that record to [option] of it; [None] is a failed [CHECK].  What an actor
    sends to others, and what it asks of the operating system, is appended to the
    field [out], in order.  Answers of the environment (the clock, random numbers,
    sockets, TLS contexts, host names, free disk space, files) are functions that
    get the number of questions asked so far, or arguments of the event: a theorem
    that quantifies over them holds for every behaviour of the environment.  An
    actor's [step] (or [handle]) takes an event; its runs are an inductive
    [reached] or [Runs], with what the environment may do as a decidable condition
    of the step.  Integers are [Z] with the width written out where the code can
    overflow ([wrap], [is_int32], [int64_max], ...); bytes are lists of [ascii].
    A [double] that holds seconds or a rate is an exact rational ([time]): its
    rounding is not modelled.  Errors are [result], the [td::Result] of the code.

    ** The files

    Utilities:
    - [TdMisc] - [misc.h/.cpp]: chars, splitting, integers, URL and zero codings.
    - [Utf8] - [utf8.h/.cpp]: validation, coding, lengths and truncation.
    - [TextParser] - [Parser.h]: the text parser.
    - [Json] - [JsonBuilder.h/.cpp]: writer, parser, skipping parser, fields.
    - [HttpHeader] - [StringBuilder.h/.cpp] over a fixed buffer and
      [HttpHeaderCreator.h/.cpp].
    - [IPAddress], [Idn] - [IPAddress.cpp]: classes of addresses, parsing of
      numeric ones, [idn_to_ascii] with punycode.
    - [HttpUrl] - [HttpUrl.h/.cpp]; [Base64] - [base64.cpp].
    - [ByteFlow] - [ByteFlow.h], [find_boundary.cpp], [HttpContentLengthByteFlow],
      [HttpChunkedByteFlow]: the flows that cut a body out of the input, and the
      search of a boundary.
    - [HttpReader] - [HttpReader.h/.cpp], [HttpQuery.h]: heads, bodies, parameters,
      forms and temporary files.  Decompression is the class [gzip_ops], the file
      system the record [env].  [HttpReaderChecks]: the invariant [consistent] and
      that every call keeps it; [HttpReaderMessages], [HttpReaderForms] and
      [HttpReaderAnswers]: the text of messages, of forms and of responses with
      JSON, and what a call makes of the part that has arrived; [HttpReaderErrors]:
      the codes of its errors, and the refusal to be slow; [HttpReaderProperties]:
      the runs and the theorems.
    - [HttpConnectionBase] - [HttpConnectionBase.h/.cpp], [HttpInboundConnection.cpp]
      and [BufferedFd::flush_write]: the actor of a connection; a turn of its loop
      gets the answers of the socket as a [round].  [ConnectionBooks]: what was
      written, sent and told, and the turns with the handler, kept by every event;
      [ConnectionProperties]: the runs and the theorems.
    - [Containers] - [Container.h], [VectorQueue.h], [FloodControlFast.h]; the
      modules [ContainerMap] and [Held] say what a client of a container sees: a
      map of objects under identifiers that are never given twice.
    - [TQueue] - [TQueue.h/.cpp]: the queues of updates; the storage is the class
      [storage_ops] (the code's [StorageCallback]), whose instance is the storage
      in memory.
    - [Stats] - [TimedStat.h], [Stats.h/.cpp].

    The server:
    - [Query] - [Query.h/.cpp]: a query, its answer, the deleter of its promise.
    - [HttpConnection] - [HttpConnection.h/.cpp], [HttpStatConnection.cpp]:
      routing of requests and framing of responses.
    - [FileStreamCore] - [FileStreamCore.h], [FileStreamCursor.cpp],
      [FileStreamRecovery.cpp], [FileStreamRoute.cpp]: pure decisions.
    - [FileStreamConnection] - [FileStream.h/.cpp]: the streaming actor.
    - [Workdir] - [WorkdirCleanupManager.h/.cpp].
    - [ClientWebhook] - the stored form of a webhook ([Client::save_webhook],
      [ClientManager::get_webhook_restore_query]).
    - [WebhookActor] - [WebhookActor.h/.cpp]: the actor, against the class
      [update_source] that [TQueue] implements; [WebhookDelivery] (where every
      loaded update stands), [WebhookInvariant] (every handler keeps it),
      [WebhookProperties] and [WebhookLiveness] (the runs and the theorems).
    - [ClientFiles] - [Client.cpp]: errors of TDLib as answers, file streams and
      downloads of a client, its closing; [FilesProperties] has the theorems.
    - [ClientUpdates] - [Client.cpp]: getUpdates with its long poll, setWebhook and
      deleteWebhook with certificates, the callbacks of the webhook, new updates,
      the queue of queries, closing; its record contains that of [ClientFiles] and
      the queues of [TQueue].  [UpdatesBook]: where its queries are, and that each
      operation keeps the book; [UpdatesInvariant]: the states that occur and the
      events a client is owed, kept by every event; [UpdatesProperties]: the runs
      and the theorems.
    - [ClientManager] - [ClientManager.h/.cpp].

    ** The theorems

    - Streams: a stream sends one response, either an error or a head followed by
      exactly the file in order ([stream_answers]); with a file that becomes
      complete it serves all of it ([stream_serves_file]); silence ends it
      ([stream_timeout]); every event is handled ([stream_events_handled]); what
      it retains it releases ([stream_references]).  [revocation_in_flight] shows
      what happens when the downloaded prefix is revoked during a write.
    - Files of a client: a query is answered once or waits
      ([files_answer_queries]), no check fails ([files_checks]), local copies are
      deleted only when nobody uses them ([files_delete_unused]), closing tells
      everybody ([files_closed]); two races that the code loses are
      [early_leaver_fails_get_file] and [stale_listener].
    - Updates of a client: no check fails as long as certificates are copied in
      time ([updates_checks]), every query is answered once or held
      ([updates_answer_queries]), a long poll excludes a webhook and who waits is
      owed an event ([updates_exclusive]), a reader gets the first updates that are
      left and confirms those before ([get_updates_answer]), closing answers
      everybody ([updates_closed]); [late_certificate_fails] is the check that does
      fail.
    - Webhooks: no check fails whatever the environment answers
      ([webhook_checks]), an update leaves only when it was delivered, has expired
      or was given up ([webhook_keeps_updates]), each loaded update has one place
      ([webhook_places]), the actor always waits for something that will run it
      ([webhook_waits]), its limits hold ([webhook_limits]).
    - Update queues: they refine an abstract list of events ([tqueue_refines]),
      the replay of the storage gives the queue back ([tqueue_restart]), garbage
      collection ends and removes what has expired ([tqueue_gc]).
    - Client manager: quotas of streams, one client per token, the closing of the
      server.
    - Workdir: referenced files are never deleted.
    - HTTP reader: whatever arrives, in whatever pieces, no check fails and every
      call ends ([reader_checks]); it leaves no file behind ([reader_files]).  A
      message is read in the same way however it is cut ([message_read]); the text
      of a form gives its fields and files back ([form_read]), the text of a
      response of this server its status, headers and answer ([response_read]).
    - Connections: no check fails, and a query is handed on only after the one before
      it was answered ([connection_checks]); the socket takes what was written in
      order, a promise is told success only after its bytes were taken, and nobody
      is left waiting at the end ([connection_promises]); all are told when the
      socket takes everything ([connection_flushes]); a message that arrives in any
      pieces is handed on as the query the reader makes of it ([connection_serves]).
    - Parsers: the parts of a URL ([url_parts]), the round trip of JSON
      ([json_round_trip]).
    Lemmas that are not properties of the manifest also hold facts of their own:
    the invariant of the update queues ([tqueue_invariant]), delivery of queries to
    clients ([send_delivers]), the single answer of a query ([query_answered_once]),
    admission of streams ([streaming_admission]), base64 ([base64_exact]), the order of the checks
    of a stream request ([stream_admission]), a round of the cleanup
    ([cleanup_round]), URLs ([url_round_trip]), the agreement of the JSON parser with
    the skipping one ([json_skip_agrees]),
    rates of the flood control ([flood_rate]), identifiers of containers
    ([container_identifiers]), counters of queries ([query_counters]), sliding
    statistics, the cursor of the streams, UTF-8 and truncation of UTF-16 lengths
    ([utf16_truncation]), routing ([bot_api_routing]) and framing
    ([response_framing]) of HTTP.

    ** Fuel

    A loop that is not structural takes fuel computed from its input, and running
    out of it is [None], so that the theorems cannot hide it: the bytes left
    ([blocks_of], [do_json_decode], [parse_args], [read_codes]), the digits of a
    32-bit number ([flush32], [digits_rev]), the events and queues left ([gc_loop],
    the loops of a webhook, the content of a form).  The turns of [read_next] end by
    the measure [weight] of the reader: [reader_checks] states that some fuel is
    enough, and more fuel changes nothing; so [connection_checks] for a turn of a
    connection.  [cursor_blocks_partition], [json_round_trip],
    [json_skip_agrees], [url_round_trip], [base64_exact], [tqueue_gc] and
    [webhook_checks] say that it is enough; so does [idn_to_ascii_total].

    ** Not modelled

    - The protocol core of TDLib, its actor scheduler, its databases and the
      vendored SQLite: third parties' code, environment here.  [td_api] objects
      are generated by the build: the models have the fields that are read.
    - The rest of [Client.cpp]: the method table with its two hundred other Bot API
      methods (a run of [UpdatesProperties] receives only the methods that are
      modelled; the limits that [send] puts on a bot with too many queries), the caches of users, chats and messages, the JSON printers of
      objects and the translation of updates.  They convert between generated
      [td_api] classes and JSON; their state is a cache of TDLib's.
    - Sockets, TLS and zlib of [tdnet] and [tdutils]: the scheduler's I/O and third
      parties' code.  A connection is modelled without TLS, as all inbound ones are.
      [HttpConnection] gets the [HttpQuery] that the reader has made.
    - The record format of the binlog: the storage of [TQueue] is an interface.
    - [telegram-bot-api.cpp] (options and the main loop), [Watchdog], the CPU
      statistics, dumps and [getStats] texts: I/O of the process.
    - Rounding of doubles; aliasing of the in-place parsers, whose slices point
      into the parsed buffer; allocation failure. *)

From Stdlib Require Export Ascii String.
From stdpp Require Export base tactics numbers list list_numbers gmap fin_maps strings option sorting.
From Stdlib Require Export ZArith QArith Lia Lqa Bool.

#[global] Set Default Proof Using "Type".
#[global] Open Scope Z_scope.

(** ** Bytes *)

(** [td::string], [td::Slice], [td::MutableSlice], [td::BufferSlice]: the bytes
    they hold, in order. *)
Abbreviation bytes := (list ascii).

(** A C string literal, without its terminator. *)
Definition lit (s : string) : bytes := list_ascii_of_string s.

(** The code of a char as an unsigned char, and the char with a given code
    (modulo 256, as [static_cast<char>] does). *)
Definition ord (c : ascii) : Z := Z.of_N (N_of_ascii c).
Definition chr (z : Z) : ascii := ascii_of_N (Z.to_N (z mod 256)).

Definition len {A} (l : list A) : Z := Z.of_nat (List.length l).

(** [Slice::npos] is represented by [None]. *)
Fixpoint find_from (c : ascii) (s : bytes) (pos : nat) : option nat :=
  match s with
  | [] => None
  | x :: s' => if decide (x = c) then Some pos else find_from c s' (S pos)
  end.
Definition find (c : ascii) (s : bytes) : option nat := find_from c s 0.

Definition contains (c : ascii) (s : bytes) : bool := bool_decide (c ∈ s).

Definition is_prefix (p s : bytes) : bool := bool_decide (take (List.length p) s = p).

(** ** Errors: [td::Status] and [td::Result] *)

Record status := Status { st_code : Z; st_message : bytes }.

Inductive result (A : Type) : Type :=
| Ok (a : A)
| Err (e : status).
Arguments Ok {A} a.
Arguments Err {A} e.

#[global] Instance result_ret : MRet result := fun A a => Ok a.
#[global] Instance result_bind : MBind result := fun A B f m =>
  match m with Ok a => f a | Err e => Err e end.
#[global] Instance result_fmap : FMap result := fun A B f m =>
  match m with Ok a => Ok (f a) | Err e => Err e end.

Definition is_ok {A} (r : result A) : bool := match r with Ok _ => true | Err _ => false end.
Definition is_error {A} (r : result A) : bool := negb (is_ok r).

(** [return Status::Error(code, message)] *)
Definition error {A} (code : Z) (message : string) : result A := Err (Status code (lit message)).

(** ** Machine integers *)

Definition int32_min : Z := -2147483648.
Definition int32_max : Z := 2147483647.
Definition int64_min : Z := -9223372036854775808.
Definition int64_max : Z := 9223372036854775807.
Definition uint64_max : Z := 18446744073709551615.
Definition is_int32 (z : Z) : Prop := int32_min <= z <= int32_max.
Definition is_int64 (z : Z) : Prop := int64_min <= z <= int64_max.

(** Conversion to an unsigned [w]-bit type. *)
Definition wrap (w : Z) (z : Z) : Z := z mod 2 ^ w.

(** ** Time: [double] seconds *)

(** A C++ [double] that holds a time, a rate or a duration is modelled by an
    exact rational; rounding is not modelled. *)
Abbreviation time := Q.

Definition qleb (x y : Q) : bool := Qle_bool x y.
Definition qltb (x y : Q) : bool := negb (Qle_bool y x).
Definition qmax (x y : Q) : Q := if qltb x y then y else x.
Definition qmin (x y : Q) : Q := if qltb y x then y else x.

Lemma qleb_spec x y : reflect (x <= y)%Q (qleb x y).
Proof.
  unfold qleb. destruct (Qle_bool x y) eqn:E; constructor.
  - by apply Qle_bool_iff.
  - rewrite <-Qle_bool_iff. congruence.
Qed.

Lemma qltb_spec x y : reflect (x < y)%Q (qltb x y).
Proof.
  unfold qltb. destruct (Qle_bool y x) eqn:E; constructor.
  - apply Qle_bool_iff in E. lra.
  - apply Qnot_le_lt. rewrite <-Qle_bool_iff. congruence.
Qed.

(** Case analysis on the time comparisons of the goal and the hypotheses. *)
Ltac case_q :=
  repeat match goal with
  | |- context [qleb ?x ?y] => destruct (qleb_spec x y)
  | |- context [qltb ?x ?y] => destruct (qltb_spec x y)
  | H : context [qleb ?x ?y] |- _ => destruct (qleb_spec x y)
  | H : context [qltb ?x ?y] |- _ => destruct (qltb_spec x y)
  end.

Lemma qmax_le_l x y : (x <= qmax x y)%Q.
Proof. unfold qmax. case_q; lra. Qed.
Lemma qmax_le_r x y : (y <= qmax x y)%Q.
Proof. unfold qmax. case_q; lra. Qed.
Lemma qmax_lub x y z : (x <= z -> y <= z -> qmax x y <= z)%Q.
Proof. unfold qmax. case_q; lra. Qed.
Lemma qmin_le_l x y : (qmin x y <= x)%Q.
Proof. unfold qmin. case_q; lra. Qed.
Lemma qmin_le_r x y : (qmin x y <= y)%Q.
Proof. unfold qmin. case_q; lra. Qed.
Lemma qmin_glb x y z : (z <= x -> z <= y -> z <= qmin x y)%Q.
Proof. unfold qmin. case_q; lra. Qed.

(** Clamping: [td::min], [td::max], [td::clamp] on integers are [Z.min],
    [Z.max] and [clamp]. *)
Definition clamp (value min_value max_value : Z) : Z :=
  if value <? min_value then min_value else if max_value <? value then max_value else value.

Lemma clamp_bounds v lo hi : lo <= hi -> lo <= clamp v lo hi <= hi.
Proof. unfold clamp. repeat case_match; lia. Qed.

(** ** Chars *)

(** A property of one char is decided by looking at the 256 of them. *)
Ltac all_chars := intros c; destruct c as [[] [] [] [] [] [] [] []]; vm_compute; try reflexivity; try discriminate; auto.

Lemma ord_chr z : ord (chr z) = z mod 256.
Proof.
  unfold ord, chr. rewrite N_ascii_embedding.
  - rewrite Z2N.id; [done|]. apply Z.mod_pos_bound. lia.
  - pose proof (Z.mod_pos_bound z 256). lia.
Qed.

Lemma chr_ord c : chr (ord c) = c.
Proof. revert c. all_chars. Qed.

Lemma ord_bounds c : 0 <= ord c < 256.
Proof. unfold ord. pose proof (N_ascii_bounded c). lia. Qed.

Lemma ord_inj c d : ord c = ord d -> c = d.
Proof. intros H. by rewrite <-(chr_ord c), <-(chr_ord d), H. Qed.

Create HintDb td.
#[export] Hint Resolve ord_bounds : td.
#[export] Hint Resolve qmax_le_l qmax_le_r qmin_le_l qmin_le_r : td.

(** Case analysis on the booleans a goal branches on. *)
Ltac case_bool :=
  match goal with
  | |- context [if ?b then _ else _] => destruct b eqn:?
  | H : context [if ?b then _ else _] |- _ => destruct b eqn:?
  end.
Ltac case_bool_in H :=
  match type of H with
  | context [if ?b then _ else _] => destruct b eqn:?
  end.
Ltac case_bools := repeat case_bool; simplify_eq/=.

Lemma wrap_small w z : 0 <= z < 2 ^ w -> wrap w z = z.
Proof. apply Z.mod_small. Qed.
Lemma wrap_bounds w z : 0 <= w -> 0 <= wrap w z < 2 ^ w.
Proof. intros. apply Z.mod_pos_bound. lia. Qed.
Lemma wrap_wrap_add w x y : wrap w (wrap w x + y) = wrap w (x + y).
Proof. apply Zplus_mod_idemp_l. Qed.
Lemma wrap_mul_add w x k y : wrap w (wrap w x * k + y) = wrap w (x * k + y).
Proof.
  unfold wrap. rewrite <-(Zplus_mod_idemp_l (x mod _ * _)), Zmult_mod_idemp_l.
  by rewrite Zplus_mod_idemp_l.
Qed.

Lemma len_nil {A} : len (@nil A) = 0.
Proof. done. Qed.
Lemma len_cons {A} (x : A) l : len (x :: l) = len l + 1.
Proof. unfold len. simpl. lia. Qed.
Lemma len_app {A} (l k : list A) : len (l ++ k) = len l + len k.
Proof. unfold len. rewrite length_app. lia. Qed.
Lemma len_nonneg {A} (l : list A) : 0 <= len l.
Proof. unfold len. lia. Qed.
#[export] Hint Rewrite @len_nil @len_cons @len_app : len.
#[export] Hint Resolve len_nonneg : td.

(** Arithmetic on lengths. *)
Ltac llia := autorewrite with len in *; unfold len in *; simpl in *; lia.

(** Comparisons decided by the context. *)
Lemma ltb_true x y : x < y -> (x <? y) = true.
Proof. intros. by apply Z.ltb_lt. Qed.
Lemma ltb_false x y : y <= x -> (x <? y) = false.
Proof. intros. by apply Z.ltb_ge. Qed.
Lemma leb_true x y : x <= y -> (x <=? y) = true.
Proof. intros. by apply Z.leb_le. Qed.
Lemma leb_false x y : y < x -> (x <=? y) = false.
Proof. intros. by apply Z.leb_gt. Qed.

(** Disjoint bits are added. *)
Lemma lor_add n a b : 0 <= n -> 0 <= b < 2 ^ n -> a mod 2 ^ n = 0 -> Z.lor a b = a + b.
Proof.
  intros Hn Hb Ha. rewrite <-Z.add_lor_land.
  assert (Z.land a b = 0) as ->; [|lia].
  apply Z.bits_inj'. intros i Hi. rewrite Z.land_spec, Z.bits_0.
  destruct (decide (i < n)).
  - rewrite <-(Z.mod_pow2_bits_low a n i) by lia. by rewrite Ha, Z.bits_0.
  - rewrite <-(Z.mod_small b (2 ^ n)) by lia. rewrite Z.mod_pow2_bits_high by lia. apply andb_false_r.
Qed.
