(* ===== verification/TdMisc.v ===== *)
(** * String utilities of tdutils

    [td/utils/misc.h], [td/utils/misc.cpp] and the integer printer of
    [td/utils/StringBuilder.cpp]: character classes, splitting and trimming,
    decimal and hexadecimal integers at their machine width, URL percent
    encoding, the zero run-length codings. *)

From S2P Require Import Prelude.

(** ** Character classes ([misc.h]) *)

Module Chars.

Definition to_lower (c : ascii) : ascii :=
  if (65 <=? ord c) && (ord c <=? 90) then chr (ord c - 65 + 97) else c.

Definition to_upper (c : ascii) : ascii :=
  if (97 <=? ord c) && (ord c <=? 122) then chr (ord c - 97 + 65) else c.

Definition is_space (c : ascii) : bool :=
  (ord c =? 32) || (ord c =? 9) || (ord c =? 13) || (ord c =? 10) || (ord c =? 0) || (ord c =? 11).

(** [c |= 0x20] *)
Definition or20 (c : ascii) : Z := Z.lor (ord c) 32.

Definition is_alpha (c : ascii) : bool := (97 <=? or20 c) && (or20 c <=? 122).
Definition is_digit (c : ascii) : bool := (48 <=? ord c) && (ord c <=? 57).
Definition is_alnum (c : ascii) : bool := is_alpha c || is_digit c.
Definition is_hex_digit (c : ascii) : bool :=
  if is_digit c then true else (97 <=? or20 c) && (or20 c <=? 102).

Definition hex_to_int (c : ascii) : Z :=
  if is_digit c then ord c - 48
  else if (97 <=? or20 c) && (or20 c <=? 102) then or20 c - 97 + 10
  else 16.

Definition is_url_char (c : ascii) : bool :=
  is_alnum c || (ord c =? 45) || (ord c =? 46) || (ord c =? 95) || (ord c =? 126).

End Chars.
Import Chars.

(** ** Strings ([misc.h], [misc.cpp]) *)

Module Strings.

Definition split (s : bytes) (delimiter : ascii) : bytes * bytes :=
  match find delimiter s with
  | None => (s, [])
  | Some pos => (take pos s, drop (S pos) s)
  end.

(** The loop of [full_split]; [fuel] bounds the iterations, each of which
    removes at least the delimiter it found. *)
Fixpoint full_split_loop (fuel : nat) (s : bytes) (delimiter : ascii) (max_parts : Z)
    (res : list bytes) : list bytes :=
  match fuel with
  | O => res ++ [s]
  | S fuel =>
    if len res + 1 <? max_parts then
      match find delimiter s with
      | None => res ++ [s]
      | Some pos => full_split_loop fuel (drop (S pos) s) delimiter max_parts (res ++ [take pos s])
      end
    else res ++ [s]
  end.
Definition full_split (s : bytes) (delimiter : ascii) (max_parts : Z) : list bytes :=
  match s with
  | [] => []
  | _ => full_split_loop (S (length s)) s delimiter max_parts []
  end.

Fixpoint implode_from (v : list bytes) (delimiter : ascii) : bytes :=
  match v with
  | [] => []
  | x :: v' => delimiter :: x ++ implode_from v' delimiter
  end.
Definition implode (v : list bytes) (delimiter : ascii) : bytes :=
  match v with
  | [] => []
  | x :: v' => x ++ implode_from v' delimiter
  end.

Definition begins_with (str prefix : bytes) : bool :=
  (len prefix <=? len str) && bool_decide (prefix = take (length prefix) str).

Definition ends_with (str suffix : bytes) : bool :=
  (len suffix <=? len str) && bool_decide (suffix = drop (length str - length suffix) str).

Definition to_lower (s : bytes) : bytes := Chars.to_lower <$> s.
Definition to_upper (s : bytes) : bytes := Chars.to_upper <$> s.

Definition replace_with_spaces (str characters : bytes) : bytes :=
  (fun c => if contains c characters then " "%char else c) <$> str.

Fixpoint drop_spaces (s : bytes) : bytes :=
  match s with
  | c :: s' => if is_space c then drop_spaces s' else s
  | [] => []
  end.
(** [trim]: both loops of the code, the second one on the reversed text. *)
Definition trim (s : bytes) : bytes := reverse (drop_spaces (reverse (drop_spaces s))).

Definition lpad (str : bytes) (size : Z) (c : ascii) : bytes :=
  if size <=? len str then str else replicate (Z.to_nat (size - len str)) c ++ str.
Definition lpad0 (str : bytes) (size : Z) : bytes := lpad str size "0"%char.
Definition rpad (str : bytes) (size : Z) (c : ascii) : bytes :=
  if size <=? len str then str else str ++ replicate (Z.to_nat (size - len str)) c.

Definition is_newline (c : ascii) : bool := (ord c =? 10) || (ord c =? 13).
(** The [for] loop of [oneline], with its flag [after_new_line]. *)
Fixpoint oneline_loop (s : bytes) (after_new_line : bool) (res : bytes) : bytes :=
  match s with
  | [] => res
  | c :: s' =>
    if negb (is_newline c) then
      if after_new_line then
        if decide (c = " "%char) then oneline_loop s' after_new_line res
        else oneline_loop s' false (res ++ [c])
      else oneline_loop s' false (res ++ [c])
    else if negb after_new_line then oneline_loop s' true (res ++ [" "%char])
    else oneline_loop s' after_new_line res
  end.
Fixpoint pop_spaces (rev_s : bytes) : bytes :=
  match rev_s with
  | c :: s' => if decide (c = " "%char) then pop_spaces s' else rev_s
  | [] => []
  end.
Definition oneline (s : bytes) : bytes :=
  reverse (pop_spaces (reverse (oneline_loop s true []))).

End Strings.

(** ** Decimal integers *)

Module Integers.

(** The [do ... while] loop of [print_uint]: the digits, least significant
    first.  A 64-bit value has at most 20 of them. *)
Fixpoint digits_rev (fuel : nat) (x : Z) : bytes :=
  match fuel with
  | O => []
  | S fuel => chr (48 + x mod 10) :: (if 0 <? x / 10 then digits_rev fuel (x / 10) else [])
  end.

Definition print_uint (x : Z) : bytes :=
  if x <? 100 then
    if x <? 10 then [chr (48 + x)] else [chr (48 + x / 10); chr (48 + x mod 10)]
  else reverse (digits_rev 20 x).

(** The recursive call of [print_int] on the minimum reaches a negative value
    that is not the minimum, whose branch is the second one. *)
Definition print_neg (x : Z) : bytes := "-"%char :: print_uint (- x).
Definition print_int (tmin : Z) (x : Z) : bytes :=
  if x <? 0 then
    if x =? tmin then
      let s := print_neg (x + 1) in
      take (length s - 1) s ++ [chr (ord (List.last s "0"%char) + 1)]
    else print_neg x
  else print_uint x.

(** A machine integer type: its width in bits. *)
Definition tmax (w : Z) : Z := 2 ^ (w - 1) - 1.
Definition tmin (w : Z) : Z := - 2 ^ (w - 1).

(** The digit loop shared by the overloads of [to_integer]. *)
Fixpoint to_integer_loop (w : Z) (s : bytes) (integer_value : Z) : Z :=
  match s with
  | c :: s' =>
    if is_digit c then to_integer_loop w s' (wrap w (integer_value * 10 + (ord c - 48)))
    else integer_value
  | [] => integer_value
  end.

(** [to_integer<T>] for a signed type of [w] bits. *)
Definition to_integer (w : Z) (str : bytes) : Z :=
  let '(is_negative, digits) :=
    match str with
    | c :: s' => if decide (c = "-"%char) then (true, s') else (false, str)
    | [] => (false, str)
    end in
  let integer_value := to_integer_loop w digits 0 in
  if tmax w <? integer_value then
    let integer_value := wrap w (- integer_value) in
    let is_negative := negb is_negative in
    if tmax w <? integer_value then tmin w
    else if is_negative then - integer_value else integer_value
  else if is_negative then - integer_value else integer_value.

(** [to_integer<T>] for an unsigned type of [w] bits. *)
Definition to_unsigned (w : Z) (str : bytes) : Z := to_integer_loop w str 0.

Section ToIntegerSafe.
(** [check_utf8] of [utf8.cpp], which only chooses between two messages. *)
Variable check_utf8 : bytes -> bool.

Definition get_to_integer_safe_error {A} (str : bytes) : result A :=
  let error_message :=
    lit "Can't parse as an integer string " ++ [chr 34] ++ str ++ [chr 34] in
  if negb (check_utf8 error_message) then error 0 "Strings must be encoded in UTF-8"
  else Err (Status 0 error_message).

(** [to_integer_safe<T>] for a signed type of [w] bits. *)
Definition to_integer_safe (w : Z) (str : bytes) : result Z :=
  let res := to_integer w str in
  if negb (bool_decide (print_int (tmin w) res = str)) then get_to_integer_safe_error str
  else Ok res.
End ToIntegerSafe.

End Integers.

(** ** Hexadecimal, URL and zero run-length codings ([misc.h], [misc.cpp]) *)

Module Coding.

Definition hex_digit (table : string) (i : Z) : ascii :=
  List.nth (Z.to_nat i) (lit table) "0"%char.

Fixpoint hex_to_integer_loop (w : Z) (s : bytes) (integer_value : Z) : Z :=
  match s with
  | c :: s' =>
    if is_hex_digit c then hex_to_integer_loop w s' (wrap w (integer_value * 16 + hex_to_int c))
    else integer_value
  | [] => integer_value
  end.
Definition hex_to_integer (w : Z) (str : bytes) : Z := hex_to_integer_loop w str 0.

Fixpoint hex_to_integer_safe_loop (w : Z) (s : bytes) (integer_value : Z) : result Z :=
  match s with
  | [] => Ok integer_value
  | c :: s' =>
    let digit := hex_to_int c in
    if digit =? 16 then error 0 "String contains non-hex digit"
    else if (2 ^ w - 1) / 16 <? integer_value then error 0 "String hex number overflows"
    else hex_to_integer_safe_loop w s' (integer_value * 16 + digit)
  end.
Definition hex_to_integer_safe (w : Z) (str : bytes) : result Z :=
  match str with
  | [] => error 0 "String is empty"
  | _ => hex_to_integer_safe_loop w str 0
  end.

Fixpoint hex_decode_loop (hex : bytes) : result bytes :=
  match hex with
  | h :: l :: rest =>
    let high := hex_to_int h in
    let low := hex_to_int l in
    if (high =? 16) || (low =? 16) then error 0 "Wrong hex string"
    else match hex_decode_loop rest with
         | Ok r => Ok (chr (high * 16 + low) :: r)
         | Err e => Err e
         end
  | _ => Ok []
  end.
Definition hex_decode (hex : bytes) : result bytes :=
  if negb (len hex mod 2 =? 0) then error 0 "Wrong hex string length"
  else hex_decode_loop hex.

Definition hex_encode (data : bytes) : bytes :=
  data ≫= fun c => [hex_digit "0123456789abcdef" (Z.shiftr (ord c) 4);
                    hex_digit "0123456789abcdef" (Z.land (ord c) 15)].

Definition buffer_to_hex (buffer : bytes) : bytes :=
  buffer ≫= fun c => [hex_digit "0123456789ABCDEF" (Z.land (ord c) 15);
                      hex_digit "0123456789ABCDEF" (Z.shiftr (ord c) 4)].

(** The [%XX] of one byte. *)
Definition percent (c : ascii) : bytes :=
  ["%"%char; hex_digit "0123456789ABCDEF" (ord c / 16); hex_digit "0123456789ABCDEF" (ord c mod 16)].

(** The length [url_encode] reserves and checks at its end. *)
Definition url_encode_length (data : bytes) : Z :=
  foldl (fun length c => length - 2 * (if is_url_char c then 1 else 0)) (3 * len data) data.
Definition url_encode_body (data : bytes) : bytes :=
  data ≫= fun c => if is_url_char c then [c] else percent c.
(** [None] is the failed [CHECK(result.size() == length)]. *)
Definition url_encode (data : bytes) : option bytes :=
  let length := url_encode_length data in
  if length =? len data then Some data
  else
    let result := url_encode_body data in
    if len result =? length then Some result else None.

(** [url_decode]: the output is shorter than the input, so the code writes it
    over the buffer it reads; the model returns what is written. *)
Fixpoint url_decode (from : bytes) (decode_plus_sign_as_space : bool) : bytes :=
  match from with
  | [] => []
  | c :: rest =>
    let plain := if decode_plus_sign_as_space && bool_decide (c = "+"%char) then " "%char else c in
    if decide (c = "%"%char) then
      match rest with
      | h :: l :: rest' =>
        let high := hex_to_int h in
        let low := hex_to_int l in
        if (high <? 16) && (low <? 16) then
          chr (high * 16 + low) :: url_decode rest' decode_plus_sign_as_space
        else plain :: url_decode rest decode_plus_sign_as_space
      | _ => plain :: url_decode rest decode_plus_sign_as_space
      end
    else plain :: url_decode rest decode_plus_sign_as_space
  end.

(** The [while] loop of the zero codings: how many of the next bytes equal [c],
    the count starting at 1 and stopping at 250. *)
Fixpoint count_run (c : ascii) (s : bytes) (cnt : Z) : Z * bytes :=
  match s with
  | x :: s' =>
    if (cnt <? 250) && bool_decide (x = c) then count_run c s' (cnt + 1) else (cnt, s)
  | [] => (cnt, [])
  end.

Definition is_zero (c : ascii) : bool := ord c =? 0.
Definition is_zero_or_ff (c : ascii) : bool := (ord c =? 0) || (ord c =? 255).

(** [zero_encode] and [zero_one_encode] are one loop with two tests. *)
Fixpoint run_encode (special : ascii -> bool) (fuel : nat) (data : bytes) : bytes :=
  match fuel, data with
  | S fuel, c :: rest =>
    if special c then
      let '(cnt, rest') := count_run c rest 1 in
      c :: chr cnt :: run_encode special fuel rest'
    else c :: run_encode special fuel rest
  | _, _ => []
  end.
Definition zero_encode (data : bytes) : bytes := run_encode is_zero (length data) data.
Definition zero_one_encode (data : bytes) : bytes := run_encode is_zero_or_ff (length data) data.

Fixpoint run_decode (special : ascii -> bool) (data : bytes) : bytes :=
  match data with
  | [] => []
  | c :: rest =>
    match rest with
    | n :: rest' =>
      if special c then replicate (Z.to_nat (ord n)) c ++ run_decode special rest'
      else c :: run_decode special rest
    | [] => [c]
    end
  end.
Definition zero_decode (data : bytes) : bytes := run_decode is_zero data.
Definition zero_one_decode (data : bytes) : bytes := run_decode is_zero_or_ff data.

End Coding.

(** ** Facts *)

Import Integers Coding Strings.

Lemma is_digit_spec c : is_digit c = true <-> 48 <= ord c <= 57.
Proof. unfold is_digit. lia. Qed.

Lemma digit_chr d : 0 <= d <= 9 -> ord (chr (48 + d)) = 48 + d.
Proof. intros. rewrite ord_chr. apply Z.mod_small. lia. Qed.

(** The value of a digit string. *)
Definition decimal (s : bytes) (v : Z) : Z := foldl (fun v c => v * 10 + (ord c - 48)) v s.

Lemma decimal_snoc s c v : decimal (s ++ [c]) v = decimal s v * 10 + (ord c - 48).
Proof. unfold decimal. by rewrite foldl_app. Qed.

Lemma to_integer_loop_digits w s v :
  Forall (fun c => is_digit c = true) s ->
  wrap w (to_integer_loop w s v) = wrap w (decimal s v).
Proof.
  intros Hs. revert v. induction Hs as [|c s Hc Hs IH]; intros v; [done|].
  simpl. rewrite Hc, IH. unfold decimal; simpl. fold (decimal s).
  clear IH Hc Hs. generalize (v * 10 + (ord c - 48)). clear. intros x. revert x.
  enough (forall x y, wrap w x = wrap w y -> wrap w (decimal s x) = wrap w (decimal s y)) as H.
  { intros x. apply H. unfold wrap. apply Zmod_mod. }
  induction s as [|c s IH]; intros x y Hxy; [done|].
  unfold decimal; simpl. apply IH.
  by rewrite <-(wrap_mul_add w x), <-(wrap_mul_add w y), Hxy.
Qed.

Lemma to_integer_loop_bounds w s v :
  0 <= w -> 0 <= v < 2 ^ w -> 0 <= to_integer_loop w s v < 2 ^ w.
Proof.
  intros Hw. revert v. induction s as [|c s IH]; intros v Hv; simpl; [done|].
  case_bool; [|done]. apply IH, wrap_bounds, Hw.
Qed.

Lemma digits_rev_digit fuel x : Forall (fun c => is_digit c = true) (digits_rev fuel x).
Proof.
  revert x. induction fuel as [|fuel IH]; intros x; simpl; constructor.
  - pose proof (Z.mod_pos_bound x 10). apply is_digit_spec. rewrite digit_chr; lia.
  - case_bool; [apply IH|constructor].
Qed.

Lemma decimal_digits_rev fuel x :
  0 <= x < 10 ^ Z.of_nat fuel -> decimal (reverse (digits_rev fuel x)) 0 = x.
Proof.
  revert x. induction fuel as [|fuel IH]; intros x Hx.
  - change (10 ^ Z.of_nat 0) with 1 in Hx. unfold decimal; simpl. lia.
  - rewrite Nat2Z.inj_succ, Z.pow_succ_r in Hx by lia.
    pose proof (Z.div_mod x 10). pose proof (Z.mod_pos_bound x 10).
    simpl. rewrite reverse_cons, decimal_snoc, digit_chr by lia.
    case_bool.
    + rewrite IH; lia.
    + unfold decimal; simpl. lia.
Qed.

Lemma print_uint_digits x : 0 <= x -> Forall (fun c => is_digit c = true) (print_uint x).
Proof.
  intros Hx. unfold print_uint. repeat case_bool.
  - repeat constructor. apply is_digit_spec. rewrite digit_chr; lia.
  - pose proof (Z.mod_pos_bound x 10). pose proof (Z.div_mod x 10).
    repeat constructor; apply is_digit_spec; rewrite digit_chr; lia.
  - apply Forall_reverse, digits_rev_digit.
Qed.

Lemma decimal_print_uint x : 0 <= x < 10 ^ 20 -> decimal (print_uint x) 0 = x.
Proof.
  intros Hx. unfold print_uint. repeat case_bool.
  - unfold decimal; simpl. rewrite digit_chr; lia.
  - pose proof (Z.mod_pos_bound x 10). pose proof (Z.div_mod x 10).
    unfold decimal; simpl. rewrite !digit_chr; lia.
  - by apply decimal_digits_rev.
Qed.

Lemma print_uint_cons x : 0 <= x -> exists c s, print_uint x = c :: s /\ is_digit c = true.
Proof.
  intros Hx. pose proof (print_uint_digits x Hx) as H.
  destruct (print_uint x) as [|c s] eqn:E; [|inversion H; eauto].
  exfalso. revert E. unfold print_uint. repeat case_bool; try done.
  cbn [digits_rev]. rewrite reverse_cons. by destruct (reverse _).
Qed.

Lemma to_integer_loop_print w x :
  0 <= w -> 0 <= x < 2 ^ w -> x < 10 ^ 20 -> to_integer_loop w (print_uint x) 0 = x.
Proof.
  intros Hw Hx Hx'.
  assert (0 < 2 ^ w) by (apply Z.pow_pos_nonneg; lia).
  pose proof (to_integer_loop_bounds w (print_uint x) 0 Hw ltac:(lia)) as Hb.
  pose proof (to_integer_loop_digits w (print_uint x) 0 (print_uint_digits x ltac:(lia))) as H1.
  rewrite decimal_print_uint in H1 by lia.
  by rewrite !wrap_small in H1 by done.
Qed.

(** A machine type the code parses: [int32] or [int64]. *)
Definition word_size (w : Z) : Prop := w = 32 \/ w = 64.

Lemma word_size_pow w : word_size w -> 2 ^ w = 2 * 2 ^ (w - 1) /\ 2 ^ w < 10 ^ 20.
Proof. intros [-> | ->]; vm_compute; auto. Qed.

Lemma to_integer_print w x :
  word_size w -> tmin w <= x <= tmax w -> to_integer w (print_int (tmin w) x) = x.
Proof.
  intros Hw Hx. destruct (word_size_pow w Hw) as [Hp Hq]. unfold tmin, tmax in *.
  assert (0 <= w) by (destruct Hw; lia).
  unfold print_int. destruct (Z.ltb_spec x 0) as [Hneg|Hpos].
  - destruct (Z.eqb_spec x (- 2 ^ (w - 1))) as [->|Hne].
    { destruct Hw as [-> | ->]; reflexivity. }
    unfold to_integer, print_neg. rewrite decide_True by done.
    rewrite to_integer_loop_print by lia. unfold tmax.
    destruct (Z.ltb_spec (2 ^ (w - 1) - 1) (- x)); lia.
  - unfold to_integer.
    destruct (print_uint_cons x Hpos) as (c & s & E & Hc).
    assert (c <> "-"%char) by (intros ->; discriminate).
    assert ((match print_uint x with
      | c :: s' => if decide (c = "-"%char) then (true, s') else (false, print_uint x)
      | [] => (false, print_uint x) end) = (false, print_uint x)) as ->.
    { rewrite E. by rewrite decide_False. }
    rewrite to_integer_loop_print by lia. unfold tmax.
    destruct (Z.ltb_spec (2 ^ (w - 1) - 1) x); lia.
Qed.

Lemma to_integer_bounds w s : word_size w -> tmin w <= to_integer w s <= tmax w.
Proof.
  intros Hw. destruct (word_size_pow w Hw) as [Hp _]. unfold to_integer.
  assert (0 <= w /\ 0 < 2 ^ (w - 1)) as [? ?] by (destruct Hw as [-> | ->]; lia).
  destruct (match s with [] => _ | _ :: _ => _ end) as [neg digits].
  pose proof (to_integer_loop_bounds w digits 0 ltac:(done) ltac:(lia)) as Hb.
  generalize dependent (to_integer_loop w digits 0). intros v Hv.
  pose proof (wrap_bounds w (- v) ltac:(done)). unfold tmin, tmax.
  repeat case_bool; lia.
Qed.

(** [to_integer_safe] accepts exactly the canonical decimal text of the values
    of its type. *)
Lemma to_integer_safe_ok cu w s n :
  word_size w ->
  to_integer_safe cu w s = Ok n <-> (tmin w <= n <= tmax w /\ s = print_int (tmin w) n).
Proof.
  intros Hw. unfold to_integer_safe. split.
  - case_bool.
    { unfold get_to_integer_safe_error, error. case_bool; discriminate. }
    intros [= <-]. split; [by apply to_integer_bounds|].
    apply negb_false_iff, bool_decide_eq_true in Heqb. done.
  - intros [Hn ->]. rewrite to_integer_print by done.
    by rewrite bool_decide_true.
Qed.

(** *** Codings *)

Lemma hex_to_int_hex_encode c :
  hex_to_int (hex_digit "0123456789abcdef" (Z.shiftr (ord c) 4)) * 16 +
  hex_to_int (hex_digit "0123456789abcdef" (Z.land (ord c) 15)) = ord c.
Proof. revert c. all_chars. Qed.

Lemma hex_digit_valid c :
  (hex_to_int (hex_digit "0123456789abcdef" (Z.shiftr (ord c) 4)) =? 16) ||
  (hex_to_int (hex_digit "0123456789abcdef" (Z.land (ord c) 15)) =? 16) = false.
Proof. revert c. all_chars. Qed.

Lemma hex_encode_length s : len (hex_encode s) = 2 * len s.
Proof.
  induction s as [|c s IH]; [done|].
  unfold hex_encode in *. rewrite bind_cons, len_app, IH, !len_cons, len_nil. lia.
Qed.

Lemma hex_decode_encode s : hex_decode (hex_encode s) = Ok s.
Proof.
  unfold hex_decode. rewrite hex_encode_length, Z.mul_comm, Z.mod_mul by lia. simpl.
  induction s as [|c s IH]; [done|].
  unfold hex_encode in *. rewrite bind_cons. cbn [app hex_decode_loop].
  rewrite hex_digit_valid, IH, hex_to_int_hex_encode, chr_ord. done.
Qed.

Lemma percent_decode c rest plus :
  url_decode (percent c ++ rest) plus = c :: url_decode rest plus.
Proof.
  unfold percent. cbn [app url_decode]. rewrite decide_True by done.
  assert ((hex_to_int (hex_digit "0123456789ABCDEF" (ord c / 16)) <? 16) &&
    (hex_to_int (hex_digit "0123456789ABCDEF" (ord c mod 16)) <? 16) = true) as ->
    by (revert c; all_chars).
  f_equal. clear. rewrite <-(chr_ord c) at 3. f_equal. revert c. all_chars.
Qed.

Lemma is_url_char_plain c :
  is_url_char c = true -> c <> "%"%char /\ c <> "+"%char.
Proof. intros H. split; intros ->; discriminate. Qed.

Lemma url_decode_plain s plus :
  Forall (fun c => is_url_char c = true) s -> url_decode s plus = s.
Proof.
  induction 1 as [|c s Hc Hs IH]; [done|]. cbn [url_decode].
  destruct (is_url_char_plain c Hc) as [H1 H2].
  rewrite (decide_False (P:=c = "%"%char)), bool_decide_false by done.
  by rewrite andb_false_r, IH.
Qed.

Lemma url_encode_length_spec s :
  url_encode_length s = 3 * len s - 2 * len (filter (fun c => is_url_char c = true) s).
Proof.
  unfold url_encode_length. generalize (3 * len s). induction s as [|c s IH]; intros z.
  - unfold len. simpl. lia.
  - cbn [foldl]. rewrite IH, filter_cons. case_decide as Hc.
    + rewrite Hc, len_cons. lia.
    + destruct (is_url_char c); [done|]. lia.
Qed.

Lemma len_filter_le {A} (P : A -> Prop) `{!forall x, Decision (P x)} (s : list A) :
  len (filter P s) <= len s.
Proof. unfold len. pose proof (length_filter P s). lia. Qed.

Lemma url_encode_body_length s : len (url_encode_body s) = url_encode_length s.
Proof.
  rewrite url_encode_length_spec. induction s as [|c s IH]; [done|].
  unfold url_encode_body in *. rewrite bind_cons, len_app, IH, filter_cons.
  destruct (is_url_char c) eqn:E.
  - rewrite decide_True by done. rewrite !len_cons, len_nil. lia.
  - rewrite decide_False by congruence. rewrite len_cons. unfold percent. rewrite !len_cons, len_nil. lia.
Qed.

Lemma url_encode_body_decode s plus : url_decode (url_encode_body s) plus = s.
Proof.
  induction s as [|c s IH]; [done|]. unfold url_encode_body in *. rewrite bind_cons.
  destruct (is_url_char c) eqn:E; [|by rewrite percent_decode, IH].
  cbn [app url_decode]. destruct (is_url_char_plain c E).
  rewrite (decide_False (P:=c = "%"%char)), bool_decide_false by done.
  by rewrite andb_false_r, IH.
Qed.

Lemma url_encode_round_trip s plus :
  exists e, url_encode s = Some e /\ url_decode e plus = s.
Proof.
  unfold url_encode. case_bool.
  - exists s. split; [done|]. apply url_decode_plain.
    apply Z.eqb_eq in Heqb. rewrite url_encode_length_spec in Heqb.
    induction s as [|c s IH]; [done|]. rewrite filter_cons in Heqb.
    pose proof (len_filter_le (fun c => is_url_char c = true) s).
    case_decide; rewrite ?len_cons in Heqb; constructor; try done; try apply IH; lia.
  - exists (url_encode_body s).
    rewrite url_encode_body_length, Z.eqb_refl. by rewrite url_encode_body_decode.
Qed.

Lemma count_run_spec c s cnt cnt' s' :
  cnt <= 250 -> count_run c s cnt = (cnt', s') ->
  cnt <= cnt' <= 250 /\ s = replicate (Z.to_nat (cnt' - cnt)) c ++ s' /\ (length s' <= length s)%nat.
Proof.
  revert cnt. induction s as [|x s IH]; intros cnt Hcnt; simpl.
  - intros [= <- <-]. rewrite Z.sub_diag. repeat split; lia || done.
  - case_bool; intros H.
    + apply andb_true_iff in Heqb as [Hlt Hx]. apply bool_decide_eq_true in Hx as ->.
      apply IH in H as (Hb & -> & Hl); [|lia]. split; [lia|]. split.
      * replace (Z.to_nat (cnt' - cnt)) with (S (Z.to_nat (cnt' - (cnt + 1)))) by lia. done.
      * rewrite length_app in *. lia.
    + injection H as <- <-. rewrite Z.sub_diag. repeat split; lia || done.
Qed.

Lemma run_decode_plain special c s :
  special c = false -> run_decode special (c :: s) = c :: run_decode special s.
Proof. intros H. destruct s; simpl; by rewrite ?H. Qed.

Lemma run_decode_encode special fuel s :
  (length s <= fuel)%nat -> run_decode special (run_encode special fuel s) = s.
Proof.
  revert s. induction fuel as [|fuel IH]; intros s Hs; destruct s as [|c s]; simpl in Hs;
    try done; [lia|].
  cbn [run_encode]. destruct (special c) eqn:E.
  - destruct (count_run c s 1) as [cnt s'] eqn:Ec.
    apply count_run_spec in Ec as (Hb & Hs' & Hl); [|lia].
    cbn [run_decode]. rewrite E, ord_chr, Z.mod_small, IH by lia.
    replace (Z.to_nat cnt) with (S (Z.to_nat (cnt - 1))) by lia.
    by rewrite Hs'.
  - rewrite run_decode_plain by done. rewrite IH by lia. done.
Qed.

(** *** Splitting *)

Lemma find_from_spec c s pos :
  match find_from c s pos with
  | Some p => exists k, p = (pos + k)%nat /\ s = take k s ++ c :: drop (S k) s /\ c ∉ take k s
  | None => c ∉ s
  end.
Proof.
  revert pos. induction s as [|x s IH]; intros pos; simpl; [apply not_elem_of_nil|].
  case_decide as Hx.
  - subst x. exists 0%nat. simpl. repeat split; [lia|]. apply not_elem_of_nil.
  - specialize (IH (S pos)). destruct (find_from c s (S pos)) as [p|].
    + destruct IH as (k & -> & Hs & Hk). exists (S k). simpl. split; [lia|].
      split; [by rewrite <-Hs|]. apply not_elem_of_cons. by split; [congruence|].
    + apply not_elem_of_cons. by split; [congruence|].
Qed.

Lemma find_Some c s p :
  find c s = Some p -> s = take p s ++ c :: drop (S p) s /\ c ∉ take p s.
Proof.
  intros H. pose proof (find_from_spec c s 0) as Hs. unfold find in H. rewrite H in Hs.
  destruct Hs as (k & -> & ? & ?). done.
Qed.

Lemma find_None c s : find c s = None <-> c ∉ s.
Proof.
  pose proof (find_from_spec c s 0) as Hs. unfold find.
  destruct (find_from c s 0); [|done].
  destruct Hs as (k & _ & Hs & _). split; [done|]. intros H. exfalso. apply H. rewrite Hs.
  set_solver.
Qed.

Lemma find_app c s t : c ∉ s -> find c (s ++ c :: t) = Some (length s).
Proof.
  intros Hs. unfold find. enough (forall n, find_from c (s ++ c :: t) n = Some (n + length s)%nat) as H
    by apply H.
  induction s as [|x s IH]; intros n; simpl.
  - rewrite decide_True by done. f_equal. lia.
  - rewrite not_elem_of_cons in Hs. rewrite decide_False by naive_solver.
    rewrite IH by naive_solver. f_equal. lia.
Qed.

Lemma full_split_loop_parts fuel s d maxp res :
  (length s < fuel)%nat -> len s + len res + 1 < maxp -> Forall (fun p => d ∉ p) res ->
  exists parts, full_split_loop fuel s d maxp res = res ++ parts /\
    parts <> [] /\ Forall (fun p => d ∉ p) parts /\ implode parts d = s.
Proof.
  revert s res. induction fuel as [|fuel IH]; intros s res Hf Hm Hres; [lia|]. simpl.
  pose proof (len_nonneg s).
  assert (len res + 1 <? maxp = true) as -> by lia.
  destruct (find d s) as [p|] eqn:E.
  - apply find_Some in E as [Hs Hp].
    assert (length (drop (S p) s) < length s)%nat as Hl.
    { rewrite Hs at 2. rewrite length_app. simpl. lia. }
    destruct (IH (drop (S p) s) (res ++ [take p s])) as (parts & Heq & Hne & Hall & Him).
    + lia.
    + rewrite len_app, len_cons, len_nil. unfold len in *. lia.
    + apply Forall_app. by repeat constructor.
    + exists (take p s :: parts). rewrite Heq, <-app_assoc. repeat split; [done|by constructor|].
      destruct parts as [|q qs]; [done|]. rewrite Hs at 2.
      change (take p s ++ d :: implode (q :: qs) d = take p s ++ d :: drop (S p) s). by rewrite Him.
  - exists [s]. repeat split; [done| |simpl; by rewrite app_nil_r].
    repeat constructor. by apply find_None.
Qed.

Lemma full_split_implode s d maxp :
  s <> [] -> len s + 1 < maxp ->
  implode (full_split s d maxp) d = s /\ Forall (fun p => d ∉ p) (full_split s d maxp).
Proof.
  intros Hs Hm. unfold full_split. destruct s as [|c s']; [done|].
  destruct (full_split_loop_parts (S (length (c :: s'))) (c :: s') d maxp []) as (parts & -> & Hne & ? & ?).
  - lia.
  - rewrite len_nil. lia.
  - constructor.
  - done.
Qed.

Lemma split_join s d a b :
  split s d = (a, b) -> (d ∈ s -> s = a ++ d :: b /\ d ∉ a) /\ (d ∉ s -> a = s /\ b = []).
Proof.
  unfold split. destruct (find d s) as [p|] eqn:E; intros [= <- <-].
  - apply find_Some in E as [H1 H2]. split; [done|]. intros H. destruct H. rewrite H1. set_solver.
  - apply find_None in E. done.
Qed.

Lemma begins_with_spec s p : begins_with s p = true <-> exists t, s = p ++ t.
Proof.
  unfold begins_with. rewrite andb_true_iff, bool_decide_eq_true. split.
  - intros [_ H]. exists (drop (length p) s). rewrite H at 1. by rewrite take_drop.
  - intros [t ->]. rewrite take_app_length. rewrite len_app. pose proof (len_nonneg t). split; [lia|done].
Qed.

Lemma ends_with_spec s p : ends_with s p = true <-> exists t, s = t ++ p.
Proof.
  unfold ends_with. rewrite andb_true_iff, bool_decide_eq_true. split.
  - intros [_ H]. exists (take (length s - length p) s). rewrite <-(take_drop (length s - length p) s) at 1. by rewrite <-H.
  - intros [t ->]. rewrite length_app, Nat.add_sub, drop_app_length. split; [|done].
    rewrite len_app. pose proof (len_nonneg t). lia.
Qed.
#[export] Hint Rewrite begins_with_spec ends_with_spec : td.
