(* ===== verification/Utf8.v ===== *)
(** * UTF-8

    [td/utils/utf8.h] and [td/utils/utf8.cpp]: validation, encoding, decoding and
    the truncation functions.  The Unicode tables (case folding, word breaking)
    are not modelled. *)

From S2P Require Import Prelude TdMisc.

(** ** Definitions *)

(** [check_utf8]: reading the terminator after the last byte ends a text that
    is between two characters, and fails the test on a continuation byte. *)
Fixpoint check_utf8 (str : bytes) : bool :=
  match str with
  | [] => true
  | ca :: s1 =>
    let a := ord ca in
    if Z.land a 0x80 =? 0 then check_utf8 s1
    else if Z.land a 0x40 =? 0 then false
    else
    match s1 with
    | [] => false
    | cb :: s2 =>
      let b := ord cb in
      if negb (Z.land b 0xc0 =? 0x80) then false
      else if Z.land a 0x20 =? 0 then
        if 0 <? Z.land a 0x1e then check_utf8 s2 else false
      else
      match s2 with
      | [] => false
      | cc :: s3 =>
        let c := ord cc in
        if negb (Z.land c 0xc0 =? 0x80) then false
        else if Z.land a 0x10 =? 0 then
          let x := Z.lor (Z.shiftl (Z.land a 0x0f) 6) (Z.land b 0x20) in
          if negb (x =? 0) && negb (x =? 0x360) then check_utf8 s3 else false
        else
        match s3 with
        | [] => false
        | cd :: s4 =>
          let d := ord cd in
          if negb (Z.land d 0xc0 =? 0x80) then false
          else if Z.land a 0x08 =? 0 then
            let t := Z.lor (Z.shiftl (Z.land a 0x07) 6) (Z.land b 0x30) in
            if (0 <? t) && (t <? 0x110) then check_utf8 s4 else false
          else false
        end
      end
    end
  end.

Definition is_utf8_character_first_code_unit (c : ascii) : bool := negb (Z.land (ord c) 0xC0 =? 0x80).

Definition b2z (b : bool) : Z := if b then 1 else 0.

Fixpoint utf8_length (str : bytes) : Z :=
  match str with
  | [] => 0
  | c :: str' => b2z (is_utf8_character_first_code_unit c) + utf8_length str'
  end.

Fixpoint utf8_utf16_length (str : bytes) : Z :=
  match str with
  | [] => 0
  | c :: str' => b2z (is_utf8_character_first_code_unit c) + b2z (Z.land (ord c) 0xf8 =? 0xf0)
                 + utf8_utf16_length str'
  end.

(** The bytes [append_utf8_character] (and [append_utf8_character_unsafe]) append. *)
Definition append_utf8_character (code : Z) : bytes :=
  if code <=? 0x7f then [chr code]
  else if code <=? 0x7ff then
    [chr (Z.lor 0xc0 (Z.shiftr code 6)); chr (Z.lor 0x80 (Z.land code 0x3f))]
  else if code <=? 0xffff then
    [chr (Z.lor 0xe0 (Z.shiftr code 12)); chr (Z.lor 0x80 (Z.land (Z.shiftr code 6) 0x3f));
     chr (Z.lor 0x80 (Z.land code 0x3f))]
  else
    [chr (Z.lor 0xf0 (Z.shiftr code 18)); chr (Z.lor 0x80 (Z.land (Z.shiftr code 12) 0x3f));
     chr (Z.lor 0x80 (Z.land (Z.shiftr code 6) 0x3f)); chr (Z.lor 0x80 (Z.land code 0x3f))].

(** [next_utf8_unsafe]: the code and the text after it.  [None] is a read past
    the text or [UNREACHABLE]. *)
Definition next_utf8_unsafe (ptr : bytes) : option (Z * bytes) :=
  match ptr with
  | [] => None
  | ca :: s1 =>
    let a := ord ca in
    if Z.land a 0x80 =? 0 then Some (a, s1)
    else if Z.land a 0x20 =? 0 then
      match s1 with
      | cb :: s2 => Some (Z.lor (Z.shiftl (Z.land a 0x1f) 6) (Z.land (ord cb) 0x3f), s2)
      | _ => None
      end
    else if Z.land a 0x10 =? 0 then
      match s1 with
      | cb :: cc :: s3 =>
        Some (Z.lor (Z.lor (Z.shiftl (Z.land a 0x0f) 12) (Z.shiftl (Z.land (ord cb) 0x3f) 6))
                    (Z.land (ord cc) 0x3f), s3)
      | _ => None
      end
    else if Z.land a 0x08 =? 0 then
      match s1 with
      | cb :: cc :: cd :: s4 =>
        Some (Z.lor (Z.lor (Z.lor (Z.shiftl (Z.land a 0x07) 18) (Z.shiftl (Z.land (ord cb) 0x3f) 12))
                           (Z.shiftl (Z.land (ord cc) 0x3f) 6))
                    (Z.land (ord cd) 0x3f), s4)
      | _ => None
      end
    else None
  end.

(** The loop of [utf8_truncate]: [length] characters are still to be kept. *)
Fixpoint truncate_loop (str : bytes) (length : Z) : bytes :=
  match str with
  | [] => []
  | c :: str' =>
    if is_utf8_character_first_code_unit c then
      if length =? 0 then [] else c :: truncate_loop str' (length - 1)
    else c :: truncate_loop str' length
  end.
Definition utf8_truncate (str : bytes) (length : Z) : bytes :=
  if length <? len str then truncate_loop str length else str.

Definition utf8_substr (str : bytes) (offset : Z) : bytes :=
  if offset =? 0 then str
  else drop (List.length (utf8_truncate str offset)) str.
Definition utf8_substr_length (str : bytes) (offset length : Z) : bytes :=
  utf8_truncate (utf8_substr str offset) length.

(** [utf8_utf16_truncate]: [length] is a [size_t], and each [length--] wraps. *)
Fixpoint utf8_utf16_truncate (str : bytes) (length : Z) : bytes :=
  match str with
  | [] => []
  | c :: str' =>
    if is_utf8_character_first_code_unit c then
      if length <=? 0 then []
      else
        let length := wrap 64 (length - 1) in
        let length := if 0xf0 <=? ord c then wrap 64 (length - 1) else length in
        c :: utf8_utf16_truncate str' length
    else c :: utf8_utf16_truncate str' length
  end.

Definition utf8_utf16_substr (str : bytes) (offset : Z) : bytes :=
  if offset =? 0 then str
  else drop (List.length (utf8_utf16_truncate str offset)) str.
Definition utf8_utf16_substr_length (str : bytes) (offset length : Z) : bytes :=
  utf8_utf16_truncate (utf8_utf16_substr str offset) length.

(** [utf8_encode]; [None] is the failed check of [url_encode]. *)
Definition utf8_encode (data : bytes) : option bytes :=
  if check_utf8 data then Some data
  else e ← Coding.url_encode data; Some (lit "url_decode(" ++ e ++ lit ")").

(** ** Specification: texts of Unicode scalar values *)

Definition scalar (code : Z) : Prop := 0 <= code < 0xD800 \/ 0xE000 <= code <= 0x10FFFF.
#[export] Instance scalar_dec code : Decision (scalar code).
Proof. unfold scalar. apply _. Defined.

Definition utf8_text (codes : list Z) : bytes := codes ≫= append_utf8_character.

(** ** Bits of a byte *)

Ltac byte_fact c :=
  let H := fresh in
  match goal with
  | |- ?P = true -> ?X = ?Y =>
    enough (H : implb P (bool_decide (X = Y)) = true) by
      (intros E; rewrite E in H; by apply bool_decide_eq_true in H);
    revert c; all_chars
  end.

Lemma land_80 c : (Z.land (ord c) 0x80 =? 0) = (ord c <? 128).
Proof. revert c. all_chars. Qed.
Lemma land_c0 c : (Z.land (ord c) 0xc0 =? 0x80) = (128 <=? ord c) && (ord c <? 192).
Proof. revert c. all_chars. Qed.
Lemma land_40 c : (128 <=? ord c) = true -> (Z.land (ord c) 0x40 =? 0) = (ord c <? 192).
Proof. byte_fact c. Qed.
Lemma land_20 c : (192 <=? ord c) = true -> (Z.land (ord c) 0x20 =? 0) = (ord c <? 224).
Proof. byte_fact c. Qed.
Lemma land_10 c : (224 <=? ord c) = true -> (Z.land (ord c) 0x10 =? 0) = (ord c <? 240).
Proof. byte_fact c. Qed.
Lemma land_08 c : (240 <=? ord c) = true -> (Z.land (ord c) 0x08 =? 0) = (ord c <? 248).
Proof. byte_fact c. Qed.
Lemma land_1e c : (192 <=? ord c) && (ord c <? 224) = true -> (0 <? Z.land (ord c) 0x1e) = (194 <=? ord c).
Proof. byte_fact c. Qed.
Lemma land_lead2 c : (192 <=? ord c) && (ord c <? 224) = true -> Z.land (ord c) 0x1f = ord c - 192.
Proof. byte_fact c. Qed.
Lemma land_lead3 c : (224 <=? ord c) && (ord c <? 240) = true -> Z.land (ord c) 0x0f = ord c - 224.
Proof. byte_fact c. Qed.
Lemma land_lead4 c : (240 <=? ord c) && (ord c <? 248) = true -> Z.land (ord c) 0x07 = ord c - 240.
Proof. byte_fact c. Qed.
Lemma land_cont c : (128 <=? ord c) && (ord c <? 192) = true -> Z.land (ord c) 0x3f = ord c - 128.
Proof. byte_fact c. Qed.
Lemma land_cont_20 c : (128 <=? ord c) && (ord c <? 192) = true ->
  Z.land (ord c) 0x20 = if ord c <? 160 then 0 else 32.
Proof. byte_fact c. Qed.
Lemma land_cont_30 c : (128 <=? ord c) && (ord c <? 192) = true ->
  Z.land (ord c) 0x30 = (ord c - 128) / 16 * 16.
Proof. byte_fact c. Qed.

(** ** Encoding of one character, in arithmetic *)

Lemma land_3f z : Z.land z 0x3f = z mod 64.
Proof. change 0x3f with (Z.ones 6). by rewrite Z.land_ones by lia. Qed.

Lemma shiftr_div z n : 0 <= n -> Z.shiftr z n = z / 2 ^ n.
Proof. apply Z.shiftr_div_pow2. Qed.

Lemma append_1 code : 0 <= code < 0x80 -> append_utf8_character code = [chr code].
Proof. intros. unfold append_utf8_character. rewrite (proj2 (Z.leb_le _ _)) by lia. done. Qed.

Lemma append_2 code : 0x80 <= code < 0x800 ->
  append_utf8_character code = [chr (192 + code / 64); chr (128 + code mod 64)].
Proof.
  intros. unfold append_utf8_character. rewrite !land_3f, !shiftr_div by lia.
  rewrite (proj2 (Z.leb_gt _ _)), (proj2 (Z.leb_le _ _)) by lia.
  rewrite (lor_add 5), (lor_add 6); try done; Z.to_euclidean_division_equations; lia.
Qed.

Lemma append_3 code : 0x800 <= code < 0x10000 ->
  append_utf8_character code
  = [chr (224 + code / 4096); chr (128 + code / 64 mod 64); chr (128 + code mod 64)].
Proof.
  intros. unfold append_utf8_character. rewrite !land_3f, !shiftr_div by lia.
  rewrite (proj2 (Z.leb_gt _ 0x7f)), (proj2 (Z.leb_gt _ 0x7ff)), (proj2 (Z.leb_le _ _)) by lia.
  rewrite (lor_add 4 0xe0), !(lor_add 6 0x80); try done; Z.to_euclidean_division_equations; lia.
Qed.

Lemma append_4 code : 0x10000 <= code < 0x200000 ->
  append_utf8_character code
  = [chr (240 + code / 262144); chr (128 + code / 4096 mod 64); chr (128 + code / 64 mod 64);
     chr (128 + code mod 64)].
Proof.
  intros. unfold append_utf8_character. rewrite !land_3f, !shiftr_div by lia.
  rewrite (proj2 (Z.leb_gt _ 0x7f)), (proj2 (Z.leb_gt _ 0x7ff)), (proj2 (Z.leb_gt _ 0xffff)) by lia.
  rewrite (lor_add 3 0xf0), !(lor_add 6 0x80); try done; Z.to_euclidean_division_equations; lia.
Qed.

(** ** Validation, in arithmetic *)

Definition cont (c : ascii) : bool := (128 <=? ord c) && (ord c <? 192).

Ltac bool_lia := first [apply Z.leb_le; lia | apply Z.leb_gt; lia | apply Z.ltb_lt; lia | apply Z.ltb_ge; lia].


Lemma cont_spec c : cont c = true <-> 128 <= ord c < 192.
Proof. unfold cont. rewrite andb_true_iff, Z.leb_le, Z.ltb_lt. done. Qed.

Lemma check_1 c s : ord c < 128 -> check_utf8 (c :: s) = check_utf8 s.
Proof. intros. cbn [check_utf8]. by rewrite land_80, ltb_true. Qed.

Lemma check_bad c s : 128 <= ord c < 192 -> check_utf8 (c :: s) = false.
Proof.
  intros. cbn [check_utf8]. rewrite land_80, ltb_false by lia.
  by rewrite land_40, ltb_true by (apply leb_true || idtac; lia).
Qed.

Lemma check_2 a b s : 192 <= ord a < 224 ->
  check_utf8 (a :: b :: s) = cont b && (194 <=? ord a) && check_utf8 s.
Proof.
  intros. cbn [check_utf8]. rewrite land_80, ltb_false by lia.
  rewrite land_40, ltb_false by (apply leb_true || idtac; lia).
  rewrite land_c0. fold (cont b).
  rewrite land_20, ltb_true by (apply leb_true || idtac; lia).
  rewrite land_1e by (rewrite leb_true, ltb_true; done || lia).
  by destruct (cont b), (194 <=? ord a).
Qed.

Lemma check_3 a b c s : 224 <= ord a < 240 ->
  check_utf8 (a :: b :: c :: s)
  = cont b && cont c && negb ((ord a =? 224) && (ord b <? 160)) && negb ((ord a =? 237) && (160 <=? ord b))
    && check_utf8 s.
Proof.
  intros. cbn [check_utf8]. rewrite land_80, ltb_false by lia.
  rewrite land_40, ltb_false by (apply leb_true || idtac; lia).
  rewrite !land_c0. fold (cont b). fold (cont c).
  rewrite land_20, ltb_false by (apply leb_true || idtac; lia).
  rewrite land_10, ltb_true by (apply leb_true || idtac; lia).
  rewrite land_lead3 by (rewrite leb_true, ltb_true; done || lia).
  destruct (cont b) eqn:Eb; [|done]. rewrite land_cont_20 by done. apply cont_spec in Eb.
  rewrite Z.shiftl_mul_pow2 by lia.
  rewrite (lor_add 6); [|lia|case_bool; lia|by apply Z.mod_mul].
  assert (Hab : negb ((ord a - 224) * 2 ^ 6 + (if ord b <? 160 then 0 else 32) =? 0)
    && negb ((ord a - 224) * 2 ^ 6 + (if ord b <? 160 then 0 else 32) =? 0x360)
    = negb ((ord a =? 224) && (ord b <? 160)) && negb ((ord a =? 237) && (160 <=? ord b))).
  { destruct (ord b <? 160) eqn:E160; apply eq_true_iff_eq;
      rewrite ?andb_true_iff, ?negb_true_iff, ?andb_false_iff, ?Z.eqb_neq, ?Z.leb_gt; lia. }
  rewrite Hab. destruct (cont c); simpl; [|done].
  by destruct (negb ((ord a =? 224) && _)), (negb ((ord a =? 237) && _)).
Qed.

Lemma check_4 a b c d s : 240 <= ord a ->
  check_utf8 (a :: b :: c :: d :: s)
  = cont b && cont c && cont d && (ord a <? 245) && negb ((ord a =? 240) && (ord b <? 144))
    && negb ((ord a =? 244) && (144 <=? ord b)) && check_utf8 s.
Proof.
  intros. cbn [check_utf8]. rewrite land_80, ltb_false by lia.
  rewrite land_40, ltb_false by (apply leb_true || idtac; lia).
  rewrite !land_c0. fold (cont b). fold (cont c). fold (cont d).
  rewrite land_20, ltb_false by (apply leb_true || idtac; lia).
  rewrite land_10, ltb_false by (apply leb_true || idtac; lia).
  rewrite land_08 by (apply leb_true; lia).
  destruct (cont b) eqn:Eb; [|done]. destruct (cont c); [|done]. destruct (cont d); [|done].
  cbn [negb andb]. destruct (ord a <? 248) eqn:E248.
  2:{ by rewrite (ltb_false _ 245) by (apply Z.ltb_ge in E248; lia). }
  apply Z.ltb_lt in E248.
  rewrite land_lead4 by (rewrite leb_true, ltb_true; done || lia).
  rewrite land_cont_30 by done. apply cont_spec in Eb.
  rewrite Z.shiftl_mul_pow2 by lia.
  rewrite (lor_add 6); [|lia|change (2 ^ 6) with 64; Z.to_euclidean_division_equations; lia|by apply Z.mod_mul].
  match goal with |- (if ?x then _ else _) = _ => 
    assert (x = (ord a <? 245) && negb ((ord a =? 240) && (ord b <? 144))
    && negb ((ord a =? 244) && (144 <=? ord b))) as -> end.
  { apply eq_true_iff_eq; rewrite ?andb_true_iff, ?negb_true_iff, ?andb_false_iff, ?Z.eqb_neq, ?Z.leb_gt,
      ?Z.ltb_lt, ?Z.ltb_ge; change (2 ^ 6) with 64; Z.to_euclidean_division_equations; lia. }
  by destruct (ord a <? 245), (negb ((ord a =? 240) && _)), (negb ((ord a =? 244) && _)).
Qed.

(** ** Characters and texts *)

Lemma scalar_cases code : scalar code ->
  0 <= code < 0x80 \/ 0x80 <= code < 0x800
  \/ (0x800 <= code < 0x10000 /\ ~ 0xD800 <= code < 0xE000) \/ 0x10000 <= code < 0x110000.
Proof. unfold scalar. lia. Qed.

Ltac bools_lia :=
  rewrite ?andb_true_iff, ?negb_true_iff, ?andb_false_iff, ?cont_spec, ?Z.eqb_neq, ?Z.leb_gt,
    ?Z.leb_le, ?Z.ltb_lt, ?Z.ltb_ge, ?ord_chr; Z.to_euclidean_division_equations; lia.

(** One valid character may be put in front of any text. *)
Lemma check_utf8_append code s : scalar code -> check_utf8 (append_utf8_character code ++ s) = check_utf8 s.
Proof.
  intros H. destruct (scalar_cases code H) as [?|[?|[[? ?]|?]]].
  - rewrite append_1 by lia. apply check_1. rewrite ord_chr. Z.to_euclidean_division_equations; lia.
  - rewrite append_2 by lia. cbn [app]. rewrite check_2 by bools_lia.
    assert (cont (chr (128 + code mod 64)) = true) as -> by bools_lia.
    by assert ((194 <=? ord (chr (192 + code / 64))) = true) as -> by bools_lia.
  - rewrite append_3 by lia. cbn [app].
    set (a := chr _). set (b := chr _). set (c := chr _). rewrite check_3 by (subst a; bools_lia).
    assert (cont b = true) as -> by (subst b; bools_lia).
    assert (cont c = true) as -> by (subst c; bools_lia).
    assert (negb ((ord a =? 224) && (ord b <? 160)) = true) as -> by (subst a b; bools_lia).
    by assert (negb ((ord a =? 237) && (160 <=? ord b)) = true) as -> by (subst a b; bools_lia).
  - rewrite append_4 by lia. cbn [app].
    set (a := chr _). set (b := chr _). set (c := chr _). set (d := chr _).
    rewrite check_4 by (subst a; bools_lia).
    assert (cont b = true) as -> by (subst b; bools_lia).
    assert (cont c = true) as -> by (subst c; bools_lia).
    assert (cont d = true) as -> by (subst d; bools_lia).
    assert ((ord a <? 245) = true) as -> by (subst a; bools_lia).
    assert (negb ((ord a =? 240) && (ord b <? 144)) = true) as -> by (subst a b; bools_lia).
    by assert (negb ((ord a =? 244) && (144 <=? ord b)) = true) as -> by (subst a b; bools_lia).
Qed.

Lemma chr_eq c z : z = ord c -> chr z = c.
Proof. intros ->. apply chr_ord. Qed.

(** A valid text starts with a character, and the rest is valid. *)
Lemma check_utf8_inv c s : check_utf8 (c :: s) = true ->
  exists code s', scalar code /\ c :: s = append_utf8_character code ++ s' /\ check_utf8 s' = true.
Proof.
  intros H. pose proof (ord_bounds c).
  destruct (decide (ord c < 128)) as [?|?].
  { exists (ord c), s. rewrite append_1, chr_ord by lia. rewrite check_1 in H by lia.
    unfold scalar. split; [lia|done]. }
  destruct (decide (ord c < 192)) as [?|?]; [by rewrite check_bad in H by lia|].
  destruct s as [|b s]; [cbn [check_utf8] in H; rewrite land_80, ltb_false, land_40, ltb_false in H by (lia || bool_lia); done|].
  destruct (decide (ord c < 224)) as [?|?].
  { rewrite check_2 in H by lia. apply andb_true_iff in H as [[Hb Ha]%andb_true_iff H].
    apply cont_spec in Hb. apply Z.leb_le in Ha.
    exists ((ord c - 192) * 64 + (ord b - 128)), s. split; [unfold scalar; lia|split; [|done]].
    rewrite append_2 by lia. cbn [app]. f_equal; [|f_equal]; symmetry; apply chr_eq;
      Z.to_euclidean_division_equations; lia. }
  destruct s as [|b2 s].
  { exfalso. cbn [check_utf8] in H.
    rewrite land_80, ltb_false, land_40, ltb_false, land_20, ltb_false in H by (lia || bool_lia).
    by case_bool_in H. }
  destruct (decide (ord c < 240)) as [?|?].
  { rewrite check_3 in H by lia. rewrite !andb_true_iff, !negb_true_iff, !andb_false_iff, !cont_spec,
      !Z.eqb_neq, !Z.ltb_ge, !Z.leb_gt in H.
    exists ((ord c - 224) * 4096 + (ord b - 128) * 64 + (ord b2 - 128)), s.
    split; [unfold scalar; lia|split; [|tauto]].
    rewrite append_3 by lia. cbn [app]. f_equal; [|f_equal; [|f_equal]]; symmetry; apply chr_eq;
      Z.to_euclidean_division_equations; lia. }
  destruct s as [|b3 s].
  { exfalso. cbn [check_utf8] in H.
    rewrite land_80, ltb_false, land_40, ltb_false, land_20, ltb_false, land_10, ltb_false in H by (lia || bool_lia).
    by repeat case_bool_in H. }
  rewrite check_4 in H by lia. rewrite !andb_true_iff, !negb_true_iff, !andb_false_iff, !cont_spec,
      !Z.eqb_neq, !Z.ltb_ge, !Z.leb_gt, !Z.ltb_lt in H.
  exists ((ord c - 240) * 262144 + (ord b - 128) * 4096 + (ord b2 - 128) * 64 + (ord b3 - 128)), s.
  split; [unfold scalar; lia|split; [|tauto]].
  rewrite append_4 by lia. cbn [app]. f_equal; [|f_equal; [|f_equal; [|f_equal]]]; symmetry; apply chr_eq;
      Z.to_euclidean_division_equations; lia.
Qed.

Lemma utf8_text_cons code cs : utf8_text (code :: cs) = append_utf8_character code ++ utf8_text cs.
Proof. done. Qed.

Lemma check_utf8_text cs s : Forall scalar cs -> check_utf8 (utf8_text cs ++ s) = check_utf8 s.
Proof.
  induction 1 as [|code cs Hc _ IH]; [done|].
  by rewrite utf8_text_cons, <-(assoc_L _), check_utf8_append.
Qed.

Lemma append_length code : 0 <= code -> (1 <= length (append_utf8_character code))%nat.
Proof. unfold append_utf8_character. intros. repeat case_bool; simpl; lia. Qed.

Lemma check_utf8_codes s : check_utf8 s = true -> exists cs, Forall scalar cs /\ s = utf8_text cs.
Proof.
  remember (length s) as n eqn:En. revert s En.
  induction (lt_wf n) as [n _ IH]. intros s -> H.
  destruct s as [|c s]; [by exists []|].
  destruct (check_utf8_inv _ _ H) as (code & s' & Hc & E & Hs).
  destruct (IH (length s')) with (s := s') as (cs & Hcs & ->); [|done|done|].
  - rewrite E, length_app. pose proof (append_length code) as Hl. unfold scalar in Hc. lia.
  - exists (code :: cs). split; [by constructor|]. by rewrite E.
Qed.

Lemma next_utf8_append code s : scalar code ->
  next_utf8_unsafe (append_utf8_character code ++ s) = Some (code, s).
Proof.
  intros H. destruct (scalar_cases code H) as [?|[?|[[? ?]|?]]].
  - rewrite append_1 by lia. cbn [app next_utf8_unsafe]. rewrite land_80, ord_chr, ltb_true, Z.mod_small by bools_lia.
    done.
  - rewrite append_2 by lia. cbn [app next_utf8_unsafe].
    rewrite land_80, ltb_false by bools_lia. rewrite land_20, ltb_true by bools_lia.
    rewrite land_lead2, land_cont by bools_lia. rewrite !ord_chr, Z.shiftl_mul_pow2 by lia.
    rewrite (lor_add 6); [|lia|change (2^6) with 64; bools_lia|by apply Z.mod_mul].
    do 2 f_equal. bools_lia.
  - rewrite append_3 by lia. cbn [app next_utf8_unsafe].
    rewrite land_80, ltb_false by bools_lia. rewrite land_20, ltb_false by bools_lia.
    rewrite land_10, ltb_true by bools_lia.
    rewrite land_lead3, !land_cont by bools_lia. rewrite !ord_chr, !Z.shiftl_mul_pow2 by lia.
    rewrite (lor_add 12 (_ * 2 ^ 12)), (lor_add 6); try lia; try (change (2^6) with 64; change (2^12) with 4096; bools_lia).
    do 2 f_equal. change (2^6) with 64; change (2^12) with 4096; bools_lia.
  - rewrite append_4 by lia. cbn [app next_utf8_unsafe].
    rewrite land_80, ltb_false by bools_lia. rewrite land_20, ltb_false by bools_lia.
    rewrite land_10, ltb_false by bools_lia. rewrite land_08, ltb_true by bools_lia.
    rewrite land_lead4, !land_cont by bools_lia. rewrite !ord_chr, !Z.shiftl_mul_pow2 by lia.
    change (2^6) with 64; change (2^12) with 4096; change (2 ^ 18) with 262144.
    rewrite (lor_add 18 (_ * 262144)), (lor_add 12 (_ * 262144 + _)), (lor_add 6); try lia;
      try (change (2^6) with 64; change (2^12) with 4096; change (2 ^ 18) with 262144; bools_lia).
    do 2 f_equal. bools_lia.
Qed.

(** ** Lengths and truncation *)

(** The number of UTF-16 code units of a character. *)
Definition units (code : Z) : Z := if 0x10000 <=? code then 2 else 1.
Definition total_units (cs : list Z) : Z := foldr (fun c n => units c + n) 0 cs.

Lemma units_bounds c : 1 <= units c <= 2.
Proof. unfold units. case_bool; lia. Qed.

Lemma total_units_nonneg cs : 0 <= total_units cs.
Proof.
  induction cs as [|c cs IH]; [done|]. cbn [total_units foldr]. fold (total_units cs).
  unfold units. case_bool; lia.
Qed.

Lemma land_f8 c : (Z.land (ord c) 0xf8 =? 0xf0) = (240 <=? ord c) && (ord c <? 248).
Proof. revert c. all_chars. Qed.

Lemma first_unit c : is_utf8_character_first_code_unit c = negb (cont c).
Proof. unfold is_utf8_character_first_code_unit. by rewrite land_c0. Qed.

Ltac eqb_lia := apply eq_true_iff_eq; bools_lia.

(** The first byte of a character tells its size; the others are continuation bytes. *)
Lemma append_shape code : scalar code -> exists c rest,
  append_utf8_character code = c :: rest
  /\ cont c = false /\ Forall (fun x => cont x = true /\ (Z.land (ord x) 0xf8 =? 0xf0) = false) rest
  /\ (0xf0 <=? ord c) = (0x10000 <=? code) /\ (Z.land (ord c) 0xf8 =? 0xf0) = (0x10000 <=? code).
Proof.
  intros H.
  assert (Hc : forall z, 128 <= z mod 256 < 192 ->
    cont (chr z) = true /\ (Z.land (ord (chr z)) 0xf8 =? 0xf0) = false).
  { intros z Hz. rewrite cont_spec, land_f8, andb_false_iff, ord_chr. split; [lia|left; bool_lia]. }
  assert (Hf : forall z, (0 <= z < 128 \/ 192 <= z < 248) ->
    cont (chr z) = false /\ (0xf0 <=? ord (chr z)) = (240 <=? z)
    /\ (Z.land (ord (chr z)) 0xf8 =? 0xf0) = (240 <=? z)).
  { intros z Hz. rewrite <-not_true_iff_false, cont_spec, land_f8, ord_chr, Z.mod_small by lia.
    rewrite (ltb_true z 248) by lia. split; [lia|]. by rewrite andb_true_r. }
  destruct (scalar_cases code H) as [?|[?|[[? ?]|?]]].
  - rewrite append_1 by lia. destruct (Hf code) as (? & E1 & E2); [lia|].
    eexists _, _. split_and!; [done|done|by constructor|..]; rewrite ?E1, ?E2; eqb_lia.
  - rewrite append_2 by lia. destruct (Hf (192 + code / 64)) as (? & E1 & E2); [bools_lia|].
    eexists _, _. split_and!; [done|done|repeat constructor; apply Hc; bools_lia|..];
    rewrite ?E1, ?E2; eqb_lia.
  - rewrite append_3 by lia. destruct (Hf (224 + code / 4096)) as (? & E1 & E2); [bools_lia|].
    eexists _, _. split_and!; [done|done|repeat constructor; apply Hc; bools_lia|..];
    rewrite ?E1, ?E2; eqb_lia.
  - rewrite append_4 by lia. destruct (Hf (240 + code / 262144)) as (? & E1 & E2); [bools_lia|].
    eexists _, _. split_and!; [done|done|repeat constructor; apply Hc; bools_lia|..];
    rewrite ?E1, ?E2; eqb_lia.
Qed.

Lemma utf8_length_conts l s : Forall (fun x => cont x = true /\ (Z.land (ord x) 0xf8 =? 0xf0) = false) l ->
  utf8_length (l ++ s) = utf8_length s /\ utf8_utf16_length (l ++ s) = utf8_utf16_length s.
Proof.
  induction 1 as [|x l [Hx Hx2] _ [IH1 IH2]]; [done|].
  cbn [app utf8_length utf8_utf16_length]. by rewrite first_unit, Hx, Hx2, IH1, IH2.
Qed.

Lemma utf8_lengths cs : Forall scalar cs ->
  utf8_length (utf8_text cs) = len cs /\ utf8_utf16_length (utf8_text cs) = total_units cs.
Proof.
  induction 1 as [|code cs Hc _ [IH1 IH2]]; [done|]. rewrite utf8_text_cons, len_cons.
  destruct (append_shape code Hc) as (c & rest & -> & Hf & Hr & E1 & E2).
  cbn [app utf8_length utf8_utf16_length total_units foldr].
  destruct (utf8_length_conts rest (utf8_text cs) Hr) as [-> ->].
  rewrite first_unit, Hf, E2, IH1, IH2. unfold units. fold (total_units cs).
  split; [simpl; lia|]. by destruct (0x10000 <=? code).
Qed.

Lemma truncate_loop_conts l s n : Forall (fun x => cont x = true /\ (Z.land (ord x) 0xf8 =? 0xf0) = false) l ->
  truncate_loop (l ++ s) n = l ++ truncate_loop s n
  /\ utf8_utf16_truncate (l ++ s) n = l ++ utf8_utf16_truncate s n.
Proof.
  induction 1 as [|x l [Hx Hx2] _ [IH1 IH2]]; [done|].
  cbn [app truncate_loop utf8_utf16_truncate]. by rewrite first_unit, Hx, IH1, IH2.
Qed.

Lemma truncate_loop_text cs n : Forall scalar cs ->
  truncate_loop (utf8_text cs) (Z.of_nat n) = utf8_text (take n cs).
Proof.
  intros H. revert n. induction H as [|code cs Hc _ IH]; intros n; [by destruct n|].
  rewrite utf8_text_cons. destruct (append_shape code Hc) as (c & rest & E & Hf & Hr & _ & _).
  rewrite E. cbn [app truncate_loop]. rewrite first_unit, Hf. cbn [negb].
  destruct n as [|n]; [done|].
  rewrite (proj2 (Z.eqb_neq (Z.of_nat (S n)) 0)) by lia.
  replace (Z.of_nat (S n) - 1) with (Z.of_nat n) by lia.
  destruct (truncate_loop_conts rest (utf8_text cs) (Z.of_nat n) Hr) as [-> _].
  rewrite IH. cbn [take]. by rewrite utf8_text_cons, E.
Qed.

Lemma text_length cs : Forall scalar cs -> (length cs <= length (utf8_text cs))%nat.
Proof.
  induction 1 as [|code cs Hc _ IH]; [done|]. rewrite utf8_text_cons, length_app. simpl.
  pose proof (append_length code). unfold scalar in Hc. lia.
Qed.

Lemma utf16_truncate_step code s n : scalar code -> units code <= n < 2 ^ 64 ->
  utf8_utf16_truncate (append_utf8_character code ++ s) n
  = append_utf8_character code ++ utf8_utf16_truncate s (n - units code).
Proof.
  intros Hc Hn. destruct (append_shape code Hc) as (c & rest & E & Hf & Hr & E1 & _). rewrite E.
  cbn [app utf8_utf16_truncate]. rewrite first_unit, Hf, E1. cbn [negb].
  unfold units in *. destruct (n <=? 0) eqn:En; [case_bool; lia|].
  rewrite (wrap_small 64 (n - 1)) by lia.
  destruct (0x10000 <=? code) eqn:Eb.
  - rewrite wrap_small by lia. replace (n - 1 - 1) with (n - 2) by lia.
    by destruct (truncate_loop_conts rest s (n - 2) Hr) as [_ ->].
  - by destruct (truncate_loop_conts rest s (n - 1) Hr) as [_ ->].
Qed.

Lemma utf16_truncate_all cs n : Forall scalar cs -> total_units cs <= n < 2 ^ 64 ->
  utf8_utf16_truncate (utf8_text cs) n = utf8_text cs.
Proof.
  intros H. revert n. induction H as [|code cs Hc _ IH]; intros n Hn; [done|].
  cbn [total_units foldr] in Hn. fold (total_units cs) in Hn.
  pose proof (total_units_nonneg cs). pose proof (units_bounds code).
  rewrite utf8_text_cons, utf16_truncate_step by (done || lia). by rewrite IH by lia.
Qed.

Lemma utf16_truncate_0 s : utf8_utf16_truncate s 0 = [] \/ exists c s', s = c :: s' /\ cont c = true.
Proof.
  destruct s as [|c s]; [by left|]. cbn [utf8_utf16_truncate]. rewrite first_unit.
  destruct (cont c) eqn:E; [right; eauto|by left].
Qed.

Lemma utf16_truncate_text cs : Forall scalar cs -> utf8_utf16_truncate (utf8_text cs) 0 = [].
Proof.
  destruct 1 as [|code cs Hc _]; [done|].
  rewrite utf8_text_cons. destruct (append_shape code Hc) as (c & rest & -> & Hf & _).
  cbn [app utf8_utf16_truncate]. by rewrite first_unit, Hf.
Qed.

(** ** Properties *)

(** Validation.  [check_utf8] accepts exactly the encodings, by
    [append_utf8_character], of sequences of Unicode scalar values (no surrogate,
    nothing above U+10FFFF, no overlong form), and [next_utf8_unsafe] reads the
    characters of such a text back one by one. *)
Theorem utf8_valid_iff_scalars (s : bytes) :
  (check_utf8 s = true <-> exists cs, Forall scalar cs /\ s = utf8_text cs)
  /\ (forall code rest, scalar code ->
      next_utf8_unsafe (append_utf8_character code ++ rest) = Some (code, rest)).
Proof.
  split; [split|].
  - apply check_utf8_codes.
  - intros (cs & Hcs & ->). rewrite <-(app_nil_r (utf8_text cs)). by rewrite check_utf8_text.
  - intros. by apply next_utf8_append.
Qed.

Lemma utf8_valid_iff_scalars_witness :
  (check_utf8 (utf8_text [65; 233; 8364; 128512]) = true <->
    exists cs, Forall scalar cs /\ utf8_text [65; 233; 8364; 128512] = utf8_text cs)
  /\ next_utf8_unsafe (append_utf8_character 128512 ++ lit "x") = Some (128512, lit "x").
Proof.
  destruct (utf8_valid_iff_scalars (utf8_text [65; 233; 8364; 128512])) as [H1 H2].
  split; [exact H1|]. apply H2. unfold scalar. lia.
Defined.

(** Truncation by UTF-16 code units.  On a valid text whose first
    characters [cs1] take fewer than 2^64 code units in all, truncating to
    exactly that many units returns exactly those characters.  But when a
    character outside of the BMP straddles the limit (it needs two units and one
    is left), the [size_t] counter wraps below zero and the rest of the text is
    returned in full. *)
Theorem utf16_truncation (cs1 cs2 : list Z) (code : Z) :
  Forall scalar cs1 -> Forall scalar cs2 -> total_units cs1 < 2 ^ 64 ->
  utf8_utf16_truncate (utf8_text (cs1 ++ cs2)) (total_units cs1) = utf8_text cs1
  /\ (scalar code -> 0x10000 <= code -> total_units cs2 < 2 ^ 64 - 1 ->
      utf8_utf16_truncate (utf8_text (code :: cs2)) 1 = utf8_text (code :: cs2)).
Proof.
  intros H1 H2 Hn. split.
  - induction H1 as [|c cs1 Hc H1 IH]; [by apply utf16_truncate_text|].
    cbn [app total_units foldr] in *. fold (total_units cs1) in *.
    pose proof (total_units_nonneg cs1). pose proof (units_bounds c).
    rewrite utf8_text_cons, utf16_truncate_step by (done || lia).
    rewrite (utf8_text_cons c cs1). f_equal. rewrite Z.add_simpl_l. apply IH. lia.
  - intros Hc Hb Hu. rewrite utf8_text_cons.
    destruct (append_shape code Hc) as (c & rest & E & Hf & Hr & E1 & _). rewrite E.
    cbn [app utf8_utf16_truncate]. rewrite first_unit, Hf, E1. cbn [negb].
    rewrite (leb_true 0x10000 code) by lia.
    replace (1 <=? 0) with false by done.
    replace (wrap 64 (wrap 64 (1 - 1) - 1)) with (2 ^ 64 - 1) by done.
    destruct (truncate_loop_conts rest (utf8_text cs2) (2 ^ 64 - 1) Hr) as [_ ->].
    by rewrite utf16_truncate_all by (done || lia).
Qed.

Lemma utf16_truncation_witness :
  utf8_utf16_truncate (utf8_text ([65; 128512] ++ [66])) (total_units [65; 128512]) = utf8_text [65; 128512]
  /\ utf8_utf16_truncate (utf8_text (128512 :: [66])) 1 = utf8_text (128512 :: [66]).
Proof.
  assert (Forall scalar [65; 128512] /\ Forall scalar [66] /\ scalar 128512) as (? & ? & ?)
    by (split_and!; repeat constructor; unfold scalar; lia).
  destruct (utf16_truncation [65; 128512] [66] 128512) as [E1 E2]; [done|done|done|].
  split; [exact E1|]. apply E2; [done|lia|done].
Defined.
