(* ===== verification/TextParser.v ===== *)
(** * The text parser of tdutils

    [td/utils/Parser.h]: [ParserImpl] walks a slice with a pointer and keeps the
    first error in its [Status].  The state is the unread text and that status;
    every method returns its value and the next state. *)

From S2P Require Import Prelude TdMisc.

Module Parser.

Record parser := mk_parser { p_data : bytes; p_status : option status }.

(** [explicit ParserImpl(SliceT data)] *)
Definition init (data : bytes) : parser := mk_parser data None.
Definition clear (p : parser) : parser := mk_parser [] None.
Definition empty (p : parser) : bool := bool_decide (p_data p = []).
Definition data (p : parser) : bytes := p_data p.
Definition set_data (p : parser) (d : bytes) : parser := mk_parser d (p_status p).
Definition set_error (p : parser) (m : bytes) : parser := mk_parser (p_data p) (Some (Status 0 m)).
Definition has_error (p : parser) : bool := bool_decide (is_Some (p_status p)).

(** The text before the first char satisfying [stop], and the text from it on. *)
Fixpoint span (stop : ascii -> bool) (s : bytes) : bytes * bytes :=
  match s with
  | c :: s' => if stop c then ([], s) else let '(a, b) := span stop s' in (c :: a, b)
  | [] => ([], [])
  end.

Definition read_till_nofail (c : ascii) (p : parser) : bytes * parser :=
  if has_error p then ([], p)
  else let '(a, b) := span (fun x => bool_decide (x = c)) (p_data p) in (a, set_data p b).

(** The overload that stops at any char of [str]. *)
Definition read_till_nofail_any (str : bytes) (p : parser) : bytes * parser :=
  if has_error p then ([], p)
  else let '(a, b) := span (fun x => contains x str) (p_data p) in (a, set_data p b).

Definition read_while (f : ascii -> bool) (p : parser) : bytes * parser :=
  let '(a, b) := span (fun x => negb (f x)) (p_data p) in (a, set_data p b).

Definition read_all (p : parser) : bytes * parser := (p_data p, set_data p []).

Definition quoted (a : string) (c : ascii) (b : string) : bytes := lit a ++ [c] ++ lit b.

Definition read_till (c : ascii) (p : parser) : bytes * parser :=
  if has_error p then ([], p)
  else
    let '(res, p) := read_till_nofail c p in
    match p_data p with
    | x :: _ => if decide (x = c) then (res, p) else ([], set_error p (quoted "Read till '" c "' failed"))
    | [] => ([], set_error p (quoted "Read till '" c "' failed"))
    end.

Definition peek_char (p : parser) : ascii :=
  match p_data p with x :: _ => x | [] => chr 0 end.

Definition skip_nofail (c : ascii) (p : parser) : parser :=
  match p_data p with
  | x :: rest => if decide (x = c) then set_data p rest else p
  | [] => p
  end.

Definition skip (c : ascii) (p : parser) : parser :=
  if has_error p then p
  else match p_data p with
       | x :: rest => if decide (x = c) then set_data p rest else set_error p (quoted "Skip '" c "' failed")
       | [] => set_error p (quoted "Skip '" c "' failed")
       end.

Definition try_skip_char (c : ascii) (p : parser) : bool * parser :=
  match p_data p with
  | x :: rest => if decide (x = c) then (true, set_data p rest) else (false, p)
  | [] => (false, p)
  end.

Definition try_skip (prefix : bytes) (p : parser) : bool * parser :=
  if (len (p_data p) <? len prefix) || negb (bool_decide (prefix = take (length prefix) (p_data p)))
  then (false, p)
  else (true, set_data p (drop (length prefix) (p_data p))).

Definition skip_till_not (str : bytes) (p : parser) : parser :=
  let '(_, b) := span (fun x => negb (contains x str)) (p_data p) in set_data p b.

Definition whitespace : bytes := [" "%char; chr 9; chr 13; chr 10].
Definition skip_whitespaces (p : parser) : parser := skip_till_not whitespace p.
Definition read_word (p : parser) : bytes * parser :=
  read_till_nofail_any whitespace (skip_whitespaces p).

(** [CHECK(ptr_ <= end_)] *)
Definition advance (diff : Z) (p : parser) : option parser :=
  if diff <=? len (p_data p) then Some (set_data p (drop (Z.to_nat diff) (p_data p))) else None.

End Parser.

(** ** Facts *)

Import Parser.

Lemma span_app stop s : forall a b, span stop s = (a, b) ->
  s = a ++ b /\ Forall (fun c => stop c = false) a /\
  match b with c :: _ => stop c = true | [] => True end.
Proof.
  induction s as [|c s IH]; simpl; intros a b.
  - intros [= <- <-]. by repeat constructor.
  - destruct (stop c) eqn:E; [intros [= <- <-]; by repeat constructor|].
    destruct (span stop s) as [a' b']. intros [= <- <-].
    destruct (IH _ _ eq_refl) as (-> & ? & ?). repeat split; [by constructor|done].
Qed.

Lemma span_stop stop a c b :
  Forall (fun c => stop c = false) a -> stop c = true -> span stop (a ++ c :: b) = (a, c :: b).
Proof.
  intros Ha Hc. induction Ha as [|x a Hx Ha IH]; simpl; [by rewrite Hc|].
  by rewrite Hx, IH.
Qed.

Lemma span_all stop a : Forall (fun c => stop c = false) a -> span stop a = (a, []).
Proof. induction 1 as [|x a Hx Ha IH]; simpl; [done|]. by rewrite Hx, IH. Qed.

Lemma not_in_Forall (c : ascii) a : c ∉ a -> Forall (fun x => bool_decide (x = c) = false) a.
Proof.
  intros H. apply Forall_forall. intros x Hx. apply bool_decide_eq_false. by intros ->.
Qed.

Lemma read_till_spec c a b :
  c ∉ a -> read_till c (init (a ++ c :: b)) = (a, init (c :: b)).
Proof.
  intros H. unfold read_till, read_till_nofail, init; simpl.
  rewrite span_stop; [|by apply not_in_Forall|by apply bool_decide_eq_true].
  simpl. by rewrite decide_True.
Qed.

Lemma read_till_fails c a :
  c ∉ a -> read_till c (init a) = ([], set_error (init []) (quoted "Read till '" c "' failed")).
Proof.
  intros H. unfold read_till, read_till_nofail, init; simpl.
  by rewrite span_all by by apply not_in_Forall.
Qed.

Lemma skip_spec c b : skip c (init (c :: b)) = init b.
Proof. unfold skip, init; simpl. by rewrite decide_True. Qed.

Lemma try_skip_app prefix b : try_skip prefix (init (prefix ++ b)) = (true, init b).
Proof.
  unfold try_skip, init, set_data; simpl. rewrite take_app_length, drop_app_length, bool_decide_true by done.
  rewrite len_app. pose proof (len_nonneg b).
  by replace (len prefix + len b <? len prefix) with false by lia.
Qed.

Lemma try_skip_true prefix p p' :
  try_skip prefix p = (true, p') -> p_data p = prefix ++ p_data p' /\ p_status p' = p_status p.
Proof.
  unfold try_skip. case_bool; [done|]. intros [= <-]. split; [|done]. simpl.
  apply orb_false_iff in Heqb as [_ H]. apply negb_false_iff, bool_decide_eq_true in H.
  rewrite H at 1. by rewrite take_drop.
Qed.

Lemma try_skip_false prefix p p' :
  try_skip prefix p = (false, p') -> p' = p /\ forall b, p_data p <> prefix ++ b.
Proof.
  unfold try_skip. case_bool; [|done]. intros [= <-]. split; [done|]. intros b Hb.
  rewrite Hb, take_app_length, bool_decide_true, len_app in Heqb by done.
  pose proof (len_nonneg b). rewrite orb_false_r in Heqb. lia.
Qed.
