(* ===== verification/Json.v ===== *)
(** * JSON

    [td/utils/JsonBuilder.h] and [td/utils/JsonBuilder.cpp]: the writer (without
    pretty printing, which the server does not use), the parser, the skipping
    parser and the field accessors of [JsonObject]. *)

From S2P Require Import Prelude TdMisc TextParser Utf8.

Definition dquote : ascii := chr 34.
Definition bslash : ascii := chr 92.

(** [JsonValue]; a number keeps its text. *)
Inductive json_value :=
| JNull
| JNumber (text : bytes)
| JBoolean (b : bool)
| JString (s : bytes)
| JArray (l : list json_value)
| JObject (fields : list (bytes * json_value)).

Inductive json_value_type := TNull | TNumber | TBoolean | TString | TArray | TObject.
#[export] Instance json_value_type_eq_dec : EqDecision json_value_type.
Proof. solve_decision. Defined.

Definition type (v : json_value) : json_value_type :=
  match v with
  | JNull => TNull | JNumber _ => TNumber | JBoolean _ => TBoolean
  | JString _ => TString | JArray _ => TArray | JObject _ => TObject
  end.

Definition get_type_name (t : json_value_type) : bytes :=
  match t with
  | TNull => lit "Null" | TNumber => lit "Number" | TBoolean => lit "Boolean"
  | TString => lit "String" | TArray => lit "Array" | TObject => lit "Object"
  end.

(** ** The writer *)

Module Writer.

(** [JsonOneChar] *)
Definition json_one_char (c : Z) : bytes :=
  [bslash; "u"%char; Coding.hex_digit "0123456789abcdef" (Z.shiftr c 12);
   Coding.hex_digit "0123456789abcdef" (Z.land (Z.shiftr c 8) 15);
   Coding.hex_digit "0123456789abcdef" (Z.land (Z.shiftr c 4) 15);
   Coding.hex_digit "0123456789abcdef" (Z.land c 15)].

(** [JsonChar]; [None] is [UNREACHABLE]. *)
Definition json_char (c : Z) : option bytes :=
  if c <? 0x10000 then
    if (0xD7FF <? c) && (c <? 0xE000) then None else Some (json_one_char c)
  else if c <=? 0x10ffff then
    Some (json_one_char (0xD7C0 + Z.shiftr c 10) ++ json_one_char (0xDC00 + Z.land c 0x3FF))
  else None.

(** The [case] labels shared by [JsonString] and [JsonRawString]. *)
Definition short_escape (ch : Z) : option ascii :=
  if ch =? 34 then Some dquote
  else if ch =? 92 then Some bslash
  else if ch =? 8 then Some "b"%char
  else if ch =? 12 then Some "f"%char
  else if ch =? 10 then Some "n"%char
  else if ch =? 13 then Some "r"%char
  else if ch =? 9 then Some "t"%char
  else None.

(** The loop of [JsonString]; [None] is a failed [CHECK]. *)
Fixpoint json_string_loop (s : bytes) : option bytes :=
  match s with
  | [] => Some []
  | c1 :: s1 =>
    let ch := ord c1 in
    match short_escape ch with
    | Some e => rest ← json_string_loop s1; Some (bslash :: e :: rest)
    | None =>
      if ch <=? 31 then rest ← json_string_loop s1; Some (json_one_char ch ++ rest)
      else if 128 <=? ch then
        let a := ch in
        if Z.land a 0x40 =? 0 then None
        else
        match s1 with
        | [] => None
        | cb :: s2 =>
          let b := ord cb in
          if negb (Z.land b 0xc0 =? 0x80) then None
          else if Z.land a 0x20 =? 0 then
            if Z.land a 0x1e <=? 0 then None
            else
              t ← json_char (Z.lor (Z.shiftl (Z.land a 0x1f) 6) (Z.land b 0x3f));
              rest ← json_string_loop s2; Some (t ++ rest)
          else
          match s2 with
          | [] => None
          | cc :: s3 =>
            let c := ord cc in
            if negb (Z.land c 0xc0 =? 0x80) then None
            else if Z.land a 0x10 =? 0 then
              if Z.lor (Z.land a 0x0f) (Z.land b 0x20) <=? 0 then None
              else
                t ← json_char (Z.lor (Z.lor (Z.shiftl (Z.land a 0x0f) 12) (Z.shiftl (Z.land b 0x3f) 6))
                                     (Z.land c 0x3f));
                rest ← json_string_loop s3; Some (t ++ rest)
            else
            match s3 with
            | [] => None
            | cd :: s4 =>
              let d := ord cd in
              if negb (Z.land d 0xc0 =? 0x80) then None
              else if Z.land a 0x08 =? 0 then
                if Z.lor (Z.land a 0x07) (Z.land b 0x30) <=? 0 then None
                else
                  t ← json_char (Z.lor (Z.lor (Z.lor (Z.shiftl (Z.land a 0x07) 18) (Z.shiftl (Z.land b 0x3f) 12))
                                              (Z.shiftl (Z.land c 0x3f) 6)) (Z.land d 0x3f));
                  rest ← json_string_loop s4; Some (t ++ rest)
              else None
            end
          end
        end
      else rest ← json_string_loop s1; Some (c1 :: rest)
    end
  end.

Definition json_string (str : bytes) : option bytes :=
  body ← json_string_loop str; Some (dquote :: body ++ [dquote]).

(** [JsonRawString]: the bytes above 127 are not looked at. *)
Definition json_raw_char (c : ascii) : bytes :=
  match short_escape (ord c) with
  | Some e => [bslash; e]
  | None => if ord c <=? 31 then json_one_char (ord c) else [c]
  end.
Definition json_raw_string (value : bytes) : bytes := dquote :: (value ≫= json_raw_char) ++ [dquote].

(** The scopes [JsonArrayScope] and [JsonObjectScope]: a comma before each value
    but the first one. *)
Definition elements (store : json_value -> option bytes) : list json_value -> bool -> option bytes :=
  fix elements l first :=
    match l with
    | [] => Some []
    | v :: l =>
      t ← store v; rest ← elements l false;
      Some ((if first : bool then [] else [","%char]) ++ t ++ rest)
    end.

Definition fields (store : json_value -> option bytes) : list (bytes * json_value) -> bool -> option bytes :=
  fix fields l first :=
    match l with
    | [] => Some []
    | (name, v) :: l =>
      f ← json_string name; t ← store v; rest ← fields l false;
      Some ((if first : bool then [] else [","%char]) ++ f ++ ":"%char :: t ++ rest)
    end.

(** [JsonValue::store] *)
Fixpoint store (v : json_value) : option bytes :=
  match v with
  | JNull => Some (lit "null")
  | JBoolean b => Some (if b then lit "true" else lit "false")
  | JNumber text => Some text
  | JString s => json_string s
  | JArray l => body ← elements store l true; Some ("["%char :: body ++ ["]"%char])
  | JObject l => body ← fields store l true; Some ("{"%char :: body ++ ["}"%char])
  end.

(** [json_encode<string>(val)] *)
Definition json_encode (v : json_value) : option bytes := store v.

(** [JsonInt] and [JsonLong] *)
Definition json_int (x : Z) : json_value := JNumber (Integers.print_int int32_min x).
Definition json_long (x : Z) : json_value := JNumber (Integers.print_int int64_min x).

End Writer.

(** ** The parser *)

Module Reader.

Import Parser.

Definition hex4 (a b c d : ascii) : option Z :=
  let '(a, b, c, d) := (Chars.hex_to_int a, Chars.hex_to_int b, Chars.hex_to_int c, Chars.hex_to_int d) in
  if (a =? 16) || (b =? 16) || (c =? 16) || (d =? 16) then None
  else Some (((a * 16 + b) * 16 + c) * 16 + d).

Definition is_surrogate (num : Z) : bool := (0xD7FF <? num) && (num <? 0xE000).

Definition closing_error {A} : result A := Err (Status 0 (quoted "Closing '" dquote "' not found")).
Definition opening_error {A} : result A := Err (Status 0 (quoted "Opening '" dquote "' expected")).

(** The decoded bytes come before the ones of the rest of the string. *)
Definition prepend (b : bytes) (r : result (bytes * bytes)) : result (bytes * bytes) :=
  '(s, rest) ← r; Ok (b ++ s, rest).

(** The char a one-letter escape stands for. *)
Definition unescape (e : ascii) : ascii :=
  if ord e =? 98 then chr 8
  else if ord e =? 102 then chr 12
  else if ord e =? 110 then chr 10
  else if ord e =? 114 then chr 13
  else if ord e =? 116 then chr 9
  else e.

(** The loop of [json_string_decode] from [cur_src] on: what is written at
    [cur_dest] (never beyond [cur_src], so the unread text is intact), and the
    text after the closing quote. *)
Fixpoint string_loop (src : bytes) : result (bytes * bytes) :=
  match src with
  | [] => closing_error
  | c :: s1 =>
    if ord c =? 34 then Ok ([], s1)
    else if ord c =? 92 then
      match s1 with
      | [] => closing_error
      | e :: s2 =>
        if ord e =? 117 then
          match s2 with
          | h1 :: h2 :: h3 :: h4 :: s3 =>
            match hex4 h1 h2 h3 h4 with
            | None => error 0 "Invalid \u -- not hex digit"
            | Some num =>
              if is_surrogate num then
                match s3 with
                | x :: y :: g1 :: g2 :: g3 :: g4 :: s4 =>
                  if (ord x =? 92) && (ord y =? 117) then
                    match hex4 g1 g2 g3 g4 with
                    | None => error 0 "Invalid \u -- not hex digit"
                    | Some new_num =>
                      if is_surrogate new_num then
                        prepend (append_utf8_character
                          (Z.lor (Z.shiftl (Z.land num 0x3FF) 10) (Z.land new_num 0x3FF) + 0x10000))
                          (string_loop s4)
                      else prepend (append_utf8_character num) (string_loop s3)
                    end
                  else prepend (append_utf8_character num) (string_loop s3)
                | _ => prepend (append_utf8_character num) (string_loop s3)
                end
              else prepend (append_utf8_character num) (string_loop s3)
            end
          | _ => error 0 "\u has less than 4 symbols"
          end
        else prepend [unescape e] (string_loop s2)
      end
    else prepend [c] (string_loop s1)
  end.

Definition json_string_decode (p : parser) : result bytes * parser :=
  match try_skip_char dquote p with
  | (false, p) => (opening_error, p)
  | (true, p) =>
    match string_loop (data p) with
    | Ok (s, rest) => (Ok s, set_data p rest)
    | Err e => (Err e, p)
    end
  end.

(** The loop of [json_string_skip]. *)
Fixpoint skip_loop (src : bytes) : result bytes :=
  match src with
  | [] => closing_error
  | c :: s1 =>
    if ord c =? 34 then Ok s1
    else if ord c =? 92 then
      match s1 with
      | [] => closing_error
      | e :: s2 =>
        if ord e =? 117 then
          match s2 with
          | h1 :: h2 :: h3 :: h4 :: s3 =>
            match hex4 h1 h2 h3 h4 with
            | None => error 0 "Invalid \u -- not hex digit"
            | Some num =>
              if is_surrogate num then
                match s3 with
                | x :: y :: g1 :: g2 :: g3 :: g4 :: s4 =>
                  if (ord x =? 92) && (ord y =? 117) then
                    match hex4 g1 g2 g3 g4 with
                    | None => error 0 "Invalid \u -- not hex digit"
                    | Some new_num => if is_surrogate new_num then skip_loop s4 else skip_loop s3
                    end
                  else skip_loop s3
                | _ => skip_loop s3
                end
              else skip_loop s3
            end
          | _ => error 0 "\u has less than 4 symbols"
          end
        else skip_loop s2
      end
    else skip_loop s1
  end.

Definition json_string_skip (p : parser) : result unit * parser :=
  match try_skip_char dquote p with
  | (false, p) => (opening_error, p)
  | (true, p) =>
    match skip_loop (data p) with
    | Ok rest => (Ok tt, set_data p rest)
    | Err e => (Err e, p)
    end
  end.

Definition is_number_start (c : ascii) : bool :=
  (ord c =? 45) || (ord c =? 43) || (ord c =? 46) || ((48 <=? ord c) && (ord c <=? 57)).
Definition is_number_char (c : ascii) : bool :=
  (ord c =? 45) || ((48 <=? ord c) && (ord c <=? 57)) || (ord c =? 101) || (ord c =? 69) || (ord c =? 43)
  || (ord c =? 46).

Definition unexpected {A} (c : ascii) : result A :=
  if (0 <? ord c) && (ord c <? 127) then Err (Status 0 (quoted "Unexpected symbol '" c "'"))
  else error 0 "Unexpected symbol".

(** [try_skip(token)], and the answer. *)
Definition token {A} (word : string) (v : A) (message : string) (p : parser) : option (result A * parser) :=
  match try_skip (lit word) p with
  | (true, p) => Some (Ok v, p)
  | (false, p) => Some (error 0 message, p)
  end.

(** [do_json_decode] and the two [while] loops of its array and object cases;
    [None] means that the fuel is exhausted. *)
Fixpoint do_json_decode (fuel : nat) (p : parser) (max_depth : Z) : option (result json_value * parser) :=
  match fuel with
  | O => None
  | S fuel =>
    if max_depth <? 0 then Some (error 0 "Too big object depth", p)
    else
    let p := skip_whitespaces p in
    let c := peek_char p in
    if ord c =? 102 then token "false" (JBoolean false) "Token starts with 'f' -- false expected" p
    else if ord c =? 116 then token "true" (JBoolean true) "Token starts with 't' -- true expected" p
    else if ord c =? 110 then token "null" JNull "Token starts with 'n' -- null expected" p
    else if ord c =? 34 then
      match json_string_decode p with
      | (Ok s, p) => Some (Ok (JString s), p)
      | (Err e, p) => Some (Err e, p)
      end
    else if ord c =? 91 then
      let p := skip_whitespaces (skip "["%char p) in
      match try_skip_char "]"%char p with
      | (true, p) => Some (Ok (JArray []), p)
      | (false, p) => decode_array fuel p max_depth []
      end
    else if ord c =? 123 then
      let p := skip_whitespaces (skip "{"%char p) in
      match try_skip_char "}"%char p with
      | (true, p) => Some (Ok (JObject []), p)
      | (false, p) => decode_object fuel p max_depth []
      end
    else if is_number_start c then
      let '(num, p) := read_while is_number_char p in Some (Ok (JNumber num), p)
    else if ord c =? 0 then Some (error 0 "Unexpected string end", p)
    else Some (unexpected c, p)
  end
with decode_array (fuel : nat) (p : parser) (max_depth : Z) (res : list json_value)
  : option (result json_value * parser) :=
  match fuel with
  | O => None
  | S fuel =>
    if empty p then Some (error 0 "Unexpected string end", p)
    else
    match do_json_decode fuel p (max_depth - 1) with
    | None => None
    | Some (Err e, p) => Some (Err e, p)
    | Some (Ok value, p) =>
      let res := res ++ [value] in
      let p := skip_whitespaces p in
      match try_skip_char "]"%char p with
      | (true, p) => Some (Ok (JArray res), p)
      | (false, p) =>
        match try_skip_char ","%char p with
        | (true, p) => decode_array fuel (skip_whitespaces p) max_depth res
        | (false, p) =>
          if empty p then Some (error 0 "Unexpected string end", p)
          else Some (error 0 "Unexpected symbol while parsing JSON Array", p)
        end
      end
    end
  end
with decode_object (fuel : nat) (p : parser) (max_depth : Z) (field_values : list (bytes * json_value))
  : option (result json_value * parser) :=
  match fuel with
  | O => None
  | S fuel =>
    if empty p then Some (error 0 "Unexpected string end", p)
    else
    match json_string_decode p with
    | (Err e, p) => Some (Err e, p)
    | (Ok field, p) =>
      let p := skip_whitespaces p in
      match try_skip_char ":"%char p with
      | (false, p) => Some (error 0 "':' expected", p)
      | (true, p) =>
        match do_json_decode fuel p (max_depth - 1) with
        | None => None
        | Some (Err e, p) => Some (Err e, p)
        | Some (Ok value, p) =>
          let field_values := field_values ++ [(field, value)] in
          let p := skip_whitespaces p in
          match try_skip_char "}"%char p with
          | (true, p) => Some (Ok (JObject field_values), p)
          | (false, p) =>
            match try_skip_char ","%char p with
            | (true, p) => decode_object fuel (skip_whitespaces p) max_depth field_values
            | (false, p) =>
              if empty p then Some (error 0 "Unexpected string end", p)
              else Some (error 0 "Unexpected symbol while parsing JSON Object", p)
            end
          end
        end
      end
    end
  end.

(** [do_json_skip], in the same way. *)
Fixpoint do_json_skip (fuel : nat) (p : parser) (max_depth : Z) : option (result unit * parser) :=
  match fuel with
  | O => None
  | S fuel =>
    if max_depth <? 0 then Some (error 0 "Too big object depth", p)
    else
    let p := skip_whitespaces p in
    let c := peek_char p in
    if ord c =? 102 then token "false" tt "Starts with 'f' -- false expected" p
    else if ord c =? 116 then token "true" tt "Starts with 't' -- true expected" p
    else if ord c =? 110 then token "null" tt "Starts with 'n' -- null expected" p
    else if ord c =? 34 then Some (json_string_skip p)
    else if ord c =? 91 then
      let p := skip_whitespaces (skip "["%char p) in
      match try_skip_char "]"%char p with
      | (true, p) => Some (Ok tt, p)
      | (false, p) => skip_array fuel p max_depth
      end
    else if ord c =? 123 then
      let p := skip_whitespaces (skip "{"%char p) in
      match try_skip_char "}"%char p with
      | (true, p) => Some (Ok tt, p)
      | (false, p) => skip_object fuel p max_depth
      end
    else if is_number_start c then
      let '(_, p) := read_while is_number_char p in Some (Ok tt, p)
    else if ord c =? 0 then Some (error 0 "Unexpected end", p)
    else Some (unexpected c, p)
  end
with skip_array (fuel : nat) (p : parser) (max_depth : Z) : option (result unit * parser) :=
  match fuel with
  | O => None
  | S fuel =>
    if empty p then Some (error 0 "Unexpected end", p)
    else
    match do_json_skip fuel p (max_depth - 1) with
    | None => None
    | Some (Err e, p) => Some (Err e, p)
    | Some (Ok _, p) =>
      let p := skip_whitespaces p in
      match try_skip_char "]"%char p with
      | (true, p) => Some (Ok tt, p)
      | (false, p) =>
        match try_skip_char ","%char p with
        | (true, p) => skip_array fuel (skip_whitespaces p) max_depth
        | (false, p) => Some (error 0 "Unexpected symbol", p)
        end
      end
    end
  end
with skip_object (fuel : nat) (p : parser) (max_depth : Z) : option (result unit * parser) :=
  match fuel with
  | O => None
  | S fuel =>
    if empty p then Some (error 0 "Unexpected end", p)
    else
    match json_string_skip p with
    | (Err e, p) => Some (Err e, p)
    | (Ok _, p) =>
      let p := skip_whitespaces p in
      match try_skip_char ":"%char p with
      | (false, p) => Some (error 0 "':' expected", p)
      | (true, p) =>
        match do_json_skip fuel p (max_depth - 1) with
        | None => None
        | Some (Err e, p) => Some (Err e, p)
        | Some (Ok _, p) =>
          let p := skip_whitespaces p in
          match try_skip_char "}"%char p with
          | (true, p) => Some (Ok tt, p)
          | (false, p) =>
            match try_skip_char ","%char p with
            | (true, p) => skip_object fuel (skip_whitespaces p) max_depth
            | (false, p) => Some (error 0 "Unexpected symbol", p)
            end
          end
        end
      end
    end
  end.

(** Enough for a text of this length: a call and a loop turn each take one
    unit, and every second of them consumes a char. *)
Definition fuel_for (p : parser) : nat := 2 * length (data p) + 1.

Definition json_decode (json : bytes) : option (result json_value) :=
  let p := init json in
  match do_json_decode (fuel_for p) p 100 with
  | None => None
  | Some (Err e, _) => Some (Err e)
  | Some (Ok v, p) =>
    let p := skip_whitespaces p in
    if empty p then Some (Ok v) else Some (error 0 "Expected string end")
  end.

End Reader.

(** ** Field access *)

Module Fields.

Section Fields.
Context (field_values : list (bytes * json_value)).

Fixpoint lookup_field (name : bytes) (l : list (bytes * json_value)) : option json_value :=
  match l with
  | [] => None
  | (n, v) :: l => if decide (n = name) then Some v else lookup_field name l
  end.

Definition get_field (name : bytes) : option json_value := lookup_field name field_values.
Definition has_field (name : bytes) : bool := bool_decide (is_Some (get_field name)).
Definition field_count : Z := len field_values.

Definition field_message (name : bytes) (message : bytes) : bytes :=
  lit "Field " ++ [dquote] ++ name ++ [dquote] ++ message.
Definition cant_find {A} (name : bytes) : result A :=
  Err (Status 400 (lit "Can't find field " ++ [dquote] ++ name ++ [dquote])).

Definition bad_type {A} (name : bytes) (t : bytes) : result A :=
  Err (Status 400 (field_message name (lit " must be of type " ++ t))).

(** A value moved out of the object leaves [Null] in its place. *)
Fixpoint take_field (name : bytes) (l : list (bytes * json_value)) : list (bytes * json_value) :=
  match l with
  | [] => []
  | (n, v) :: l => if decide (n = name) then (n, JNull) :: l else (n, v) :: take_field name l
  end.

Definition extract_field (name : bytes) : json_value * list (bytes * json_value) :=
  match get_field name with
  | Some v => (v, take_field name field_values)
  | None => (JNull, field_values)
  end.

(** [extract_optional_field] and [extract_required_field], which differ in the
    answer for a field that is missing. *)
Definition extract_field_of_type (name : bytes) (t : json_value_type) (missing : result json_value)
  : result json_value * list (bytes * json_value) :=
  match get_field name with
  | Some v =>
    if negb (bool_decide (t = TNull)) && negb (bool_decide (type v = t))
    then (bad_type name (get_type_name t), field_values)
    else (Ok v, take_field name field_values)
  | None => (missing, field_values)
  end.
Definition extract_optional_field (name : bytes) (t : json_value_type) :=
  extract_field_of_type name t (Ok JNull).
Definition extract_required_field (name : bytes) (t : json_value_type) :=
  extract_field_of_type name t (cant_find name).

Definition bool_field (name : bytes) (missing : result bool) : result bool :=
  match get_field name with
  | Some (JBoolean b) => Ok b
  | Some _ => bad_type name (lit "Boolean")
  | None => missing
  end.
Definition get_optional_bool_field (name : bytes) (default_value : bool) : result bool :=
  bool_field name (Ok default_value).
Definition get_required_bool_field (name : bytes) : result bool := bool_field name (cant_find name).

Definition get_integer_field (w : Z) (name : bytes) (value : bytes) : result Z :=
  match Integers.to_integer_safe check_utf8 w value with
  | Ok x => Ok x
  | Err _ => Err (Status 400 (field_message name (lit " must be a valid Number")))
  end.

(** [get_optional_int_field] and so on, for [w] = 32 and 64. *)
Definition int_field (w : Z) (name : bytes) (missing : result Z) : result Z :=
  match get_field name with
  | Some (JString s) => get_integer_field w name s
  | Some (JNumber s) => get_integer_field w name s
  | Some _ => Err (Status 400 (field_message name (lit " must be a Number")))
  | None => missing
  end.
Definition get_optional_int_field (name : bytes) (default_value : Z) : result Z :=
  int_field 32 name (Ok default_value).
Definition get_required_int_field (name : bytes) : result Z := int_field 32 name (cant_find name).
Definition get_optional_long_field (name : bytes) (default_value : Z) : result Z :=
  int_field 64 name (Ok default_value).
Definition get_required_long_field (name : bytes) : result Z := int_field 64 name (cant_find name).

Definition string_field (name : bytes) (missing : result bytes) : result bytes :=
  match get_field name with
  | Some (JString s) => Ok s
  | Some (JNumber s) => Ok s
  | Some _ => bad_type name (lit "String")
  | None => missing
  end.
Definition get_optional_string_field (name : bytes) (default_value : bytes) : result bytes :=
  string_field name (Ok default_value).
Definition get_required_string_field (name : bytes) : result bytes := string_field name (cant_find name).

End Fields.

End Fields.

Example decode_example :
  Reader.json_decode (lit " {} ") = Some (Ok (JObject [])).
Proof. reflexivity. Qed.
Example encode_example :
  Writer.json_encode (JArray [JBoolean true; Writer.json_int 12]) = Some (lit "[true,12]").
Proof. reflexivity. Qed.

(** ** Facts: strings *)

Module Export StringFacts.
Import Writer Reader.

(** The text [JsonString] writes for one character. *)
Definition escape_code (code : Z) : bytes :=
  if code <? 128 then
    match short_escape code with
    | Some e => [bslash; e]
    | None => if code <=? 31 then json_one_char code else [chr code]
    end
  else match json_char code with Some t => t | None => [] end.

Definition escape_text (cs : list Z) : bytes := cs ≫= escape_code.

Lemma escape_text_cons code cs : escape_text (code :: cs) = escape_code code ++ escape_text cs.
Proof. done. Qed.

Lemma json_char_scalar code : scalar code -> exists t, json_char code = Some t.
Proof.
  unfold scalar, json_char. intros H. destruct (code <? 0x10000) eqn:E1.
  - destruct ((0xD7FF <? code) && (code <? 0xE000)) eqn:E2; [lia|eauto].
  - rewrite leb_true by lia. eauto.
Qed.

Lemma short_escape_high z : 128 <= z -> short_escape z = None.
Proof. intros. unfold short_escape. by repeat (rewrite (proj2 (Z.eqb_neq _ _)) by lia). Qed.

Lemma byte_escape_low c s : ord c < 128 ->
  json_string_loop (c :: s) = rest ← json_string_loop s; Some (escape_code (ord c) ++ rest).
Proof.
  intros H. cbn [json_string_loop]. unfold escape_code. rewrite ltb_true by lia.
  destruct (short_escape (ord c)); [done|]. destruct (ord c <=? 31); [done|].
  by rewrite leb_false, chr_ord by lia.
Qed.

(** The decoder's view of a lead byte and its continuation bytes is the code. *)
Lemma code_2 code : 0x80 <= code < 0x800 ->
  let a := chr (192 + code / 64) in let b := chr (128 + code mod 64) in
  Z.lor (Z.shiftl (Z.land (ord a) 0x1f) 6) (Z.land (ord b) 0x3f) = code.
Proof.
  intros H a b.
  assert (Hs : scalar code) by (unfold scalar; lia).
  pose proof (next_utf8_append code [] Hs) as Hn.
  rewrite append_2 in Hn by lia. cbn [app next_utf8_unsafe] in Hn. fold a b in Hn.
  rewrite land_80, ltb_false, land_20, ltb_true in Hn by (subst a; bools_lia). congruence.
Qed.

Lemma code_3 code : 0x800 <= code < 0x10000 -> ~ 0xD800 <= code < 0xE000 ->
  let a := chr (224 + code / 4096) in let b := chr (128 + code / 64 mod 64) in
  let c := chr (128 + code mod 64) in
  Z.lor (Z.lor (Z.shiftl (Z.land (ord a) 0x0f) 12) (Z.shiftl (Z.land (ord b) 0x3f) 6)) (Z.land (ord c) 0x3f)
  = code.
Proof.
  intros H H' a b c.
  assert (Hs : scalar code) by (unfold scalar; lia).
  pose proof (next_utf8_append code [] Hs) as Hn.
  rewrite append_3 in Hn by lia. cbn [app next_utf8_unsafe] in Hn. fold a b c in Hn.
  rewrite land_80, ltb_false, land_20, ltb_false, land_10, ltb_true in Hn by (subst a; bools_lia). congruence.
Qed.

Lemma code_4 code : 0x10000 <= code < 0x110000 ->
  let a := chr (240 + code / 262144) in let b := chr (128 + code / 4096 mod 64) in
  let c := chr (128 + code / 64 mod 64) in let d := chr (128 + code mod 64) in
  Z.lor (Z.lor (Z.lor (Z.shiftl (Z.land (ord a) 0x07) 18) (Z.shiftl (Z.land (ord b) 0x3f) 12))
    (Z.shiftl (Z.land (ord c) 0x3f) 6)) (Z.land (ord d) 0x3f) = code.
Proof.
  intros H a b c d.
  assert (Hs : scalar code) by (unfold scalar; lia).
  pose proof (next_utf8_append code [] Hs) as Hn.
  rewrite append_4 in Hn by lia. cbn [app next_utf8_unsafe] in Hn. fold a b c d in Hn.
  rewrite land_80, ltb_false, land_20, ltb_false, land_10, ltb_false, land_08, ltb_true in Hn
    by (subst a; bools_lia). congruence.
Qed.

Lemma lor_pos x y : 0 <= x -> 0 <= y -> (0 < x \/ 0 < y) -> (Z.lor x y <=? 0) = false.
Proof.
  intros Hx Hy H. apply leb_false.
  assert (0 <= Z.lor x y) by (by apply Z.lor_nonneg).
  destruct (decide (Z.lor x y = 0)) as [E%Z.lor_eq_0_iff|]; lia.
Qed.

(** One character in front of a text is written as its escape. *)
Lemma json_string_loop_append code s : scalar code ->
  json_string_loop (append_utf8_character code ++ s)
  = rest ← json_string_loop s; Some (escape_code code ++ rest).
Proof.
  intros Hs. destruct (json_char_scalar code Hs) as [t Ht].
  assert (Hesc : 128 <= code -> escape_code code = t).
  { intros. unfold escape_code. by rewrite ltb_false, Ht by lia. }
  destruct (scalar_cases code Hs) as [?|[?|[[? ?]|?]]].
  - rewrite append_1 by lia. cbn [app]. rewrite byte_escape_low by bools_lia.
    by rewrite ord_chr, Z.mod_small by lia.
  - rewrite append_2 by lia. cbn [app]. pose proof (code_2 code ltac:(lia)) as Hc. cbn zeta in Hc.
    set (a := chr (192 + _)) in *. set (b := chr (128 + code mod 64)) in *. cbn [json_string_loop].
    rewrite short_escape_high, leb_false, leb_true by (subst a; bools_lia).
    rewrite land_40, ltb_false, land_20, ltb_true by (subst a; bools_lia).
    assert (Z.land (ord b) 0xc0 =? 0x80 = true) as -> by (rewrite land_c0; subst b; bools_lia).
    rewrite Hc, Ht, Hesc by lia.
    assert ((Z.land (ord a) 0x1e <=? 0) = false) as ->; [|done].
    apply leb_false, Z.ltb_lt. rewrite land_1e; subst a; bools_lia.
  - rewrite append_3 by lia. cbn [app]. pose proof (code_3 code ltac:(lia) ltac:(lia)) as Hc. cbn zeta in Hc.
    set (a := chr (224 + _)) in *. set (b := chr (128 + code / 64 mod 64)) in *.
    set (c := chr (128 + code mod 64)) in *. cbn [json_string_loop].
    rewrite short_escape_high, leb_false, leb_true by (subst a; bools_lia).
    rewrite land_40, ltb_false, land_20, ltb_false, land_10, ltb_true by (subst a; bools_lia).
    assert (Z.land (ord b) 0xc0 =? 0x80 = true) as -> by (rewrite land_c0; subst b; bools_lia).
    assert (Z.land (ord c) 0xc0 =? 0x80 = true) as -> by (rewrite land_c0; subst c; bools_lia).
    rewrite Hc, Ht, Hesc by lia.
    rewrite lor_pos; [done|..];
      rewrite ?land_lead3 by (subst a; bools_lia); rewrite ?land_cont_20 by (subst b; bools_lia).
    + subst a; bools_lia.
    + case_bool; lia.
    + destruct (decide (code / 4096 = 0)); [right|left; subst a; bools_lia].
      rewrite ltb_false; [lia|subst b; bools_lia].
  - rewrite append_4 by lia. cbn [app]. pose proof (code_4 code ltac:(lia)) as Hc. cbn zeta in Hc.
    set (a := chr (240 + _)) in *. set (b := chr (128 + code / 4096 mod 64)) in *.
    set (c := chr (128 + code / 64 mod 64)) in *. set (d := chr (128 + code mod 64)) in *.
    cbn [json_string_loop].
    rewrite short_escape_high, leb_false, leb_true by (subst a; bools_lia).
    rewrite land_40, ltb_false, land_20, ltb_false, land_10, ltb_false, land_08, ltb_true by (subst a; bools_lia).
    assert (Z.land (ord b) 0xc0 =? 0x80 = true) as -> by (rewrite land_c0; subst b; bools_lia).
    assert (Z.land (ord c) 0xc0 =? 0x80 = true) as -> by (rewrite land_c0; subst c; bools_lia).
    assert (Z.land (ord d) 0xc0 =? 0x80 = true) as -> by (rewrite land_c0; subst d; bools_lia).
    rewrite Hc, Ht, Hesc by lia.
    rewrite lor_pos; [done|..];
      rewrite ?land_lead4 by (subst a; bools_lia); rewrite ?land_cont_30 by (subst b; bools_lia).
    + subst a; bools_lia.
    + subst b; bools_lia.
    + destruct (decide (code / 262144 = 0)); [right; subst b; bools_lia|left; subst a; bools_lia].
Qed.

Lemma json_string_loop_text cs : Forall scalar cs -> json_string_loop (utf8_text cs) = Some (escape_text cs).
Proof.
  induction 1 as [|code cs Hc _ IH]; [done|].
  by rewrite utf8_text_cons, json_string_loop_append, IH.
Qed.

End StringFacts.

(** ** Facts: decoding what the writer wrote *)

Module Export DecodeFacts.
Import Parser Writer Reader.

Lemma hex_digit_int i : 0 <= i < 16 -> Chars.hex_to_int (Coding.hex_digit "0123456789abcdef" i) = i.
Proof.
  intros H. assert (i ∈ seqZ 0 16) as Hi by (apply elem_of_seqZ; lia). clear H. revert i Hi.
  apply Forall_forall. repeat constructor.
Qed.

Lemma hex4_one_char c : 0 <= c < 65536 ->
  hex4 (Coding.hex_digit "0123456789abcdef" (Z.shiftr c 12))
       (Coding.hex_digit "0123456789abcdef" (Z.land (Z.shiftr c 8) 15))
       (Coding.hex_digit "0123456789abcdef" (Z.land (Z.shiftr c 4) 15))
       (Coding.hex_digit "0123456789abcdef" (Z.land c 15)) = Some c.
Proof.
  intros H. unfold hex4. change 15 with (Z.ones 4). rewrite !Z.land_ones, !Z.shiftr_div_pow2 by lia.
  change (2 ^ 12) with 4096. change (2 ^ 8) with 256. change (2 ^ 4) with 16.
  rewrite !hex_digit_int by (Z.to_euclidean_division_equations; lia).
  repeat (rewrite (proj2 (Z.eqb_neq _ _)) by (Z.to_euclidean_division_equations; lia)).
  cbn [orb]. f_equal. Z.to_euclidean_division_equations; lia.
Qed.

Lemma string_loop_u1 c s : 0 <= c < 65536 -> is_surrogate c = false ->
  string_loop (json_one_char c ++ s) = prepend (append_utf8_character c) (string_loop s).
Proof.
  intros Hc Hs. unfold json_one_char. cbn [app string_loop].
  change (ord bslash =? 34) with false. change (ord bslash =? 92) with true.
  change (ord "u"%char =? 117) with true. cbn match. by rewrite hex4_one_char, Hs.
Qed.

Lemma string_loop_u2 c d s : 0 <= c < 65536 -> 0 <= d < 65536 ->
  is_surrogate c = true -> is_surrogate d = true ->
  string_loop (json_one_char c ++ json_one_char d ++ s)
  = prepend (append_utf8_character (Z.lor (Z.shiftl (Z.land c 0x3FF) 10) (Z.land d 0x3FF) + 0x10000)) (string_loop s).
Proof.
  intros Hc Hd Hsc Hsd. unfold json_one_char. cbn [app string_loop].
  change (ord bslash =? 34) with false. change (ord bslash =? 92) with true.
  change (ord "u"%char =? 117) with true. cbn match. rewrite hex4_one_char, Hsc by done.
  cbn [andb]. by rewrite hex4_one_char, Hsd by done.
Qed.

(** The bytes of a pair: the code above the BMP is put together again. *)
Lemma surrogates code : 0x10000 <= code <= 0x10FFFF ->
  let c := 0xD7C0 + Z.shiftr code 10 in let d := 0xDC00 + Z.land code 0x3FF in
  is_surrogate c = true /\ is_surrogate d = true /\ 0 <= c < 65536 /\ 0 <= d < 65536
  /\ Z.lor (Z.shiftl (Z.land c 0x3FF) 10) (Z.land d 0x3FF) + 0x10000 = code.
Proof.
  intros H c d. subst c d. change 0x3FF with (Z.ones 10).
  rewrite !Z.land_ones, Z.shiftr_div_pow2, Z.shiftl_mul_pow2 by lia.
  rewrite (lor_add 10); [|lia|by apply Z.mod_pos_bound|by apply Z.mod_mul].
  unfold is_surrogate. change (2 ^ 10) with 1024. split_and!; bools_lia.
Qed.

Lemma string_loop_escape_low code s : 0 <= code < 128 ->
  string_loop (escape_code code ++ s) = prepend (append_utf8_character code) (string_loop s).
Proof.
  intros H. rewrite append_1 by done. unfold escape_code. rewrite ltb_true by lia.
  destruct (short_escape code) as [e|] eqn:Es.
  - unfold short_escape in Es.
    repeat (case_bool_in Es; [injection Es as <-; apply Z.eqb_eq in Heqb; subst code; done|clear Heqb]).
    done.
  - destruct (code <=? 31) eqn:E31.
    + rewrite string_loop_u1, append_1 by (try lia; unfold is_surrogate; bools_lia). done.
    + cbn [app string_loop]. rewrite ord_chr, Z.mod_small by lia. unfold short_escape in Es.
      by repeat (case_bool_in Es; [done|]).
Qed.

Lemma string_loop_escape code s : scalar code ->
  string_loop (escape_code code ++ s) = prepend (append_utf8_character code) (string_loop s).
Proof.
  intros Hs. destruct (decide (code < 128)).
  { apply string_loop_escape_low. unfold scalar in Hs. lia. }
  unfold escape_code. rewrite ltb_false by lia. unfold json_char, scalar in *.
  destruct (code <? 0x10000) eqn:E1.
  - assert (is_surrogate code = false) as E2.
    { unfold is_surrogate. rewrite andb_false_iff, !Z.ltb_ge. lia. }
    unfold is_surrogate in E2. rewrite E2. apply string_loop_u1; [lia|done].
  - rewrite leb_true by lia. rewrite <-(assoc_L _).
    destruct (surrogates code) as (H1 & H2 & H3 & H4 & H5); [lia|].
    rewrite string_loop_u2 by done. by rewrite H5.
Qed.

Lemma prepend_prepend a b r : prepend a (prepend b r) = prepend (a ++ b) r.
Proof. destruct r as [[s rest]|e]; [|done]. cbn. by rewrite (assoc_L _). Qed.

Lemma string_loop_text cs s : Forall scalar cs ->
  string_loop (escape_text cs ++ s) = prepend (utf8_text cs) (string_loop s).
Proof.
  induction 1 as [|code cs Hc _ IH].
  - cbn. by destruct (string_loop s) as [[? ?]|?].
  - by rewrite escape_text_cons, utf8_text_cons, <-(assoc_L _), string_loop_escape, IH, prepend_prepend.
Qed.

(** A string and its text in the output. *)
Lemma json_string_round_trip s : check_utf8 s = true -> exists t, json_string s = Some t
  /\ (exists b, t = dquote :: b)
  /\ forall rest, json_string_decode (init (t ++ rest)) = (Ok s, init rest).
Proof.
  intros (cs & Hcs & ->)%check_utf8_codes.
  exists (dquote :: escape_text cs ++ [dquote]). split; [|split; [eauto|]].
  - unfold json_string. by rewrite json_string_loop_text.
  - intros rest. unfold json_string_decode, try_skip_char, init, data. cbn [app p_data].
    rewrite decide_True by done. cbn [p_data set_data]. rewrite <-(assoc_L _), string_loop_text by done.
    cbn [app string_loop]. change (ord dquote =? 34) with true. cbn [prepend mbind result_bind].
    by rewrite app_nil_r.
Qed.

(** Skipping a string is decoding it and forgetting the result. *)
Lemma skip_loop_spec src :
  skip_loop src = match string_loop src with Ok (_, rest) => Ok rest | Err e => Err e end.
Proof.
  assert (Hp : forall b r, match prepend b r with Ok (_, rest) => Ok rest | Err e => Err e end
    = match r with Ok (_, rest) => Ok rest | Err e => Err e end).
  { by intros b [[? ?]|?]. }
  remember (length src) as n eqn:En. revert src En. induction (lt_wf n) as [n _ IH]. intros src ->.
  assert (IH' : forall s, (length s < length src)%nat ->
    skip_loop s = match string_loop s with Ok (_, rest) => Ok rest | Err e => Err e end) by eauto.
  clear IH. destruct src as [|c s1]; [done|]. cbn [skip_loop string_loop].
  destruct (ord c =? 34); [done|]. destruct (ord c =? 92); [|rewrite Hp; apply IH'; simpl; lia].
  destruct s1 as [|e s2]; [done|]. destruct (ord e =? 117); [|rewrite Hp; apply IH'; simpl; lia].
  destruct s2 as [|h1 [|h2 [|h3 [|h4 s3]]]]; try done.
  destruct (hex4 h1 h2 h3 h4) as [num|]; [|done].
  destruct (is_surrogate num); [|rewrite Hp; apply IH'; simpl; lia].
  destruct s3 as [|x [|y [|g1 [|g2 [|g3 [|g4 s4]]]]]]; try (rewrite Hp; apply IH'; simpl; lia).
  destruct ((ord x =? 92) && (ord y =? 117)); [|rewrite Hp; apply IH'; simpl; lia].
  destruct (hex4 g1 g2 g3 g4) as [new|]; [|done].
  destruct (is_surrogate new); rewrite Hp; apply IH'; simpl; lia.
Qed.

Lemma json_string_skip_spec p :
  json_string_skip p = match json_string_decode p with (Ok _, p) => (Ok tt, p) | (Err e, p) => (Err e, p) end.
Proof.
  unfold json_string_skip, json_string_decode. destruct (try_skip_char dquote p) as [[] p']; [|done].
  rewrite skip_loop_spec. by destruct (string_loop (data p')) as [[? ?]|?].
Qed.

End DecodeFacts.

(** ** Facts: values *)

Module Export ValueFacts.
Import Parser Writer Reader.

Section Induction.
Context (P : json_value -> Prop).
Context (Hnull : P JNull) (Hnum : forall t, P (JNumber t)) (Hbool : forall b, P (JBoolean b))
  (Hstr : forall s, P (JString s)) (Harr : forall l, Forall P l -> P (JArray l))
  (Hobj : forall l, Forall (fun f => P (snd f)) l -> P (JObject l)).

Fixpoint json_value_nested_ind (v : json_value) : P v :=
  match v with
  | JNull => Hnull
  | JNumber t => Hnum t
  | JBoolean b => Hbool b
  | JString s => Hstr s
  | JArray l =>
    Harr l ((fix go l : Forall P l :=
      match l with
      | [] => List.Forall_nil _
      | v :: l => List.Forall_cons _ _ _ (json_value_nested_ind v) (go l)
      end) l)
  | JObject l =>
    Hobj l ((fix go l : Forall (fun f => P (snd f)) l :=
      match l with
      | [] => List.Forall_nil _
      | f :: l => List.Forall_cons _ _ _ (json_value_nested_ind (snd f)) (go l)
      end) l)
  end.
End Induction.

(** The values a document can hold: texts in UTF-8, numbers in the parser's alphabet. *)
Definition number_text (t : bytes) : bool :=
  match t with c :: _ => is_number_start c && forallb is_number_char t | [] => false end.

Fixpoint wf_value (v : json_value) : bool :=
  match v with
  | JNull | JBoolean _ => true
  | JNumber t => number_text t
  | JString s => check_utf8 s
  | JArray l => forallb wf_value l
  | JObject l => forallb (fun f => check_utf8 (fst f) && wf_value (snd f)) l
  end.

Fixpoint depth (v : json_value) : Z :=
  match v with
  | JArray l => foldr (fun v d => Z.max (1 + depth v) d) 0 l
  | JObject l => foldr (fun f d => Z.max (1 + depth (snd f)) d) 0 l
  | _ => 0
  end.

Definition value_start (c : ascii) : bool :=
  is_number_start c || (ord c =? 110) || (ord c =? 116) || (ord c =? 102) || (ord c =? 34) || (ord c =? 91)
  || (ord c =? 123).

Lemma value_start_spec c : value_start c = true ->
  contains c whitespace = false /\ c <> "]"%char /\ c <> "}"%char.
Proof.
  intros H. assert (implb (value_start c) (negb (contains c whitespace) && negb (bool_decide (c = "]"%char))
    && negb (bool_decide (c = "}"%char))) = true) as E by (clear H; revert c; all_chars).
  rewrite H in E. cbn [implb] in E.
  rewrite !andb_true_iff, !negb_true_iff, !bool_decide_eq_false in E. tauto.
Qed.

Lemma skip_ws_id c s : contains c whitespace = false -> skip_whitespaces (init (c :: s)) = init (c :: s).
Proof.
  intros H. unfold skip_whitespaces, skip_till_not, init, p_data. cbn [span]. by rewrite H.
Qed.
Lemma skip_ws_nil : skip_whitespaces (init []) = init [].
Proof. done. Qed.

Lemma try_skip_char_yes c s : try_skip_char c (init (c :: s)) = (true, init s).
Proof. unfold try_skip_char, init. cbn. by rewrite decide_True. Qed.
Lemma try_skip_char_no c x s : x <> c -> try_skip_char c (init (x :: s)) = (false, init (x :: s)).
Proof. intros. unfold try_skip_char, init. cbn. by rewrite decide_False. Qed.

(** The text after a value does not continue a number. *)
Definition ends_number (rest : bytes) : bool :=
  match rest with c :: _ => negb (is_number_char c) | [] => true end.

Lemma read_number t rest : forallb is_number_char t = true -> ends_number rest = true ->
  read_while is_number_char (init (t ++ rest)) = (t, init rest).
Proof.
  intros Ht Hr. unfold read_while, init. cbn [p_data].
  assert (Forall (fun x => negb (is_number_char x) = false) t) as Ht'.
  { induction t as [|c t IH]; [constructor|]. cbn [forallb] in Ht.
    apply andb_true_iff in Ht as [Hc Ht]. constructor; [by rewrite Hc|auto]. }
  destruct rest as [|c rest].
  - by rewrite app_nil_r, span_all.
  - by rewrite (span_stop _ t c rest) by done.
Qed.

(** What the writer produces for a value is read back as that value. *)
Definition reads_back (v : json_value) : Prop :=
  wf_value v = true -> exists t, store v = Some t /\ (exists c t', t = c :: t' /\ value_start c = true)
  /\ forall fuel d rest r, depth v <= d -> ends_number rest = true ->
     do_json_decode fuel (init (t ++ rest)) d = Some r -> r = (Ok v, init rest).

Lemma decode_start fuel c s d : 0 <= d -> value_start c = true ->
  do_json_decode (S fuel) (init (c :: s)) d =
    if ord c =? 102 then token "false" (JBoolean false) "Token starts with 'f' -- false expected" (init (c :: s))
    else if ord c =? 116 then token "true" (JBoolean true) "Token starts with 't' -- true expected" (init (c :: s))
    else if ord c =? 110 then token "null" JNull "Token starts with 'n' -- null expected" (init (c :: s))
    else if ord c =? 34 then
      match json_string_decode (init (c :: s)) with
      | (Ok s, p) => Some (Ok (JString s), p)
      | (Err e, p) => Some (Err e, p)
      end
    else if ord c =? 91 then
      let p := skip_whitespaces (skip "["%char (init (c :: s))) in
      match try_skip_char "]"%char p with
      | (true, p) => Some (Ok (JArray []), p)
      | (false, p) => decode_array fuel p d []
      end
    else if ord c =? 123 then
      let p := skip_whitespaces (skip "{"%char (init (c :: s))) in
      match try_skip_char "}"%char p with
      | (true, p) => Some (Ok (JObject []), p)
      | (false, p) => decode_object fuel p d []
      end
    else let '(num, p) := read_while is_number_char (init (c :: s)) in Some (Ok (JNumber num), p).
Proof.
  intros Hd Hc. cbn [do_json_decode]. rewrite ltb_false by lia.
  rewrite skip_ws_id by (by apply value_start_spec). cbn zeta.
  change (peek_char (init (c :: s))) with c.
  unfold value_start in Hc.
  destruct (ord c =? 102); [done|]. destruct (ord c =? 116); [done|]. destruct (ord c =? 110); [done|].
  destruct (ord c =? 34); [done|]. destruct (ord c =? 91); [done|]. destruct (ord c =? 123); [done|].
  rewrite !orb_false_r in Hc. by rewrite Hc.
Qed.

Lemma token_yes {A} word (v : A) m s :
  token word v m (init (lit word ++ s)) = Some (Ok v, init s).
Proof. unfold token. by rewrite try_skip_app. Qed.

End ValueFacts.

Module Export RoundTripFacts.
Import Parser Writer Reader.

Lemma store_array l : store (JArray l) = body ← elements store l true; Some ("["%char :: body ++ ["]"%char]).
Proof. done. Qed.
Lemma store_object l : store (JObject l) = body ← fields store l true; Some ("{"%char :: body ++ ["}"%char]).
Proof. done. Qed.

Lemma reads_back_scalar v t : store v = Some t ->
  (exists c t', t = c :: t' /\ value_start c = true) ->
  (forall fuel d rest, 0 <= d -> ends_number rest = true ->
    do_json_decode (S fuel) (init (t ++ rest)) d = Some (Ok v, init rest)) ->
  0 <= depth v -> reads_back v.
Proof.
  intros Ht Hs H Hd _. exists t. split_and!; [done|done|]. intros [|fuel] d rest r Hd' He Hr; [done|].
  rewrite H in Hr by (done || lia). congruence.
Qed.

Lemma reads_back_null : reads_back JNull.
Proof.
  apply (reads_back_scalar _ (lit "null")); [done|by eexists _, _|intros fuel d rest Hd _|done].
  change (lit "null" ++ rest) with ("n"%char :: lit "ull" ++ rest).
  rewrite decode_start by done. apply (token_yes "null").
Qed.

Lemma reads_back_bool b : reads_back (JBoolean b).
Proof.
  destruct b.
  - apply (reads_back_scalar _ (lit "true")); [done|by eexists _, _|intros fuel d rest Hd _|done].
    change (lit "true" ++ rest) with ("t"%char :: lit "rue" ++ rest).
    rewrite decode_start by done. apply (token_yes "true").
  - apply (reads_back_scalar _ (lit "false")); [done|by eexists _, _|intros fuel d rest Hd _|done].
    change (lit "false" ++ rest) with ("f"%char :: lit "alse" ++ rest).
    rewrite decode_start by done. apply (token_yes "false").
Qed.

Lemma number_start_class c : is_number_start c = true ->
  value_start c = true /\ (ord c =? 102) = false /\ (ord c =? 116) = false /\ (ord c =? 110) = false
  /\ (ord c =? 34) = false /\ (ord c =? 91) = false /\ (ord c =? 123) = false.
Proof.
  unfold value_start. intros H. rewrite H. split; [done|]. revert H. unfold is_number_start.
  rewrite !orb_true_iff, andb_true_iff, !Z.eqb_eq, !Z.leb_le, !Z.eqb_neq. lia.
Qed.

Lemma reads_back_number t : reads_back (JNumber t).
Proof.
  intros Hwf. unfold wf_value, number_text in Hwf. destruct t as [|c t]; [done|].
  apply andb_true_iff in Hwf as [Hc Hall].
  destruct (number_start_class c Hc) as (Hv & E1 & E2 & E3 & E4 & E5 & E6).
  eapply (reads_back_scalar (JNumber (c :: t))); [done|by eexists _, _| |done|by cbn [wf_value number_text]; rewrite Hc, Hall].
  intros fuel d rest Hd He. cbn [app]. rewrite decode_start by done. rewrite E1, E2, E3, E4, E5, E6.
  pose proof (read_number (c :: t) rest Hall He) as Hr. cbn [app] in Hr. by rewrite Hr.
Qed.

Lemma reads_back_string s : reads_back (JString s).
Proof.
  intros Hwf. destruct (json_string_round_trip s Hwf) as (t & Ht & (b & ->) & Hd).
  eapply (reads_back_scalar (JString s)); [done|by eexists _, _| |done|done].
  intros fuel d rest ? _. cbn [app]. rewrite decode_start by done.
  change (ord dquote =? 102) with false. change (ord dquote =? 116) with false.
  change (ord dquote =? 110) with false. change (ord dquote =? 34) with true. cbn match.
  pose proof (Hd rest) as Hr. cbn [app] in Hr. by rewrite Hr.
Qed.

Lemma elements_start v l body : elements store (v :: l) true = Some body ->
  exists t rest, store v = Some t /\ elements store l false = Some rest /\ body = t ++ rest.
Proof.
  cbn [elements]. destruct (store v) as [t|]; [|done]. cbn.
  destruct (elements store l false) as [r|]; [|done]. cbn. intros [= <-]. eauto.
Qed.

Lemma elements_comma v l : elements store (v :: l) false = b ← elements store (v :: l) true; Some (","%char :: b).
Proof. cbn [elements]. destruct (store v); [|done]. cbn. by destruct (elements store l false). Qed.

Lemma depth_nonneg v : 0 <= depth v.
Proof.
  destruct v as [| | | |l|l]; try done; cbn [depth].
  - induction l as [|v l IH]; cbn [foldr]; lia.
  - induction l as [|v l IH]; cbn [foldr]; lia.
Qed.

Lemma depth_array v l d : depth (JArray (v :: l)) <= d -> depth v <= d - 1 /\ depth (JArray l) <= d.
Proof. cbn [depth foldr]. lia. Qed.
Lemma depth_object n v l d : depth (JObject ((n, v) :: l)) <= d -> depth v <= d - 1 /\ depth (JObject l) <= d.
Proof. cbn [depth foldr snd]. lia. Qed.

Lemma value_start_no_close c : value_start c = true -> c <> "]"%char /\ c <> "}"%char.
Proof. intros (_ & ? & ?)%value_start_spec. done. Qed.

Lemma value_start_not_empty c s : empty (init (c :: s)) = false.
Proof. done. Qed.

(** The loop over the elements of an array, on the writer's text. *)
Lemma decode_elements l : Forall reads_back l -> forall v res, reads_back v ->
  forallb wf_value (v :: l) = true -> exists body, elements store (v :: l) true = Some body
  /\ (exists c t', body = c :: t' /\ value_start c = true)
  /\ forall fuel d rest r, depth (JArray (v :: l)) <= d ->
     decode_array fuel (init (body ++ "]"%char :: rest)) d res = Some r ->
     r = (Ok (JArray (res ++ v :: l)), init rest).
Proof.
  induction 1 as [|v2 l Hv2 Hl IH]; intros v res Hv Hwf; cbn [forallb] in Hwf;
    apply andb_true_iff in Hwf as [Hwv Hwl];
    destruct (Hv Hwv) as (t & Ht & (c & t' & -> & Hc) & Hdec).
  - exists (c :: t'). split; [|split; [eauto|]].
    + cbn [elements]. rewrite Ht. cbn. by rewrite app_nil_r.
    + intros [|fuel] d rest r Hd; [done|]. cbn [decode_array app].
      rewrite value_start_not_empty. destruct (do_json_decode _ _ _) as [[[v'|e] p']|] eqn:E; [..|done];
      apply (Hdec fuel (d - 1) ("]"%char :: rest)) in E; try done; try (by apply depth_array in Hd as [? _]).
      injection E as -> ->. rewrite skip_ws_id by done. by rewrite try_skip_char_yes; intros [= <-].
  - destruct (IH v2 (res ++ [v]) Hv2 Hwl) as (body & Hb & (c2 & b' & -> & Hc2) & Hloop).
    exists ((c :: t') ++ ","%char :: c2 :: b'). split; [|split; [cbn [app]; eauto|]].
    + change (elements store (v :: v2 :: l) true) with
        (t ← store v; rest ← elements store (v2 :: l) false; Some ([] ++ t ++ rest)).
      rewrite elements_comma, Hb, Ht. done.
    + intros [|fuel] d rest r Hd; [done|]. rewrite <-(assoc_L _). cbn [decode_array app].
      rewrite value_start_not_empty. apply depth_array in Hd as [Hd1 Hd2].
      destruct (do_json_decode _ _ _) as [[[v'|e] p']|] eqn:E; [..|done];
      eapply (Hdec fuel (d - 1) (","%char :: c2 :: b' ++ "]"%char :: rest)) in E; try done.
      injection E as -> ->. rewrite skip_ws_id by done.
      rewrite try_skip_char_no, try_skip_char_yes, skip_ws_id by (done || by apply value_start_spec).
      intros Hr. apply (Hloop fuel d rest) in Hr; [|done]. by rewrite Hr, <-(assoc_L _).
Qed.

Lemma reads_back_array l : Forall reads_back l -> reads_back (JArray l).
Proof.
  intros Hl Hwf. destruct Hl as [|v l Hv Hl].
  - eapply (reads_back_scalar (JArray [])); [done|by eexists _, _| |done|done].
    intros fuel d rest Hd _. cbn [app]. by rewrite decode_start by done.
  - destruct (decode_elements l Hl v [] Hv Hwf) as (body & Hb & (c & b' & -> & Hc) & Hloop).
    exists ("["%char :: (c :: b') ++ ["]"%char]). split; [|split; [by eexists _, _|]].
    + by rewrite store_array, Hb.
    + intros [|fuel] d rest r Hd _; [done|]. cbn [app].
      pose proof (depth_nonneg (JArray (v :: l))). assert (0 <= d) by lia.
      rewrite decode_start by done. cbn zeta. change (ord "["%char) with 91. cbn [Z.eqb Pos.eqb].
      rewrite skip_spec, skip_ws_id by by apply value_start_spec.
      rewrite try_skip_char_no by by apply value_start_no_close.
      intros Hr. eapply (Hloop fuel d rest); [done|]. rewrite <-Hr. by rewrite <-(assoc_L _).
Qed.

Lemma fields_comma f l : fields store (f :: l) false = b ← fields store (f :: l) true; Some (","%char :: b).
Proof.
  destruct f as [n v]. cbn [fields]. destruct (json_string n); [|done]. cbn.
  destruct (store v); [|done]. cbn. by destruct (fields store l false).
Qed.

(** The loop over the fields of an object, on the writer's text. *)
Lemma decode_fields l : Forall (fun f => reads_back (snd f)) l -> forall n v res, reads_back v ->
  forallb (fun f => check_utf8 (fst f) && wf_value (snd f)) ((n, v) :: l) = true ->
  exists body, fields store ((n, v) :: l) true = Some body
  /\ (exists t', body = dquote :: t')
  /\ forall fuel d rest r, depth (JObject ((n, v) :: l)) <= d ->
     decode_object fuel (init (body ++ "}"%char :: rest)) d res = Some r ->
     r = (Ok (JObject (res ++ (n, v) :: l)), init rest).
Proof.
  induction 1 as [|[n2 v2] l Hv2 Hl IH]; intros n v res Hv Hwf; cbn [forallb fst snd] in Hwf;
    apply andb_true_iff in Hwf as [[Hwn Hwv]%andb_true_iff Hwl];
    destruct (Hv Hwv) as (t & Ht & (c & t' & -> & Hc) & Hdec);
    destruct (json_string_round_trip n Hwn) as (f & Hf & (f' & ->) & Hstr).
  - exists ((dquote :: f') ++ ":"%char :: c :: t'). split; [|split; [cbn [app]; eauto|]].
    + cbn [fields]. rewrite Hf, Ht. cbn. by rewrite app_nil_r.
    + intros [|fuel] d rest r Hd; [done|]. apply depth_object in Hd as [Hd1 Hd2].
      rewrite <-(assoc_L _). cbn [decode_object app]. rewrite value_start_not_empty.
      pose proof (Hstr (":"%char :: c :: t' ++ "}"%char :: rest)) as Hs. cbn [app] in Hs. rewrite Hs.
      rewrite skip_ws_id, try_skip_char_yes by done.
      destruct (do_json_decode _ _ _) as [[[v'|e] p']|] eqn:E; [..|done];
      apply (Hdec fuel (d - 1) ("}"%char :: rest)) in E; try done.
      injection E as -> ->. rewrite skip_ws_id by done. by rewrite try_skip_char_yes; intros [= <-].
  - destruct (IH n2 v2 (res ++ [(n, v)]) Hv2 Hwl) as (body & Hb & (b' & ->) & Hloop).
    exists ((dquote :: f') ++ ":"%char :: (c :: t') ++ ","%char :: dquote :: b').
    split; [|split; [cbn [app]; eauto|]].
    + change (fields store ((n, v) :: (n2, v2) :: l) true) with
        (f ← json_string n; t ← store v; rest ← fields store ((n2, v2) :: l) false;
         Some ([] ++ f ++ ":"%char :: t ++ rest)).
      by rewrite fields_comma, Hb, Ht, Hf.
    + intros [|fuel] d rest r Hd; [done|]. apply depth_object in Hd as [Hd1 Hd2].
      rewrite <-(assoc_L _). cbn [decode_object app]. rewrite value_start_not_empty.
      rewrite <-(assoc_L _). cbn [app].
      pose proof (Hstr (":"%char :: c :: t' ++ ","%char :: dquote :: b' ++ "}"%char :: rest)) as Hs.
      cbn [app] in Hs. rewrite Hs. rewrite skip_ws_id, try_skip_char_yes by done.
      destruct (do_json_decode _ _ _) as [[[v'|e] p']|] eqn:E; [..|done];
      apply (Hdec fuel (d - 1) (","%char :: dquote :: b' ++ "}"%char :: rest)) in E; try done.
      injection E as -> ->. rewrite skip_ws_id by done.
      rewrite try_skip_char_no, try_skip_char_yes, skip_ws_id by done.
      intros Hr. apply (Hloop fuel d rest) in Hr; [|done]. by rewrite Hr, <-(assoc_L _).
Qed.

Lemma reads_back_object l : Forall (fun f => reads_back (snd f)) l -> reads_back (JObject l).
Proof.
  intros Hl Hwf. destruct Hl as [|[n v] l Hv Hl].
  - eapply (reads_back_scalar (JObject [])); [done|by eexists _, _| |done|done].
    intros fuel d rest Hd _. cbn [app]. by rewrite decode_start by done.
  - destruct (decode_fields l Hl n v [] Hv Hwf) as (body & Hb & (b' & ->) & Hloop).
    exists ("{"%char :: (dquote :: b') ++ ["}"%char]). split; [|split; [by eexists _, _|]].
    + by rewrite store_object, Hb.
    + intros [|fuel] d rest r Hd _; [done|]. cbn [app].
      pose proof (depth_nonneg (JObject ((n, v) :: l))). assert (0 <= d) by lia.
      rewrite decode_start by done. cbn zeta. change (ord "{"%char) with 123. cbn [Z.eqb Pos.eqb].
      rewrite skip_spec, skip_ws_id, try_skip_char_no by done.
      intros Hr. eapply (Hloop fuel d rest); [done|]. rewrite <-Hr. by rewrite <-(assoc_L _).
Qed.

Lemma reads_back_all v : reads_back v.
Proof.
  induction v using json_value_nested_ind;
    eauto using reads_back_null, reads_back_bool, reads_back_number, reads_back_string, reads_back_array,
      reads_back_object.
Qed.

End RoundTripFacts.

(** ** Facts: termination, and the skipping parser *)

Module Export ParserFacts.
Import Parser Writer Reader.

Definition ws (s : bytes) : bytes := snd (span (fun x => negb (contains x whitespace)) s).

Lemma skip_ws_init s : skip_whitespaces (init s) = init (ws s).
Proof. unfold skip_whitespaces, skip_till_not, ws, init. cbn [p_data]. by destruct (span _ s). Qed.

Lemma span_length stop s : (length (snd (span stop s)) <= length s)%nat.
Proof.
  induction s as [|c s IH]; [done|]. cbn [span]. destruct (stop c); [done|].
  destruct (span stop s). simpl in *. lia.
Qed.

Lemma ws_length s : (length (ws s) <= length s)%nat.
Proof. apply span_length. Qed.

Lemma try_skip_char_cases c s :
  (exists s', s = c :: s' /\ try_skip_char c (init s) = (true, init s')) \/ try_skip_char c (init s) = (false, init s).
Proof.
  destruct s as [|x s]; [by right|]. destruct (decide (x = c)) as [->|].
  - left. exists s. split; [done|]. apply try_skip_char_yes.
  - right. by apply try_skip_char_no.
Qed.

Lemma string_loop_length src s rest : string_loop src = Ok (s, rest) -> (length rest < length src)%nat.
Proof.
  assert (Hp : forall b r, prepend b r = Ok (s, rest) -> exists s', r = Ok (s', rest)).
  { intros b [[s' r']|e]; cbn; [intros [= _ <-]; eauto|done]. }
  enough (forall n src s, length src = n -> string_loop src = Ok (s, rest) -> (length rest < length src)%nat) by eauto.
  clear. intros n. induction (lt_wf n) as [n _ IH]. intros src s <-.
  assert (IH' : forall b s1, (length s1 < length src)%nat -> prepend b (string_loop s1) = Ok (s, rest) ->
    (length rest < length s1)%nat).
  { intros b s1 Hl. destruct (string_loop s1) as [[s' r']|e] eqn:E; [|done]. cbn. intros [= _ <-]. eauto. }
  clear IH. destruct src as [|c s1]; [done|]. cbn [string_loop].
  destruct (ord c =? 34); [intros [= _ <-]; simpl; lia|].
  destruct (ord c =? 92); [|intros H; apply IH' in H; simpl in *; lia].
  destruct s1 as [|e s2]; [done|]. destruct (ord e =? 117); [|intros H; apply IH' in H; simpl in *; lia].
  destruct s2 as [|h1 [|h2 [|h3 [|h4 s3]]]]; try done.
  destruct (hex4 h1 h2 h3 h4) as [num|]; [|done].
  destruct (is_surrogate num); [|intros H; apply IH' in H; simpl in *; lia].
  destruct s3 as [|x [|y [|g1 [|g2 [|g3 [|g4 s4]]]]]]; try (intros H; apply IH' in H; simpl in *; lia).
  destruct ((ord x =? 92) && (ord y =? 117)); [|intros H; apply IH' in H; simpl in *; lia].
  destruct (hex4 g1 g2 g3 g4) as [new|]; [|done].
  destruct (is_surrogate new); intros H; apply IH' in H; simpl in *; lia.
Qed.

Lemma string_decode_init s : exists r s', json_string_decode (init s) = (r, init s')
  /\ (length s' <= length s)%nat /\ (is_ok r = true -> (length s' < length s)%nat).
Proof.
  unfold json_string_decode. destruct (try_skip_char_cases dquote s) as [(s1 & -> & ->)| ->].
  - change (data (init s1)) with s1. destruct (string_loop s1) as [[d rest]|e] eqn:E.
    + apply string_loop_length in E. exists (Ok d), rest. split; [done|]. simpl. lia.
    + exists (Err e), s1. split; [done|]. simpl. split; [lia|done].
  - exists opening_error, s. done.
Qed.

(** A call returns, and leaves a suffix that is no longer than the text it got. *)
Definition returns {A} (o : option (result A * parser)) (s : bytes) : Prop :=
  exists r s', o = Some (r, init s') /\ (length s' <= length s)%nat.

Lemma returns_intro {A} (r : result A) s s' : (length s' <= length s)%nat -> returns (Some (r, init s')) s.
Proof. intros. by exists r, s'. Qed.

Lemma returns_weaken {A} (o : option (result A * parser)) s s' :
  returns o s -> (length s <= length s')%nat -> returns o s'.
Proof. intros (r & s1 & -> & ?) ?. exists r, s1. split; [done|lia]. Qed.

Lemma token_returns {A} word (v : A) m s : returns (token word v m (init s)) s.
Proof.
  unfold token. destruct (try_skip (lit word) (init s)) as [[] [d st]] eqn:E.
  - apply try_skip_true in E as [Hd Hst]. cbn in Hd, Hst. subst. apply returns_intro.
    rewrite length_app. lia.
  - apply try_skip_false in E as [-> _]. by apply returns_intro.
Qed.

Lemma skip_peek c s : ord (peek_char (init s)) = ord c -> ord c <> 0 ->
  exists s', s = c :: s' /\ skip c (init s) = init s'.
Proof.
  destruct s as [|x s]; intros Hp Hc.
  - exfalso. apply Hc. by rewrite <-Hp.
  - apply ord_inj in Hp. change (x = c) in Hp. subst x. exists s. split; [done|]. apply skip_spec.
Qed.

Lemma decode_returns fuel :
  (forall s d, (2 * length s + 1 <= fuel)%nat -> returns (do_json_decode fuel (init s) d) s)
  /\ (forall s d res, (2 * length s + 2 <= fuel)%nat -> returns (decode_array fuel (init s) d res) s)
  /\ (forall s d res, (2 * length s + 2 <= fuel)%nat -> returns (decode_object fuel (init s) d res) s).
Proof.
  induction fuel as [|fuel (IHv & IHa & IHo)]; [split_and!; intros; lia|]. split_and!; intros s d.
  - intros Hf. cbn [do_json_decode]. case_bool; [by apply returns_intro|].
    rewrite skip_ws_init. cbn zeta. pose proof (ws_length s) as Hw.
    apply (returns_weaken _ (ws s)); [|done]. revert Hw. generalize (ws s). intros s1 Hw.
    do 3 (case_bool; [apply token_returns|]).
    case_bool.
    { destruct (string_decode_init s1) as (r & s2 & -> & ? & _). destruct r; by apply returns_intro. }
    case_bool.
    { apply Z.eqb_eq in Heqb4. destruct (skip_peek "["%char s1) as (s2 & -> & ->); [done|done|].
      rewrite skip_ws_init. pose proof (ws_length s2). simpl in *.
      destruct (try_skip_char_cases "]"%char (ws s2)) as [(s3 & E & ->)| ->].
      - apply returns_intro. rewrite E in H. simpl in *. lia.
      - apply (returns_weaken _ (ws s2)); [apply IHa|]; simpl in *; lia. }
    case_bool.
    { apply Z.eqb_eq in Heqb5. destruct (skip_peek "{"%char s1) as (s2 & -> & ->); [done|done|].
      rewrite skip_ws_init. pose proof (ws_length s2). simpl in *.
      destruct (try_skip_char_cases "}"%char (ws s2)) as [(s3 & E & ->)| ->].
      - apply returns_intro. rewrite E in H. simpl in *. lia.
      - apply (returns_weaken _ (ws s2)); [apply IHo|]; simpl in *; lia. }
    case_bool.
    { unfold read_while. cbn [p_data init]. pose proof (span_length (fun x => negb (is_number_char x)) s1).
      destruct (span _ s1) as [a b]. by apply returns_intro. }
    case_bool; by apply returns_intro.
  - intros res Hf. cbn [decode_array]. case_bool; [by apply returns_intro|].
    destruct (IHv s (d - 1)) as (r & s1 & -> & H1); [lia|].
    destruct r as [v|e]; [|by apply returns_intro].
    rewrite skip_ws_init. pose proof (ws_length s1). cbn zeta.
    destruct (try_skip_char_cases "]"%char (ws s1)) as [(s3 & E & ->)| ->].
    { apply returns_intro. rewrite E in H. simpl in *. lia. }
    destruct (try_skip_char_cases ","%char (ws s1)) as [(s3 & E & ->)| ->].
    + rewrite skip_ws_init. pose proof (ws_length s3). rewrite E in H. simpl in *.
      apply (returns_weaken _ (ws s3)); [apply IHa|]; lia.
    + case_bool; apply returns_intro; lia.
  - intros res Hf. cbn [decode_object]. case_bool; [by apply returns_intro|].
    destruct (string_decode_init s) as (r & s0 & -> & H0 & H0').
    destruct r as [f|e]; [|by apply returns_intro].
    rewrite skip_ws_init. pose proof (ws_length s0). cbn zeta.
    specialize (H0' eq_refl).
    destruct (try_skip_char_cases ":"%char (ws s0)) as [(s00 & E0 & ->)| ->]; [|apply returns_intro; lia].
    rewrite E0 in H. simpl in H.
    destruct (IHv s00 (d - 1)) as (r & s1 & -> & H1); [lia|].
    destruct r as [v|e]; [|apply returns_intro; lia].
    rewrite skip_ws_init. pose proof (ws_length s1) as H2. cbn zeta.
    destruct (try_skip_char_cases "}"%char (ws s1)) as [(s3 & E & ->)| ->].
    { apply returns_intro. rewrite E in H2. simpl in *. lia. }
    destruct (try_skip_char_cases ","%char (ws s1)) as [(s3 & E & ->)| ->].
    + rewrite skip_ws_init. pose proof (ws_length s3). rewrite E in H2. simpl in *.
      apply (returns_weaken _ (ws s3)); [apply IHo|]; lia.
    + case_bool; apply returns_intro; lia.
Qed.

(** Both parsers stop at the same place, and accept the same texts. *)
Definition agree {A B} (o1 : option (result A * parser)) (o2 : option (result B * parser)) : Prop :=
  match o1, o2 with
  | Some (r1, p1), Some (r2, p2) => is_ok r1 = is_ok r2 /\ p1 = p2
  | None, None => True
  | _, _ => False
  end.

Lemma token_agree {A B} word (v : A) (w : B) m m' p : agree (token word v m p) (token word w m' p).
Proof. unfold token. by destruct (try_skip (lit word) p) as [[] p']. Qed.

Lemma decode_skip_agree fuel :
  (forall p d, agree (do_json_decode fuel p d) (do_json_skip fuel p d))
  /\ (forall p d res, agree (decode_array fuel p d res) (skip_array fuel p d))
  /\ (forall p d res, agree (decode_object fuel p d res) (skip_object fuel p d)).
Proof.
  induction fuel as [|fuel (IHv & IHa & IHo)]; [done|]. split_and!; intros p d.
  - cbn [do_json_decode do_json_skip]. case_bool; [done|]. cbn zeta.
    do 3 (case_bool; [apply token_agree|]).
    case_bool.
    { rewrite json_string_skip_spec. by destruct (json_string_decode _) as [[s|e] p']. }
    case_bool.
    { by destruct (try_skip_char _ _) as [[] p']. }
    case_bool.
    { by destruct (try_skip_char _ _) as [[] p']. }
    case_bool; [by destruct (read_while _ _)|].
    case_bool; [done|]. unfold unexpected. by case_bool.
  - intros res. cbn [decode_array skip_array]. case_bool; [done|].
    pose proof (IHv p (d - 1)) as H. unfold agree in H.
    destruct (do_json_decode fuel p (d - 1)) as [[[v|e] p1]|], (do_json_skip fuel p (d - 1)) as [[[u|e2] p2]|];
      try done; destruct H as [? ->]; try done.
    cbn zeta. destruct (try_skip_char "]"%char _) as [[] p3]; [done|].
    destruct (try_skip_char ","%char _) as [[] p4]; [done|]. by case_bool.
  - intros res. cbn [decode_object skip_object]. case_bool; [done|].
    rewrite json_string_skip_spec. destruct (json_string_decode p) as [[f|e] p0]; [|done]. cbn zeta.
    destruct (try_skip_char ":"%char _) as [[] p']; [|done].
    pose proof (IHv p' (d - 1)) as H. unfold agree in H.
    destruct (do_json_decode fuel p' (d - 1)) as [[[v|e] p1]|], (do_json_skip fuel p' (d - 1)) as [[[u|e2] p2]|];
      try done; destruct H as [? ->]; try done.
    destruct (try_skip_char "}"%char _) as [[] p3]; [done|].
    destruct (try_skip_char ","%char _) as [[] p4]; [done|]. by case_bool.
Qed.

End ParserFacts.

Lemma json_encode_decode v : wf_value v = true -> depth v <= 100 ->
  exists t, Writer.json_encode v = Some t /\ Reader.json_decode t = Some (Ok v).
Proof.
  intros Hwf Hd. destruct (reads_back_all v Hwf) as (t & Ht & _ & Hdec). exists t. split; [done|].
  unfold Reader.json_decode. destruct (proj1 (decode_returns (Reader.fuel_for (Parser.init t))) t 100) as (r & s & E & _); [done|].
  rewrite E. specialize (Hdec (Reader.fuel_for (Parser.init t)) 100 [] (r, Parser.init s)).
  rewrite app_nil_r in Hdec. by injection (Hdec Hd eq_refl E) as -> ->.
Qed.

(** ** Properties *)

Import Parser Writer Reader.

(** C40. JSON round trip.  Every value whose texts are UTF-8, whose numbers are in
    the parser's alphabet and whose nesting is at most 100 is written without a
    failed check, and [json_decode] of the text is that value. *)
Theorem json_round_trip (v : json_value) :
  wf_value v = true -> depth v <= 100 ->
  exists t, json_encode v = Some t /\ json_decode t = Some (Ok v).
Proof.
  intros Hwf Hd. by apply json_encode_decode.
Qed.

Lemma json_round_trip_witness : exists t,
  json_encode (JObject [(lit "ok", JBoolean false); (lit "error_code", json_int 404);
    (utf8_text [233; 128512], JArray [JNull; JString [chr 10; dquote]])]) = Some t
  /\ json_decode t = Some (Ok (JObject [(lit "ok", JBoolean false); (lit "error_code", json_int 404);
    (utf8_text [233; 128512], JArray [JNull; JString [chr 10; dquote]])])).
Proof. apply json_round_trip; [reflexivity|discriminate]. Defined.

(** The parser and the skipper.  Both always return with the fuel
    [json_decode] gives them, which is linear in the text.  On every text,
    [do_json_skip] succeeds exactly when [do_json_decode] does, and leaves the
    parser in the same state. *)
Theorem json_skip_agrees (s : bytes) (max_depth : Z) :
  let fuel := fuel_for (init s) in
  exists r s' u, do_json_decode fuel (init s) max_depth = Some (r, init s')
  /\ do_json_skip fuel (init s) max_depth = Some (u, init s')
  /\ is_ok u = is_ok r /\ (length s' <= length s)%nat.
Proof.
  cbn zeta. destruct (proj1 (decode_returns (fuel_for (init s))) s max_depth) as (r & s' & E & Hl); [done|].
  pose proof (proj1 (decode_skip_agree (fuel_for (init s))) (init s) max_depth) as H. rewrite E in H.
  unfold agree in H. destruct (do_json_skip _ _ _) as [[u p]|]; [|done]. destruct H as [H <-].
  by exists r, s', u.
Qed.
