(* ===== verification/HttpHeader.v ===== *)
(** * Fixed buffers and HTTP headers

    [td/utils/StringBuilder.h]/[.cpp] over a caller's buffer (the growing builder
    of [PSTRING] is list append), and [td/net/HttpHeaderCreator.h]/[.cpp], which
    builds every response and request head of the server in a buffer of 4096
    bytes. *)

From S2P Require Import Prelude TdMisc.

(** ** [StringBuilder] with [use_buffer_ = false] *)

Module Builder.

(** The text from [begin_ptr_] to [current_ptr_], [end_ptr_ - begin_ptr_], and
    [error_flag_].  The buffer goes on for [RESERVED_SIZE] bytes after [end_ptr_]. *)
Record builder := mk_builder { b_text : bytes; b_end : Z; b_error : bool }.

Definition RESERVED_SIZE : Z := 30.

(** The constructor, on a slice of [size] bytes. *)
Definition init (size : Z) : builder :=
  if size <=? RESERVED_SIZE then mk_builder [] 100 false else mk_builder [] (size - RESERVED_SIZE) false.

Definition on_error (b : builder) : builder := mk_builder (b_text b) (b_end b) true.
Definition append (b : builder) (s : bytes) : builder := mk_builder (b_text b ++ s) (b_end b) (b_error b).

Definition reserve (b : builder) : bool := len (b_text b) <? b_end b.
Definition reserve_size (b : builder) (size : Z) : bool :=
  (len (b_text b) <? b_end b) && (size <=? b_end b - len (b_text b)).

(** [operator<<(Slice)] *)
Definition put_slice (b : builder) (s : bytes) : builder :=
  if reserve_size b (len s) then append b s
  else if b_end b <? len (b_text b) then on_error b
  else
    let available_size := b_end b + RESERVED_SIZE - 1 - len (b_text b) in
    if available_size <? len s then on_error (append b (take (Z.to_nat available_size) s))
    else append b s.

(** [operator<<(char)] *)
Definition put_char (b : builder) (c : ascii) : builder :=
  if reserve b then append b [c] else on_error b.

(** [operator<<(int)], for a type whose minimum is [tmin]. *)
Definition put_int (tmin : Z) (b : builder) (x : Z) : builder :=
  if reserve b then append b (Integers.print_int tmin x) else on_error b.

(** What is written in one [<<] chain. *)
Inductive piece := S (s : bytes) | C (c : ascii) | I (x : Z).

Definition put (b : builder) (p : piece) : builder :=
  match p with S s => put_slice b s | C c => put_char b c | I x => put_int int32_min b x end.
Definition put_all (b : builder) (l : list piece) : builder := foldl put b l.

Definition piece_text (p : piece) : bytes :=
  match p with S s => s | C c => [c] | I x => Integers.print_int int32_min x end.
Definition text_of (l : list piece) : bytes := l ≫= piece_text.

End Builder.

(** ** [HttpHeaderCreator] *)

Module Header.
Import Builder.

Inductive protocol := Http | Https.
#[export] Instance protocol_eq_dec : EqDecision protocol.
Proof. solve_decision. Defined.

Definition MAX_HEADER : Z := 4096.
Definition crlf : bytes := [chr 13; chr 10].

Definition creator : Type := builder.
Definition init : creator := Builder.init MAX_HEADER.

Definition get_status_line (http_status_code : Z) : bytes :=
  lit (if http_status_code =? 200 then "OK"
  else if http_status_code =? 201 then "Created"
  else if http_status_code =? 202 then "Accepted"
  else if http_status_code =? 204 then "No Content"
  else if http_status_code =? 206 then "Partial Content"
  else if http_status_code =? 301 then "Moved Permanently"
  else if http_status_code =? 302 then "Found"
  else if http_status_code =? 303 then "See Other"
  else if http_status_code =? 304 then "Not Modified"
  else if http_status_code =? 307 then "Temporary Redirect"
  else if http_status_code =? 308 then "Permanent Redirect"
  else if http_status_code =? 400 then "Bad Request"
  else if http_status_code =? 401 then "Unauthorized"
  else if http_status_code =? 403 then "Forbidden"
  else if http_status_code =? 404 then "Not Found"
  else if http_status_code =? 405 then "Method Not Allowed"
  else if http_status_code =? 406 then "Not Acceptable"
  else if http_status_code =? 408 then "Request Timeout"
  else if http_status_code =? 409 then "Conflict"
  else if http_status_code =? 410 then "Gone"
  else if http_status_code =? 411 then "Length Required"
  else if http_status_code =? 412 then "Precondition Failed"
  else if http_status_code =? 413 then "Request Entity Too Large"
  else if http_status_code =? 414 then "Request-URI Too Long"
  else if http_status_code =? 415 then "Unsupported Media Type"
  else if http_status_code =? 416 then "Range Not Satisfiable"
  else if http_status_code =? 417 then "Expectation Failed"
  else if http_status_code =? 418 then "I'm a teapot"
  else if http_status_code =? 421 then "Misdirected Request"
  else if http_status_code =? 426 then "Upgrade Required"
  else if http_status_code =? 429 then "Too Many Requests"
  else if http_status_code =? 431 then "Request Header Fields Too Large"
  else if http_status_code =? 480 then "Temporarily Unavailable"
  else if http_status_code =? 501 then "Not Implemented"
  else if http_status_code =? 502 then "Bad Gateway"
  else if http_status_code =? 503 then "Service Unavailable"
  else if http_status_code =? 505 then "HTTP Version Not Supported"
  else "Internal Server Error").

Definition init_ok : creator := put_all init [S (lit "HTTP/1.1 200 OK" ++ crlf)].
Definition init_get (url : bytes) : creator := put_all init [S (lit "GET "); S url; S (lit " HTTP/1.1" ++ crlf)].
Definition init_post (url : bytes) : creator := put_all init [S (lit "POST "); S url; S (lit " HTTP/1.1" ++ crlf)].
Definition init_error (code : Z) (reason : bytes) : creator :=
  put_all init [S (lit "HTTP/1.1 "); I code; C " "%char; S reason; S crlf].
Definition init_status_line (http_status_code : Z) : creator :=
  init_error http_status_code (get_status_line http_status_code).

Definition add_header (hc : creator) (key value : bytes) : creator :=
  put_all hc [S key; S (lit ": "); S value; S crlf].
Definition set_content_type (hc : creator) (type : bytes) : creator := add_header hc (lit "Content-Type") type.
Definition set_content_size (hc : creator) (size : Z) : creator :=
  add_header hc (lit "Content-Length") (Integers.print_uint size).
Definition set_keep_alive (hc : creator) : creator := add_header hc (lit "Connection") (lit "keep-alive").

Definition default_port (protocol : protocol) (port : Z) : bool :=
  (bool_decide (protocol = Https) && (port =? 443)) || (bool_decide (protocol = Http) && (port =? 80)).

Definition add_host_header (hc : creator) (protocol : protocol) (host : bytes) (port : Z) : creator :=
  let hc := put_all hc [S (lit "Host: ")] in
  let hc := if default_port protocol port then put_all hc [S host] else put_all hc [S host; C ":"%char; I port] in
  put_all hc [S crlf].

Definition get_host_header (protocol : protocol) (host : bytes) (port : Z) : bytes :=
  if default_port protocol port then host else host ++ ":"%char :: Integers.print_int int32_min port.

Definition finish (hc : creator) (content : bytes) : result bytes :=
  let hc := put_all hc [S crlf] in
  let hc := if bool_decide (content = []) then hc else put_all hc [S content] in
  if b_error hc then error 0 "Too many headers" else Ok (b_text hc).

End Header.

(** ** Facts *)

Import Builder.

Lemma put_end b p : b_end (put b p) = b_end b.
Proof.
  destruct p; cbn [put]; unfold put_slice, put_char, put_int, append, on_error; cbn zeta;
    repeat case_bool; done.
Qed.

Lemma put_all_end b l : b_end (put_all b l) = b_end b.
Proof. revert b. induction l as [|p l IH]; intros b; [done|]. cbn [put_all foldl]. by rewrite IH, put_end. Qed.

Lemma put_all_app b l k : put_all b (l ++ k) = put_all (put_all b l) k.
Proof. apply foldl_app. Qed.

Lemma text_of_app l k : text_of (l ++ k) = text_of l ++ text_of k.
Proof. unfold text_of. by rewrite bind_app. Qed.
Lemma text_of_cons p l : text_of (p :: l) = piece_text p ++ text_of l.
Proof. done. Qed.

(** An error is kept; without one, every byte was written. *)
Lemma put_spec b p : b_error (put b p) = false -> b_error b = false /\ b_text (put b p) = b_text b ++ piece_text p.
Proof.
  destruct p; cbn [put]; unfold put_slice, put_char, put_int, append, on_error; cbn zeta;
    repeat case_bool; cbn; done.
Qed.

Lemma put_all_spec l : forall b, b_error (put_all b l) = false ->
  b_error b = false /\ b_text (put_all b l) = b_text b ++ text_of l.
Proof.
  induction l as [|p l IH]; intros b H; [by rewrite app_nil_r|].
  apply IH in H as [H1 H2]. apply put_spec in H1 as [H0 H1]. split; [done|].
  cbn [put_all foldl]. unfold put_all in H2. rewrite H2, H1, text_of_cons. by rewrite (assoc_L _).
Qed.

Lemma digits_rev_length fuel x : (length (Integers.digits_rev fuel x) <= fuel)%nat.
Proof.
  revert x. induction fuel as [|fuel IH]; intros x; [done|]. cbn [Integers.digits_rev length].
  case_bool; [specialize (IH (x / 10))|simpl]; lia.
Qed.

Lemma print_uint_length x : 1 <= len (Integers.print_uint x) <= 20.
Proof.
  unfold Integers.print_uint, len. repeat case_bool; [cbn; lia|cbn; lia|].
  rewrite length_reverse. pose proof (digits_rev_length 20 x). split; [|lia].
  cbn [Integers.digits_rev length]. lia.
Qed.

Lemma print_int_length x : 1 <= len (Integers.print_int int32_min x) <= 22.
Proof.
  unfold Integers.print_int, Integers.print_neg. case_bool; [case_bool|].
  - pose proof (print_uint_length (- (x + 1))). rewrite len_app, len_cons, len_nil.
    unfold len in *. rewrite length_take. simpl. lia.
  - rewrite len_cons. pose proof (print_uint_length (- x)). lia.
  - pose proof (print_uint_length x). lia.
Qed.

(** Nothing is written past the buffer: there is always room for the terminator. *)
Definition in_buffer (b : builder) : Prop := 0 < b_end b /\ len (b_text b) < b_end b + RESERVED_SIZE.

Lemma init_in_buffer size : in_buffer (init size).
Proof. unfold in_buffer, init, RESERVED_SIZE. case_bool; cbn [b_text b_end]; change (len []) with 0; lia. Qed.

Lemma put_in_buffer b p : in_buffer b -> in_buffer (put b p).
Proof.
  unfold in_buffer. rewrite put_end. intros [He Hb]. split; [done|].
  destruct p as [s|c|x]; cbn [put]; unfold put_slice, put_char, put_int, append, on_error, reserve, reserve_size;
    cbn zeta; unfold RESERVED_SIZE in *; repeat case_bool; cbn [b_text]; rewrite ?len_app, ?len_cons, ?len_nil; try lia.
  - unfold len. rewrite length_take. fold (len (b_text b)). lia.
  - pose proof (print_int_length x). lia.
Qed.

(** A piece that fits before the reserved tail is written in full. *)
Lemma put_fits b p : b_error b = false -> len (b_text b) + len (piece_text p) <= b_end b ->
  b_error (put b p) = false.
Proof.
  destruct p as [s|c|x]; cbn [put piece_text]; unfold put_slice, put_char, put_int, append, on_error, reserve, reserve_size;
    cbn zeta; unfold RESERVED_SIZE; rewrite ?len_cons, ?len_nil; intros He Hl.
  - pose proof (len_nonneg s). repeat case_bool; cbn; try done; lia.
  - case_bool; [done|]. lia.
  - pose proof (print_int_length x). case_bool; [done|]. lia.
Qed.

Lemma put_all_fits l : forall b, b_error b = false -> len (b_text b) + len (text_of l) <= b_end b ->
  b_error (put_all b l) = false.
Proof.
  induction l as [|p l IH]; intros b He Hl; [done|]. rewrite text_of_cons, len_app in Hl.
  pose proof (len_nonneg (text_of l)). assert (Hp : b_error (put b p) = false) by (apply put_fits; [done|lia]).
  apply IH; [done|]. destruct (put_spec b p Hp) as [_ ->]. rewrite put_end, len_app. lia.
Qed.

Lemma put_all_in_buffer l : forall b, in_buffer b -> in_buffer (put_all b l).
Proof. induction l as [|p l IH]; intros b Hb; [done|]. by apply IH, put_in_buffer. Qed.

(** ** Properties *)

Import Header.

(** The chain of [<<] a response head is made of. *)
Definition head_pieces (code : Z) (headers : list (bytes * bytes)) : list piece :=
  [S (lit "HTTP/1.1 "); I code; C " "%char; S (get_status_line code); S crlf]
  ++ headers ≫= (fun '(k, v) => [S k; S (lit ": "); S v; S crlf]).

Definition head_text (code : Z) (headers : list (bytes * bytes)) : bytes :=
  text_of (head_pieces code headers) ++ crlf.

Lemma creator_pieces code headers :
  foldl (fun hc '(k, v) => add_header hc k v) (init_status_line code) headers
  = put_all init (head_pieces code headers).
Proof.
  unfold head_pieces, init_status_line, init_error. rewrite put_all_app.
  generalize (put_all init [S (lit "HTTP/1.1 "); I code; C " "%char; S (get_status_line code); S crlf]).
  induction headers as [|[k v] l IH]; intros b; [done|]. cbn [foldl]. rewrite IH. rewrite bind_cons.
  by rewrite put_all_app.
Qed.

(** Heads of responses.  Whatever status and headers are put in a
    [HttpHeaderCreator], nothing is written past its 4096 bytes (the check of
    [as_cslice] cannot fail); [finish] either fails or returns exactly the status
    line, the headers in order and the empty line; and it does not fail when that
    text has at most 4066 bytes. *)
Theorem header_creator_spec (code : Z) (headers : list (bytes * bytes)) :
  let hc := foldl (fun hc '(k, v) => add_header hc k v) (init_status_line code) headers in
  len (b_text (put_all hc [S crlf])) < b_end hc + RESERVED_SIZE
  /\ (forall text, finish hc [] = Ok text -> text = head_text code headers)
  /\ (len (head_text code headers) <= 4066 -> finish hc [] = Ok (head_text code headers)).
Proof.
  cbn zeta. rewrite creator_pieces. unfold finish. rewrite bool_decide_true by done. rewrite <-put_all_app.
  assert (Ht : text_of (head_pieces code headers ++ [S crlf]) = head_text code headers).
  { rewrite text_of_app. done. }
  assert (Hok : b_error (put_all init (head_pieces code headers ++ [S crlf])) = false ->
    b_text (put_all init (head_pieces code headers ++ [S crlf])) = head_text code headers).
  { intros H. apply put_all_spec in H as [_ ->]. by rewrite Ht. }
  split_and!.
  - rewrite put_all_end. destruct (put_all_in_buffer (head_pieces code headers ++ [S crlf]) init) as [_ H];
      [apply init_in_buffer|]. by rewrite put_all_end in H.
  - intros text. case_bool; [done|]. intros [= <-]. by apply Hok.
  - intros Hl. rewrite put_all_fits; [by rewrite Hok by by apply put_all_fits; rewrite ?Ht|done|by rewrite Ht].
Qed.

Lemma header_creator_spec_witness :
  finish (foldl (fun hc '(k, v) => add_header hc k v) (init_status_line 404)
    [(lit "Content-Type", lit "application/json")]) []
  = Ok (head_text 404 [(lit "Content-Type", lit "application/json")]).
Proof. apply (header_creator_spec 404 [(lit "Content-Type", lit "application/json")]). discriminate. Defined.
