(* ===== verification/IPAddress.v ===== *)
(** * IP addresses

    [td/utils/port/IPAddress.cpp]: the part of [td::IPAddress] the server uses to
    classify peers and webhook targets.  [inet_pton] is the operating system's. *)

From S2P Require Import Prelude TdMisc.

Import Integers.

(** [IPAddress]: invalid, [sockaddr_in] (address as a host-order [uint32]) or
    [sockaddr_in6] (16 bytes). *)
Inductive ip_address :=
| Invalid
| V4 (ip : Z) (port : Z)
| V6 (ip : bytes) (port : Z).

(** [operator==]: the addresses of the two families are compared with their ports. *)
#[export] Instance ip_address_eq_dec : EqDecision ip_address.
Proof. solve_decision. Defined.

Definition is_valid (a : ip_address) : bool := match a with Invalid => false | _ => true end.
Definition is_ipv4 (a : ip_address) : bool := match a with V4 _ _ => true | _ => false end.
Definition is_ipv6 (a : ip_address) : bool := match a with V6 _ _ => true | _ => false end.

(** [None]: a failed [CHECK]. *)
Definition get_ipv4 (a : ip_address) : option Z := match a with V4 ip _ => Some ip | _ => None end.
Definition get_ipv6 (a : ip_address) : option bytes := match a with V6 ip _ => Some ip | _ => None end.

Definition ipv4 (a b c d : Z) : Z :=
  Z.lor (Z.lor (Z.shiftl a 24) (Z.shiftl b 16)) (Z.lor (Z.shiftl c 8) d).

(** The table of [is_reserved]. *)
Definition blocks : list (Z * Z) :=
  [(ipv4 0 0 0 0, 8); (ipv4 10 0 0 0, 8); (ipv4 100 64 0 0, 10); (ipv4 127 0 0 0, 8);
   (ipv4 169 254 0 0, 16); (ipv4 172 16 0 0, 12); (ipv4 192 0 0 0, 24); (ipv4 192 0 2 0, 24);
   (ipv4 192 88 99 0, 24); (ipv4 192 168 0 0, 16); (ipv4 198 18 0 0, 15); (ipv4 198 51 100 0, 24);
   (ipv4 203 0 113 0, 24); (ipv4 224 0 0 0, 3)].

Definition uint32_max : Z := 4294967295.

Definition in_block (ip : Z) (block : Z * Z) : bool :=
  let '(range, mask_len) := block in
  let mask := Z.land (Z.shiftl (Z.shiftr uint32_max (32 - mask_len)) (32 - mask_len)) uint32_max in
  Z.land ip mask =? Z.land range mask.

(** [is_reserved]; [None] is [CHECK(is_valid())] failing. *)
Definition is_reserved (a : ip_address) : option bool :=
  match a with
  | Invalid => None
  | V6 _ _ => Some true
  | V4 ip _ => Some (existsb (in_block ip) blocks)
  end.

(** The results 1, 0 and -1 of [inet_pton]; the last one with the status that
    [OS_SOCKET_ERROR] makes of [errno]. *)
Inductive pton_result (A : Type) := PtonOk (a : A) | PtonBad | PtonError (e : status).
Arguments PtonOk {A} a.
Arguments PtonBad {A}.
Arguments PtonError {A} e.

Section Pton.
(** [inet_pton(AF_INET, ...)] and [inet_pton(AF_INET6, ...)]. *)
Variable inet_pton4 : bytes -> pton_result Z.
Variable inet_pton6 : bytes -> pton_result bytes.

Definition port_invalid (port : Z) : bool := (port <=? 0) || (Z.shiftl 1 16 <=? port).
Definition port_error (family : string) (port : Z) : result unit :=
  Err (Status 0 (lit "Invalid [" ++ lit family ++ lit " address port=" ++ print_int int32_min port ++ lit "]")).
Definition pton_error (family : string) (address : bytes) : result unit :=
  Err (Status 0 (lit "Failed inet_pton(" ++ lit family ++ lit ", " ++ address ++ lit ")")).

(** The address after the call, and the status. *)
Definition init_ipv4_port (ipv4 : bytes) (port : Z) : ip_address * result unit :=
  if port_invalid port then (Invalid, port_error "IPv4" port)
  else match inet_pton4 ipv4 with
       | PtonBad => (Invalid, pton_error "AF_INET" ipv4)
       | PtonError e => (Invalid, Err e)
       | PtonOk ip => (V4 ip port, Ok tt)
       end.

Definition init_ipv6_port (ipv6 : bytes) (port : Z) : ip_address * result unit :=
  if port_invalid port then (Invalid, port_error "IPv6" port)
  else
    let ipv6 :=
      if (2 <? len ipv6) && bool_decide (head ipv6 = Some "["%char) && bool_decide (last ipv6 = Some "]"%char)
      then take (length ipv6 - 2) (drop 1 ipv6) else ipv6 in
    match inet_pton6 ipv6 with
    | PtonBad => (Invalid, pton_error "AF_INET6" ipv6)
    | PtonError e => (Invalid, Err e)
    | PtonOk ip => (V6 ip port, Ok tt)
    end.
End Pton.

(** [get_port], [set_port]; the port is converted to [uint16].  [None] is a failed
    [CHECK]. *)
Definition get_port (a : ip_address) : Z := match a with Invalid => 0 | V4 _ port | V6 _ port => port end.
Definition set_port (a : ip_address) (port : Z) : option ip_address :=
  match a with Invalid => None | V4 ip _ => Some (V4 ip (wrap 16 port)) | V6 ip _ => Some (V6 ip (wrap 16 port)) end.

Section Text.
(** [inet_ntop] for the two families, and [inet_addr] ([None] is [INADDR_NONE]). *)
Variable inet_ntop4 : Z -> bytes.
Variable inet_ntop6 : bytes -> bytes.
Variable inet_addr : bytes -> option Z.
Variable inet_pton4 : bytes -> pton_result Z.
Variable inet_pton6 : bytes -> pton_result bytes.

Definition get_ip_str (a : ip_address) : bytes :=
  match a with Invalid => lit "0.0.0.0" | V4 ip _ => inet_ntop4 ip | V6 ip _ => inet_ntop6 ip end.

Definition get_ip_host (a : ip_address) : bytes :=
  match a with Invalid => lit "0.0.0.0" | V4 ip _ => inet_ntop4 ip | V6 ip _ => lit "[" ++ inet_ntop6 ip ++ lit "]" end.

Definition not_valid {A} (host : bytes) (what : string) : result A :=
  Err (Status 0 (chr 34 :: host ++ chr 34 :: lit " is not a valid " ++ lit what ++ lit " address")).

Definition get_ipv4_address (host : bytes) : result ip_address :=
  match inet_addr host with
  | None => not_valid host "IPv4"
  | Some ip => let '(result, status) := init_ipv4_port inet_pton4 (inet_ntop4 ip) 1 in (fun _ => result) <$> status
  end.

Definition get_ipv6_address (host : bytes) : result ip_address :=
  let '(result, status) := init_ipv6_port inet_pton6 host 1 in
  if is_error status then not_valid host "IPv6" else Ok result.

Definition get_ip_address (host : bytes) : result ip_address :=
  match get_ipv4_address host with
  | Ok a => Ok a
  | Err _ => match get_ipv6_address host with Ok a => Ok a | Err _ => not_valid host "IP" end
  end.

End Text.

(** [clear_ipv6_interface]: the interface identifier, the low 8 bytes, is zeroed. *)
Definition clear_ipv6_interface (a : ip_address) : ip_address :=
  match a with
  | V6 ip port => V6 (take 8 ip ++ replicate 8 (chr 0)) port
  | _ => a
  end.

(** ** Facts *)

(** Masking out the low bits compares the quotients. *)
Lemma land_high_mask k x :
  0 <= k <= 32 -> 0 <= x < 2 ^ 32 ->
  Z.land x (Z.land (Z.shiftl (Z.shiftr uint32_max k) k) uint32_max) = x / 2 ^ k * 2 ^ k.
Proof.
  intros Hk Hx. change uint32_max with (Z.ones 32).
  rewrite (Z.land_comm _ (Z.ones 32)), Z.land_assoc, Z.land_ones, Z.mod_small by lia.
  rewrite <-Z.shiftr_div_pow2, <-Z.shiftl_mul_pow2 by lia.
  apply Z.bits_inj'. intros n Hn. rewrite Z.land_spec.
  destruct (Z.ltb_spec n k).
  - rewrite !(Z.shiftl_spec_low _ k n) by done. apply andb_false_r.
  - rewrite !Z.shiftl_spec, !Z.shiftr_spec by lia. replace (n - k + k) with n by lia.
    destruct (Z.ltb_spec n 32).
    + rewrite Z.ones_spec_low by lia. apply andb_true_r.
    + rewrite (Z.bits_above_log2 x n), andb_false_l; [done|lia|].
      destruct (Z.eq_dec x 0) as [->|]; [simpl; lia|].
      apply Z.log2_lt_pow2; [lia|]. apply Z.lt_le_trans with (2 ^ 32); [lia|].
      apply Z.pow_le_mono_r; lia.
Qed.

Lemma in_block_spec ip range m :
  0 <= m <= 32 -> 0 <= ip < 2 ^ 32 -> 0 <= range < 2 ^ 32 ->
  in_block ip (range, m) = true <-> ip / 2 ^ (32 - m) = range / 2 ^ (32 - m).
Proof.
  intros Hm Hip Hr. unfold in_block.
  rewrite !land_high_mask by lia. rewrite Z.eqb_eq.
  assert (0 < 2 ^ (32 - m)) by (apply Z.pow_pos_nonneg; lia). nia.
Qed.

(** The first and last address of a block. *)
Definition block_range (block : Z * Z) (ip : Z) : Prop :=
  fst block <= ip < fst block + 2 ^ (32 - snd block).

Lemma is_reserved_spec ip port :
  0 <= ip < 2 ^ 32 ->
  is_reserved (V4 ip port) = Some true <-> Exists (fun b => block_range b ip) blocks.
Proof.
  intros Hip. unfold is_reserved. split.
  - intros H. assert (existsb (in_block ip) blocks = true) as (b & Hin & Hb)%existsb_exists by congruence.
    clear H.
    apply Exists_exists. exists b. split; [by apply list_elem_of_In|].
    destruct b as [r m].
    assert (0 <= m <= 32 /\ 0 <= r < 2 ^ 32 /\ r mod 2 ^ (32 - m) = 0) as (Hm & Hr & H0).
    { simpl in Hin. repeat (destruct Hin as [[= <- <-]|Hin]; [vm_compute; repeat split; congruence|]). done. }
    apply in_block_spec in Hb; [|done..]. unfold block_range; simpl.
    assert (0 < 2 ^ (32 - m)) by (apply Z.pow_pos_nonneg; lia).
    pose proof (Z.div_mod ip (2 ^ (32 - m))). pose proof (Z.div_mod r (2 ^ (32 - m))).
    pose proof (Z.mod_pos_bound ip (2 ^ (32 - m))). nia.
  - intros H. f_equal. apply existsb_exists. apply Exists_exists in H as (b & Hin & Hb).
    exists b. apply list_elem_of_In in Hin. split; [exact Hin|]. destruct b as [r m].
    assert (0 <= m <= 32 /\ 0 <= r < 2 ^ 32 /\ r mod 2 ^ (32 - m) = 0) as (Hm & Hr & H0).
    { simpl in Hin. repeat (destruct Hin as [[= <- <-]|Hin]; [vm_compute; repeat split; congruence|]). done. }
    apply in_block_spec; [done..|]. unfold block_range in Hb; simpl in Hb.
    assert (0 < 2 ^ (32 - m)) by (apply Z.pow_pos_nonneg; lia).
    pose proof (Z.div_mod r (2 ^ (32 - m))).
    symmetry. apply Z.div_unique with (ip - r); [lia|]. nia.
Qed.

Lemma init_ipv4_port_0 pton a : init_ipv4_port pton a 0 = (Invalid, port_error "IPv4" 0).
Proof. done. Qed.
Lemma init_ipv6_port_0 pton a : init_ipv6_port pton a 0 = (Invalid, port_error "IPv6" 0).
Proof. done. Qed.
