(* ===== verification/Idn.v ===== *)
(** * Internationalised host names

    [idn_to_ascii] of [td/utils/port/IPAddress.cpp] with its [punycode].  The sums
    of [punycode] are [uint32] and [int].  The facts: every name is converted or
    refused, and no sum wraps. *)

From S2P Require Import Prelude TdMisc Utf8.

Module Idn.

Definition is_ascii_host_char (c : ascii) : bool := ord c <=? 127.
Definition is_ascii_host (host : bytes) : bool := forallb is_ascii_host_char host.

(** The first loop: the ASCII letters in lower case, their number and the codes.
    [None]: the text ends inside a character. *)
Fixpoint read_codes (fuel : nat) (part : bytes) : option (bytes * Z * list Z) :=
  match part with
  | [] => Some ([], 0, [])
  | _ =>
    match fuel with
    | O => None
    | S fuel =>
      '(code, rest) ← next_utf8_unsafe part;
      '(text, processed, codes) ← read_codes fuel rest;
      Some (if code <=? 127 then (Chars.to_lower (chr code) :: text, processed + 1, code :: codes)
            else (text, processed, code :: codes))
    end
  end.

(** [codes] holds the lowest code above [n], at most 0x110000. *)
Definition next_code (codes : list Z) (n : Z) : Z :=
  foldl (fun next_n code => if (n <? code) && (code <? next_n) then code else next_n) 0x110000 codes.

Definition digit_char (digit : Z) : ascii := chr (if digit <? 26 then digit + ord "a"%char else digit - 26 + ord "0"%char).

(** The loop that writes [left]; [bias] as it is before the loop. *)
Fixpoint write_delta (fuel : nat) (left bias : Z) : option bytes :=
  match fuel with
  | O => None
  | S fuel =>
    let bias := bias + 36 in
    let t := clamp bias 1 26 in
    if left <? t then Some [chr (left + ord "a"%char)]
    else
      let left := left - t in
      let digit := t + Z.rem left (36 - t) in
      rest ← write_delta fuel (Z.quot left (36 - t)) bias;
      Some (digit_char digit :: rest)
  end.

Fixpoint reduce_delta (fuel : nat) (delta bias : Z) : option (Z * Z) :=
  match fuel with
  | O => None
  | S fuel => if 35 * 13 <? delta then reduce_delta fuel (delta / 35) (bias - 36) else Some (delta, bias)
  end.

Definition update_bias (is_first : bool) (delta processed : Z) : option Z :=
  let delta := if is_first then delta / 700 else delta / 2 in
  let delta := wrap 32 (delta + delta / processed) in
  '(delta, bias) ← reduce_delta 32 delta 0;
  Some (bias - wrap 32 (36 * delta) / wrap 32 (delta + 38)).

(** [static_cast<int>] of a [uint32]. *)
Definition to_int (x : Z) : Z := if x <? 2 ^ 31 then x else x - 2 ^ 32.

Record encoder := mk_encoder { text : bytes; processed_ : Z; delta_ : Z; bias_ : Z; is_first_ : bool }.

(** One code of the inner loop. *)
Definition encode_code (next_n : Z) (e : encoder) (code : Z) : option encoder :=
  let delta := if code <? next_n then wrap 32 (delta_ e + 1) else delta_ e in
  if code =? next_n then
    written ← write_delta 40 (to_int delta) (bias_ e);
    let processed := processed_ e + 1 in
    bias ← update_bias (is_first_ e) delta processed;
    Some (mk_encoder (text e ++ written) processed 0 bias false)
  else Some (mk_encoder (text e) (processed_ e) delta (bias_ e) (is_first_ e)).

Fixpoint encode_codes (next_n : Z) (e : encoder) (codes : list Z) : option encoder :=
  match codes with
  | [] => Some e
  | code :: codes => e ← encode_code next_n e code; encode_codes next_n e codes
  end.

(** The outer loop. *)
Fixpoint encode_loop (fuel : nat) (codes : list Z) (n : Z) (e : encoder) : option bytes :=
  if processed_ e <? len codes then
    match fuel with
    | O => None
    | S fuel =>
      let next_n := next_code codes n in
      let e := mk_encoder (text e) (processed_ e) (wrap 32 (delta_ e + wrap 32 (wrap 32 (next_n - n - 1) * (processed_ e + 1))))
                 (bias_ e) (is_first_ e) in
      e ← encode_codes next_n e codes;
      encode_loop fuel codes next_n (mk_encoder (text e) (processed_ e) (wrap 32 (delta_ e + 1)) (bias_ e) (is_first_ e))
    end
  else Some (text e).

Definition punycode (part : bytes) : option bytes :=
  '(text, processed, codes) ← read_codes (length part) part;
  let text := if 0 <? processed then text ++ ["-"%char] else text in
  encode_loop (length codes) codes 127 (mk_encoder text processed 0 (-72) true).

Definition MAX_DNS_NAME_LENGTH : Z := 255.

Fixpoint encode_parts (parts : list bytes) (is_first : bool) : option bytes :=
  match parts with
  | [] => Some []
  | part :: parts =>
    here ← (if is_ascii_host part then Some part else encoded ← punycode part; Some (lit "xn--" ++ encoded));
    rest ← encode_parts parts false;
    Some ((if is_first then [] else ["."%char]) ++ here ++ rest)
  end.

(** [None] is never the result ([idn_to_ascii_total]). *)
Definition idn_to_ascii (host : bytes) : option (result bytes) :=
  if is_ascii_host host then Some (Ok (Strings.to_lower host))
  else if negb (check_utf8 host) then Some (error 0 "Host name must be encoded in UTF-8")
  else if MAX_DNS_NAME_LENGTH * 4 <=? len host then Some (error 0 "Host name is too long")
  else Ok <$> encode_parts (Strings.full_split host "."%char (2 ^ 64 - 1)) true.

End Idn.

Example punycode_test : Idn.idn_to_ascii (lit "b" ++ [chr 195; chr 188] ++ lit "cher.example") = Some (Ok (lit "xn--bcher-kva.example")).
Proof. vm_compute. reflexivity. Qed.

(** ** Facts *)

Module IdnFacts.
Import Idn.

Lemma ascii_app a b : is_ascii_host (a ++ b) = is_ascii_host a && is_ascii_host b.
Proof. apply forallb_app. Qed.

Lemma ascii_chr z : 0 <= z <= 127 -> is_ascii_host [chr z] = true.
Proof. intros H. cbn. unfold is_ascii_host_char. rewrite ord_chr, Z.mod_small by lia. rewrite (leb_true z 127) by lia. done. Qed.

(** *** The numbers that are written *)

Lemma write_delta_some fuel left bias : 0 <= left < 10 ^ Z.of_nat fuel ->
  exists w, write_delta (S fuel) left bias = Some w /\ is_ascii_host w = true.
Proof.
  revert left bias. induction fuel as [|fuel IH]; intros left bias Hl; cbn [write_delta];
    set (t := clamp (bias + 36) 1 26); assert (1 <= t <= 26) as Ht by (apply clamp_bounds; lia); clearbody t.
  - assert (left = 0) as -> by lia. rewrite (ltb_true 0 t) by lia. eexists. split; [reflexivity|]. by apply ascii_chr.
  - case_bool; [eexists; split; [reflexivity|]; apply ascii_chr; change (ord "a"%char) with 97; lia|].
    set (l := left - t) in *. assert (0 <= l) by lia.
    destruct (IH (Z.quot l (36 - t)) (bias + 36)) as (w & E & Hw).
    { rewrite Z.quot_div_nonneg by lia. rewrite Nat2Z.inj_succ, Z.pow_succ_r in Hl by lia. split; [apply Z.div_pos; lia|].
      apply Z.div_lt_upper_bound; [lia|]. pose proof (Z.pow_pos_nonneg 10 (Z.of_nat fuel)). nia. }
    cbn [write_delta] in E. rewrite E. cbn [mbind option_bind]. eexists. split; [reflexivity|].
    change (digit_char (t + Z.rem l (36 - t)) :: w) with ([digit_char (t + Z.rem l (36 - t))] ++ w). rewrite ascii_app, Hw, andb_true_r.
    rewrite Z.rem_mod_nonneg by lia. pose proof (Z.mod_pos_bound l (36 - t)). unfold digit_char.
    apply ascii_chr. change (ord "a"%char) with 97. change (ord "0"%char) with 48. case_bool; lia.
Qed.

Lemma reduce_delta_some fuel delta bias : 0 <= delta < 456 * 35 ^ Z.of_nat fuel -> exists r, reduce_delta (S fuel) delta bias = Some r.
Proof.
  revert delta bias. induction fuel as [|fuel IH]; intros delta bias Hd; cbn [reduce_delta].
  - change (35 ^ Z.of_nat 0) with 1 in Hd. rewrite (ltb_false (35 * 13) delta) by lia. by eexists.
  - case_bool; [|by eexists]. apply IH. rewrite Nat2Z.inj_succ, Z.pow_succ_r in Hd by lia. split; [apply Z.div_pos; lia|].
    apply Z.div_lt_upper_bound; lia.
Qed.

Lemma update_bias_some is_first delta processed : exists b, update_bias is_first delta processed = Some b.
Proof.
  unfold update_bias. set (d := wrap 32 _). assert (0 <= d < 2 ^ 32) as Hd by by apply wrap_bounds. clearbody d.
  destruct (reduce_delta_some 31 d 0) as ([d' b] & ->); [|by eexists].
  split; [lia|]. apply (Z.lt_le_trans _ (2 ^ 32)); [lia|]. by vm_compute.
Qed.

(** *** The codes *)

Definition count (p : Z -> bool) (codes : list Z) : Z := len (filter (fun c => p c = true) codes).

Lemma count_cons p c codes : count p (c :: codes) = (if p c then 1 else 0) + count p codes.
Proof. unfold count. rewrite filter_cons. destruct (p c); [rewrite decide_True by done; rewrite len_cons; lia|by rewrite decide_False]. Qed.

Lemma count_bounds p codes : 0 <= count p codes <= len codes.
Proof. unfold count, len. pose proof (length_filter (fun c => p c = true) codes). lia. Qed.

Lemma next_code_spec codes n : Forall (fun c => c < 0x110000) codes -> count (fun c => c <=? n) codes < len codes ->
  n < next_code codes n < 0x110000 /\ 0 < count (fun c => c =? next_code codes n) codes
  /\ count (fun c => c <=? next_code codes n) codes = count (fun c => c <=? n) codes + count (fun c => c =? next_code codes n) codes.
Proof.
  intros Hc Hn.
  assert (forall l m, n < m -> let r := foldl (fun next_n code => if (n <? code) && (code <? next_n) then code else next_n) m l in
            n < r <= m /\ (r = m \/ r ∈ l) /\ forall c, c ∈ l -> n < c -> r <= c) as Hf.
  { induction l as [|c l IH]; intros m Hm; [cbn; split; [lia|]; split; [by left|]; by intros c ?%elem_of_nil|]. cbn [foldl].
    destruct ((n <? c) && (c <? m)) eqn:E.
    - apply andb_true_iff in E as [E1%Z.ltb_lt E2%Z.ltb_lt]. destruct (IH c E1) as (H1 & H2 & H3). split; [lia|]. split.
      + right. destruct H2 as [->|H2]; [apply list_elem_of_here|by apply list_elem_of_further].
      + intros x [->|Hx]%elem_of_cons Hx'; [lia|by apply H3].
    - destruct (IH m Hm) as (H1 & H2 & H3). set (r := foldl _ m l) in *. clearbody r. split; [lia|]. split; [destruct H2; [by left|right; by apply list_elem_of_further]|].
      intros x [->|Hx]%elem_of_cons Hx'; [|by apply H3]. apply andb_false_iff in E as [E|E]; apply Z.ltb_ge in E; lia. }
  assert (exists c, c ∈ codes /\ n < c) as (c & Hin & Hnc).
  { clear Hf Hc. induction codes as [|c codes IH]; [pose proof (count_bounds (fun c => c <=? n) []); change (len (@nil Z)) with 0 in *; lia|]. rewrite count_cons, len_cons in Hn.
    destruct (c <=? n) eqn:E; [destruct IH as (d & ? & ?); [lia|]; exists d; split; [by apply list_elem_of_further|done]|].
    exists c. split; [apply list_elem_of_here|by apply Z.leb_gt]. }
  assert (c < 0x110000) as Hcc by (by rewrite Forall_forall in Hc; apply Hc).
  destruct (Hf codes 0x110000 ltac:(lia)) as (H1 & H2 & H3). change (foldl _ 0x110000 codes) with (next_code codes n) in *.
  pose proof (H3 c Hin Hnc) as Hrc. destruct H2 as [H2|H2]; [lia|]. split; [lia|]. split.
  - clear -H2. induction codes as [|d codes IH]; [by apply elem_of_nil in H2|]. rewrite count_cons. set (r := next_code (d :: codes) n) in *. clearbody r.
    pose proof (count_bounds (fun c => c =? r) codes).
    apply elem_of_cons in H2 as [->|H2]; [rewrite Z.eqb_refl; lia|]. case_bool; [lia|].
    clear -H2. induction codes as [|e codes IH]; [by apply elem_of_nil in H2|]. rewrite count_cons. pose proof (count_bounds (fun c => c =? r) codes).
    apply elem_of_cons in H2 as [->|H2]; [rewrite Z.eqb_refl; lia|]. specialize (IH H2). case_bool; lia.
  - assert (forall c, c ∈ codes -> n < c -> next_code codes n <= c) as Hmin by done. clear -H1 Hmin. set (r := next_code codes n) in *. clearbody r.
    induction codes as [|d codes IH]; [done|]. rewrite !count_cons, IH by (intros x Hx; apply Hmin; by apply list_elem_of_further).
    pose proof (Hmin d (list_elem_of_here _ _)). destruct (d <=? r) eqn:E1, (d <=? n) eqn:E2, (d =? r) eqn:E3; lia.
Qed.

(** *** The encoder *)

Definition int_fits (z : Z) : Prop := 0 <= z < 2 ^ 31.

Lemma encode_code_some next_n e code : int_fits (delta_ e + 1) -> 0 <= delta_ e -> is_ascii_host (text e) = true ->
  exists e', encode_code next_n e code = Some e' /\ is_ascii_host (text e') = true /\ 0 <= delta_ e' <= delta_ e + 1
    /\ processed_ e' = processed_ e + (if code =? next_n then 1 else 0) /\ (code = next_n -> delta_ e' = 0).
Proof.
  intros Hd H0 Ha. unfold int_fits in Hd. unfold encode_code. rewrite (wrap_small 32 (delta_ e + 1)) by lia.
  set (d := if code <? next_n then _ else _). assert (0 <= d <= delta_ e + 1) as Hdd by (unfold d; case_bool; lia). clearbody d.
  case_bool; [|apply Z.eqb_neq in Heqb; eexists; split; [reflexivity|]; cbn; split; [done|]; lia].
  unfold to_int. rewrite (ltb_true d (2 ^ 31)) by lia. destruct (write_delta_some 39 d (bias_ e)) as (w & -> & Hw).
  { split; [lia|]. apply (Z.lt_trans _ (2 ^ 31)); [lia|]. by vm_compute. }
  cbn [mbind option_bind]. destruct (update_bias_some (is_first_ e) d (processed_ e + 1)) as (b & ->). cbn [mbind option_bind].
  eexists. split; [reflexivity|]. cbn. rewrite ascii_app, Ha, Hw. split; [done|]. lia.
Qed.

Lemma encode_codes_some next_n codes e : int_fits (delta_ e + len codes) -> 0 <= delta_ e -> is_ascii_host (text e) = true ->
  exists e', encode_codes next_n e codes = Some e' /\ is_ascii_host (text e') = true /\ 0 <= delta_ e' <= delta_ e + len codes
    /\ processed_ e' = processed_ e + count (fun c => c =? next_n) codes /\ (0 < count (fun c => c =? next_n) codes -> delta_ e' <= len codes).
Proof.
  unfold int_fits. revert e. induction codes as [|c codes IH]; intros e Hd H0 Ha; cbn [encode_codes].
  - exists e. change (len (@nil Z)) with 0. change (count _ []) with 0. split; [done|]. split; [done|]. lia.
  - rewrite len_cons, count_cons in *. pose proof (len_nonneg codes).
    destruct (encode_code_some next_n e c) as (e1 & -> & Ha1 & Hd1 & Hp1 & Hz1); [unfold int_fits; lia|done|done|]. cbn [mbind option_bind].
    destruct (IH e1) as (e2 & E & Ha2 & Hd2 & Hp2 & Hz2); [lia|lia|done|]. exists e2. split; [done|]. split; [done|]. split; [lia|].
    split; [lia|]. destruct (c =? next_n) eqn:Ec; [apply Z.eqb_eq in Ec; specialize (Hz1 Ec); lia|]. lia.
Qed.

(** The encoder's codes, at most 1020, have no sum of 32 bits that wraps. *)
Lemma encode_loop_some fuel codes n e : Forall (fun c => c < 0x110000) codes -> len codes <= 1020 -> 0 <= n < 0x110000 ->
  processed_ e = count (fun c => c <=? n) codes -> 0 <= delta_ e <= 1021 -> is_ascii_host (text e) = true ->
  (len codes - processed_ e <= Z.of_nat fuel) -> exists r, encode_loop fuel codes n e = Some r /\ is_ascii_host r = true.
Proof.
  intros Hc Hlen. revert n e. induction fuel as [|fuel IH]; intros n e Hn Hp Hd Ha Hf; cbn [encode_loop].
  - rewrite (ltb_false (processed_ e)) by lia. by exists (text e).
  - case_bool; [|by exists (text e)]. apply Z.ltb_lt in Heqb. rewrite Hp in Heqb.
    destruct (next_code_spec codes n Hc Heqb) as (Hn1 & Hn2 & Hn3). set (nn := next_code codes n) in *. clearbody nn.
    pose proof (count_bounds (fun c => c <=? n) codes).
    assert (0 <= (nn - n - 1) * (processed_ e + 1) <= 0x110000 * 1021) as Hprod by nia.
    rewrite (wrap_small 32 (nn - n - 1)), (wrap_small 32 (_ * _)), (wrap_small 32 (delta_ e + _)) by lia.
    destruct (encode_codes_some nn codes (mk_encoder (text e) (processed_ e) (delta_ e + (nn - n - 1) * (processed_ e + 1)) (bias_ e) (is_first_ e)))
      as (e' & -> & Ha' & Hd' & Hp' & Hz'); [unfold int_fits; cbn [delta_]; lia|cbn [delta_]; lia|done|]. cbn [mbind option_bind].
    cbn [delta_ processed_] in *. specialize (Hz' Hn2). rewrite (wrap_small 32 (delta_ e' + 1)) by lia.
    apply IH; [lia| |cbn [delta_]; lia|done|cbn [processed_]; lia]. cbn [processed_]. lia.
Qed.

(** *** Reading *)

Lemma lower_low (c : ascii) : (ord c <=? 127) = true -> (ord (Chars.to_lower c) <=? 127) = true.
Proof. revert c. all_chars. Qed.

Lemma ascii_low c : 0 <= c <= 127 -> is_ascii_host [Chars.to_lower (chr c)] = true.
Proof.
  intros H. unfold is_ascii_host. cbn [forallb]. rewrite andb_true_r. apply lower_low. rewrite ord_chr, Z.mod_small by lia. apply Z.leb_le. lia.
Qed.

Lemma scalar_bounds c : scalar c -> 0 <= c < 0x110000.
Proof. unfold scalar. lia. Qed.

Lemma read_codes_some cs fuel : Forall scalar cs -> (length cs <= fuel)%nat ->
  exists t, read_codes fuel (utf8_text cs) = Some (t, count (fun c => c <=? 127) cs, cs) /\ is_ascii_host t = true.
Proof.
  intros Hcs. revert fuel. induction Hcs as [|c cs Hc Hcs IH]; intros fuel Hf; [exists []; by destruct fuel|].
  destruct fuel as [|fuel]; [cbn in Hf; lia|]. destruct (IH fuel) as (t & E & Ha); [cbn in Hf; lia|].
  destruct (append_shape c Hc) as (c0 & rest & Es & _). rewrite utf8_text_cons.
  assert (read_codes (S fuel) (append_utf8_character c ++ utf8_text cs) = '(code, rest) ← next_utf8_unsafe (append_utf8_character c ++ utf8_text cs);
            '(text, processed, codes) ← read_codes fuel rest;
            Some (if code <=? 127 then (Chars.to_lower (chr code) :: text, processed + 1, code :: codes) else (text, processed, code :: codes)))
    as -> by (rewrite Es; reflexivity).
  rewrite next_utf8_append by done. cbn [mbind option_bind]. rewrite E. cbn [mbind option_bind]. rewrite count_cons.
  destruct (c <=? 127) eqn:Ec; eexists; (split; [rewrite Z.add_comm, ?Z.add_0_r; reflexivity|]); [|done].
  change (Chars.to_lower (chr c) :: t) with ([Chars.to_lower (chr c)] ++ t). rewrite ascii_app, Ha, ascii_low; [done|].
  apply scalar_bounds in Hc. lia.
Qed.

Lemma punycode_some part : check_utf8 part = true -> len part <= 1020 -> exists r, punycode part = Some r /\ is_ascii_host r = true.
Proof.
  intros (cs & Hcs & ->)%check_utf8_codes Hl. pose proof (text_length cs Hcs) as Ht. unfold punycode.
  destruct (read_codes_some cs (length (utf8_text cs)) Hcs Ht) as (t & -> & Ha). cbn [mbind option_bind].
  pose proof (count_bounds (fun c => c <=? 127) cs). apply encode_loop_some; cbn [processed_ delta_ text]; try lia; try done.
  - eapply Forall_impl; [exact Hcs|]. intros c Hc%scalar_bounds. lia.
  - unfold len in *. lia.
  - case_bool; [by rewrite ascii_app, Ha|done].
  - unfold len in *. lia.
Qed.

(** The parts of a valid text are valid. *)
Lemma text_split cs p c r : Forall scalar cs -> ord c < 128 -> utf8_text cs = p ++ c :: r -> check_utf8 p = true /\ check_utf8 r = true.
Proof.
  intros Hcs Hc. revert p. induction Hcs as [|x cs Hx Hcs IH]; intros p E; [by destruct p|].
  destruct p as [|y p].
  { split; [done|]. rewrite <-(check_1 c r Hc). change (c :: r) with ([] ++ c :: r). rewrite <-E.
    rewrite <-(app_nil_r (utf8_text _)), check_utf8_text; [done|by constructor]. }
  rewrite utf8_text_cons in E. destruct (append_shape x Hx) as (c0 & rest & Es & _ & Hrest & _). rewrite Es in E. injection E as E0 E. subst y.
  apply app_eq_app in E as (k & [[E1 E2]|[E1 E2]]).
  - assert (k = []) as ->.
    { destruct k as [|z k]; [done|]. injection E2 as -> _. rewrite E1, Forall_app, Forall_cons in Hrest. destruct Hrest as (_ & (Hz & _) & _).
      apply cont_spec in Hz. lia. }
    cbn in E2. rewrite app_nil_r in E1. subst rest. rewrite <-Es. destruct (IH []) as [_ Hr]; [by rewrite <-E2|]. split; [|done].
    by rewrite <-(app_nil_r (append_utf8_character x)), check_utf8_append.
  - destruct (IH k E2) as [Hk Hr]. split; [|done]. rewrite E1. change (c0 :: rest ++ k) with ((c0 :: rest) ++ k). by rewrite <-Es, check_utf8_append.
Qed.

Lemma check_utf8_split p c r : ord c < 128 -> check_utf8 (p ++ c :: r) = true -> check_utf8 p = true /\ check_utf8 r = true.
Proof. intros Hc (cs & Hcs & E)%check_utf8_codes. by eapply text_split. Qed.

Lemma parts_valid parts d : ord d < 128 -> check_utf8 (Strings.implode parts d) = true ->
  Forall (fun p => check_utf8 p = true /\ len p <= len (Strings.implode parts d)) parts.
Proof.
  intros Hd. induction parts as [|p parts IH]; [done|]. destruct parts as [|q parts].
  - intros H. cbn in *. rewrite app_nil_r in *. by repeat constructor.
  - change (Strings.implode (p :: q :: parts) d) with (p ++ d :: Strings.implode (q :: parts) d).
    intros [Hp Hr]%check_utf8_split; [|done]. pose proof (len_nonneg p). constructor.
    + split; [done|]. rewrite len_app. pose proof (len_nonneg (d :: Strings.implode (q :: parts) d)). lia.
    + eapply Forall_impl; [by apply IH|]. intros x [Hx Hl]. split; [done|]. rewrite len_app, len_cons. lia.
Qed.

Lemma encode_parts_some parts b : Forall (fun p => check_utf8 p = true /\ len p <= 1020) parts ->
  exists r, encode_parts parts b = Some r /\ is_ascii_host r = true.
Proof.
  intros H. revert b. induction H as [|p parts [Hp Hl] _ IH]; intros b; [by exists []|]. cbn [encode_parts].
  assert (exists r, (if is_ascii_host p then Some p else encoded ← punycode p; Some (lit "xn--" ++ encoded)) = Some r /\ is_ascii_host r = true)
    as (r & -> & Hr).
  { destruct (is_ascii_host p) eqn:E; [by exists p|]. destruct (punycode_some p Hp Hl) as (r & -> & Hr). eexists. split; [reflexivity|].
    by rewrite ascii_app, Hr. }
  cbn [mbind option_bind]. destruct (IH false) as (t & -> & Ht). cbn [mbind option_bind]. eexists. split; [reflexivity|].
  rewrite !ascii_app, Hr, Ht. by destruct b.
Qed.

End IdnFacts.

Lemma lower_ascii s : Idn.is_ascii_host s = true -> Idn.is_ascii_host (Strings.to_lower s) = true.
Proof.
  unfold Idn.is_ascii_host, Strings.to_lower. rewrite !forallb_forall. intros H x (y & <- & Hy)%in_map_iff. by apply IdnFacts.lower_low, H.
Qed.

(** Every host name is converted or refused: the fuel of the loops is enough, no
    sum of 32 bits wraps, and the result is ASCII. *)
Theorem idn_to_ascii_total (host : bytes) : exists r, Idn.idn_to_ascii host = Some r /\ match r with
  | Ok ascii => Idn.is_ascii_host ascii = true
  | Err e => e = Status 0 (lit "Host name must be encoded in UTF-8") \/ e = Status 0 (lit "Host name is too long")
  end.
Proof.
  unfold Idn.idn_to_ascii. destruct (Idn.is_ascii_host host) eqn:Ea; [eexists; split; [reflexivity|by apply lower_ascii]|].
  destruct (check_utf8 host) eqn:Eu; cbn [negb]; [|eexists; split; [reflexivity|by left]].
  case_bool; [eexists; split; [reflexivity|by right]|]. change (Idn.MAX_DNS_NAME_LENGTH * 4) with 1020 in Heqb. apply Z.leb_gt in Heqb.
  destruct host as [|c host]; [done|].
  destruct (full_split_implode (c :: host) "."%char (2 ^ 64 - 1)) as [E _]; [done|lia|].
  destruct (IdnFacts.encode_parts_some (Strings.full_split (c :: host) "."%char (2 ^ 64 - 1)) true) as (r & -> & Hr).
  { pose proof (IdnFacts.parts_valid (Strings.full_split (c :: host) "."%char (2 ^ 64 - 1)) "."%char) as Hp. rewrite E in Hp.
    eapply Forall_impl; [by apply Hp|]. intros x [Hx Hl]. split; [done|]. lia. }
  exists (Ok r). by split.
Qed.
