(* ===== verification/Stats.v ===== *)
(** * Statistics

    [td/utils/TimedStat.h], [Stats.h], [Stats.cpp]: sliding statistics over a
    duration, the counters of a bot and the actor that keeps them.  The CPU
    statistics, whose events the operating system provides, and the formatting of
    doubles are not modelled. *)

From S2P Require Import Prelude.

(** ** [TimedStat] *)

Module Timed.

Section Timed.
Context {StatT EventT : Type}.
Context (empty : StatT) (on_event : StatT -> EventT -> StatT).

Record timed_stat := mk_timed {
  duration : time;
  current : StatT;
  current_timestamp : time;
  next : StatT;
  next_timestamp : time;
}.

Definition create (duration now : time) : timed_stat := mk_timed duration empty (now - 1)%Q empty now.

(** [update(now)]: the state, and the new value of [now]. *)
Definition update (s : timed_stat) (now : time) : timed_stat * time :=
  let now := if qltb now (next_timestamp s) then next_timestamp s else now in
  if Qeq_bool (duration s) 0 then (s, now)
  else if qltb (next_timestamp s + 2 * duration s)%Q now then
    (mk_timed (duration s) empty (now - duration s)%Q empty now, now)
  else if qltb (next_timestamp s + duration s)%Q now then
    (mk_timed (duration s) (next s) (next_timestamp s) empty now, now)
  else (s, now).

Definition add_event (s : timed_stat) (e : EventT) (now : time) : timed_stat :=
  let '(s, _) := update s now in
  mk_timed (duration s) (on_event (current s) e) (current_timestamp s) (on_event (next s) e) (next_timestamp s).

Definition get_stat (s : timed_stat) (now : time) : StatT * timed_stat :=
  let '(s, _) := update s now in (current s, s).

Definition stat_duration (s : timed_stat) (now : time) : (StatT * time) * timed_stat :=
  let '(s, now) := update s now in ((current s, now - current_timestamp s)%Q, s).

End Timed.
Arguments timed_stat StatT : clear implicits.

End Timed.

(** ** [ServerBotStat] *)

Module BotStat.

Record response := mk_response { ok_ : bool; size_ : Z; file_count_ : Z; files_size_ : Z }.
Record request := mk_request { rq_size_ : Z; rq_file_count_ : Z; rq_files_size_ : Z; rq_files_max_size_ : Z }.

Inductive event := Update | Response (r : response) | Request (r : request).

(** The [double] counters are rationals. *)
Record server_bot_stat := mk_stat {
  request_count_ : Q;
  request_bytes_ : Q;
  request_file_count_ : Q;
  request_files_bytes_ : Q;
  request_files_max_bytes_ : Z;
  response_count_ : Q;
  response_count_ok_ : Q;
  response_count_error_ : Q;
  response_bytes_ : Q;
  update_count_ : Q;
}.

Definition empty : server_bot_stat := mk_stat 0 0 0 0 0 0 0 0 0 0.

Open Scope Q_scope.

(** The three overloads of [on_event]. *)
Definition on_event (s : server_bot_stat) (e : event) : server_bot_stat :=
  match e with
  | Update =>
    mk_stat (request_count_ s) (request_bytes_ s) (request_file_count_ s) (request_files_bytes_ s)
      (request_files_max_bytes_ s) (response_count_ s) (response_count_ok_ s) (response_count_error_ s)
      (response_bytes_ s) (update_count_ s + 1)
  | Response r =>
    mk_stat (request_count_ s) (request_bytes_ s) (request_file_count_ s) (request_files_bytes_ s)
      (request_files_max_bytes_ s) (response_count_ s + 1)
      (if ok_ r then response_count_ok_ s + 1 else response_count_ok_ s)
      (if ok_ r then response_count_error_ s else response_count_error_ s + 1)
      (response_bytes_ s + inject_Z (size_ r)) (update_count_ s)
  | Request r =>
    mk_stat (request_count_ s + 1) (request_bytes_ s + inject_Z (rq_size_ r))
      (request_file_count_ s + inject_Z (rq_file_count_ r)) (request_files_bytes_ s + inject_Z (rq_files_size_ r))
      (Z.max (request_files_max_bytes_ s) (rq_files_max_size_ r)) (response_count_ s) (response_count_ok_ s)
      (response_count_error_ s) (response_bytes_ s) (update_count_ s)
  end.

Definition normalize (s : server_bot_stat) (duration : time) : server_bot_stat :=
  if Qeq_bool duration 0 then s
  else
    mk_stat (request_count_ s / duration) (request_bytes_ s / duration) (request_file_count_ s / duration)
      (request_files_bytes_ s / duration) (request_files_max_bytes_ s) (response_count_ s / duration)
      (response_count_ok_ s / duration) (response_count_error_ s / duration) (response_bytes_ s / duration)
      (update_count_ s / duration).

Definition add (s stat : server_bot_stat) : server_bot_stat :=
  mk_stat (request_count_ s + request_count_ stat) (request_bytes_ s + request_bytes_ stat)
    (request_file_count_ s + request_file_count_ stat) (request_files_bytes_ s + request_files_bytes_ stat)
    (Z.max (request_files_max_bytes_ s) (request_files_max_bytes_ stat))
    (response_count_ s + response_count_ stat) (response_count_ok_ s + response_count_ok_ stat)
    (response_count_error_ s + response_count_error_ stat) (response_bytes_ s + response_bytes_ stat)
    (update_count_ s + update_count_ stat).

Close Scope Q_scope.

(** [as_vector]: the names and the values, before they are printed. *)
Definition as_vector (s : server_bot_stat) : list (string * Q) :=
  [("request_count"%string, request_count_ s); ("request_bytes"%string, request_bytes_ s);
   ("request_file_count"%string, request_file_count_ s); ("request_files_bytes"%string, request_files_bytes_ s);
   ("request_max_bytes"%string, inject_Z (request_files_max_bytes_ s)); ("response_count"%string, response_count_ s);
   ("response_count_ok"%string, response_count_ok_ s); ("response_count_error"%string, response_count_error_ s);
   ("response_bytes"%string, response_bytes_ s); ("update_count"%string, update_count_ s)].

End BotStat.

(** ** [BotStatActor] *)

Module BotStatActor.
Import BotStat.

Definition DURATIONS : list time := [0; 5; 60; 3600]%Q.

(** The actor; [parent] says whether it has one, to which every event is sent on. *)
Record actor := mk_actor {
  stat : list (Timed.timed_stat server_bot_stat);
  parent : bool;
  last_activity_timestamp : time;
  active_request_count : Z;
  active_file_upload_bytes : Z;
  active_file_upload_count : Z;
}.

Definition create (parent : bool) (now : time) : actor :=
  mk_actor ((fun d => Timed.create empty d now) <$> DURATIONS) parent (-1000000000)%Q 0 0 0.

(** [on_event] of the actor itself; [None] is a failed [CHECK]. *)
Definition on_event (a : actor) (e : event) : option actor :=
  match e with
  | Update => Some a
  | Response r =>
    let a := mk_actor (stat a) (parent a) (last_activity_timestamp a) (active_request_count a - 1)
      (active_file_upload_bytes a - files_size_ r) (active_file_upload_count a - file_count_ r) in
    if (0 <=? active_request_count a) && (0 <=? active_file_upload_bytes a) then Some a else None
  | Request r =>
    Some (mk_actor (stat a) (parent a) (last_activity_timestamp a) (active_request_count a + 1)
      (active_file_upload_bytes a + rq_files_size_ r) (active_file_upload_count a + rq_file_count_ r))
  end.

(** [add_event]: the new state, and the event for the parent if there is one. *)
Definition add_event (a : actor) (e : event) (now : time) : option (actor * list (event * time)) :=
  let a := mk_actor ((fun s => Timed.add_event empty BotStat.on_event s e now) <$> stat a) (parent a) now
    (active_request_count a) (active_file_upload_bytes a) (active_file_upload_count a) in
  a ← on_event a e;
  Some (a, if parent a then [(e, now)] else []).

(** [stat_[i].stat_duration(now)]; the updated statistics stay in the actor. *)
Definition stat_duration_at (a : actor) (i : nat) (now : time) : option ((server_bot_stat * time) * actor) :=
  s ← stat a !! i;
  let '(r, s) := Timed.stat_duration empty s now in
  Some (r, mk_actor (<[i := s]> (stat a)) (parent a) (last_activity_timestamp a) (active_request_count a)
    (active_file_upload_bytes a) (active_file_upload_count a)).

Definition per_second (x : Q) (d : time) : Q := if Qeq_bool d 0 then x else (x / d)%Q.

Definition get_score (a : actor) (now : time) : option (Q * actor) :=
  '((minute, md), a) ← stat_duration_at a 2 now;
  let minute_score := per_second (request_count_ minute + update_count_ minute)%Q md in
  '((all, ad), a) ← stat_duration_at a 0 now;
  let all_time_score := per_second ((1 # 100) * (request_count_ all + update_count_ all))%Q ad in
  let active_request_score := inject_Z (Z.max (active_request_count a - 10) 0) in
  let active_file_upload_score := (inject_Z (active_file_upload_bytes a) * (1 # 100000000))%Q in
  Some ((minute_score + all_time_score + active_request_score + active_file_upload_score)%Q, a).

Definition get_minute_update_count (a : actor) (now : time) : option (Q * actor) :=
  '((minute, md), a) ← stat_duration_at a 2 now;
  Some (per_second (update_count_ minute) md, a).

Definition is_active (a : actor) (now : time) : bool := qltb (now - 86400)%Q (last_activity_timestamp a).

(** [as_vector]: one row per counter, with a value per duration. *)
Definition normalized (a : actor) (i : nat) (now : time) : option (server_bot_stat * actor) :=
  '((s, d), a) ← stat_duration_at a i now; Some (normalize s d, a).

Definition append_column (rows : list (string * list Q)) (other : list (string * Q)) : option (list (string * list Q)) :=
  if bool_decide (length other = length rows) then
    Some (zip_with (fun row x => (fst row, snd row ++ [snd x])) rows other)
  else None.

Definition as_vector (a : actor) (now : time) : option (list (string * list Q) * actor) :=
  '(s0, a) ← normalized a 0 now;
  let res := (fun x => (fst x, [snd x])) <$> BotStat.as_vector s0 in
  '(s1, a) ← normalized a 1 now;
  res ← append_column res (BotStat.as_vector s1);
  '(s2, a) ← normalized a 2 now;
  res ← append_column res (BotStat.as_vector s2);
  '(s3, a) ← normalized a 3 now;
  res ← append_column res (BotStat.as_vector s3);
  Some (res, a).

End BotStatActor.

(** ** Facts *)

Section TimedFacts.
Context {StatT EventT : Type}.
Context (empty : StatT) (on_event : StatT -> EventT -> StatT).
Import Timed.

Definition fold_events (l : list (EventT * time)) : StatT := foldl (fun s e => on_event s (fst e)) empty l.

(** The statistic of the events [evs], in their order, at time [now]: the events
    of [dropped] are older than the duration, [current] has the others, [next]
    has the last of them. *)
Record covers (s : timed_stat StatT) (evs : list (EventT * time)) (now : time) : Prop := {
  cov_duration : (0 < duration s)%Q;
  cov_split : exists dropped first last, evs = dropped ++ first ++ last
    /\ current s = fold_events (first ++ last) /\ next s = fold_events last
    /\ Forall (fun e => snd e <= now - duration s)%Q dropped
    /\ Forall (fun e => current_timestamp s <= snd e /\ snd e <= next_timestamp s)%Q first
    /\ Forall (fun e => next_timestamp s <= snd e /\ snd e <= next_timestamp s + duration s)%Q last;
  cov_next : (next_timestamp s <= now /\ now <= next_timestamp s + duration s)%Q;
  cov_current : (next_timestamp s - 2 * duration s <= current_timestamp s <= next_timestamp s)%Q;
}.

Lemma fold_events_app l e t : on_event (fold_events l) e = fold_events (l ++ [(e, t)]).
Proof. unfold fold_events. by rewrite foldl_app. Qed.

Lemma Forall_weaken_q {A} (P R : A -> Prop) l : Forall P l -> (forall x, P x -> R x) -> Forall R l.
Proof. intros H HPR. by eapply Forall_impl. Qed.

Lemma update_covers s evs last now s' now' : covers s evs last -> (last <= now)%Q ->
  update empty s now = (s', now') -> covers s' evs now' /\ now' = now /\ duration s' = duration s
  /\ (current_timestamp s' <= next_timestamp s' <= now)%Q.
Proof.
  intros [Hd (dr & f & l & -> & Hc & Hn & Hdr & Hf & Hl) [Hn1 Hn2] [Hc1 Hc2]] Hnow.
  unfold update. destruct (qltb_spec now (next_timestamp s)); [lra|].
  destruct (Qeq_bool (duration s) 0) eqn:E0; [apply Qeq_bool_iff in E0; lra|].
  destruct (qltb_spec (next_timestamp s + 2 * duration s)%Q now);
    [|destruct (qltb_spec (next_timestamp s + duration s)%Q now)]; intros [= <- <-]; cbn.
  - split_and!; [|done|done|lra..]. split; cbn; [done| |lra|lra].
    exists (dr ++ f ++ l), [], []. rewrite !app_nil_r. split_and!; try done; try by constructor.
    apply Forall_app; split; [|apply Forall_app; split]; eapply Forall_weaken_q; try done; cbn; intros; lra.
  - split_and!; [|done|done|lra..]. split; cbn; [done| |lra|lra].
    exists (dr ++ f), l, []. rewrite app_nil_r, <-(assoc_L _). split_and!; try done; try by constructor.
    + apply Forall_app; split; eapply Forall_weaken_q; try done; cbn; intros; lra.
    + eapply Forall_weaken_q; [done|]. cbn. intros; lra.
  - split_and!; [|done|done|lra..]. split; cbn; [done| |lra|lra].
    exists dr, f, l. split_and!; try done. eapply Forall_weaken_q; [done|]. cbn. intros; lra.
Qed.

Lemma add_event_covers s evs last e now : covers s evs last -> (last <= now)%Q ->
  covers (add_event empty on_event s e now) (evs ++ [(e, now)]) now.
Proof.
  intros Hs Hle. unfold add_event. destruct (update empty s now) as [s' now'] eqn:E.
  destruct (update_covers _ _ _ _ _ _ Hs Hle E) as ([Hd (dr & f & l & -> & Hc & Hn & Hdr & Hf & Hl) Hnx Hcu] & -> & _ & _).
  split; cbn; try done. exists dr, f, (l ++ [(e, now)]).
  rewrite Hc, Hn, !(fold_events_app _ e now), !(assoc_L (++)). split_and!; try done.
  apply Forall_app; split; [done|]. repeat constructor; cbn; lra.
Qed.

(** Events recorded one after another. *)
Definition record_all (s : timed_stat StatT) (evs : list (EventT * time)) : timed_stat StatT :=
  foldl (fun s e => add_event empty on_event s (fst e) (snd e)) s evs.

Fixpoint increasing (from : time) (evs : list (EventT * time)) : Prop :=
  match evs with
  | [] => True
  | e :: evs => (from <= snd e)%Q /\ increasing (snd e) evs
  end.

Definition last_time (start : time) (evs : list (EventT * time)) : time :=
  match last evs with Some e => snd e | None => start end.

Lemma record_all_covers evs : forall s done t, covers s done t -> increasing t evs ->
  covers (record_all s evs) (done ++ evs) (last_time t evs).
Proof.
  induction evs as [|[e te] evs IH]; intros s dn t Hs Hi; [by rewrite app_nil_r|].
  destruct Hi as [Hle Hi]. cbn in Hle, Hi.
  replace (last_time t ((e, te) :: evs)) with (last_time te evs).
  2:{ unfold last_time. destruct evs as [|e2 evs]; [done|]. cbn [last].
      destruct (last (e2 :: evs)) eqn:E; [done|]. by apply last_None in E. }
  change ((e, te) :: evs) with ([(e, te)] ++ evs). rewrite (assoc_L (++)).
  apply IH; [|done]. by apply (add_event_covers s dn t).
Qed.

Lemma create_covers d now : (1 <= 2 * d)%Q -> covers (create empty d now) [] now.
Proof.
  intros Hd. split; cbn; [lra| |lra|lra]. exists [], [], []. by repeat constructor.
Qed.

End TimedFacts.

Section ActorFacts.
Import BotStat BotStatActor.

(** The queries of a bot: each reports its request once, when it is assigned to
    the bot, and its response once, with the number and the size of the same files. *)
Inductive query_event := Started (id : Z) (r : request) | Answered (id : Z) (ok : bool) (answer_size : Z) | Updated.

Definition pending_query : Type := Z * (Z * Z).

Fixpoint take_query (id : Z) (l : list pending_query) : option ((Z * Z) * list pending_query) :=
  match l with
  | [] => None
  | (i, f) :: l => if i =? id then Some (f, l) else '(g, l) ← take_query id l; Some (g, (i, f) :: l)
  end.

(** The event a query sends, and the queries that are pending after it. *)
Definition query_step (l : list pending_query) (e : query_event) : option (list pending_query * event) :=
  match e with
  | Started id r =>
    if (0 <=? rq_files_size_ r) then Some ((id, (rq_file_count_ r, rq_files_size_ r)) :: l, Request r) else None
  | Answered id ok answer_size =>
    '((count, size), l) ← take_query id l;
    Some (l, Response (mk_response ok answer_size count size))
  | Updated => Some (l, Update)
  end.

Fixpoint query_trace (l : list pending_query) (es : list query_event) : option (list pending_query * list event) :=
  match es with
  | [] => Some (l, [])
  | e :: es => '(l, x) ← query_step l e; '(l, xs) ← query_trace l es; Some (l, x :: xs)
  end.

Fixpoint run_actor (a : actor) (es : list (event * time)) : option actor :=
  match es with
  | [] => Some a
  | (e, now) :: es => '(a, _) ← add_event a e now; run_actor a es
  end.

Definition total_count (l : list pending_query) : Z := foldr (fun q n => fst (snd q) + n) 0 l.
Definition total_bytes (l : list pending_query) : Z := foldr (fun q n => snd (snd q) + n) 0 l.

Definition matches (a : actor) (l : list pending_query) : Prop :=
  active_request_count a = len l /\ active_file_upload_bytes a = total_bytes l
  /\ active_file_upload_count a = total_count l /\ Forall (fun q => 0 <= snd (snd q)) l.

Lemma total_bytes_nonneg l : Forall (fun q => 0 <= snd (snd q)) l -> 0 <= total_bytes l.
Proof. induction 1; cbn; [done|]. unfold total_bytes in *. lia. Qed.

Lemma take_query_spec id l count size l' : take_query id l = Some ((count, size), l') ->
  len l = len l' + 1 /\ total_bytes l = size + total_bytes l' /\ total_count l = count + total_count l'
  /\ (Forall (fun q => 0 <= snd (snd q)) l -> Forall (fun q => 0 <= snd (snd q)) l').
Proof.
  revert l'. induction l as [|[i [c s]] l IH]; intros l'; [done|]. cbn [take_query].
  destruct (i =? id).
  - intros [= -> -> ->]. rewrite len_cons. cbn. split_and!; [done|done|done|]. by intros [_ ?]%Forall_cons.
  - destruct (take_query id l) as [[[c' s'] l1]|] eqn:E; [|done]. cbn. intros [= -> -> <-].
    destruct (IH l1 eq_refl) as (H1 & H2 & H3 & H4). rewrite !len_cons. unfold total_bytes, total_count in *.
    cbn [foldr fst snd]. split_and!; [lia|lia|lia|]. intros [? ?]%Forall_cons. constructor; auto.
Qed.

Lemma leb_nonneg x : 0 <= x -> (0 <=? x) = true.
Proof. intros. by apply Z.leb_le. Qed.

Lemma actor_step a l e now l' x : matches a l -> query_step l e = Some (l', x) ->
  exists a' out, add_event a x now = Some (a', out) /\ matches a' l' /\ out = (if parent a then [(x, now)] else [])
  /\ parent a' = parent a.
Proof.
  intros (H1 & H2 & H3 & H4) Hs. destruct e as [id r|id ok asz|]; cbn in Hs.
  - destruct (0 <=? rq_files_size_ r) eqn:E; [|done]. injection Hs as <- <-.
    eexists _, _. split; [done|]. cbn. unfold matches, total_bytes, total_count in *. cbn.
    rewrite len_cons. split_and!; try lia; try done. constructor; [cbn; lia|done].
  - destruct (take_query id l) as [[[count size] l1]|] eqn:E; [|done]. cbn in Hs. injection Hs as <- <-.
    destruct (take_query_spec _ _ _ _ _ E) as (L1 & L2 & L3 & L4). specialize (L4 H4).
    pose proof (total_bytes_nonneg l1 L4). pose proof (len_nonneg l1).
    unfold add_event. cbn. rewrite (leb_nonneg (active_request_count a - 1)), (leb_nonneg (active_file_upload_bytes a - size)) by lia.
    eexists _, _. split; [done|]. cbn. unfold matches. cbn. split_and!; try lia; done.
  - injection Hs as <- <-. eexists _, _. split; [done|]. by split_and!.
Qed.

End ActorFacts.

(** ** Properties *)

Import BotStat BotStatActor.

(** The window of a statistic.  Whatever events are recorded in the order of
    their times, a statistic over a duration [d] is at any time the fold of a
    suffix of them: every event of the last [d] seconds is counted, and none
    that is older than [3 * d] seconds is. *)
Theorem timed_stat_window {StatT EventT : Type} (empty : StatT) (on_event : StatT -> EventT -> StatT)
    (d start now : time) (evs : list (EventT * time)) :
  (1 <= 2 * d)%Q -> increasing start evs -> (last_time start evs <= now)%Q ->
  exists old recent, evs = old ++ recent
  /\ fst (Timed.get_stat empty (record_all empty on_event (Timed.create empty d start) evs) now)
     = fold_events empty on_event recent
  /\ Forall (fun e => snd e <= now - d)%Q old
  /\ Forall (fun e => now - 3 * d <= snd e)%Q recent.
Proof.
  intros Hd Hi Hl.
  assert (Hdur : forall s, Timed.duration (record_all empty on_event s evs) = Timed.duration s).
  { clear. induction evs as [|e evs IH]; intros s; [done|]. cbn. fold (record_all empty on_event).
    change (foldl _ ?x evs) with (record_all empty on_event x evs). rewrite IH. unfold Timed.add_event, Timed.update. cbn zeta.
    by repeat case_bool. }
  pose proof (record_all_covers empty on_event evs (Timed.create empty d start) [] start
    (create_covers empty on_event d start Hd) Hi) as Hcov.
  unfold Timed.get_stat. destruct (Timed.update empty _ now) as [s' now'] eqn:E.
  destruct (update_covers empty on_event _ _ _ _ _ _ Hcov Hl E)
    as ([Hd' (dr & f & l & Heq & Hc & _ & Hdr & Hf & Hla) [Hn1 Hn2] [Hc1 Hc2]] & -> & Hs & _).
  rewrite Hdur in Hs. cbn in Hs, Heq. rewrite Hs in *.
  exists dr, (f ++ l). split_and!; [done|done|done|].
  apply Forall_app; split; eapply Forall_weaken_q; try done; cbn; intros; lra.
Qed.

Lemma timed_stat_window_witness :
  exists old recent, [(Update, 0); (Update, 6); (Update, 12)]%Q = old ++ recent
  /\ fst (Timed.get_stat empty (record_all empty BotStat.on_event (Timed.create empty 5 0) [(Update, 0); (Update, 6); (Update, 12)]%Q) 12)
     = fold_events empty BotStat.on_event recent
  /\ Forall (fun e => snd e <= 12 - 5)%Q old /\ Forall (fun e => 12 - 3 * 5 <= snd e)%Q recent.
Proof. apply timed_stat_window; cbn; repeat split; lra. Defined.

(** The load counters of a bot.  For every interleaving of queries that
    report their request once and then their response once, no [CHECK] of the
    actor fails, and the active requests, files and bytes are those of the queries
    that are not answered yet. *)
Theorem active_counters (parent : bool) (start : time) (es : list query_event) (times : list time)
    (l : list pending_query) (xs : list event) :
  query_trace [] es = Some (l, xs) ->
  exists a, run_actor (BotStatActor.create parent start) (zip xs times) = Some a
  /\ (length times = length xs -> active_request_count a = len l /\ active_file_upload_bytes a = total_bytes l
      /\ active_file_upload_count a = total_count l).
Proof.
  enough (forall l0 a0, matches a0 l0 -> query_trace l0 es = Some (l, xs) ->
    exists a, run_actor a0 (zip xs times) = Some a /\ (length times = length xs -> matches a l)) as H.
  { intros Ht. destruct (H [] (BotStatActor.create parent start)) as (a & Ha & Hm); [|done|].
    - unfold matches. by cbn.
    - exists a. split; [done|]. intros Hl. by destruct (Hm Hl) as (? & ? & ? & _). }
  revert times xs. induction es as [|e es IH]; intros times xs l0 a0 Hm Ht; cbn in Ht.
  - injection Ht as <- <-. by exists a0.
  - destruct (query_step l0 e) as [[l1 x]|] eqn:E1; [|done]. cbn in Ht.
    destruct (query_trace l1 es) as [[l2 xs']|] eqn:E2; [|done]. cbn in Ht. injection Ht as <- <-.
    destruct times as [|t times]; [by exists a0|]. cbn [zip_with run_actor].
    destruct (actor_step a0 l0 e t l1 x Hm E1) as (a1 & out & -> & Hm1 & _). cbn.
    destruct (IH times xs' l1 a1 Hm1 E2) as (a & Ha & Hl). exists a. split; [done|]. intros [=]. auto.
Qed.

Lemma active_counters_witness :
  exists a, run_actor (BotStatActor.create true 0)
    (zip [Request (mk_request 10 1 7 7); Request (mk_request 5 0 0 0); Response (mk_response true 3 1 7)] [1; 2; 3]%Q)
    = Some a
  /\ (length [1; 2; 3]%Q = 3%nat -> active_request_count a = len [(2, (0, 0))]
      /\ active_file_upload_bytes a = total_bytes [(2, (0, 0))]
      /\ active_file_upload_count a = total_count [(2, (0, 0))]).
Proof.
  apply (active_counters true 0 [Started 1 (mk_request 10 1 7 7); Started 2 (mk_request 5 0 0 0); Answered 1 true 3]).
  reflexivity.
Defined.
