(* ===== verification/ByteFlow.v ===== *)
(** * Byte flows and boundaries

    [td/utils/find_boundary.cpp], [td/utils/ByteFlow.h] with the two flows of
    [tdnet] that read the body of an HTTP request, [HttpContentLengthByteFlow] and
    [HttpChunkedByteFlow].

    A [ChainBufferReader] is the list of the bytes that can be read from it; how
    they are split into nodes is not observable by the code modelled here.  A flow
    takes bytes from the head of its input and appends bytes to its output. *)

From S2P Require Import Prelude TdMisc.

Definition crlf : bytes := [chr 13; chr 10].

(** ** [find_boundary] *)

Module Boundary.

Definition MAX_BOUNDARY_LENGTH : nat := 70.

(** The loop.  [memchr] moves to the next place where the first byte of the
    boundary is; here, byte after byte. *)
Fixpoint find_loop (range boundary : bytes) (already_read : nat) : bool * nat :=
  match range with
  | [] => (false, already_read)
  | c :: rest =>
    if bool_decide (head boundary = Some c) then
      if (length range <? length boundary)%nat then (false, already_read)
      else if bool_decide (take (length boundary) range = boundary) then (true, already_read)
      else find_loop rest boundary (S already_read)
    else find_loop rest boundary (S already_read)
  end.

(** [None] is the failed check of the length. *)
Definition find_boundary (range boundary : bytes) (already_read : nat) : option (bool * nat) :=
  if (length boundary <=? MAX_BOUNDARY_LENGTH + 4)%nat
  then Some (find_loop (drop already_read range) boundary already_read) else None.

End Boundary.

(** ** [ByteFlowBaseCommon] with the default options *)

Module Flow.

(** What [loop] did: it returned [true] or [false] with this [need_size_], which
    [wakeup] had set to 0; or it called [finish], which ends in [false]. *)
Inductive loop_end := More (need_size : Z) | Wait (need_size : Z) | Finish (st : option status).

(** [is_input_active_], [need_size_], [can_read], [stop_flag_].  [waiting_flag_] is
    only set by [consume_input], which these flows do not call; with the default
    watermarks of writing (low: the maximum) [can_write] is always true. *)
Record common := mk_common {
  is_input_active_ : bool;
  need_size_ : Z;
  can_read : bool;
  stop_flag_ : bool;
}.
Definition init_common : common := mk_common true 0 true false.

Section Flow.
(** The state of the derived class and its [loop]: the state, the flag of the
    input, the input; the new state, the rest of the input, what is appended to the
    output, how it ended. *)
Context {St : Type} (loop : St -> bool -> bytes -> St * bytes * bytes * loop_end).

(** "update can_read": [options_.read_watermark] is [max] and [0]. *)
Definition update_can_read (b : common) (read_size : Z) : bool :=
  if is_input_active_ b then
    let c := if read_size <? need_size_ b then false else can_read b in
    if need_size_ b <=? read_size then true else c
  else true.

(** The loop of [wakeup]; the last component is the status that was handed to
    [parent_->close_input]. *)
Fixpoint wakeup_loop (fuel : nat) (b : common) (s : St) (input output : bytes)
    : option (common * St * bytes * bytes * option (option status)) :=
  match fuel with
  | O => None
  | S fuel =>
    let c := update_can_read b (len input) in
    if negb c then Some (mk_common (is_input_active_ b) (need_size_ b) c (stop_flag_ b), s, input, output, None)
    else
      let '(s, input, o, e) := loop s (is_input_active_ b) input in
      let output := output ++ o in
      let need n := if n <=? len input then len input + 1 else n in
      match e with
      | More n => wakeup_loop fuel (mk_common (is_input_active_ b) n c false) s input output
      | Wait n => wakeup_loop fuel (mk_common (is_input_active_ b) (need n) c false) s input output
      | Finish st => Some (mk_common (is_input_active_ b) (need 0) c true, s, input, output, Some st)
      end
  end.

(** Enough turns: see [length_wakes] and [chunked_wakes] below. *)
Definition wakeup (b : common) (s : St) (input : bytes) : option (common * St * bytes * bytes * option (option status)) :=
  if stop_flag_ b then Some (b, s, input, [], None)
  else wakeup_loop (length input + 3) b s input [].

End Flow.

Definition unexpected_end : status := Status 0 (lit "Unexpected end of stream").
Definition MIN_UPDATE_SIZE : Z := 16384.
Definition cut_head (n : Z) (s : bytes) : bytes := take (Z.to_nat n) s.
Definition advance (n : Z) (s : bytes) : bytes := drop (Z.to_nat n) s.

(** ** [HttpContentLengthByteFlow]; its field [len_]. *)
Definition length_loop (len_ : Z) (is_input_active : bool) (input : bytes) : Z * bytes * bytes * loop_end :=
  let ready_size := if len_ <? len input then len_ else len input in
  let need_size := Z.min MIN_UPDATE_SIZE len_ in
  if ready_size <? need_size then (len_, input, [], Wait need_size)
  else
    let output := cut_head ready_size input in
    let input := advance ready_size input in
    let len_ := len_ - ready_size in
    if len_ =? 0 then (len_, input, output, Finish None)
    else if negb is_input_active then (len_, input, output, Finish (Some unexpected_end))
    else (len_, input, output, More 0).

(** ** [HttpChunkedByteFlow] *)

Inductive chunk_state := ReadChunkLength | ReadChunkContent.
Record chunked := mk_chunked { ch_state : chunk_state; ch_len : Z; ch_save_len : Z; ch_total_size : Z }.
Definition init_chunked : chunked := mk_chunked ReadChunkLength 0 0 0.

Definition MAX_SIZE : Z := 4294967295.

Definition too_long (l : bytes) : status := Status 0 (lit "Too long length in chunked " ++ l).
(** [tag("size", x)] prints a pair in brackets. *)
Definition too_big (size : Z) : status := Status 0 (lit "Too big query [size:" ++ Integers.print_uint size ++ lit "]").

(** The first part of a turn.  It leaves the function with an error, leaves the
    turn to wait, or goes on to the content.  The boundary has two bytes, so that
    [find_boundary] passes its check. *)
Inductive length_part := LengthError (st : status) (c : chunked) (input : bytes) | LengthWait (n : Z) (c : chunked) | LengthDone (c : chunked) (input : bytes).

Definition read_length (c : chunked) (input : bytes) : length_part :=
  match ch_state c with
  | ReadChunkContent => LengthDone c input
  | ReadChunkLength =>
    let n := Z.to_nat (ch_len c) in
    let '(ok, n) := Boundary.find_loop (drop n input) crlf n in
    if (8 <? n)%nat then
      LengthError (too_long (take n input)) (mk_chunked ReadChunkLength (Z.of_nat n) (ch_save_len c) (ch_total_size c)) (drop n input)
    else if negb ok then LengthWait (len input + 1) (mk_chunked ReadChunkLength (Z.of_nat n) (ch_save_len c) (ch_total_size c))
    else
      let l := Coding.hex_to_integer 64 (take n input) in
      LengthDone (mk_chunked ReadChunkContent l l (ch_total_size c)) (drop (n + 2) input)
  end.

(** [break] with [result = false], the end of the function. *)
Definition chunk_break (c : chunked) (active result : bool) (input output : bytes) (n : Z) : chunked * bytes * bytes * loop_end :=
  if negb active && negb result then (c, input, output, Finish (Some unexpected_end))
  else (c, input, output, if result then More n else Wait n).

(** The rest of the turn, on the content of a chunk. *)
Definition read_content (c : chunked) (is_input_active : bool) (input : bytes) : chunked * bytes * bytes * loop_end :=
  let size := len input in
  let ready := Z.min (ch_len c) size in
  let need_size := Z.min MIN_UPDATE_SIZE (ch_len c) + 2 in
  if size <? need_size then chunk_break c is_input_active false input [] need_size
  else if MAX_SIZE - ready <? ch_total_size c then (c, input, [], Finish (Some (too_big (len input))))
  else
    let output := cut_head ready input in
    let input := advance ready input in
    let c := mk_chunked (ch_state c) (ch_len c - ready) (ch_save_len c) (ch_total_size c + ready) in
    if ch_len c =? 0 then
      if len input <? 2 then chunk_break c is_input_active true input output 2
      else
        let input := advance 2 input in
        let c := mk_chunked (ch_state c) (ch_len c) (ch_save_len c) (ch_total_size c + 2) in
        if ch_save_len c =? 0 then (c, input, output, Finish None)
        else chunk_break (mk_chunked ReadChunkLength (ch_len c) (ch_save_len c) (ch_total_size c)) is_input_active true input output 0
    else chunk_break c is_input_active true input output 0.

Definition chunked_loop (c : chunked) (is_input_active : bool) (input : bytes) : chunked * bytes * bytes * loop_end :=
  match read_length c input with
  | LengthError st c input => (c, input, [], Finish (Some st))
  | LengthWait n c => chunk_break c is_input_active false input [] n
  | LengthDone c input => read_content c is_input_active input
  end.

End Flow.

(** ** Facts *)

Import Boundary Flow.

(** *** Boundaries *)

(** There is an occurrence of [boundary] at [i]. *)
Definition occurs (s boundary : bytes) (i : nat) : Prop := take (length boundary) (drop i s) = boundary.

Lemma occurs_head s b i : b <> [] -> occurs s b i -> exists c rest, drop i s = c :: rest /\ head b = Some c.
Proof.
  unfold occurs. destruct b as [|x b]; [done|]. intros _. destruct (drop i s) as [|c rest]; [done|].
  cbn. intros [= -> _]. by exists x, rest.
Qed.

(** The search stops at the first occurrence, or at a place before which there is
    none, however the stream goes on. *)
Lemma find_loop_spec b : b <> [] -> forall s n ok m, find_loop s b n = (ok, m) ->
  (n <= m <= n + length s)%nat /\
  (forall t i, (i < m - n)%nat -> ~ occurs (s ++ t) b i) /\
  (if ok then occurs s b (m - n) else (length s < m - n + length b)%nat).
Proof.
  intros Hb. induction s as [|c s IH]; intros n ok m; cbn [find_loop].
  - intros [= <- <-]. split; [simpl; lia|]. split; [intros; lia|]. destruct b; [done|simpl; lia].
  - case_bool_decide as Hh.
    + destruct (Nat.ltb_spec (length (c :: s)) (length b)).
      * intros [= <- <-]. split; [lia|]. split; [intros; lia|]. simpl in *. lia.
      * case_bool_decide as Ht.
        { intros [= <- <-]. split; [lia|]. split; [intros; lia|]. by rewrite Nat.sub_diag. }
        intros (H1 & H2 & H3)%IH. split; [simpl; lia|]. replace (m - n)%nat with (S (m - S n)) by lia. split.
        { intros t [|i] Hi; [|apply H2; lia]. unfold occurs. rewrite drop_0, take_app_le by done. done. }
        destruct ok; [done|simpl; lia].
    + intros (H1 & H2 & H3)%IH. split; [simpl; lia|]. replace (m - n)%nat with (S (m - S n)) by lia. split.
      { intros t [|i] Hi; [|apply H2; lia]. intros (x & r & [= -> _] & E)%occurs_head; done. }
      destruct ok; [done|simpl; lia].
Qed.

Lemma find_loop_occurs b s n i : b <> [] -> occurs s b i -> (forall j, (j < i)%nat -> ~ occurs s b j) ->
  find_loop s b n = (true, (n + i)%nat).
Proof.
  intros Hb Ho Hn. destruct (find_loop s b n) as [ok m] eqn:E. apply find_loop_spec in E as (H1 & H2 & H3); [|done].
  assert (Hl : (i + length b <= length s)%nat).
  { assert (length (take (length b) (drop i s)) = length b) as L by by rewrite Ho.
    rewrite length_take, length_drop in L. assert (length b <> 0%nat) by by destruct b. lia. }
  assert (i < m - n \/ m - n <= i)%nat as [?|?] by lia.
  { destruct (H2 [] i); [done|]. by rewrite app_nil_r. }
  destruct ok.
  - destruct (decide (m - n = i)%nat); [repeat f_equal; lia|]. by destruct (Hn (m - n)%nat); [lia|].
  - lia.
Qed.

(** The search over more bytes goes on where the one over fewer bytes stopped. *)
Lemma find_loop_app b s t n ok m : b <> [] -> find_loop s b n = (ok, m) ->
  find_loop (s ++ t) b n = if ok then (true, m) else find_loop (drop (m - n) (s ++ t)) b m.
Proof.
  intros Hb. revert n. induction s as [|c s IH]; intros n; cbn [find_loop app].
  - intros [= <- <-]. rewrite Nat.sub_diag. by rewrite drop_0.
  - case_bool_decide as Hh.
    + destruct (Nat.ltb_spec (length (c :: s)) (length b)).
      * intros [= <- <-]. rewrite Nat.sub_diag, drop_0. cbn [find_loop]. by rewrite (bool_decide_true _ Hh).
      * replace (length (c :: s ++ t) <? length b)%nat with false
          by (symmetry; apply Nat.ltb_ge; revert H; cbn [length]; rewrite length_app; lia).
        change (c :: s ++ t) with ((c :: s) ++ t). rewrite take_app_le by done.
        case_bool_decide as Ht; [by intros [= <- <-]|]. intros E. rewrite (IH _ E).
        destruct ok; [done|]. apply find_loop_spec in E as (E & _); [|done].
        replace (m - n)%nat with (S (m - S n)) by lia. done.
    + intros E. rewrite (IH _ E). destruct ok; [done|]. apply find_loop_spec in E as (E & _); [|done].
      replace (m - n)%nat with (S (m - S n)) by lia. done.
Qed.

(** Comparisons of integers as propositions. *)
Ltac z_props :=
  repeat match goal with
  | H : (_ <? _) = true |- _ => apply Z.ltb_lt in H
  | H : (_ <? _) = false |- _ => apply Z.ltb_ge in H
  | H : (_ <=? _) = true |- _ => apply Z.leb_le in H
  | H : (_ <=? _) = false |- _ => apply Z.leb_gt in H
  | H : (_ =? _) = true |- _ => apply Z.eqb_eq in H
  | H : (_ =? _) = false |- _ => apply Z.eqb_neq in H
  end.

(** *** Wake-ups *)

Section Wakes.
Context {St : Type} (loop : St -> bool -> bytes -> St * bytes * bytes * loop_end) (Inv : St -> Prop).
Context (loop_inv : forall s a input, Inv s -> match loop s a input with
  | (s', input', o, e) => Inv s' /\ (length o + length input' <= length input)%nat
    /\ match e with More n => 0 <= n /\ (length input' < length input)%nat | Wait n => 0 <= n | Finish _ => True end
  end).

Lemma wakeup_loop_total fuel : forall b s input output, Inv s ->
  (length input + (if is_input_active_ b && (len input <? need_size_ b)%Z then 0 else 1) < fuel)%nat ->
  is_input_active_ b = true -> 0 <= need_size_ b ->
  exists b' s' input' o e, wakeup_loop loop fuel b s input output = Some (b', s', input', o, e)
  /\ Inv s' /\ (length o + length input' <= length output + length input)%nat /\ (is_input_active_ b' = true /\ 0 <= need_size_ b')
  /\ (e = None -> stop_flag_ b' = stop_flag_ b \/ stop_flag_ b' = false) /\ (is_Some e -> stop_flag_ b' = true).
Proof using loop_inv.
  induction fuel as [|fuel IH]; intros b s input output Hs Hf Ha Hn; [lia|]. cbn [wakeup_loop].
  assert (Hc : update_can_read b (len input) = negb (len input <? need_size_ b)).
  { unfold update_can_read. rewrite Ha. destruct (Z.ltb_spec (len input) (need_size_ b)).
    - by rewrite leb_false by done.
    - by rewrite leb_true by done. }
  rewrite Hc, Ha in *. cbn [andb] in Hf. destruct (len input <? need_size_ b) eqn:E; cbn [negb].
  { eexists _, _, _, _, None. split; [done|]. cbn. split_and!; [done|lia|done|done|by left|by intros [? [=]]]. }
  pose proof (loop_inv s true input Hs) as L. destruct (loop s true input) as [[[s1 i1] o1] e1]. destruct L as (L1 & L2 & L3).
  destruct e1 as [n|n|st].
  - edestruct (IH (mk_common true n true false) s1 i1 (output ++ o1)) as (b' & s' & i' & o & e & -> & H1 & H2 & H3 & H4 & H5);
      [done|cbn; destruct (len i1 <? n); lia|done|cbn; lia|]. rewrite length_app in H2.
    eexists _, _, _, _, _. split_and!; try done; [lia|apply H3|apply H3|]. intros He. right. by destruct (H4 He).
  - edestruct (IH (mk_common true (if n <=? len i1 then len i1 + 1 else n) true false) s1 i1 (output ++ o1))
      as (b' & s' & i' & o & e & -> & H1 & H2 & H3 & H4 & H5);
      [done| |done| |].
    { cbn. replace (len i1 <? (if n <=? len i1 then len i1 + 1 else n)) with true; [lia|].
      symmetry. apply ltb_true. destruct (Z.leb_spec n (len i1)); lia. }
    { cbn. pose proof (len_nonneg i1). case_bool; lia. }
    rewrite length_app in H2. eexists _, _, _, _, _. split_and!; try done; [lia|apply H3|apply H3|]. intros He. right. by destruct (H4 He).
  - eexists _, _, _, _, _. split; [done|]. rewrite length_app. cbn -[Z.add]. pose proof (len_nonneg i1). split_and!; try done; [lia|].
    case_bool; lia.
Qed.

(** A wake-up ends; it takes bytes from the head of the input; it stops the flow
    exactly when it tells its parent. *)
Lemma wakeup_total b s input : Inv s -> is_input_active_ b = true -> 0 <= need_size_ b ->
  exists b' s' input' o e, wakeup loop b s input = Some (b', s', input', o, e)
  /\ Inv s' /\ (length o + length input' <= length input)%nat /\ (is_input_active_ b' = true /\ 0 <= need_size_ b')
  /\ (stop_flag_ b = true -> e = None) /\ (stop_flag_ b' = true <-> stop_flag_ b = true \/ is_Some e).
Proof using loop_inv.
  intros Hs Ha Hn. unfold wakeup. destruct (stop_flag_ b) eqn:E.
  - eexists _, _, _, _, None. split; [done|]. rewrite E. split_and!; try done. tauto.
  - destruct (wakeup_loop_total (length input + 3) b s input []) as (b' & s' & i' & o & e & -> & H1 & H2 & H3 & H4 & H5);
      [done|rewrite Ha; cbn; destruct (_ <? _)%Z; lia|done|done|].
    eexists _, _, _, _, e. split_and!; try done; [apply H3|apply H3|]. split; [|intros [?|?]; [done|by apply H5]].
    intros Hs'. right. destruct e; [done|]. destruct H4 as [H4|H4]; congruence.
Qed.
End Wakes.

Lemma length_cut_head n (s : bytes) : 0 <= n <= len s -> len (cut_head n s) = n.
Proof. intros H. unfold cut_head, len in *. rewrite length_take. lia. Qed.
Lemma length_advance n (s : bytes) : (length (advance n s) = length s - Z.to_nat n)%nat.
Proof. apply length_drop. Qed.
Lemma length_cut n (s : bytes) : length (cut_head n s) = (Z.to_nat n `min` length s)%nat.
Proof. apply length_take. Qed.
Lemma cut_advance n (s : bytes) : cut_head n s ++ advance n s = s.
Proof. apply take_drop. Qed.

Lemma length_loop_inv len_ a input : 0 <= len_ -> match length_loop len_ a input with
  | (s', input', o, e) => 0 <= s' /\ (length o + length input' <= length input)%nat
    /\ match e with More n => 0 <= n /\ (length input' < length input)%nat | Wait n => 0 <= n | Finish _ => True end
  end.
Proof.
  intros H. unfold length_loop. cbn zeta. pose proof (len_nonneg input). unfold MIN_UPDATE_SIZE. unfold len in *.
  repeat case_bool; rewrite ?length_advance, ?length_cut; split_and!; try done; try lia; cbn; lia.
Qed.

Definition chunked_inv (c : chunked) : Prop := 0 <= ch_len c.

Lemma hex_to_integer_nonneg w s : 0 <= w -> 0 <= Coding.hex_to_integer w s.
Proof.
  intros Hw. unfold Coding.hex_to_integer. assert (forall v, 0 <= v -> 0 <= Coding.hex_to_integer_loop w s v) as H; [|by apply H].
  induction s as [|c s IH]; intros v Hv; cbn; [done|]. case_bool; [|done]. apply IH. by apply wrap_bounds.
Qed.

Lemma read_length_inv c input : chunked_inv c -> match read_length c input with
  | LengthError _ c' input' => chunked_inv c' /\ (length input' <= length input)%nat
  | LengthWait n c' => chunked_inv c' /\ 0 <= n
  | LengthDone c' input' => chunked_inv c' /\ (length input' <= length input)%nat
  end.
Proof.
  intros H. unfold read_length. destruct (ch_state c); [|by split].
  destruct (find_loop _ _ _) as [ok n] eqn:E. unfold chunked_inv. repeat case_bool; cbn; [split|..]; rewrite ?length_drop; try lia.
  - pose proof (len_nonneg input). split; lia.
  - split; [apply hex_to_integer_nonneg|]; lia.
Qed.

Lemma chunked_loop_inv c a input : chunked_inv c -> match chunked_loop c a input with
  | (c', input', o, e) => chunked_inv c' /\ (length o + length input' <= length input)%nat
    /\ match e with More n => 0 <= n /\ (length input' < length input)%nat | Wait n => 0 <= n | Finish _ => True end
  end.
Proof.
  intros H. unfold chunked_loop, read_content. pose proof (read_length_inv c input H) as L. destruct (read_length c input) as [st c1 i1|n c1|c1 i1].
  - destruct L. by split_and!.
  - unfold chunk_break. destruct L as [L L']. destruct a; by split_and!.
  - destruct L as [L1 L2]. cbn zeta. pose proof (len_nonneg i1). unfold chunked_inv, MIN_UPDATE_SIZE, chunk_break in *. cbn.
    unfold len in *. repeat case_bool; cbn -[Z.min Nat.min]; rewrite ?length_advance, ?length_cut in *; z_props; split_and!; try done; try lia.
Qed.

(** *** Reading a body

    [R s stream out] says that in state [s], with [stream] still to come in the
    input, the flow will write [out] and leave [rest].  A flow keeps it turn by
    turn, knowing only the part of the stream that has arrived; so it does when the
    stream arrives in pieces. *)

Section Reads.
Context {St : Type} (loop : St -> bool -> bytes -> St * bytes * bytes * loop_end).
Context (R : St -> bytes -> bytes -> Prop) (rest : bytes).

Definition turn_reads (future out : bytes) (t : St * bytes * bytes * loop_end) : Prop :=
  let '(s', input', o, e) := t in
  match e with
  | More n => n <= len (input' ++ future) /\ exists out', out = o ++ out' /\ R s' (input' ++ future) out'
  | Wait n => future <> [] /\ n <= len (input' ++ future) /\ exists out', out = o ++ out' /\ R s' (input' ++ future) out'
  | Finish st => st = None /\ o = out /\ input' ++ future = rest
  end.
Context (loop_reads : forall s input future out, R s (input ++ future) out -> turn_reads future out (loop s true input)).

Definition reads (b : common) (s : St) (stream out : bytes) : Prop :=
  is_input_active_ b = true /\ stop_flag_ b = false /\ need_size_ b <= len stream /\ R s stream out.

Lemma reads_init s stream out : R s stream out -> reads init_common s stream out.
Proof using Type. intros H. unfold reads. cbn. split_and!; try done. apply len_nonneg. Qed.

Lemma wakeup_loop_reads fuel : forall b s input future out output b' s' i' o e, reads b s (input ++ future) out ->
  wakeup_loop loop fuel b s input output = Some (b', s', i', o, e) ->
  exists o', o = output ++ o' /\ match e with
  | None => exists out', out = o' ++ out' /\ reads b' s' (i' ++ future) out' /\ len i' < need_size_ b'
  | Some st => st = None /\ out = o' /\ i' ++ future = rest
  end.
Proof using loop_reads.
  induction fuel as [|fuel IH]; intros b s input future out output b' s' i' o e (Ha & Hst & Hn & HR); [done|]. cbn [wakeup_loop].
  assert (Hc : update_can_read b (len input) = negb (len input <? need_size_ b)).
  { unfold update_can_read. rewrite Ha. destruct (Z.ltb_spec (len input) (need_size_ b)); [by rewrite leb_false|by rewrite leb_true]. }
  rewrite Hc, Ha. destruct (Z.ltb_spec (len input) (need_size_ b)) as [Hl|Hl]; cbn [negb].
  { intros [= <- <- <- <- <-]. exists []. rewrite app_nil_r. split; [done|]. exists out. unfold reads. cbn. by split_and!. }
  pose proof (loop_reads s input future out HR) as L. destruct (loop s true input) as [[[s1 i1] o1] e1]. cbn [turn_reads] in L.
  destruct e1 as [n|n|st].
  - destruct L as (L1 & out1 & -> & L2). intros (o' & -> & L)%(IH _ _ _ future out1); [|unfold reads; by split_and!].
    exists (o1 ++ o'). rewrite app_assoc. split; [done|]. destruct e; [|destruct L as (out' & -> & L)]; [by destruct L as (-> & -> & L)|].
    exists out'. by rewrite app_assoc.
  - destruct L as (L0 & L1 & out1 & -> & L2). intros (o' & -> & L)%(IH _ _ _ future out1).
    + exists (o1 ++ o'). rewrite app_assoc. split; [done|]. destruct e; [|destruct L as (out' & -> & L)]; [by destruct L as (-> & -> & L)|].
      exists out'. by rewrite app_assoc.
    + unfold reads. cbn. split_and!; try done. rewrite len_app in *. destruct future; [done|]. rewrite len_cons in *.
      pose proof (len_nonneg future). case_bool; lia.
  - destruct L as (-> & -> & L). intros [= <- <- <- <- <-]. by exists out.
Qed.

(** After a wake-up that does not finish, more bytes are needed, and more will come. *)
Lemma wakeup_reads b s input future out b' s' i' o e : reads b s (input ++ future) out ->
  wakeup loop b s input = Some (b', s', i', o, e) -> match e with
  | None => exists out', out = o ++ out' /\ reads b' s' (i' ++ future) out' /\ len i' < need_size_ b'
  | Some st => st = None /\ out = o /\ i' ++ future = rest
  end.
Proof using loop_reads.
  intros H E. unfold wakeup in E. rewrite (proj1 (proj2 H)) in E. by destruct (wakeup_loop_reads _ _ _ _ _ _ _ _ _ _ _ _ H E) as (o' & -> & L).
Qed.
End Reads.

(** A body of known length. *)
Definition length_R (rest : bytes) (len_ : Z) (stream out : bytes) : Prop := stream = out ++ rest /\ len_ = len out.

Lemma length_reads rest s input future out : length_R rest s (input ++ future) out ->
  turn_reads (length_R rest) rest future out (length_loop s true input).
Proof.
  intros [HS ->]. unfold length_loop, MIN_UPDATE_SIZE. cbn zeta.
  assert (HL : len input + len future = len out + len rest) by by rewrite <- !len_app, HS.
  pose proof (len_nonneg input). pose proof (len_nonneg out). pose proof (len_nonneg rest). pose proof (len_nonneg future).
  destruct (Z.ltb_spec (len out) (len input)) as [Ho|Ho].
  - replace (len out <? Z.min 16384 (len out)) with false by lia. rewrite Z.sub_diag. cbn. split; [done|].
    assert (E : cut_head (len out) input = out).
    { unfold cut_head, len. rewrite Nat2Z.id. rewrite <- (take_app_le input future), HS by (unfold len in *; lia). apply take_app_length. }
    split; [done|]. apply (app_inv_head out). rewrite <- HS. rewrite <- E at 1. rewrite app_assoc. by rewrite cut_advance.
  - assert (Ef : exists out', out = input ++ out' /\ future = out' ++ rest).
    { exists (drop (length input) out). rewrite <- (take_drop (length input) out) at 1.
      assert (take (length input) out = input) as E.
      { rewrite <- (take_app_le out rest), <- HS by (unfold len in *; lia). apply take_app_length. }
      rewrite E. split; [done|]. apply (app_inv_head input). rewrite HS. rewrite <- (take_drop (length input) out) at 1. rewrite E. by rewrite app_assoc. }
    destruct Ef as (out' & -> & ->). rewrite !len_app in *. destruct (Z.ltb_spec (len input) (Z.min 16384 (len input + len out'))).
    + cbn. split_and!; [|rewrite !len_app; lia|].
      * destruct out'; [|done]. rewrite len_nil in *. lia.
      * exists (input ++ out'). split; [done|]. split; [by rewrite app_assoc|by rewrite len_app].
    + unfold cut_head, advance, len. rewrite Nat2Z.id, take_ge, drop_ge by done.
      replace (Z.of_nat (length input) + Z.of_nat (length out') - Z.of_nat (length input)) with (len out') by (unfold len; lia).
      destruct (Z.eqb_spec (len out') 0) as [Eo|Eo]; cbn.
      * destruct out'; [|rewrite len_cons in Eo; pose proof (len_nonneg out'); lia]. by rewrite app_nil_r.
      * split; [apply len_nonneg|]. exists out'. split; [done|]. by split.
Qed.

(** A body in chunks: each has a line with its length in hexadecimal, the data and
    a line end; the last one has length 0.  The third index is what the flow counts:
    the data and two bytes for each chunk. *)
Inductive chunked_body : bytes -> bytes -> Z -> Prop :=
| body_end h : chr 13 ∉ h -> (length h <= 8)%nat -> Coding.hex_to_integer 64 h = 0 ->
    chunked_body (h ++ crlf ++ crlf) [] 2
| body_chunk h data s out k : chr 13 ∉ h -> (length h <= 8)%nat -> Coding.hex_to_integer 64 h = len data -> data <> [] ->
    chunked_body s out k -> chunked_body (h ++ crlf ++ data ++ crlf ++ s) (data ++ out) (len data + 2 + k).

Definition chunked_R (rest : bytes) (c : chunked) (stream out : bytes) : Prop :=
  match ch_state c with
  | ReadChunkLength => exists s1 k, chunked_body s1 out k /\ stream = s1 ++ rest /\ ch_total_size c + k <= MAX_SIZE
      /\ 0 <= ch_len c /\ forall h s2, s1 = h ++ crlf ++ s2 -> ch_len c <= len h
  | ReadChunkContent => exists d, ch_len c = len d /\
      ((ch_save_len c = 0 /\ d = [] /\ out = [] /\ stream = crlf ++ rest /\ ch_total_size c + 2 <= MAX_SIZE)
       \/ (ch_save_len c <> 0 /\ exists s out0 k, chunked_body s out0 k /\ out = d ++ out0 /\ stream = d ++ crlf ++ s ++ rest
           /\ ch_total_size c + len d + 2 + k <= MAX_SIZE))
  end.

Lemma crlf_first h s : chr 13 ∉ h -> occurs (h ++ crlf ++ s) crlf (length h) /\ forall j, (j < length h)%nat -> ~ occurs (h ++ crlf ++ s) crlf j.
Proof.
  intros Hh. split; [unfold occurs; by rewrite drop_app_length|]. intros j Hj (c & r & E & [= <-])%occurs_head; [|done].
  rewrite drop_app_le in E by lia. destruct (drop j h) as [|x d] eqn:Ed.
  - apply (f_equal length) in Ed. rewrite length_drop in Ed. cbn in Ed. lia.
  - cbn in E. injection E as -> _. apply Hh. rewrite <- (take_drop j h), Ed. apply elem_of_app. right. apply list_elem_of_here.
Qed.

Lemma occurs_drop s b n i : occurs (drop n s) b i <-> occurs s b (n + i).
Proof. unfold occurs. by rewrite drop_drop. Qed.

Lemma occurs_length s b i : b <> [] -> occurs s b i -> (i + length b <= length s)%nat.
Proof.
  intros Hb H. assert (length (take (length b) (drop i s)) = length b) as L by by rewrite H.
  rewrite length_take, length_drop in L. assert (length b <> 0%nat) by by destruct b. lia.
Qed.

Lemma find_loop_line h s n : chr 13 ∉ h -> (n <= length h)%nat -> find_loop (drop n (h ++ crlf ++ s)) crlf n = (true, length h).
Proof.
  intros Hh Hn. destruct (crlf_first h s Hh) as [H1 H2]. rewrite (find_loop_occurs crlf _ n (length h - n)); [by replace (n + (length h - n))%nat with (length h) by lia|done|..].
  - apply occurs_drop. by replace (n + (length h - n))%nat with (length h) by lia.
  - intros j Hj Ho. apply occurs_drop in Ho. apply (H2 (n + j)%nat); [lia|done].
Qed.

Lemma read_length_line c h input future s : ch_state c = ReadChunkLength -> chr 13 ∉ h -> (length h <= 8)%nat ->
  0 <= ch_len c <= len h -> input ++ future = h ++ crlf ++ s ->
  match read_length c input with
  | LengthError _ _ _ => False
  | LengthWait n c' => future <> [] /\ n <= len (input ++ future) /\
      exists m, c' = mk_chunked ReadChunkLength m (ch_save_len c) (ch_total_size c) /\ 0 <= m <= len h
  | LengthDone c' i' => c' = mk_chunked ReadChunkContent (Coding.hex_to_integer 64 h) (Coding.hex_to_integer 64 h) (ch_total_size c) /\ i' ++ future = s
  end.
Proof.
  intros Hst Hh Hl Hn HS. unfold read_length. rewrite Hst. set (n := Z.to_nat (ch_len c)). assert (n <= length h)%nat by (unfold len in *; lia).
  pose proof (find_loop_line h s n Hh H) as F. rewrite <- HS, drop_app in F.
  destruct (find_loop (drop n input) crlf n) as [ok m] eqn:E. rewrite (find_loop_app crlf _ _ _ _ _ ltac:(done) E) in F.
  apply find_loop_spec in E as (E1 & _ & E3); [|done]. rewrite length_drop in *.
  assert (Hm : (m <= length h)%nat).
  { destruct ok; [by injection F as ->|]. apply find_loop_spec in F as (F & _); [lia|done]. }
  replace (8 <? m)%nat with false by (symmetry; apply Nat.ltb_ge; lia). destruct ok; cbn [negb].
  - injection F as ->. apply occurs_drop, occurs_length in E3 as E4; [|done]. cbn [length crlf] in E4.
    assert (Ei : take (length h) input = h).
    { rewrite <- (take_app_le input future), HS by lia. apply take_app_length. }
    rewrite Ei. split; [done|]. rewrite <- drop_app_le, HS, app_assoc by lia. apply drop_app_length'. rewrite length_app. cbn. lia.
  - cbn [length crlf] in E3. apply (f_equal length) in HS. rewrite !length_app in HS. cbn [length crlf] in HS.
    split; [intros ->; cbn in HS; lia|]. rewrite len_app. unfold len. split; [lia|]. eexists. split; [done|]. unfold len. lia.
Qed.

Lemma chunked_length s out k : chunked_body s out k -> 2 <= k.
Proof. induction 1; [lia|]. pose proof (len_nonneg data). lia. Qed.

Lemma advance_app n (s t : bytes) : 0 <= n <= len s -> advance n s ++ t = advance n (s ++ t).
Proof. intros H. unfold advance. by rewrite drop_app_le by (unfold len in *; lia). Qed.
Lemma cut_head_app n (s t : bytes) : 0 <= n <= len s -> cut_head n (s ++ t) = cut_head n s.
Proof. intros H. unfold cut_head. by rewrite take_app_le by (unfold len in *; lia). Qed.
Lemma advance_data (d s : bytes) n : 0 <= n <= len d -> advance n (d ++ s) = advance n d ++ s.
Proof. intros H. by rewrite advance_app. Qed.
Lemma len_advance n (s : bytes) : 0 <= n <= len s -> len (advance n s) = len s - n.
Proof. intros H. unfold len in *. rewrite length_advance. lia. Qed.
Lemma advance_all (d s : bytes) : advance (len d) (d ++ s) = s.
Proof. unfold advance, len. rewrite Nat2Z.id. apply drop_app_length. Qed.
Lemma cut_head_all (d s : bytes) : cut_head (len d) (d ++ s) = d.
Proof. unfold cut_head, len. rewrite Nat2Z.id. apply take_app_length. Qed.

Lemma len_crlf : len crlf = 2.
Proof. done. Qed.

(** What is in front of the content of a chunk of which [d] is left. *)
Lemma content_split input future d t : input ++ future = d ++ crlf ++ t ->
  (len d <= len input /\ cut_head (len d) input = d /\ advance (len d) input ++ future = crlf ++ t)
  \/ (len input < len d /\ exists d', d = input ++ d' /\ future = d' ++ crlf ++ t).
Proof.
  intros HS. pose proof (len_nonneg d). destruct (Z.le_gt_cases (len d) (len input)) as [H1|H1]; [left|right]; split; try done.
  - split; [by rewrite <- (cut_head_app _ _ future), HS, cut_head_all by lia|]. by rewrite advance_app, HS, advance_all by lia.
  - exists (drop (length input) d). assert (E : take (length input) d = input).
    { rewrite <- (take_app_le d (crlf ++ t)), <- HS by (unfold len in *; lia). apply take_app_length. }
    split; [by rewrite <- E at 1; rewrite take_drop|]. apply (app_inv_head input).
    rewrite HS, <- (take_drop (length input) d) at 1. rewrite E. by rewrite <- app_assoc.
Qed.

Lemma content_reads rest c input future out : ch_state c = ReadChunkContent -> chunked_R rest c (input ++ future) out ->
  turn_reads (chunked_R rest) rest future out (read_content c true input).
Proof.
  intros Hst. unfold chunked_R at 1. rewrite Hst. intros (d & Hd & H).
  assert (Ht : exists t, input ++ future = d ++ crlf ++ t) by (destruct H as [(_ & -> & _ & E & _)|(_ & s & o & k & _ & _ & E & _)]; eauto).
  destruct Ht as (t & HS). pose proof (len_nonneg d). pose proof (len_nonneg input). pose proof (len_nonneg t).
  assert (Htot : ch_total_size c + len d + 2 <= MAX_SIZE).
  { destruct H as [(_ & -> & _ & _ & L)|(_ & s & o & k & B & _ & _ & L)]; [by rewrite len_nil, Z.add_0_r|]. apply chunked_length in B. lia. }
  assert (HL : len input + len future = len d + 2 + len t) by (rewrite <- len_app, HS, !len_app, len_crlf; lia).
  unfold read_content, MIN_UPDATE_SIZE. cbn zeta. rewrite Hd. destruct (Z.ltb_spec (len input) (Z.min 16384 (len d) + 2)) as [Hn|Hn].
  { cbn. split; [intros ->; rewrite len_nil in *; lia|]. split; [rewrite len_app; lia|]. exists out. split; [done|]. unfold chunked_R. rewrite Hst. by exists d. }
  rewrite ltb_false by lia. cbn.
  apply content_split in HS as [(Hle & Hc & Ha)|(Hlt & d' & -> & Hf)].
  - rewrite Z.min_l, Z.sub_diag by done. cbn. rewrite Hc, len_advance by lia.
    destruct (Z.ltb_spec (len input - len d) 2); cbn.
    + split; [rewrite Ha, len_app, len_crlf; lia|].
      destruct H as [(Hs & -> & -> & E & L)|(Hs & s & o & k & B & -> & E & L)].
      * exists []. split; [done|]. unfold chunked_R. cbn. rewrite Hst. exists []. split; [done|]. left. split_and!; try done; rewrite len_nil; lia.
      * exists o. split; [done|]. unfold chunked_R. cbn. rewrite Hst. exists []. split; [done|]. right. split; [done|].
        exists s, o, k. split_and!; try done; [|rewrite len_nil; lia]. by rewrite advance_app, E, advance_all by lia.
    + assert (Ha' : advance 2 (advance (len d) input) ++ future = t).
      { rewrite advance_app, Ha by (rewrite len_advance; lia). apply (advance_all crlf). }
      destruct H as [(-> & -> & -> & E & L)|(Hs & s & o & k & B & -> & E & L)]; cbn.
      * split_and!; [done|done|]. rewrite Ha'. apply (app_inv_head crlf). rewrite <- E, <- Ha. by rewrite len_nil.
      * rewrite (proj2 (Z.eqb_neq _ _) Hs). cbn. split; [apply len_nonneg|]. exists o. split; [done|]. unfold chunked_R. cbn.
        exists s, k. split_and!; try done; [|intros; apply len_nonneg]. rewrite Ha'. apply (app_inv_head crlf).
        by rewrite <- Ha, advance_app, E, advance_all by lia.
  - rewrite Z.min_r by lia. rewrite len_app in *. replace (len input + len d' - len input) with (len d') by lia.
    rewrite (proj2 (Z.eqb_neq _ _)) by lia. unfold cut_head, advance, len. rewrite Nat2Z.id, take_ge, drop_ge by done. cbn.
    split; [apply len_nonneg|]. destruct H as [(_ & E & _)|(Hs & s & o & k & B & -> & E & L)].
    { destruct input; [rewrite len_nil in *; lia|done]. }
    exists (d' ++ o). split; [by rewrite app_assoc|]. unfold chunked_R. cbn. rewrite Hst. exists d'. split; [done|]. right. split; [done|].
    exists s, o, k. split_and!; try done; [|unfold len in *; lia]. apply (app_inv_head input). rewrite E. by rewrite <- app_assoc.
Qed.

Lemma chunked_reads rest c input future out : chunked_R rest c (input ++ future) out ->
  turn_reads (chunked_R rest) rest future out (chunked_loop c true input).
Proof.
  intros H. unfold chunked_loop. destruct (ch_state c) eqn:Hst.
  - unfold chunked_R in H. rewrite Hst in H. destruct H as (s1 & k & B & HS & Hk & Hn & Hl).
    assert (exists h s2, s1 = h ++ crlf ++ s2 /\ chr 13 ∉ h /\ (length h <= 8)%nat
      /\ forall c', c' = mk_chunked ReadChunkContent (Coding.hex_to_integer 64 h) (Coding.hex_to_integer 64 h) (ch_total_size c) ->
         chunked_R rest c' (s2 ++ rest) out) as (h & s2 & E & Hh & H8 & HR).
    { inversion B as [h Hh H8 He E1 E2 E3|h data s o k' Hh H8 He Hd B' E1 E2 E3]; exists h; subst.
      - exists crlf. split_and!; try done. intros c' ->. unfold chunked_R. cbn -[crlf]. rewrite He. exists []. split; [done|]. by left.
      - exists (data ++ crlf ++ s). split_and!; try done. intros c' ->. unfold chunked_R. cbn -[crlf]. rewrite He, <- !app_assoc.
        exists data. split; [done|]. right. split; [destruct data; [done|rewrite len_cons; pose proof (len_nonneg data); lia]|].
        exists s, o, k'. split_and!; try done. lia. }
    assert (Ht : input ++ future = h ++ crlf ++ s2 ++ rest) by by rewrite HS, E, <- !app_assoc.
    pose proof (read_length_line c h input future _ Hst Hh H8 (conj Hn (Hl _ _ E)) Ht) as L. destruct (read_length c input) as [|n c'|c' i'].
    + done.
    + destruct L as (L1 & L2 & m & -> & Hm). cbn. split; [done|]. split; [done|]. exists out. split; [done|]. unfold chunked_R. cbn.
      exists s1, k. split_and!; try done; [lia|]. intros h' s2' E'. assert (~ (length h' < length h)%nat) as Hlt; [|unfold len in *; lia].
      intros Hlt. apply (proj2 (crlf_first h s2 Hh) _ Hlt). rewrite <- E, E'. unfold occurs. by rewrite drop_app_length.
    + destruct L as (-> & L). apply content_reads; [done|]. rewrite L. by apply HR.
  - unfold read_length. rewrite Hst. by apply content_reads.
Qed.

(** A new chunked flow before the text of a body that is not too big. *)
Lemma chunked_R_init rest s out k : chunked_body s out k -> k <= MAX_SIZE -> chunked_R rest init_chunked (s ++ rest) out.
Proof. intros B H. exists s, k. cbn. split_and!; try done. intros. apply len_nonneg. Qed.
