(* ===== verification/Query.v ===== *)
(** * Bot API queries

    [Query.h], [Query.cpp]: a query, its answer and the counters of pending
    queries in [SharedData]; [JsonQueryOk] and [JsonQueryError];
    [PromisedQueryPtr], whose deleter delivers the query to the connection. *)

From S2P Require Import Prelude TdMisc Utf8 Json IPAddress Stats.

Import Strings.

(** [td::HttpFile] *)
Record http_file := mk_http_file {
  field_name : bytes;
  file_name : bytes;
  content_type : bytes;
  file_size : Z;
  temp_file_name : bytes;
}.

(** ** JSON answers *)

Module Answer.

(** [JsonQueryOk]: [result] is what the Jsonable stores. *)
Definition json_query_ok (result : json_value) (description : bytes) : json_value :=
  JObject ([(lit "ok", JBoolean true); (lit "result", result)]
           ++ if bool_decide (description = []) then [] else [(lit "description", JString description)]).

(** [JsonQueryError]; [parameters] is the map in its iteration order. *)
Definition json_query_error (error_code : Z) (description : bytes) (parameters : list (bytes * json_value)) : json_value :=
  JObject ([(lit "ok", JBoolean false); (lit "error_code", Writer.json_int error_code);
            (lit "description", JString description)]
           ++ if bool_decide (parameters = []) then [] else [(lit "parameters", JObject parameters)]).

End Answer.

(** ** [Query] *)

Module Query.
Import Answer.

Inductive state := SQuery | SOK | SError.
#[export] Instance state_eq_dec : EqDecision state.
Proof. solve_decision. Defined.

Record query := mk_query {
  state_ : state;
  has_shared_data : bool;
  listed : bool;                          (* the list node is in [query_list_] *)
  start_timestamp : time;
  peer_ip_address : ip_address;
  has_stat_actor : bool;
  container : list bytes;
  token : bytes;
  is_test_dc : bool;
  method : bytes;
  args : list (bytes * bytes);
  headers : list (bytes * bytes);
  files : list http_file;
  is_internal : bool;
  answer : bytes;
  http_status_code : Z;
  retry_after : Z;
}.

(** The counters of [SharedData] a query maintains. *)
Record shared := mk_shared { query_count : Z; query_list_size : Z }.

Fixpoint find_pair (key : bytes) (l : list (bytes * bytes)) : option bytes :=
  match l with
  | [] => None
  | (k, v) :: l => if decide (k = key) then Some v else find_pair key l
  end.

Definition has_arg (q : query) (key : bytes) : bool := bool_decide (is_Some (find_pair key (args q))).
Definition arg (q : query) (key : bytes) : bytes := default [] (find_pair key (args q)).
Definition get_header (q : query) (key : bytes) : bytes := default [] (find_pair key (headers q)).
Definition file (q : query) (key : bytes) : option http_file :=
  List.find (fun f => bool_decide (field_name f = key)) (files q).

Definition files_size (q : query) : Z := foldl (fun acc f => acc + file_size f) 0 (files q).
Definition files_max_size (q : query) : Z := foldl (fun acc f => Z.max acc (file_size f)) 0 (files q).
Definition query_size (q : query) : Z := foldl (fun acc s => acc + len s) 0 (container q).
Definition file_count (q : query) : Z := len (files q).

Definition is_ready (q : query) : bool := negb (bool_decide (state_ q = SQuery)).

(** The constructor: the query and the counters after it. *)
Definition create (now : time) (container : list bytes) (token : bytes) (is_test_dc : bool) (method : bytes)
    (args headers : list (bytes * bytes)) (files : list http_file) (shared_data : option shared)
    (peer : ip_address) (is_internal : bool) : query * option shared :=
  let method := if bool_decide (method = []) then default [] (find_pair (lit "method") args) else method in
  let method := to_lower method in
  let in_list := bool_decide (is_Some shared_data) && negb (bool_decide (method = lit "getupdates")) in
  (mk_query SQuery (bool_decide (is_Some shared_data)) in_list now peer false container token is_test_dc method args
     headers files is_internal [] 0 0,
   s ← shared_data;
   Some (mk_shared (query_count s + 1) (if in_list then query_list_size s + 1 else query_list_size s))).

(** The destructor: the counters after it. *)
Definition destroy (q : query) (s : shared) : shared :=
  if has_shared_data q then
    mk_shared (query_count s - 1) (if listed q then query_list_size s - 1 else query_list_size s)
  else s.

Section Ip.
(** [IPAddress::get_ip_str], which [inet_ntop] prints. *)
Context (get_ip_str : ip_address -> bytes).

Definition get_peer_ip_address (q : query) : option bytes :=
  if is_valid (peer_ip_address q) then
    r ← is_reserved (peer_ip_address q);
    Some (if negb r then get_ip_str (peer_ip_address q) else get_header q (lit "x-real-ip"))
  else Some (get_header q (lit "x-real-ip")).
End Ip.

Definition send_request_stat (q : query) : list BotStat.event :=
  if has_stat_actor q then
    [BotStat.Request (BotStat.mk_request (query_size q) (file_count q) (files_size q) (files_max_size q))]
  else [].

Definition send_response_stat (q : query) : list BotStat.event :=
  if has_stat_actor q then
    [BotStat.Response (BotStat.mk_response (bool_decide (state_ q = SOK)) (len (answer q)) (file_count q) (files_size q))]
  else [].

Definition set_stat_actor (q : query) : query * list BotStat.event :=
  let q := mk_query (state_ q) (has_shared_data q) (listed q) (start_timestamp q) (peer_ip_address q) true (container q)
    (token q) (is_test_dc q) (method q) (args q) (headers q) (files q) (is_internal q) (answer q)
    (http_status_code q) (retry_after q) in
  (q, send_request_stat q).

(** Sets the four response fields and sends the response statistic. *)
Definition respond (q : query) (st : state) (code : Z) (result : bytes) : query * list BotStat.event :=
  let q := mk_query st (has_shared_data q) (listed q) (start_timestamp q) (peer_ip_address q) (has_stat_actor q)
    (container q) (token q) (is_test_dc q) (method q) (args q) (headers q) (files q) (is_internal q) result code
    (retry_after q) in
  (q, send_response_stat q).

Definition with_retry_after (q : query) (v : Z) : query :=
  mk_query (state_ q) (has_shared_data q) (listed q) (start_timestamp q) (peer_ip_address q) (has_stat_actor q)
    (container q) (token q) (is_test_dc q) (method q) (args q) (headers q) (files q) (is_internal q) (answer q)
    (http_status_code q) v.

(** [None] is a failed [CHECK(state_ == State::Query)]. *)
Definition set_ok (q : query) (result : bytes) : option (query * list BotStat.event) :=
  if bool_decide (state_ q = SQuery) then Some (respond q SOK 200 result) else None.

Definition set_error (q : query) (http_status_code : Z) (result : bytes) : option (query * list BotStat.event) :=
  if bool_decide (state_ q = SQuery) then Some (respond q SError http_status_code result) else None.

Definition retry_after_error (retry_after : Z) : json_value :=
  json_query_error 429 (lit "Too Many Requests: retry after " ++ Integers.print_int int32_min retry_after)
    [(lit "retry_after", Writer.json_long retry_after)].

Definition set_retry_after_error (q : query) (retry_after : Z) : option (query * list BotStat.event) :=
  content ← Writer.json_encode (retry_after_error retry_after);
  set_error (with_retry_after q retry_after) 429 content.

(** [PromiseDeleter::operator()]: what the promise receives ([None] inside when
    the deleter has no promise, so that the query is only destroyed). *)
Definition promise_deleter (promise : bool) (q : query) : option (option query * list BotStat.event) :=
  if promise then
    if is_ready q then Some (Some q, [])
    else '(q, ev) ← set_retry_after_error q 5; Some (Some q, ev)
  else Some (None, []).

(** [answer_query] and [fail_query], with [query.reset()] at their end; [promise]
    tells whether the pointer has a promise. *)
Definition answer_query (promise : bool) (result : json_value) (q : query) (description : bytes)
  : option (option query * list BotStat.event) :=
  content ← Writer.json_encode (json_query_ok result description);
  '(q, ev) ← set_ok q content;
  '(d, ev') ← promise_deleter promise q;
  Some (d, ev ++ ev').

Definition fail_query (promise : bool) (http_status_code : Z) (description : bytes) (q : query) (parameters : list (bytes * json_value))
  : option (option query * list BotStat.event) :=
  content ← Writer.json_encode (json_query_error http_status_code description parameters);
  '(q, ev) ← set_error q http_status_code content;
  '(d, ev') ← promise_deleter promise q;
  Some (d, ev ++ ev').

(** [PromisedQueryPtr]: the pointer, and whether its deleter has a promise. *)
Record promised := mk_promised { the_query : query; has_promise : bool }.

End Query.

(** ** Facts *)

Import Answer Query.

Lemma is_ready_iff q : is_ready q = true <-> state_ q <> SQuery.
Proof. unfold is_ready. rewrite negb_true_iff, bool_decide_eq_false. done. Qed.

Lemma digit_number c : Chars.is_digit c = true -> Reader.is_number_start c = true /\ Reader.is_number_char c = true.
Proof.
  rewrite is_digit_spec. intros H. unfold Reader.is_number_start, Reader.is_number_char.
  split; rewrite !orb_true_iff, !andb_true_iff, !Z.leb_le; tauto.
Qed.

Lemma digits_number l : Forall (fun c => Chars.is_digit c = true) l -> forallb Reader.is_number_char l = true.
Proof. induction 1 as [|c l Hc _ IH]; [done|]. cbn. by rewrite (proj2 (digit_number c Hc)), IH. Qed.

(** The decimal text of an integer is a JSON number. *)
Lemma number_text_print tmin x : tmin = int32_min \/ tmin = int64_min ->
  number_text (Integers.print_int tmin x) = true.
Proof.
  intros Ht. unfold Integers.print_int. destruct (Z.ltb_spec x 0) as [Hx|Hx].
  - destruct (Z.eqb_spec x tmin) as [->|_]; [by destruct Ht as [-> | ->]|].
    unfold Integers.print_neg. cbn [number_text forallb].
    rewrite (digits_number (Integers.print_uint (- x))); [done|apply print_uint_digits; lia].
  - destruct (print_uint_cons x Hx) as (c & s & E & Hc). pose proof (print_uint_digits x Hx) as Hd.
    rewrite E in *. unfold number_text. rewrite (digits_number (c :: s) Hd).
    by rewrite (proj1 (digit_number c Hc)).
Qed.

Lemma check_utf8_low s : Forall (fun c => ord c < 128) s -> forall k, check_utf8 (s ++ k) = check_utf8 k.
Proof. induction 1 as [|c s Hc _ IH]; intros k; [done|]. cbn [app]. by rewrite check_1, IH. Qed.

Lemma check_utf8_ascii s : Forall (fun c => ord c < 128) s -> check_utf8 s = true.
Proof. intros H. rewrite <-(app_nil_r s). by rewrite check_utf8_low. Qed.

Lemma print_int_ascii tmin x : tmin = int32_min \/ tmin = int64_min ->
  Forall (fun c => ord c < 128) (Integers.print_int tmin x).
Proof.
  intros H. pose proof (number_text_print tmin x H) as Hn. unfold number_text in Hn.
  destruct (Integers.print_int tmin x) as [|c s]; [constructor|].
  apply andb_true_iff in Hn as [_ Hn]. revert Hn. generalize (c :: s). clear. intros l.
  induction l as [|d l IH]; [constructor|]. cbn. intros [Hd Hl]%andb_true_iff. constructor; [|by apply IH].
  unfold Reader.is_number_char in Hd. rewrite !orb_true_iff, andb_true_iff, !Z.eqb_eq, !Z.leb_le in Hd. lia.
Qed.

(** Parameters of an error: valid names and values that are not nested. *)
Definition flat_fields (l : list (bytes * json_value)) : Prop :=
  Forall (fun f => check_utf8 (fst f) = true /\ wf_value (snd f) = true /\ depth (snd f) = 0) l.

Lemma flat_object l : flat_fields l -> wf_value (JObject l) = true /\ depth (JObject l) <= 1.
Proof.
  induction 1 as [|[n v] l (H1 & H2 & H3) _ [IH1 IH2]]; [done|]. cbn [wf_value depth forallb foldr fst snd] in *.
  rewrite H1, H2, H3. split; [done|lia].
Qed.

Lemma error_json_wf code description parameters :
  check_utf8 description = true -> flat_fields parameters ->
  wf_value (json_query_error code description parameters) = true /\ depth (json_query_error code description parameters) <= 100.
Proof.
  intros Hd Hp. unfold json_query_error. pose proof (flat_object parameters Hp) as [Hw Hdp].
  assert (wf_value (Writer.json_int code) = true) as Hc by (apply number_text_print; by left).
  pose proof (depth_nonneg (JObject parameters)).
  case_bool; cbn [app wf_value depth forallb foldr fst snd] in *.
  - rewrite Hc, Hd. split; [done|cbn [depth Writer.json_int]; lia].
  - rewrite Hc, Hd, Hw. split; [done|]. unfold Writer.json_int. cbn [depth]. lia.
Qed.

(** The text of an error answer, which is read back as the error. *)
Lemma error_json_text code description parameters :
  check_utf8 description = true -> flat_fields parameters ->
  exists t, Writer.json_encode (json_query_error code description parameters) = Some t
  /\ Reader.json_decode t = Some (Ok (json_query_error code description parameters)).
Proof.
  intros Hd Hp. destruct (error_json_wf code description parameters Hd Hp).
  by apply json_encode_decode.
Qed.

Lemma retry_after_text n : exists t, Writer.json_encode (retry_after_error n) = Some t
  /\ Reader.json_decode t = Some (Ok (retry_after_error n)).
Proof.
  apply error_json_text.
  - rewrite check_utf8_low; [|by repeat constructor]. apply check_utf8_ascii, print_int_ascii. by left.
  - constructor; [|constructor]. split_and!; [done| |done]. apply number_text_print. by right.
Qed.

(** The response statistic of a query: one event if it has a statistics actor. *)
Lemma send_response_stat_length q : len (send_response_stat q) = if has_stat_actor q then 1 else 0.
Proof. unfold send_response_stat. by case_bool. Qed.

(** ** Properties *)

(** A query is answered once.  Failing a pending query delivers it to its
    connection with the given status and, as its answer, the text of the error
    object; answering it delivers it with status 200.  A query that is dropped
    without an answer is delivered as error 429 with a retry after 5 seconds.
    Each of them reports exactly one response statistic.  Answering a query that
    was already answered fails a check. *)
Theorem query_answered_once (q : query) (code : Z) (description : bytes) (parameters : list (bytes * json_value))
    (result : json_value) (text : bytes) :
  check_utf8 description = true -> flat_fields parameters ->
  Writer.json_encode (json_query_ok result description) = Some text ->
  (state_ q = SQuery ->
    (exists q' ev, fail_query true code description q parameters = Some (Some q', ev)
      /\ state_ q' = SError /\ http_status_code q' = code
      /\ Reader.json_decode (answer q') = Some (Ok (json_query_error code description parameters))
      /\ len ev = if has_stat_actor q then 1 else 0)
    /\ (exists q' ev, answer_query true result q description = Some (Some q', ev)
      /\ state_ q' = SOK /\ http_status_code q' = 200 /\ answer q' = text
      /\ len ev = if has_stat_actor q then 1 else 0)
    /\ (exists q' ev, promise_deleter true q = Some (Some q', ev)
      /\ state_ q' = SError /\ http_status_code q' = 429 /\ retry_after q' = 5
      /\ Reader.json_decode (answer q') = Some (Ok (retry_after_error 5))
      /\ len ev = if has_stat_actor q then 1 else 0))
  /\ (state_ q <> SQuery ->
    fail_query true code description q parameters = None /\ answer_query true result q description = None
    /\ set_retry_after_error q 5 = None /\ promise_deleter true q = Some (Some q, [])).
Proof.
  intros Hd Hp Ht. destruct (error_json_text code description parameters Hd Hp) as (te & Hte & Hdec).
  destruct (retry_after_text 5) as (tr & Htr & Hdecr).
  unfold fail_query, answer_query, promise_deleter, set_retry_after_error, set_error, set_ok.
  rewrite Hte, Ht, Htr. split; intros Hs.
  - rewrite !bool_decide_true by done. cbn -[len send_response_stat].
    assert (is_ready q = false) as -> by (unfold is_ready; by rewrite bool_decide_true by done).
    split_and!; eexists _, _; (split; [done|]); cbn -[len send_response_stat];
      rewrite ?len_app, send_response_stat_length, ?len_nil, ?Z.add_0_r; done.
  - rewrite !(bool_decide_false (state_ q = SQuery)) by done.
    rewrite (proj2 (is_ready_iff q)) by done. by split_and!.
Qed.

Definition sample_query : query :=
  fst (create 0 [lit "raw"] (lit "1:a") false (lit "getMe") [] [] [] None Invalid false).

Lemma query_answered_once_witness : exists q' ev,
  fail_query true 404 (lit "Not Found") sample_query [] = Some (Some q', ev)
  /\ http_status_code q' = 404.
Proof.
  destruct (query_answered_once sample_query 404 (lit "Not Found") [] (JBoolean true)
    (lit "{" ++ [dquote] ++ lit "ok" ++ [dquote] ++ lit ":true," ++ [dquote] ++ lit "result" ++ [dquote] ++ lit ":true,"
     ++ [dquote] ++ lit "description" ++ [dquote] ++ lit ":" ++ [dquote] ++ lit "Not Found" ++ [dquote] ++ lit "}"))
    as [H _]; [reflexivity|constructor|reflexivity|].
  destruct (H eq_refl) as [(q' & ev & E & _ & Hc & _) _]. by exists q', ev.
Defined.

(** The life of the queries of a server: created with the counters of
    [SharedData], and destroyed in any order. *)
Inductive life := Create (now : time) (token method : bytes) (args headers : list (bytes * bytes)) | Destroy (i : nat).

Definition life_step (st : list query * shared) (e : life) : option (list query * shared) :=
  let '(live, s) := st in
  match e with
  | Create now token method args headers =>
    let '(q, s') := create now [] token false method args headers [] (Some s) Invalid false in
    s' ← s'; Some (live ++ [q], s')
  | Destroy i => q ← live !! i; Some (delete i live, destroy q s)
  end.

Definition life_run (es : list life) : option (list query * shared) :=
  foldl (fun st e => st ≫= fun st => life_step st e) (Some ([], mk_shared 0 0)) es.

Definition count_listed (live : list query) : Z := len (filter (fun q => listed q = true) live).

Definition counted (st : list query * shared) : Prop :=
  query_count (snd st) = len (fst st) /\ query_list_size (snd st) = count_listed (fst st)
  /\ Forall (fun q => has_shared_data q = true /\ (listed q = true <-> method q <> lit "getupdates")) (fst st).

Lemma count_listed_app l k : count_listed (l ++ k) = count_listed l + count_listed k.
Proof. unfold count_listed. by rewrite filter_app, len_app. Qed.

Lemma count_listed_one q : count_listed [q] = if listed q then 1 else 0.
Proof. unfold count_listed. rewrite filter_cons. destruct (listed q); [by rewrite decide_True|by rewrite decide_False]. Qed.

Lemma life_step_counted st e st' : counted st -> life_step st e = Some st' -> counted st'.
Proof.
  destruct st as [live s]. intros (H1 & H2 & H3). cbn in H1, H2, H3. destruct e as [now tok m a h|i].
  - cbn -[len lit to_lower count_listed]. intros [= <-]. unfold counted. cbn -[len lit to_lower count_listed].
    rewrite len_app, count_listed_app, count_listed_one, H1, H2. cbn [listed].
    rewrite len_cons, len_nil. split_and!; [lia| |].
    + case_bool; lia.
    + apply Forall_app. split; [done|]. repeat constructor; cbn -[lit to_lower].
      * rewrite negb_true_iff, bool_decide_eq_false. done.
      * rewrite negb_true_iff, bool_decide_eq_false. done.
  - cbn. destruct (live !! i) as [q|] eqn:E; [|done]. cbn. intros [= <-].
    destruct (Forall_lookup_1 _ _ _ _ H3 E) as [Hq _].
    apply list_elem_of_split_length in E as (l1 & l2 & -> & ->).
    unfold counted, destroy. rewrite Hq. cbn -[len count_listed].
    rewrite delete_middle. rewrite count_listed_app in *. change (q :: l2) with ([q] ++ l2) in *.
    rewrite count_listed_app, count_listed_one in H2. rewrite !len_app, len_cons, len_nil in H1. rewrite len_app.
    split_and!; [lia|case_bool; lia|]. apply Forall_app in H3 as [? [_ ?]%Forall_cons]. by apply Forall_app.
Qed.

(** The counters of queries.  After any creations and destructions of
    queries, [query_count_] is the number of queries that exist and
    [query_list_size_] the number of those whose method is not [getUpdates]. *)
Theorem query_counters (es : list life) (live : list query) (s : shared) :
  life_run es = Some (live, s) ->
  query_count s = len live /\ query_list_size s = count_listed live
  /\ Forall (fun q => listed q = true <-> method q <> lit "getupdates") live.
Proof.
  assert (forall es st, counted st -> forall st', foldl (fun st e => st ≫= fun st => life_step st e) (Some st) es = Some st' ->
    counted st') as H.
  { clear. induction es as [|e es IH]; intros st Hst st'; [by intros [= <-]|]. cbn [foldl].
    change (Some st ≫= fun st => life_step st e) with (life_step st e).
    destruct (life_step st e) as [st1|] eqn:E.
    - apply IH. by eapply life_step_counted.
    - clear. intros Hn. exfalso. induction es; [done|]. by apply IHes. }
  intros Hr. destruct (H es ([], mk_shared 0 0) ltac:(by split_and!) _ Hr) as (H1 & H2 & H3).
  split_and!; [done|done|]. eapply Forall_impl; [done|]. by intros q [_ ?].
Qed.

Lemma query_counters_witness : exists live s,
  life_run [Create 0 (lit "1:a") (lit "getUpdates") [] []; Create 1 (lit "1:a") (lit "getMe") [] []; Destroy 0] = Some (live, s)
  /\ query_count s = len live.
Proof.
  eexists _, _. split; [reflexivity|].
  refine (proj1 (query_counters [Create 0 (lit "1:a") (lit "getUpdates") [] []; Create 1 (lit "1:a") (lit "getMe") [] []; Destroy 0] _ _ _)).
  reflexivity.
Defined.
