(* ===== verification/FileStreamCore.v ===== *)
(** * The pure core of the file streaming endpoint

    [telegram-bot-api/FileStreamCore.h], [FileStreamCursor.cpp],
    [FileStreamRecovery.cpp], [FileStreamRoute.cpp]: the download cursor, the
    recovery policy, the request route, the source address allow-list and the
    decision about the local copy. *)

From S2P Require Import Prelude TdMisc TextParser IPAddress.
Import Chars Strings Integers Coding.

(** ** [FileStreamCursor] *)

Module Cursor.

Record cursor := mk_cursor {
  total_size : Z;
  next_offset : Z;
  contiguous_end : Z;
}.

(** The member initializers. *)
Definition empty_cursor : cursor := mk_cursor (-1) 0 0.

Definition with_total (c : cursor) (v : Z) : cursor := mk_cursor v (next_offset c) (contiguous_end c).
Definition with_next (c : cursor) (v : Z) : cursor := mk_cursor (total_size c) v (contiguous_end c).
Definition with_end (c : cursor) (v : Z) : cursor := mk_cursor (total_size c) (next_offset c) v.

Definition is_complete (c : cursor) : bool :=
  (0 <=? total_size c) && (next_offset c =? total_size c).

Definition update_progress (c : cursor) (download_offset downloaded_prefix_size : Z)
    (is_completed : bool) : result cursor :=
  if (total_size c <? 0) || (download_offset <? 0) || (downloaded_prefix_size <? 0) ||
     (total_size c <? download_offset) ||
     (total_size c - download_offset <? downloaded_prefix_size)
  then error 500 "Inconsistent file download progress"
  else
    let c := if (download_offset =? 0) && (contiguous_end c <? downloaded_prefix_size)
             then with_end c downloaded_prefix_size else c in
    let c := if is_completed && (download_offset =? 0) && (downloaded_prefix_size =? total_size c)
             then with_end c (total_size c) else c in
    Ok c.

Definition next_read_size (c : cursor) (chunk_size : Z) : Z :=
  if (chunk_size <=? 0) || (total_size c <? 0) || (total_size c <=? next_offset c) ||
     (contiguous_end c <=? next_offset c)
  then 0
  else Z.min chunk_size (Z.min (contiguous_end c - next_offset c) (total_size c - next_offset c)).

Definition commit (c : cursor) (offset size : Z) : result cursor :=
  if negb (offset =? next_offset c) || (size <=? 0) || (contiguous_end c - next_offset c <? size) ||
     (total_size c - next_offset c <? size)
  then error 500 "Out-of-order, duplicate, or incomplete file stream block"
  else Ok (with_next c (next_offset c + size)).

End Cursor.

(** ** [FileStreamRecovery.cpp] *)

Module Recovery.

Definition file_stream_waits_for_redownload (download_completed first_byte_sent : bool) : bool :=
  download_completed && negb first_byte_sent.
Definition file_stream_fails_on_stopped_download (download_completed first_byte_sent : bool) : bool :=
  negb download_completed && first_byte_sent.

End Recovery.

(** ** [FileStreamRoute.cpp]: the source address policy *)

Module AllowList.

(** [IpPrefix]; the two address fields of the struct are one sum. *)
Inductive ip_prefix :=
| Prefix4 (ipv4 : Z) (prefix_len : Z)
| Prefix6 (ipv6 : bytes) (prefix_len : Z).

(** A slice of a NUL-terminated buffer: its text, and the bytes of the buffer
    after it (without the terminator). *)
Record view := mk_view { v_text : bytes; v_after : bytes }.

(** [CSlice(s.begin(), s.end())], whose constructor checks that [*end] is zero.
    [None] is the failed check, which aborts the process. *)
Definition to_cslice (v : view) : option bytes :=
  match v_after v with
  | [] => Some (v_text v)
  | c :: _ => if ord c =? 0 then Some (v_text v) else None
  end.

(** [td::trim] of a slice: what is cut at the end stays in the buffer after it. *)
Definition trim_view (v : view) : view :=
  let s := drop_spaces (v_text v) in
  let t := trim (v_text v) in
  mk_view t (drop (length t) s ++ v_after v).

(** [Slice::rfind] *)
Fixpoint rfind_from (c : ascii) (s : bytes) (pos : nat) (found : option nat) : option nat :=
  match s with
  | [] => found
  | x :: s' => rfind_from c s' (S pos) (if decide (x = c) then Some pos else found)
  end.
Definition rfind (c : ascii) (s : bytes) : option nat := rfind_from c s 0 None.

Definition substr_prefix (v : view) (n : nat) : view :=
  mk_view (take n (v_text v)) (drop n (v_text v) ++ v_after v).

Section AllowList.
Variable check_utf8 : bytes -> bool.
Variable inet_pton4 : bytes -> pton_result Z.
Variable inet_pton6 : bytes -> pton_result bytes.

(** The outer option is the abort of [to_cslice]; the inner one is [false]. *)
Definition parse_ipv6_prefix (text : view) : option (option bytes) :=
  c ← to_cslice text;
  match init_ipv6_port inet_pton6 c 0 with
  | (_, Err _) => Some None
  | (addr, Ok _) =>
    v6 ← get_ipv6 addr;
    if negb (len v6 =? 16) then Some None else Some (Some v6)
  end.

(** The optional [/prefix]: the address part and the length, -1 without one. *)
Definition parse_prefix_len (entry : view) : option (view * Z) :=
  match rfind "/"%char (v_text entry) with
  | None => Some (entry, -1)
  | Some slash_pos =>
    let addr_part := substr_prefix entry slash_pos in
    let prefix_part := drop (S slash_pos) (v_text entry) in
    if bool_decide (prefix_part = []) then None
    else if existsb (fun c => (ord c <? 48) || (57 <? ord c)) prefix_part then None
    else match to_integer_safe check_utf8 32 prefix_part with
         | Err _ => None
         | Ok l => Some (addr_part, l)
         end
  end.

Definition parse_allow_ip_entry (entry : view) : option (option ip_prefix) :=
  let entry := trim_view entry in
  if bool_decide (v_text entry = []) then Some None
  else match parse_prefix_len entry with
  | None => Some None
  | Some (addr_part, prefix_len) =>
    c ← to_cslice addr_part;
    match init_ipv4_port inet_pton4 c 0 with
    | (addr, Ok _) =>
      ip ← get_ipv4 addr;
      let l := if prefix_len <? 0 then 32 else prefix_len in
      Some (if (0 <=? l) && (l <=? 32) then Some (Prefix4 ip l) else None)
    | (_, Err _) =>
      v6 ← parse_ipv6_prefix addr_part;
      match v6 with
      | Some v6 =>
        let l := if prefix_len <? 0 then 128 else prefix_len in
        Some (if (0 <=? l) && (l <=? 128) then Some (Prefix6 v6 l) else None)
      | None => Some None
      end
    end
  end.

Definition byte_at (s : bytes) (i : nat) : Z := match s !! i with Some c => ord c | None => 0 end.

Definition is_private_or_loopback (addr : ip_address) : bool :=
  match addr with
  | Invalid => false
  | V4 ip _ =>
    (Z.shiftr ip 24 =? 0) || (Z.shiftr ip 24 =? 10) || (Z.shiftr ip 24 =? 127) ||
    (Z.shiftr ip 16 =? 43518 (* 0xA9FE *)) || (Z.land (Z.shiftr ip 20) 4095 =? 2753 (* 0xAC1 *)) ||
    (Z.shiftr ip 16 =? 49320 (* 0xC0A8 *))
  | V6 v6 _ =>
    if negb (len v6 =? 16) then false
    else if forallb (fun c => ord c =? 0) (take 15 v6) && (byte_at v6 15 =? 1) then true
    else Z.land (byte_at v6 0) 254 =? 252
  end.

Definition ipv4_matches (prefix_ipv4 prefix_len : Z) (ip : Z) : bool :=
  let mask := if prefix_len =? 0 then 0 else wrap 32 (Z.shiftl uint32_max (32 - prefix_len)) in
  Z.land prefix_ipv4 mask =? Z.land ip mask.

Definition ipv6_matches (prefix_ipv6 : bytes) (prefix_len : Z) (ip : bytes) : bool :=
  let full_bytes := Z.to_nat (prefix_len / 8) in
  let rem_bits := prefix_len mod 8 in
  if negb (forallb (fun i => byte_at prefix_ipv6 i =? byte_at ip i) (seq 0 full_bytes)) then false
  else if 0 <? rem_bits then
    let mask := wrap 8 (Z.shiftl 255 (8 - rem_bits)) in
    Z.land (byte_at prefix_ipv6 full_bytes) mask =? Z.land (byte_at ip full_bytes) mask
  else true.

(** The test of one parsed entry. *)
Definition entry_matches (prefix : ip_prefix) (peer_address : ip_address) : bool :=
  match prefix, peer_address with
  | Prefix4 ip l, V4 peer _ => ipv4_matches ip l peer
  | Prefix6 ip l, V6 v6 _ => (len v6 =? 16) && ipv6_matches ip l v6
  | _, _ => false
  end.

(** The [while] loop over the entries; each turn removes an entry or a comma. *)
Fixpoint allow_loop (fuel : nat) (peer_address : ip_address) (p : Parser.parser) : option bool :=
  match fuel with
  | O => Some false
  | S fuel =>
    if Parser.empty p then Some false
    else
      let '(entry, p) := Parser.read_till_nofail ","%char p in
      let after := Parser.data p in
      let p := Parser.skip_nofail ","%char p in
      prefix ← parse_allow_ip_entry (mk_view entry after);
      match prefix with
      | Some prefix =>
        if entry_matches prefix peer_address then Some true else allow_loop fuel peer_address p
      | None => allow_loop fuel peer_address p
      end
  end.

Definition is_file_stream_ip_allowed (peer_address : ip_address) (allow_ip : bytes) : option bool :=
  if negb (is_valid peer_address) then Some false
  else match allow_ip with
       | [] => Some (is_private_or_loopback peer_address)
       | _ => allow_loop (S (length allow_ip)) peer_address (Parser.init allow_ip)
       end.
End AllowList.

End AllowList.

(** ** [FileStreamRoute.cpp]: request parsing and the local copy decision *)

Module Route.

Record file_stream_route := mk_route {
  token : bytes;
  file_id : bytes;
  is_test_dc : bool;
  expected_size : Z;
  no_cache : bool;
}.

Definition is_hex (c : ascii) : bool :=
  ((48 <=? ord c) && (ord c <=? 57)) || ((97 <=? ord c) && (ord c <=? 102)) ||
  ((65 <=? ord c) && (ord c <=? 70)).

Fixpoint validate_url_encoding (value : bytes) : result unit :=
  match value with
  | [] => Ok tt
  | c :: rest =>
    if decide (c = "%"%char) then
      match rest with
      | h :: l :: rest' =>
        if negb (is_hex h) || negb (is_hex l) then error 400 "Invalid percent-encoding in file_id"
        else validate_url_encoding rest'
      | _ => error 400 "Invalid percent-encoding in file_id"
      end
    else validate_url_encoding rest
  end.

Section SizeHint.
Variable check_utf8 : bytes -> bool.

Definition parse_file_stream_size_hint (value : bytes) : result Z :=
  match value with
  | [] => Ok (-1)
  | _ =>
    if existsb (fun c => (ord c <? 48) || (57 <? ord c)) value
    then error 400 "Invalid X-Telegram-File-Size header"
    else match to_integer_safe check_utf8 64 value with
         | Err _ => error 400 "Invalid X-Telegram-File-Size header"
         | Ok size => if size <=? 0 then error 400 "Invalid X-Telegram-File-Size header" else Ok size
         end
  end.
End SizeHint.

Definition parse_file_stream_no_cache (value : bytes) : bool :=
  let value := trim value in
  bool_decide (value = lit "1") || bool_decide (to_lower value = lit "true").

Inductive local_copy_action := ActionNone | DeleteLocalCopy | CancelDownload | SkipBusy.

Record local_copy_decision_input := mk_decision_input {
  remove_requested : bool;
  completed_ok : bool;
  other_stream_listeners : bool;
  download_listener_active : bool;
}.

Definition decide_file_stream_local_copy_action (i : local_copy_decision_input) : local_copy_action :=
  if negb (remove_requested i) then (if completed_ok i then ActionNone else CancelDownload)
  else if negb (completed_ok i) then CancelDownload
  else if other_stream_listeners i then ActionNone
  else if download_listener_active i then SkipBusy
  else DeleteLocalCopy.

Definition resolve_file_stream_size (tdlib_size expected_size : Z) : result Z :=
  if (0 <? tdlib_size) && (0 <? expected_size) then
    if negb (tdlib_size =? expected_size) then error 502 "Exact file sizes from Telegram don't match"
    else Ok tdlib_size
  else if 0 <? tdlib_size then Ok tdlib_size
  else if 0 <? expected_size then Ok expected_size
  else error 502 "Exact file size is unavailable from Telegram".

Definition parse_file_stream_route (path : bytes) : result file_stream_route :=
  let p := Parser.init path in
  let '(ok, p) := Parser.try_skip (lit "/stream/file/bot") p in
  if negb ok then error 404 "Not Found"
  else
    let '(token, p) := Parser.read_till "/"%char p in
    if bool_decide (token = []) then error 400 "Token is empty"
    else
      let p := Parser.skip "/"%char p in
      if Parser.has_error p then error 400 "file_id is missing"
      else
        let '(is_test_dc, p) := Parser.try_skip (lit "test/") p in
        let encoded_file_id := Parser.data p in
        if bool_decide (encoded_file_id = []) || contains "/"%char encoded_file_id
        then error 400 "Invalid file_id path"
        else
          match validate_url_encoding encoded_file_id with
          | Err e => Err e
          | Ok _ =>
            let file_id := url_decode encoded_file_id false in
            if bool_decide (file_id = []) || (4096 <? len file_id) || contains "/"%char file_id ||
               contains (chr 0) file_id
            then error 400 "Invalid file_id specified"
            else Ok (mk_route token file_id is_test_dc (-1) false)
          end.

End Route.

(** ** Facts about the cursor *)

Import Cursor.

(** The state of a stream whose size is known: the sent prefix lies in the
    downloaded prefix, which lies in the file. *)
Definition cursor_ok (c : cursor) : Prop :=
  0 <= next_offset c <= contiguous_end c /\ contiguous_end c <= total_size c /\
  total_size c <= int64_max.

Lemma update_progress_ok c off pre done c' :
  cursor_ok c -> update_progress c off pre done = Ok c' ->
  cursor_ok c' /\ total_size c' = total_size c /\ next_offset c' = next_offset c /\
  contiguous_end c <= contiguous_end c' /\
  0 <= off <= total_size c /\ 0 <= pre <= total_size c - off.
Proof.
  unfold update_progress, cursor_ok. intros Hc H.
  destruct (_ || _) eqn:E in H; [discriminate|]. injection H as <-.
  apply orb_false_iff in E as [E E5]. repeat (apply orb_false_iff in E as [E ?]).
  repeat case_bool; simpl in *; lia.
Qed.

(** A report that names bytes outside of the file is refused, any other is not. *)
Lemma update_progress_refused c off pre done :
  0 <= total_size c ->
  is_error (update_progress c off pre done) = true <->
  ~ (0 <= off /\ 0 <= pre /\ off + pre <= total_size c).
Proof.
  intros Ht. unfold update_progress. destruct (_ || _) eqn:E; simpl; split; try done; lia.
Qed.

Lemma next_read_size_bounds c k :
  cursor_ok c -> 0 <= next_read_size c k <= Z.max 0 k /\
  next_offset c + next_read_size c k <= contiguous_end c.
Proof. unfold next_read_size, cursor_ok. intros. case_bool; lia. Qed.

Lemma next_read_size_pos c k :
  cursor_ok c -> 0 < k -> 0 < next_read_size c k <-> next_offset c < contiguous_end c.
Proof. unfold next_read_size, cursor_ok. intros. case_bool; lia. Qed.

Lemma commit_ok c off n c' :
  cursor_ok c -> commit c off n = Ok c' ->
  cursor_ok c' /\ off = next_offset c /\ 0 < n /\ next_offset c' = next_offset c + n /\
  total_size c' = total_size c /\ contiguous_end c' = contiguous_end c.
Proof.
  unfold commit, cursor_ok. intros Hc H. destruct (_ || _) eqn:E in H; [discriminate|].
  injection H as <-. simpl. lia.
Qed.

Lemma commit_next_read c k :
  cursor_ok c -> 0 < next_read_size c k ->
  commit c (next_offset c) (next_read_size c k) =
  Ok (with_next c (next_offset c + next_read_size c k)).
Proof.
  intros Hc Hn. pose proof (next_read_size_bounds c k Hc). unfold commit, cursor_ok in *.
  destruct (_ || _) eqn:E; [lia|done].
Qed.

#[export] Hint Resolve update_progress_ok commit_ok : td.

(** The blocks a stream sends when each of them is read and committed in turn. *)
Fixpoint blocks_of (fuel : nat) (c : cursor) (chunk : Z) : list (Z * Z) * cursor :=
  match fuel with
  | O => ([], c)
  | S fuel =>
    let n := next_read_size c chunk in
    if n =? 0 then ([], c)
    else match commit c (next_offset c) n with
         | Ok c' => let '(l, c'') := blocks_of fuel c' chunk in ((next_offset c, n) :: l, c'')
         | Err _ => ([], c)
         end
  end.

(** Consecutive blocks from [off] on, ending at the second offset. *)
Fixpoint contiguous (off : Z) (l : list (Z * Z)) (stop : Z) : Prop :=
  match l with
  | [] => off = stop
  | (o, n) :: l => o = off /\ 0 < n /\ contiguous (off + n) l stop
  end.

Lemma blocks_of_spec fuel c chunk :
  cursor_ok c -> 0 < chunk -> (Z.to_nat (contiguous_end c - next_offset c) <= fuel)%nat ->
  let '(l, c') := blocks_of fuel c chunk in
  contiguous (next_offset c) l (contiguous_end c) /\
  Forall (fun b => snd b <= chunk) l /\
  c' = with_next c (contiguous_end c).
Proof.
  revert c. induction fuel as [|fuel IH]; intros c Hc Hk Hf; cbn [blocks_of].
  - assert (next_offset c = contiguous_end c) as E by (unfold cursor_ok in Hc; lia).
    repeat split; [done|constructor|]. destruct c; simpl in *. by subst.
  - destruct (Z.eqb_spec (next_read_size c chunk) 0) as [E|E].
    + assert (next_offset c = contiguous_end c) as E'.
      { pose proof (proj2 (next_read_size_pos c chunk Hc Hk)). unfold cursor_ok in Hc. lia. }
      repeat split; [done|constructor|]. destruct c; simpl in *. by subst.
    + pose proof (next_read_size_bounds c chunk Hc) as Hb.
      rewrite commit_next_read by (done || lia).
      set (n := next_read_size c chunk) in *.
      specialize (IH (with_next c (next_offset c + n))). simpl in IH.
      destruct (blocks_of fuel _ chunk) as [l c'] eqn:Eb.
      destruct IH as (H1 & H2 & H3).
      * unfold cursor_ok in *; simpl. lia.
      * done.
      * unfold cursor_ok in *. lia.
      * simpl. repeat split; [lia|done| |done].
        constructor; [simpl; lia|done].
Qed.

(** ** Facts about the source address policy *)

Import AllowList.

Section AllowListFacts.
Context (cu : bytes -> bool) (pton4 : bytes -> pton_result Z) (pton6 : bytes -> pton_result bytes).

(** The entry parser gives port 0 to the address parsers, which refuse it. *)
Lemma parse_allow_ip_entry_never e p : parse_allow_ip_entry cu pton4 pton6 e <> Some (Some p).
Proof.
  unfold parse_allow_ip_entry. case_bool; [done|].
  destruct (parse_prefix_len _ _) as [[a l]|]; [|done].
  destruct (to_cslice a) as [c|] eqn:Ec; simpl; [|done].
  unfold parse_ipv6_prefix. rewrite Ec. simpl. done.
Qed.

Lemma allow_loop_never fuel peer p : allow_loop cu pton4 pton6 fuel peer p <> Some true.
Proof.
  revert p. induction fuel as [|fuel IH]; intros p; cbn [allow_loop]; [done|].
  destruct (Parser.empty p); [done|].
  destruct (Parser.read_till_nofail _ p) as [entry p'].
  destruct (parse_allow_ip_entry _ _ _ _) as [[pre|]|] eqn:E; simpl; [|apply IH|done].
  by destruct (parse_allow_ip_entry_never _ _ E).
Qed.
End AllowListFacts.

Lemma ipv4_matches_spec p l ip :
  0 <= l <= 32 -> 0 <= p < 2 ^ 32 -> 0 <= ip < 2 ^ 32 ->
  ipv4_matches p l ip = true <-> p / 2 ^ (32 - l) = ip / 2 ^ (32 - l).
Proof.
  intros Hl Hp Hip. unfold ipv4_matches. rewrite Z.eqb_eq.
  destruct (Z.eqb_spec l 0) as [->|Hne].
  { rewrite !Z.land_0_r, Z.sub_0_r, !Z.div_small by done. done. }
  assert (wrap 32 (uint32_max ≪ (32 - l)) =
    Z.land (Z.shiftl (Z.shiftr uint32_max (32 - l)) (32 - l)) uint32_max) as ->.
  { unfold wrap. change uint32_max with (Z.ones 32). rewrite <-Z.land_ones by lia.
    apply Z.bits_inj'. intros n Hn. rewrite !Z.land_spec.
    destruct (Z.ltb_spec n (32 - l)).
    - by rewrite !(Z.shiftl_spec_low _ (32 - l) n).
    - rewrite !Z.shiftl_spec, Z.shiftr_spec by lia.
      replace (n - (32 - l) + (32 - l)) with n by lia.
      destruct (Z.ltb_spec n 32).
      + rewrite !Z.ones_spec_low by lia. done.
      + rewrite (Z.ones_spec_high 32 n) by lia. by rewrite !andb_false_r. }
  rewrite !land_high_mask by lia.
  assert (0 < 2 ^ (32 - l)) by (apply Z.pow_pos_nonneg; lia). nia.
Qed.

(** The default policy, in address ranges. *)
Definition private_ranges : list (Z * Z) :=
  [(ipv4 0 0 0 0, 8); (ipv4 10 0 0 0, 8); (ipv4 127 0 0 0, 8); (ipv4 169 254 0 0, 16);
   (ipv4 172 16 0 0, 12); (ipv4 192 168 0 0, 16)].

Lemma is_private_or_loopback_v4 ip port :
  0 <= ip < 2 ^ 32 ->
  is_private_or_loopback (V4 ip port) = true <-> Exists (fun b => block_range b ip) private_ranges.
Proof.
  intros Hip. unfold is_private_or_loopback.
  change 4095 with (Z.ones 12). rewrite Z.land_ones, !Z.shiftr_div_pow2 by lia.
  rewrite (Z.mod_small (ip / 2 ^ 20)).
  2: { split; [apply Z.div_pos; lia|]. apply Z.div_lt_upper_bound; lia. }
  unfold private_ranges. rewrite !Exists_cons, Exists_nil. unfold block_range. simpl fst. simpl snd.
  rewrite !orb_true_iff, !Z.eqb_eq.
  change (ipv4 0 0 0 0) with 0. change (ipv4 10 0 0 0) with 167772160.
  change (ipv4 127 0 0 0) with 2130706432. change (ipv4 169 254 0 0) with 2851995648.
  change (ipv4 172 16 0 0) with 2886729728. change (ipv4 192 168 0 0) with 3232235520.
  change (2 ^ (32 - 8)) with (2 ^ 24). change (2 ^ (32 - 16)) with (2 ^ 16). change (2 ^ (32 - 12)) with (2 ^ 20).
  pose proof (Z.div_mod ip (2 ^ 24)). pose proof (Z.mod_pos_bound ip (2 ^ 24)).
  pose proof (Z.div_mod ip (2 ^ 16)). pose proof (Z.mod_pos_bound ip (2 ^ 16)).
  pose proof (Z.div_mod ip (2 ^ 20)). pose proof (Z.mod_pos_bound ip (2 ^ 20)).
  generalize dependent (ip / 2 ^ 24). generalize dependent (ip / 2 ^ 16). generalize dependent (ip / 2 ^ 20).
  intros. lia.
Qed.

(** Bit [i] of an address, from the most significant one of its first byte. *)
Definition addr_bit (s : bytes) (i : Z) : bool :=
  Z.testbit (byte_at s (Z.to_nat (i / 8))) (7 - i mod 8).

Lemma byte_at_bounds s i : 0 <= byte_at s i < 256.
Proof. unfold byte_at. case_match; [apply ord_bounds|lia]. Qed.

Lemma byte_testbit_high s i n : 8 <= n -> Z.testbit (byte_at s i) n = false.
Proof.
  intros Hn. pose proof (byte_at_bounds s i).
  destruct (Z.eq_dec (byte_at s i) 0) as [->|]; [apply Z.testbit_0_l|].
  apply Z.bits_above_log2; [lia|]. apply Z.lt_le_trans with 8; [|lia].
  apply Z.log2_lt_pow2; lia.
Qed.

Lemma byte_eq_bits s t i :
  byte_at s i = byte_at t i <->
  (forall n, 0 <= n < 8 -> Z.testbit (byte_at s i) n = Z.testbit (byte_at t i) n).
Proof.
  split; [by intros ->|]. intros H. apply Z.bits_inj'. intros n Hn.
  destruct (Z.ltb_spec n 8); [apply H; lia|]. by rewrite !byte_testbit_high.
Qed.

Lemma rem_mask_bit r n :
  0 < r < 8 -> 0 <= n < 8 -> Z.testbit (wrap 8 (Z.shiftl 255 (8 - r))) n = bool_decide (8 - r <= n).
Proof.
  intros Hr Hn. unfold wrap. rewrite Z.mod_pow2_bits_low by lia. rewrite Z.shiftl_spec by lia.
  change 255 with (Z.ones 8). case_bool_decide.
  - apply Z.ones_spec_low. lia.
  - apply Z.testbit_neg_r. lia.
Qed.

Lemma masked_byte_eq s t i r :
  0 < r < 8 ->
  Z.land (byte_at s i) (wrap 8 (Z.shiftl 255 (8 - r))) =
  Z.land (byte_at t i) (wrap 8 (Z.shiftl 255 (8 - r))) <->
  (forall n, 8 - r <= n < 8 -> Z.testbit (byte_at s i) n = Z.testbit (byte_at t i) n).
Proof.
  intros Hr. split.
  - intros H n Hn. apply (f_equal (fun z => Z.testbit z n)) in H.
    rewrite !Z.land_spec, !rem_mask_bit, bool_decide_true, !andb_true_r in H by lia. done.
  - intros H. apply Z.bits_inj'. intros n Hn. rewrite !Z.land_spec.
    destruct (Z.ltb_spec n 8); [|by rewrite !byte_testbit_high].
    rewrite rem_mask_bit by lia. case_bool_decide; [|by rewrite !andb_false_r].
    by rewrite H by lia.
Qed.

Lemma ipv6_matches_spec p l ip :
  0 <= l -> ipv6_matches p l ip = true <-> (forall i, 0 <= i < l -> addr_bit p i = addr_bit ip i).
Proof.
  intros Hl. unfold ipv6_matches, addr_bit.
  pose proof (Z.div_mod l 8). pose proof (Z.mod_pos_bound l 8).
  set (full := Z.to_nat (l / 8)). assert (Z.of_nat full = l / 8) as Hfull by (subst full; lia).
  assert (forallb (fun i => byte_at p i =? byte_at ip i) (seq 0 full) = true <->
    (forall i, 0 <= i < 8 * (l / 8) -> addr_bit p i = addr_bit ip i)) as Hbytes.
  { rewrite forallb_forall. unfold addr_bit. split.
    - intros H1 i Hi. pose proof (Z.div_mod i 8). pose proof (Z.mod_pos_bound i 8).
      specialize (H1 (Z.to_nat (i / 8))). rewrite Z.eqb_eq in H1. rewrite H1; [done|].
      apply in_seq. lia.
    - intros H1 i Hi%in_seq. apply Z.eqb_eq, byte_eq_bits. intros n Hn.
      specialize (H1 (8 * Z.of_nat i + (7 - n)) ltac:(lia)).
      replace ((8 * Z.of_nat i + (7 - n)) / 8) with (Z.of_nat i) in H1
        by (apply Z.div_unique with (7 - n); lia).
      replace ((8 * Z.of_nat i + (7 - n)) mod 8) with (7 - n) in H1
        by (apply Z.mod_unique with (Z.of_nat i); lia).
      rewrite Nat2Z.id in H1. by replace (7 - (7 - n)) with n in H1 by lia. }
  unfold addr_bit in Hbytes.
  destruct (forallb _ _) eqn:Ef; simpl.
  2: { split; [done|]. intros H1. apply (proj2 Hbytes). intros; apply H1; lia. }
  destruct Hbytes as [Hbytes _]. specialize (Hbytes eq_refl).
  destruct (Z.ltb_spec 0 (l mod 8)) as [Hr|Hr].
  - rewrite Z.eqb_eq, masked_byte_eq by lia. split.
    + intros H1 i Hi. destruct (Z.ltb_spec i (8 * (l / 8))); [apply Hbytes; lia|].
      pose proof (Z.div_mod i 8). pose proof (Z.mod_pos_bound i 8).
      replace (Z.to_nat (i / 8)) with full by lia. apply H1. lia.
    + intros H1 n Hn. specialize (H1 (8 * (l / 8) + (7 - n)) ltac:(lia)).
      replace ((8 * (l / 8) + (7 - n)) / 8) with (l / 8) in H1
        by (apply Z.div_unique with (7 - n); lia).
      replace ((8 * (l / 8) + (7 - n)) mod 8) with (7 - n) in H1
        by (apply Z.mod_unique with (l / 8); lia).
      fold full in H1. by replace (7 - (7 - n)) with n in H1 by lia.
  - split; [|done]. intros _ i Hi. apply Hbytes. lia.
Qed.

(** ** Facts about the route and the decisions *)

Import Route.

Lemma is_hex_hex_to_int c : is_hex c = true -> hex_to_int c < 16.
Proof. revert c. all_chars. Qed.

(** What [validate_url_encoding] accepts is decoded without a literal percent
    sign being kept: each one starts a full escape. *)
Fixpoint well_escaped (s : bytes) : Prop :=
  match s with
  | [] => True
  | c :: rest =>
    if decide (c = "%"%char) then
      match rest with
      | h :: l :: rest' => is_hex h = true /\ is_hex l = true /\ well_escaped rest'
      | _ => False
      end
    else well_escaped rest
  end.

Lemma validate_url_encoding_spec s : validate_url_encoding s = Ok tt <-> well_escaped s.
Proof.
  induction s as [s IH] using (induction_ltof1 _ (@length ascii)). unfold ltof in IH.
  destruct s as [|c rest]; [done|]. cbn [validate_url_encoding well_escaped]. case_decide.
  - destruct rest as [|h [|l rest']]; [done..|]. rewrite <-IH by (simpl; lia).
    destruct (is_hex h), (is_hex l); simpl; split; naive_solver.
  - apply IH. simpl. lia.
Qed.

Lemma validate_url_encoding_result s r : validate_url_encoding s = r ->
  r = Ok tt \/ r = error 400 "Invalid percent-encoding in file_id".
Proof.
  intros <-. induction s as [s IH] using (induction_ltof1 _ (@length ascii)). unfold ltof in IH.
  destruct s as [|c rest]; [by left|]. cbn [validate_url_encoding]. case_decide.
  - destruct rest as [|h [|l rest']]; [by right..|]. case_bool; [by right|]. apply IH. simpl. lia.
  - apply IH. simpl. lia.
Qed.

Lemma percent_well_escaped c s : well_escaped s -> well_escaped (percent c ++ s).
Proof.
  intros Hs. unfold percent. cbn [app well_escaped]. rewrite decide_True by done.
  repeat split; [revert c; all_chars..|done].
Qed.

Lemma url_encode_body_well_escaped s : well_escaped (url_encode_body s).
Proof.
  induction s as [|c s IH]; [done|]. unfold url_encode_body in *. rewrite bind_cons.
  destruct (is_url_char c) eqn:E; [|by apply percent_well_escaped].
  cbn [app well_escaped]. destruct (is_url_char_plain c E). by rewrite decide_False.
Qed.

Lemma url_encode_body_no_slash s : "/"%char ∉ url_encode_body s.
Proof.
  unfold url_encode_body. rewrite list_elem_of_bind. intros (c & Hin & Hc).
  destruct (is_url_char c) eqn:E.
  - apply list_elem_of_singleton in Hin as <-. discriminate.
  - enough ("/"%char ∉ percent c) by done. unfold percent. rewrite !not_elem_of_cons.
    split_and!; [done| | |apply not_elem_of_nil]; clear; revert c; all_chars.
Qed.

Lemma url_encode_some s e : url_encode s = Some e -> e = url_encode_body s.
Proof.
  unfold url_encode. case_bool; [|case_bool; congruence]. intros [= <-].
  apply Z.eqb_eq in Heqb. rewrite url_encode_length_spec in Heqb.
  induction s as [|c s IH]; [done|]. unfold url_encode_body in *. rewrite bind_cons.
  rewrite filter_cons in Heqb. pose proof (len_filter_le (fun c => is_url_char c = true) s).
  case_decide as Hc; rewrite ?len_cons in Heqb; [|lia]. rewrite Hc. simpl. f_equal. apply IH. lia.
Qed.

(** The text of a streaming URL. *)
Definition route_path (token : bytes) (test : bool) (encoded_file_id : bytes) : bytes :=
  lit "/stream/file/bot" ++ token ++ "/"%char :: (if test then lit "test/" else []) ++ encoded_file_id.

Lemma contains_spec c s : contains c s = true <-> c ∈ s.
Proof. unfold contains. apply bool_decide_eq_true. Qed.
Lemma contains_false c s : contains c s = false <-> c ∉ s.
Proof. unfold contains. apply bool_decide_eq_false. Qed.

Lemma try_skip_none prefix s :
  (forall b, s <> prefix ++ b) -> Parser.try_skip prefix (Parser.init s) = (false, Parser.init s).
Proof.
  intros H. destruct (Parser.try_skip prefix (Parser.init s)) as [[] p] eqn:E.
  - apply try_skip_true in E as [E _]. by destruct (H (Parser.p_data p)).
  - apply try_skip_false in E as [-> _]. done.
Qed.

(** The test for the [test/] segment, on the text after the token. *)
Definition after_token (token rest : bytes) : result file_stream_route :=
  let '(is_test_dc, p) := Parser.try_skip (lit "test/") (Parser.init rest) in
  let encoded_file_id := Parser.data p in
  if bool_decide (encoded_file_id = []) || contains "/"%char encoded_file_id
  then error 400 "Invalid file_id path"
  else match validate_url_encoding encoded_file_id with
       | Err e => Err e
       | Ok _ =>
         let file_id := url_decode encoded_file_id false in
         if bool_decide (file_id = []) || (4096 <? len file_id) || contains "/"%char file_id ||
            contains (chr 0) file_id
         then error 400 "Invalid file_id specified"
         else Ok (mk_route token file_id is_test_dc (-1) false)
       end.

Lemma parse_route_prefix token rest :
  token <> [] -> "/"%char ∉ token ->
  parse_file_stream_route (lit "/stream/file/bot" ++ token ++ "/"%char :: rest) = after_token token rest.
Proof.
  intros Ht Hs. unfold parse_file_stream_route. rewrite try_skip_app. cbn [negb].
  rewrite read_till_spec by done. rewrite bool_decide_false by done.
  by rewrite skip_spec.
Qed.

Lemma find_slash s : "/"%char ∈ s -> exists a b, s = a ++ "/"%char :: b /\ "/"%char ∉ a.
Proof.
  intros H. destruct (find "/"%char s) as [p|] eqn:E.
  - apply find_Some in E as [? ?]. eauto.
  - by apply find_None in E.
Qed.

(** Inversion of a successful parse. *)
Lemma parse_route_inv path r :
  parse_file_stream_route path = Ok r ->
  exists rest, path = lit "/stream/file/bot" ++ token r ++ "/"%char :: rest /\
    token r <> [] /\ "/"%char ∉ token r /\ after_token (token r) rest = Ok r.
Proof.
  intros H. pose proof H as H0. unfold parse_file_stream_route in H.
  destruct (Parser.try_skip _ (Parser.init path)) as [[] p] eqn:E; [|done]. cbn [negb] in H.
  apply try_skip_true in E as [Hpath Hst]. simpl in Hpath, Hst. destruct p as [d st]; simpl in *; subst st path.
  change (Parser.mk_parser d None) with (Parser.init d) in H.
  destruct (decide ("/"%char ∈ d)) as [(a & b & -> & Ha)%find_slash|Hd].
  - rewrite read_till_spec in H by done.
    destruct (bool_decide (a = [])) eqn:Ea; [done|]. apply bool_decide_eq_false in Ea.
    rewrite skip_spec in H. cbn in H.
    assert (token r = a) as <-.
    { revert H. destruct (Parser.try_skip _ _) as [t p]. case_bool; [done|].
      destruct (validate_url_encoding _); [|done]. case_bool; [done|]. by intros [= <-]. }
    exists b. split_and!; try done.
  - rewrite read_till_fails in H by done. by rewrite bool_decide_true in H.
Qed.

(** What [after_token] accepts. *)
Lemma after_token_ok tok rest r :
  after_token tok rest = Ok r <->
  exists enc, rest = (if is_test_dc r then lit "test/" else []) ++ enc /\
    (is_test_dc r = false -> forall b, rest <> lit "test/" ++ b) /\
    enc <> [] /\ "/"%char ∉ enc /\ well_escaped enc /\
    r = mk_route tok (url_decode enc false) (is_test_dc r) (-1) false /\
    file_id r <> [] /\ len (file_id r) <= 4096 /\ "/"%char ∉ file_id r /\ chr 0 ∉ file_id r.
Proof.
  unfold after_token. destruct (Parser.try_skip _ _) as [t p] eqn:E. split.
  - intros H. case_bool_in H; [done|]. apply orb_false_iff in Heqb as [H1 H2].
    destruct (validate_url_encoding _) as [[]|] eqn:Ev; [|done]. apply validate_url_encoding_spec in Ev.
    case_bool_in H; [done|]. injection H as <-. simpl.
    repeat (apply orb_false_iff in Heqb as [Heqb ?]).
    apply bool_decide_eq_false in H1, Heqb. apply contains_false in H2, H, H0.
    exists (Parser.data p). split_and!; try done; try lia.
    + destruct t; [by apply try_skip_true in E as [E _]|by apply try_skip_false in E as [-> _]].
    + intros ->. by apply try_skip_false in E as [-> E].
  - intros (enc & Hrest & Hnt & He & Hs & Hw & Hr & Hf & Hl & Hfs & Hf0).
    destruct t.
    + apply try_skip_true in E as [E _]. change (rest = lit "test/" ++ Parser.p_data p) in E.
      destruct (is_test_dc r) eqn:Et; [|by destruct (Hnt eq_refl (Parser.p_data p))].
      assert (Parser.data p = enc) as -> by (unfold Parser.data; rewrite Hrest in E; by apply app_inv_head in E).
      rewrite Hr in Hf, Hl, Hfs, Hf0; simpl in *.
      rewrite bool_decide_false, (proj2 (contains_false _ _) Hs) by done. simpl.
      rewrite (proj2 (validate_url_encoding_spec enc) Hw).
      rewrite bool_decide_false, (proj2 (contains_false _ _) Hfs), (proj2 (contains_false _ _) Hf0) by done.
      replace (4096 <? len (url_decode enc false)) with false by lia. by rewrite Hr.
    + apply try_skip_false in E as [-> E]. simpl in E.
      destruct (is_test_dc r) eqn:Et; [by destruct (E enc)|]. simpl in Hrest. subst rest.
      unfold Parser.data, Parser.init. simpl.
      rewrite Hr in Hf, Hl, Hfs, Hf0; simpl in *.
      rewrite bool_decide_false, (proj2 (contains_false _ _) Hs) by done. simpl.
      rewrite (proj2 (validate_url_encoding_spec enc) Hw).
      rewrite bool_decide_false, (proj2 (contains_false _ _) Hfs), (proj2 (contains_false _ _) Hf0) by done.
      replace (4096 <? len (url_decode enc false)) with false by lia. by rewrite Hr.
Qed.

Lemma all_zero_spec s : forallb (fun c => ord c =? 0) s = true <-> s = replicate (length s) (chr 0).
Proof.
  induction s as [|c s IH]; simpl; [done|]. rewrite andb_true_iff, IH, Z.eqb_eq. split.
  - intros [Hc Hs]. change 0 with (ord (chr 0)) in Hc. apply ord_inj in Hc as ->. by f_equal.
  - intros [= -> Hs]. by split.
Qed.

Lemma is_private_or_loopback_v6 v6 port :
  len v6 = 16 ->
  is_private_or_loopback (V6 v6 port) = true <->
  v6 = replicate 15 (chr 0) ++ [chr 1] \/ Z.land (byte_at v6 0) 254 = 252.
Proof.
  intros Hl. unfold is_private_or_loopback. rewrite Hl. cbn [negb Z.eqb Pos.eqb].
  assert (length v6 = 16%nat) as Hl' by (unfold len in Hl; lia).
  assert (exists x, v6 = take 15 v6 ++ [x] /\ byte_at v6 15 = ord x) as (x & Hx & Hb).
  { destruct (drop 15 v6) as [|x [|y r]] eqn:E.
    - apply (f_equal length) in E. rewrite length_drop in E. simpl in E. lia.
    - exists x. rewrite <-E, take_drop. split; [done|]. unfold byte_at.
      by rewrite <-(Nat.add_0_r 15), <-lookup_drop, E.
    - apply (f_equal length) in E. rewrite length_drop in E. simpl in E. lia. }
  rewrite Hb. destruct (forallb _ (take 15 v6) && (ord x =? 1)) eqn:E.
  - split; [|done]. intros _. left. apply andb_true_iff in E as [H0 H1].
    apply all_zero_spec in H0. rewrite length_take, Hl' in H0. rewrite Hx, H0. do 2 f_equal.
    apply ord_inj. apply Z.eqb_eq in H1. by rewrite H1.
  - rewrite Z.eqb_eq. split; [by right|]. intros [Heq|]; [|done]. exfalso.
    rewrite Heq in Hx, E. apply (f_equal last) in Hx. rewrite !last_snoc in Hx. injection Hx as <-.
    vm_compute in E. discriminate.
Qed.

(** ** Properties *)

(** Streaming a downloaded prefix block by block.  Reading
    [next_read_size] bytes and committing them, again and again, sends
    consecutive blocks of at most the chunk size, from the current offset up to
    exactly the end of the downloaded prefix: no byte is skipped, repeated or
    left out, and the number of turns is at most the number of bytes. *)
Theorem cursor_blocks_partition (fuel : nat) (c : cursor) (chunk : Z) :
  cursor_ok c -> 0 < chunk -> (Z.to_nat (contiguous_end c - next_offset c) <= fuel)%nat ->
  contiguous (next_offset c) (fst (blocks_of fuel c chunk)) (contiguous_end c) /\
  Forall (fun b => snd b <= chunk) (fst (blocks_of fuel c chunk)) /\
  snd (blocks_of fuel c chunk) = with_next c (contiguous_end c) /\
  (contiguous_end c = total_size c -> is_complete (snd (blocks_of fuel c chunk)) = true).
Proof.
  intros Hc Hk Hf. pose proof (blocks_of_spec fuel c chunk Hc Hk Hf) as H.
  destruct (blocks_of fuel c chunk) as [l c'] eqn:E. simpl.
  destruct H as (H1 & H2 & ->). split_and!; [done..|].
  intros Ht. unfold is_complete, cursor_ok in *; simpl. lia.
Qed.

Lemma cursor_blocks_partition_witness :
  fst (blocks_of 10 (mk_cursor 10 0 10) 4) = [(0, 4); (4, 4); (8, 2)] /\
  contiguous 0 (fst (blocks_of 10 (mk_cursor 10 0 10) 4)) 10.
Proof.
  split; [reflexivity|].
  apply (cursor_blocks_partition 10 (mk_cursor 10 0 10) 4);
    [unfold cursor_ok; cbn; unfold int64_max; lia|lia|cbn; lia].
Defined.

(** The cursor invariant [0 <= next_offset <= contiguous_end <= total_size]
    is kept by every operation that succeeds; the downloaded prefix never
    shrinks, the sent prefix only grows by the committed block, and that block
    is the next one and lies in the downloaded prefix. *)
Theorem cursor_invariant (c c' : cursor) (off n : Z) (done : bool) :
  cursor_ok c ->
  (update_progress c off n done = Ok c' ->
    cursor_ok c' /\ next_offset c' = next_offset c /\ contiguous_end c <= contiguous_end c' /\
    (contiguous_end c' = contiguous_end c \/ (off = 0 /\ contiguous_end c' = n))) /\
  (commit c off n = Ok c' ->
    cursor_ok c' /\ off = next_offset c /\ 0 < n /\ next_offset c' = off + n /\ off + n <= contiguous_end c /\
    contiguous_end c' = contiguous_end c /\ total_size c' = total_size c).
Proof.
  intros Hc. split; intros H.
  - pose proof (update_progress_ok _ _ _ _ _ Hc H) as (? & ? & ? & ? & ?). split_and!; try done.
    unfold update_progress in H. destruct (_ || _) eqn:E in H; [discriminate|]. injection H as <-.
    repeat case_bool; simpl in *; lia.
  - pose proof (commit_ok _ _ _ _ Hc H) as (Hc' & ? & ? & ? & ? & ?).
    unfold cursor_ok in *. split_and!; lia.
Qed.

Lemma cursor_invariant_witness :
  cursor_ok (mk_cursor 10 4 8) /\
  (update_progress (mk_cursor 10 4 6) 0 8 false = Ok (mk_cursor 10 4 8)).
Proof.
  split; [|reflexivity].
  apply (proj1 (cursor_invariant (mk_cursor 10 4 6) (mk_cursor 10 4 8) 0 8 false
    ltac:(unfold cursor_ok; cbn; unfold int64_max; lia))). reflexivity.
Defined.

(** The [--file-stream-allow-ip] allow-list never admits anybody.  With a
    non-empty list [is_file_stream_ip_allowed] does not return true for any peer:
    it passes port 0 to [init_ipv4_port] and [init_ipv6_port], which accept ports
    1 to 65535 only, so no entry is ever parsed (and an entry that is followed by
    a comma, a slash or a blank fails the terminator check of [CSlice] before
    that, which aborts the process). *)
Theorem allow_list_admits_nobody (cu : bytes -> bool) (pton4 : bytes -> pton_result Z)
    (pton6 : bytes -> pton_result bytes) (peer : ip_address) (allow_ip : bytes) :
  allow_ip <> [] ->
  is_file_stream_ip_allowed cu pton4 pton6 peer allow_ip <> Some true.
Proof.
  intros H. unfold is_file_stream_ip_allowed. case_bool; [done|].
  destruct allow_ip; [done|]. apply allow_loop_never.
Qed.

(** A concrete resolver: it knows one address. *)
Definition pton4_example (s : bytes) : pton_result Z :=
  if bool_decide (s = lit "127.0.0.1") then PtonOk (ipv4 127 0 0 1)
  else if bool_decide (s = lit "10.0.0.0") then PtonOk (ipv4 10 0 0 0) else PtonBad.

Lemma allow_list_admits_nobody_witness :
  is_file_stream_ip_allowed (fun _ => true) pton4_example (fun _ => PtonBad)
    (V4 (ipv4 127 0 0 1) 4000) (lit "127.0.0.1") = Some false /\
  is_file_stream_ip_allowed (fun _ => true) pton4_example (fun _ => PtonBad)
    (V4 (ipv4 127 0 0 1) 4000) (lit "127.0.0.1") <> Some true.
Proof. split; [reflexivity|]. apply allow_list_admits_nobody. discriminate. Defined.

(** An allow-list with a network or with several entries aborts the process
    on the first request: the address text of such an entry is followed by a
    slash or a comma, and [CSlice] checks that it is followed by the
    terminator. *)
Theorem allow_list_cidr_or_list_aborts (cu : bytes -> bool) (pton4 : bytes -> pton_result Z)
    (pton6 : bytes -> pton_result bytes) (peer : ip_address) :
  is_valid peer = true ->
  is_file_stream_ip_allowed cu pton4 pton6 peer (lit "10.0.0.0/8") = None /\
  is_file_stream_ip_allowed cu pton4 pton6 peer (lit "127.0.0.1,10.0.0.1") = None.
Proof. intros H. unfold is_file_stream_ip_allowed. rewrite H. split; reflexivity. Qed.

Lemma allow_list_cidr_or_list_aborts_witness :
  is_file_stream_ip_allowed (fun _ => true) pton4_example (fun _ => PtonBad)
    (V4 (ipv4 10 0 0 1) 4000) (lit "10.0.0.0/8") = None.
Proof.
  apply (allow_list_cidr_or_list_aborts (fun _ => true) pton4_example (fun _ => PtonBad)
    (V4 (ipv4 10 0 0 1) 4000)). reflexivity.
Defined.

(** The default policy (no allow-list) admits exactly the peers of the
    networks 0/8, 10/8, 127/8, 169.254/16, 172.16/12 and 192.168/16 over IPv4,
    every one of which [is_reserved] as well; an IPv6 peer is admitted only when
    it is ::1 or in fc00::/7, and an invalid address never. *)
Theorem default_policy_is_private (cu : bytes -> bool) (pton4 : bytes -> pton_result Z)
    (pton6 : bytes -> pton_result bytes) (ip port : Z) (v6 : bytes) :
  0 <= ip < 2 ^ 32 -> len v6 = 16 ->
  (is_file_stream_ip_allowed cu pton4 pton6 (V4 ip port) [] = Some true <->
     Exists (fun b => block_range b ip) private_ranges) /\
  (is_file_stream_ip_allowed cu pton4 pton6 (V4 ip port) [] = Some true ->
     is_reserved (V4 ip port) = Some true) /\
  (is_file_stream_ip_allowed cu pton4 pton6 (V6 v6 port) [] = Some true <->
     v6 = replicate 15 (chr 0) ++ [chr 1] \/ Z.land (byte_at v6 0) 254 = 252) /\
  is_file_stream_ip_allowed cu pton4 pton6 Invalid [] = Some false.
Proof.
  intros Hip Hv6.
  assert (is_file_stream_ip_allowed cu pton4 pton6 (V4 ip port) [] = Some true <->
    Exists (fun b => block_range b ip) private_ranges) as H4.
  { rewrite <-(is_private_or_loopback_v4 ip port) by done. unfold is_file_stream_ip_allowed. cbn [is_valid negb].
    generalize (is_private_or_loopback (V4 ip port)). intros; split; congruence. }
  split_and!; [done| | |done].
  - rewrite H4, is_reserved_spec by done. unfold private_ranges, blocks.
    rewrite !Exists_cons, Exists_nil. tauto.
  - rewrite <-(is_private_or_loopback_v6 v6 port Hv6). unfold is_file_stream_ip_allowed. cbn [is_valid negb].
    generalize (is_private_or_loopback (V6 v6 port)). intros; split; congruence.
Qed.

Lemma default_policy_is_private_witness :
  is_file_stream_ip_allowed (fun _ => true) pton4_example (fun _ => PtonBad) (V4 (ipv4 172 31 0 9) 1) [] = Some true /\
  is_reserved (V4 (ipv4 172 31 0 9) 1) = Some true.
Proof.
  split; [reflexivity|].
  apply (default_policy_is_private (fun _ => true) pton4_example (fun _ => PtonBad)
    (ipv4 172 31 0 9) 1 (replicate 16 (chr 0))); [split; [discriminate|reflexivity]|reflexivity|reflexivity].
Defined.

(** CIDR matching.  An IPv4 entry matches the addresses with the same first
    [prefix_len] bits, written as equal quotients; an IPv6 entry matches the
    addresses that agree with it on each of the first [prefix_len] bits. *)
Theorem cidr_matching (p4 ip4 l4 : Z) (p6 ip6 : bytes) (l6 : Z) :
  0 <= l4 <= 32 -> 0 <= p4 < 2 ^ 32 -> 0 <= ip4 < 2 ^ 32 -> 0 <= l6 <= 128 ->
  (ipv4_matches p4 l4 ip4 = true <-> p4 / 2 ^ (32 - l4) = ip4 / 2 ^ (32 - l4)) /\
  (ipv6_matches p6 l6 ip6 = true <-> forall i, 0 <= i < l6 -> addr_bit p6 i = addr_bit ip6 i).
Proof. intros. split; [by apply ipv4_matches_spec|apply ipv6_matches_spec; lia]. Qed.

Lemma cidr_matching_witness :
  ipv4_matches (ipv4 10 0 0 0) 8 (ipv4 10 200 3 4) = true /\
  ipv4 10 0 0 0 / 2 ^ 24 = ipv4 10 200 3 4 / 2 ^ 24.
Proof.
  split; [reflexivity|].
  apply (proj1 (cidr_matching (ipv4 10 0 0 0) (ipv4 10 200 3 4) 8 [] [] 0
    ltac:(lia) ltac:(split; [discriminate|reflexivity]) ltac:(split; [discriminate|reflexivity]) ltac:(lia))).
  reflexivity.
Defined.

(** Round trip of the streaming URL.  For every token without a slash and
    every file_id of 1 to 4096 bytes without a slash or NUL, the URL built from
    the percent-encoded file_id is parsed back to that token, that file_id and
    that data center flag, with no size hint and no no-cache flag. *)
Theorem route_round_trip (tok fid enc : bytes) (test : bool) :
  tok <> [] -> "/"%char ∉ tok -> fid <> [] -> len fid <= 4096 -> "/"%char ∉ fid -> chr 0 ∉ fid ->
  url_encode fid = Some enc ->
  parse_file_stream_route (route_path tok test enc) = Ok (mk_route tok fid test (-1) false).
Proof.
  intros Ht Hts Hf Hl Hfs Hf0 Henc. unfold route_path. rewrite parse_route_prefix by done.
  apply url_encode_some in Henc as ->.
  apply after_token_ok. exists (url_encode_body fid). simpl. split_and!; try done.
  - intros -> b Hb. apply (url_encode_body_no_slash fid). simpl in Hb. rewrite Hb. set_solver.
  - intros He. apply (f_equal (fun e => url_decode e false)) in He.
    by rewrite url_encode_body_decode in He.
  - apply url_encode_body_no_slash.
  - apply url_encode_body_well_escaped.
  - by rewrite url_encode_body_decode.
Qed.

Lemma route_round_trip_witness :
  parse_file_stream_route (route_path (lit "123:abc") true (lit "Ag%2BC")) =
    Ok (mk_route (lit "123:abc") (lit "Ag+C") true (-1) false).
Proof.
  apply (route_round_trip (lit "123:abc") (lit "Ag+C") (lit "Ag%2BC") true).
  all: try (by vm_compute); try discriminate.
  all: apply contains_false; reflexivity.
Defined.

(** What the route parser accepts: the path is the prefix, a non-empty token
    without a slash, a slash, an optional [test/] and a percent-encoded text
    without a slash whose escapes are complete; the file_id is its decoding, of 1
    to 4096 bytes, without slash or NUL; and the size hint and the no-cache flag
    are still unset. *)
Theorem route_accepts (path : bytes) (r : file_stream_route) :
  parse_file_stream_route path = Ok r ->
  exists enc, path = route_path (token r) (is_test_dc r) enc /\
    token r <> [] /\ "/"%char ∉ token r /\ "/"%char ∉ enc /\ well_escaped enc /\
    file_id r = url_decode enc false /\ 1 <= len (file_id r) <= 4096 /\
    "/"%char ∉ file_id r /\ chr 0 ∉ file_id r /\ expected_size r = -1 /\ no_cache r = false.
Proof.
  intros (rest & -> & Ht & Hs & H)%parse_route_inv.
  apply after_token_ok in H as (enc & -> & _ & He & Hes & Hw & Hr & Hf & Hl & Hfs & Hf0).
  exists enc. split_and!; try done.
  - by rewrite Hr at 1.
  - destruct (file_id r); [done|]. rewrite len_cons. pose proof (len_nonneg l). lia.
  - by rewrite Hr.
  - by rewrite Hr.
Qed.

Lemma route_accepts_witness :
  exists r, parse_file_stream_route (lit "/stream/file/bot1:a/AgAC%41") = Ok r /\
    file_id r = lit "AgACA" /\ 1 <= len (file_id r) <= 4096.
Proof.
  eexists. split; [reflexivity|]. split; [reflexivity|].
  destruct (route_accepts (lit "/stream/file/bot1:a/AgAC%41") _ eq_refl) as (enc & H).
  exact (proj1 (proj2 (proj2 (proj2 (proj2 (proj2 (proj2 H))))))).
Defined.

(** The size of the file.  The [X-Telegram-File-Size] hint is accepted
    exactly when it is empty (no hint) or the canonical decimal text of a
    positive [int64]; the resolved size is positive, equals each of the two sizes
    that is known, and is refused when both are known and differ or none is. *)
Theorem size_hint_and_resolution (cu : bytes -> bool) (value : bytes) (n tdlib_size hint : Z) :
  (parse_file_stream_size_hint cu value = Ok n <->
     (value = [] /\ n = -1) \/ (1 <= n <= int64_max /\ value = print_int int64_min n)) /\
  (resolve_file_stream_size tdlib_size hint = Ok n <->
     0 < n /\ (tdlib_size = n \/ hint = n) /\ (0 < tdlib_size -> tdlib_size = n) /\ (0 < hint -> hint = n)).
Proof.
  split.
  - unfold parse_file_stream_size_hint. destruct value as [|c value].
    { split; [intros [= <-]; by left|]. intros [[_ ->]|[Hn Hv]]; [done|]. exfalso.
      unfold print_int in Hv. replace (n <? 0) with false in Hv by lia.
      destruct (print_uint_cons n) as (? & ? & E & _); [lia|]. by rewrite E in Hv. }
    set (v := c :: value). split.
    + intros H. right. case_bool_in H; [done|].
      destruct (to_integer_safe cu 64 v) as [m|] eqn:E; [|done].
      case_bool_in H; [done|]. injection H as ->.
      apply to_integer_safe_ok in E as [Hm Hv]; [|by right].
      unfold tmax, tmin in Hm. change int64_max with (2 ^ 63 - 1). change int64_min with (- 2 ^ 63).
      split; [|done]. lia.
    + intros [[? ?]|[Hn Hv]]; [done|].
      assert (existsb (fun c => (ord c <? 48) || (57 <? ord c)) v = false) as ->.
      { apply not_true_is_false. intros (x & Hin & Hx)%existsb_exists. rewrite Hv in Hin.
        unfold print_int in Hin. replace (n <? 0) with false in Hin by lia.
        pose proof (print_uint_digits n ltac:(lia)) as Hd. rewrite Forall_forall in Hd.
        apply list_elem_of_In, Hd, is_digit_spec in Hin. lia. }
      assert (to_integer_safe cu 64 v = Ok n) as ->.
      { apply to_integer_safe_ok; [by right|]. unfold tmax, tmin, int64_max in *.
        split; [lia|exact Hv]. }
      by replace (n <=? 0) with false by lia.
  - unfold resolve_file_stream_size. repeat case_bool; unfold error; split; intros H; try discriminate;
      try (injection H as <-); try (f_equal; lia); lia.
Qed.

(** The decision about the local copy.  The copy is deleted exactly when
    removal was requested, the stream completed and neither another stream nor a
    getFile download holds the copy; an unfinished stream only cancels the
    download; a completed stream whose copy is held by a getFile download alone
    reports the skip. *)
Theorem local_copy_decision (i : local_copy_decision_input) :
  (decide_file_stream_local_copy_action i = DeleteLocalCopy <->
     remove_requested i = true /\ completed_ok i = true /\ other_stream_listeners i = false /\
     download_listener_active i = false) /\
  (decide_file_stream_local_copy_action i = CancelDownload <-> completed_ok i = false) /\
  (decide_file_stream_local_copy_action i = SkipBusy <->
     remove_requested i = true /\ completed_ok i = true /\ other_stream_listeners i = false /\
     download_listener_active i = true).
Proof. destruct i as [[] [] [] []]; cbn; intuition congruence. Qed.
