(* ===== verification/HttpConnection.v ===== *)
(** * HTTP connections of the server

    [HttpConnection.h]/[.cpp] (routing of a request, sending of a response) and
    [HttpStatConnection.cpp].  What the actors ask of [td::HttpInboundConnection]
    is a list of actions, in order. *)

From S2P Require Import Prelude TdMisc Utf8 TextParser Json HttpHeader IPAddress FileStreamCore Query.

Import Strings Header.

(** [td::HttpInboundConnection]: the closures sent to it.  [write_ok] and
    [write_error] end the answer to the request. *)
Inductive conn_action :=
| WriteNext (data : bytes)                 (* [write_next_with_promise] *)
| WriteNextNoflush (data : bytes)
| WriteOk
| WriteError (error : status)
| TouchActivity.

(** The bytes an answer puts on the connection. *)
Definition action_bytes (a : conn_action) : bytes :=
  match a with WriteNext d | WriteNextNoflush d => d | _ => [] end.
Definition is_terminal (a : conn_action) : bool :=
  match a with WriteOk | WriteError _ => true | _ => false end.
Definition bytes_of (l : list conn_action) : bytes := l ≫= action_bytes.

(** [td::HttpQuery] *)
Inductive http_type := EmptyType | Get | Post | ResponseType.
#[export] Instance http_type_eq_dec : EqDecision http_type.
Proof. solve_decision. Defined.

Record http_query := mk_http_query {
  hq_container : list bytes;
  hq_type : http_type;
  hq_code : Z;
  hq_url_path : bytes;
  hq_args : list (bytes * bytes);
  hq_reason : bytes;
  hq_keep_alive : bool;
  hq_headers : list (bytes * bytes);
  hq_files : list http_file;
  hq_content : bytes;
  hq_peer_address : ip_address;
}.
Definition hq_get_header (q : http_query) (key : bytes) : bytes := default [] (Query.find_pair key (hq_headers q)).
Definition hq_get_arg (q : http_query) (key : bytes) : bytes := default [] (Query.find_pair key (hq_args q)).
Definition hq_get_args (q : http_query) : list (bytes * bytes) := fmap (fun '(k, v) => (k, v)) (hq_args q).

Definition hq_get_retry_after (q : http_query) : Z :=
  let value := hq_get_header q (lit "retry-after") in
  if bool_decide (value = []) then 0
  else match Integers.to_integer_safe check_utf8 32 value with Err _ => 0 | Ok v => Z.max 0 v end.

(** [operator<<] *)
Definition hq_print (q : http_query) : bytes :=
  let newline := [chr 10] in
  let rest :=
    (if bool_decide (hq_type q = ResponseType) then
       ":"%char :: Integers.print_int int32_min (hq_code q) ++ ":"%char :: hq_reason q
     else
       ":"%char :: hq_url_path q ++ (hq_args q ≫= fun '(k, v) => lit ":[" ++ k ++ lit ":" ++ v ++ lit "]"))
    ++ (if hq_keep_alive q then lit ":keep-alive" else []) ++ newline
    ++ (hq_headers q ≫= fun '(k, v) => k ++ lit "=" ++ v ++ newline)
    ++ lit "BEGIN CONTENT" ++ newline ++ hq_content q ++ lit "END CONTENT" ++ newline in
  match hq_type q with
  | EmptyType => lit "EMPTY"
  | Get => lit "GET" ++ rest
  | Post => lit "POST" ++ rest
  | ResponseType => lit "RESPONSE" ++ rest
  end.

(** ** Responses *)

Module Response.

Definition response_head (http_status_code : Z) (content_size : Z) (retry_after : Z) (allow : bytes) : result bytes :=
  let hc := init_status_line http_status_code in
  let hc := set_keep_alive hc in
  let hc := set_content_type hc (lit "application/json") in
  let hc := if 0 <? retry_after then add_header hc (lit "Retry-After") (Integers.print_int int32_min retry_after) else hc in
  let hc := if bool_decide (allow = []) then hc else add_header hc (lit "Allow") allow in
  let hc := set_content_size hc content_size in
  finish hc [].

Definition send_response (http_status_code : Z) (content : bytes) (retry_after : Z) (allow : bytes) : list conn_action :=
  match response_head http_status_code (len content) retry_after allow with
  | Err e => [WriteError e]
  | Ok header => [WriteNextNoflush header; WriteNextNoflush content; WriteOk]
  end.

(** [None] is a failed check of the JSON writer. *)
Definition send_http_error (http_status_code : Z) (description : bytes) (allow : bytes) : option (list conn_action) :=
  content ← Writer.json_encode (Answer.json_query_error http_status_code description []);
  Some (send_response http_status_code content 0 allow).

Definition on_query_finished (q : Query.query) : list conn_action :=
  send_response (Query.http_status_code q) (Query.answer q) (Query.retry_after q) [].

(** [HttpStatConnection::on_result] *)
Definition on_stat_result (r : result bytes) : list conn_action :=
  match r with
  | Err _ => [WriteError (Status 500 (lit "Internal Server Error: closing"))]
  | Ok content =>
    let hc := init_status_line 200 in
    let hc := set_keep_alive hc in
    let hc := set_content_type hc (lit "text/plain") in
    let hc := set_content_size hc (len content) in
    match finish hc [] with
    | Err e => [WriteError e]
    | Ok header => [WriteNextNoflush header; WriteNextNoflush content; WriteOk]
    end
  end.

End Response.

(** ** Routing *)

Module Handler.
Import Response Route AllowList.

(** The part of [FileStreamConfig] and [SharedData] the routing reads. *)
Record config := mk_config { enabled : bool; allow_ip : bytes; workdir_disk_emergency : bool }.

(** What becomes of a request. *)
Inductive handled :=
| Responded (actions : list conn_action)
| Streaming (route : file_stream_route) (peer : ip_address)
| Queried (query : Query.query).

Section Handler.
Context (inet_pton4 : bytes -> pton_result Z) (inet_pton6 : bytes -> pton_result bytes).

Definition respond_error (code : Z) (description : string) : option handled :=
  Responded <$> send_http_error code (lit description) [].

Definition respond_error_bytes (code : Z) (description : bytes) : option handled :=
  Responded <$> send_http_error code description [].

(** The branch of the streaming endpoint. *)
Definition handle_stream (cfg : config) (q : http_query) : option handled :=
  if workdir_disk_emergency cfg then
    respond_error 507 "Telegram workdir disk space exhausted; service is shutting down"
  else if negb (enabled cfg) then respond_error 404 "Not Found"
  else if negb (bool_decide (hq_type q = Get)) then
    Responded <$> send_http_error 405 (lit "Method Not Allowed: file streaming requires GET") (lit "GET")
  else
  match parse_file_stream_route (hq_url_path q) with
  | Err e =>
    let code := st_code e in
    respond_error_bytes (if (400 <=? code) && (code <=? 599) then code else 400) (st_message e)
  | Ok route =>
    allowed ← is_file_stream_ip_allowed check_utf8 inet_pton4 inet_pton6 (hq_peer_address q) (allow_ip cfg);
    if negb allowed then respond_error 403 "Forbidden: streaming endpoint source address is not allowed"
    else
    match parse_file_stream_size_hint check_utf8 (hq_get_header q (lit "x-telegram-file-size")) with
    | Err e => respond_error_bytes 400 (st_message e)
    | Ok expected_size =>
      Some (Streaming (mk_route (token route) (file_id route) (is_test_dc route) expected_size
        (parse_file_stream_no_cache (hq_get_header q (lit "x-telegram-no-cache")))) (hq_peer_address q))
    end
  end.

(** [HttpConnection::handle], with the counters of the query it may create. *)
Definition handle (cfg : config) (q : http_query) (now : time) (shared : Query.shared)
  : option (handled * Query.shared) :=
  let url_path_parser := Parser.init (hq_url_path q) in
  if negb (bool_decide (Parser.peek_char url_path_parser = "/"%char)) then
    h ← respond_error 404 "Not Found: absolute URI is specified in the Request-Line"; Some (h, shared)
  else if begins_with (hq_url_path q) (lit "/stream/file/bot") then
    h ← handle_stream cfg q; Some (h, shared)
  else
    let '(ok, p) := Parser.try_skip (lit "/bot") url_path_parser in
    if negb ok then h ← respond_error 404 "Not Found"; Some (h, shared)
    else
      let '(token, p) := Parser.read_till "/"%char p in
      let '(is_test_dc, p) := Parser.try_skip (lit "/test") p in
      let p := Parser.skip "/"%char p in
      if Parser.has_error p then h ← respond_error 404 "Not Found"; Some (h, shared)
      else
        let method := Parser.data p in
        let '(query, shared') := Query.create now (hq_container q) token is_test_dc method (hq_args q) (hq_headers q)
          (hq_files q) (Some shared) (hq_peer_address q) false in
        s ← shared'; Some (Queried query, s).

End Handler.

End Handler.

(** ** Facts *)

Import Response Handler.

(** The headers of a JSON response, in order. *)
Definition json_headers (content_size retry_after : Z) (allow : bytes) : list (bytes * bytes) :=
  [(lit "Connection", lit "keep-alive"); (lit "Content-Type", lit "application/json")]
  ++ (if 0 <? retry_after then [(lit "Retry-After", Integers.print_int int32_min retry_after)] else [])
  ++ (if bool_decide (allow = []) then [] else [(lit "Allow", allow)])
  ++ [(lit "Content-Length", Integers.print_uint content_size)].

Lemma finish_fits code headers : len (head_text code headers) <= 4066 ->
  finish (foldl (fun hc '(k, v) => add_header hc k v) (init_status_line code) headers) []
  = Ok (head_text code headers).
Proof.
  intros Hl. rewrite creator_pieces. unfold finish. rewrite bool_decide_true by done.
  rewrite <-put_all_app.
  assert (Ht : Builder.text_of (head_pieces code headers ++ [Builder.S crlf]) = head_text code headers).
  { by rewrite text_of_app. }
  assert (He : Builder.b_error (Builder.put_all init (head_pieces code headers ++ [Builder.S crlf])) = false).
  { apply put_all_fits; [done|]. by rewrite Ht. }
  rewrite He. by destruct (put_all_spec _ _ He) as [_ ->]; rewrite Ht.
Qed.

Lemma status_line_length code : len (get_status_line code) <= 31.
Proof. unfold get_status_line. repeat case_bool; vm_compute; discriminate. Qed.

Lemma head_text_length code headers :
  len (head_text code headers)
  = 14 + len (Integers.print_int int32_min code) + len (get_status_line code)
    + foldr (fun h n => len (fst h) + len (snd h) + 4 + n) 0 headers.
Proof.
  unfold head_text, head_pieces. rewrite !text_of_app, !len_app.
  assert (H : len (Builder.text_of (headers ≫= fun '(k, v) =>
    [Builder.S k; Builder.S (lit ": "); Builder.S v; Builder.S crlf]))
    = foldr (fun h n => len (fst h) + len (snd h) + 4 + n) 0 headers).
  { induction headers as [|[k v] l IH]; [done|]. rewrite bind_cons, text_of_app, len_app, IH.
    rewrite !text_of_cons. cbn [Builder.piece_text foldr fst snd]. rewrite !len_app.
    change (len (lit ": ")) with 2. change (len crlf) with 2. change (len (Builder.text_of [])) with 0. lia. }
  rewrite H, !text_of_cons. cbn [Builder.piece_text]. rewrite !len_app.
  change (len (lit "HTTP/1.1 ")) with 9. change (len [" "%char]) with 1. change (len crlf) with 2.
  change (len (Builder.text_of [])) with 0. lia.
Qed.

Lemma send_response_ok code content retry_after allow : len allow <= 100 ->
  send_response code content retry_after allow
  = [WriteNextNoflush (head_text code (json_headers (len content) retry_after allow));
     WriteNextNoflush content; WriteOk].
Proof.
  intros Ha. unfold send_response, response_head.
  assert (finish (foldl (fun hc '(k, v) => add_header hc k v) (init_status_line code)
    (json_headers (len content) retry_after allow)) [] = Ok (head_text code (json_headers (len content) retry_after allow))) as H.
  { apply finish_fits. rewrite head_text_length. pose proof (status_line_length code).
    pose proof (print_int_length code). pose proof (print_int_length retry_after).
    pose proof (print_uint_length (len content)). unfold json_headers. rewrite !foldr_app.
    cbn [foldr fst snd]. change (len (lit "Connection")) with 10. change (len (lit "keep-alive")) with 10.
    change (len (lit "Content-Type")) with 12. change (len (lit "application/json")) with 16.
    change (len (lit "Content-Length")) with 14.
    destruct (0 <? retry_after), (bool_decide (allow = [])); cbn [foldr fst snd];
      change (len (lit "Retry-After")) with 11; change (len (lit "Allow")) with 5; lia. }
  revert H. unfold json_headers. rewrite !foldl_app. cbn [foldl].
  destruct (0 <? retry_after), (bool_decide (allow = [])); cbn [foldl];
    unfold set_keep_alive, set_content_type, set_content_size; by intros ->.
Qed.

Lemma send_http_error_ok code description allow : check_utf8 description = true -> len allow <= 100 ->
  exists content, send_http_error code description allow
    = Some [WriteNextNoflush (head_text code (json_headers (len content) 0 allow)); WriteNextNoflush content; WriteOk]
  /\ Reader.json_decode content = Some (Ok (Answer.json_query_error code description [])).
Proof.
  intros Hd Ha. destruct (error_json_text code description [] Hd) as (t & Ht & Hdec); [constructor|].
  exists t. split; [|done]. unfold send_http_error. rewrite Ht. cbn [mbind option_bind].
  by rewrite send_response_ok.
Qed.

Section Routing.
Context (inet_pton4 : bytes -> pton_result Z) (inet_pton6 : bytes -> pton_result bytes).

Lemma respond_error_answers code d : check_utf8 (lit d) = true -> exists a, respond_error code d = Some (Responded a).
Proof.
  intros Hd. destruct (send_http_error_ok code (lit d) [] Hd) as (c & Hc & _); [by vm_compute|].
  unfold respond_error. rewrite Hc. by eexists.
Qed.

Lemma responded_not_streaming code d r peer : respond_error code d <> Some (Streaming r peer).
Proof. unfold respond_error. by destruct (send_http_error _ _ _). Qed.
Lemma responded_bytes_not_streaming code d r peer : respond_error_bytes code d <> Some (Streaming r peer).
Proof. unfold respond_error_bytes. by destruct (send_http_error _ _ _). Qed.

(** What the streaming branch requires. *)
Definition stream_conditions (cfg : config) (q : http_query) (route : Route.file_stream_route) : Prop :=
  workdir_disk_emergency cfg = false /\ enabled cfg = true /\ hq_type q = Get
  /\ AllowList.is_file_stream_ip_allowed check_utf8 inet_pton4 inet_pton6 (hq_peer_address q) (allow_ip cfg) = Some true
  /\ exists r size, Route.parse_file_stream_route (hq_url_path q) = Ok r
     /\ Route.parse_file_stream_size_hint check_utf8 (hq_get_header q (lit "x-telegram-file-size")) = Ok size
     /\ route = Route.mk_route (Route.token r) (Route.file_id r) (Route.is_test_dc r) size
          (Route.parse_file_stream_no_cache (hq_get_header q (lit "x-telegram-no-cache"))).

Lemma handle_stream_spec cfg q route peer :
  handle_stream inet_pton4 inet_pton6 cfg q = Some (Streaming route peer)
  <-> peer = hq_peer_address q /\ stream_conditions cfg q route.
Proof.
  unfold handle_stream, stream_conditions. split.
  - case_bool; [by intros ?%responded_not_streaming|].
    destruct (enabled cfg); cbn [negb]; [|by intros ?%responded_not_streaming].
    destruct (decide (hq_type q = Get)) as [Hg|Hg].
    2:{ rewrite bool_decide_false by done. cbn [negb]. by destruct (send_http_error _ _ _). }
    rewrite bool_decide_true by done. cbn [negb].
    destruct (Route.parse_file_stream_route (hq_url_path q)) as [r|e]; [|by intros ?%responded_bytes_not_streaming].
    destruct (AllowList.is_file_stream_ip_allowed _ _ _ _ _) as [[]|]; cbn [mbind option_bind negb]; [|by intros ?%responded_not_streaming|done].
    destruct (Route.parse_file_stream_size_hint _ _) as [size|e]; [|by intros ?%responded_bytes_not_streaming].
    intros [= <- <-]. split; [done|]. split_and!; try done. by exists r, size.
  - intros (-> & -> & -> & Hg & Ha & r & size & Hr & Hs & ->).
    rewrite bool_decide_true by done. cbn [negb]. by rewrite Hr, Ha, Hs.
Qed.

Lemma starts_with_slash s b : lit s = "/"%char :: b -> forall x,
  bool_decide (Parser.peek_char (Parser.init (lit s ++ x)) = "/"%char) = true.
Proof. intros -> x. apply bool_decide_eq_true. reflexivity. Qed.

Lemma begins_with_app p s : begins_with (p ++ s) p = true.
Proof. by apply begins_with_spec; exists s. Qed.

Lemma read_token token rest : "/"%char ∉ token ->
  Parser.read_till "/"%char (Parser.init (token ++ "/"%char :: rest)) = (token, Parser.init ("/"%char :: rest)).
Proof. apply read_till_spec. Qed.

Lemma try_skip_no prefix s : (forall b, s <> prefix ++ b) ->
  Parser.try_skip prefix (Parser.init s) = (false, Parser.init s).
Proof.
  intros H. destruct (Parser.try_skip prefix (Parser.init s)) as [[] p] eqn:E.
  - apply try_skip_true in E as [E _]. by apply H in E.
  - by apply try_skip_false in E as [-> _].
Qed.

(** The request of a method. *)
Lemma handle_method cfg q now s token test method :
  "/"%char ∉ token -> (test = false -> forall b, method <> lit "test" ++ b) ->
  hq_url_path q = lit "/bot" ++ token ++ (if test : bool then lit "/test/" else lit "/") ++ method ->
  let '(query, s') := Query.create now (hq_container q) token test method (hq_args q) (hq_headers q) (hq_files q)
    (Some s) (hq_peer_address q) false in
  handle inet_pton4 inet_pton6 cfg q now s = s' ← s'; Some (Queried query, s').
Proof.
  intros Ht Hm Hp. destruct (Query.create _ _ _ _ _ _ _ _ _ _ _) as [query s'] eqn:Eq.
  unfold handle. rewrite Hp.
  rewrite (starts_with_slash "/bot" (lit "bot")) by reflexivity.
  cbn [negb].
  assert (begins_with (lit "/bot" ++ token ++ (if test then lit "/test/" else lit "/") ++ method) (lit "/stream/file/bot") = false) as ->.
  { apply not_true_iff_false. intros [x Hx]%begins_with_spec. discriminate Hx. }
  rewrite try_skip_app. cbn [negb].
  destruct test.
  - change (lit "/test/" ++ method) with ("/"%char :: lit "test/" ++ method).
    rewrite read_token by done.
    change ("/"%char :: lit "test/" ++ method) with (lit "/test" ++ "/"%char :: method).
    rewrite try_skip_app, skip_spec. change (Parser.has_error (Parser.init method)) with false.
    change (Parser.data (Parser.init method)) with method. by rewrite Eq.
  - change (lit "/" ++ method) with ("/"%char :: method).
    rewrite read_token by done. rewrite try_skip_no.
    2:{ intros b [= Hb]. by apply (Hm eq_refl b). }
    rewrite skip_spec. change (Parser.has_error (Parser.init method)) with false.
    change (Parser.data (Parser.init method)) with method. by rewrite Eq.
Qed.

End Routing.

(** ** Properties *)

(** Framing of responses.  Whatever the status and the body, the response of
    a query is a complete head, whose [Content-Length] is the size of the body,
    then the body, then one [write_ok]; no response ever fails because its head is
    too big.  An error response has the JSON text of the error as its body. *)
Theorem response_framing (q : Query.query) (code : Z) (description allow : bytes) :
  check_utf8 description = true -> len allow <= 100 ->
  (exists head, on_query_finished q = [WriteNextNoflush head; WriteNextNoflush (Query.answer q); WriteOk]
    /\ head = head_text (Query.http_status_code q) (json_headers (len (Query.answer q)) (Query.retry_after q) []))
  /\ (exists head content, send_http_error code description allow
      = Some [WriteNextNoflush head; WriteNextNoflush content; WriteOk]
      /\ head = head_text code (json_headers (len content) 0 allow)
      /\ Reader.json_decode content = Some (Ok (Answer.json_query_error code description []))).
Proof.
  intros Hd Ha. split.
  - eexists. split; [|reflexivity]. unfold on_query_finished. by rewrite send_response_ok by done.
  - destruct (send_http_error_ok code description allow Hd Ha) as (c & Hc & Hdec). exists (head_text code (json_headers (len c) 0 allow)), c. by rewrite Hc.
Qed.

Lemma response_framing_witness : exists head content,
  send_http_error 404 (lit "Not Found") [] = Some [WriteNextNoflush head; WriteNextNoflush content; WriteOk].
Proof.
  destruct (response_framing sample_query 404 (lit "Not Found") []) as [_ (h & c & E & _)];
    [reflexivity|discriminate|by exists h, c].
Defined.

(** Routing of Bot API requests.  [/bot<token>/<method>] and
    [/bot<token>/test/<method>] become a query with that token, that data center
    and that method, in lower case, together with its arguments, headers and
    files; the name of a method must not begin with [test].  An empty method is
    replaced with the argument [method]. *)
Theorem bot_api_routing (inet_pton4 : bytes -> pton_result Z) (inet_pton6 : bytes -> pton_result bytes)
    (cfg : config) (q : http_query) (now : time) (s : Query.shared) (token method : bytes) (test : bool) :
  "/"%char ∉ token -> (test = false -> forall b, method <> lit "test" ++ b) ->
  hq_url_path q = lit "/bot" ++ token ++ (if test then lit "/test/" else lit "/") ++ method ->
  exists query s', handle inet_pton4 inet_pton6 cfg q now s = Some (Queried query, s')
  /\ Query.token query = token /\ Query.is_test_dc query = test
  /\ Query.method query = to_lower (if bool_decide (method = []) then default [] (Query.find_pair (lit "method") (hq_args q))
                                    else method)
  /\ Query.args query = hq_args q /\ Query.headers query = hq_headers q /\ Query.files query = hq_files q
  /\ Query.state_ query = Query.SQuery /\ Query.query_count s' = Query.query_count s + 1.
Proof.
  intros Ht Hm Hp. pose proof (handle_method inet_pton4 inet_pton6 cfg q now s token test method Ht Hm Hp) as H.
  unfold Query.create in H. cbn -[lit to_lower handle] in H. eexists _, _. split; [exact H|]. split_and!; reflexivity.
Qed.

Definition no_pton4 (s : bytes) : pton_result Z := PtonBad.
Definition no_pton6 (s : bytes) : pton_result bytes := PtonBad.

Lemma bot_api_routing_witness : exists query s',
  handle no_pton4 no_pton6 (mk_config false [] false)
    (mk_http_query [] Get 0 (lit "/bot123:abc/test/getMe") [] [] true [] [] [] Invalid) 0 (Query.mk_shared 0 0) = Some (Queried query, s')
  /\ Query.token query = lit "123:abc" /\ Query.is_test_dc query = true.
Proof.
  destruct (bot_api_routing no_pton4 no_pton6 (mk_config false [] false)
    (mk_http_query [] Get 0 (lit "/bot123:abc/test/getMe") [] [] true [] [] [] Invalid) 0 (Query.mk_shared 0 0)
    (lit "123:abc") (lit "getMe") true) as (query & s' & H & Ht & Hd & _).
  - by apply (bool_decide_unpack _); vm_compute.
  - done.
  - reflexivity.
  - by exists query, s'.
Defined.

(** Admission to the streaming endpoint.  A request is handed to a
    [FileStreamConnection] exactly when its path begins with [/stream/file/bot],
    the disk is not in emergency, streaming is enabled, the request is a GET, the
    path is a valid route, the policy allows the peer and the size hint is absent
    or valid; the route then carries the hint and the no-cache flag. *)
Theorem streaming_admission (inet_pton4 : bytes -> pton_result Z) (inet_pton6 : bytes -> pton_result bytes)
    (cfg : config) (q : http_query) (now : time) (s s' : Query.shared) (route : Route.file_stream_route) (peer : ip_address) :
  handle inet_pton4 inet_pton6 cfg q now s = Some (Streaming route peer, s')
  <-> begins_with (hq_url_path q) (lit "/stream/file/bot") = true /\ s' = s /\ peer = hq_peer_address q
      /\ stream_conditions inet_pton4 inet_pton6 cfg q route.
Proof.
  assert (Hd : forall d, (h ← respond_error 404 d; Some (h, s)) <> Some (Streaming route peer, s')).
  { intros d. destruct (respond_error 404 d) as [h|] eqn:E; [|done]. intros [= -> _].
    by apply responded_not_streaming in E. }
  unfold handle. split.
  - case_bool; [by intros ?%Hd|]. case_bool.
    + destruct (handle_stream _ _ _ _) as [h|] eqn:E; [|done]. cbn [mbind option_bind]. intros [= -> <-].
      apply handle_stream_spec in E as [-> ?]. done.
    + destruct (Parser.try_skip _ _) as [[] p]; cbn [negb]; [|by intros ?%Hd].
      destruct (Parser.read_till _ _) as [tok p1]. destruct (Parser.try_skip _ _) as [test p2].
      case_bool; [by intros ?%Hd|]. by destruct (Query.create _ _ _ _ _ _ _ _ _ _ _) as [query [s1|]].
  - intros (Hb & -> & -> & Hc). rewrite Hb.
    assert (exists x, hq_url_path q = lit "/stream/file/bot" ++ x) as [x ->] by by apply begins_with_spec.
    rewrite (starts_with_slash "/stream/file/bot" (lit "stream/file/bot")) by reflexivity.
    cbn [negb]. by rewrite (proj2 (handle_stream_spec inet_pton4 inet_pton6 cfg q route (hq_peer_address q))).
Qed.
