(* ===== verification/FileStreamConnection.v ===== *)
(** * The streaming actor

    [FileStream.h], [FileStream.cpp]: [FileStreamConnection], as a state machine.
    Each method of the actor is a function on its fields; what it sends to other
    actors, in order, is the field [out].  The file system answers per event, so
    the local copy may appear, disappear and change between two events. *)

From S2P Require Import Prelude TdMisc Utf8 Json HttpHeader IPAddress Query FileStreamCore HttpConnection.

Import Route Recovery.

(** [FileStreamConfig] without the fields of the routing. *)
Record stream_config := mk_stream_config {
  chunk_size : Z;
  first_byte_timeout : time;
  idle_timeout : time;
  write_high_watermark : Z;
  max_size : Z;
}.

(** What the actor does: actions on its connection, its own timeout and stop, and
    closures sent to the cleanup manager, the client and the client manager. *)
Inductive effect :=
| Conn (a : conn_action)
| SetTimeoutIn (t : time)
| CancelTimeout
| Stop
| RetainFile (path : bytes)
| ReleaseFile (path : bytes)
| RequestFileRedownload (file_id : Z)
| SendFileStream (stream_id : Z) (token : bytes) (is_test_dc : bool) (file_id : bytes) (expected_size : Z)
| OnFileStreamTimeout (first_byte : bool)
| ReleaseFileStream (stream_id : Z)
| RemoveFileStream (stream_id : Z) (file_id : Z) (no_cache : bool) (completed_ok : bool).

(** The disk during one event: [FileFd::open(path, Read)] and [pread(offset, size)]. *)
Record disk := mk_disk {
  open_file : bytes -> result unit;
  pread : bytes -> Z -> Z -> result bytes;
}.

Module Stream.

(** [FileStreamConnection]; the underscores of the fields are dropped. *)
Record stream := mk_stream {
  stream_id : Z;
  connection : bool;  (* [connection_] is not empty *)
  client_manager : bool;  (* the actor ids are not empty *)
  cleanup_manager : bool;
  client : bool;
  route : file_stream_route;
  config : stream_config;
  file_id : Z;
  local_path : bytes;
  local_file : bool;  (* the file descriptor is open *)
  cursor : Cursor.cursor;
  headers_sent : bool;
  read_in_flight : bool;
  write_in_flight : bool;
  download_completed : bool;
  first_byte_sent : bool;
  completed_ok : bool;
  redownload_requested : bool;
  pending_write_offset : Z;
  pending_write_size : Z;
  finished : bool;
  out : list effect;  (* what the actor has done, oldest first *)
}.

Definition set_stream_id (s : stream) (v : Z) : stream := mk_stream v (connection s) (client_manager s)
  (cleanup_manager s) (client s) (route s) (config s) (file_id s) (local_path s) (local_file s) (cursor s)
  (headers_sent s) (read_in_flight s) (write_in_flight s) (download_completed s) (first_byte_sent s) (completed_ok
  s) (redownload_requested s) (pending_write_offset s) (pending_write_size s) (finished s) (out s).
Definition set_connection (s : stream) (v : bool) : stream := mk_stream (stream_id s) v (client_manager s)
  (cleanup_manager s) (client s) (route s) (config s) (file_id s) (local_path s) (local_file s) (cursor s)
  (headers_sent s) (read_in_flight s) (write_in_flight s) (download_completed s) (first_byte_sent s) (completed_ok
  s) (redownload_requested s) (pending_write_offset s) (pending_write_size s) (finished s) (out s).
Definition set_client_manager (s : stream) (v : bool) : stream := mk_stream (stream_id s) (connection s) v
  (cleanup_manager s) (client s) (route s) (config s) (file_id s) (local_path s) (local_file s) (cursor s)
  (headers_sent s) (read_in_flight s) (write_in_flight s) (download_completed s) (first_byte_sent s) (completed_ok
  s) (redownload_requested s) (pending_write_offset s) (pending_write_size s) (finished s) (out s).
Definition set_cleanup_manager (s : stream) (v : bool) : stream := mk_stream (stream_id s) (connection s)
  (client_manager s) v (client s) (route s) (config s) (file_id s) (local_path s) (local_file s) (cursor s)
  (headers_sent s) (read_in_flight s) (write_in_flight s) (download_completed s) (first_byte_sent s) (completed_ok
  s) (redownload_requested s) (pending_write_offset s) (pending_write_size s) (finished s) (out s).
Definition set_client (s : stream) (v : bool) : stream := mk_stream (stream_id s) (connection s) (client_manager s)
  (cleanup_manager s) v (route s) (config s) (file_id s) (local_path s) (local_file s) (cursor s) (headers_sent s)
  (read_in_flight s) (write_in_flight s) (download_completed s) (first_byte_sent s) (completed_ok s)
  (redownload_requested s) (pending_write_offset s) (pending_write_size s) (finished s) (out s).
Definition set_route (s : stream) (v : file_stream_route) : stream := mk_stream (stream_id s) (connection s)
  (client_manager s) (cleanup_manager s) (client s) v (config s) (file_id s) (local_path s) (local_file s) (cursor
  s) (headers_sent s) (read_in_flight s) (write_in_flight s) (download_completed s) (first_byte_sent s)
  (completed_ok s) (redownload_requested s) (pending_write_offset s) (pending_write_size s) (finished s) (out s).
Definition set_config (s : stream) (v : stream_config) : stream := mk_stream (stream_id s) (connection s)
  (client_manager s) (cleanup_manager s) (client s) (route s) v (file_id s) (local_path s) (local_file s) (cursor
  s) (headers_sent s) (read_in_flight s) (write_in_flight s) (download_completed s) (first_byte_sent s)
  (completed_ok s) (redownload_requested s) (pending_write_offset s) (pending_write_size s) (finished s) (out s).
Definition set_file_id (s : stream) (v : Z) : stream := mk_stream (stream_id s) (connection s) (client_manager s)
  (cleanup_manager s) (client s) (route s) (config s) v (local_path s) (local_file s) (cursor s) (headers_sent s)
  (read_in_flight s) (write_in_flight s) (download_completed s) (first_byte_sent s) (completed_ok s)
  (redownload_requested s) (pending_write_offset s) (pending_write_size s) (finished s) (out s).
Definition set_local_path (s : stream) (v : bytes) : stream := mk_stream (stream_id s) (connection s)
  (client_manager s) (cleanup_manager s) (client s) (route s) (config s) (file_id s) v (local_file s) (cursor s)
  (headers_sent s) (read_in_flight s) (write_in_flight s) (download_completed s) (first_byte_sent s) (completed_ok
  s) (redownload_requested s) (pending_write_offset s) (pending_write_size s) (finished s) (out s).
Definition set_local_file (s : stream) (v : bool) : stream := mk_stream (stream_id s) (connection s)
  (client_manager s) (cleanup_manager s) (client s) (route s) (config s) (file_id s) (local_path s) v (cursor s)
  (headers_sent s) (read_in_flight s) (write_in_flight s) (download_completed s) (first_byte_sent s) (completed_ok
  s) (redownload_requested s) (pending_write_offset s) (pending_write_size s) (finished s) (out s).
Definition set_cursor (s : stream) (v : Cursor.cursor) : stream := mk_stream (stream_id s) (connection s)
  (client_manager s) (cleanup_manager s) (client s) (route s) (config s) (file_id s) (local_path s) (local_file s)
  v (headers_sent s) (read_in_flight s) (write_in_flight s) (download_completed s) (first_byte_sent s)
  (completed_ok s) (redownload_requested s) (pending_write_offset s) (pending_write_size s) (finished s) (out s).
Definition set_headers_sent (s : stream) (v : bool) : stream := mk_stream (stream_id s) (connection s)
  (client_manager s) (cleanup_manager s) (client s) (route s) (config s) (file_id s) (local_path s) (local_file s)
  (cursor s) v (read_in_flight s) (write_in_flight s) (download_completed s) (first_byte_sent s) (completed_ok s)
  (redownload_requested s) (pending_write_offset s) (pending_write_size s) (finished s) (out s).
Definition set_read_in_flight (s : stream) (v : bool) : stream := mk_stream (stream_id s) (connection s)
  (client_manager s) (cleanup_manager s) (client s) (route s) (config s) (file_id s) (local_path s) (local_file s)
  (cursor s) (headers_sent s) v (write_in_flight s) (download_completed s) (first_byte_sent s) (completed_ok s)
  (redownload_requested s) (pending_write_offset s) (pending_write_size s) (finished s) (out s).
Definition set_write_in_flight (s : stream) (v : bool) : stream := mk_stream (stream_id s) (connection s)
  (client_manager s) (cleanup_manager s) (client s) (route s) (config s) (file_id s) (local_path s) (local_file s)
  (cursor s) (headers_sent s) (read_in_flight s) v (download_completed s) (first_byte_sent s) (completed_ok s)
  (redownload_requested s) (pending_write_offset s) (pending_write_size s) (finished s) (out s).
Definition set_download_completed (s : stream) (v : bool) : stream := mk_stream (stream_id s) (connection s)
  (client_manager s) (cleanup_manager s) (client s) (route s) (config s) (file_id s) (local_path s) (local_file s)
  (cursor s) (headers_sent s) (read_in_flight s) (write_in_flight s) v (first_byte_sent s) (completed_ok s)
  (redownload_requested s) (pending_write_offset s) (pending_write_size s) (finished s) (out s).
Definition set_first_byte_sent (s : stream) (v : bool) : stream := mk_stream (stream_id s) (connection s)
  (client_manager s) (cleanup_manager s) (client s) (route s) (config s) (file_id s) (local_path s) (local_file s)
  (cursor s) (headers_sent s) (read_in_flight s) (write_in_flight s) (download_completed s) v (completed_ok s)
  (redownload_requested s) (pending_write_offset s) (pending_write_size s) (finished s) (out s).
Definition set_completed_ok (s : stream) (v : bool) : stream := mk_stream (stream_id s) (connection s)
  (client_manager s) (cleanup_manager s) (client s) (route s) (config s) (file_id s) (local_path s) (local_file s)
  (cursor s) (headers_sent s) (read_in_flight s) (write_in_flight s) (download_completed s) (first_byte_sent s) v
  (redownload_requested s) (pending_write_offset s) (pending_write_size s) (finished s) (out s).
Definition set_redownload_requested (s : stream) (v : bool) : stream := mk_stream (stream_id s) (connection s)
  (client_manager s) (cleanup_manager s) (client s) (route s) (config s) (file_id s) (local_path s) (local_file s)
  (cursor s) (headers_sent s) (read_in_flight s) (write_in_flight s) (download_completed s) (first_byte_sent s)
  (completed_ok s) v (pending_write_offset s) (pending_write_size s) (finished s) (out s).
Definition set_pending_write_offset (s : stream) (v : Z) : stream := mk_stream (stream_id s) (connection s)
  (client_manager s) (cleanup_manager s) (client s) (route s) (config s) (file_id s) (local_path s) (local_file s)
  (cursor s) (headers_sent s) (read_in_flight s) (write_in_flight s) (download_completed s) (first_byte_sent s)
  (completed_ok s) (redownload_requested s) v (pending_write_size s) (finished s) (out s).
Definition set_pending_write_size (s : stream) (v : Z) : stream := mk_stream (stream_id s) (connection s)
  (client_manager s) (cleanup_manager s) (client s) (route s) (config s) (file_id s) (local_path s) (local_file s)
  (cursor s) (headers_sent s) (read_in_flight s) (write_in_flight s) (download_completed s) (first_byte_sent s)
  (completed_ok s) (redownload_requested s) (pending_write_offset s) v (finished s) (out s).
Definition set_finished (s : stream) (v : bool) : stream := mk_stream (stream_id s) (connection s) (client_manager
  s) (cleanup_manager s) (client s) (route s) (config s) (file_id s) (local_path s) (local_file s) (cursor s)
  (headers_sent s) (read_in_flight s) (write_in_flight s) (download_completed s) (first_byte_sent s) (completed_ok
  s) (redownload_requested s) (pending_write_offset s) (pending_write_size s) v (out s).
Definition set_out (s : stream) (v : list effect) : stream := mk_stream (stream_id s) (connection s)
  (client_manager s) (cleanup_manager s) (client s) (route s) (config s) (file_id s) (local_path s) (local_file s)
  (cursor s) (headers_sent s) (read_in_flight s) (write_in_flight s) (download_completed s) (first_byte_sent s)
  (completed_ok s) (redownload_requested s) (pending_write_offset s) (pending_write_size s) (finished s) v.

Definition emit (s : stream) (e : effect) : stream := set_out s (out s ++ [e]).
Definition write (s : stream) (a : conn_action) : stream := emit s (Conn a).

(** The constructor, and [start_up]. *)
Definition create (stream_id : Z) (cleanup_manager : bool) (route : file_stream_route) (config : stream_config) : stream :=
  mk_stream stream_id true true cleanup_manager false route config 0 [] false Cursor.empty_cursor
    false false false false false false false (-1) 0 false [].

Definition start_up (s : stream) : stream :=
  let s := emit s (SetTimeoutIn (first_byte_timeout (config s))) in
  let r := route s in
  let s := emit s (SendFileStream (stream_id s) (token r) (is_test_dc r) (Route.file_id r) (expected_size r)) in
  set_route s (mk_route [] [] (is_test_dc r) (expected_size r) (no_cache r)).

Definition set_client_id (s : stream) : stream := set_client s true.

(** [fail] and [abort] call each other: [abort] answers through [fail] as long
    as no header was sent, [fail] aborts afterwards.  [fail_unsent] and
    [abort_sent] are the two ends of that. *)
Definition fail_unsent (s : stream) (http_status_code : Z) (message : bytes) : option stream :=
  content ← Writer.json_encode (Answer.json_query_error http_status_code message []);
  let hc := Header.init_status_line http_status_code in
  let hc := Header.set_content_type hc (lit "application/json") in
  let hc := Header.set_content_size hc (len content) in
  let header := Header.finish hc [] in
  let s := set_finished s true in
  let s := emit s CancelTimeout in
  let s :=
    match header with
    | Err e => set_connection (write s (WriteError e)) false
    | Ok h => set_connection (write (write (write s (WriteNextNoflush h)) (WriteNextNoflush content)) WriteOk) false
    end in
  Some (emit s Stop).

Definition abort_sent (s : stream) (e : status) : stream :=
  let s := set_finished s true in
  let s := emit s CancelTimeout in
  let s := if connection s then set_connection (write s (WriteError e)) false else s in
  emit s Stop.

Definition fail (s : stream) (http_status_code : Z) (message : bytes) : option stream :=
  if finished s then Some s
  else if headers_sent s then Some (abort_sent s (Status http_status_code message))
  else fail_unsent s http_status_code message.

Definition abort (s : stream) (e : status) : option stream :=
  if finished s then Some s
  else
    let code := st_code e in
    let code := if (code <? 400) || (599 <? code) then 502 else code in
    if negb (headers_sent s) then fail s code (st_message e)
    else Some (abort_sent s e).

(** The head [send_headers] creates. *)
Definition stream_head (total_size : Z) : result bytes :=
  let hc := Header.init_status_line 200 in
  let hc := Header.set_keep_alive hc in
  let hc := Header.set_content_type hc (lit "application/octet-stream") in
  let hc := Header.set_content_size hc total_size in
  let hc := Header.add_header hc (lit "Content-Disposition") (lit "attachment") in
  let hc := Header.add_header hc (lit "Cache-Control") (lit "private") in
  Header.finish hc [].

Definition send_headers (s : stream) : option (bool * stream) :=
  if headers_sent s then Some (true, s)
  else
    match stream_head (wrap 64 (Cursor.total_size (cursor s))) with
    | Err _ => s ← fail s 500 (lit "Failed to create streaming response headers"); Some (false, s)
    | Ok header =>
      let s := set_headers_sent s true in
      Some (true, write s (WriteNext header))
    end.

Definition finish (s : stream) : option stream :=
  if finished s then Some s
  else if negb (Cursor.is_complete (cursor s)) || read_in_flight s || write_in_flight s then
    abort s (Status 500 (lit "Attempted to finish an incomplete stream"))
  else
    '(sent, s) ← send_headers s;
    if negb sent then Some s
    else
      let s := set_finished s true in
      let s := set_completed_ok s true in
      let s := emit s CancelTimeout in
      let s := if connection s then set_connection (write s WriteOk) false else s in
      Some (emit s Stop).

Definition drop_stale_download_state (s : stream) : stream :=
  let s := set_download_completed s false in
  let s := set_local_file s false in
  let s := if Cursor.next_offset (cursor s) =? 0 then set_cursor s (Cursor.with_end (cursor s) 0) else s in
  emit s (SetTimeoutIn (first_byte_timeout (config s))).

Definition request_file_redownload (s : stream) : stream :=
  if redownload_requested s || (file_id s <=? 0) || negb (client s) then s
  else emit (set_redownload_requested s true) (RequestFileRedownload (file_id s)).

Definition effective_chunk_size (s : stream) : Z := Z.min (chunk_size (config s)) (write_high_watermark (config s)).

Definition on_file_data (s : stream) (offset : Z) (r : result bytes) : option stream :=
  let s := set_read_in_flight s false in
  if finished s then Some s
  else
    match r with
    | Err e => abort s (Status 502 (st_message e))
    | Ok data =>
      let expected_size := Cursor.next_read_size (cursor s) (effective_chunk_size s) in
      if negb (len data =? expected_size) || bool_decide (data = []) then
        abort s (Status 500 (lit "TDLib local file returned an incomplete part"))
      else
        let s := set_write_in_flight s true in
        let s := set_pending_write_offset s offset in
        let s := set_pending_write_size s (len data) in
        '(sent, s) ← send_headers s;
        if negb sent then Some s else Some (write s (WriteNext data))
    end.

(** The second half of [try_read], once the file is open. *)
Definition read_chunk (d : disk) (s : stream) (count : Z) : option stream :=
  let s := set_read_in_flight s true in
  match pread d (local_path s) (Cursor.next_offset (cursor s)) count with
  | Err e =>
    let s := set_read_in_flight s false in
    abort s (Status 500 (lit "Failed to read TDLib local file: " ++ st_message e))
  | Ok data =>
    if negb (len data =? count) then
      let s := set_read_in_flight s false in
      if negb (download_completed s) then Some (set_local_file s false)
      else abort s (Status 500 (lit "TDLib local file returned an incomplete part"))
    else on_file_data s (Cursor.next_offset (cursor s)) (Ok data)
  end.

Definition try_read (d : disk) (s : stream) : option stream :=
  if finished s || read_in_flight s || write_in_flight s || (Cursor.total_size (cursor s) <? 0) then Some s
  else if Cursor.is_complete (cursor s) then finish s
  else
    let count := Cursor.next_read_size (cursor s) (effective_chunk_size s) in
    if count =? 0 then Some s
    else if count <? 0 then abort s (Status 500 (lit "Invalid stream read size"))
    else if bool_decide (local_path s = []) then Some s
    else if local_file s then read_chunk d s count
    else
      match open_file d (local_path s) with
      | Ok _ => read_chunk d (set_local_file s true) count
      | Err e =>
        if negb (download_completed s) then Some s
        else if negb (file_stream_waits_for_redownload (download_completed s) (first_byte_sent s)) then
          abort s (Status 500 (lit "Failed to open TDLib local file: " ++ st_message e))
        else Some (request_file_redownload (drop_stale_download_state s))
      end.

(** The new local path: the reference to the old one is given back. *)
Definition change_local_path (s : stream) (path : bytes) : stream :=
  let s := if negb (bool_decide (local_path s = [])) && cleanup_manager s then emit s (ReleaseFile (local_path s)) else s in
  let s := set_local_path s path in
  if cleanup_manager s then emit s (RetainFile path) else s.

Definition path_changes (s : stream) (path : bytes) : bool :=
  negb (bool_decide (path = [])) && negb (bool_decide (local_path s = path)).

Definition on_file_ready (d : disk) (s : stream) (file_id total_size : Z) (path : bytes)
    (download_offset downloaded_prefix_size : Z) (is_completed : bool) : option stream :=
  if finished s then Some s
  else if (file_id <=? 0) || (total_size <? 0) then fail s 500 (lit "Invalid file metadata received from TDLib")
  else
    let s := set_file_id s file_id in
    let s := if path_changes s path then change_local_path s path else s in
    if uint64_max <? total_size then fail s 413 (lit "File is too large for this build")
    else if (0 <? max_size (config s)) && (max_size (config s) <? total_size) then
      fail s 413 (lit "File is too large for the streaming endpoint")
    else
      let s := emit s (SetTimeoutIn (first_byte_timeout (config s))) in
      let s := set_cursor s (Cursor.with_total (cursor s) total_size) in
      match Cursor.update_progress (cursor s) download_offset downloaded_prefix_size is_completed with
      | Err e => fail s 502 (st_message e)
      | Ok c =>
        let s := set_cursor s c in
        let s := set_download_completed s is_completed in
        if download_completed s && (Cursor.contiguous_end (cursor s) <? Cursor.total_size (cursor s)) then
          fail s 502 (lit "Telegram download completed with an incomplete file")
        else try_read d s
      end.

Definition on_file_progress (d : disk) (s : stream) (reported_total_size : Z) (path : bytes)
    (download_offset downloaded_prefix_size : Z) (is_completed is_downloading_active : bool) : option stream :=
  if finished s || (Cursor.total_size (cursor s) <? 0) then Some s
  else if (0 <? reported_total_size) && negb (reported_total_size =? Cursor.total_size (cursor s)) then
    abort s (Status 502 (lit "File size metadata changed during download"))
  else
    let s := if path_changes s path then change_local_path (set_local_file s false) path else s in
    let s := if download_completed s && negb is_completed
             then request_file_redownload (drop_stale_download_state s) else s in
    match Cursor.update_progress (cursor s) download_offset downloaded_prefix_size is_completed with
    | Err e => abort s e
    | Ok c =>
      let s := set_cursor s c in
      let s := set_download_completed s (download_completed s || is_completed) in
      if negb is_downloading_active && file_stream_fails_on_stopped_download (download_completed s) (first_byte_sent s) then
        abort s (Status 502 (lit "Telegram file download stopped before completion"))
      else if download_completed s && (Cursor.contiguous_end (cursor s) <? Cursor.total_size (cursor s)) then
        abort s (Status 502 (lit "Telegram download completed with an incomplete file"))
      else try_read d s
    end.

Definition on_chunk_flushed (d : disk) (s : stream) (r : result unit) : option stream :=
  let s := set_write_in_flight s false in
  if finished s then Some s
  else
    match r with
    | Err e => abort s e
    | Ok _ =>
      let status := Cursor.commit (cursor s) (pending_write_offset s) (pending_write_size s) in
      let s := set_pending_write_offset s (-1) in
      let s := set_pending_write_size s 0 in
      match status with
      | Err e => abort s e
      | Ok c =>
        let s := set_cursor s c in
        let s := set_first_byte_sent s true in
        let s := if connection s then write s TouchActivity else s in
        let s := emit s (SetTimeoutIn (idle_timeout (config s))) in
        try_read d s
      end
    end.

Definition on_headers_flushed (s : stream) (r : result unit) : option stream :=
  if finished s then Some s
  else match r with Err e => abort s e | Ok _ => Some s end.

Definition on_file_error (s : stream) (e : status) : option stream :=
  if finished s then Some s
  else
    let code := st_code e in
    let code := if (code <? 400) || (599 <? code) then 502 else code in
    if negb (headers_sent s) then fail s code (st_message e) else abort s e.

Definition timeout_expired (s : stream) : option stream :=
  let first_byte_timeout := negb (first_byte_sent s) in
  let s := if client_manager s then emit s (OnFileStreamTimeout first_byte_timeout) else s in
  on_file_error s (Status 504 (lit (if first_byte_timeout then "File stream first byte timeout" else "File stream stalled"))).

Definition tear_down (s : stream) : stream :=
  let s := set_local_file s false in
  let s := if negb (bool_decide (local_path s = [])) && cleanup_manager s then emit s (ReleaseFile (local_path s)) else s in
  let s := emit s (ReleaseFileStream (stream_id s)) in
  let s := if client s then emit s (RemoveFileStream (stream_id s) (file_id s) (no_cache (route s)) (completed_ok s)) else s in
  set_connection s false.

(** The closures and events the actor receives. *)
Inductive event :=
| SetClient
| FileReady (file_id total_size : Z) (path : bytes) (download_offset downloaded_prefix_size : Z) (is_completed : bool)
| FileProgress (reported_total_size : Z) (path : bytes) (download_offset downloaded_prefix_size : Z)
    (is_completed is_downloading_active : bool)
| FileError (e : status)
| ChunkFlushed (r : result unit)
| HeadersFlushed (r : result unit)
| Timeout.

Definition handle (d : disk) (s : stream) (e : event) : option stream :=
  match e with
  | SetClient => Some (set_client_id s)
  | FileReady id total path off pre done => on_file_ready d s id total path off pre done
  | FileProgress total path off pre done active => on_file_progress d s total path off pre done active
  | FileError e => on_file_error s e
  | ChunkFlushed r => on_chunk_flushed d s r
  | HeadersFlushed r => on_headers_flushed s r
  | Timeout => timeout_expired s
  end.

End Stream.

(** ** Facts *)

Import Cursor Stream.

#[local] Arguments lit _ : simpl never.
#[local] Arguments head_text : simpl never.
#[local] Arguments Writer.json_encode : simpl never.
#[local] Arguments Answer.json_query_error : simpl never.
#[local] Arguments Cursor.update_progress : simpl never.
#[local] Arguments Cursor.commit : simpl never.
#[local] Arguments Cursor.next_read_size : simpl never.
#[local] Arguments Z.sub : simpl never.

(** The head of a streaming response. *)
Definition stream_headers (total_size : Z) : list (bytes * bytes) :=
  [(lit "Connection", lit "keep-alive"); (lit "Content-Type", lit "application/octet-stream");
   (lit "Content-Length", Integers.print_uint total_size); (lit "Content-Disposition", lit "attachment");
   (lit "Cache-Control", lit "private")].

Lemma stream_head_fits total : len (head_text 200 (stream_headers total)) <= 4066.
Proof.
  rewrite head_text_length. pose proof (status_line_length 200). pose proof (print_int_length 200).
  pose proof (print_uint_length total). unfold stream_headers. cbn [foldr fst snd].
  change (len (lit "Connection")) with 10. change (len (lit "keep-alive")) with 10.
  change (len (lit "Content-Type")) with 12. change (len (lit "application/octet-stream")) with 24.
  change (len (lit "Content-Length")) with 14. change (len (lit "Content-Disposition")) with 19.
  change (len (lit "attachment")) with 10. change (len (lit "Cache-Control")) with 13.
  change (len (lit "private")) with 7. lia.
Qed.

Lemma stream_head_ok total : stream_head total = Ok (head_text 200 (stream_headers total)).
Proof.
  rewrite <-(finish_fits 200 (stream_headers total)) by apply stream_head_fits.
  unfold stream_headers. cbn [foldl].
  unfold stream_head, Header.set_keep_alive, Header.set_content_type, Header.set_content_size. reflexivity.
Qed.

Definition error_headers (size : Z) : list (bytes * bytes) :=
  [(lit "Content-Type", lit "application/json"); (lit "Content-Length", Integers.print_uint size)].

Lemma error_head_fits code size : len (head_text code (error_headers size)) <= 4066.
Proof.
  rewrite head_text_length. pose proof (status_line_length code). pose proof (print_int_length code).
  pose proof (print_uint_length size). unfold error_headers. cbn [foldr fst snd].
  change (len (lit "Content-Type")) with 12. change (len (lit "application/json")) with 16.
  change (len (lit "Content-Length")) with 14. lia.
Qed.

Lemma error_head_ok code size :
  Header.finish (Header.set_content_size (Header.set_content_type (Header.init_status_line code) (lit "application/json")) size) []
  = Ok (head_text code (error_headers size)).
Proof.
  rewrite <-(finish_fits code (error_headers size)) by apply error_head_fits.
  unfold error_headers. cbn [foldl]. unfold Header.set_content_type, Header.set_content_size. reflexivity.
Qed.

(** *** Views of the trace of effects *)

Definition conn_of (e : effect) : option conn_action := match e with Conn a => Some a | _ => None end.
Definition conns (l : list effect) : list conn_action := omap conn_of l.

Definition retain_delta (p : bytes) (e : effect) : Z :=
  match e with
  | RetainFile q => if bool_decide (q = p) then 1 else 0
  | ReleaseFile q => if bool_decide (q = p) then -1 else 0
  | _ => 0
  end.
(** The references to a path the actor holds in the cleanup manager. *)
Definition retained (p : bytes) (l : list effect) : Z := foldl (fun n e => n + retain_delta p e) 0 l.

Definition redownloads (l : list effect) : Z :=
  foldl (fun n e => match e with RequestFileRedownload _ => n + 1 | _ => n end) 0 l.

(** The timeout of the actor. *)
Definition timer (l : list effect) : option time :=
  foldl (fun t e => match e with SetTimeoutIn x => Some x | CancelTimeout => None | _ => t end) None l.

Lemma conns_snoc l e : conns (l ++ [e]) = conns l ++ match conn_of e with Some a => [a] | None => [] end.
Proof. unfold conns. rewrite omap_app. cbn. by destruct (conn_of e). Qed.
Lemma retained_snoc p l e : retained p (l ++ [e]) = retained p l + retain_delta p e.
Proof. unfold retained. by rewrite foldl_app. Qed.
Lemma redownloads_snoc l e :
  redownloads (l ++ [e]) = match e with RequestFileRedownload _ => redownloads l + 1 | _ => redownloads l end.
Proof. unfold redownloads. by rewrite foldl_app. Qed.
Lemma timer_snoc l e :
  timer (l ++ [e]) = match e with SetTimeoutIn x => Some x | CancelTimeout => None | _ => timer l end.
Proof. unfold timer. by rewrite foldl_app. Qed.

Ltac views :=
  repeat progress (unfold write, emit; cbn [out set_out set_stream_id set_connection set_client_manager set_cleanup_manager set_client
    set_route set_config set_file_id set_local_path set_local_file set_cursor set_headers_sent set_read_in_flight
    set_write_in_flight set_download_completed set_first_byte_sent set_completed_ok set_redownload_requested
    set_pending_write_offset set_pending_write_size set_finished
    stream_id connection client_manager cleanup_manager client route config file_id local_path local_file cursor
    headers_sent read_in_flight write_in_flight download_completed first_byte_sent completed_ok redownload_requested
    pending_write_offset pending_write_size finished] in *;
    rewrite ?conns_snoc, ?retained_snoc, ?redownloads_snoc, ?timer_snoc, ?app_nil_r in *;
    cbn [conn_of retain_delta] in * ).

(** *** The invariant *)

Definition is_body (a : conn_action) : Prop := match a with WriteNext _ | TouchActivity => True | _ => False end.

(** What the connection was told while a body is being sent: the head that
    announces [total] bytes, then a prefix of the content. *)
Definition body_sent (content : bytes) (total : Z) (n : Z) (l : list conn_action) : Prop :=
  exists k, l = WriteNext (head_text 200 (stream_headers total)) :: k /\ Forall is_body k
  /\ bytes_of k = take (Z.to_nat n) content /\ len (bytes_of k) = n /\ n <= total.

(** The complete answer to a request for a file of [total] bytes. *)
Inductive answered (content : bytes) (total : Z) : list conn_action -> bool -> Prop :=
| answered_error code message c :
    400 <= code <= 599 -> Writer.json_encode (Answer.json_query_error code message []) = Some c ->
    answered content total
      [WriteNextNoflush (head_text code (error_headers (len c)));
       WriteNextNoflush c; WriteOk] false
| answered_aborted n l e :
    body_sent content total n l -> answered content total (l ++ [WriteError e]) false
| answered_complete l :
    body_sent content total total l -> answered content total (l ++ [WriteOk]) true.

(** The counts of references and of requests for a new download. *)
Definition balanced (s : stream) : Prop :=
  redownloads (out s) = (if redownload_requested s then 1 else 0)
  /\ forall p, retained p (out s) = if cleanup_manager s && negb (bool_decide (local_path s = [])) && bool_decide (local_path s = p)
                                    then 1 else 0.

(** A stream that can still answer. *)
Definition live (content : bytes) (s : stream) : Prop :=
  finished s = false /\ connection s = true /\ completed_ok s = false /\ timer (out s) <> None
  /\ if headers_sent s then exists n, body_sent content (total_size (cursor s)) n (conns (out s)) else conns (out s) = [].

Definition pending (s : stream) : Z := if write_in_flight s then pending_write_size s else 0.

Definition progress_ok (content : bytes) (s : stream) : Prop :=
  let c := cursor s in
  (if write_in_flight s then pending_write_offset s = next_offset c /\ 0 < pending_write_size s
     /\ next_offset c + pending_write_size s <= total_size c /\ headers_sent s = true else True)
  /\ (if headers_sent s then 0 <= total_size c /\ cursor_ok c /\ body_sent content (total_size c) (next_offset c + pending s) (conns (out s))
      else conns (out s) = [] /\ next_offset c = 0
           /\ (c = empty_cursor \/ (0 <= total_size c /\ cursor_ok c))).

Definition done (content : bytes) (s : stream) : Prop :=
  finished s = true /\ connection s = false /\ timer (out s) = None /\ answered content (total_size (cursor s)) (conns (out s)) (completed_ok s).

Definition stream_inv (content : bytes) (s : stream) : Prop :=
  read_in_flight s = false /\ balanced s /\ ((live content s /\ progress_ok content s) \/ done content s).

(** *** The ends of a stream *)

Lemma fail_unsent_inv content s code message s' :
  read_in_flight s = false -> balanced s -> live content s -> headers_sent s = false -> 400 <= code <= 599 ->
  fail_unsent s code message = Some s' -> stream_inv content s'.
Proof.
  intros Hr [Hb1 Hb2] (Hf & Hc & Hk & Ht & Hs) Hh Hcode. rewrite Hh in Hs. unfold fail_unsent.
  destruct (Writer.json_encode _) as [c|] eqn:E; [|discriminate]. cbn [mbind option_bind].
  rewrite error_head_ok. intros [= <-]. split; [|split; [|right]].
  - by views.
  - split; [by views|]. intros p. views. rewrite Hb2. lia.
  - unfold done. views. rewrite Hs, Hk. cbn [app]. split_and!; try done.
    by apply (answered_error content _ code message c).
Qed.

Lemma abort_sent_inv content s e :
  read_in_flight s = false -> balanced s -> live content s -> headers_sent s = true ->
  stream_inv content (abort_sent s e).
Proof.
  intros Hr [Hb1 Hb2] (Hf & Hc & Hk & Ht & Hs) Hh. rewrite Hh in Hs. destruct Hs as (n & Hs).
  unfold abort_sent. assert (connection (emit (set_finished s true) CancelTimeout) = true) as -> by by views.
  split; [|split; [|right]].
  - by views.
  - split; [by views|]. intros p. views. rewrite Hb2. lia.
  - unfold done. views. rewrite Hk. split_and!; try done. by apply (answered_aborted content _ n).
Qed.

Lemma fail_inv content s code message s' :
  read_in_flight s = false -> balanced s -> live content s -> 400 <= code <= 599 ->
  fail s code message = Some s' -> stream_inv content s'.
Proof.
  intros Hr Hb Hl Hc. unfold fail. rewrite (proj1 Hl). destruct (headers_sent s) eqn:E.
  - intros [= <-]. by apply abort_sent_inv.
  - by apply fail_unsent_inv.
Qed.

Lemma abort_inv content s e s' :
  read_in_flight s = false -> balanced s -> live content s -> abort s e = Some s' -> stream_inv content s'.
Proof.
  intros Hr Hb Hl. unfold abort. rewrite (proj1 Hl). cbn zeta.
  destruct (headers_sent s) eqn:E; cbn [negb]; [intros [= <-]; by apply abort_sent_inv|].
  apply fail_inv; try done. destruct (_ || _) eqn:Ec; [lia|]. apply orb_false_iff in Ec. lia.
Qed.

Lemma on_file_error_inv content s e s' :
  stream_inv content s -> on_file_error s e = Some s' -> stream_inv content s'.
Proof.
  intros Hi. destruct (Hi) as (Hr & Hb & [[Hl Hp]|Hd]); unfold on_file_error.
  - rewrite (proj1 Hl). cbn zeta. destruct (headers_sent s) eqn:E; cbn [negb].
    + by apply abort_inv.
    + apply fail_inv; try done. destruct (_ || _) eqn:Ec; [lia|]. apply orb_false_iff in Ec. lia.
  - rewrite (proj1 Hd). by intros [= <-].
Qed.

Lemma body_sent_nil content total : 0 <= total ->
  body_sent content total 0 [WriteNext (head_text 200 (stream_headers total))].
Proof. intros. exists []. by split_and!; try constructor. Qed.

Lemma body_sent_touch content total n l : body_sent content total n l -> body_sent content total n (l ++ [TouchActivity]).
Proof.
  intros (k & -> & H1 & H2 & H3 & H4). exists (k ++ [TouchActivity]). unfold bytes_of in *.
  rewrite bind_app, app_nil_r. split_and!; try done. apply Forall_app. by repeat constructor.
Qed.

Lemma body_sent_chunk content total n l data : body_sent content total n l -> 0 <= n ->
  data = take (length data) (drop (Z.to_nat n) content) -> n + len data <= total ->
  body_sent content total (n + len data) (l ++ [WriteNext data]).
Proof.
  intros (k & -> & H1 & H2 & H3 & H4) Hn Hd Ht. exists (k ++ [WriteNext data]). unfold bytes_of in *.
  rewrite bind_app. cbn [mbind list_bind action_bytes]. rewrite app_nil_r, len_app, H3. split_and!; try done.
  - apply Forall_app. by repeat constructor.
  - rewrite H2. rewrite Z2Nat.inj_add by (unfold len; lia).
    assert (Z.to_nat (len data) = length data) as -> by (unfold len; lia).
    rewrite Hd at 1. by rewrite take_take_drop.
Qed.

Lemma wrap_total z : 0 <= z <= int64_max -> wrap 64 z = z.
Proof. intros. apply wrap_small. unfold int64_max in *. lia. Qed.

(** The state of a live stream whose size is known, with nothing in flight. *)
Definition ready (content : bytes) (s : stream) : Prop :=
  read_in_flight s = false /\ balanced s /\ live content s /\ progress_ok content s.

Lemma ready_inv content s : ready content s -> stream_inv content s.
Proof. intros (? & ? & ? & ?). split_and!; auto. Qed.

(** Sending the head on a stream that has written nothing yet. *)
Lemma send_headers_ok s : 0 <= total_size (cursor s) <= int64_max ->
  send_headers s = Some (true, if headers_sent s then s
    else write (set_headers_sent s true) (WriteNext (head_text 200 (stream_headers (total_size (cursor s)))))).
Proof.
  intros H. unfold send_headers. destruct (headers_sent s); [done|].
  by rewrite wrap_total, stream_head_ok.
Qed.

Lemma finish_inv content s s' :
  ready content s -> write_in_flight s = false -> is_complete (cursor s) = true ->
  finish s = Some s' -> stream_inv content s' /\ done content s' /\ completed_ok s' = true /\ cursor s' = cursor s.
Proof.
  intros (Hr & [Hb1 Hb2] & Hl & Hp) Hw Hc. unfold finish. destruct Hl as (Hf & Hcn & Hk & Ht & Hs).
  rewrite Hf, Hc, Hr, Hw. cbn [negb orb].
  unfold is_complete in Hc. apply andb_true_iff in Hc as [Hc1 Hc2]. apply Z.leb_le in Hc1. apply Z.eqb_eq in Hc2.
  unfold progress_ok, pending in Hp. rewrite Hw in Hp. destruct Hp as [_ Hp].
  assert (Hmax : total_size (cursor s) <= int64_max).
  { destruct (headers_sent s); [unfold cursor_ok in Hp; tauto|]. destruct Hp as (_ & _ & [E|[_ ?]]).
    - rewrite E in Hc1. cbn in Hc1. lia.
    - unfold cursor_ok in *. tauto. }
  rewrite send_headers_ok by lia. cbn [mbind option_bind negb].
  assert (Hcn' : forall b, connection (emit (set_completed_ok (set_finished (if b : bool then s
      else write (set_headers_sent s true) (WriteNext (head_text 200 (stream_headers (total_size (cursor s)))))) true) true) CancelTimeout) = true)
    by (intros []; by views).
  rewrite Hcn'. intros [= <-].
  enough (Hd : done content
   (emit (set_connection (write (emit (set_completed_ok (set_finished (if headers_sent s then s
      else write (set_headers_sent s true) (WriteNext (head_text 200 (stream_headers (total_size (cursor s)))))) true) true) CancelTimeout) WriteOk) false) Stop)).
  { split; [|split; [done|by destruct (headers_sent s); views]]. split; [|split; [|by right]].
    - by destruct (headers_sent s); views.
    - destruct (headers_sent s); (split; [by views|]); intros p; views; rewrite Hb2; lia. }
  unfold done. destruct (headers_sent s); views; split_and!; try done.
  - destruct Hp as (_ & _ & Hp). rewrite Hc2, Z.add_0_r in Hp. by apply (answered_complete content (total_size (cursor s))).
  - destruct Hp as (-> & Hn & _). cbn [app]. apply (answered_complete content (total_size (cursor s)) [_]).
    replace (total_size (cursor s)) with 0 by lia. by apply body_sent_nil.
Qed.

(** *** The steps that keep a stream ready *)

(** The fields the invariant reads. *)
Definition core (s : stream) :=
  (read_in_flight s, redownload_requested s, cleanup_manager s, local_path s, (finished s, connection s, completed_ok s),
   (headers_sent s, write_in_flight s, pending_write_offset s, pending_write_size s), cursor s, out s).

Lemma ready_ext content s s' : core s = core s' -> ready content s -> ready content s'.
Proof.
  unfold core, ready, balanced, live, progress_ok, pending.
  intros [= -> -> -> -> -> -> -> -> -> -> -> -> ->]. done.
Qed.

(** Effects that are not part of the answer. *)
Definition aside (e : effect) : Prop :=
  match e with SetTimeoutIn _ | RetainFile _ | ReleaseFile _ | RequestFileRedownload _ | OnFileStreamTimeout _ => True | _ => False end.

Lemma aside_views l k : Forall aside k -> conns (l ++ k) = conns l /\ (timer l <> None -> timer (l ++ k) <> None).
Proof.
  intros Hk. revert l. induction Hk as [|e k He _ IH]; intros l; [by rewrite app_nil_r|].
  replace (l ++ e :: k) with ((l ++ [e]) ++ k) by by rewrite <-(assoc_L _).
  destruct (IH (l ++ [e])) as [-> Ht]. rewrite conns_snoc, timer_snoc in *.
  destruct e; cbn in He; try done; cbn [conn_of]; rewrite app_nil_r; (split; [done|]); intros H; by apply Ht.
Qed.

Lemma ready_aside content s s' k : Forall aside k -> out s' = out s ++ k ->
  (read_in_flight s', finished s', connection s', completed_ok s', headers_sent s', write_in_flight s',
   pending_write_offset s', pending_write_size s', cursor s')
  = (read_in_flight s, finished s, connection s, completed_ok s, headers_sent s, write_in_flight s,
     pending_write_offset s, pending_write_size s, cursor s) ->
  balanced s' -> ready content s -> ready content s'.
Proof.
  intros Hk Ho [= E1 E2 E3 E4 E5 E6 E7 E8 E9] Hb (Hr & _ & (Hf & Hc & Hco & Ht & Hs) & Hp).
  destruct (aside_views (out s) k Hk) as [Hv Htm]. unfold ready, live, progress_ok, pending in *.
  rewrite Ho, E1, E2, E3, E4, E5, E6, E7, E8, E9, Hv in *. auto 10.
Qed.

Lemma ready_timeout content s t : ready content s -> ready content (emit s (SetTimeoutIn t)).
Proof.
  intros H. apply (ready_aside content s _ [SetTimeoutIn t]); [by repeat constructor|done|done| |done].
  destruct H as (_ & [Hb1 Hb2] & _). split; [by views|]. intros p. views. rewrite Hb2. lia.
Qed.

Lemma ready_redownload content s : ready content s -> ready content (request_file_redownload s).
Proof.
  intros H. unfold request_file_redownload.
  destruct (redownload_requested s) eqn:E; cbn [orb]; [done|]. case_bool; [done|].
  eapply (ready_aside content s _ [_]); [|reflexivity|done| |done]; [by repeat constructor|].
  destruct H as (_ & [Hb1 Hb2] & _). split; [views; rewrite E in Hb1; lia|].
  intros p. views. rewrite Hb2. lia.
Qed.

Definition held (s : stream) (p : bytes) : Z :=
  if cleanup_manager s && negb (bool_decide (local_path s = [])) && bool_decide (local_path s = p) then 1 else 0.

Lemma change_local_path_out s path : exists k, Forall aside k /\ out (change_local_path s path) = out s ++ k
  /\ (forall p, path <> [] -> retained p (out s) = held s p ->
       retained p (out s ++ k) = held (change_local_path s path) p)
  /\ redownloads (out s ++ k) = redownloads (out s).
Proof.
  unfold change_local_path, held. rewrite andb_comm. destruct (cleanup_manager s) eqn:E; cbn [andb].
  - destruct (decide (local_path s = [])) as [El|El].
    + rewrite bool_decide_true by done. cbn [negb]. views. rewrite E. views. rewrite E.
      exists [RetainFile path]. split; [by repeat constructor|]. split; [done|]. split; [|by views].
      intros p Hne Hp. views. rewrite Hp, (bool_decide_false (path = [])) by done. cbn [negb andb].
      by destruct (bool_decide (path = p)).
    + rewrite bool_decide_false by done. cbn [negb]. views. rewrite E. views. rewrite E.
      exists [ReleaseFile (local_path s); RetainFile path]. split; [by repeat constructor|].
      assert (Ek : out s ++ [ReleaseFile (local_path s); RetainFile path]
        = (out s ++ [ReleaseFile (local_path s)]) ++ [RetainFile path]) by by rewrite <-(assoc_L _).
      rewrite Ek. split; [done|]. split; [|by views].
      intros p Hne Hp. views. rewrite Hp, (bool_decide_false (path = [])) by done. cbn [negb andb].
      destruct (bool_decide (local_path s = p)), (bool_decide (path = p)); done.
  - views. rewrite E. views. rewrite E. exists []. rewrite app_nil_r. by split_and!; try constructor.
Qed.

Lemma change_local_path_core s path :
  (read_in_flight (change_local_path s path), finished (change_local_path s path), connection (change_local_path s path),
   completed_ok (change_local_path s path), headers_sent (change_local_path s path), write_in_flight (change_local_path s path),
   pending_write_offset (change_local_path s path), pending_write_size (change_local_path s path), cursor (change_local_path s path))
  = (read_in_flight s, finished s, connection s, completed_ok s, headers_sent s, write_in_flight s,
     pending_write_offset s, pending_write_size s, cursor s)
  /\ redownload_requested (change_local_path s path) = redownload_requested s
  /\ config (change_local_path s path) = config s.
Proof. unfold change_local_path. by destruct (negb _ && _); views; destruct (cleanup_manager s) eqn:E; views. Qed.

Lemma ready_change_path content s path : path <> [] -> ready content s -> ready content (change_local_path s path).
Proof.
  intros Hne H. destruct (change_local_path_out s path) as (k & Hk & Ho & Hr & Hd).
  destruct (change_local_path_core s path) as (Hc & Hq & _).
  apply (ready_aside content s _ k); try done. destruct H as (_ & [Hb1 Hb2] & _). unfold balanced.
  rewrite Ho, Hq, Hd. split; [done|]. intros p. by apply Hr.
Qed.

Lemma path_changes_spec s path : path_changes s path = true -> path <> [] /\ local_path s <> path.
Proof.
  unfold path_changes. rewrite andb_true_iff, !negb_true_iff, !bool_decide_eq_false. done.
Qed.

Lemma ready_cursor content s c : ready content s -> cursor_ok c -> total_size c = total_size (cursor s) ->
  next_offset c = next_offset (cursor s) -> 0 <= total_size (cursor s) -> ready content (set_cursor s c).
Proof.
  intros (Hr & Hb & Hl & Hp) Hc Ht Hn H0. split; [done|]. split; [done|].
  split; [unfold live in *; views; by rewrite Ht|].
  unfold progress_ok, pending in *. cbn zeta in *. views. rewrite Ht, Hn. destruct Hp as [Hp1 Hp2]. split.
  - destruct (write_in_flight s); [|done]. tauto.
  - destruct (headers_sent s); [tauto|]. destruct Hp2 as (? & ? & _). split_and!; try done. by right.
Qed.

Lemma ready_cursor_ok content s : ready content s -> 0 <= total_size (cursor s) -> cursor_ok (cursor s).
Proof.
  intros (_ & _ & _ & _ & Hp) H0. destruct (headers_sent s); [tauto|].
  destruct Hp as (_ & _ & [E|[_ ?]]); [|done]. rewrite E in H0. cbn in H0. lia.
Qed.

Lemma cursor_ok_end0 c : cursor_ok c -> next_offset c = 0 -> cursor_ok (with_end c 0).
Proof. unfold cursor_ok. cbn. lia. Qed.

Lemma ready_drop_stale content s : ready content s -> 0 <= total_size (cursor s) ->
  ready content (drop_stale_download_state s).
Proof.
  intros H H0. unfold drop_stale_download_state. apply ready_timeout.
  assert (Hs : ready content (set_local_file (set_download_completed s false) false)) by by eapply ready_ext.
  pose proof (ready_cursor_ok _ _ Hs H0). case_bool; [|done]. apply Z.eqb_eq in Heqb.
  apply ready_cursor; try done. by apply cursor_ok_end0.
Qed.

(** *** Reading and writing one chunk *)

(** The disk returns bytes of the file. *)
Definition honest (content : bytes) (d : disk) : Prop :=
  forall path off n data, 0 <= off -> pread d path off n = Ok data ->
    data = take (length data) (drop (Z.to_nat off) content).

Lemma next_read_pos c k : 0 < next_read_size c k ->
  0 <= total_size c /\ next_offset c + next_read_size c k <= total_size c
  /\ next_offset c + next_read_size c k <= contiguous_end c.
Proof. unfold next_read_size. case_bool; lia. Qed.

Lemma body_sent_bound content total n l : body_sent content total n l -> 0 <= n <= total.
Proof. intros (k & _ & _ & _ & <- & ?). split; [apply len_nonneg|done]. Qed.

(** A live stream that has sent what the cursor says, or nothing yet. *)
Lemma ready_body content s : ready content s -> write_in_flight s = false -> 0 <= total_size (cursor s) ->
  cursor_ok (cursor s) /\ (if headers_sent s then body_sent content (total_size (cursor s)) (next_offset (cursor s)) (conns (out s))
    else conns (out s) = [] /\ next_offset (cursor s) = 0).
Proof.
  intros H Hw H0. split; [by eapply ready_cursor_ok|]. destruct H as (_ & _ & _ & Hp).
  unfold progress_ok, pending in Hp. cbn zeta in Hp. rewrite Hw, Z.add_0_r in Hp.
  destruct (headers_sent s); tauto.
Qed.

Lemma on_file_data_inv content s data s' :
  ready content s -> write_in_flight s = false -> 0 <= total_size (cursor s) ->
  data = take (length data) (drop (Z.to_nat (next_offset (cursor s))) content) ->
  on_file_data s (next_offset (cursor s)) (Ok data) = Some s' -> stream_inv content s'.
Proof.
  intros H Hw H0 Hd. destruct (ready_body _ _ H Hw H0) as [Hok Hb].
  assert (Hs : ready content (set_read_in_flight s false)).
  { eapply ready_ext; [|exact H]. unfold core. views. by rewrite (proj1 H). }
  unfold on_file_data. cbn zeta. assert (finished (set_read_in_flight s false) = false) as -> by apply Hs.
  change (cursor (set_read_in_flight s false)) with (cursor s).
  change (effective_chunk_size (set_read_in_flight s false)) with (effective_chunk_size s).
  destruct (negb _ || _) eqn:E; [destruct Hs as (? & ? & ? & ?); by apply abort_inv|].
  apply orb_false_iff in E as [E1 E2]. apply negb_false_iff, Z.eqb_eq in E1. apply bool_decide_eq_false in E2.
  assert (Hpos : 0 < len data) by (destruct data; [done|]; rewrite len_cons; pose proof (len_nonneg data); lia).
  rewrite E1 in Hpos. destruct (next_read_pos _ _ Hpos) as (_ & Hle & _). rewrite <-E1 in Hle, Hpos.
  rewrite send_headers_ok by (views; unfold cursor_ok in Hok; lia). cbn [mbind option_bind negb].
  intros [= <-]. split; [|split; [|left; split]].
  - by destruct (headers_sent _) eqn:Eh; views.
  - destruct Hs as (_ & [Hb1 Hb2] & _). views. split.
    + by destruct (headers_sent s); views.
    + intros p. specialize (Hb2 p). views. destruct (headers_sent s); views; rewrite Hb2; lia.
  - destruct Hs as (_ & _ & (Hf & Hc & Hk & Ht & _) & _). views. destruct (headers_sent s) eqn:Eh; views.
    + unfold live. views. rewrite Eh. split_and!; try done. exists (next_offset (cursor s) + len data).
      apply body_sent_chunk; try done. unfold cursor_ok in Hok. lia.
    + unfold live. views. split_and!; try done. destruct Hb as [-> Hn]. exists (0 + len data).
      apply body_sent_chunk; [by apply body_sent_nil|done|by rewrite Hn in Hd|lia].
  - unfold progress_ok, pending. cbn zeta. views. destruct (headers_sent s) eqn:Eh; views.
    + rewrite Eh. split_and!; try done. apply body_sent_chunk; try done. unfold cursor_ok in Hok. lia.
    + destruct Hb as [-> Hn]. split_and!; try done.
      rewrite Hn in *. apply body_sent_chunk; [by apply body_sent_nil|done|done|done].
Qed.

Lemma read_chunk_inv content d s count s' :
  ready content s -> write_in_flight s = false -> honest content d -> 0 <= total_size (cursor s) ->
  read_chunk d s count = Some s' -> stream_inv content s'.
Proof.
  intros H Hw Hd H0. destruct (ready_body _ _ H Hw H0) as [Hok _].
  unfold read_chunk. cbn zeta. change (local_path (set_read_in_flight s true)) with (local_path s).
  change (cursor (set_read_in_flight s true)) with (cursor s).
  change (download_completed (set_read_in_flight (set_read_in_flight s true) false)) with (download_completed s).
  assert (Hs : ready content (set_read_in_flight (set_read_in_flight s true) false)).
  { eapply ready_ext; [|exact H]. unfold core. views. by rewrite (proj1 H). }
  destruct (pread d _ _ _) as [data|e] eqn:E.
  - apply Hd in E; [|unfold cursor_ok in Hok; lia].
    destruct (len data =? count); cbn [negb].
    + intros Ho. apply (on_file_data_inv content s data); done.
    + destruct (download_completed s); cbn [negb]; [destruct Hs as (? & ? & ? & ?); by apply abort_inv|].
      intros [= <-]. apply ready_inv. by eapply ready_ext.
  - destruct Hs as (? & ? & ? & ?). by apply abort_inv.
Qed.

Lemma try_read_inv content d s s' : ready content s -> honest content d -> try_read d s = Some s' -> stream_inv content s'.
Proof.
  intros H Hd. unfold try_read.
  destruct (finished s || read_in_flight s || write_in_flight s || (total_size (cursor s) <? 0)) eqn:E.
  { intros [= <-]. by apply ready_inv. }
  rewrite !orb_false_iff in E. destruct E as [[[_ _] Hw] H0]. apply Z.ltb_ge in H0.
  destruct (is_complete (cursor s)) eqn:Ec; [intros Hf; by eapply (finish_inv content s)|].
  case_bool; [intros [= <-]; by apply ready_inv|].
  pose proof H as (Hr & Hb & Hl & _).
  case_bool; [by apply abort_inv|]. case_bool; [intros [= <-]; by apply ready_inv|].
  destruct (local_file s); [by apply read_chunk_inv|].
  destruct (open_file d (local_path s)) as [u|e].
  - by apply read_chunk_inv.
  - case_bool; [intros [= <-]; by apply ready_inv|]. case_bool; [by apply abort_inv|].
    intros [= <-]. apply ready_inv, ready_redownload, ready_drop_stale; done.
Qed.

(** *** The handlers *)

Lemma inv_cases content s : stream_inv content s -> (finished s = false /\ ready content s) \/ (finished s = true /\ done content s).
Proof.
  intros (Hr & Hb & [[Hl Hp]|Hd]); [left|right]; [split; [apply Hl|done]|split; [apply Hd|done]].
Qed.

Lemma ready_first_cursor content s c : ready content s -> cursor s = empty_cursor -> cursor_ok c -> next_offset c = 0 ->
  ready content (set_cursor s c).
Proof.
  intros (Hr & Hb & Hl & Hp) He Hc Hn. unfold progress_ok, pending in Hp. cbn zeta in Hp. rewrite He in Hp.
  destruct Hp as [Hp1 Hp2]. destruct (headers_sent s) eqn:Eh; [destruct Hp2 as [H _]; cbn in H; lia|].
  destruct (write_in_flight s) eqn:Ew; [destruct Hp1 as (_ & _ & _ & ?); done|].
  split; [done|]. split; [done|]. split; [unfold live in *; views; by rewrite Eh in *|].
  unfold progress_ok. cbn zeta. views. rewrite Eh, Ew.
  split_and!; try done; [apply Hp2|]. right. unfold cursor_ok in Hc. split; [lia|done].
Qed.

Lemma on_file_ready_inv content d s id total path off pre fin s' :
  stream_inv content s -> finished s = true \/ cursor s = empty_cursor -> honest content d -> total <= int64_max ->
  on_file_ready d s id total path off pre fin = Some s' -> stream_inv content s'.
Proof.
  intros Hi He Hd Ht. unfold on_file_ready. destruct (finished s) eqn:Ef; [by intros [= <-]|].
  destruct He as [?|He]; [done|]. destruct (inv_cases _ _ Hi) as [[_ H]|[? _]]; [|congruence].
  destruct ((id <=? 0) || (total <? 0)) eqn:E0.
  { destruct H as (? & ? & ? & ?). by apply fail_inv. }
  apply orb_false_iff in E0 as [_ E0]. apply Z.ltb_ge in E0. cbn zeta.
  assert (H1 : ready content (set_file_id s id)) by by eapply ready_ext.
  set (s1 := if path_changes (set_file_id s id) path then _ else _).
  assert (H2 : ready content s1 /\ cursor s1 = empty_cursor).
  { subst s1. destruct (path_changes _ path) eqn:Ep; [|done]. apply path_changes_spec in Ep as [? ?].
    split; [by apply ready_change_path|]. destruct (change_local_path_core (set_file_id s id) path) as [[= _ _ _ _ _ _ _ _ ->] _]. done. }
  clearbody s1. destruct H2 as [H2 Hc]. pose proof H2 as (Hr2 & Hb2 & Hl2 & _).
  destruct (uint64_max <? total); [by apply fail_inv|]. destruct (_ && _); [by apply fail_inv|].
  set (s3 := emit s1 (SetTimeoutIn (first_byte_timeout (config s1)))).
  assert (H3 : ready content s3) by by apply ready_timeout.
  assert (Hc3 : cursor s3 = empty_cursor) by exact Hc. clearbody s3.
  assert (Hok : cursor_ok (with_total (cursor s3) total)) by (rewrite Hc3; unfold cursor_ok; cbn; lia).
  pose proof (ready_first_cursor content s3 _ H3 Hc3 Hok ltac:(by rewrite Hc3)) as H4. views.
  destruct (update_progress (with_total (cursor s3) total) off pre fin) as [c|e] eqn:Eu.
  2:{ destruct H4 as (? & ? & ? & ?). by apply fail_inv. }
  destruct (update_progress_ok _ _ _ _ _ Hok Eu) as (Hok' & Htot & Hnext & _).
  assert (H5 : ready content (set_download_completed (set_cursor (set_cursor s3 (with_total (cursor s3) total)) c) fin)).
  { eapply ready_ext; [|apply (ready_first_cursor content s3 c H3 Hc3 Hok')]; [done|]. by rewrite Hnext, Hc3. }
  destruct (fin && _); [destruct H5 as (? & ? & ? & ?); by apply fail_inv|].
  by apply try_read_inv.
Qed.

Lemma drop_stale_cursor s :
  total_size (cursor (drop_stale_download_state s)) = total_size (cursor s)
  /\ next_offset (cursor (drop_stale_download_state s)) = next_offset (cursor s).
Proof. unfold drop_stale_download_state. views. by case_bool; views. Qed.

Lemma redownload_cursor s : cursor (request_file_redownload s) = cursor s.
Proof. unfold request_file_redownload. by case_bool. Qed.

Lemma on_file_progress_inv content d s total path off pre fin active s' :
  stream_inv content s -> honest content d ->
  on_file_progress d s total path off pre fin active = Some s' -> stream_inv content s'.
Proof.
  intros Hi Hd. unfold on_file_progress. destruct (inv_cases _ _ Hi) as [[Ef H]|[Ef _]]; rewrite Ef; [|by intros [= <-]].
  cbn [orb]. case_bool; [by intros [= <-]|]. apply Z.ltb_ge in Heqb.
  case_bool; [destruct H as (? & ? & ? & ?); by apply abort_inv|]. cbn zeta.
  set (s1 := if path_changes s path then _ else _).
  assert (H1 : ready content s1 /\ cursor s1 = cursor s).
  { subst s1. destruct (path_changes _ path) eqn:Ep; [|done]. apply path_changes_spec in Ep as [? ?].
    assert (ready content (set_local_file s false)) by by eapply ready_ext.
    split; [by apply ready_change_path|].
    by destruct (change_local_path_core (set_local_file s false) path) as [[= _ _ _ _ _ _ _ _ ->] _]. }
  clearbody s1. destruct H1 as [H1 Hc1].
  set (s2 := if download_completed s1 && negb fin then _ else _).
  assert (H2 : ready content s2 /\ total_size (cursor s2) = total_size (cursor s)).
  { subst s2. destruct (download_completed s1 && negb fin); [|by rewrite Hc1]. split.
    - apply ready_redownload, ready_drop_stale; [done|by rewrite Hc1].
    - rewrite redownload_cursor. by rewrite (proj1 (drop_stale_cursor s1)), Hc1. }
  clearbody s2. destruct H2 as [H2 Hc2]. rewrite <-Hc2 in Heqb.
  pose proof (ready_cursor_ok _ _ H2 Heqb) as Hok.
  destruct (update_progress (cursor s2) off pre fin) as [c|e] eqn:Eu.
  2:{ destruct H2 as (? & ? & ? & ?). by apply abort_inv. }
  destruct (update_progress_ok _ _ _ _ _ Hok Eu) as (Hok' & Htot & Hnext & _).
  set (s3 := set_download_completed _ _).
  assert (H3 : ready content s3).
  { subst s3. eapply ready_ext; [|apply (ready_cursor content s2 c); done]. done. }
  clearbody s3. pose proof H3 as (? & ? & ? & _).
  case_bool; [by apply abort_inv|]. case_bool; [by apply abort_inv|]. by apply try_read_inv.
Qed.

(** What the end of a write leaves: nothing is in flight. *)
Lemma flushed_live content s : ready content s -> live content (set_write_in_flight s false).
Proof. by intros (_ & _ & Hl & _). Qed.

Lemma on_chunk_flushed_inv content d s r s' :
  stream_inv content s -> write_in_flight s = true -> honest content d ->
  on_chunk_flushed d s r = Some s' -> stream_inv content s'.
Proof.
  intros Hi Hw Hd. unfold on_chunk_flushed. change (finished (set_write_in_flight s false)) with (finished s).
  destruct (inv_cases _ _ Hi) as [[Ef H]|[Ef Hdone]]; rewrite Ef.
  2:{ intros [= <-]. destruct Hi as (? & ? & _). split; [done|]. split; [done|]. by right. }
  pose proof H as (Hr & [Hb1 Hb2] & Hl & Hp). unfold progress_ok, pending in Hp. cbn zeta in Hp. rewrite Hw in Hp.
  destruct Hp as [(Ho & Hs & Hle & Hh) Hp]. rewrite Hh in Hp. destruct Hp as (H0 & Hok & Hbody).
  assert (Hl' : live content (set_write_in_flight s false)) by done.
  destruct r as [u|e]; [|by apply abort_inv]. views.
  destruct (commit (cursor s) (pending_write_offset s) (pending_write_size s)) as [c|e] eqn:Ec; [|by apply abort_inv].
  destruct (commit_ok _ _ _ _ Hok Ec) as (Hok' & _ & _ & Hnext & Htot & _).
  assert (Hcn : connection s = true) by apply Hl. rewrite Hcn. apply try_read_inv; [|done].
  apply (ready_timeout content). split; [done|]. split; [|split].
  - split; [by views|]. intros p. specialize (Hb2 p). views. rewrite Hb2. lia.
  - destruct Hl as (? & ? & ? & ? & ?). unfold live. views. split_and!; try done.
    rewrite Hh, Htot. exists (next_offset (cursor s) + pending_write_size s). by apply body_sent_touch.
  - unfold progress_ok, pending. cbn zeta. views. rewrite Hh, Hnext, Htot, Z.add_0_r. split; [done|]. split_and!; try done.
    by apply body_sent_touch.
Qed.

Lemma on_headers_flushed_inv content s r s' :
  stream_inv content s -> on_headers_flushed s r = Some s' -> stream_inv content s'.
Proof.
  intros Hi. unfold on_headers_flushed. destruct (inv_cases _ _ Hi) as [[Ef H]|[Ef _]]; rewrite Ef; [|by intros [= <-]].
  destruct r; [by intros [= <-]|]. destruct H as (? & ? & ? & ?). by apply abort_inv.
Qed.

Lemma aside_done content s e : aside e -> (match e with SetTimeoutIn _ => False | _ => True end) ->
  done content s -> done content (emit s e).
Proof.
  intros Ha Ht (? & ? & Htm & ?). unfold done. views. destruct e; try done; cbn [conn_of]; rewrite app_nil_r; by split_and!.
Qed.

Lemma timeout_inv content s s' : stream_inv content s -> timeout_expired s = Some s' -> stream_inv content s'.
Proof.
  intros Hi. unfold timeout_expired. cbn zeta. apply on_file_error_inv. destruct (client_manager s); [|done].
  destruct (inv_cases _ _ Hi) as [[Ef H]|[Ef Hd]].
  - apply ready_inv. eapply (ready_aside content s _ [_]); [|reflexivity|reflexivity| |exact H]; [by repeat constructor|].
    destruct H as (_ & [Hb1 Hb2] & _). split; [by views|]. intros p. specialize (Hb2 p). views. rewrite Hb2. lia.
  - destruct Hi as (Hr & [Hb1 Hb2] & _). split; [done|]. split; [|right; by apply aside_done].
    split; [by views|]. intros p. specialize (Hb2 p). views. rewrite Hb2. lia.
Qed.

(** *** Executions *)

(** What the other actors guarantee: the file of the stream is resolved once, its
    size is an [int64], and the promise of a chunk is answered while it is in flight. *)
Definition admissible (s : stream) (resolved : bool) (e : event) : Prop :=
  match e with
  | FileReady _ total _ _ _ _ => resolved = false /\ total <= int64_max
  | ChunkFlushed _ => write_in_flight s = true
  | _ => True
  end.

Definition is_file_ready (e : event) : bool := match e with FileReady _ _ _ _ _ _ => true | _ => false end.

Inductive step (content : bytes) : stream * bool -> stream * bool -> Prop :=
| step_event d s resolved e s' :
    honest content d -> admissible s resolved e -> handle d s e = Some s' ->
    step content (s, resolved) (s', resolved || is_file_ready e).

Inductive reachable (content : bytes) (stream_id : Z) (cleanup : bool) (r : file_stream_route) (cfg : stream_config)
  : stream -> bool -> Prop :=
| reachable_start : reachable content stream_id cleanup r cfg (start_up (create stream_id cleanup r cfg)) false
| reachable_step s resolved s' resolved' :
    reachable content stream_id cleanup r cfg s resolved -> step content (s, resolved) (s', resolved') ->
    reachable content stream_id cleanup r cfg s' resolved'.

Lemma fail_unsent_finished s code m s' : fail_unsent s code m = Some s' -> finished s' = true.
Proof.
  unfold fail_unsent. destruct (Writer.json_encode _); [|done]. cbn [mbind option_bind]. cbn zeta.
  rewrite error_head_ok. by intros [= <-].
Qed.

Lemma abort_sent_finished s e : finished (abort_sent s e) = true.
Proof. unfold abort_sent. views. by destruct (connection s). Qed.

Lemma fail_finished s code m s' : fail s code m = Some s' -> finished s' = true.
Proof.
  unfold fail. destruct (finished s) eqn:E; [by intros [= <-]|]. destruct (headers_sent s).
  - intros [= <-]. apply abort_sent_finished.
  - apply fail_unsent_finished.
Qed.

Lemma abort_finished s e s' : abort s e = Some s' -> finished s' = true.
Proof.
  unfold abort. destruct (finished s) eqn:E; [by intros [= <-]|]. cbn zeta. destruct (headers_sent s); cbn [negb].
  - intros [= <-]. apply abort_sent_finished.
  - apply fail_finished.
Qed.

Lemma on_file_error_finished s e s' : on_file_error s e = Some s' -> finished s' = true.
Proof.
  unfold on_file_error. destruct (finished s) eqn:E; [by intros [= <-]|]. cbn zeta. case_bool.
  - apply fail_finished.
  - apply abort_finished.
Qed.

(** The invariant of executions. *)
Definition exec_inv (content : bytes) (s : stream) (resolved : bool) : Prop :=
  stream_inv content s /\ (resolved = false -> finished s = true \/ cursor s = empty_cursor).

Lemma handle_inv content d s resolved e s' :
  exec_inv content s resolved -> honest content d -> admissible s resolved e -> handle d s e = Some s' ->
  exec_inv content s' (resolved || is_file_ready e).
Proof.
  intros [Hi He] Hd Ha Hh. split.
  - destruct e; cbn [handle admissible] in *.
    + injection Hh as <-. destruct Hi as (? & ? & ?). done.
    + destruct Ha as [-> Ht]. eapply on_file_ready_inv; eauto.
    + eapply on_file_progress_inv; eauto.
    + eapply on_file_error_inv; eauto.
    + eapply on_chunk_flushed_inv; eauto.
    + eapply on_headers_flushed_inv; eauto.
    + eapply timeout_inv; eauto.
  - destruct e; cbn [is_file_ready]; rewrite ?orb_true_r, ?orb_false_r; try done; intros Hr; specialize (He Hr);
      cbn [handle admissible] in *.
    + injection Hh as <-. done.
    + unfold on_file_progress in Hh. destruct (finished s) eqn:Ef; [injection Hh as <-; by left|].
      destruct He as [?|He]; [done|]. rewrite He in Hh. cbn [orb total_size empty_cursor] in Hh.
      injection Hh as <-. by right.
    + left. by eapply on_file_error_finished.
    + destruct Hi as (_ & _ & [[Hl Hp]|Hdn]).
      * exfalso. destruct He as [Hf|He]; [by rewrite (proj1 Hl) in Hf|].
        unfold progress_ok in Hp. cbn zeta in Hp. rewrite Ha, He in Hp. destruct Hp as [(_ & _ & _ & E) Hp].
        rewrite E in Hp. destruct Hp as [Hp _]. cbn in Hp. lia.
      * left. destruct Hdn as (Hf & _). unfold on_chunk_flushed in Hh.
        change (finished (set_write_in_flight s false)) with (finished s) in Hh. rewrite Hf in Hh. by injection Hh as <-.
    + unfold on_headers_flushed in Hh. destruct (finished s) eqn:Ef; [injection Hh as <-; by left|].
      destruct r; [injection Hh as <-; by right; destruct He|]. left. by eapply abort_finished.
    + left. unfold timeout_expired in Hh. by eapply on_file_error_finished.
Qed.

Lemma start_ready content stream_id cleanup r cfg : ready content (start_up (create stream_id cleanup r cfg)).
Proof.
  split; [done|]. split; [|split].
  - split; [done|]. intros p. cbn. by rewrite andb_false_r.
  - by split_and!.
  - split; [done|]. cbn. by split_and!; [..|left].
Qed.

Lemma start_inv content stream_id cleanup r cfg : exec_inv content (start_up (create stream_id cleanup r cfg)) false.
Proof.
  split; [|by right]. apply ready_inv, start_ready.
Qed.

Lemma reachable_inv content stream_id cleanup r cfg s resolved :
  reachable content stream_id cleanup r cfg s resolved -> exec_inv content s resolved.
Proof.
  induction 1 as [|s resolved s' resolved' _ IH Hs]; [apply start_inv|].
  inversion Hs; subst. by eapply handle_inv.
Qed.

(** *** Streaming a file that is on the disk *)

(** The local copy is complete and readable. *)
Definition perfect (content path : bytes) (d : disk) : Prop :=
  open_file d path = Ok tt
  /\ forall off n, 0 <= off -> 0 <= n -> off + n <= len content ->
     pread d path off n = Ok (take (Z.to_nat n) (drop (Z.to_nat off) content)).

Lemma slice_length (content : bytes) off n : 0 <= off -> 0 <= n -> off + n <= len content ->
  len (take (Z.to_nat n) (drop (Z.to_nat off) content)) = n.
Proof. unfold len. intros. rewrite length_take, length_drop. lia. Qed.

Lemma slice_honest (content : bytes) off n : 0 <= off -> 0 <= n -> off + n <= len content ->
  let data := take (Z.to_nat n) (drop (Z.to_nat off) content) in
  data = take (length data) (drop (Z.to_nat off) content).
Proof.
  intros H1 H2 H3. cbn zeta. rewrite length_take, length_drop. unfold len in H3.
  by rewrite Nat.min_l by lia.
Qed.

(** All bytes are available, and the first block is being written or the file is
    to be read. *)
Definition serving (content path : bytes) (s : stream) : Prop :=
  ready content s /\ total_size (cursor s) = len content /\ contiguous_end (cursor s) = len content
  /\ local_path s = path /\ path <> [] /\ 0 < effective_chunk_size s.

Lemma serving_ext content path s s' : core s = core s' -> config s = config s' -> serving content path s -> serving content path s'.
Proof.
  intros Hc Hg (H1 & H2 & H3 & H4 & H5 & H6). pose proof (ready_ext _ _ _ Hc H1).
  unfold core in Hc. injection Hc as E1 E2 E3 E4 E5 E6 E7 E8 E9 E10 E11 E12 E13.
  unfold serving, effective_chunk_size in *. rewrite <-E4, <-E12, <-Hg. done.
Qed.

(** The state after a block was handed to the connection. *)
Definition chunk_written (s : stream) (data : bytes) : stream :=
  let s := set_read_in_flight s false in
  let s := set_write_in_flight s true in
  let s := set_pending_write_offset s (next_offset (cursor s)) in
  let s := set_pending_write_size s (len data) in
  let s := if headers_sent s then s
    else write (set_headers_sent s true) (WriteNext (head_text 200 (stream_headers (total_size (cursor s))))) in
  write s (WriteNext data).

Lemma chunk_written_fields s data :
  let s' := chunk_written s data in
  cursor s' = cursor s /\ local_path s' = local_path s /\ config s' = config s /\ write_in_flight s' = true
  /\ pending_write_offset s' = next_offset (cursor s) /\ pending_write_size s' = len data /\ finished s' = finished s
  /\ conns (out s') = (if headers_sent s then conns (out s)
      else conns (out s) ++ [WriteNext (head_text 200 (stream_headers (total_size (cursor s))))]) ++ [WriteNext data].
Proof. unfold chunk_written. cbn zeta. views. by destruct (headers_sent s); views. Qed.

Lemma on_file_data_ok s data : finished s = false -> len data = next_read_size (cursor s) (effective_chunk_size s) ->
  0 < len data -> 0 <= total_size (cursor s) <= int64_max ->
  on_file_data s (next_offset (cursor s)) (Ok data) = Some (chunk_written s data).
Proof.
  intros Hf Hl Hp Ht. unfold on_file_data. cbn zeta.
  change (finished (set_read_in_flight s false)) with (finished s). rewrite Hf.
  change (cursor (set_read_in_flight s false)) with (cursor s).
  change (effective_chunk_size (set_read_in_flight s false)) with (effective_chunk_size s).
  rewrite Hl, Z.eqb_refl. rewrite bool_decide_false by (intros ->; by cbn in Hp). cbn [negb orb].
  rewrite send_headers_ok by done. cbn [mbind option_bind negb]. unfold chunk_written. by rewrite Hl.
Qed.

Lemma read_chunk_ok d s count data : finished s = false -> pread d (local_path s) (next_offset (cursor s)) count = Ok data ->
  len data = count -> count = next_read_size (cursor s) (effective_chunk_size s) -> 0 < count ->
  0 <= total_size (cursor s) <= int64_max ->
  read_chunk d s count = Some (chunk_written s data).
Proof.
  intros Hf Hp Hl Hc H0 Ht. unfold read_chunk. cbn zeta.
  change (local_path (set_read_in_flight s true)) with (local_path s).
  change (cursor (set_read_in_flight s true)) with (cursor s). rewrite Hp, Hl, Z.eqb_refl. cbn [negb].
  change (next_offset (cursor s)) with (next_offset (cursor (set_read_in_flight s true))).
  rewrite on_file_data_ok; try done; rewrite Hl; done.
Qed.

(** One turn of [try_read]: the stream ends, or the next block is written. *)
Lemma serving_try_read content path d s : serving content path s -> write_in_flight s = false ->
  honest content d -> perfect content path d ->
  exists s', try_read d s = Some s'
  /\ ((done content s' /\ completed_ok s' = true /\ total_size (cursor s') = len content)
      \/ (serving content path s' /\ finished s' = false /\ write_in_flight s' = true /\ 0 < pending_write_size s'
          /\ pending_write_offset s' = next_offset (cursor s') /\ cursor s' = cursor s)).
Proof.
  intros Hs Hw Hh [Ho Hp]. pose proof Hs as (H & Ht & He & Hl & Hne & Hk).
  pose proof (len_nonneg content) as Hpos.
  destruct (ready_body _ _ H Hw) as [Hok Hb]; [lia|].
  assert (Hmax : total_size (cursor s) <= int64_max) by (unfold cursor_ok in Hok; lia).
  unfold try_read. pose proof H as (Hr & [Hb1 Hb2] & (Hf & Hc & Hco & Htm & _) & _).
  rewrite Hf, Hr, Hw. cbn [orb]. rewrite (ltb_false (total_size (cursor s)) 0) by lia.
  destruct (is_complete (cursor s)) eqn:Ec.
  { destruct (finish s) as [s'|] eqn:Ef.
    - destruct (finish_inv content s s' H Hw Ec Ef) as (? & ? & ? & E). exists s'. split; [done|]. left.
      by rewrite E.
    - exfalso. unfold finish in Ef. rewrite Hf, Ec, Hr, Hw in Ef. cbn [negb orb] in Ef.
      rewrite send_headers_ok in Ef by lia. cbn [mbind option_bind negb] in Ef. done. }
  assert (Hlt : next_offset (cursor s) < contiguous_end (cursor s)).
  { unfold is_complete in Ec. apply andb_false_iff in Ec. rewrite Z.leb_gt, Z.eqb_neq in Ec. unfold cursor_ok in Hok. lia. }
  pose proof (proj2 (next_read_size_pos (cursor s) (effective_chunk_size s) Hok Hk) Hlt) as Hn.
  destruct (next_read_pos _ _ Hn) as (_ & Hle & _).
  rewrite (proj2 (Z.eqb_neq _ 0)), (ltb_false _ 0) by lia.
  rewrite bool_decide_false by by rewrite Hl.
  set (count := next_read_size _ _) in *.
  set (data := take (Z.to_nat count) (drop (Z.to_nat (next_offset (cursor s))) content)).
  assert (Hread : forall s1, core s1 = core s -> config s1 = config s -> exists s', read_chunk d s1 count = Some s'
    /\ serving content path s' /\ finished s' = false /\ write_in_flight s' = true /\ 0 < pending_write_size s'
    /\ pending_write_offset s' = next_offset (cursor s') /\ cursor s' = cursor s).
  { intros s1 Hcore Hcfg. pose proof (serving_ext _ _ _ _ (eq_sym Hcore) (eq_sym Hcfg) Hs) as Hs1.
    unfold core in Hcore. injection Hcore as E1 E2 E3 E4 E5 E6 E7 E8 E9 E10 E11 E12 E13.
    assert (Hlen : len data = count) by (apply slice_length; unfold cursor_ok in Hok; lia).
    assert (Hrd : read_chunk d s1 count = Some (chunk_written s1 data)).
    { apply read_chunk_ok; rewrite ?E5, ?E12, ?E4, ?Hl; try done.
      - apply Hp; unfold cursor_ok in Hok; lia.
      - unfold effective_chunk_size. by rewrite Hcfg.
      - lia. }
    exists (chunk_written s1 data). split; [done|].
    destruct (chunk_written_fields s1 data) as (F1 & F2 & F3 & F4 & F5 & F6 & F7 & _).
    assert (Hinv : stream_inv content (chunk_written s1 data)).
    { apply (read_chunk_inv content d s1 count); try done; [apply Hs1|by rewrite E9|rewrite E12; lia]. }
    assert (finished (chunk_written s1 data) = false) by (rewrite F7, E5; done).
    destruct (inv_cases _ _ Hinv) as [[_ Hrdy]|[? _]]; [|congruence].
    unfold serving, effective_chunk_size. rewrite F1, F2, F3, F4, F5, F6, E12, E4, Hcfg, Hlen.
    split_and!; try done; apply Hrdy. }
  destruct (local_file s).
  - destruct (Hread s) as (s' & ? & ?); [done|done|]. exists s'. auto.
  - rewrite Hl, Ho. destruct (Hread (set_local_file s true)) as (s' & ? & ?); [done|done|]. exists s'. auto.
Qed.

(** The end of a write moves on to the next block. *)
Lemma serving_flushed content path d s : serving content path s -> write_in_flight s = true ->
  0 < pending_write_size s -> pending_write_offset s = next_offset (cursor s) ->
  honest content d -> perfect content path d ->
  exists s', on_chunk_flushed d s (Ok tt) = Some s'
  /\ ((done content s' /\ completed_ok s' = true /\ total_size (cursor s') = len content)
      \/ (serving content path s' /\ finished s' = false /\ write_in_flight s' = true /\ 0 < pending_write_size s'
          /\ pending_write_offset s' = next_offset (cursor s')
          /\ next_offset (cursor s') = next_offset (cursor s) + pending_write_size s)).
Proof.
  intros Hs Hw Hps Hpo Hh Hp. pose proof Hs as (H & Ht & He & Hl & Hne & Hk).
  pose proof H as (Hr & [Hb1 Hb2] & Hlv & Hpr). unfold progress_ok, pending in Hpr. cbn zeta in Hpr. rewrite Hw in Hpr.
  destruct Hpr as [(_ & _ & Hle & Hhs) Hpr]. rewrite Hhs in Hpr. destruct Hpr as (H0 & Hok & Hbody).
  pose proof Hlv as (Hf & Hcn & Hco & Htm & _).
  unfold on_chunk_flushed. change (finished (set_write_in_flight s false)) with (finished s). rewrite Hf. views.
  assert (Hcm : commit (cursor s) (pending_write_offset s) (pending_write_size s)
    = Ok (with_next (cursor s) (next_offset (cursor s) + pending_write_size s))).
  { unfold commit, cursor_ok in *. destruct (_ || _) eqn:E; [lia|done]. }
  rewrite Hcm, Hcn.
  set (c := with_next _ _) in *.
  assert (Hok' : cursor_ok c) by (unfold cursor_ok in *; cbn; lia).
  set (s1 := set_out _ _).
  assert (H1 : ready content s1).
  { subst s1. apply (ready_timeout content). split; [done|]. split; [|split].
    - split; [by views|]. intros p. specialize (Hb2 p). views. rewrite Hb2. lia.
    - unfold live. views. split_and!; try done.
      rewrite Hhs. eexists. by apply body_sent_touch.
    - unfold progress_ok, pending. cbn zeta. views. rewrite Hhs, Z.add_0_r. split; [done|]. split_and!; try done.
      by apply body_sent_touch. }
  assert (Hs1 : serving content path s1) by (unfold serving; split_and!; try done).
  destruct (serving_try_read content path d s1 Hs1 eq_refl Hh Hp) as (s' & Hs' & Hcase).
  exists s'. split; [done|]. destruct Hcase as [(? & ? & ?)|(? & ? & ? & ? & ? & Hcur)]; [by left|right].
  split_and!; try done. by rewrite Hcur.
Qed.

(** [n] writes in a row succeed. *)
Fixpoint flush_all (d : disk) (n : nat) (s : stream) : option stream :=
  match n with
  | O => Some s
  | S n => if finished s then Some s else s ← on_chunk_flushed d s (Ok tt); flush_all d n s
  end.

Lemma flush_all_completes content path d : honest content d -> perfect content path d -> forall n s,
  serving content path s -> write_in_flight s = true -> 0 < pending_write_size s ->
  pending_write_offset s = next_offset (cursor s) -> (Z.to_nat (len content - next_offset (cursor s)) <= n)%nat ->
  exists s', flush_all d n s = Some s' /\ done content s' /\ completed_ok s' = true /\ total_size (cursor s') = len content.
Proof.
  intros Hh Hp. induction n as [|n IH]; intros s Hs Hw Hps Hpo Hn; pose proof Hs as (H & Ht & _);
    pose proof H as (_ & _ & Hlv & Hpr); unfold progress_ok in Hpr; cbn zeta in Hpr; rewrite Hw in Hpr;
    destruct Hpr as [(_ & _ & Hle & _) _].
  - lia.
  - cbn [flush_all]. rewrite (proj1 Hlv).
    destruct (serving_flushed content path d s Hs Hw Hps Hpo Hh Hp) as (s1 & -> & [(Hd & Hc & Htot)|(H1 & H2 & H3 & H4 & H5 & H6)]).
    + cbn [mbind option_bind]. exists s1. split; [|done]. destruct n; [done|]. cbn [flush_all]. by rewrite (proj1 Hd).
    + cbn [mbind option_bind]. apply IH; try done. lia.
Qed.

(** *** No event aborts the process *)

(** The texts that reach the JSON writer are UTF-8. *)
Definition disk_utf8 (d : disk) : Prop :=
  (forall path e, open_file d path = Err e -> check_utf8 (st_message e) = true)
  /\ (forall path off n e, pread d path off n = Err e -> check_utf8 (st_message e) = true).
Definition event_utf8 (e : event) : Prop :=
  match e with
  | FileError e | ChunkFlushed (Err e) | HeadersFlushed (Err e) => check_utf8 (st_message e) = true
  | _ => True
  end.

Lemma fail_total s code m : check_utf8 m = true -> is_Some (fail s code m).
Proof.
  intros H. unfold fail. destruct (finished s); [by eexists|]. destruct (headers_sent s); [by eexists|].
  unfold fail_unsent. destruct (error_json_text code m [] H) as (t & -> & _); [constructor|].
  cbn [mbind option_bind]. cbn zeta. rewrite error_head_ok. by eexists.
Qed.

Lemma abort_total s e : check_utf8 (st_message e) = true -> is_Some (abort s e).
Proof.
  intros H. unfold abort. destruct (finished s); [by eexists|]. cbn zeta.
  destruct (headers_sent s); cbn [negb]; [by eexists|by apply fail_total].
Qed.

Lemma on_file_error_total s e : check_utf8 (st_message e) = true -> is_Some (on_file_error s e).
Proof.
  intros H. unfold on_file_error. destruct (finished s); [by eexists|]. cbn zeta.
  case_bool; [by apply fail_total|by apply abort_total].
Qed.

Lemma send_headers_total s : is_Some (send_headers s).
Proof. unfold send_headers. destruct (headers_sent s); [by eexists|]. rewrite stream_head_ok. by eexists. Qed.

Lemma low_utf8 s m : forallb (fun c => ord c <? 128) (lit s) = true -> check_utf8 m = true -> check_utf8 (lit s ++ m) = true.
Proof.
  intros Hs Hm. rewrite check_utf8_low; [done|]. apply Forall_forall. intros c Hc.
  apply list_elem_of_In in Hc. eapply forallb_forall in Hs; [|done]. by apply Z.ltb_lt in Hs.
Qed.

Lemma finish_total s : is_Some (finish s).
Proof.
  unfold finish. destruct (finished s); [by eexists|]. case_bool; [by apply abort_total|].
  destruct (send_headers_total s) as [[b s'] ->]. cbn [mbind option_bind]. case_bool; by eexists.
Qed.

Lemma on_file_data_total s off r : match r with Err e => check_utf8 (st_message e) = true | Ok _ => True end ->
  is_Some (on_file_data s off r).
Proof.
  intros Hr. unfold on_file_data. cbn zeta. case_bool; [by eexists|]. destruct r as [data|e]; [|by apply abort_total].
  case_bool; [by apply abort_total|].
  match goal with |- is_Some (mbind _ (send_headers ?x)) => destruct (send_headers_total x) as [[b s'] ->] end.
  cbn [mbind option_bind]. case_bool; by eexists.
Qed.

Lemma read_chunk_total d s n : disk_utf8 d -> is_Some (read_chunk d s n).
Proof.
  intros [_ Hp]. unfold read_chunk. cbn zeta. destruct (pread d _ _ _) as [data|e] eqn:E.
  - case_bool; [case_bool; [by eexists|by apply abort_total]|]. by apply on_file_data_total.
  - apply abort_total. apply low_utf8; [done|]. by eapply Hp.
Qed.

Lemma try_read_total d s : disk_utf8 d -> is_Some (try_read d s).
Proof.
  intros Hd. unfold try_read. case_bool; [by eexists|]. case_bool; [apply finish_total|]. cbn zeta.
  case_bool; [by eexists|]. case_bool; [by apply abort_total|]. case_bool; [by eexists|].
  destruct (local_file s); [by apply read_chunk_total|].
  destruct (open_file d (local_path s)) as [u|e] eqn:E; [by apply read_chunk_total|].
  case_bool; [by eexists|]. case_bool; [|by eexists]. apply abort_total. apply low_utf8; [done|].
  by eapply (proj1 Hd).
Qed.

Lemma update_progress_message c off pre fin e : update_progress c off pre fin = Err e -> check_utf8 (st_message e) = true.
Proof. unfold update_progress. case_bool; [by intros [= <-]|done]. Qed.
Lemma commit_message c off n e : commit c off n = Err e -> check_utf8 (st_message e) = true.
Proof. unfold commit. case_bool; [by intros [= <-]|done]. Qed.

Lemma on_file_ready_total d s id total path off pre fin : disk_utf8 d -> is_Some (on_file_ready d s id total path off pre fin).
Proof.
  intros Hd. unfold on_file_ready. destruct (finished s); [by eexists|].
  destruct (_ || _); [by apply fail_total|]. cbn zeta. generalize (if path_changes (set_file_id s id) path
    then change_local_path (set_file_id s id) path else set_file_id s id). intros s1.
  destruct (uint64_max <? total); [by apply fail_total|]. destruct (_ && _); [by apply fail_total|].
  destruct (update_progress _ _ _ _) as [c|e] eqn:E.
  - destruct (_ && _); [by apply fail_total|by apply try_read_total].
  - apply fail_total. by eapply update_progress_message.
Qed.

Lemma on_file_progress_total d s total path off pre fin active :
  disk_utf8 d -> is_Some (on_file_progress d s total path off pre fin active).
Proof.
  intros Hd. unfold on_file_progress. destruct (_ || _); [by eexists|].
  destruct (_ && _); [by apply abort_total|]. cbn zeta.
  generalize (if path_changes s path then change_local_path (set_local_file s false) path else s). intros s1.
  generalize (if download_completed s1 && negb fin then request_file_redownload (drop_stale_download_state s1) else s1). intros s2.
  destruct (update_progress _ _ _ _) as [c|e] eqn:E.
  - case_bool; [by apply abort_total|]. case_bool; [by apply abort_total|by apply try_read_total].
  - apply abort_total. by eapply update_progress_message.
Qed.

Lemma on_chunk_flushed_total d s r : disk_utf8 d -> event_utf8 (ChunkFlushed r) -> is_Some (on_chunk_flushed d s r).
Proof.
  intros Hd Hr. unfold on_chunk_flushed. cbn zeta. case_bool; [by eexists|].
  destruct r as [u|e]; [|by apply abort_total]. destruct (commit _ _ _) as [c|e] eqn:E.
  - by apply try_read_total.
  - apply abort_total. by eapply commit_message.
Qed.

(** ** Properties *)

(** C1. What a streaming connection is told.  In every execution, as long as the
    stream runs, it has written nothing, or the head that announces the size of
    the file followed by the first bytes of the file.  When it has ended, its
    answer is complete: a JSON error with a status from 400 to 599 and the right
    length, or a head and a prefix of the file cut by an error, or, exactly when
    it is recorded as successful, the head and the whole announced file. *)
Theorem stream_answers (content : bytes) (stream_id : Z) (cleanup : bool) (r : file_stream_route) (cfg : stream_config)
    (s : stream) (resolved : bool) :
  reachable content stream_id cleanup r cfg s resolved ->
  (finished s = false ->
    if headers_sent s then body_sent content (total_size (cursor s)) (next_offset (cursor s) + pending s) (conns (out s))
    else conns (out s) = [])
  /\ (finished s = true -> answered content (total_size (cursor s)) (conns (out s)) (completed_ok s)).
Proof.
  intros [Hi _]%reachable_inv. destruct (inv_cases _ _ Hi) as [[Hf H]|[Hf Hd]]; rewrite Hf; split; try done; intros _.
  - destruct H as (_ & _ & _ & _ & Hp). by destruct (headers_sent s); destruct_and?.
  - by destruct Hd as (_ & _ & _ & ?).
Qed.

Definition sample_config : stream_config := mk_stream_config 4 30 60 4 0.
Definition sample_route : file_stream_route := mk_route (lit "1:a") (lit "f") false (-1) false.
Definition sample_content : bytes := lit "0123456789".
(** A disk with that file. *)
Definition sample_disk : disk :=
  mk_disk (fun _ => Ok tt) (fun _ off n => Ok (take (Z.to_nat n) (drop (Z.to_nat off) sample_content))).

Lemma take_length_slice {A} n (l : list A) : take n l = take (length (take n l)) l.
Proof.
  rewrite length_take. destruct (Nat.le_ge_cases n (length l)); [by rewrite Nat.min_l|].
  rewrite Nat.min_r by done. rewrite firstn_all. by apply take_ge.
Qed.

Lemma sample_honest : honest sample_content sample_disk.
Proof. intros path off n data H [= <-]. apply take_length_slice. Qed.

Definition sample_start : stream := start_up (create 7 true sample_route sample_config).

(** The file is resolved and fully on the disk. *)
Definition sample_ready : stream :=
  match handle sample_disk sample_start (FileReady 5 10 (lit "/w/f") 0 10 true) with Some s => s | None => sample_start end.

Lemma sample_reachable : reachable sample_content 7 true sample_route sample_config sample_ready true.
Proof.
  eapply (reachable_step _ _ _ _ _ sample_start false); [constructor|].
  apply (step_event _ sample_disk _ false (FileReady 5 10 (lit "/w/f") 0 10 true)); [apply sample_honest|by split|].
  vm_compute. reflexivity.
Qed.

Lemma stream_answers_witness :
  finished sample_ready = false
  /\ body_sent sample_content 10 4 (conns (out sample_ready)).
Proof.
  destruct (stream_answers sample_content 7 true sample_route sample_config sample_ready true sample_reachable) as [H _].
  split; [vm_compute; reflexivity|]. specialize (H eq_refl). vm_compute in H |- *. exact H.
Defined.

(** The timeout of a stream.  Every stream that has not ended has an armed
    timeout, and the timeout always ends it, reports itself once to the client
    manager, and disarms: no streaming request can hang for ever. *)
Theorem stream_timeout (content : bytes) (stream_id : Z) (cleanup : bool) (r : file_stream_route) (cfg : stream_config)
    (s : stream) (resolved : bool) :
  reachable content stream_id cleanup r cfg s resolved -> finished s = false ->
  timer (out s) <> None
  /\ exists s', timeout_expired s = Some s' /\ finished s' = true /\ completed_ok s' = false /\ timer (out s') = None
  /\ answered content (total_size (cursor s')) (conns (out s')) false.
Proof.
  intros [Hi _]%reachable_inv Hf. destruct (inv_cases _ _ Hi) as [[_ H]|[? _]]; [|congruence].
  split; [by destruct H as (_ & _ & (_ & _ & _ & ? & _) & _)|].
  assert (is_Some (timeout_expired s)) as [s' Hs'].
  { unfold timeout_expired. cbn zeta. apply on_file_error_total. cbn [st_message]. by destruct (first_byte_sent s). }
  exists s'. split; [done|]. pose proof (timeout_inv _ _ _ Hi Hs') as Hi'.
  assert (Hf' : finished s' = true) by (unfold timeout_expired in Hs'; by eapply on_file_error_finished).
  destruct (inv_cases _ _ Hi') as [[? _]|[_ (_ & _ & Ht & Ha)]]; [congruence|].
  assert (Hk : completed_ok s' = false).
  { unfold timeout_expired, on_file_error, fail, abort in Hs'. cbn zeta in Hs'.
    destruct H as (_ & _ & (_ & _ & Hk & _) & _).
    assert (Hu : forall x c m y, completed_ok x = false -> fail_unsent x c m = Some y -> completed_ok y = false).
    { intros x c m y Hx. unfold fail_unsent. destruct (Writer.json_encode _); [|done]. cbn [mbind option_bind]. cbn zeta.
      rewrite error_head_ok. intros [= <-]. by views. }
    assert (Ha' : forall x e, completed_ok x = false -> completed_ok (abort_sent x e) = false).
    { intros x e Hx. unfold abort_sent. views. by destruct (connection x). }
    set (s1 := if client_manager s then _ else s) in Hs'.
    assert (Hk1 : completed_ok s1 = false) by (subst s1; by destruct (client_manager s)).
    assert (Hf1 : finished s1 = false) by (subst s1; by destruct (client_manager s)).
    rewrite Hf1 in Hs'. destruct (headers_sent s1); cbn [negb] in Hs'.
    - injection Hs' as <-. by apply Ha'.
    - by eapply Hu. }
  rewrite Hk in Ha. by split_and!.
Qed.

Lemma stream_timeout_witness :
  timer (out sample_ready) <> None /\ exists s', timeout_expired sample_ready = Some s' /\ finished s' = true.
Proof.
  destruct (stream_timeout sample_content 7 true sample_route sample_config sample_ready true sample_reachable) as (H & s' & E & F & _);
    [vm_compute; reflexivity|]. split; [exact H|]. exists s'. split; [exact E|exact F].
Defined.

(** C4. References and requests for a new download.  In every execution the
    stream holds one reference to its current local path in the cleanup manager,
    none to any other path, and none at all once it is torn down; it asks for a
    new download of its file at most once. *)
Theorem stream_references (content : bytes) (stream_id : Z) (cleanup : bool) (r : file_stream_route) (cfg : stream_config)
    (s : stream) (resolved : bool) (path : bytes) :
  reachable content stream_id cleanup r cfg s resolved ->
  retained path (out s) = held s path /\ retained path (out (tear_down s)) = 0 /\ 0 <= redownloads (out s) <= 1.
Proof.
  intros [(_ & [H1 H2] & _) _]%reachable_inv. split; [apply H2|]. split; [|rewrite H1; by destruct (redownload_requested s)].
  specialize (H2 path). unfold tear_down. rewrite andb_comm. views.
  destruct (cleanup_manager s); cbn [andb] in *; [destruct (decide (local_path s = [])) as [E|E]|].
  - rewrite (bool_decide_true (local_path s = [])) in * by done. cbn [negb andb] in *. views.
    destruct (client s) eqn:Ec; views; rewrite H2; lia.
  - rewrite (bool_decide_false (local_path s = [])) in * by done. cbn [negb andb] in *. views.
    destruct (client s) eqn:Ec; views; rewrite H2; destruct (bool_decide (local_path s = path)); lia.
  - views. destruct (client s) eqn:Ec; views; rewrite H2; lia.
Qed.

Lemma stream_references_witness : retained (lit "/w/f") (out sample_ready) = 1.
Proof.
  destruct (stream_references sample_content 7 true sample_route sample_config sample_ready true (lit "/w/f") sample_reachable)
    as [-> _]. reflexivity.
Defined.

(** C2. A file on the disk is served completely.  When the file is resolved with
    a complete and readable local copy and every write succeeds, the stream
    ends: after at most as many writes as the file has bytes it is recorded as
    successful, and it has sent the head, exactly the bytes of the file, and
    [write_ok]. *)
Theorem stream_serves_file (content path : bytes) (stream_id file_id : Z) (cleanup : bool) (r : file_stream_route)
    (cfg : stream_config) (d : disk) :
  honest content d -> perfect content path d -> path <> [] -> 0 < file_id -> len content <= int64_max ->
  0 < chunk_size cfg -> 0 < write_high_watermark cfg -> (max_size cfg <= 0 \/ len content <= max_size cfg) ->
  exists s1 s2 k, on_file_ready d (start_up (create stream_id cleanup r cfg)) file_id (len content) path 0 (len content) true = Some s1
  /\ flush_all d (length content) s1 = Some s2
  /\ finished s2 = true /\ completed_ok s2 = true
  /\ conns (out s2) = WriteNext (head_text 200 (stream_headers (len content))) :: k ++ [WriteOk]
  /\ Forall is_body k /\ bytes_of k = content.
Proof.
  intros Hh Hp Hne Hid Hmax Hc Hw Hms. pose proof (len_nonneg content) as Hpos.
  set (s0 := start_up (create stream_id cleanup r cfg)).
  assert (Hcore : forall s', done content s' -> completed_ok s' = true -> total_size (cursor s') = len content ->
    exists k, finished s' = true /\ completed_ok s' = true
    /\ conns (out s') = WriteNext (head_text 200 (stream_headers (len content))) :: k ++ [WriteOk] /\ Forall is_body k /\ bytes_of k = content).
  { intros s' (Hf & _ & _ & Ha) Hk Ht. rewrite Hk, Ht in Ha. inversion Ha as [| |l Hb Hl]; subst.
    destruct Hb as (k & -> & H1 & H2 & H3 & _). exists k. split_and!; try done. rewrite H2. unfold len.
    by rewrite Nat2Z.id, firstn_all. }
  unfold on_file_ready. change (finished s0) with false. change (config (set_file_id s0 file_id)) with cfg.
  rewrite (leb_false file_id 0), (ltb_false (len content) 0) by lia. cbn [orb]. cbn zeta.
  assert (path_changes (set_file_id s0 file_id) path = true) as ->.
  { unfold path_changes. change (local_path (set_file_id s0 file_id)) with ([] : bytes).
    by rewrite !bool_decide_false by done. }
  set (s1 := change_local_path _ _).
  assert (H1 : ready content s1 /\ cursor s1 = empty_cursor /\ config s1 = cfg /\ local_path s1 = path /\ write_in_flight s1 = false).
  { destruct (change_local_path_core (set_file_id s0 file_id) path) as ([= _ _ _ _ _ E1 _ _ E2] & _ & E3).
    split_and!; try done.
    - apply ready_change_path; [done|]. eapply ready_ext; [|apply (start_ready content stream_id cleanup r cfg)]. done.
    - unfold s1, change_local_path. views. by destruct cleanup. }
  clearbody s1. destruct H1 as (H1 & Hcu & Hcf & Hlp & Hwf). rewrite Hcf.
  rewrite (ltb_false uint64_max) by (unfold uint64_max, int64_max in *; lia).
  assert ((0 <? max_size cfg) && (max_size cfg <? len content) = false) as ->.
  { apply andb_false_iff. rewrite !Z.ltb_ge. lia. }
  set (s3 := emit s1 _). assert (H3 : ready content s3) by by apply ready_timeout.
  change (cursor s3) with (cursor s1). rewrite Hcu. views.
  assert (Hup : update_progress (with_total empty_cursor (len content)) 0 (len content) true
    = Ok (mk_cursor (len content) 0 (len content))).
  { unfold update_progress. cbn [with_total empty_cursor total_size next_offset contiguous_end].
    rewrite (ltb_false (len content) 0), (ltb_false (len content - 0) (len content)) by lia. cbn [orb Z.ltb Z.compare].
    cbn [andb Z.eqb].
    by destruct (0 <? len content); cbn [with_end with_total empty_cursor total_size next_offset contiguous_end];
      rewrite Z.eqb_refl. }
  rewrite Hup. cbn [contiguous_end total_size]. rewrite Z.ltb_irrefl. cbn [andb].
  set (s4 := set_download_completed _ _).
  assert (Hs4 : serving content path s4 /\ write_in_flight s4 = false).
  { split; [|done]. unfold serving, effective_chunk_size. split_and!; try done.
    - eapply ready_ext; [|apply (ready_first_cursor content s3 (mk_cursor (len content) 0 (len content)))]; done.
    - change (config s4) with (config s1). rewrite Hcf. lia. }
  clearbody s4. destruct Hs4 as [Hs4 Hw4].
  destruct (serving_try_read content path d s4 Hs4 Hw4 Hh Hp) as (s5 & -> & [(Hd & Hk & Ht)|(Hs5 & Hf5 & Hw5 & Hp5 & Ho5 & Hc5)]).
  - destruct (Hcore s5 Hd Hk Ht) as (k & Hk1 & Hk2 & Hk3). exists s5, s5, k. split; [done|]. split; [|done].
    destruct (length content); [done|]. cbn [flush_all]. by rewrite Hk1.
  - destruct (flush_all_completes content path d Hh Hp (length content) s5) as (s6 & Hs6 & Hd6 & Hk6 & Ht6); try done.
    { pose proof (ready_cursor_ok content s5 (proj1 Hs5)) as Hok. destruct Hs5 as (_ & E & _).
      specialize (Hok ltac:(lia)). unfold cursor_ok, len in *. lia. }
    destruct (Hcore s6 Hd6 Hk6 Ht6) as (k & ? & ? & ? & ? & ?). by exists s5, s6, k.
Qed.

Lemma sample_perfect : perfect sample_content (lit "/w/f") sample_disk.
Proof. split; [reflexivity|]. intros off n _ _ _. reflexivity. Qed.

Lemma stream_serves_file_witness : exists s1 s2 k,
  on_file_ready sample_disk (start_up (create 7 true sample_route sample_config)) 5 (len sample_content) (lit "/w/f") 0
    (len sample_content) true = Some s1
  /\ flush_all sample_disk (length sample_content) s1 = Some s2 /\ completed_ok s2 = true /\ bytes_of k = sample_content.
Proof.
  destruct (stream_serves_file sample_content (lit "/w/f") 7 5 true sample_route sample_config sample_disk
    sample_honest sample_perfect ltac:(discriminate) ltac:(reflexivity) ltac:(vm_compute; discriminate)
    ltac:(reflexivity) ltac:(reflexivity) ltac:(left; vm_compute; discriminate))
    as (s1 & s2 & k & H1 & H2 & _ & H4 & _ & _ & H7).
  exists s1, s2, k. split; [exact H1|]. split; [exact H2|]. split; [exact H4|exact H7].
Defined.

(** C3. Every event is handled.  Whatever the state of a stream, whatever the
    disk answers and whichever closure arrives, as long as the messages of the
    errors it is given are UTF-8, the handler returns: no check fails and every
    JSON error can be encoded.  A stream that has ended is never reopened. *)
Theorem stream_events_handled (d : disk) (s : stream) (e : event) :
  disk_utf8 d -> event_utf8 e -> exists s', handle d s e = Some s' /\ (finished s = true -> finished s' = true).
Proof.
  intros Hd He.
  assert (is_Some (handle d s e)) as [s' Hs].
  { destruct e; cbn [handle]; [by eexists|by apply on_file_ready_total|by apply on_file_progress_total
      |by apply on_file_error_total|by apply on_chunk_flushed_total| |].
    - unfold on_headers_flushed. case_bool; [by eexists|]. destruct r; [by eexists|by apply abort_total].
    - unfold timeout_expired. cbn zeta. apply on_file_error_total. by destruct (first_byte_sent s). }
  exists s'. split; [done|]. intros Hf. revert Hs. destruct e; cbn [handle].
  - by intros [= <-].
  - unfold on_file_ready. rewrite Hf. by intros [= <-].
  - unfold on_file_progress. rewrite Hf. by intros [= <-].
  - unfold on_file_error. rewrite Hf. by intros [= <-].
  - unfold on_chunk_flushed. cbn zeta. change (finished (set_write_in_flight s false)) with (finished s).
    rewrite Hf. by intros [= <-].
  - unfold on_headers_flushed. rewrite Hf. by intros [= <-].
  - unfold timeout_expired, on_file_error. cbn zeta.
    set (s1 := if client_manager s then _ else s). assert (finished s1 = true) as ->.
    { subst s1. by destruct (client_manager s). }
    intros [= <-]. subst s1. by destruct (client_manager s).
Qed.

Lemma sample_disk_utf8 : disk_utf8 sample_disk.
Proof. split; intros; discriminate. Qed.

Lemma stream_events_handled_witness : exists s', handle sample_disk sample_ready Timeout = Some s'.
Proof.
  destruct (stream_events_handled sample_disk sample_ready Timeout sample_disk_utf8 ltac:(exact I)) as (s' & H & _).
  exists s'. exact H.
Defined.


(** What a revocation does to a stream with a block in flight. *)
Definition revoked (s : stream) : stream := request_file_redownload (drop_stale_download_state s).


















