(* ===== verification/Workdir.v ===== *)
(** * The workdir cleanup ([WorkdirCleanupManager.h], [WorkdirCleanupManager.cpp])

    Module [Space]: the admission of new local copies.  Module [Cleanup]: which
    files may be removed and a round of the cleanup; what the walk over the
    directory finds and what [unlink] answers are arguments.  Module [Manager]:
    the actor with its references, its timer and the shared flags. *)

From S2P Require Import Prelude TdMisc.

(** ** [check_workdir_space] *)

Module Space.

Record workdir_space_check := mk_space_check {
  allowed : bool; free_space_known : bool; unknown_size : bool; free_bytes : Z;
  min_free_bytes : Z; required_bytes : Z; increment_bytes : Z }.

(** [get_free_space]: [available] is what [std::filesystem::space] reports, or
    [None] on an error. *)
Definition get_free_space (available : option Z) : Z :=
  match available with
  | None => -1
  | Some available => if int64_max <? available then -1 else available
  end.

Definition check_workdir_space (free_bytes min_free_bytes file_size existing_local_size unknown_size_margin : Z)
  : workdir_space_check :=
  let min_free_bytes := Z.max 0 min_free_bytes in
  if free_bytes <? 0 then mk_space_check false false false (-1) min_free_bytes 0 0
  else
    let increment_bytes :=
      if 0 <=? file_size then Z.max 0 (file_size - Z.max 0 existing_local_size) else Z.max 0 unknown_size_margin in
    let required_bytes :=
      if int64_max - min_free_bytes <? increment_bytes then int64_max else min_free_bytes + increment_bytes in
    mk_space_check (required_bytes <=? free_bytes) true (negb (0 <=? file_size)) free_bytes min_free_bytes
      required_bytes increment_bytes.

End Space.

(** ** [run_workdir_cleanup] *)

Module Cleanup.

Record config := mk_config {
  workdir : bytes; threshold_bytes : Z; target_bytes : Z; interval : time; file_ttl : Z; min_free_bytes : Z }.

Record cleanup_result := mk_result {
  scanned_bytes : Z; scanned_files : Z; deleted_bytes : Z; deleted_files : Z; failed_files : Z;
  free_bytes : Z; threshold_cleanup : bool; disk_emergency : bool }.

(** [PathView(path).file_name()] *)
Fixpoint after_last_slash (acc path : bytes) : bytes :=
  match path with
  | [] => acc
  | c :: path => after_last_slash (if bool_decide (c = "/"%char) then path else acc) path
  end.
Definition file_name (path : bytes) : bytes := after_last_slash path path.

Definition is_tdlib_persistent_file (path : bytes) : bool :=
  let file_name := file_name path in
  if bool_decide (file_name = []) then false
  else if Strings.ends_with file_name (lit ".binlog") || Strings.ends_with file_name (lit ".binlog.new") then true
  else Strings.ends_with file_name (lit ".sqlite") || Strings.ends_with file_name (lit ".sqlite-wal")
    || Strings.ends_with file_name (lit ".sqlite-shm") || Strings.ends_with file_name (lit ".sqlite-journal").

(** [relative.find("..") != npos] *)
Fixpoint has_dots (s : bytes) : bool :=
  match s with
  | [] => false
  | _ :: s' => Strings.begins_with s (lit "..") || has_dots s'
  end.

Definition root_of (workdir : bytes) : bytes :=
  if bool_decide (last workdir = Some "/"%char) then workdir else workdir ++ ["/"%char].

Definition is_workdir_cleanup_candidate (workdir path : bytes) : bool :=
  if bool_decide (workdir = []) || bool_decide (path = []) then false
  else
    let root := root_of workdir in
    if negb (Strings.begins_with path root) || bool_decide (path = root) then false
    else
      let relative := drop (length root) path in
      if has_dots relative then false
      else negb (is_tdlib_persistent_file path).

(** [WorkdirDeleteFunction]: its answer may depend on the calls before. *)
Abbreviation delete_log := (list (bytes * bool)).
Definition delete_function : Type := delete_log -> bytes -> bool.

(** The attempts that are left, after the ones in [log]. *)
Fixpoint attempts (delete_file : delete_function) (path : bytes) (n : nat) (log : delete_log) : bool * delete_log :=
  match n with
  | O => (false, log)
  | S n =>
    let ok := delete_file log path in
    let log := log ++ [(path, ok)] in
    if ok then (true, log) else attempts delete_file path n log
  end.

Definition delete_workdir_file_with_retries (path : bytes) (delete_file : delete_function) (max_retries : Z)
    (log : delete_log) : bool * delete_log :=
  attempts delete_file path (Z.to_nat (max_retries + 1)) log.

Record candidate := mk_candidate { path : bytes; size : Z; access_time : Z }.

(** What the walk calls its function with, and what [stat] answers then. *)
Inductive walk_type := EnterDir | ExitDir | RegularFile | Symlink.
Record file_stat := mk_stat { is_reg : bool; st_size : Z; atime_nsec : Z }.
Record walked := mk_walked { w_path : bytes; w_type : walk_type; w_stat : option file_stat }.

Abbreviation active_map := (gmap bytes Z).

Definition is_active (active_files : active_map) (path : bytes) : bool :=
  match active_files !! path with Some n => 0 <? n | None => false end.

(** The file that an entry of the walk stands for, if it is counted. *)
Definition scanned (cfg : config) (e : walked) : option candidate :=
  match w_type e with
  | RegularFile =>
    if negb (is_workdir_cleanup_candidate (workdir cfg) (w_path e)) then None
    else
      match w_stat e with
      | Some st => if negb (is_reg st) then None else Some (mk_candidate (w_path e) (Z.max 0 (st_size st)) (atime_nsec st))
      | None => None
      end
  | _ => None
  end.

Record scan_state := mk_scan { s_files : Z; s_bytes : Z; s_candidates : list candidate }.

Definition scan_entry (cfg : config) (active_files : active_map) (st : scan_state) (e : walked) : scan_state :=
  match scanned cfg e with
  | None => st
  | Some c =>
    mk_scan (s_files st + 1) (s_bytes st + size c)
      (if is_active active_files (path c) then s_candidates st else s_candidates st ++ [c])
  end.

Definition scan (cfg : config) (active_files : active_map) (entries : list walked) : scan_state :=
  foldl (scan_entry cfg active_files) (mk_scan 0 0 []) entries.

Record round := mk_round { remaining : Z; r_files : Z; r_bytes : Z; r_failed : Z; log : delete_log }.

Definition ttl_nsec (cfg : config) : Z := if 0 <? file_ttl cfg then wrap 64 (file_ttl cfg * 1000000000) else 0.

Definition is_expired (cfg : config) (now_nsec : Z) (c : candidate) : bool :=
  (0 <? ttl_nsec cfg) && (access_time c <=? now_nsec) && (ttl_nsec cfg <=? now_nsec - access_time c).

Fixpoint clean (cfg : config) (active_files : active_map) (delete_file : delete_function) (now_nsec : Z)
    (threshold : bool) (candidates : list candidate) (r : round) : round :=
  match candidates with
  | [] => r
  | c :: candidates =>
    let must_reduce := threshold && (target_bytes cfg <? remaining r) in
    if negb must_reduce && negb (is_expired cfg now_nsec c) then
      clean cfg active_files delete_file now_nsec threshold candidates r
    else if is_active active_files (path c) then
      clean cfg active_files delete_file now_nsec threshold candidates r
    else
      let '(deleted, log) := delete_workdir_file_with_retries (path c) delete_file 3 (log r) in
      if negb deleted then mk_round (remaining r) (r_files r) (r_bytes r) (r_failed r + 1) log
      else
        clean cfg active_files delete_file now_nsec threshold candidates
          (mk_round (remaining r - size c) (r_files r + 1) (r_bytes r + size c) (r_failed r) log)
  end.

(** [std::sort] by access time, which is any sorted permutation. *)
Definition older (c d : candidate) : Prop := access_time c <= access_time d.
Class Sorting (sort : list candidate -> list candidate) : Prop := {
  sort_permutation l : sort l ≡ₚ l;
  sort_sorted l : StronglySorted older (sort l) }.

Section Run.
Context (sort : list candidate -> list candidate) (delete_file : delete_function).

(** The result of a round, with the deletions it asked for. *)
Definition run_workdir_cleanup (cfg : config) (active_files : active_map) (entries : list walked) (now_nsec : Z)
    (available : option Z) : cleanup_result * delete_log :=
  let s := scan cfg active_files entries in
  let threshold := (0 <? threshold_bytes cfg) && (threshold_bytes cfg <=? s_bytes s) in
  let r := clean cfg active_files delete_file now_nsec threshold (sort (s_candidates s)) (mk_round (s_bytes s) 0 0 0 []) in
  let free := Space.get_free_space available in
  (mk_result (s_bytes s) (s_files s) (r_bytes r) (r_files r) (r_failed r) free threshold
     ((0 <? min_free_bytes cfg) && (0 <=? free) && (free <? min_free_bytes cfg)),
   log r).
End Run.

End Cleanup.

(** ** [WorkdirCleanupManager] *)

Module Manager.
Import Cleanup.

Definition THRESHOLD_CHECK_INTERVAL : time := 300.

(** The part of [SharedData] the actor writes. *)
Record shared := mk_shared {
  workdir_bytes : Z; workdir_files : Z; workdir_cleanup_runs : Z; workdir_deleted_bytes : Z;
  workdir_disk_emergency : bool; workdir_shutdown_requested : bool }.

(** [timeout] is the armed timeout of the actor. *)
Record manager := mk_manager {
  config_ : config; active_files : active_map; next_periodic_cleanup : time; next_threshold_check : time;
  timeout : option time; shared_data : shared }.

Definition create (cfg : config) (sh : shared) : manager := mk_manager cfg ∅ 0 0 None sh.

Definition with_active (m : manager) (a : active_map) : manager :=
  mk_manager (config_ m) a (next_periodic_cleanup m) (next_threshold_check m) (timeout m) (shared_data m).
Definition with_times (m : manager) (periodic threshold : time) : manager :=
  mk_manager (config_ m) (active_files m) periodic threshold (timeout m) (shared_data m).
Definition with_shared (m : manager) (sh : shared) : manager :=
  mk_manager (config_ m) (active_files m) (next_periodic_cleanup m) (next_threshold_check m) (timeout m) sh.

Definition retain_file (m : manager) (path : bytes) : manager :=
  if is_workdir_cleanup_candidate (workdir (config_ m)) path then
    with_active m (<[path := default 0 (active_files m !! path) + 1]> (active_files m))
  else m.

Definition release_file (m : manager) (path : bytes) : manager :=
  match active_files m !! path with
  | None => m
  | Some n =>
    if n - 1 <=? 0 then with_active m (delete path (active_files m))
    else with_active m (<[path := n - 1]> (active_files m))
  end.

Definition schedule_next (m : manager) : manager :=
  mk_manager (config_ m) (active_files m) (next_periodic_cleanup m) (next_threshold_check m)
    (Some (qmin (next_periodic_cleanup m) (next_threshold_check m))) (shared_data m).

Definition start_up (m : manager) (now : time) : manager := schedule_next (with_times m now now).

Definition store_result (sh : shared) (r : cleanup_result) : shared :=
  mk_shared (scanned_bytes r) (scanned_files r) (workdir_cleanup_runs sh + 1) (workdir_deleted_bytes sh + deleted_bytes r)
    (workdir_disk_emergency sh || disk_emergency r) (workdir_shutdown_requested sh || disk_emergency r).

Section Run.
Context (sort : list candidate -> list candidate) (delete_file : delete_function).

(** What a round finds: the walk, the clock and the free space. *)
Record surroundings := mk_surroundings { entries : list walked; now_nsec : Z; available : option Z }.

Definition run_cleanup (m : manager) (w : surroundings) : manager * delete_log :=
  let '(r, log) := run_workdir_cleanup sort delete_file (config_ m) (active_files m) (entries w) (now_nsec w) (available w) in
  (with_shared m (store_result (shared_data m) r), log).

Definition trigger_threshold_check (m : manager) (w : surroundings) : manager * delete_log := run_cleanup m w.

Definition timeout_expired (m : manager) (now : time) (w : surroundings) : manager * delete_log :=
  let periodic := qleb (next_periodic_cleanup m) now in
  let '(m, log) := run_cleanup m w in
  let next := if periodic then (now + interval (config_ m))%Q else next_periodic_cleanup m in
  let m := with_times m next (now + qmin THRESHOLD_CHECK_INTERVAL (interval (config_ m)))%Q in
  (schedule_next m, log).

(** The closures and events the actor receives. *)
Inductive event := Retain (path : bytes) | Release (path : bytes) | Trigger (w : surroundings)
  | Timeout (now : time) (w : surroundings).

Definition handle (m : manager) (e : event) : manager * delete_log :=
  match e with
  | Retain path => (retain_file m path, [])
  | Release path => (release_file m path, [])
  | Trigger w => trigger_threshold_check m w
  | Timeout now w => timeout_expired m now w
  end.
End Run.

End Manager.

(** ** Facts *)

Import Cleanup.
Open Scope Z_scope.

(** *** Paths *)

Lemma after_last_slash_no_slash acc p : "/"%char ∉ p -> after_last_slash acc p = acc.
Proof.
  revert acc. induction p as [|c p IH]; intros acc H; [done|]. cbn [after_last_slash].
  apply not_elem_of_cons in H as [H1 H2]. rewrite bool_decide_false by congruence. by apply IH.
Qed.

Lemma after_last_slash_app acc p q : "/"%char ∉ q -> after_last_slash acc (p ++ "/"%char :: q) = q.
Proof.
  revert acc. induction p as [|c p IH]; intros acc H; cbn [app after_last_slash].
  - rewrite bool_decide_true by done. by apply after_last_slash_no_slash.
  - by apply IH.
Qed.

(** The name of a file below a directory. *)
Lemma file_name_below dir name : "/"%char ∉ name -> file_name (dir ++ "/"%char :: name) = name.
Proof. apply after_last_slash_app. Qed.

Lemma has_dots_app s t : has_dots t = true -> has_dots (s ++ t) = true.
Proof. intros H. induction s as [|c s IH]; [done|]. cbn [app has_dots]. by rewrite IH, orb_true_r. Qed.

Lemma has_dots_spec s : has_dots s = true <-> exists a b, s = a ++ lit ".." ++ b.
Proof.
  split.
  - induction s as [|c s IH]; [done|]. cbn [has_dots]. rewrite orb_true_iff, begins_with_spec.
    intros [[t ->]|H]; [by exists [], t|]. destruct (IH H) as (a & b & ->). by exists (c :: a), b.
  - intros (a & b & ->). apply has_dots_app. change (lit ".." ++ b) with ("."%char :: "."%char :: b). cbn [has_dots].
    apply orb_true_iff. left. apply begins_with_spec. by exists b.
Qed.

Lemma root_of_ends wd : exists r, root_of wd = r ++ ["/"%char].
Proof.
  unfold root_of. destruct (decide (last wd = Some "/"%char)) as [H|H].
  - rewrite bool_decide_true by done. apply last_Some in H as [l ->]. by exists l.
  - rewrite bool_decide_false by done. by exists wd.
Qed.

Lemma candidate_spec wd p : is_workdir_cleanup_candidate wd p = true <->
  wd <> [] /\ (exists rel, p = root_of wd ++ rel /\ rel <> [] /\ has_dots rel = false) /\ is_tdlib_persistent_file p = false.
Proof.
  unfold is_workdir_cleanup_candidate. destruct (decide (wd = [])) as [->|Hw].
  { rewrite (bool_decide_true ([] = [])) by done. split; [done|by intros [? _]]. }
  rewrite (bool_decide_false (wd = [])) by done. cbn [orb]. destruct (decide (p = [])) as [->|Hp].
  { rewrite bool_decide_true by done. split; [done|]. intros (_ & (rel & E & Hr & _) & _). by destruct (root_of wd), rel. }
  rewrite bool_decide_false by done. cbn zeta. destruct (Strings.begins_with p (root_of wd)) eqn:E; cbn [negb orb].
  - apply begins_with_spec in E as [rel ->]. rewrite drop_app_length. destruct (decide (rel = [])) as [->|Hr].
    { rewrite app_nil_r, bool_decide_true by done. split; [done|]. intros (_ & (rel & E & Hr & _) & _).
      apply (f_equal length) in E. rewrite length_app in E. destruct rel; simpl in E; [done|lia]. }
    rewrite bool_decide_false.
    2: { intros E%(f_equal length). rewrite length_app in E. destruct rel; simpl in E; [done|lia]. }
    destruct (has_dots rel) eqn:Ed.
    + split; [done|]. intros (_ & (rel' & E%app_inv_head & _ & H) & _). congruence.
    + rewrite negb_true_iff. split; [|tauto]. intros H. split_and!; [done| |done]. by exists rel.
  - split; [done|]. intros (_ & (rel & -> & _) & _).
    enough (Strings.begins_with (root_of wd ++ rel) (root_of wd) = true) by congruence. apply begins_with_spec. by exists rel.
Qed.

(** *** A round *)

(** The log of the attempts to delete one file. *)
Definition tried (c : candidate) (failures : nat) (ok : bool) : delete_log :=
  replicate failures (path c, false) ++ (if ok then [(path c, true)] else []).

(** The log of a round that deletes the files [ds] and may stop at a file that
    cannot be deleted. *)
Inductive deletions : list candidate -> option candidate -> delete_log -> Prop :=
| deletions_end : deletions [] None []
| deletions_stop c : deletions [] (Some c) (tried c 4 false)
| deletions_cons c k ds f log : (k <= 3)%nat -> deletions ds f log -> deletions (c :: ds) f (tried c k true ++ log).

Definition total (l : list candidate) : Z := foldr (fun c n => size c + n) 0 l.

Lemma total_app l k : total (l ++ k) = total l + total k.
Proof. unfold total. induction l as [|c l IH]; cbn [app foldr]; lia. Qed.

Lemma total_permutation l k : l ≡ₚ k -> total l = total k.
Proof. unfold total. induction 1; cbn [foldr]; lia. Qed.

Lemma attempts_spec df c n log b log' : attempts df (path c) n log = (b, log') ->
  exists k, log' = log ++ tried c k b /\ (if b then (k < n)%nat else k = n).
Proof.
  revert log. induction n as [|n IH]; intros log; cbn [attempts].
  - intros [= <- <-]. exists 0%nat. by rewrite app_nil_r.
  - destruct (df log (path c)) eqn:E; cbn zeta.
    + intros [= <- <-]. exists 0%nat. split; [done|lia].
    + intros (k & -> & Hk)%IH. exists (S k). split; [by rewrite <- app_assoc|]. destruct b; lia.
Qed.

(** The files that no stream uses. *)
Definition idle (active_files : active_map) (l : list candidate) : list candidate :=
  base.filter (fun c => is_active active_files (path c) = false) l.

Section CleanFacts.
Context (cfg : config) (active_files : active_map) (df : delete_function) (now_nsec : Z) (threshold : bool).

(** A deletion that the state of the round calls for. *)
Definition wanted (c : candidate) (rem : Z) : Prop :=
  is_active active_files (path c) = false
  /\ (is_expired cfg now_nsec c = true \/ (threshold = true /\ target_bytes cfg < rem)).

Definition sized (l : list candidate) : Prop := Forall (fun c => 0 <= size c) l.

Lemma total_nonneg l : sized l -> 0 <= total l.
Proof. induction 1; unfold total in *; cbn [foldr]; lia. Qed.

(** What a round over [l] that starts with [rem] bytes does. *)
Record cleaned (l : list candidate) (rem : Z) (ds : list candidate) (f : option candidate) : Prop := {
  cleaned_sublist : sublist (ds ++ option_list f) l;
  cleaned_wanted a c b : ds ++ option_list f = a ++ c :: b -> wanted c (rem - total a);
  cleaned_rest : f = None -> forall c, c ∈ l -> is_active active_files (path c) = false ->
    c ∈ ds \/ (is_expired cfg now_nsec c = false /\ (threshold = false \/ rem - total ds <= target_bytes cfg));
  cleaned_target : f = None -> threshold = true ->
    rem - total ds <= target_bytes cfg \/ total ds = total (idle active_files l);
  cleaned_lru c d : StronglySorted older l -> c ∈ l -> is_active active_files (path c) = false ->
    d ∈ ds -> is_expired cfg now_nsec d = false -> access_time c < access_time d -> c ∈ ds }.

Lemma cleaned_skip c l rem ds f : sized l -> cleaned l rem ds f ->
  is_active active_files (path c) = true
  \/ (is_expired cfg now_nsec c = false /\ (threshold = false \/ rem <= target_bytes cfg)) ->
  cleaned (c :: l) rem ds f.
Proof.
  intros Hl [H1 H2 H3 Ht H4] Hc.
  assert (Hds : sized ds).
  { unfold sized in *. rewrite Forall_forall in *. intros x Hx. apply Hl. eapply elem_of_sublist; [|exact H1].
    apply elem_of_app. by left. }
  split; [by apply sublist_cons|done| | |].
  - intros Hf c' Hc' Ha. apply elem_of_cons in Hc' as [->|Hc']; [|by apply H3]. right. destruct Hc as [?|[? Hr]]; [congruence|].
    split; [done|]. destruct Hr; [by left|right]. pose proof (total_nonneg ds Hds). lia.
  - intros Hf Hth. pose proof (total_nonneg ds Hds). unfold idle. rewrite filter_cons. destruct Hc as [Hc|[_ [?|?]]]; [|congruence|left; lia].
    rewrite decide_False by congruence. by apply Ht.
  - intros c' d [Hs Hs']%StronglySorted_inv Hc' Ha Hds' Hx Hlt. apply elem_of_cons in Hc' as [->|Hc']; [|by eapply H4].
    destruct Hc as [?|[_ Hr]]; [congruence|]. exfalso.
    apply list_elem_of_split in Hds' as (a & b' & ->). rewrite <- app_assoc in H2. cbn [app] in H2.
    destruct (H2 a d (b' ++ option_list f) eq_refl) as [_ [?|[? ?]]]; [congruence|].
    apply Forall_app in Hds as [Hds _]. pose proof (total_nonneg a Hds). destruct Hr; [congruence|lia].
Qed.

Lemma cleaned_stop c l rem : wanted c rem -> cleaned (c :: l) rem [] (Some c).
Proof.
  intros H. split; [cbn; apply sublist_skip, sublist_nil_l| |done|done|by intros ????? ?%not_elem_of_nil].
  intros a c' b E. cbn in E. destruct a as [|? a]; [|destruct a; discriminate]. injection E as <- _.
  unfold total. cbn [foldr]. by rewrite Z.sub_0_r.
Qed.

Lemma cleaned_delete c l rem ds f : wanted c rem -> cleaned l (rem - size c) ds f -> cleaned (c :: l) rem (c :: ds) f.
Proof.
  intros Hw [H1 H2 H3 Ht H4]. split.
  - by apply sublist_skip.
  - intros a c' b E. destruct a as [|c'' a]; cbn [app] in E; injection E as <- E.
    + unfold total. cbn [foldr]. by rewrite Z.sub_0_r.
    + change (total (c :: a)) with (size c + total a). rewrite Z.sub_add_distr. by eapply H2.
  - intros Hf c' Hc' Ha. apply elem_of_cons in Hc' as [->|Hc']; [by left; left|].
    destruct (H3 Hf c' Hc' Ha) as [?|[? Hr]]; [by left; right|right]. split; [done|].
    change (total (c :: ds)) with (size c + total ds). destruct Hr; [by left|right; lia].
  - intros Hf Hth. change (total (c :: ds)) with (size c + total ds). unfold idle. rewrite filter_cons, decide_True by apply Hw.
    change (total (c :: ?l)) with (size c + total l). destruct (Ht Hf Hth) as [?|E]; [left; lia|right]. unfold idle in E. lia.
  - intros c' d [Hs Hs']%StronglySorted_inv Hc' Ha Hds Hx Hlt. apply elem_of_cons in Hc' as [->|Hc']; [by left|].
    apply elem_of_cons in Hds as [->|Hds]; [|right; by eapply H4].
    rewrite Forall_forall in Hs'. specialize (Hs' c' Hc'). unfold older in Hs'. lia.
Qed.

Lemma clean_spec l r : sized l -> exists ds f log',
  deletions ds f log' /\ cleaned l (remaining r) ds f
  /\ clean cfg active_files df now_nsec threshold l r
     = mk_round (remaining r - total ds) (r_files r + len ds) (r_bytes r + total ds) (r_failed r + if f then 1 else 0)
         (log r ++ log').
Proof.
  intros Hl. revert r. induction Hl as [|c l Hc Hl IH]; intros r; cbn [clean].
  - exists [], None, []. split; [constructor|]. split; [|by destruct r; cbn; rewrite ?Z.sub_0_r, ?Z.add_0_r, ?app_nil_r].
    split; [done| |by intros _ ? ?%not_elem_of_nil|by right|by intros ??? ?%not_elem_of_nil].
    intros a c b E. by destruct a.
  - cbn zeta. set (must := threshold && _). destruct (negb must && negb (is_expired cfg now_nsec c)) eqn:E.
    { destruct (IH r) as (ds & f & log' & H1 & H2 & H3). exists ds, f, log'. split_and!; [done| |done].
      apply cleaned_skip; [done|done|]. right. apply andb_true_iff in E as [E1%negb_true_iff E2%negb_true_iff].
      split; [done|]. subst must. apply andb_false_iff in E1 as [?|?%Z.ltb_ge]; [by left|by right]. }
    destruct (is_active active_files (path c)) eqn:Ea.
    { destruct (IH r) as (ds & f & log' & H1 & H2 & H3). exists ds, f, log'. split_and!; [done| |done].
      apply cleaned_skip; [done|done|by left]. }
    assert (Hw : wanted c (remaining r)).
    { split; [done|]. apply andb_false_iff in E as [E%negb_false_iff|E%negb_false_iff]; [right|by left].
      subst must. by apply andb_true_iff in E as [? ?%Z.ltb_lt]. }
    unfold delete_workdir_file_with_retries. destruct (attempts df (path c) _ (log r)) as [b log1] eqn:E1.
    apply attempts_spec in E1 as (k & -> & Hk). destruct b; cbn [negb].
    + match goal with |- context [clean _ _ _ _ _ l ?r1] => destruct (IH r1) as (ds & f & log' & H1 & H2 & ->) end.
      exists (c :: ds), f, (tried c k true ++ log'). split; [constructor; [lia|done]|].
      split; [by apply cleaned_delete|]. cbn [remaining r_files r_bytes r_failed log].
      change (total (c :: ds)) with (size c + total ds). rewrite len_cons, <- app_assoc. f_equal; lia.
    + exists [], (Some c), (tried c 4 false). split; [constructor|]. split; [by apply cleaned_stop|].
      change (Z.to_nat (3 + 1)) with 4%nat in Hk. subst k. unfold total, len. cbn. f_equal; lia.
Qed.
End CleanFacts.

(** The files a walk finds. *)
Definition found (cfg : config) (entries : list walked) : list candidate := omap (scanned cfg) entries.

Lemma scan_spec cfg active_files entries :
  scan cfg active_files entries
  = mk_scan (len (found cfg entries)) (total (found cfg entries)) (idle active_files (found cfg entries)).
Proof.
  unfold scan. enough (H : forall st, foldl (scan_entry cfg active_files) st entries
    = mk_scan (s_files st + len (found cfg entries)) (s_bytes st + total (found cfg entries))
        (s_candidates st ++ idle active_files (found cfg entries))) by apply H.
  unfold found, idle, total. induction entries as [|e es IH]; intros st; cbn [foldl omap list_omap].
  - destruct st. cbn. rewrite app_nil_r, !Z.add_0_r. done.
  - rewrite IH. unfold scan_entry. destruct (scanned cfg e) as [c|]; [|done].
    cbn [s_files s_bytes s_candidates foldr]. rewrite len_cons, filter_cons. f_equal; [lia|lia|].
    destruct (is_active active_files (path c)); [by rewrite decide_False by done|].
    rewrite decide_True by done. by rewrite <- app_assoc.
Qed.

Lemma found_sized cfg entries : sized (found cfg entries).
Proof.
  apply Forall_forall. intros c (e & _ & He)%list_elem_of_omap. revert He. unfold scanned.
  destruct (w_type e); try done. case_bool; [done|]. destruct (w_stat e) as [st|]; [|done]. case_bool; [done|].
  intros [= <-]. cbn [size]. lia.
Qed.

Section RoundFacts.
Context (sort : list candidate -> list candidate) `{!Sorting sort} (df : delete_function).
Context (cfg : config) (active_files : active_map) (entries : list walked) (now_nsec : Z) (available : option Z).

Lemma sorted_idle_sized : sized (sort (idle active_files (found cfg entries))).
Proof using Type*.
  unfold sized. rewrite sort_permutation. unfold idle. apply Forall_forall. intros c [_ Hc]%list_elem_of_filter.
  pose proof (found_sized cfg entries) as H. unfold sized in H. rewrite Forall_forall in H. by apply H.
Qed.

Lemma elem_sorted_idle c : c ∈ sort (idle active_files (found cfg entries)) <->
  c ∈ found cfg entries /\ is_active active_files (path c) = false.
Proof using Type*. rewrite sort_permutation. unfold idle. rewrite list_elem_of_filter. tauto. Qed.

Lemma round_spec r log : run_workdir_cleanup sort df cfg active_files entries now_nsec available = (r, log) ->
  exists ds f, deletions ds f log
  /\ cleaned cfg active_files now_nsec (threshold_cleanup r) (sort (idle active_files (found cfg entries)))
       (total (found cfg entries)) ds f
  /\ r = mk_result (total (found cfg entries)) (len (found cfg entries)) (total ds) (len ds) (if f then 1 else 0)
           (Space.get_free_space available) (threshold_cleanup r) (disk_emergency r)
  /\ threshold_cleanup r = ((0 <? threshold_bytes cfg) && (threshold_bytes cfg <=? total (found cfg entries))).
Proof using Type*.
  unfold run_workdir_cleanup. rewrite scan_spec. cbn [s_files s_bytes s_candidates].
  destruct (clean_spec cfg active_files df now_nsec ((0 <? threshold_bytes cfg) && (threshold_bytes cfg <=? total (found cfg entries)))
    _ (mk_round (total (found cfg entries)) 0 0 0 []) sorted_idle_sized) as (ds & f & log' & H1 & H2 & E).
  rewrite E. cbn [Cleanup.log r_files r_bytes r_failed]. intros [= <- <-]. exists ds, f. by split_and!.
Qed.
End RoundFacts.

(** *** References *)

Import Manager.

(** The references that a sequence of messages adds to a path, when no reference
    is given back that was not taken. *)
Definition reference (p : bytes) (e : event) : Z :=
  match e with
  | Retain q => if bool_decide (p = q) then 1 else 0
  | Release q => if bool_decide (p = q) then -1 else 0
  | _ => 0
  end.
Definition references (p : bytes) (l : list event) : Z := foldr (fun e n => reference p e + n) 0 l.

Definition run_events (sort : list candidate -> list candidate) (df : delete_function) (m : manager) (l : list event) : manager :=
  foldl (fun m e => fst (handle sort df m e)) m l.

(** Each path has been released at most as often as it was retained. *)
Definition paired (l : list event) : Prop := forall k p, k `prefix_of` l -> 0 <= references p k.

Lemma references_app p l k : references p (l ++ k) = references p l + references p k.
Proof. unfold references. induction l as [|e l IH]; cbn [app foldr]; lia. Qed.

(** The references a manager counts after the messages [l]. *)
Definition counts (m : manager) (l : list event) : Prop := forall p,
  active_files m !! p = if is_workdir_cleanup_candidate (workdir (config_ m)) p && (0 <? references p l)
                        then Some (references p l) else None.

Section References.
Context (sort : list candidate -> list candidate) (df : delete_function).

Lemma handle_keeps m e : config_ (fst (handle sort df m e)) = config_ m
  /\ match e with Retain _ | Release _ => True | _ => active_files (fst (handle sort df m e)) = active_files m end.
Proof.
  destruct e; cbn [handle fst].
  - unfold retain_file. by case_bool.
  - unfold release_file. destruct (_ !! _); [by case_bool|done].
  - unfold trigger_threshold_check, run_cleanup. by destruct (run_workdir_cleanup _ _ _ _ _ _ _).
  - unfold timeout_expired, run_cleanup. by destruct (run_workdir_cleanup _ _ _ _ _ _ _).
Qed.

Lemma handle_counts m l e : counts m l -> (forall p, 0 <= references p l) -> (forall p, 0 <= references p (l ++ [e])) ->
  counts (fst (handle sort df m e)) (l ++ [e]).
Proof.
  intros H H0 Hn p. destruct (handle_keeps m e) as [-> Hk]. specialize (Hn p). specialize (H0 p).
  pose proof (H p) as Hp. replace (references p (l ++ [e])) with (references p l + reference p e) in *
    by (rewrite references_app; unfold references at 3; cbn [foldr]; lia).
  destruct e as [q|q|w|now w]; cbn [reference] in *; rewrite ?Z.add_0_r; [| |by rewrite Hk|by rewrite Hk]; cbn [handle fst].
  - unfold retain_file. destruct (decide (p = q)) as [<-|Hpq].
    + rewrite bool_decide_true in * by done. destruct (is_workdir_cleanup_candidate _ p); cbn [andb] in *; [|done].
      cbn [active_files with_active]. rewrite lookup_insert_eq, Hp. rewrite (ltb_true 0 (_ + 1)) by lia.
      destruct (0 <? references p l) eqn:E; cbn [default from_option id]; [done|].
      apply Z.ltb_ge in E. f_equal. lia.
    + rewrite bool_decide_false in * by done. rewrite Z.add_0_r. case_bool; [|done].
      cbn [active_files with_active]. by rewrite lookup_insert_ne by done.
  - unfold release_file. destruct (decide (p = q)) as [<-|Hpq].
    + rewrite bool_decide_true in * by done. rewrite (ltb_true 0 (references p l)) in Hp by lia. rewrite Hp.
      destruct (is_workdir_cleanup_candidate _ p); cbn [andb] in *; [|done].
      change (references p l + -1) with (references p l - 1) in *.
      destruct (references p l - 1 <=? 0) eqn:E; cbn [active_files with_active].
      * rewrite lookup_delete_eq. apply Z.leb_le in E. by rewrite ltb_false by lia.
      * rewrite lookup_insert_eq. apply Z.leb_gt in E. by rewrite ltb_true by lia.
    + rewrite bool_decide_false in * by done. rewrite Z.add_0_r. destruct (active_files m !! q); [|done].
      case_bool; cbn [active_files with_active]; [by rewrite lookup_delete_ne by done|by rewrite lookup_insert_ne by done].
Qed.

Lemma run_counts cfg sh l : paired l -> counts (run_events sort df (create cfg sh) l) l
  /\ config_ (run_events sort df (create cfg sh) l) = cfg.
Proof.
  unfold run_events. induction l as [|e l IH] using rev_ind; intros Hp.
  - split; [|done]. intros p. cbn. by rewrite andb_false_r.
  - rewrite foldl_app. cbn [foldl]. destruct IH as [IH1 IH2].
    { intros k p Hk. apply Hp. by apply prefix_app_r. }
    split; [|by rewrite (proj1 (handle_keeps _ e)), IH2]. apply handle_counts; [done| |].
    + intros p. apply Hp. by apply prefix_app_r.
    + intros p. by apply Hp.
Qed.
End References.

(** *** What a log of deletions names *)

Lemma deletions_paths ds f log q : deletions ds f log -> q ∈ log.*1 -> exists c, c ∈ ds ++ option_list f /\ path c = q.
Proof.
  induction 1 as [|c|c k ds f log Hk _ IH]; intros Hq; [by apply not_elem_of_nil in Hq| |].
  - exists c. split; [by left|]. cbn in Hq. by repeat (apply elem_of_cons in Hq as [->|Hq]; [done|]); apply not_elem_of_nil in Hq.
  - rewrite fmap_app in Hq. apply elem_of_app in Hq as [Hq|Hq].
    + exists c. split; [by left|]. unfold tried in Hq. rewrite fmap_app, fmap_replicate in Hq.
      apply elem_of_app in Hq as [[? _]%elem_of_replicate|Hq]; [done|]. apply elem_of_cons in Hq as [->|Hq]; [done|].
      by apply not_elem_of_nil in Hq.
    + destruct (IH Hq) as (c' & Hc' & E). exists c'. split; [by right|done].
Qed.

Lemma deletions_deleted ds f log c : deletions ds f log -> c ∈ ds -> (path c, true) ∈ log.
Proof.
  induction 1 as [|c'|c' k ds f log Hk _ IH]; intros Hc; [by apply not_elem_of_nil in Hc|by apply not_elem_of_nil in Hc|].
  apply elem_of_cons in Hc as [->|Hc]; apply elem_of_app; [left|right; by apply IH].
  unfold tried. apply elem_of_app. right. by left.
Qed.

Lemma found_spec cfg entries c : c ∈ found cfg entries <->
  exists st, mk_walked (path c) RegularFile (Some st) ∈ entries /\ is_reg st = true
  /\ is_workdir_cleanup_candidate (workdir cfg) (path c) = true /\ size c = Z.max 0 (st_size st) /\ access_time c = atime_nsec st.
Proof.
  unfold found. rewrite list_elem_of_omap. split.
  - intros ([p ty st] & He & Hs). unfold scanned in Hs. cbn [w_type w_path w_stat] in Hs. destruct ty; try done.
    destruct (is_workdir_cleanup_candidate _ p) eqn:Ec; [|done]. destruct st as [st|]; [|done].
    destruct (is_reg st) eqn:Er; [|done]. injection Hs as <-. by exists st.
  - intros (st & He & Hr & Hc & Hs & Ha). eexists. split; [exact He|]. unfold scanned. cbn [w_type w_path w_stat].
    rewrite Hc, Hr. cbn [negb]. destruct c; cbn in *. by rewrite Hs, Ha.
Qed.

Definition older_bool (c d : candidate) : bool := access_time c <=? access_time d.

#[global] Instance older_dec c d : Decision (older c d) := decide (access_time c <= access_time d).
#[global] Instance older_total : Total older.
Proof. intros c d. unfold older. lia. Qed.
#[global] Instance older_transitive : Transitive older.
Proof. intros c d e. unfold older. lia. Qed.

(** Merge sort is one of the sorting functions. *)
#[global] Instance merge_sort_sorting : Sorting (merge_sort older).
Proof.
  split; intros l; [apply merge_sort_Permutation|].
  apply StronglySorted_merge_sort; apply _.
Qed.

(** ** Properties *)

(** Which files may be removed.  A path is a candidate exactly when it lies
    strictly below the directory, its part below it has no two dots in a row (so
    that it never climbs), and it is not one of the database files of TDLib: the
    name after the last slash does not end with one of six suffixes. *)
Theorem workdir_candidates (workdir path : bytes) :
  (is_workdir_cleanup_candidate workdir path = true <->
    workdir <> [] /\ is_tdlib_persistent_file path = false
    /\ exists rel, path = root_of workdir ++ rel /\ rel <> [] /\ ~ exists a b, rel = a ++ lit ".." ++ b)
  /\ (forall dir name, path = dir ++ "/"%char :: name -> "/"%char ∉ name ->
      is_tdlib_persistent_file path = true <->
      exists stem suffix, name = stem ++ suffix
        /\ suffix ∈ lit <$> [".binlog"; ".binlog.new"; ".sqlite"; ".sqlite-wal"; ".sqlite-shm"; ".sqlite-journal"]%string).
Proof.
  split.
  - rewrite candidate_spec. split.
    + intros (H1 & (rel & H2 & H3 & H4) & H5). split_and!; [done|done|]. exists rel. split_and!; [done|done|].
      rewrite <- has_dots_spec. congruence.
    + intros (H1 & H5 & rel & H2 & H3 & H4). split_and!; [done| |done]. exists rel. split_and!; [done|done|].
      rewrite <- has_dots_spec in H4. by destruct (has_dots rel).
  - intros dir name -> Hn. unfold is_tdlib_persistent_file. rewrite file_name_below by done. cbn zeta.
    destruct (decide (name = [])) as [->|Hne].
    + rewrite bool_decide_true by done. split; [done|]. intros (stem & suffix & E & Hs). symmetry in E.
      apply app_eq_nil in E as [_ ->]. apply list_elem_of_fmap in Hs as (s & E & Hs). exfalso.
      repeat (apply elem_of_cons in Hs as [->|Hs]; [done|]). by apply not_elem_of_nil in Hs.
    + rewrite bool_decide_false by done.
      assert (forall b c : bool, (if b then true else c) = b || c) as -> by by intros [].
      rewrite !orb_true_iff, !ends_with_spec. split.
      * intros H. destruct_or!; destruct H as [t ->]; exists t; eexists; (split; [done|]); apply list_elem_of_fmap; eexists; (split; [done|]);
          set_solver.
      * intros (stem & suffix & -> & Hs). apply list_elem_of_fmap in Hs as (s & -> & Hs).
        repeat (apply elem_of_cons in Hs as [->|Hs]; [eauto 10|]). by apply not_elem_of_nil in Hs.
Qed.

(** Admission of a new local copy.  The copy is admitted exactly when the
    free space is known and holds the minimum to be kept free and what the copy
    adds, the sum being saturated instead of overflowing; an unknown free space
    refuses, and the sizes reported stay in 64 bits. *)
Theorem workdir_space_admission (free min_free file_size existing margin : Z) :
  is_int64 free -> is_int64 min_free -> is_int64 file_size -> is_int64 existing -> is_int64 margin ->
  let added := if file_size <? 0 then Z.max 0 margin else Z.max 0 (file_size - Z.max 0 existing) in
  let r := Space.check_workdir_space free min_free file_size existing margin in
  (Space.allowed r = true <-> 0 <= free /\ Z.min int64_max (Z.max 0 min_free + added) <= free)
  /\ (Space.free_space_known r = true <-> 0 <= free)
  /\ Space.required_bytes r = (if free <? 0 then 0 else Z.min int64_max (Z.max 0 min_free + added))
  /\ is_int64 (Space.required_bytes r) /\ is_int64 (Space.increment_bytes r) /\ 0 <= Space.increment_bytes r.
Proof.
  unfold is_int64, int64_min, int64_max. intros H1 H2 H3 H4 H5. cbn zeta. unfold Space.check_workdir_space.
  destruct (free <? 0) eqn:E; cbn [Space.allowed Space.free_space_known Space.required_bytes Space.increment_bytes].
  { apply Z.ltb_lt in E. split_and!; try lia; split; (discriminate || lia). }
  apply Z.ltb_ge in E.
  assert ((if 0 <=? file_size then Z.max 0 (file_size - Z.max 0 existing) else Z.max 0 margin)
    = (if file_size <? 0 then Z.max 0 margin else Z.max 0 (file_size - Z.max 0 existing))) as ->.
  { destruct (0 <=? file_size) eqn:E1, (file_size <? 0) eqn:E2; try done; lia. }
  set (added := if file_size <? 0 then _ else _).
  assert (0 <= added <= 9223372036854775807) by (subst added; case_bool; lia). clearbody added.
  unfold int64_max. rewrite Z.leb_le. case_bool; [apply Z.ltb_lt in Heqb|apply Z.ltb_ge in Heqb];
    (split_and!; [lia|by split|lia..]).
Qed.

Lemma workdir_space_admission_witness :
  Space.allowed (Space.check_workdir_space 1500 1000 700 200 0) = true.
Proof.
  apply (workdir_space_admission 1500 1000 700 200 0); unfold is_int64, int64_min, int64_max;
    first [lia|split; [lia|vm_compute; discriminate]].
Defined.

(** A round of the cleanup.  Every file it tries to delete was found by the
    walk as a regular file and candidate, is used by no stream, and is either
    expired or needed to come down to the target at that moment.  Files are
    tried from the least recently used on; each is tried at most four times,
    and one that cannot be deleted ends the round.  The counts that are
    published are those of the walk and of the deletions. *)
Theorem cleanup_round (sort : list candidate -> list candidate) (delete_file : delete_function) (cfg : config)
    (active_files : active_map) (entries : list walked) (now_nsec : Z) (available : option Z)
    (r : cleanup_result) (log : delete_log) :
  Sorting sort -> run_workdir_cleanup sort delete_file cfg active_files entries now_nsec available = (r, log) ->
  exists ds f, deletions ds f log /\ StronglySorted older (ds ++ option_list f)
  /\ (forall a c b, ds ++ option_list f = a ++ c :: b ->
        c ∈ found cfg entries /\ wanted cfg active_files now_nsec (threshold_cleanup r) c (scanned_bytes r - total a))
  /\ scanned_files r = len (found cfg entries) /\ scanned_bytes r = total (found cfg entries)
  /\ deleted_files r = len ds /\ deleted_bytes r = total ds /\ failed_files r = (if f then 1 else 0).
Proof.
  intros Hsort H. destruct (round_spec sort delete_file cfg active_files entries now_nsec available r log H)
    as (ds & f & H1 & [H2 H3 _ _ _] & E & _).
  exists ds, f. split; [done|]. split.
  - pose proof (sort_sorted (idle active_files (found cfg entries))) as Hs.
    revert Hs H2. generalize (sort (idle active_files (found cfg entries))) (ds ++ option_list f). clear.
    intros l k Hs Hk. induction Hk as [|x k l Hk IH|x k l Hk IH]; [done| |].
    + apply StronglySorted_inv in Hs as [Hs Hx]. constructor; [by apply IH|]. rewrite Forall_forall in *.
      intros y Hy. apply Hx. by eapply elem_of_sublist.
    + apply StronglySorted_inv in Hs as [Hs _]. by apply IH.
  - pose proof (f_equal scanned_bytes E) as E1. cbn [scanned_bytes] in E1. rewrite E1.
    split; [|by rewrite E]. intros a c b Eq. split; [|by eapply H3].
    assert (c ∈ ds ++ option_list f) as Hc by (rewrite Eq; set_solver).
    eapply elem_of_sublist in Hc; [|done]. by apply elem_sorted_idle in Hc as [? _].
Qed.

Definition sample_config : config := mk_config (lit "/w") 10 5 3600 0 1.
Definition sample_entries : list walked :=
  [mk_walked (lit "/w") EnterDir None;
   mk_walked (lit "/w/new") RegularFile (Some (mk_stat true 6 30));
   mk_walked (lit "/w/used") RegularFile (Some (mk_stat true 4 10));
   mk_walked (lit "/w/td.binlog") RegularFile (Some (mk_stat true 4 10));
   mk_walked (lit "/w/old") RegularFile (Some (mk_stat true 7 20))].
Definition sample_active : active_map := {[lit "/w/used" := 1]}.
(** The first attempt fails. *)
Definition sample_delete : delete_function := fun log _ => bool_decide (log <> []).

Definition sample_run : cleanup_result * delete_log :=
  run_workdir_cleanup (merge_sort older) sample_delete sample_config sample_active sample_entries 100 (Some 50).

Lemma cleanup_round_witness : exists ds f, deletions ds f (snd sample_run)
  /\ deleted_bytes (fst sample_run) = total ds /\ deleted_bytes (fst sample_run) = 13.
Proof.
  destruct (cleanup_round (merge_sort older) sample_delete sample_config sample_active sample_entries 100 (Some 50)
    (fst sample_run) (snd sample_run) merge_sort_sorting ltac:(vm_compute; reflexivity)) as (ds & f & H1 & _ & _ & _ & _ & _ & H2 & _).
  exists ds, f. split; [exact H1|]. split; [exact H2|]. vm_compute. reflexivity.
Defined.

(** What a round achieves.  When no deletion failed, every expired file that
    is not in use is gone; after a round above the threshold what is left is at
    most the target or what the streams use; and an unexpired file goes only
    after every file not in use that was used less recently. *)
Theorem cleanup_achieves (sort : list candidate -> list candidate) (delete_file : delete_function) (cfg : config)
    (active_files : active_map) (entries : list walked) (now_nsec : Z) (available : option Z)
    (r : cleanup_result) (log : delete_log) :
  Sorting sort -> run_workdir_cleanup sort delete_file cfg active_files entries now_nsec available = (r, log) ->
  failed_files r = 0 ->
  let files := idle active_files (found cfg entries) in
  exists ds, deletions ds None log
  /\ (forall c, c ∈ files -> is_expired cfg now_nsec c = true -> c ∈ ds)
  /\ (threshold_cleanup r = true ->
      scanned_bytes r - deleted_bytes r <= Z.max (target_bytes cfg) (total (found cfg entries) - total files))
  /\ (forall c d, c ∈ files -> d ∈ ds -> is_expired cfg now_nsec d = false -> access_time c < access_time d -> c ∈ ds).
Proof.
  intros Hsort H Hf. destruct (round_spec sort delete_file cfg active_files entries now_nsec available r log H)
    as (ds & f & H1 & [H2 H3 H4 Ht H5] & E & _).
  assert (f = None) as ->.
  { pose proof (f_equal failed_files E) as E1. cbn [failed_files] in E1. destruct f; [lia|done]. }
  assert (Hfiles : forall c, c ∈ idle active_files (found cfg entries) ->
    c ∈ sort (idle active_files (found cfg entries)) /\ is_active active_files (path c) = false).
  { intros c Hc. rewrite sort_permutation. split; [done|]. by apply list_elem_of_filter in Hc as [? _]. }
  cbn zeta. exists ds. split_and!; [done| | |].
  - intros c [Hc Ha]%Hfiles Hx. destruct (H4 eq_refl c Hc Ha) as [?|[? _]]; [done|congruence].
  - intros Hth. rewrite E. cbn [scanned_bytes deleted_bytes]. destruct (Ht eq_refl Hth) as [?| ->]; [lia|].
    assert (total (idle active_files (sort (idle active_files (found cfg entries)))) = total (idle active_files (found cfg entries))) as ->; [|lia].
    apply total_permutation. unfold idle at 1. rewrite sort_permutation. unfold idle.
    by rewrite list_filter_filter_l by done.
  - intros c d [Hc Ha]%Hfiles Hd Hx Hlt. eapply H5; try done. apply sort_sorted.
Qed.

Lemma cleanup_achieves_witness : exists ds, deletions ds None (snd sample_run)
  /\ scanned_bytes (fst sample_run) - deleted_bytes (fst sample_run) <= 5.
Proof.
  destruct (cleanup_achieves (merge_sort older) sample_delete sample_config sample_active sample_entries 100 (Some 50)
    (fst sample_run) (snd sample_run) merge_sort_sorting ltac:(vm_compute; reflexivity) ltac:(vm_compute; reflexivity))
    as (ds & H1 & _ & H2 & _).
  exists ds. split; [exact H1|]. etrans; [apply H2; vm_compute; reflexivity|]. vm_compute. discriminate.
Defined.

(** C38. References protect files.  After any messages in which no reference is
    given back that was not taken, the actor counts for each path below the
    directory exactly the references that are held, and forgets a path with its
    last one; a round started then asks to delete no path that is still held. *)
Theorem references_protect (sort : list candidate -> list candidate) (delete_file : delete_function) (cfg : config)
    (sh : shared) (l : list event) (p : bytes) (w : surroundings) :
  Sorting sort -> paired l ->
  let m := run_events sort delete_file (create cfg sh) l in
  active_files m !! p
    = (if is_workdir_cleanup_candidate (workdir cfg) p && (0 <? references p l) then Some (references p l) else None)
  /\ (0 < references p l -> p ∉ (snd (run_cleanup sort delete_file m w)).*1).
Proof.
  intros Hs Hp. cbn zeta. destruct (run_counts sort delete_file cfg sh l Hp) as [Hc Hcfg].
  set (m := run_events _ _ _ _) in *. specialize (Hc p). rewrite Hcfg in Hc. split; [done|]. intros Hr Hin.
  unfold run_cleanup in Hin. destruct (run_workdir_cleanup _ _ _ _ _ _ _) as [r log] eqn:E. cbn [snd] in Hin.
  apply round_spec in E as (ds & f & H1 & [H2 _ _ _ _] & _); [|done].
  destruct (deletions_paths _ _ _ _ H1 Hin) as (c & Hcd & <-).
  eapply elem_of_sublist in Hcd; [|done]. apply elem_sorted_idle in Hcd as [Hfound Ha]; [|done].
  apply found_spec in Hfound as (st & _ & _ & Hcand & _). rewrite Hcfg in Hcand. rewrite Hcand, ltb_true in Hc by done.
  unfold is_active in Ha. cbn [andb] in Hc. rewrite Hc in Ha. apply Z.ltb_ge in Ha. lia.
Qed.

Definition sample_shared : shared := mk_shared 0 0 0 0 false false.

Lemma references_protect_witness :
  lit "/w/new" ∉ (snd (run_cleanup (merge_sort older) sample_delete
    (run_events (merge_sort older) sample_delete (create sample_config sample_shared) [Retain (lit "/w/new")])
    (mk_surroundings sample_entries 100 (Some 50)))).*1.
Proof.
  apply (references_protect (merge_sort older) sample_delete sample_config sample_shared [Retain (lit "/w/new")] (lit "/w/new")
    (mk_surroundings sample_entries 100 (Some 50)) merge_sort_sorting).
  - intros k p [k' Hk]. destruct k as [|e [|e' k]]; [discriminate| |discriminate].
    injection Hk as <- _. unfold references, reference. cbn [foldr]. destruct (bool_decide _); discriminate.
  - vm_compute. reflexivity.
Defined.

(** The timer and the flags of the cleanup.  With a positive interval, each
    expiry arms the next one strictly later and within the smaller of five
    minutes and the interval; the periodic round moves on by one interval exactly
    when it was due.  The disk emergency and the request to shut down are raised by every
    round that leaves less than the minimum free, and nothing takes them back. *)
Theorem cleanup_timer (sort : list candidate -> list candidate) (delete_file : delete_function) (m : manager)
    (now : time) (w : surroundings) :
  (0 < interval (config_ m))%Q ->
  let m' := fst (timeout_expired sort delete_file m now w) in
  (exists t, timeout m' = Some t /\ now < t /\ t <= now + qmin 300 (interval (config_ m)))%Q
  /\ next_periodic_cleanup m' = (if qleb (next_periodic_cleanup m) now then (now + interval (config_ m))%Q else next_periodic_cleanup m)
  /\ workdir_cleanup_runs (shared_data m') = workdir_cleanup_runs (shared_data m) + 1
  /\ (let low := (0 <? min_free_bytes (config_ m)) && (0 <=? Space.get_free_space (available w))
                 && (Space.get_free_space (available w) <? min_free_bytes (config_ m)) in
      workdir_disk_emergency (shared_data m') = workdir_disk_emergency (shared_data m) || low
      /\ workdir_shutdown_requested (shared_data m') = workdir_shutdown_requested (shared_data m) || low)
  /\ (forall e, workdir_disk_emergency (shared_data m) = true ->
        workdir_disk_emergency (shared_data (fst (handle sort delete_file m e))) = true).
Proof.
  intros Hi. cbn zeta. split_and!.
  - unfold timeout_expired, run_cleanup, run_workdir_cleanup, schedule_next. cbn [fst timeout with_times with_shared
      next_periodic_cleanup next_threshold_check config_]. eexists. split; [done|].
    unfold THRESHOLD_CHECK_INTERVAL, qmin. case_q; lra.
  - unfold timeout_expired, run_cleanup, run_workdir_cleanup. done.
  - unfold timeout_expired, run_cleanup, run_workdir_cleanup. done.
  - unfold timeout_expired, run_cleanup, run_workdir_cleanup. done.
  - unfold timeout_expired, run_cleanup, run_workdir_cleanup. done.
  - intros [q|q|w'|now' w'] H; cbn [handle fst].
    + unfold retain_file. by case_bool.
    + unfold release_file. destruct (_ !! _); [by case_bool|done].
    + cbn. by rewrite H.
    + cbn. by rewrite H.
Qed.

Lemma cleanup_timer_witness : workdir_disk_emergency (shared_data (fst (timeout_expired (merge_sort older) sample_delete
  (start_up (create sample_config sample_shared) 1000) 1000 (mk_surroundings sample_entries 100 (Some 0))))) = true.
Proof.
  destruct (cleanup_timer (merge_sort older) sample_delete (start_up (create sample_config sample_shared) 1000) 1000
    (mk_surroundings sample_entries 100 (Some 0)) ltac:(reflexivity)) as (_ & _ & _ & [H _] & _).
  rewrite H. reflexivity.
Defined.
