(* ===== verification/HttpUrl.v ===== *)
(** * URLs ([td/utils/HttpUrl.h], [td/utils/HttpUrl.cpp])

    Module [Url]: [parse_url] with its normalisation, [HttpUrl::get_url],
    [parse_url_query] and the file name of a URL.  The facts lead to the round
    trip of the two and to what a parsed URL never contains. *)

From S2P Require Import Prelude TdMisc Utf8 TextParser IPAddress.

Module Url.
Import Parser Strings Integers Chars.

Inductive protocol := Http | Https.
#[export] Instance protocol_eq_dec : EqDecision protocol.
Proof. solve_decision. Defined.

Record http_url := mk_url {
  protocol_ : protocol; userinfo_ : bytes; host_ : bytes; is_ipv6_ : bool;
  specified_port_ : Z; port_ : Z; query_ : bytes }.

(** [None]: the failed [LOG_CHECK] on the query. *)
Definition get_url (u : http_url) : option bytes :=
  match query_ u with
  | c :: _ =>
    if decide (c = "/"%char) then
      Some (match protocol_ u with Http => lit "http://" | Https => lit "https://" end
            ++ (if bool_decide (userinfo_ u = []) then [] else userinfo_ u ++ ["@"%char])
            ++ host_ u
            ++ (if 0 <? specified_port_ u then ":"%char :: print_int int32_min (specified_port_ u) else [])
            ++ query_ u)
    else None
  | [] => None
  end.

(** The loop from the end: the last of [:]@] that is not the first char, or 0. *)
Definition is_mark (c : ascii) : bool :=
  bool_decide (c = ":"%char) || bool_decide (c = "]"%char) || bool_decide (c = "@"%char).
Fixpoint last_mark (s : bytes) (i : nat) : nat :=
  match i with
  | O => O
  | S j => match s !! i with Some c => if is_mark c then i else last_mark s j | None => last_mark s j end
  end.

Fixpoint remove_zeros (s : bytes) : bytes :=
  match s with
  | c :: (_ :: _) as s' => if decide (c = "0"%char) then remove_zeros s' else s
  | _ => s
  end.

(** The port, -1 if it is wrong, and the text before it. *)
Definition split_port (userinfo_host_port : bytes) : Z * bytes :=
  let colon := last_mark userinfo_host_port (length userinfo_host_port - 1) in
  if (0 <? colon)%nat && bool_decide (userinfo_host_port !! colon = Some ":"%char) then
    let port_slice := remove_zeros (drop (S colon) userinfo_host_port) in
    let port := match to_integer_safe check_utf8 32 port_slice with
                | Ok v => if v =? 0 then -1 else v
                | Err _ => -1
                end in
    (port, take colon userinfo_host_port)
  else (0, userinfo_host_port).

(** [rfind]. *)
Definition rfind (c : ascii) (s : bytes) : option nat :=
  match find c (reverse s) with Some i => Some (length s - 1 - i)%nat | None => None end.

Definition split_userinfo (userinfo_host : bytes) : bytes * bytes :=
  match rfind "@"%char userinfo_host with
  | None => ([], userinfo_host)
  | Some pos => (take pos userinfo_host, drop (S pos) userinfo_host)
  end.

Definition escape (c : ascii) : bytes := if ord c <=? 32 then Coding.percent c else [c].

Definition normalize_query (rest : bytes) : bytes :=
  let query := reverse (drop_spaces (reverse rest)) in
  let query := if bool_decide (query = []) then lit "/" else query in
  (if bool_decide (head query = Some "/"%char) then [] else ["/"%char]) ++ (query ≫= escape).

Definition is_part_char (allow_colon : bool) (c : ascii) : bool :=
  is_alnum c || contains c (lit ".-_!$,~*'();&+=") || (allow_colon && bool_decide (c = ":"%char)).

(** A percent at the end reads the char after the slice, the terminating zero of
    the host or the [@] after the user information: neither is a hex digit. *)
Fixpoint check_url_part (part : bytes) (name : string) (allow_colon : bool) : result unit :=
  match part with
  | [] => Ok tt
  | c :: rest =>
    if is_part_char allow_colon c then check_url_part rest name allow_colon
    else if decide (c = "%"%char) then
      match rest with
      | a :: b :: rest =>
        if is_hex_digit a && is_hex_digit b then check_url_part rest name allow_colon
        else Err (Status 0 (lit "Wrong percent-encoded symbol in URL " ++ lit name))
      | _ => Err (Status 0 (lit "Wrong percent-encoded symbol in URL " ++ lit name))
      end
    else if 128 <=? ord c then check_url_part rest name allow_colon
    else Err (Status 0 (lit "Disallowed character in URL " ++ lit name))
  end.

Definition is_ipv6_char (c : ascii) : bool :=
  bool_decide (c = ":"%char) || ((48 <=? ord c) && (ord c <=? 57)) || ((97 <=? ord c) && (ord c <=? 102)) || bool_decide (c = "."%char).

Section Parse.
(** [inet_pton(AF_INET6, ...)]. *)
Context (inet_pton6 : bytes -> pton_result bytes).

Definition is_bracketed (host : bytes) : bool :=
  bool_decide (head host = Some "["%char) && bool_decide (last host = Some "]"%char).

Definition check_host (is_ipv6 : bool) (host_str userinfo : bytes) : result unit :=
  if is_ipv6 then
    if forallb is_ipv6_char (take (length host_str - 2) (drop 1 host_str)) then Ok tt
    else Err (Status 0 (lit "Wrong IPv6 URL host"))
  else
    match check_url_part host_str "host" false with
    | Err e => Err e
    | Ok _ => check_url_part userinfo "userinfo" true
    end.

Definition parse_protocol (url : bytes) (default_protocol : protocol) : result (protocol * parser) :=
  let '(protocol_str, p) := read_till_nofail_any (lit ":/?#@[]") (init url) in
  let protocol_str := Strings.to_lower protocol_str in
  let '(found, p) := try_skip (lit "://") p in
  if found then
    if bool_decide (protocol_str = lit "http") then Ok (Http, p)
    else if bool_decide (protocol_str = lit "https") then Ok (Https, p)
    else Err (Status 0 (lit "Unsupported URL protocol"))
  else Ok (default_protocol, init url).

Definition wrong_ipv6 (host : bytes) : bool :=
  match snd (init_ipv6_port inet_pton6 host 1) with Ok _ => false | Err _ => true end.

Definition parse_url (url : bytes) (default_protocol : protocol) : result http_url :=
  match parse_protocol url default_protocol with
  | Err e => Err e
  | Ok (protocol, p) =>
    let '(userinfo_host_port, p) := read_till_nofail_any (lit "/?#") p in
    let '(port, userinfo_host) := split_port userinfo_host_port in
    if (port <? 0) || (65535 <? port) then Err (Status 0 (lit "Wrong port number specified in the URL"))
    else
      let '(userinfo, host) := split_userinfo userinfo_host in
      let is_ipv6 := is_bracketed host in
      if is_ipv6 && wrong_ipv6 host then Err (Status 0 (lit "Wrong IPv6 address specified in the URL"))
      else if bool_decide (host = []) then Err (Status 0 (lit "URL host is empty"))
      else if bool_decide (host = lit ".") then Err (Status 0 (lit "Host is invalid"))
      else
        let specified_port := port in
        let port := if port =? 0 then match protocol with Http => 80 | Https => 443 end else port in
        let query_str := normalize_query (fst (read_all p)) in
        let host_str := Strings.to_lower host in
        match check_host is_ipv6 host_str userinfo with
        | Err e => Err e
        | Ok _ => Ok (mk_url protocol userinfo host_str is_ipv6 specified_port port query_str)
        end
  end.

Definition get_url_host (url : bytes) : bytes :=
  match parse_url url Http with Ok u => host_ u | Err _ => [] end.
End Parse.

(** *** Queries of URLs *)

Record http_url_query := mk_url_query { path_ : list bytes; args_ : list (bytes * bytes) }.

Fixpoint pop_empty (rev_path : list bytes) : list bytes :=
  match rev_path with [] :: l => pop_empty l | _ => rev_path end.

(** The loop over the arguments; each turn reads at least one char. *)
Fixpoint parse_args (fuel : nat) (query : bytes) : list (bytes * bytes) :=
  match fuel with
  | O => []
  | S fuel =>
    if bool_decide (query = []) then []
    else
      let '(arg, p) := read_till_nofail "&"%char (init query) in
      let '(key, value) := split arg "="%char in
      let p := skip_nofail "&"%char p in
      let key := Coding.url_decode key true in
      (if bool_decide (key = []) then [] else [(key, Coding.url_decode value true)]) ++ parse_args fuel (data p)
  end.

Definition max_parts : Z := 2 ^ 64 - 1.

Definition parse_url_query (query : bytes) : http_url_query :=
  let query := match query with c :: q => if decide (c = "/"%char) then q else query | [] => [] end in
  let '(path, rest) := span (fun c => contains c (lit "?#")) query in
  let path := reverse (pop_empty (reverse ((fun segment => Coding.url_decode segment false) <$> full_split path "/"%char max_parts))) in
  match rest with
  | c :: query =>
    if decide (c = "?"%char) then
      let query := match find "#"%char query with Some pos => take pos query | None => query end in
      mk_url_query path (parse_args (length query) query)
    else mk_url_query path []
  | [] => mk_url_query path []
  end.

Definition get_arg (q : http_url_query) (key : bytes) : bytes :=
  match List.find (fun a => bool_decide (fst a = key)) (args_ q) with Some a => snd a | None => [] end.

Definition has_arg (q : http_url_query) (key : bytes) : bool :=
  existsb (fun a => bool_decide (fst a = key)) (args_ q).

Definition get_url_query_file_name (query : bytes) : bytes :=
  let '(query, _) := span (fun c => contains c (lit "?#")) query in
  match rfind "/"%char query with Some pos => drop (S pos) query | None => query end.

Definition get_url_file_name (inet_pton6 : bytes -> pton_result bytes) (url : bytes) : bytes :=
  match parse_url inet_pton6 url Http with Ok u => get_url_query_file_name (query_ u) | Err _ => [] end.

End Url.

(** *** Examples of the code's tests *)

Definition sample_pton6 (s : bytes) : pton_result bytes := if decide (s = lit "::1") then PtonOk (lit "1") else PtonBad.

Example test_url_1 : Url.parse_url sample_pton6 (lit "te%ffst:pa%8Dss@examp%9Ele.com#://") Url.Http
  = Ok (Url.mk_url Url.Http (lit "te%ffst:pa%8Dss") (lit "examp%9ele.com") false 0 80 (lit "/#://")).
Proof. reflexivity. Qed.
Example test_url_2 : Url.parse_url sample_pton6 (lit "https://example.com:00000071") Url.Http
  = Ok (Url.mk_url Url.Https [] (lit "example.com") false 71 71 (lit "/")).
Proof. reflexivity. Qed.
Example test_url_3 : Url.parse_url sample_pton6 (lit "example.com@:1//") Url.Http = Err (Status 0 (lit "URL host is empty")).
Proof. reflexivity. Qed.
Example test_url_4 : Url.parse_url sample_pton6 (lit "example.com@://") Url.Http = Err (Status 0 (lit "Wrong port number specified in the URL")).
Proof. reflexivity. Qed.
Example test_url_5 : Url.parse_url sample_pton6 (lit "https://t@[::1]:443/a b ") Url.Http
  = Ok (Url.mk_url Url.Https (lit "t") (lit "[::1]") true 443 443 (lit "/a%20b")).
Proof. reflexivity. Qed.
Example test_query : Url.parse_url_query (lit "?a=b=c=d?e=f=g=h&x=y=z?d=3&")
  = Url.mk_url_query [] [(lit "a", lit "b=c=d?e=f=g=h"); (lit "x", lit "y=z?d=3")].
Proof. reflexivity. Qed.

(** ** Facts *)

Import Parser Strings Integers Url.

(** *** Last positions *)

Lemma rfind_none c s : rfind c s = None <-> c ∉ s.
Proof.
  unfold rfind. destruct (find c (reverse s)) eqn:E.
  - apply find_Some in E as [H _]. split; [done|]. intros Hn. exfalso. apply Hn. apply elem_of_reverse. rewrite H. set_solver.
  - apply find_None in E. rewrite elem_of_reverse in E. done.
Qed.

Lemma rfind_last c a b : c ∉ b -> rfind c (a ++ c :: b) = Some (length a).
Proof.
  intros H. unfold rfind. rewrite reverse_app, reverse_cons, <- app_assoc. cbn [app].
  rewrite find_app by by rewrite elem_of_reverse. rewrite length_reverse, length_app. cbn [length]. f_equal. lia.
Qed.

Lemma rfind_some (c : ascii) (s : bytes) : c ∈ s -> exists a b, s = a ++ c :: b /\ c ∉ b.
Proof.
  induction s as [|x s IH]; [by intros ?%not_elem_of_nil|]. intros H. destruct (decide (c ∈ s)) as [Hs|Hs].
  - destruct (IH Hs) as (a & b & -> & Hb). by exists (x :: a), b.
  - apply elem_of_cons in H as [->|?]; [|done]. by exists [], s.
Qed.

Lemma split_userinfo_spec s : exists u h, split_userinfo s = (u, h) /\ "@"%char ∉ h
  /\ (s = u ++ "@"%char :: h \/ u = [] /\ s = h).
Proof.
  unfold split_userinfo. destruct (decide ("@"%char ∈ s)) as [H|H].
  - apply rfind_some in H as (a & b & -> & Hb). rewrite rfind_last by done. exists a, b.
    rewrite take_app_length. change ("@"%char :: b) with (["@"%char] ++ b). rewrite app_assoc.
    rewrite <- (Nat.add_1_r (length a)). replace (length a + 1)%nat with (length (a ++ ["@"%char])) by (rewrite length_app; done).
    rewrite drop_app_length. split; [done|]. split; [done|]. left. by rewrite <- app_assoc.
  - apply rfind_none in H as E. rewrite E. exists [], s. split; [done|]. split; [done|]. by right.
Qed.

Lemma split_userinfo_at u h : "@"%char ∉ h -> split_userinfo (u ++ "@"%char :: h) = (u, h).
Proof.
  intros H. unfold split_userinfo. rewrite rfind_last by done. rewrite take_app_length.
  change ("@"%char :: h) with (["@"%char] ++ h). rewrite app_assoc.
  replace (S (length u)) with (length (u ++ ["@"%char])) by (rewrite length_app; cbn; lia). by rewrite drop_app_length.
Qed.

Lemma split_userinfo_none h : "@"%char ∉ h -> split_userinfo h = ([], h).
Proof. intros H. unfold split_userinfo. by rewrite (proj2 (rfind_none _ _) H). Qed.

Definition unmarked (s : bytes) : Prop := Forall (fun c => is_mark c = false) s.

Lemma last_mark_bound s i : (last_mark s i <= i)%nat.
Proof. induction i as [|i IH]; cbn [last_mark]; [done|]. repeat case_match; lia. Qed.

(** The mark before an unmarked rest. *)
Lemma last_mark_at a c b : a <> [] -> is_mark c = true -> unmarked b ->
  last_mark (a ++ c :: b) (length (a ++ c :: b) - 1) = length a.
Proof.
  intros Ha Hc Hb. rewrite length_app. cbn [length]. replace (length a + S (length b) - 1)%nat with (length a + length b)%nat by lia.
  assert (forall k, (k <= length b)%nat -> last_mark (a ++ c :: b) (length a + k) = length a) as H; [|by apply H].
  induction k as [|k IH]; intros Hk.
  - rewrite Nat.add_0_r. destruct a as [|x a]; [done|]. cbn [length last_mark]. change (S (length a)) with (length (x :: a)).
    by rewrite list_lookup_middle, Hc.
  - rewrite Nat.add_succ_r. cbn [last_mark]. rewrite <- Nat.add_succ_r, lookup_app_r by lia.
    replace (length a + S k - length a)%nat with (S k) by lia. change ((c :: b) !! S k) with (b !! k).
    destruct (lookup_lt_is_Some_2 b k) as [x Hx]; [lia|]. rewrite Hx. rewrite (Forall_lookup_1 _ _ _ _ Hb Hx). apply IH. lia.
Qed.

Lemma last_mark_none s i : (i < length s)%nat -> unmarked (drop 1 s) -> last_mark s i = 0%nat.
Proof.
  intros Hi Hs. induction i as [|i IH]; [done|]. cbn [last_mark]. destruct (lookup_lt_is_Some_2 s (S i) Hi) as [x Hx].
  rewrite Hx. assert (drop 1 s !! i = Some x) as Hd by by rewrite lookup_drop.
  rewrite (Forall_lookup_1 _ _ _ _ Hs Hd). apply IH. lia.
Qed.

(** *** Ports *)

Lemma digit_unmarked c : Chars.is_digit c = true -> is_mark c = false.
Proof. intros H. unfold is_mark. rewrite !bool_decide_false; [done|intros ->; discriminate..]. Qed.

Lemma digits_rev_last fuel x : 0 < x < 10 ^ Z.of_nat fuel -> exists l d, digits_rev fuel x = l ++ [chr (48 + d)] /\ 1 <= d <= 9.
Proof.
  revert x. induction fuel as [|fuel IH]; intros x Hx; [cbn in Hx; lia|].
  rewrite Nat2Z.inj_succ, Z.pow_succ_r in Hx by lia. cbn [digits_rev]. destruct (0 <? x / 10) eqn:E.
  - apply Z.ltb_lt in E. destruct (IH (x / 10)) as (l & d & -> & Hd); [split; [done|apply Z.div_lt_upper_bound; lia]|].
    by exists (chr (48 + x mod 10) :: l), d.
  - apply Z.ltb_ge in E. assert (x < 10) by (pose proof (Z.div_mod x 10); pose proof (Z.mod_pos_bound x 10); lia).
    exists [], x. rewrite Z.mod_small by lia. split; [done|lia].
Qed.

Lemma print_uint_head x : 0 < x < 10 ^ 20 -> exists c s, print_uint x = c :: s /\ c <> "0"%char.
Proof.
  intros Hx. assert (forall d, 1 <= d <= 9 -> chr (48 + d) <> "0"%char) as Hne.
  { intros d Hd E. apply (f_equal ord) in E. rewrite digit_chr in E by lia. change (ord "0"%char) with 48 in E. lia. }
  unfold print_uint. repeat case_bool.
  - eexists _, _. split; [done|]. apply Hne. lia.
  - eexists _, _. split; [done|]. apply Hne. split; [apply Z.div_le_lower_bound; lia|].
    assert (x / 10 < 10) by (apply Z.div_lt_upper_bound; lia). lia.
  - destruct (digits_rev_last 20 x) as (l & d & -> & Hd); [done|]. rewrite reverse_app. eexists _, _. split; [done|]. by apply Hne.
Qed.

Lemma remove_zeros_head c s : c <> "0"%char -> remove_zeros (c :: s) = c :: s.
Proof. intros H. destruct s; [done|]. cbn [remove_zeros]. by rewrite decide_False. Qed.

Lemma print_port port : 0 < port <= 65535 -> print_int int32_min port = print_uint port
  /\ Forall (fun c => Chars.is_digit c = true) (print_uint port)
  /\ to_integer_safe check_utf8 32 (remove_zeros (print_uint port)) = Ok port.
Proof.
  intros H. assert (print_int int32_min port = print_uint port) as E.
  { unfold print_int. by destruct (Z.ltb_spec port 0); [lia|]. }
  split; [done|]. split; [apply print_uint_digits; lia|].
  destruct (print_uint_head port) as (c & s & Es & Hc); [lia|]. rewrite Es, remove_zeros_head, <- Es, <- E by done.
  apply to_integer_safe_ok; [by left|]. split; [unfold tmin, tmax; lia|done].
Qed.

Lemma split_port_some pre port : pre <> [] -> 0 < port <= 65535 ->
  split_port (pre ++ ":"%char :: print_int int32_min port) = (port, pre).
Proof.
  intros Hp Hb. destruct (print_port port Hb) as (-> & Hd & Hi). unfold split_port.
  rewrite last_mark_at; [|done|done|eapply Forall_impl; [exact Hd|apply digit_unmarked]].
  assert ((0 <? length pre)%nat = true) as -> by (apply Nat.ltb_lt; destruct pre; [done|cbn; lia]).
  rewrite list_lookup_middle, bool_decide_true by done. cbn [andb]. rewrite take_app_length.
  change (":"%char :: print_uint port) with ([":"%char] ++ print_uint port). rewrite app_assoc.
  replace (S (length pre)) with (length (pre ++ [":"%char])) by (rewrite length_app; cbn; lia).
  rewrite drop_app_length, Hi. assert (port =? 0 = false) as -> by (apply Z.eqb_neq; lia). done.
Qed.

(** No port: the last mark is no colon. *)
Lemma split_port_none s : (unmarked (drop 1 s) \/ exists a c b, s = a ++ c :: b /\ a <> [] /\ is_mark c = true /\ c <> ":"%char /\ unmarked b) ->
  split_port s = (0, s).
Proof.
  intros [H|(a & c & b & -> & Ha & Hc & Hne & Hb)]; unfold split_port.
  - destruct s as [|x s]; [done|]. by rewrite last_mark_none by (try done; cbn; lia).
  - rewrite last_mark_at by done. rewrite list_lookup_middle, (bool_decide_false (Some c = _)), andb_false_r by (try done; congruence). done.
Qed.

Lemma split_port_parts s port rest : split_port s = (port, rest) -> exists k, rest = take k s.
Proof.
  unfold split_port. case_match; intros [= <- <-]; [by eexists|]. exists (length s). by rewrite take_ge.
Qed.

(** *** Parts of a URL *)

Definition part_ok (allow_colon : bool) (c : ascii) : bool :=
  is_part_char allow_colon c || bool_decide (c = "%"%char) || (128 <=? ord c).

Lemma hex_part_char c b : Chars.is_hex_digit c = true -> is_part_char b c = true.
Proof. destruct b; revert c; all_chars. Qed.

Lemma check_url_part_ok s name b : check_url_part s name b = Ok tt -> Forall (fun c => part_ok b c = true) s.
Proof.
  revert s. fix IH 1. intros s. destruct s as [|c s]; [by constructor|]. cbn [check_url_part]. intros H.
  assert (is_part_char b c = true \/ c = "%"%char \/ (128 <=? ord c) = true -> part_ok b c = true) as Hc.
  { unfold part_ok. intros [-> |[-> | -> ]]; [done| |by rewrite orb_true_r]. by rewrite bool_decide_true, orb_true_r by done. }
  destruct (is_part_char b c); [constructor; [by apply Hc; left|by apply IH]|].
  destruct (decide (c = "%"%char)) as [->|].
  - destruct s as [|x [|y s]]; try discriminate. destruct (Chars.is_hex_digit x && Chars.is_hex_digit y) eqn:E; [|discriminate].
    apply andb_true_iff in E as [Ex Ey]. constructor; [apply Hc; by right; left|]. unfold part_ok.
    constructor; [by rewrite hex_part_char|]. constructor; [by rewrite hex_part_char|]. by apply IH.
  - destruct (128 <=? ord c); [|discriminate]. constructor; [by apply Hc; right; right|by apply IH].
Qed.

(** The separators of a URL, and what a host never has. *)
Definition is_separator (c : ascii) : bool := contains c (lit "/?#").

Lemma host_char c : part_ok false c = true -> is_mark c = false /\ is_separator c = false /\ c <> "["%char /\ 32 < ord c /\ ord c <> 127.
Proof.
  intros H. assert (implb (part_ok false c) (negb (is_mark c) && negb (is_separator c) && negb (bool_decide (c = "["%char)) && (32 <? ord c)
    && negb (ord c =? 127)) = true) as E.
  { revert c H. intros c _. revert c. all_chars. }
  rewrite H in E. cbn [implb] in E. rewrite !andb_true_iff, !negb_true_iff, bool_decide_eq_false, Z.ltb_lt, Z.eqb_neq in E. tauto.
Qed.


Lemma ipv6_char c : is_ipv6_char c = true -> c <> "@"%char /\ is_separator c = false /\ 32 < ord c /\ ord c < 127.
Proof.
  intros H. assert (implb (is_ipv6_char c) (negb (bool_decide (c = "@"%char)) && negb (is_separator c) && (32 <? ord c) && (ord c <? 127)) = true) as E.
  { revert c H. intros c _. revert c. all_chars. }
  rewrite H in E. cbn [implb] in E. rewrite !andb_true_iff, !negb_true_iff, bool_decide_eq_false, !Z.ltb_lt in E. tauto.
Qed.

Lemma lower_twice c : Chars.to_lower (Chars.to_lower c) = Chars.to_lower c.
Proof. revert c. all_chars. Qed.

Lemma lower_special c d : is_mark d = true \/ d = "["%char \/ d = "."%char -> Chars.to_lower c = d <-> c = d.
Proof.
  intros H. assert (Chars.to_lower d = d) as Hd.
  { destruct H as [H|[-> | ->]]; [|done..]. unfold is_mark in H. rewrite !orb_true_iff, !bool_decide_eq_true in H.
    by destruct H as [[-> | ->]| ->]. }
  split; [|by intros ->]. destruct (decide (c = d)) as [|Hne]; [done|]. intros E. exfalso.
  assert (is_mark (Chars.to_lower c) || bool_decide (Chars.to_lower c = "["%char) || bool_decide (Chars.to_lower c = "."%char) = true ->
    Chars.to_lower c = c) as Hc.
  { intros Hx. assert (implb (is_mark (Chars.to_lower c) || bool_decide (Chars.to_lower c = "["%char) || bool_decide (Chars.to_lower c = "."%char))
      (bool_decide (Chars.to_lower c = c)) = true) as Hi by (clear; revert c; all_chars).
    rewrite Hx in Hi. by apply bool_decide_eq_true in Hi. }
  apply Hne. rewrite <- E. symmetry. apply Hc. rewrite E. destruct H as [-> |[-> | ->]]; [done|done|by rewrite orb_true_r].
Qed.

Lemma lower_inv c d : is_mark d = true \/ d = "["%char \/ d = "."%char -> Chars.to_lower c = d -> c = d.
Proof. intros H. by apply lower_special. Qed.

Lemma lower_bracketed h : is_bracketed (Strings.to_lower h) = is_bracketed h.
Proof.
  unfold is_bracketed, Strings.to_lower. f_equal; apply bool_decide_ext.
  - destruct h as [|c h]; [done|]. cbn. split; intros [= E]; f_equal; by apply lower_special; auto.
  - rewrite fmap_last. destruct (last h) as [c|]; cbn; [|done]. split; intros [= E]; f_equal; apply lower_special; auto.
Qed.

Lemma bracketed_shape h : is_bracketed h = true -> exists m, h = "["%char :: m ++ ["]"%char].
Proof.
  unfold is_bracketed. rewrite andb_true_iff, !bool_decide_eq_true. intros [H1 H2]. apply last_Some in H2 as [l ->].
  destruct l as [|c l]; [discriminate|]. cbn in H1. injection H1 as ->. by exists l.
Qed.

(** *** Parsed URLs *)

Section Parsed.
Context (inet_pton6 : bytes -> pton_result bytes).
(** The digits of an address may be in either case. *)
Context (pton6_case : forall s, (exists ip, inet_pton6 s = PtonOk ip) <-> (exists ip, inet_pton6 (Strings.to_lower s) = PtonOk ip)).

Record wf_url (u : http_url) : Prop := {
  wf_query : exists q, query_ u = "/"%char :: q /\ Forall (fun c => 32 < ord c) q;
  wf_host : host_ u <> [] /\ host_ u <> lit "." /\ Strings.to_lower (host_ u) = host_ u /\ "@"%char ∉ host_ u;
  wf_ipv6 : is_ipv6_ u = is_bracketed (host_ u) /\ (is_ipv6_ u = true -> wrong_ipv6 inet_pton6 (host_ u) = false);
  wf_check : check_host (is_ipv6_ u) (host_ u) (userinfo_ u) = Ok tt;
  wf_userinfo : Forall (fun c => is_separator c = false) (userinfo_ u);
  wf_port : 0 <= specified_port_ u <= 65535
    /\ port_ u = if specified_port_ u =? 0 then match protocol_ u with Http => 80 | Https => 443 end else specified_port_ u }.

Lemma wrong_ipv6_spec h : wrong_ipv6 inet_pton6 h = false <->
  exists ip, inet_pton6 (if (2 <? len h) && is_bracketed h then take (length h - 2) (drop 1 h) else h) = PtonOk ip.
Proof.
  unfold wrong_ipv6, init_ipv6_port, is_bracketed. cbn [port_invalid]. change (port_invalid 1) with false. cbn match.
  rewrite andb_assoc. destruct (inet_pton6 _); cbn; split; try discriminate; try (by intros [? ?]). intros _. by eexists.
Qed.

Lemma lower_len h : len (Strings.to_lower h) = len h.
Proof. unfold len, Strings.to_lower. by rewrite length_fmap. Qed.

Lemma wrong_ipv6_lower h : wrong_ipv6 inet_pton6 h = false -> wrong_ipv6 inet_pton6 (Strings.to_lower h) = false.
Proof using Type*.
  rewrite !wrong_ipv6_spec, lower_bracketed, lower_len, pton6_case. destruct (_ && _); [|done].
  unfold Strings.to_lower. by rewrite fmap_take, fmap_drop, length_fmap.
Qed.

Lemma normalize_query_spec rest : exists q, normalize_query rest = "/"%char :: q /\ Forall (fun c => 32 < ord c) q.
Proof.
  assert (forall c, Forall (fun d => 32 < ord d) (escape c)) as He.
  { intros c. unfold escape. destruct (ord c <=? 32) eqn:E; [|constructor; [lia|constructor]].
    assert (forall i, 0 <= i < 16 -> 32 < ord (Coding.hex_digit "0123456789ABCDEF" i)) as Hd.
    { intros i Hi. unfold Coding.hex_digit. assert (i = 0 \/ i = 1 \/ i = 2 \/ i = 3 \/ i = 4 \/ i = 5 \/ i = 6 \/ i = 7 \/ i = 8 \/ i = 9
        \/ i = 10 \/ i = 11 \/ i = 12 \/ i = 13 \/ i = 14 \/ i = 15) as Hc by lia. repeat (destruct Hc as [->|Hc]; [done|]). by subst. }
    pose proof (ord_bounds c). constructor; [done|]. constructor; [apply Hd; split; [apply Z.div_pos; lia|apply Z.div_lt_upper_bound; lia]|].
    constructor; [apply Hd, Z.mod_pos_bound; lia|constructor]. }
  assert (forall l, Forall (fun d => 32 < ord d) (l ≫= escape)) as Hl.
  { induction l as [|c l IH]; [constructor|]. rewrite bind_cons. by apply Forall_app. }
  unfold normalize_query. set (query := if bool_decide (reverse _ = []) then _ else _). clearbody query.
  destruct (bool_decide (head query = _)) eqn:E; [apply bool_decide_eq_true in E|].
  - destruct query as [|c query]; [discriminate|]. injection E as ->. exists (query ≫= escape). by rewrite bind_cons.
  - exists (query ≫= escape). by split; [|apply Hl].
Qed.

Lemma drop_spaces_id c s : 32 < ord c -> drop_spaces (c :: s) = c :: s.
Proof. intros H. cbn [drop_spaces]. assert (Chars.is_space c = false) as ->; [|done]. unfold Chars.is_space. lia. Qed.

Lemma normalize_query_id q : Forall (fun c => 32 < ord c) q -> normalize_query ("/"%char :: q) = "/"%char :: q.
Proof.
  intros H. unfold normalize_query. assert (reverse (drop_spaces (reverse ("/"%char :: q))) = "/"%char :: q) as ->.
  { destruct (reverse ("/"%char :: q)) as [|c l] eqn:E; [by apply (f_equal reverse) in E; rewrite reverse_involutive in E|].
    assert (Forall (fun c => 32 < ord c) (c :: l)) as [Hc _]%Forall_cons by (rewrite <- E; apply Forall_reverse; by constructor).
    by rewrite drop_spaces_id, <- E, reverse_involutive. }
  rewrite !(bool_decide_false ("/"%char :: q = [])) by done. rewrite (bool_decide_true (head _ = _)) by reflexivity. cbn [app]. induction H as [|c q Hc H IH]; [done|].
  rewrite !bind_cons in *. change (escape "/"%char) with ["/"%char] in *. cbn [app] in *. injection IH as IH.
  unfold escape at 1. assert (ord c <=? 32 = false) as -> by lia. cbn [app]. by rewrite IH.
Qed.

Lemma parse_wf url d u : parse_url inet_pton6 url d = Ok u -> wf_url u.
Proof using Type*.
  unfold parse_url. destruct (parse_protocol url d) as [[proto p]|] eqn:Ep; [|discriminate].
  destruct (read_till_nofail_any (lit "/?#") p) as [a p'] eqn:Er. destruct (split_port a) as [port uh] eqn:Es.
  destruct (_ || _) eqn:Eb; [discriminate|]. apply orb_false_iff in Eb as [Eb1%Z.ltb_ge Eb2%Z.ltb_ge].
  destruct (split_userinfo_spec uh) as (ui & host & -> & Hat & Huh).
  destruct (is_bracketed host && wrong_ipv6 inet_pton6 host) eqn:E6; [discriminate|].
  case_bool_decide as En; [discriminate|]. case_bool_decide as Edot; [discriminate|].
  destruct (check_host _ _ _) as [[]|] eqn:Ec; [|discriminate]. intros [= <-].
  assert (Forall (fun c => is_separator c = false) a) as Ha.
  { unfold read_till_nofail_any in Er. destruct (has_error p); [injection Er as <- <-; constructor|].
    destruct (span _ (p_data p)) as [x y] eqn:Esp. injection Er as <- <-. apply span_app in Esp as (_ & H & _). exact H. }
  assert (Forall (fun c => is_separator c = false) uh) as Hu.
  { apply split_port_parts in Es as [k ->]. by apply Forall_take. }
  split; cbn [query_ host_ is_ipv6_ userinfo_ specified_port_ port_ protocol_].
  - apply normalize_query_spec.
  - split; [by destruct host|]. split; [|split].
    + intros E. apply Edot. destruct host as [|c [|c' h]]; try discriminate. unfold Strings.to_lower in E. cbn in E. injection E as E.
      apply lower_inv in E as ->; [done|by right; right].
    + unfold Strings.to_lower. rewrite <- list_fmap_compose. apply list_fmap_ext. intros i c _. cbn. apply lower_twice.
    + unfold Strings.to_lower. intros (c & E & Hc)%list_elem_of_fmap. symmetry in E. apply lower_inv in E; [by subst|by left].
  - rewrite lower_bracketed. split; [done|]. intros Hb. apply wrong_ipv6_lower. by rewrite Hb in E6.
  - done.
  - destruct Huh as [-> |[-> _]]; [|constructor]. by apply Forall_app in Hu as [? _].
  - done.
Qed.

(** The authority of a URL as [get_url] prints it. *)
Definition authority (u : http_url) : bytes :=
  (if bool_decide (userinfo_ u = []) then [] else userinfo_ u ++ ["@"%char]) ++ host_ u
  ++ (if 0 <? specified_port_ u then ":"%char :: print_int int32_min (specified_port_ u) else []).

Definition scheme (p : protocol) : bytes := match p with Http => lit "http" | Https => lit "https" end.

Lemma get_url_wf u : wf_url u -> get_url u = Some (scheme (protocol_ u) ++ lit "://" ++ authority u ++ query_ u).
Proof.
  intros [(q & Hq & _) _ _ _ _ _]. unfold get_url, authority. rewrite Hq, decide_True by done. f_equal.
  rewrite <- !app_assoc. by destruct (protocol_ u).
Qed.

Lemma parse_scheme p rest d : parse_protocol (scheme p ++ lit "://" ++ rest) d = Ok (p, init rest).
Proof.
  unfold parse_protocol, read_till_nofail_any. change (has_error (init ?s)) with false. cbn match.
  change (p_data (init ?s)) with s.
  change (lit "://" ++ rest) with (":"%char :: lit "//" ++ rest). rewrite span_stop; [|by destruct p; repeat constructor|done].
  change (set_data (init ?s) ?x) with (init x). change (":"%char :: lit "//" ++ rest) with (lit "://" ++ rest).
  rewrite try_skip_app. by destruct p.
Qed.

Lemma Forall_range {A} (P : A -> Prop) (l : list A) i j : Forall P (take i (drop j l)) -> forall x, x ∈ take i (drop j l) -> P x.
Proof. by rewrite Forall_forall. Qed.

(** What a host looks like. *)
Lemma host_chars u : wf_url u ->
  Forall (fun c => is_separator c = false /\ c <> "@"%char /\ 32 < ord c /\ ord c <> 127) (host_ u)
  /\ (unmarked (host_ u) \/ exists a, a <> [] /\ host_ u = a ++ ["]"%char]).
Proof.
  intros [_ _ [H6 _] Hc _ _]. unfold check_host in Hc. destruct (is_ipv6_ u) eqn:E.
  - symmetry in H6. apply bracketed_shape in H6 as [m Hm]. rewrite Hm in *.
    assert (take (length ("["%char :: m ++ ["]"%char]) - 2) (drop 1 ("["%char :: m ++ ["]"%char])) = m) as Ht.
    { change (drop 1 ("["%char :: m ++ ["]"%char])) with (m ++ ["]"%char]). cbn [length]. rewrite length_app. cbn [length]. replace (S (length m + 1) - 2)%nat with (length m) by lia.
      by rewrite take_app_length. }
    rewrite Ht in Hc. destruct (forallb is_ipv6_char m) eqn:Ef; [|discriminate]. split.
    + constructor; [done|]. apply Forall_app. split; [|by constructor]. apply Forall_forall. intros c Hin.
      rewrite forallb_forall in Ef. destruct (ipv6_char c) as (? & ? & ? & ?); [by apply Ef, list_elem_of_In|]. split; [done|]. split; [done|]. lia.
    + right. by exists ("["%char :: m).
  - destruct (check_url_part (host_ u) "host" false) as [[]|] eqn:Ec; [|discriminate]. apply check_url_part_ok in Ec. split.
    + eapply Forall_impl; [exact Ec|]. intros c H. destruct (host_char c H) as (H1 & H2 & _ & ? & ?).
      split; [done|]. split; [|done]. intros ->. discriminate.
    + left. eapply Forall_impl; [exact Ec|]. intros c H. by apply host_char.
Qed.

Lemma parse_authority u rest : wf_url u -> rest = [] \/ (exists c r, rest = c :: r /\ is_separator c = true) ->
  read_till_nofail_any (lit "/?#") (init (authority u ++ rest)) = (authority u, init rest)
  /\ exists uh, split_port (authority u) = (specified_port_ u, uh) /\ split_userinfo uh = (userinfo_ u, host_ u).
Proof.
  intros Hw Hr. destruct (host_chars u Hw) as [Hh Hm]. destruct Hw as [_ (Hne & _ & _ & Hat) _ _ Hu [Hp _]].
  set (uh := (if bool_decide (userinfo_ u = []) then [] else userinfo_ u ++ ["@"%char]) ++ host_ u).
  set (tail := if 0 <? specified_port_ u then ":"%char :: print_int int32_min (specified_port_ u) else []).
  assert (authority u = uh ++ tail) as Ea by (unfold authority, uh, tail; by rewrite <- app_assoc).
  assert (Forall (fun c => is_separator c = false) uh) as Huh.
  { unfold uh. apply Forall_app. split; [case_bool_decide; [constructor|]; apply Forall_app; split; [done|by constructor]|].
    eapply Forall_impl; [exact Hh|]. by intros c [? _]. }
  assert (Forall (fun c => is_separator c = false) tail) as Ht.
  { unfold tail. destruct (0 <? specified_port_ u) eqn:E0; [|constructor]. constructor; [done|].
    destruct (print_port (specified_port_ u)) as (-> & Hd & _); [lia|]. eapply Forall_impl; [exact Hd|].
    intros c Hc. unfold is_separator. revert c Hc. intros c Hc. assert (implb (Chars.is_digit c) (negb (contains c (lit "/?#"))) = true) as Hi
      by (clear; revert c; all_chars). rewrite Hc in Hi. by apply negb_true_iff in Hi. }
  rewrite Ea. split.
  - unfold read_till_nofail_any. change (has_error (init ?s)) with false. cbn match. change (p_data (init ?s)) with s.
    destruct Hr as [->|(c & r & -> & Hc)].
    + rewrite app_nil_r, span_all; [done|]. by apply Forall_app.
    + rewrite span_stop; [done|by apply Forall_app|done].
  - exists uh. split.
    + unfold tail. destruct (0 <? specified_port_ u) eqn:E0.
      * apply split_port_some; [|lia]. unfold uh. by destruct (host_ u), (if bool_decide _ then _ else _).
      * rewrite app_nil_r. assert (specified_port_ u = 0) as -> by lia. apply split_port_none. unfold uh.
        destruct Hm as [Hm|(a & Ha & Em)].
        -- case_bool_decide; cbn [app]; [left; by apply Forall_drop|right; exists (userinfo_ u), "@"%char, (host_ u)].
           split; [by rewrite <- app_assoc|done].
        -- right. rewrite Em. exists ((if bool_decide (userinfo_ u = []) then [] else userinfo_ u ++ ["@"%char]) ++ a), "]"%char, [].
           split; [by rewrite <- app_assoc|]. split; [intros [_ ?]%app_eq_nil; done|]. split; [done|]. split; [done|constructor].
    + unfold uh. case_bool_decide as E; cbn [app]; [rewrite E; by apply split_userinfo_none|].
      rewrite <- app_assoc. by apply split_userinfo_at.
Qed.

Lemma round_trip_wf u d : wf_url u -> exists t, get_url u = Some t /\ parse_url inet_pton6 t d = Ok u.
Proof.
  intros H. rewrite (get_url_wf u H). eexists. split; [done|]. unfold parse_url. rewrite parse_scheme.
  destruct (parse_authority u (query_ u) H) as (-> & uh & -> & ->).
  { right. destruct H as [(q & -> & _) _ _ _ _ _]. by exists "/"%char, q. }
  destruct H as [(q & Hq & Hqc) (Hne & Hdot & Hl & Hat) [H6 Hw] Hc Hu [Hp Hport]].
  assert ((specified_port_ u <? 0) || (65535 <? specified_port_ u) = false) as -> by lia.
  rewrite <- H6. assert (is_ipv6_ u && wrong_ipv6 inet_pton6 (host_ u) = false) as ->.
  { destruct (is_ipv6_ u); [by apply Hw|done]. }
  rewrite !bool_decide_false by done. rewrite Hl, Hc. change (fst (read_all (init ?s))) with s.
  rewrite Hq, (normalize_query_id q Hqc), <- Hq, <- Hport. by destruct u.
Qed.
End Parsed.

(** ** Properties *)

(** Parsing and printing of URLs.  Whatever text [parse_url] accepts, and
    whatever protocol it assumes, the URL it returns is printed by [get_url], which passes
    its check, and the printed text is parsed back to the same URL, whatever
    protocol is assumed then. *)
Theorem url_round_trip (inet_pton6 : bytes -> pton_result bytes) (url : bytes) (d : protocol) (u : http_url) :
  (forall s, (exists ip, inet_pton6 s = PtonOk ip) <-> (exists ip, inet_pton6 (Strings.to_lower s) = PtonOk ip)) ->
  parse_url inet_pton6 url d = Ok u ->
  forall d', exists text, get_url u = Some text /\ parse_url inet_pton6 text d' = Ok u.
Proof. intros Hcase H%parse_wf d'; [|done]. by apply round_trip_wf. Qed.


(** An [inet_pton] that knows one address in two ways of writing. *)
Definition one_address (s : bytes) : pton_result bytes := if decide (Strings.to_lower s = lit "fe80::1") then PtonOk (lit "1") else PtonBad.

Lemma one_address_case s : (exists ip, one_address s = PtonOk ip) <-> (exists ip, one_address (Strings.to_lower s) = PtonOk ip).
Proof.
  unfold one_address. assert (Strings.to_lower (Strings.to_lower s) = Strings.to_lower s) as ->; [|done].
  unfold Strings.to_lower. rewrite <- list_fmap_compose. apply list_fmap_ext. intros i c _. apply lower_twice.
Qed.

Lemma url_round_trip_witness : exists u text, parse_url one_address (lit "HTTPS://u@[FE80::1]:0443?a b ") Http = Ok u
  /\ get_url u = Some text /\ parse_url one_address text Http = Ok u.
Proof.
  eexists. destruct (url_round_trip one_address (lit "HTTPS://u@[FE80::1]:0443?a b ") Http _ one_address_case eq_refl Http) as (t & H1 & H2).
  exists t. split; [reflexivity|]. by split.
Defined.

