(* ===== verification/HttpReader.v ===== *)
(** * The HTTP reader

    [td/net/HttpReader.h]/[.cpp] and [td/net/HttpQuery.h]: from the bytes of a
    connection to [HttpQuery] objects.  A head is read up to its empty line and
    parsed; a body passes through byte flows ([ByteFlow]) and becomes the content,
    a file, URL-encoded or JSON parameters, or the parts of a form.

    The slices of a query point into buffers that are decoded in place; here they
    are the bytes they hold in the end.  zlib and the flow around it are the class
    [gzip_ops]; the file system is the record [env]. *)

From S2P Require Import Prelude TdMisc Utf8 TextParser Json IPAddress HttpUrl ByteFlow Query HttpConnection.

Import Chars Strings Integers Coding Parser Reader Boundary Flow.

(** ** The query under construction *)

Definition set_hq_container (s : http_query) (v : list bytes) : http_query := mk_http_query v (hq_type s) (hq_code
  s) (hq_url_path s) (hq_args s) (hq_reason s) (hq_keep_alive s) (hq_headers s) (hq_files s) (hq_content s)
  (hq_peer_address s).
Definition set_hq_type (s : http_query) (v : http_type) : http_query := mk_http_query (hq_container s) v (hq_code
  s) (hq_url_path s) (hq_args s) (hq_reason s) (hq_keep_alive s) (hq_headers s) (hq_files s) (hq_content s)
  (hq_peer_address s).
Definition set_hq_code (s : http_query) (v : Z) : http_query := mk_http_query (hq_container s) (hq_type s) v
  (hq_url_path s) (hq_args s) (hq_reason s) (hq_keep_alive s) (hq_headers s) (hq_files s) (hq_content s)
  (hq_peer_address s).
Definition set_hq_url_path (s : http_query) (v : bytes) : http_query := mk_http_query (hq_container s) (hq_type s)
  (hq_code s) v (hq_args s) (hq_reason s) (hq_keep_alive s) (hq_headers s) (hq_files s) (hq_content s)
  (hq_peer_address s).
Definition set_hq_args (s : http_query) (v : list (bytes * bytes)) : http_query := mk_http_query (hq_container s)
  (hq_type s) (hq_code s) (hq_url_path s) v (hq_reason s) (hq_keep_alive s) (hq_headers s) (hq_files s) (hq_content
  s) (hq_peer_address s).
Definition set_hq_reason (s : http_query) (v : bytes) : http_query := mk_http_query (hq_container s) (hq_type s)
  (hq_code s) (hq_url_path s) (hq_args s) v (hq_keep_alive s) (hq_headers s) (hq_files s) (hq_content s)
  (hq_peer_address s).
Definition set_hq_keep_alive (s : http_query) (v : bool) : http_query := mk_http_query (hq_container s) (hq_type s)
  (hq_code s) (hq_url_path s) (hq_args s) (hq_reason s) v (hq_headers s) (hq_files s) (hq_content s)
  (hq_peer_address s).
Definition set_hq_headers (s : http_query) (v : list (bytes * bytes)) : http_query := mk_http_query (hq_container
  s) (hq_type s) (hq_code s) (hq_url_path s) (hq_args s) (hq_reason s) (hq_keep_alive s) v (hq_files s) (hq_content
  s) (hq_peer_address s).
Definition set_hq_files (s : http_query) (v : list http_file) : http_query := mk_http_query (hq_container s)
  (hq_type s) (hq_code s) (hq_url_path s) (hq_args s) (hq_reason s) (hq_keep_alive s) (hq_headers s) v (hq_content
  s) (hq_peer_address s).
Definition set_hq_content (s : http_query) (v : bytes) : http_query := mk_http_query (hq_container s) (hq_type s)
  (hq_code s) (hq_url_path s) (hq_args s) (hq_reason s) (hq_keep_alive s) (hq_headers s) (hq_files s) v
  (hq_peer_address s).
Definition set_hq_peer_address (s : http_query) (v : ip_address) : http_query := mk_http_query (hq_container s)
  (hq_type s) (hq_code s) (hq_url_path s) (hq_args s) (hq_reason s) (hq_keep_alive s) (hq_headers s) (hq_files s)
  (hq_content s) v.

(** [HttpQuery()] *)
Definition new_query (peer : ip_address) : http_query :=
  mk_http_query [] EmptyType 0 [] [] [] true [] [] [] peer.

Definition add_arg (q : http_query) (key value : bytes) : http_query := set_hq_args q (hq_args q ++ [(key, value)]).
Definition add_file (q : http_query) (f : http_file) : http_query := set_hq_files q (hq_files q ++ [f]).
Definition add_container (q : http_query) (b : bytes) : http_query := set_hq_container q (hq_container q ++ [b]).

Module HttpReader.

Definition MAX_CONTENT_SIZE : Z := 4294967295.
Definition MAX_TOTAL_PARAMETERS_LENGTH : Z := 1048576.
Definition MAX_TOTAL_HEADERS_LENGTH : Z := 262144.
Definition MAX_BOUNDARY_LENGTH : Z := 70.
Definition MAX_FILE_SIZE : Z := 4194304000.
Definition TEMP_DIRECTORY_PREFIX : bytes := lit "tdlib-server-tmp".

(** ** Heads *)

Section Heads.

(** What the methods that parse the head and the parameters change. *)
Record parsed := mk_parsed {
  the_query : http_query;
  total_parameters_length_ : Z;
  content_length_ : Z;
  transfer_encoding_ : bytes;
  content_encoding_ : bytes;
  content_type_ : bytes;
  content_type_lowercased_ : bytes;
}.

Definition set_the_query (s : parsed) (v : http_query) : parsed := mk_parsed v (total_parameters_length_ s)
  (content_length_ s) (transfer_encoding_ s) (content_encoding_ s) (content_type_ s) (content_type_lowercased_ s).
Definition set_total_parameters_length_ (s : parsed) (v : Z) : parsed := mk_parsed (the_query s) v (content_length_
  s) (transfer_encoding_ s) (content_encoding_ s) (content_type_ s) (content_type_lowercased_ s).
Definition set_content_length_ (s : parsed) (v : Z) : parsed := mk_parsed (the_query s) (total_parameters_length_
  s) v (transfer_encoding_ s) (content_encoding_ s) (content_type_ s) (content_type_lowercased_ s).
Definition set_transfer_encoding_ (s : parsed) (v : bytes) : parsed := mk_parsed (the_query s)
  (total_parameters_length_ s) (content_length_ s) v (content_encoding_ s) (content_type_ s)
  (content_type_lowercased_ s).
Definition set_content_encoding_ (s : parsed) (v : bytes) : parsed := mk_parsed (the_query s)
  (total_parameters_length_ s) (content_length_ s) (transfer_encoding_ s) v (content_type_ s)
  (content_type_lowercased_ s).
Definition set_content_type_ (s : parsed) (v : bytes) : parsed := mk_parsed (the_query s) (total_parameters_length_
  s) (content_length_ s) (transfer_encoding_ s) (content_encoding_ s) v (content_type_lowercased_ s).
Definition set_content_type_lowercased_ (s : parsed) (v : bytes) : parsed := mk_parsed (the_query s)
  (total_parameters_length_ s) (content_length_ s) (transfer_encoding_ s) (content_encoding_ s) (content_type_ s)
  v.

Definition update_query (p : parsed) (f : http_query -> http_query) : parsed := set_the_query p (f (the_query p)).

(** The loop over the lines of one header value; the parser where the value ends,
    and where the next header begins. *)
Fixpoint read_header_value (fuel : nat) (p : parser) : option (parser * parser) :=
  match fuel with
  | O => None
  | S fuel =>
    let value_end := snd (read_till (chr 13) p) in
    let p := skip (chr 10) (skip (chr 13) value_end) in
    if negb (has_error p) && ((ord (peek_char p) =? 32) || (ord (peek_char p) =? 9)) then read_header_value fuel p
    else Some (value_end, p)
  end.

(** The name, the value, and the parser after them. *)
Definition read_header (p : parser) : option (bytes * bytes * parser) :=
  let '(header_name, p) := read_till ":"%char p in
  let p := skip ":"%char p in
  '(value_end, p') ← read_header_value (S (length (data p))) p;
  Some (header_name, take (length (data p) - length (data value_end)) (data p), p').

Definition process_header (p : parsed) (header_name header_value : bytes) : parsed :=
  let header_name := to_lower (trim header_name) in
  let header_value := trim header_value in
  let emplace v := update_query p (fun q => set_hq_headers q (hq_headers q ++ [(header_name, v)])) in
  if bool_decide (header_name = lit "content-length") then
    let content_length := to_unsigned 64 header_value in
    let content_length := if MAX_CONTENT_SIZE <? content_length then MAX_CONTENT_SIZE else content_length in
    set_content_length_ (emplace header_value) content_length
  else if bool_decide (header_name = lit "connection") then
    let header_value := to_lower header_value in
    let p := emplace header_value in
    update_query p (fun q => set_hq_keep_alive q (negb (bool_decide (header_value = lit "close"))))
  else if bool_decide (header_name = lit "content-type") then
    set_content_type_lowercased_ (set_content_type_ (emplace header_value) header_value) (to_lower header_value)
  else if bool_decide (header_name = lit "content-encoding") then
    let header_value := to_lower header_value in set_content_encoding_ (emplace header_value) header_value
  else if bool_decide (header_name = lit "transfer-encoding") then
    let header_value := to_lower header_value in set_transfer_encoding_ (emplace header_value) header_value
  else emplace header_value.

(** The loop over the headers, and how [parse_head] ends. *)
Fixpoint parse_headers (fuel : nat) (p : parsed) (ps : parser) : option (parsed * result unit) :=
  match fuel with
  | O => None
  | S fuel =>
    if negb (has_error ps) && negb (bool_decide (data ps = [])) then
      '(name, value, ps) ← read_header ps;
      parse_headers fuel (process_header p name value) ps
    else Some (p, if has_error ps then error 400 "Bad Request" else Ok tt)
  end.

(** The loop over the pairs of a query string. *)
Fixpoint parse_pairs (fuel : nat) (q : http_query) (ps : parser) : option http_query :=
  match fuel with
  | O => None
  | S fuel =>
    if bool_decide (data ps = []) then Some q
    else
      let '(key_value, ps) := read_till_nofail "&"%char ps in
      let ps := skip_nofail "&"%char ps in
      let '(key, kv_parser) := read_till_nofail "="%char (init key_value) in
      let kv_parser := skip_nofail "="%char kv_parser in
      parse_pairs fuel (add_arg q (url_decode key true) (url_decode (data kv_parser) true)) ps
  end.

Definition too_many_parameters : result unit := error 413 "Request Entity Too Large: too many parameters".

Definition parse_parameters (p : parsed) (parameters : bytes) : option (parsed * result unit) :=
  let p := set_total_parameters_length_ p (total_parameters_length_ p + len parameters) in
  if MAX_TOTAL_PARAMETERS_LENGTH <? total_parameters_length_ p then Some (p, too_many_parameters)
  else
    q ← parse_pairs (S (length parameters)) (the_query p) (init parameters);
    Some (set_the_query p q, Ok tt).

Definition parse_url (p : parsed) (url : bytes) : option (parsed * result unit) :=
  let '(path, rest) := span (fun c => contains c (lit "?#")) url in
  let p := update_query p (fun q => set_hq_url_path q (url_decode path false)) in
  match rest with
  | c :: rest => if decide (c = "?"%char) then parse_parameters p rest else Some (p, Ok tt)
  | [] => Some (p, Ok tt)
  end.

Definition parse_http_version (p : parsed) (version : bytes) : parsed * result unit :=
  if bool_decide (version = lit "HTTP/1.1") then (update_query p (fun q => set_hq_keep_alive q true), Ok tt)
  else if bool_decide (version = lit "HTTP/1.0") then (update_query p (fun q => set_hq_keep_alive q false), Ok tt)
  else (p, error 505 "HTTP Version Not Supported").

(** The status line after the version. *)
Definition parse_status (p : parsed) (ps : parser) : parsed * parser :=
  let '(code, ps) := read_till " "%char ps in
  let p := update_query p (fun q => set_hq_code q (to_integer 32 code)) in
  let ps := skip " "%char ps in
  let '(reason, ps) := read_till (chr 13) ps in
  (update_query p (fun q => set_hq_reason q reason), ps).

(** The target and the version of a request. *)
Definition parse_request_line (p : parsed) (url_version : bytes) : option (parsed * result unit) :=
  match Url.rfind " "%char url_version with
  | None => Some (p, error 400 "Bad Request: wrong request line")
  | Some space_pos =>
    '(p, r) ← parse_url p (take space_pos url_version);
    match r with
    | Err e => Some (p, Err e)
    | Ok _ => Some (parse_http_version p (drop (S space_pos) url_version))
    end
  end.

Definition reset_head (p : parsed) : parsed :=
  let p := set_content_length_ p (-1) in
  let p := set_content_type_lowercased_ (set_content_type_ p (lit "application/octet-stream")) (lit "application/octet-stream") in
  let p := set_content_encoding_ (set_transfer_encoding_ p []) [] in
  update_query p (fun q => set_hq_content (set_hq_files (set_hq_headers q []) []) []).

(** After the first line. *)
Definition parse_head_lines (p : parsed) (ps : parser) : option (parsed * result unit) :=
  let ps := skip (chr 10) (skip (chr 13) ps) in
  parse_headers (S (length (data ps))) (reset_head p) ps.

Definition parse_head (p : parsed) (head : bytes) : option (parsed * result unit) :=
  let '(type, ps) := read_till " "%char (init head) in
  let ps := skip " "%char ps in
  let set_type t p := update_query p (fun q => set_hq_args (set_hq_type q t) []) in
  let request t :=
    let '(url_version, ps) := read_till (chr 13) ps in
    '(p, r) ← parse_request_line (set_type t p) url_version;
    match r with Err e => Some (p, Err e) | Ok _ => parse_head_lines p ps end in
  if bool_decide (type = lit "GET") then request Get
  else if bool_decide (type = lit "POST") then request Post
  else if (4 <=? len type) && bool_decide (take 4 type = lit "HTTP") then
    let '(p, r) := parse_http_version p type in
    match r with
    | Err e => Some (p, Err e)
    | Ok _ => let '(p, ps) := parse_status (set_type ResponseType p) ps in parse_head_lines p ps
    end
  else Some (p, error 501 "Not Implemented").

(** ** JSON parameters *)

Definition bad_json (what : string) (e : status) : result unit := Err (Status 400 (lit "Bad Request: can't parse " ++ lit what ++ lit ": " ++ st_message e)).

(** The value of a parameter: a decoded string, or the text of another value. *)
Definition read_json_value (ps : parser) : option (result bytes * parser) :=
  if ord (peek_char ps) =? 34 then Some (json_string_decode ps)
  else
    '(r, ps') ← do_json_skip (fuel_for ps) ps 100;
    Some (match r with Ok _ => Ok (take (length (data ps) - length (data ps')) (data ps)) | Err e => Err e end, ps').

(** The loop over the fields. *)
Fixpoint parse_json_fields (fuel : nat) (q : http_query) (ps : parser) : option (http_query * result unit) :=
  match fuel with
  | O => None
  | S fuel =>
    let ps := skip_whitespaces ps in
    match try_skip_char "}"%char ps with
    | (true, ps) =>
      Some (q, if empty (skip_whitespaces ps) then Ok tt else error 400 "Bad Request: unexpected data after object end")
    | (false, ps) =>
      if empty ps then Some (q, error 400 "Bad Request: expected parameter name")
      else
      match json_string_decode ps with
      | (Err e, _) => Some (q, bad_json "parameter name" e)
      | (Ok key, ps) =>
        match try_skip_char ":"%char (skip_whitespaces ps) with
        | (false, _) => Some (q, error 400 "Bad Request: can't parse object, ':' expected")
        | (true, ps) =>
          '(r, ps) ← read_json_value (skip_whitespaces ps);
          match r with
          | Err e => Some (q, bad_json "parameter value" e)
          | Ok value =>
            let q := add_arg q key value in
            let ps := skip_whitespaces ps in
            if ord (peek_char ps) =? 125 then parse_json_fields fuel q ps
            else
              match try_skip_char ","%char ps with
              | (true, ps) => parse_json_fields fuel q ps
              | (false, _) => Some (q, error 400 "Bad Request: expected next field or object end")
              end
          end
        end
      end
    end
  end.

Definition parse_json_parameters (p : parsed) (parameters : bytes) : option (parsed * result unit) :=
  if bool_decide (parameters = []) then Some (p, Ok tt)
  else
  let p := set_total_parameters_length_ p (total_parameters_length_ p + len parameters) in
  if MAX_TOTAL_PARAMETERS_LENGTH <? total_parameters_length_ p then Some (p, too_many_parameters)
  else
    let ps := skip_whitespaces (init parameters) in
    if ord (peek_char ps) =? 34 then
      match json_string_decode ps with
      | (Err e, _) => Some (p, bad_json "string content" e)
      | (Ok value, ps) =>
        if negb (empty ps) then Some (p, error 400 "Bad Request: extra data after string")
        else Some (update_query p (fun q => add_arg (add_container q (lit "content")) (lit "content") value), Ok tt)
      end
    else
      let ps := skip "{"%char ps in
      if has_error ps then Some (p, error 400 "Bad Request: JSON object expected")
      else
        '(q, r) ← parse_json_fields (S (length (data ps))) (the_query p) ps;
        Some (set_the_query p q, r).

End Heads.

(** ** Temporary files *)

Inductive file_action :=
| MakeDir (dir : bytes)                    (* [mkdtemp] made it *)
| OpenFile (name : bytes)                  (* created and opened for writing *)
| WriteFile (name data : bytes)            (* all of [data] was written *)
| CloseFile (name : bytes)
| UnlinkFile (name : bytes)
| RemoveDir (dir : bytes).

(** The file system and [clean_filename].  Its functions get the number of the
    questions asked so far: [realpath] of the temporary directory, [mkdtemp] with a
    prefix, [FileFd::open] of a new file, and [FileFd::write]. *)
Record env := mk_env {
  temporary_dir : bytes;
  realpath : nat -> bytes -> result bytes;
  mkdtemp : nat -> bytes -> bytes -> result bytes;
  open_file : nat -> bytes -> result unit;
  write_file : nat -> bytes -> result Z;
  clean_filename : bytes -> bytes;
}.

Record temp := mk_temp {
  temp_file_ : bool;  (* not [empty()] *)
  temp_file_name_ : bytes;
  file_size_ : Z;
  asked : nat;  (* questions to the system *)
  out : list file_action;  (* what was done to files *)
}.

Definition set_temp_file_ (s : temp) (v : bool) : temp := mk_temp v (temp_file_name_ s) (file_size_ s) (asked s)
  (out s).
Definition set_temp_file_name_ (s : temp) (v : bytes) : temp := mk_temp (temp_file_ s) v (file_size_ s) (asked s)
  (out s).
Definition set_file_size_ (s : temp) (v : Z) : temp := mk_temp (temp_file_ s) (temp_file_name_ s) v (asked s) (out
  s).
Definition set_asked (s : temp) (v : nat) : temp := mk_temp (temp_file_ s) (temp_file_name_ s) (file_size_ s) v
  (out s).
Definition set_out (s : temp) (v : list file_action) : temp := mk_temp (temp_file_ s) (temp_file_name_ s)
  (file_size_ s) (asked s) v.

Section Files.
Context (e : env).

Definition ask (t : temp) : temp := set_asked t (S (asked t)).
Definition emit (t : temp) (a : file_action) : temp := set_out t (out t ++ [a]).

(** [PathView(path).parent_dir()]: up to the last slash. *)
Definition parent_dir (path : bytes) : bytes :=
  match Url.rfind "/"%char path with Some n => take (S n) path | None => [] end.

(** [None] is the failed check of the name. *)
Definition delete_temp_file (t : temp) (file_name : bytes) : option temp :=
  if bool_decide (file_name = []) then None
  else
    let t := emit t (UnlinkFile file_name) in
    let parent := parent_dir file_name in
    let prefix_length := len TEMP_DIRECTORY_PREFIX in
    if (prefix_length + 7 <=? len parent)
       && bool_decide (take (length TEMP_DIRECTORY_PREFIX) (drop (length parent - length TEMP_DIRECTORY_PREFIX - 7) parent) = TEMP_DIRECTORY_PREFIX)
    then Some (emit t (RemoveDir (take (length parent - 1) parent)))
    else Some t.

Definition close_temp_file (t : temp) : option temp :=
  if negb (temp_file_ t) then None
  else Some (set_temp_file_name_ (set_temp_file_ (emit t (CloseFile (temp_file_name_ t))) false) []).

Definition clean_temporary_file (t : temp) : option temp :=
  let file_name := temp_file_name_ t in
  t ← close_temp_file t; delete_temp_file t file_name.

(** [~HttpReader] *)
Definition destroy (t : temp) : option temp := if temp_file_ t then clean_temporary_file t else Some t.

Definition try_open_temp_file (t : temp) (directory_name desired_file_name : bytes) : option (temp * result unit) :=
  if temp_file_ t || bool_decide (directory_name = []) then None
  else
    let file_name := clean_filename e desired_file_name in
    let file_name := if bool_decide (file_name = []) then lit "file" else file_name in
    let slash := if bool_decide (last directory_name = Some "/"%char) then [] else ["/"%char] in
    let name := directory_name ++ slash ++ file_name in
    let t := set_temp_file_name_ t name in
    let r := open_file e (asked t) name in
    let t := ask t in
    Some match r with
    | Err err => (t, Err err)
    | Ok _ => (set_temp_file_ (set_file_size_ (emit t (OpenFile name)) 0) true, Ok tt)
    end.

Definition open_temp_file (t : temp) (desired_file_name : bytes) : option (temp * result unit) :=
  if temp_file_ t then None
  else if bool_decide (temporary_dir e = []) then Some (t, error 0 "Can't find temporary directory")
  else
    let r := realpath e (asked t) (temporary_dir e) in
    let t := ask t in
    match r with
    | Err err => Some (t, Err err)
    | Ok dir =>
      if bool_decide (dir = []) then None
      else
        let r := mkdtemp e (asked t) dir TEMP_DIRECTORY_PREFIX in
        let t := ask t in
        match r with
        | Err err => Some (t, Err err)
        | Ok directory =>
          '(t, first_try) ← try_open_temp_file (emit t (MakeDir directory)) directory desired_file_name;
          match first_try with
          | Ok _ => Some (t, Ok tt)
          | Err err =>
            '(t, second_try) ← try_open_temp_file t directory (lit "file");
            match second_try with
            | Ok _ => Some (t, Ok tt)
            | Err _ => Some (emit t (RemoveDir directory), Err err)
            end
          end
        end
    end.

Definition save_file_part (t : temp) (file_part : bytes) : option (temp * result unit) :=
  let t := set_file_size_ t (file_size_ t + len file_part) in
  if MAX_FILE_SIZE <? file_size_ t then
    t' ← clean_temporary_file t;
    Some (t', Err (Status 413 (lit "Request Entity Too Large: file of size " ++ print_int int64_min (file_size_ t)
                               ++ lit " is too big to be uploaded")))
  else
    let r := write_file e (asked t) file_part in
    let t := ask t in
    if match r with Ok n => n =? len file_part | Err _ => false end
    then Some (emit t (WriteFile (temp_file_name_ t) file_part), Ok tt)
    else t ← clean_temporary_file t; Some (t, error 500 "Internal Server Error: can't upload the file").

End Files.

(** ** Forms *)

Inductive form_data_parse_state := SkipPrologue | ReadPartHeaders | ReadPartValue | ReadFile | CheckForLastBoundary | SkipEpilogue.

(** What the headers of a part say. *)
Record part := mk_part { field_name_ : bytes; field_content_type_ : bytes; file_name_ : bytes; has_file_name_ : bool }.
Definition new_part : part := mk_part [] (lit "application/octet-stream") [] false.

Section Disposition.

(** The loop over a quoted string: the string, and the text after it. *)
Fixpoint unquote (s : bytes) : result (bytes * bytes) :=
  match s with
  | [] => error 400 "Bad Request: unclosed quoted string in Content-Disposition header"
  | c :: s =>
    if ord c =? 34 then Ok ([], s)
    else if ord c =? 92 then
      match s with
      | [] => error 400 "Bad Request: wrong escape sequence in Content-Disposition header"
      | c :: s => prepend [c] (unquote s)
      end
    else prepend [c] (unquote s)
  end.

(** The value after the equals sign, and the text after its semicolon. *)
Definition disposition_value (v : bytes) : result (bytes * bytes) :=
  let v := drop_spaces v in
  match v with
  | c :: s =>
    if ord c =? 34 then
      match unquote s with
      | Err err => Err err
      | Ok (value, v) =>
        match drop_spaces v with
        | [] => Ok (value, [])
        | c :: v => if decide (c = ";"%char) then Ok (value, v)
                    else error 400 "Bad Request: expected ';' in Content-Disposition header"
        end
      end
    else
      match Prelude.find ";"%char v with
      | Some n => Ok (trim (take n v), drop (S n) v)
      | None => Ok (trim v, [])
      end
  | [] => Ok ([], [])
  end.

Definition set_parameter (p : part) (key value : bytes) : part :=
  if bool_decide (key = lit "name") then mk_part value (field_content_type_ p) (file_name_ p) (has_file_name_ p)
  else if bool_decide (key = lit "filename") then mk_part (field_name_ p) (field_content_type_ p) value true
  else p.

(** The loop over the parameters of the disposition. *)
Fixpoint disposition (fuel : nat) (v : bytes) (p : part) : option (result part) :=
  match fuel with
  | O => None
  | S fuel =>
    let v := trim v in
    match Prelude.find "="%char v with
    | None => Some (Ok p)
    | Some key_size =>
      let key := trim (take key_size v) in
      match disposition_value (drop (S key_size) v) with
      | Err err => Some (Err err)
      | Ok (value, v) => disposition fuel v (set_parameter p key (url_decode value false))
      end
    end
  end.

Definition part_header (p : part) (header_name header_value : bytes) : option (result part) :=
  let header_name := trim header_name in
  let header_value := trim header_value in
  let header_name := to_lower header_name in
  if bool_decide (header_name = lit "content-disposition") then
    if negb (bool_decide (take 10 header_value = lit "form-data;")) then
      Some (error 400 "Bad Request: expected form-data content disposition")
    else disposition (S (length header_value)) (drop 10 header_value) p
  else if bool_decide (header_name = lit "content-type") then
    Some (Ok (mk_part (field_name_ p) header_value (file_name_ p) (has_file_name_ p)))
  else Some (Ok p).

(** The loop over the headers of a part. *)
Fixpoint part_headers (fuel : nat) (p : part) (ps : parser) : option (result part) :=
  match fuel with
  | O => None
  | S fuel =>
    if negb (has_error ps) && negb (bool_decide (data ps = [])) then
      '(name, value, ps) ← read_header ps;
      r ← part_header p name value;
      match r with Err err => Some (Err err) | Ok p => part_headers fuel p ps end
    else if has_error ps then Some (error 400 "Bad Request: can't parse form data headers")
    else if bool_decide (field_name_ p = []) then Some (error 400 "Bad Request: field name in multipart/form-data not found")
    else Some (Ok p)
  end.

End Disposition.

Record form := mk_form {
  boundary_ : bytes;
  form_data_read_length_ : nat;
  form_data_skipped_length_ : Z;
  form_data_parse_state_ : form_data_parse_state;
  the_part : part;
  file_field_name_ : bytes;
}.

Definition set_boundary_ (s : form) (v : bytes) : form := mk_form v (form_data_read_length_ s)
  (form_data_skipped_length_ s) (form_data_parse_state_ s) (the_part s) (file_field_name_ s).
Definition set_form_data_read_length_ (s : form) (v : nat) : form := mk_form (boundary_ s) v
  (form_data_skipped_length_ s) (form_data_parse_state_ s) (the_part s) (file_field_name_ s).
Definition set_form_data_skipped_length_ (s : form) (v : Z) : form := mk_form (boundary_ s) (form_data_read_length_
  s) v (form_data_parse_state_ s) (the_part s) (file_field_name_ s).
Definition set_form_data_parse_state_ (s : form) (v : form_data_parse_state) : form := mk_form (boundary_ s)
  (form_data_read_length_ s) (form_data_skipped_length_ s) v (the_part s) (file_field_name_ s).
Definition set_the_part (s : form) (v : part) : form := mk_form (boundary_ s) (form_data_read_length_ s)
  (form_data_skipped_length_ s) (form_data_parse_state_ s) v (file_field_name_ s).
Definition set_file_field_name_ (s : form) (v : bytes) : form := mk_form (boundary_ s) (form_data_read_length_ s)
  (form_data_skipped_length_ s) (form_data_parse_state_ s) (the_part s) v.

(** One turn of [parse_multipart_form_data]: [continue], [return], or the [return]
    of an error. *)
Inductive turn := Continue | Return (finished : bool) | Error (err : status).

Section Forms.
Context (e : env) (max_files : Z) (is_ready can_be_slow : bool).

(** What a turn reads and writes: the content of the flow, the form, what is
    parsed, the temporary file, [total_headers_length_]. *)
Record multipart := mk_multipart {
  m_content : bytes;
  m_form : form;
  m_parsed : parsed;
  m_temp : temp;
  m_headers_length : Z;
}.

(** [form_data_skipped_length_ += n; form_data_read_length_ = 0] and the next state. *)
Definition skip_form (f : form) (n : nat) (st : form_data_parse_state) : form :=
  set_form_data_parse_state_ (set_form_data_read_length_
    (set_form_data_skipped_length_ f (form_data_skipped_length_ f + Z.of_nat n)) O) st.

Definition skip_prologue (m : multipart) : option (multipart * turn) :=
  let f := m_form m in
  let boundary := drop 2 (boundary_ f) in
  '(found, n) ← find_boundary (m_content m) boundary (form_data_read_length_ f);
  if (found : bool) then
    let to_skip := (n + length boundary)%nat in
    Some (mk_multipart (drop to_skip (m_content m)) (skip_form f to_skip ReadPartHeaders) (m_parsed m) (m_temp m) (m_headers_length m), Continue)
  else
    Some (mk_multipart (drop n (m_content m)) (skip_form f n SkipPrologue) (m_parsed m) (m_temp m) (m_headers_length m), Return false).

Definition headers_too_large : status := Status 431 (lit "Request Header Fields Too Large: total headers size exceeded").

Definition read_part_headers (m : multipart) : option (multipart * turn) :=
  let f := m_form m in
  '(found, n) ← find_boundary (m_content m) (crlf ++ crlf) (form_data_read_length_ f);
  if (found : bool) then
    let total := m_headers_length m + Z.of_nat n in
    let m := mk_multipart (m_content m) (set_form_data_read_length_ f n) (m_parsed m) (m_temp m) total in
    if MAX_TOTAL_HEADERS_LENGTH <? total then Some (m, Error headers_too_large)
    else if (n =? 0)%nat then Some (m, Error (Status 400 (lit "Bad Request: headers in multipart/form-data are empty")))
    else if temp_file_ (m_temp m) then None
    else
      let headers := take n (drop 2 (m_content m)) in
      let t := set_temp_file_name_ (m_temp m) [] in
      let content := drop (n + 4) (m_content m) in
      let f := skip_form f (n + 4) ReadPartHeaders in
      r ← part_headers (S (length headers)) new_part (init headers);
      match r with
      | Err err => Some (mk_multipart content (set_file_field_name_ f []) (m_parsed m) t total, Error err)
      | Ok p =>
        let f := set_the_part (set_file_field_name_ f []) p in
        if has_file_name_ p then
          if len (hq_files (the_query (m_parsed m))) =? max_files then
            Some (mk_multipart content f (m_parsed m) t total, Error (Status 413 (lit "Request Entity Too Large: too many files attached")))
          else
            Some (mk_multipart content (set_form_data_parse_state_ (set_file_field_name_ f (field_name_ p)) ReadFile) (m_parsed m) t total, Continue)
        else
          Some (mk_multipart content (set_form_data_parse_state_ f ReadPartValue) (update_query (m_parsed m) (fun q => add_container q headers)) t total, Continue)
      end
  else
    let m := mk_multipart (m_content m) (set_form_data_read_length_ f n) (m_parsed m) (m_temp m) (m_headers_length m) in
    if MAX_TOTAL_HEADERS_LENGTH <? m_headers_length m + Z.of_nat n then Some (m, Error headers_too_large)
    else Some (m, Return false).

Definition form_too_large : status := Status 413 (lit "Request Entity Too Large: too many parameters in form data").

Definition read_part_value (m : multipart) : option (multipart * turn) :=
  let f := m_form m in
  '(found, n) ← find_boundary (m_content m) (boundary_ f) (form_data_read_length_ f);
  let too_large := MAX_TOTAL_PARAMETERS_LENGTH <? total_parameters_length_ (m_parsed m) + Z.of_nat n in
  if (found : bool) then
    if too_large then Some (mk_multipart (m_content m) (set_form_data_read_length_ f n) (m_parsed m) (m_temp m) (m_headers_length m), Error form_too_large)
    else
      let value := take n (m_content m) in
      let content := drop (n + length (boundary_ f)) (m_content m) in
      let p := update_query (m_parsed m) (fun q => add_container q value) in
      let f := skip_form f (n + length (boundary_ f)) ReadPartValue in
      if begins_with (field_content_type_ (the_part f)) (lit "application/x-www-form-urlencoded") then
        '(p, r) ← parse_parameters p value;
        match r with
        | Err err => Some (mk_multipart content f p (m_temp m) (m_headers_length m), Error err)
        | Ok _ => Some (mk_multipart content (set_form_data_parse_state_ f CheckForLastBoundary) p (m_temp m) (m_headers_length m), Continue)
        end
      else
        let p := set_total_parameters_length_ p (total_parameters_length_ p + Z.of_nat (form_data_read_length_ f)) in
        let p := update_query p (fun q => add_arg q (field_name_ (the_part f)) value) in
        Some (mk_multipart content (set_form_data_parse_state_ f CheckForLastBoundary) p (m_temp m) (m_headers_length m), Continue)
  else if (length (m_content m) <? n + length (boundary_ f))%nat then
    let m := mk_multipart (m_content m) (set_form_data_read_length_ f n) (m_parsed m) (m_temp m) (m_headers_length m) in
    Some (m, if too_large then Error form_too_large else Return false)
  else None.

(** After the file is open. *)
Definition read_open_file (m : multipart) : option (multipart * turn) :=
  let f := m_form m in
  '(found, n) ← find_boundary (m_content m) (boundary_ f) (form_data_read_length_ f);
  let file_part := take n (m_content m) in
  if (found : bool) then
    let content := drop (n + length (boundary_ f)) (m_content m) in
    let f := skip_form f (n + length (boundary_ f)) ReadFile in
    '(t, r) ← save_file_part e (m_temp m) file_part;
    match r with
    | Err err => Some (mk_multipart content f (m_parsed m) t (m_headers_length m), Error err)
    | Ok _ =>
      let file := mk_http_file (file_field_name_ f) (file_name_ (the_part f)) (field_content_type_ (the_part f)) (file_size_ t) (temp_file_name_ t) in
      t ← close_temp_file t;
      Some (mk_multipart content (set_form_data_parse_state_ f CheckForLastBoundary)
              (update_query (m_parsed m) (fun q => add_file q file)) t (m_headers_length m), Continue)
    end
  else
    let content := drop n (m_content m) in
    let f := skip_form f n ReadFile in
    if (length content <? length (boundary_ f))%nat then
      '(t, r) ← save_file_part e (m_temp m) file_part;
      Some (mk_multipart content f (m_parsed m) t (m_headers_length m), match r with Err err => Error err | Ok _ => Return false end)
    else None.

Definition slow : status := Status 0 (lit "SLOW").
Definition cannot_create : status := Status 500 (lit "Internal Server Error: can't create temporary file").

Definition read_file (m : multipart) : option (multipart * turn) :=
  if negb can_be_slow then Some (m, Error slow)
  else if temp_file_ (m_temp m) then read_open_file m
  else
    '(t, r) ← open_temp_file e (m_temp m) (file_name_ (the_part (m_form m)));
    let m := mk_multipart (m_content m) (m_form m) (m_parsed m) t (m_headers_length m) in
    match r with Err _ => Some (m, Error cannot_create) | Ok _ => read_open_file m end.

Definition check_for_last_boundary (m : multipart) : option (multipart * turn) :=
  let f := m_form m in
  match m_content m with
  | x :: y :: content =>
    if bool_decide (x = "-"%char) && bool_decide (y = "-"%char) then
      Some (mk_multipart content (set_form_data_parse_state_ (set_form_data_skipped_length_ f (form_data_skipped_length_ f + 2)) SkipEpilogue)
              (m_parsed m) (m_temp m) (m_headers_length m), Continue)
    else Some (mk_multipart (m_content m) (set_form_data_parse_state_ f ReadPartHeaders) (m_parsed m) (m_temp m) (m_headers_length m), Continue)
  | _ => Some (m, Return false)
  end.

Definition skip_epilogue (m : multipart) : multipart * turn :=
  let f := m_form m in
  (mk_multipart [] (set_form_data_skipped_length_ f (form_data_skipped_length_ f + len (m_content m))) (m_parsed m) (m_temp m) (m_headers_length m),
   Return is_ready).

Definition multipart_turn (m : multipart) : option (multipart * turn) :=
  match form_data_parse_state_ (m_form m) with
  | SkipPrologue => skip_prologue m
  | ReadPartHeaders => read_part_headers m
  | ReadPartValue => read_part_value m
  | ReadFile => read_file m
  | CheckForLastBoundary => check_for_last_boundary m
  | SkipEpilogue => Some (skip_epilogue m)
  end.

Fixpoint parse_multipart_form_data (fuel : nat) (m : multipart) : option (multipart * result bool) :=
  match fuel with
  | O => None
  | S fuel =>
    '(m, t) ← multipart_turn m;
    match t with
    | Continue => parse_multipart_form_data fuel m
    | Return finished => Some (m, Ok finished)
    | Error err => Some (m, Err err)
    end
  end.

End Forms.

(** ** Bodies *)

Inductive stage := Length (len_ : Z) | Chunked (c : chunked).
Record flow := mk_flow { fl_common : common; fl_stage : stage }.

(** [GzipByteFlow] in the mode [Decode], around zlib: a new one with the low and
    the high watermark of writing and the maximal size of the output;
    [set_options]; [wakeup] after these bytes were appended to its input, which is
    closed or not: what it appends to its output, and the status of [finish]. *)
Class gzip_ops (Gz : Type) := {
  gzip_new : Z -> Z -> Z -> Gz;
  gzip_set_options : Gz -> Z -> Z -> Gz;
  gzip_wakeup : Gz -> bytes -> bool -> Gz * bytes * option (option status);
}.

Inductive state := ReadHeaders | ReadContent | ReadContentToFile | ReadArgs | ReadMultipartFormData.
#[export] Instance state_eq_dec : EqDecision state.
Proof. solve_decision. Defined.

Section Reader.
Context {Gz : Type} {ops : gzip_ops Gz} (e : env).

Record body := mk_body {
  flow_ : option flow;  (* [flow_source_] and the flow it feeds *)
  gzip_flow_ : option (Gz * bool);  (* fed by [flow_]; its [stop_flag_] *)
  flow_sink_ : option (option status);  (* [None]: active; [Some st]: ready, with its status *)
  content_ : bytes;  (* [flow_sink_.get_output()] *)
}.

Definition set_flow_ (s : body) (v : option flow) : body := mk_body v (gzip_flow_ s) (flow_sink_ s) (content_ s).
Definition set_gzip_flow_ (s : body) (v : option (Gz * bool)) : body := mk_body (flow_ s) v (flow_sink_ s)
  (content_ s).
Definition set_flow_sink_ (s : body) (v : option (option status)) : body := mk_body (flow_ s) (gzip_flow_ s) v
  (content_ s).
Definition set_content_ (s : body) (v : bytes) : body := mk_body (flow_ s) (gzip_flow_ s) (flow_sink_ s) v.

Definition flow_wakeup (f : flow) (input : bytes) : option (flow * bytes * bytes * option (option status)) :=
  match fl_stage f with
  | Length n =>
    '(b, n, input, o, st) ← wakeup length_loop (fl_common f) n input; Some (mk_flow b (Length n), input, o, st)
  | Chunked c =>
    '(b, c, input, o, st) ← wakeup chunked_loop (fl_common f) c input; Some (mk_flow b (Chunked c), input, o, st)
  end.

(** [ByteFlowSink::close_input] *)
Definition close_sink (b : body) (st : option status) : option body :=
  match flow_sink_ b with None => Some (set_flow_sink_ b (Some st)) | Some _ => None end.

(** The sink gets what its child wrote, and perhaps its end. *)
Definition feed_sink (b : body) (o : bytes) (st : option (option status)) : option body :=
  let b := set_content_ b (content_ b ++ o) in
  match st with None => Some b | Some st => close_sink b st end.

(** [gzip_flow_.wakeup()]; a flow that has stopped does nothing. *)
Definition wake_gzip (b : body) (appended : bytes) (closed : bool) : option body :=
  match gzip_flow_ b with
  | Some (g, false) =>
    let '(g, o, st) := gzip_wakeup g appended closed in
    feed_sink (set_gzip_flow_ b (Some (g, bool_decide (is_Some st)))) o st
  | _ => Some b
  end.

(** What the first flow tells its parent. *)
Definition feed_parent (b : body) (o : bytes) (st : option (option status)) : option body :=
  match gzip_flow_ b with
  | None => feed_sink b o st
  | Some (g, stopped) =>
    match st with
    | Some (Some err) => if stopped then Some b else close_sink (set_gzip_flow_ b (Some (g, true))) (Some err)
    | _ => wake_gzip b o (bool_decide (is_Some st))
    end
  end.

(** [gzip_flow_.wakeup(); flow_source_.wakeup()] *)
Definition wake_flows (b : body) (input : bytes) : option (body * bytes) :=
  b ← wake_gzip b [] false;
  match flow_ b with
  | None => Some (b, input)
  | Some f =>
    if stop_flag_ (fl_common f) then Some (b, input)
    else
      '(f, input, o, st) ← flow_wakeup f input;
      b ← feed_parent (set_flow_ b (Some f)) o st;
      Some (b, input)
  end.

Definition is_ready (b : body) : bool := bool_decide (is_Some (flow_sink_ b)).

Record reader := mk_reader {
  max_post_size_ : Z;
  max_files_ : Z;
  state_ : state;
  headers_read_length_ : nat;
  total_headers_length_ : Z;
  input_ : bytes;
  query_ : option Z;  (* the address of the query *)
  the_parsed : parsed;
  the_body : body;
  the_form : form;
  the_temp : temp;
}.

Definition set_max_post_size_ (s : reader) (v : Z) : reader := mk_reader v (max_files_ s) (state_ s)
  (headers_read_length_ s) (total_headers_length_ s) (input_ s) (query_ s) (the_parsed s) (the_body s) (the_form s)
  (the_temp s).
Definition set_max_files_ (s : reader) (v : Z) : reader := mk_reader (max_post_size_ s) v (state_ s)
  (headers_read_length_ s) (total_headers_length_ s) (input_ s) (query_ s) (the_parsed s) (the_body s) (the_form s)
  (the_temp s).
Definition set_state_ (s : reader) (v : state) : reader := mk_reader (max_post_size_ s) (max_files_ s) v
  (headers_read_length_ s) (total_headers_length_ s) (input_ s) (query_ s) (the_parsed s) (the_body s) (the_form s)
  (the_temp s).
Definition set_headers_read_length_ (s : reader) (v : nat) : reader := mk_reader (max_post_size_ s) (max_files_ s)
  (state_ s) v (total_headers_length_ s) (input_ s) (query_ s) (the_parsed s) (the_body s) (the_form s) (the_temp
  s).
Definition set_total_headers_length_ (s : reader) (v : Z) : reader := mk_reader (max_post_size_ s) (max_files_ s)
  (state_ s) (headers_read_length_ s) v (input_ s) (query_ s) (the_parsed s) (the_body s) (the_form s) (the_temp
  s).
Definition set_input_ (s : reader) (v : bytes) : reader := mk_reader (max_post_size_ s) (max_files_ s) (state_ s)
  (headers_read_length_ s) (total_headers_length_ s) v (query_ s) (the_parsed s) (the_body s) (the_form s)
  (the_temp s).
Definition set_query_ (s : reader) (v : option Z) : reader := mk_reader (max_post_size_ s) (max_files_ s) (state_
  s) (headers_read_length_ s) (total_headers_length_ s) (input_ s) v (the_parsed s) (the_body s) (the_form s)
  (the_temp s).
Definition set_the_parsed (s : reader) (v : parsed) : reader := mk_reader (max_post_size_ s) (max_files_ s) (state_
  s) (headers_read_length_ s) (total_headers_length_ s) (input_ s) (query_ s) v (the_body s) (the_form s) (the_temp
  s).
Definition set_the_body (s : reader) (v : body) : reader := mk_reader (max_post_size_ s) (max_files_ s) (state_ s)
  (headers_read_length_ s) (total_headers_length_ s) (input_ s) (query_ s) (the_parsed s) v (the_form s) (the_temp
  s).
Definition set_the_form (s : reader) (v : form) : reader := mk_reader (max_post_size_ s) (max_files_ s) (state_ s)
  (headers_read_length_ s) (total_headers_length_ s) (input_ s) (query_ s) (the_parsed s) (the_body s) v (the_temp
  s).
Definition set_the_temp (s : reader) (v : temp) : reader := mk_reader (max_post_size_ s) (max_files_ s) (state_ s)
  (headers_read_length_ s) (total_headers_length_ s) (input_ s) (query_ s) (the_parsed s) (the_body s) (the_form s)
  v.

(** [init], and the state of a new reader. *)
Definition reset (r : reader) (input : bytes) (max_post_size max_files : Z) : reader :=
  let r := set_headers_read_length_ (set_state_ (set_input_ r input) ReadHeaders) O in
  let r := set_query_ (set_the_parsed r (set_content_length_ (the_parsed r) (-1))) None in
  let r := set_max_files_ (set_max_post_size_ r max_post_size) max_files in
  set_total_headers_length_ (set_the_parsed r (set_total_parameters_length_ (the_parsed r) 0)) 0.

Definition new_reader (max_post_size max_files : Z) (q : http_query) : reader :=
  mk_reader max_post_size max_files ReadHeaders O 0 [] None (mk_parsed q 0 (-1) [] [] [] [])
    (mk_body None None None []) (mk_form [] O 0 SkipPrologue new_part []) (mk_temp false [] 0 O []).

Definition split_header (r : reader) : option (reader * result Z) :=
  '(found, n) ← find_boundary (input_ r) (crlf ++ crlf) (headers_read_length_ r);
  let r := set_headers_read_length_ r n in
  if (found : bool) then
    let head := take (n + 2) (input_ r) in
    let p := update_query (the_parsed r) (fun q => set_hq_container q [head]) in
    let r := set_total_headers_length_ (set_input_ r (drop (n + 4) (input_ r))) (Z.of_nat n) in
    '(p, res) ← parse_head p head;
    Some (set_the_parsed r p, match res with Err err => Err err | Ok _ => Ok 0 end)
  else if MAX_TOTAL_HEADERS_LENGTH <? len (input_ r) then Some (r, Err headers_too_large)
  else Some (r, Ok (len (input_ r) + 1)).

(** The position of the first occurrence. *)
Fixpoint search (needle s : bytes) : option nat :=
  if is_prefix needle s then Some O
  else match s with [] => None | _ :: s' => S <$> search needle s' end.
Definition has_substring (s needle : bytes) : bool := bool_decide (is_Some (search needle s)).

(** [c_str()]: up to the first NUL. *)
Definition c_str (s : bytes) : bytes := fst (span (fun c => ord c =? 0) s).

(** The boundary of the parts, from the type of the content. *)
Definition find_boundary_value (content_type lowercased : bytes) : result bytes :=
  match search (lit "boundary") (c_str lowercased) with
  | None => error 400 "Bad Request: boundary not found"
  | Some n =>
    let rest := drop (n + 8) content_type in
    match Prelude.find "="%char rest with
    | None => error 400 "Bad Request: boundary value not found"
    | Some k =>
      let value := fst (span (fun c => bool_decide (c = ";"%char)) (drop (S k) rest)) in
      let boundary :=
        if bool_decide (head value = Some (chr 34)) && (2 <=? len value) && bool_decide (last value = Some (chr 34))
        then take (length value - 2) (drop 1 value) else value in
      if bool_decide (boundary = []) || (MAX_BOUNDARY_LENGTH <? len boundary) then
        error 400 "Bad Request: boundary too big or empty"
      else Ok boundary
    end
  end.

(** What [do_read_next] does next: [continue], [break], or [return]. *)
Inductive progress := Again | Done | Stop (res : result Z).

Definition unsupported_transfer : status := Status 501 (lit "Unimplemented: unsupported transfer-encoding").
Definition unsupported_content : status := Status 415 (lit "Unsupported Media Type: unsupported content-encoding").

(** The flows of a body: the first one, and gzip. *)
Definition make_stage (p : parsed) : result stage :=
  if bool_decide (transfer_encoding_ p = []) then Ok (Length (content_length_ p))
  else if bool_decide (transfer_encoding_ p = lit "chunked") then Ok (Chunked init_chunked)
  else Err unsupported_transfer.

Definition make_gzip (r : reader) : result (option (Gz * bool)) :=
  let c := content_encoding_ (the_parsed r) in
  if bool_decide (c = []) || bool_decide (c = lit "none") then Ok None
  else if bool_decide (c = lit "gzip") || bool_decide (c = lit "deflate") then
    Ok (Some (gzip_new 0 (Z.max (max_post_size_ r) (MAX_TOTAL_PARAMETERS_LENGTH + 1)) MAX_CONTENT_SIZE, false))
  else Err unsupported_content.

(** The state a body is read in. *)
Definition choose_state (r : reader) : reader * progress :=
  let p := the_parsed r in
  if MAX_CONTENT_SIZE <=? content_length_ p then
    (r, Stop (Err (Status 413 (lit "Request Entity Too Large: content length is " ++ print_int int64_min (content_length_ p)))))
  else if has_substring (content_type_lowercased_ p) (lit "multipart/form-data") then
    let r := set_state_ r ReadMultipartFormData in
    match find_boundary_value (content_type_ p) (content_type_lowercased_ p) with
    | Err err => (r, Stop (Err err))
    | Ok boundary =>
      let f := set_boundary_ (the_form r) (crlf ++ lit "--" ++ boundary) in
      (set_the_form r (set_form_data_skipped_length_ (set_form_data_read_length_ (set_form_data_parse_state_ f SkipPrologue) O) 0), Again)
    end
  else if has_substring (content_type_lowercased_ p) (lit "application/x-www-form-urlencoded")
       || has_substring (content_type_lowercased_ p) (lit "application/json") then (set_state_ r ReadArgs, Again)
  else (set_state_ (set_the_form r (set_form_data_skipped_length_ (the_form r) 0)) ReadContent, Again).

Definition read_headers (r : reader) : option (reader * progress) :=
  '(r, res) ← split_header r;
  match res with
  | Err err => Some (r, Stop (Err err))
  | Ok n =>
    let p := the_parsed r in
    if negb (n =? 0) then Some (r, Stop (Ok n))
    else if bool_decide (transfer_encoding_ p = []) && (content_length_ p <=? 0) then Some (r, Done)
    else
      match make_stage p with
      | Err err => Some (r, Stop (Err err))
      | Ok st =>
        match make_gzip r with
        | Err err => Some (r, Stop (Err err))
        | Ok g => Some (choose_state (set_the_body r (mk_body (Some (mk_flow init_common st)) g None [])))
        end
      end
  end.

Definition set_gzip_options (b : body) (low high : Z) : body :=
  match gzip_flow_ b with Some (g, st) => set_gzip_flow_ b (Some (gzip_set_options g low high, st)) | None => b end.

Definition read_content (r : reader) (need_size : Z) : option (reader * progress) :=
  let b := the_body r in
  if max_post_size_ r <? len (content_ b) then
    Some (set_the_body (set_state_ r ReadContentToFile) (set_gzip_options b 4194304 8388608), Again)
  else if is_ready b then
    if len (hq_container (the_query (the_parsed r))) =? 1 then
      let p := update_query (the_parsed r) (fun q => set_hq_content (add_container q (content_ b)) (content_ b)) in
      Some (set_the_body (set_the_parsed r p) (set_content_ b []), Done)
    else None
  else Some (r, Stop (Ok need_size)).

Definition read_content_to_file (can_be_slow : bool) (r : reader) (need_size : Z) : option (reader * progress) :=
  if negb can_be_slow then Some (r, Stop (Err slow))
  else
    '(t, opened) ← (if temp_file_ (the_temp r) then Some (the_temp r, Ok tt) else open_temp_file e (the_temp r) (lit "file"));
    let r := set_the_temp r t in
    match opened with
    | Err _ => Some (r, Stop (Err cannot_create))
    | Ok _ =>
      let b := the_body r in
      let restart := (1048576 <? len (content_ b)) || is_ready b in
      '(r, saved) ← (if restart then
        '(t, saved) ← save_file_part e (the_temp r) (content_ b);
        Some (set_the_temp (set_the_body r (set_content_ b [])) t, saved) else Some (r, Ok tt));
      match saved with
      | Err err => Some (r, Stop (Err err))
      | Ok _ =>
        if is_ready b then
          let file := mk_http_file (lit "file") [] (content_type_ (the_parsed r)) (file_size_ (the_temp r)) (temp_file_name_ (the_temp r)) in
          t ← close_temp_file (the_temp r);
          Some (set_the_temp (set_the_parsed r (update_query (the_parsed r) (fun q => add_file q file))) t, Done)
        else if restart then Some (r, Again)
        else Some (r, Stop (Ok need_size))
      end
    end.

Definition read_args (r : reader) (need_size : Z) : option (reader * progress) :=
  let b := the_body r in
  let p := the_parsed r in
  if wrap 64 (MAX_TOTAL_PARAMETERS_LENGTH - total_parameters_length_ p) <? len (content_ b) then
    Some (r, Stop (Err (Status 413 (lit "Request Entity Too Large: too many parameters"))))
  else if is_ready b then
    let r := set_the_body r (set_content_ b []) in
    let p := update_query p (fun q => add_container q (content_ b)) in
    '(p, result) ← (if has_substring (content_type_lowercased_ p) (lit "application/x-www-form-urlencoded")
                    then parse_parameters p (content_ b) else parse_json_parameters p (content_ b));
    match result with
    | Err err =>
      if st_code err =? 413 then Some (set_the_parsed r p, Stop (Err err))
      else Some (set_the_parsed r (update_query p (fun q => set_hq_content q [])), Done)
    | Ok _ => Some (set_the_parsed r (update_query p (fun q => set_hq_content q [])), Done)
    end
  else Some (r, Stop (Ok need_size)).

Definition read_form (can_be_slow : bool) (r : reader) (need_size : Z) : option (reader * progress) :=
  let b := the_body r in
  if negb (bool_decide (content_ b = [])) || is_ready b then
    '(m, res) ← parse_multipart_form_data e (max_files_ r) (is_ready b) can_be_slow (2 * length (content_ b) + 2)
      (mk_multipart (content_ b) (the_form r) (the_parsed r) (the_temp r) (total_headers_length_ r));
    let r := set_the_temp (set_the_parsed (set_the_form (set_the_body r (set_content_ b (m_content m))) (m_form m)) (m_parsed m)) (m_temp m) in
    let r := set_total_headers_length_ r (m_headers_length m) in
    Some (r, match res with Err err => Stop (Err err) | Ok true => Done | Ok false => Stop (Ok need_size) end)
  else Some (r, Stop (Ok need_size)).

Definition flow_error (err : status) : status := Status 400 (lit "Bad Request: " ++ st_message err).

(** The start of a turn of [do_read_next]: the error of a flow, or [need_size]. *)
Definition read_flows (r : reader) (need_size : Z) : option (reader * result Z) :=
  if bool_decide (state_ r = ReadHeaders) then Some (r, Ok need_size)
  else
    '(b, input) ← wake_flows (the_body r) (input_ r);
    let r := set_input_ (set_the_body r b) input in
    match flow_sink_ b with
    | Some (Some err) =>
      if temp_file_ (the_temp r) then t ← clean_temporary_file (the_temp r); Some (set_the_temp r t, Err (flow_error err))
      else Some (r, Err (flow_error err))
    | _ =>
      let n := match flow_ b with Some f => need_size_ (fl_common f) | None => 0 end in
      Some (r, Ok (if n =? 0 then len input + 1 else n))
    end.

Definition read_turn (can_be_slow : bool) (r : reader) (need_size : Z) : option (reader * progress) :=
  match state_ r with
  | ReadHeaders => read_headers r
  | ReadContent => read_content r need_size
  | ReadContentToFile => read_content_to_file can_be_slow r need_size
  | ReadArgs => read_args r need_size
  | ReadMultipartFormData => read_form can_be_slow r need_size
  end.

Fixpoint do_read_next (fuel : nat) (can_be_slow : bool) (r : reader) (need_size : Z) : option (reader * result Z) :=
  match fuel with
  | O => None
  | S fuel =>
    '(r, res) ← read_flows r need_size;
    match res with
    | Err err => Some (r, Err err)
    | Ok need_size =>
      '(r, p) ← read_turn can_be_slow r need_size;
      match p with
      | Again => do_read_next fuel can_be_slow r need_size
      | Stop res => Some (r, res)
      | Done => Some (reset r (input_ r) (max_post_size_ r) (max_files_ r), Ok 0)
      end
    end
  end.

(** [read_next] with the query [q] at the address [query]. *)
Definition read_next (fuel : nat) (r : reader) (query : Z) (q : http_query) (can_be_slow : bool) : option (reader * result Z) :=
  r ← (if bool_decide (query_ r = Some query) then Some r
       else match query_ r with
            | Some _ => None
            | None => Some (set_the_parsed (set_query_ r (Some query)) (set_the_query (the_parsed r) q))
            end);
  '(r, r_size) ← do_read_next fuel can_be_slow r (len (input_ r) + 1);
  match r_size with
  | Ok n =>
    if negb (bool_decide (state_ r = ReadHeaders)) && (0 <? n) then
      match flow_sink_ (the_body r) with
      | Some (Some _) => None
      | Some None => Some (r, error 400 "Bad Request: unexpected end of request content")
      | None => Some (r, r_size)
      end
    else Some (r, r_size)
  | Err _ => Some (r, r_size)
  end.

End Reader.

End HttpReader.
