(* ===== verification/HttpReaderChecks.v ===== *)
(** * The HTTP reader never fails a check and always ends

    The loops of [HttpReader] end with the fuel they are given; [consistent] is the
    invariant of its fields, kept by every call; the theorem about whole
    connections is in [HttpReaderProperties]. *)

From S2P Require Import Prelude TdMisc Utf8 TextParser Json IPAddress HttpUrl ByteFlow Query HttpConnection HttpReader.

Import Chars Strings Integers Coding Parser Reader Boundary Flow HttpReader.

(** ** The parsers end *)

Lemma data_read_till c p : (length (data (snd (read_till c p))) <= length (data p))%nat.
Proof.
  unfold read_till, read_till_nofail. destruct (has_error p); [done|].
  pose proof (span_length (fun x => bool_decide (x = c)) (p_data p)) as H. destruct (span _ (p_data p)) as [a b]. cbn in *.
  destruct b as [|x b]; [cbn; lia|]. by destruct (decide (x = c)).
Qed.

Lemma data_skip c p : (length (data (skip c p)) <= length (data p))%nat.
Proof.
  unfold skip. destruct (has_error p); [done|]. destruct p as [[|x d] st]; [done|]. cbn. destruct (decide (x = c)); cbn; lia.
Qed.

(** A [skip] without an error consumed a char, and there was no error before. *)
Lemma skip_ok c p : has_error (skip c p) = false -> has_error p = false /\ (length (data (skip c p)) < length (data p))%nat.
Proof.
  unfold skip. destruct (has_error p) eqn:E; [by rewrite E|]. destruct p as [[|x d] st]; [done|]. cbn. destruct (decide (x = c)); [|done].
  intros _. split; [done|]. cbn. lia.
Qed.

Lemma read_header_value_total fuel : forall p, (length (data p) < fuel)%nat ->
  exists v p', read_header_value fuel p = Some (v, p') /\ (length (data v) <= length (data p))%nat /\ (length (data p') <= length (data p))%nat
  /\ (has_error p' = false -> (length (data p') < length (data p))%nat).
Proof.
  induction fuel as [|fuel IH]; intros p Hf; [lia|]. cbn [read_header_value]. cbn zeta.
  set (v := snd (read_till (chr 13) p)). assert (Hv : (length (data v) <= length (data p))%nat) by apply data_read_till.
  set (p1 := skip (chr 10) (skip (chr 13) v)).
  assert (H1 : (length (data p1) <= length (data p))%nat) by (etrans; [apply data_skip|]; etrans; [apply data_skip|done]).
  assert (H2 : has_error p1 = false -> (length (data p1) < length (data p))%nat).
  { intros [He Hl]%skip_ok. fold p1 in Hl. apply skip_ok in He as [_ He]. lia. }
  destruct (negb (has_error p1)) eqn:E; cbn [andb]; [|by exists v, p1].
  apply negb_true_iff in E. specialize (H2 E). case_bool; [|exists v, p1; split_and!; try done; lia].
  destruct (IH p1) as (v' & p' & -> & Hv' & Hp' & _); [lia|]. exists v', p'. split_and!; try done; intros; lia.
Qed.

Lemma read_header_total p : exists name value p', read_header p = Some (name, value, p') /\ (length (data p') <= length (data p))%nat
  /\ (has_error p' = false -> (length (data p') < length (data p))%nat).
Proof.
  unfold read_header. pose proof (data_read_till ":"%char p) as H. destruct (read_till ":"%char p) as [name p1]. cbn in H. cbn zeta.
  pose proof (data_skip ":"%char p1). destruct (read_header_value_total (S (length (data (skip ":"%char p1)))) (skip ":"%char p1)) as (v & p' & -> & Hv & Hp & He); [lia|].
  cbn. eexists _, _, _. split_and!; [done|lia|]. intros E%He. lia.
Qed.

Lemma parse_headers_total fuel : forall p ps, ((if has_error ps then 0 else length (data ps)) < fuel)%nat ->
  exists p' r, parse_headers fuel p ps = Some (p', r).
Proof.
  induction fuel as [|fuel IH]; intros p ps Hf; [lia|]. cbn [parse_headers]. case_bool; [|eauto].
  apply andb_true_iff in Heqb as [Heqb Hd]. apply negb_true_iff in Heqb, Hd. apply bool_decide_eq_false in Hd. rewrite Heqb in Hf.
  assert (length (data ps) <> 0%nat) by by destruct (data ps).
  destruct (read_header_total ps) as (name & value & ps' & -> & H1 & H2). cbn. apply IH. destruct (has_error ps'); [|specialize (H2 eq_refl)]; lia.
Qed.

Definition after_char (c : ascii) (s : bytes) : bytes := match s with x :: rest => if decide (x = c) then rest else s | [] => [] end.
Lemma skip_nofail_init c s : skip_nofail c (init s) = init (after_char c s).
Proof. unfold skip_nofail, after_char, init. cbn. destruct s as [|x s]; [done|]. by destruct (decide (x = c)). Qed.
Lemma read_till_nofail_init c s : read_till_nofail c (init s)
  = (fst (span (fun x => bool_decide (x = c)) s), init (snd (span (fun x => bool_decide (x = c)) s))).
Proof. unfold read_till_nofail, init. cbn. by destruct (span _ s). Qed.

Lemma parse_pairs_total fuel : forall q s, (length s < fuel)%nat -> exists q', parse_pairs fuel q (init s) = Some q'
  /\ hq_container q' = hq_container q /\ hq_files q' = hq_files q.
Proof.
  induction fuel as [|fuel IH]; intros q s Hf; [lia|]. cbn [parse_pairs]. case_bool_decide as E; [by exists q|].
  rewrite read_till_nofail_init. destruct (span _ s) as [a b] eqn:Es. cbn [fst snd]. cbn zeta.
  rewrite skip_nofail_init, read_till_nofail_init. assert (Hl : (length (after_char "&"%char b) < length s)%nat).
  { apply span_app in Es as (-> & _ & Hb). rewrite length_app. destruct b as [|x b]; [destruct a; [by destruct E|simpl; lia]|].
    apply bool_decide_eq_true in Hb. cbn [after_char]. rewrite decide_True by done. simpl. lia. }
  match goal with |- context [parse_pairs fuel ?q1 (init ?s1)] => destruct (IH q1 s1) as (q' & -> & Hc); [lia|by exists q'] end.
Qed.

Lemma parse_parameters_total p s : exists p' r, parse_parameters p s = Some (p', r) /\ hq_container (the_query p') = hq_container (the_query p)
  /\ hq_files (the_query p') = hq_files (the_query p)
  /\ total_parameters_length_ p' = total_parameters_length_ p + len s /\ (is_ok r = true -> total_parameters_length_ p' <= MAX_TOTAL_PARAMETERS_LENGTH).
Proof.
  unfold parse_parameters. cbn -[parse_pairs]. case_bool; [by eexists _, _|]. destruct (parse_pairs_total (S (length s)) (the_query p) s) as (q & -> & H & H'); [lia|].
  eexists _, _. split; [done|]. cbn. split_and!; try done. intros _. lia.
Qed.

Lemma do_json_skip_total s d : exists r s', do_json_skip (fuel_for (init s)) (init s) d = Some (r, init s') /\ (length s' <= length s)%nat.
Proof.
  destruct (proj1 (decode_returns (fuel_for (init s))) s d) as (r & s' & E & Hl); [done|].
  pose proof (proj1 (decode_skip_agree (fuel_for (init s))) (init s) d) as H. rewrite E in H. unfold agree in H.
  destruct (do_json_skip _ _ _) as [[u p]|]; [|done]. destruct H as [H <-]. by exists u, s'.
Qed.

Lemma read_json_value_total s : exists r s', read_json_value (init s) = Some (r, init s') /\ (length s' <= length s)%nat.
Proof.
  unfold read_json_value. case_bool.
  - destruct (string_decode_init s) as (r & s' & -> & H & _). by exists r, s'.
  - destruct (do_json_skip_total s 100) as (r & s' & -> & H). by eexists _, s'.
Qed.

Lemma parse_json_fields_total fuel : forall q s, (length s < fuel)%nat -> exists q' r, parse_json_fields fuel q (init s) = Some (q', r) /\ hq_files q' = hq_files q.
Proof.
  induction fuel as [|fuel IH]; intros q s Hf; [lia|]. cbn [parse_json_fields]. cbn zeta. rewrite skip_ws_init. pose proof (ws_length s).
  destruct (try_skip_char_cases "}"%char (ws s)) as [(s1 & E & ->)| ->]; [by eexists _, _|].
  case_bool; [by eexists _, _|]. destruct (string_decode_init (ws s)) as ([key|] & s1 & -> & H1 & H2); [|by eexists _, _]. specialize (H2 eq_refl).
  rewrite skip_ws_init. pose proof (ws_length s1). destruct (try_skip_char_cases ":"%char (ws s1)) as [(s2 & E2 & ->)| ->]; [|by eexists _, _].
  apply (f_equal length) in E2. cbn in E2. rewrite skip_ws_init. pose proof (ws_length s2).
  destruct (read_json_value_total (ws s2)) as ([value|] & s3 & -> & H13); cbn -[parse_json_fields]; [|by eexists _, _].
  rewrite skip_ws_init. pose proof (ws_length s3). case_bool.
  { destruct (IH (add_arg q key value) (ws s3)) as (q' & r & -> & Hc); [lia|]. by exists q', r. }
  destruct (try_skip_char_cases ","%char (ws s3)) as [(s4 & E4 & ->)| ->]; [|by eexists _, _].
  apply (f_equal length) in E4. cbn in E4. destruct (IH (add_arg q key value) s4) as (q' & r & -> & Hc); [lia|]. by exists q', r.
Qed.

Lemma parse_json_parameters_total p s : exists p' r, parse_json_parameters p s = Some (p', r) /\ hq_files (the_query p') = hq_files (the_query p).
Proof.
  unfold parse_json_parameters. case_bool; [by eexists _, _|]. cbn -[parse_json_fields]. case_bool; [by eexists _, _|].
  rewrite skip_ws_init. case_bool.
  - destruct (string_decode_init (ws s)) as ([v|] & s1 & -> & _); [case_bool|]; by eexists _, _.
  - destruct (has_error _) eqn:E; [by eexists _, _|]. unfold skip in *. change (has_error (init (ws s))) with false in *. cbn [init p_data] in *.
    destruct (ws s) as [|x w]; [done|]. destruct (decide (x = "{"%char)); [|done].
    destruct (parse_json_fields_total (S (length w)) (the_query p) w) as (q & r & Ef & Eq); [lia|].
    change (set_data (init (x :: w)) w) with (init w). cbn [data init p_data] in *. rewrite Ef. by eexists _, _.
Qed.

(** What the parsing of a head keeps. *)
Definition same_counts (p p' : parsed) : Prop :=
  hq_container (the_query p') = hq_container (the_query p) /\ total_parameters_length_ p' = total_parameters_length_ p
  /\ (hq_files (the_query p) = [] -> hq_files (the_query p') = []).
#[export] Instance same_counts_preorder : PreOrder same_counts.
Proof. split; [done|]. intros p q r (H1 & H2 & H3) (H4 & H5 & H6). split; [congruence|]. split; [congruence|eauto]. Qed.

Lemma process_header_counts p k v : same_counts p (process_header p k v).
Proof. unfold process_header. cbn zeta. by repeat case_bool. Qed.

Lemma parse_headers_counts fuel : forall p ps p' r, parse_headers fuel p ps = Some (p', r) -> same_counts p p'.
Proof.
  induction fuel as [|fuel IH]; intros p ps p' r; [done|]. cbn [parse_headers]. case_bool; [|by intros [= <- _]].
  destruct (read_header ps) as [[[name value] ps']|]; cbn; [|done]. intros H%IH. etrans; [apply process_header_counts|done].
Qed.

Lemma parse_head_lines_total p ps : exists p' r, parse_head_lines p ps = Some (p', r) /\ same_counts p p'.
Proof.
  unfold parse_head_lines. cbn zeta. destruct (parse_headers_total (S (length (data (skip (chr 10) (skip (chr 13) ps))))) (reset_head p) (skip (chr 10) (skip (chr 13) ps)))
    as (p' & r & E); [case_bool; lia|]. exists p', r. split; [done|]. apply parse_headers_counts in E as (E1 & E2 & E3). split_and!; [done..|]. intros _. by apply E3.
Qed.

Lemma parse_http_version_counts p v : same_counts p (fst (parse_http_version p v)).
Proof. unfold parse_http_version. by repeat case_bool. Qed.

Definition parameters_bound (p : parsed) : Prop := 0 <= total_parameters_length_ p <= MAX_TOTAL_PARAMETERS_LENGTH.

Lemma parse_request_line_total p s : parameters_bound p -> exists p' r, parse_request_line p s = Some (p', r)
  /\ hq_container (the_query p') = hq_container (the_query p) /\ (hq_files (the_query p) = [] -> hq_files (the_query p') = [])
  /\ (is_ok r = true -> parameters_bound p').
Proof.
  intros Hp. unfold parse_request_line. destruct (Url.rfind _ s) as [n|]; [|by eexists _, _].
  assert (exists p1 r1, parse_url p (take n s) = Some (p1, r1) /\ hq_container (the_query p1) = hq_container (the_query p)
    /\ (hq_files (the_query p) = [] -> hq_files (the_query p1) = []) /\ (is_ok r1 = true -> parameters_bound p1)) as (p1 & r1 & -> & H1 & HF & H2).
  { unfold parse_url. destruct (span _ (take n s)) as [path [|c rest]]; [by eexists _, _|].
    destruct (decide (c = "?"%char)); [|by eexists _, _].
    destruct (parse_parameters_total (update_query p (fun q => set_hq_url_path q (url_decode path false))) rest) as (p1 & r1 & -> & H1 & HF & H2 & H3).
    eexists _, _. split_and!; [done|done|by rewrite HF|]. intros Hr. split; [rewrite H2|by apply H3]. cbn. destruct Hp. pose proof (len_nonneg rest). lia. }
  cbn. destruct r1 as [[]|]; [|by eexists _, _]. specialize (H2 eq_refl). unfold parse_http_version.
  repeat case_bool; eexists _, _; (split; [done|]); cbn; by split_and!.
Qed.

Lemma parse_head_total p s : parameters_bound p -> exists p' r, parse_head p s = Some (p', r)
  /\ hq_container (the_query p') = hq_container (the_query p) /\ (hq_files (the_query p) = [] -> hq_files (the_query p') = [])
  /\ (is_ok r = true -> parameters_bound p').
Proof.
  intros Hp. unfold parse_head. destruct (read_till _ (init s)) as [type ps]. cbn zeta.
  assert (Hreq : forall t, exists p' r, (let '(url_version, ps) := read_till (chr 13) (skip " "%char ps) in
      '(p, r) ← parse_request_line (update_query p (fun q => set_hq_args (set_hq_type q t) [])) url_version;
      match r with Err e => Some (p, Err e) | Ok _ => parse_head_lines p ps end) = Some (p', r)
    /\ hq_container (the_query p') = hq_container (the_query p) /\ (hq_files (the_query p) = [] -> hq_files (the_query p') = [])
    /\ (is_ok r = true -> parameters_bound p')).
  { intros t. destruct (read_till (chr 13) _) as [uv ps1].
    destruct (parse_request_line_total (update_query p (fun q => set_hq_args (set_hq_type q t) [])) uv) as (p1 & r1 & -> & H1 & HF & H2); [done|].
    cbn -[parse_head_lines]. destruct r1 as [[]|]; [|by eexists _, _]. specialize (H2 eq_refl). destruct (parse_head_lines_total p1 ps1) as (p2 & r2 & -> & H3 & H4 & H5).
    eexists _, _. split_and!; [done|by rewrite H3|by intros ?; apply H5, HF|]. intros _. unfold parameters_bound. by rewrite H4. }
  case_bool; [apply Hreq|]. case_bool; [apply Hreq|]. case_bool; [|by eexists _, _].
  pose proof (parse_http_version_counts p type) as Hv. destruct (parse_http_version p type) as [p0 [[]|err]]; cbn in Hv; destruct Hv as (Hv1 & Hv2 & Hv3).
  - clear Hreq. unfold parse_status. destruct (read_till " "%char (skip " "%char ps)) as [code ps1].
    destruct (read_till (chr 13) (skip " "%char ps1)) as [reason ps2].
    match goal with |- context [parse_head_lines ?p1 ?ps1] => destruct (parse_head_lines_total p1 ps1) as (p2 & r2 & -> & H3 & H4 & H5) end.
    cbn in H3, H4, H5. eexists _, _. split_and!; [done|by rewrite H3|by intros ?; apply H5, Hv3|]. intros _. unfold parameters_bound. by rewrite H4, Hv2.
  - by eexists _, _.
Qed.

(** *** Part headers *)

Lemma drop_spaces_length s : (length (drop_spaces s) <= length s)%nat.
Proof. induction s as [|c s IH]; cbn; [done|]. case_bool; cbn; lia. Qed.
Lemma trim_length s : (length (trim s) <= length s)%nat.
Proof.
  unfold trim. rewrite length_reverse. etrans; [apply drop_spaces_length|]. rewrite length_reverse. apply drop_spaces_length.
Qed.

Lemma unquote_length s v rest : unquote s = Ok (v, rest) -> (length rest <= length s)%nat.
Proof.
  revert v. remember (length s) as n eqn:En. revert s En. induction (lt_wf n) as [n _ IH]. intros s -> v.
  assert (Hp : forall c s1, (length s1 < length s)%nat -> prepend [c] (unquote s1) = Ok (v, rest) -> (length rest <= length s)%nat).
  { intros c s1 Hl. destruct (unquote s1) as [[v1 r1]|] eqn:E; [|done]. cbn. intros [= _ <-]. eapply IH in E; [|exact Hl|done]. lia. }
  destruct s as [|c s]; [done|]. cbn [unquote]. case_bool; [intros [= _ <-]; cbn; lia|].
  case_bool; [destruct s as [|d s]; [done|]|]; apply Hp; cbn; lia.
Qed.

Lemma disposition_value_length s v rest : disposition_value s = Ok (v, rest) -> (length rest <= length s)%nat.
Proof.
  unfold disposition_value. pose proof (drop_spaces_length s) as Hs. destruct (drop_spaces s) as [|c w]; [intros [= _ <-]; cbn; lia|].
  case_bool.
  - destruct (unquote w) as [[v1 r1]|] eqn:E; [|done]. apply unquote_length in E. pose proof (drop_spaces_length r1).
    destruct (drop_spaces r1) as [|d r2]; [intros [= _ <-]; cbn; lia|]. destruct (decide _); [|done]. intros [= _ <-]. cbn in *. lia.
  - destruct (Prelude.find _ _); intros [= _ <-]; [rewrite length_drop|]; cbn in *; lia.
Qed.

Lemma disposition_total fuel : forall v p, (length v < fuel)%nat -> exists r, disposition fuel v p = Some r.
Proof.
  induction fuel as [|fuel IH]; intros v p Hf; [lia|]. cbn [disposition]. cbn zeta. pose proof (trim_length v).
  destruct (Prelude.find _ (trim v)) as [k|] eqn:E; [|by eexists]. destruct (disposition_value _) as [[value rest]|] eqn:Ev; [|by eexists].
  apply disposition_value_length in Ev. rewrite length_drop in Ev. apply IH.
  assert (length (trim v) <> 0%nat) by (intros ?%nil_length_inv; by rewrite H0 in E). lia.
Qed.

Lemma part_headers_total fuel : forall p ps, ((if has_error ps then 0 else length (data ps)) < fuel)%nat -> exists r, part_headers fuel p ps = Some r.
Proof.
  induction fuel as [|fuel IH]; intros p ps Hf; [lia|]. cbn [part_headers]. case_bool; [|by repeat case_bool; eexists].
  apply andb_true_iff in Heqb as [Heqb Hd]. apply negb_true_iff in Heqb, Hd. apply bool_decide_eq_false in Hd. rewrite Heqb in Hf.
  assert (length (data ps) <> 0%nat) by by destruct (data ps).
  destruct (read_header_total ps) as (name & value & ps' & -> & H1 & H2). cbn.
  assert (exists r, part_header p name value = Some r) as [r ->].
  { unfold part_header. cbn zeta. case_bool; [|case_bool; by eexists]. case_bool; [by eexists|]. apply disposition_total.
    rewrite length_drop. lia. }
  cbn. destruct r as [p'|]; [|by eexists]. apply IH. destruct (has_error ps'); [|specialize (H2 eq_refl)]; lia.
Qed.

(** ** Temporary files

    Each file the reader creates is deleted or handed over with a query, and the
    same holds of the directories that are made for them. *)

(** What the operating system and [clean_filename] promise: resolved paths and new
    directories have names, [mkdtemp] puts the prefix and six characters after a
    slash, cleaned names have no slash. *)
Record env_ok (e : env) : Prop := {
  realpath_name : forall n d d', realpath e n d = Ok d' -> d' <> [];
  mkdtemp_name : forall n d p d', mkdtemp e n d p = Ok d' ->
    exists base six, d' = base ++ "/"%char :: p ++ six /\ length six = 6%nat /\ "/"%char ∉ six;
  clean_name : forall s, "/"%char ∉ clean_filename e s;
}.

(** The name of a temporary file, and its directory. *)
Definition temp_dir (d : bytes) : Prop :=
  exists base six, d = base ++ "/"%char :: TEMP_DIRECTORY_PREFIX ++ six /\ length six = 6%nat /\ "/"%char ∉ six.
Definition temp_name (n : bytes) : Prop := exists d file, n = d ++ "/"%char :: file /\ temp_dir d /\ "/"%char ∉ file.
Definition dir_of (n : bytes) : bytes := take (length (parent_dir n) - 1) (parent_dir n).

Lemma parent_dir_app d f : "/"%char ∉ f -> parent_dir (d ++ "/"%char :: f) = d ++ ["/"%char].
Proof.
  intros H. unfold parent_dir. rewrite rfind_last by done. change (d ++ "/"%char :: f) with (d ++ ["/"%char] ++ f).
  rewrite app_assoc. apply take_app_length'. rewrite length_app. cbn. lia.
Qed.
Lemma dir_of_app d f : "/"%char ∉ f -> dir_of (d ++ "/"%char :: f) = d.
Proof. intros H. unfold dir_of. rewrite parent_dir_app by done. rewrite length_app. cbn. apply take_app_length'. lia. Qed.

(** How often [x] was added, less how often it was removed. *)
Definition file_delta (x : bytes) (a : file_action) : Z :=
  match a with
  | OpenFile n => if decide (n = x) then 1 else 0
  | UnlinkFile n => if decide (n = x) then -1 else 0
  | _ => 0
  end.
Definition dir_delta (x : bytes) (a : file_action) : Z :=
  match a with
  | MakeDir n => if decide (n = x) then 1 else 0
  | RemoveDir n => if decide (n = x) then -1 else 0
  | _ => 0
  end.
Fixpoint total (f : file_action -> Z) (l : list file_action) : Z :=
  match l with [] => 0 | a :: l => f a + total f l end.
Fixpoint count (x : bytes) (l : list bytes) : Z :=
  match l with [] => 0 | y :: l => (if decide (y = x) then 1 else 0) + count x l end.

Lemma delta_app f l k : total f (l ++ k) = total f l + total f k.
Proof. induction l as [|a l IH]; cbn; lia. Qed.
Lemma count_app x l k : count x (l ++ k) = count x l + count x k.
Proof. induction l as [|a l IH]; cbn; lia. Qed.

(** The files that exist are [held] and the open one; so are the directories. *)
Definition accounts (t : temp) (names : list bytes) : Prop :=
  Forall temp_name names /\ (forall x, total (file_delta x) (out t) = count x names)
  /\ (forall x, total (dir_delta x) (out t) = count x (dir_of <$> names)).
Definition open_names (t : temp) : list bytes := if temp_file_ t then [temp_file_name_ t] else [].
Definition clean (t : temp) (held : list bytes) : Prop := accounts t (held ++ open_names t).

Section Temp.
Context (e : env) (He : env_ok e).

(** Only the log matters, and what is added to it. *)
Lemma accounts_emit t l names names' : accounts t names ->
  (forall x, total (file_delta x) l + count x names = count x names') ->
  (forall x, total (dir_delta x) l + count x (dir_of <$> names) = count x (dir_of <$> names')) ->
  Forall temp_name names' -> forall t', out t' = out t ++ l -> accounts t' names'.
Proof using Type.
  intros (_ & H1 & H2) Hf Hd Hn t' E. unfold accounts. rewrite E. split; [done|]. split; intros x; rewrite delta_app; [rewrite H1, <- Hf|rewrite H2, <- Hd]; lia.
Qed.

Lemma accounts_same t names t' : accounts t names -> out t' = out t -> accounts t' names.
Proof using Type. intros H E. unfold accounts. by rewrite E. Qed.

Lemma delete_temp_file_ok t held n t0 : accounts t0 (held ++ [n]) -> out t = out t0 ->
  exists t', delete_temp_file t n = Some t' /\ accounts t' held /\ temp_file_ t' = temp_file_ t /\ temp_file_name_ t' = temp_file_name_ t.
Proof using Type.
  intros H Ho. assert (temp_name n) as (d & f & -> & (base & six & -> & H6 & Hs) & Hf) by (destruct H as [H _]; apply Forall_app in H as [_ H]; by apply Forall_inv in H).
  unfold delete_temp_file. rewrite bool_decide_false by by destruct base. cbn zeta. set (n := (base ++ "/"%char :: TEMP_DIRECTORY_PREFIX ++ six) ++ "/"%char :: f) in *.
  assert (Hp : parent_dir n = (base ++ "/"%char :: TEMP_DIRECTORY_PREFIX ++ six) ++ ["/"%char]) by by apply parent_dir_app.
  assert (Hd : dir_of n = base ++ "/"%char :: TEMP_DIRECTORY_PREFIX ++ six) by by apply dir_of_app.
  change (take (length (parent_dir n) - 1) (parent_dir n)) with (dir_of n). rewrite Hp, Hd.
  assert (Hl : length ((base ++ "/"%char :: TEMP_DIRECTORY_PREFIX ++ six) ++ ["/"%char]) = (length base + 1 + length TEMP_DIRECTORY_PREFIX + 7)%nat).
  { rewrite !length_app. cbn [length]. rewrite length_app. lia. }
  rewrite leb_true by (unfold len; lia). rewrite Hl. replace (length base + 1 + length TEMP_DIRECTORY_PREFIX + 7 - length TEMP_DIRECTORY_PREFIX - 7)%nat with (length (base ++ ["/"%char])) by (rewrite length_app; cbn; lia).
  rewrite (bool_decide_true (take _ _ = _)).
  2:{ change (base ++ "/"%char :: TEMP_DIRECTORY_PREFIX ++ six) with (base ++ ["/"%char] ++ TEMP_DIRECTORY_PREFIX ++ six).
      rewrite (app_assoc base), <- (app_assoc (base ++ _)), drop_app_length, <- app_assoc. apply take_app_length. }
  cbn [andb]. eexists. split; [done|]. split; [|done]. eapply (accounts_emit t0 [UnlinkFile n; RemoveDir (dir_of n)]); [exact H|..].
  - intros x. rewrite count_app. cbn. destruct (decide (n = x)); lia.
  - intros x. rewrite fmap_app, count_app. cbn. rewrite Hd. destruct (decide _); lia.
  - destruct H as [H _]. by apply Forall_app in H as [H _].
  - cbn. rewrite Ho, Hd, <- app_assoc. done.
Qed.

Lemma open_names_open t : temp_file_ t = true -> open_names t = [temp_file_name_ t].
Proof using Type. unfold open_names. by intros ->. Qed.
Lemma open_names_closed t : temp_file_ t = false -> open_names t = [].
Proof using Type. unfold open_names. by intros ->. Qed.
Lemma clean_closed t held : temp_file_ t = false -> clean t held <-> accounts t held.
Proof using Type. intros H. unfold clean. by rewrite open_names_closed, app_nil_r. Qed.

(** Closing keeps the file, as one that is held. *)
Lemma close_temp_file_ok t held : clean t held -> temp_file_ t = true ->
  exists t', close_temp_file t = Some t' /\ clean t' (held ++ [temp_file_name_ t]) /\ temp_file_ t' = false.
Proof using Type.
  intros H Ho. unfold close_temp_file. rewrite Ho. eexists. split; [done|]. split; [|done]. apply clean_closed; [done|].
  unfold clean in H. rewrite open_names_open in H by done. eapply (accounts_emit t [CloseFile (temp_file_name_ t)]); [exact H|done|done|by destruct H|done].
Qed.

Lemma clean_temporary_file_ok t held : clean t held -> temp_file_ t = true ->
  exists t', clean_temporary_file t = Some t' /\ clean t' held /\ temp_file_ t' = false.
Proof using Type.
  intros H Ho. unfold clean_temporary_file. destruct (close_temp_file_ok t held H Ho) as (t1 & -> & H1 & Hc). cbn.
  apply (proj1 (clean_closed _ _ Hc)) in H1. destruct (delete_temp_file_ok t1 held (temp_file_name_ t) t1 H1 eq_refl) as (t2 & E & H2 & Hc2 & _).
  exists t2. rewrite Hc in Hc2. split_and!; [done|by apply clean_closed|done].
Qed.

Lemma destroy_ok t held : clean t held -> exists t', destroy t = Some t' /\ accounts t' held.
Proof using Type.
  intros H. unfold destroy. destruct (temp_file_ t) eqn:E; [|exists t; split; [done|by apply clean_closed]].
  destruct (clean_temporary_file_ok t held H E) as (t' & -> & H' & Hc). exists t'. split; [done|by apply clean_closed].
Qed.

Lemma try_open_temp_file_ok t d desired : temp_file_ t = false -> temp_dir d ->
  exists t' r, try_open_temp_file e t d desired = Some (t', r) /\ temp_file_ t' = is_ok r /\
  match r with
  | Err _ => out t' = out t
  | Ok _ => exists n, temp_name n /\ dir_of n = d /\ temp_file_name_ t' = n /\ out t' = out t ++ [OpenFile n]
  end.
Proof using He.
  intros Hc Hd. unfold try_open_temp_file. rewrite Hc. assert (d <> []) by (destruct Hd as (b & s & -> & _); by destruct b).
  rewrite bool_decide_false by done. cbn [orb]. cbn zeta. set (f := if bool_decide (clean_filename e desired = []) then _ else _).
  assert (Hf : "/"%char ∉ f) by (subst f; case_bool_decide; [exact (bool_decide_eq_false_1 ("/"%char ∈ lit "file") eq_refl)|by apply He]). clearbody f.
  rewrite (bool_decide_false (last d = _)).
  2:{ destruct Hd as (b & s & -> & H6 & Hs). intros E. apply last_Some in E as (l & E).
      destruct s as [|x s _] using rev_ind; [done|]. rewrite !app_comm_cons, !app_assoc in E. apply app_inj_tail in E as [_ ->].
      apply Hs, elem_of_app. right. apply list_elem_of_here. }
  cbn [app]. destruct (open_file e _ _); eexists _, _; (split; [done|]).
  - split; [done|]. exists (d ++ "/"%char :: f). split; [by exists d, f|]. split; [by apply dir_of_app|done].
  - by split.
Qed.

Lemma open_temp_file_ok t held desired : clean t held -> temp_file_ t = false ->
  exists t' r, open_temp_file e t desired = Some (t', r) /\ clean t' held /\ temp_file_ t' = is_ok r.
Proof using He.
  intros H Hc. unfold open_temp_file. rewrite Hc. case_bool; [by eexists _, _|]. destruct (realpath e _ _) as [d|] eqn:Er; [|by eexists _, _].
  rewrite bool_decide_false by (by eapply realpath_name). destruct (mkdtemp e _ _ _) as [d'|] eqn:Em; [|by eexists _, _].
  apply mkdtemp_name in Em as (b & s & Ed & H6 & Hs); [|done]. assert (Hd : temp_dir d') by by exists b, s.
  apply (proj1 (clean_closed _ _ Hc)) in H. set (t1 := emit (ask (ask t)) (MakeDir d')). assert (H1 : out t1 = out t ++ [MakeDir d']) by done.
  assert (Hopen : forall t2 n, out t2 = out t1 ++ [OpenFile n] -> temp_name n -> dir_of n = d' -> temp_file_name_ t2 = n ->
    temp_file_ t2 = true -> clean t2 held).
  { intros t2 n E Hn Hdn <- Ho. unfold clean. rewrite open_names_open by done. eapply (accounts_emit t [MakeDir d'; OpenFile (temp_file_name_ t2)]); [exact H|..].
    - intros x. rewrite count_app. cbn. lia.
    - intros x. rewrite fmap_app, count_app. cbn. rewrite Hdn. lia.
    - apply Forall_app. destruct H as [H _]. by repeat constructor.
    - by rewrite E, H1, <- app_assoc. }
  destruct (try_open_temp_file_ok t1 d' desired Hc Hd) as (t2 & r2 & -> & C2 & E2). cbn [mbind option_bind].
  destruct r2 as [[]|err]; [destruct E2 as (n & Hn & Hdn & Hnm & E2); by eexists _, _; split_and!; eauto|].
  destruct (try_open_temp_file_ok t2 d' (lit "file") C2 Hd) as (t3 & r3 & -> & C3 & E3). cbn [mbind option_bind].
  destruct r3 as [[]|err3].
  - destruct E3 as (n & Hn & Hdn & Hnm & E3). rewrite E2 in E3. by eexists _, _; split_and!; eauto.
  - eexists _, _. split; [done|]. split; [|done]. apply clean_closed; [done|].
    eapply (accounts_emit t [MakeDir d'; RemoveDir d']); [exact H|done| |by destruct H|].
    + intros x. cbn. destruct (decide _); lia.
    + cbn. by rewrite E3, E2, H1, <- app_assoc.
Qed.

Lemma save_file_part_ok t held s : clean t held -> temp_file_ t = true ->
  exists t' r, save_file_part e t s = Some (t', r) /\ clean t' held /\ temp_file_ t' = is_ok r.
Proof using Type.
  intros H Ho. unfold save_file_part. set (t1 := set_file_size_ t _). cbn zeta.
  assert (H1 : clean t1 held) by exact H. assert (Ho1 : temp_file_ t1 = true) by exact Ho. case_bool.
  { destruct (clean_temporary_file_ok t1 held H1 Ho1) as (t' & -> & H' & Hc). by eexists _, _. }
  assert (H2 : clean (ask t1) held) by exact H. case_bool.
  - eexists _, _. split; [done|]. split; [|done]. unfold clean in *. rewrite open_names_open in H2 |- * by done.
    eapply (accounts_emit (ask t1) [WriteFile _ _]); [exact H2|done|done|by destruct H2|done].
  - destruct (clean_temporary_file_ok (ask t1) held H2 Ho1) as (t' & -> & H' & Hc). by eexists _, _.
Qed.
End Temp.

(** ** Bodies *)

(** [max_output_size_] bounds the output of a gzip flow. *)
Class gzip_laws (Gz : Type) {ops : gzip_ops Gz} := {
  gzip_left : Gz -> nat;
  gzip_wakeup_left : forall g x closed, let '(g', o, _) := gzip_wakeup g x closed in (length o + gzip_left g' <= gzip_left g)%nat;
  gzip_options_left : forall g low high, gzip_left (gzip_set_options g low high) = gzip_left g;
}.

Section Bodies.
Context {Gz : Type} {ops : gzip_ops Gz} {laws : gzip_laws Gz}.
#[local] Notation body := (HttpReader.body (Gz := Gz)).

Definition stage_ok (s : stage) : Prop := match s with Length n => 0 <= n | Chunked c => chunked_inv c end.
Definition flow_ok (f : flow) : Prop := is_input_active_ (fl_common f) = true /\ 0 <= need_size_ (fl_common f) /\ stage_ok (fl_stage f).

Lemma flow_wakeup_ok f input : flow_ok f -> exists f' input' o st, flow_wakeup f input = Some (f', input', o, st)
  /\ flow_ok f' /\ (length o + length input' <= length input)%nat
  /\ (stop_flag_ (fl_common f') = true <-> stop_flag_ (fl_common f) = true \/ is_Some st).
Proof using Type.
  intros (Ha & Hn & Hs). unfold flow_wakeup. destruct (fl_stage f) as [n|c].
  - destruct (wakeup_total length_loop (Z.le 0) length_loop_inv (fl_common f) n input) as (b & n' & i' & o & st & -> & H1 & H2 & H3 & H4 & H5); try done.
    eexists _, _, _, _. split; [done|]. split; [split_and!; [apply H3|apply H3|done]|done].
  - destruct (wakeup_total chunked_loop chunked_inv chunked_loop_inv (fl_common f) c input) as (b & n' & i' & o & st & -> & H1 & H2 & H3 & H4 & H5); try done.
    eexists _, _, _, _. split; [done|]. split; [split_and!; [apply H3|apply H3|done]|done].
Qed.

(** The flow before the sink has stopped exactly when the sink is closed. *)
Definition closed_by (b : body) (stopped : bool) : Prop :=
  (match gzip_flow_ b with Some (_, gzip_stopped) => gzip_stopped | None => stopped end) = is_ready b.
Definition left_ (b : body) : nat := match gzip_flow_ b with Some (g, _) => gzip_left g | None => O end.
Definition flow_stopped (b : body) : bool := match flow_ b with Some f => stop_flag_ (fl_common f) | None => false end.
Definition body_ok (b : body) : Prop := (exists f, flow_ b = Some f /\ flow_ok f) /\ closed_by b (flow_stopped b).

Lemma feed_sink_ok (b : body) o st : is_ready b = false -> exists b', feed_sink b o st = Some b' /\ flow_ b' = flow_ b
  /\ gzip_flow_ b' = gzip_flow_ b /\ content_ b' = content_ b ++ o /\ is_ready b' = bool_decide (is_Some st) /\ flow_sink_ b' = st.
Proof using Type.
  unfold is_ready. intros H%bool_decide_eq_false. unfold feed_sink, close_sink. destruct (flow_sink_ b) eqn:E; [by destruct H; eauto|].
  destruct st as [st|]; cbn; rewrite ?E; eexists; (split; [done|]); cbn; by rewrite ?E.
Qed.

Lemma wake_gzip_ok (b : body) x closed : closed_by b (flow_stopped b) -> exists b', wake_gzip b x closed = Some b' /\ flow_ b' = flow_ b
  /\ (forall stopped, gzip_flow_ b <> None -> closed_by b' stopped) /\ (gzip_flow_ b = None -> b' = b) /\ (gzip_flow_ b <> None -> gzip_flow_ b' <> None)
  /\ (length (content_ b') + left_ b' <= length (content_ b) + left_ b)%nat.
Proof using Type.
  unfold closed_by, wake_gzip, left_. destruct (gzip_flow_ b) as [[g []]|] eqn:E; intros H.
  - exists b. rewrite E. by split_and!.
  - pose proof (gzip_wakeup_left g x closed) as L. destruct (gzip_wakeup g x closed) as [[g' o] st].
    destruct (feed_sink_ok (set_gzip_flow_ b (Some (g', bool_decide (is_Some st)))) o st) as (b' & -> & E1 & E2 & E3 & E4 & _); [by symmetry|].
    exists b'. rewrite E1, E2, E3, E4, length_app. cbn. split_and!; try done. lia.
  - exists b. rewrite E. by split_and!.
Qed.

Lemma feed_parent_ok (b : body) o st was : closed_by b was -> (gzip_flow_ b = None -> was = false) -> exists b', feed_parent b o st = Some b' /\ flow_ b' = flow_ b
  /\ closed_by b' (bool_decide (is_Some st)) /\ (length (content_ b') + left_ b' <= length (content_ b) + left_ b + length o)%nat.
Proof using Type.
  intros H Hw. unfold feed_parent. destruct (gzip_flow_ b) as [[g stopped]|] eqn:E.
  - assert (Hg : exists b', wake_gzip b o (bool_decide (is_Some st)) = Some b' /\ flow_ b' = flow_ b /\ closed_by b' (bool_decide (is_Some st))
      /\ (length (content_ b') + left_ b' <= length (content_ b) + left_ b + length o)%nat).
    { destruct (wake_gzip_ok b o (bool_decide (is_Some st))) as (b' & -> & H1 & H2 & _ & _ & H3); [unfold closed_by in *; by rewrite E in *|].
      exists b'. split_and!; [done|done|by apply H2; rewrite E|lia]. }
    destruct st as [[err|]|]; [|exact Hg|exact Hg]. unfold closed_by in H. rewrite E in H.
    destruct stopped; [exists b; split_and!; [done|done|unfold closed_by; by rewrite E|lia]|].
    unfold close_sink. destruct b as [fl gz sink c]. cbn in *. destruct sink; [done|]. eexists. split_and!; [done..|].
    unfold left_. cbn. rewrite E. lia.
  - unfold closed_by in H. rewrite E, Hw in H by done. destruct (feed_sink_ok b o st) as (b' & -> & H1 & H2 & H3 & H4 & _); [done|].
    exists b'. unfold closed_by, left_. rewrite H2, H3, H4, E, length_app. split_and!; try done. lia.
Qed.

Lemma wake_flows_ok (b : body) input : body_ok b -> exists b' input', wake_flows b input = Some (b', input') /\ body_ok b'
  /\ (length (content_ b') + left_ b' + length input' <= length (content_ b) + left_ b + length input)%nat.
Proof using Type.
  intros [(f & Hf & Hfo) Hc]. unfold wake_flows. destruct (wake_gzip_ok b [] false Hc) as (b1 & -> & F1 & C1 & N1 & G1 & W1). cbn. rewrite F1, Hf.
  assert (Hc1 : closed_by b1 (stop_flag_ (fl_common f))).
  { destruct (gzip_flow_ b) eqn:E; [by apply C1|]. rewrite N1 by done. unfold flow_stopped in Hc. by rewrite Hf in Hc. }
  destruct (stop_flag_ (fl_common f)) eqn:Es.
  { exists b1, input. split; [done|]. split; [|lia]. split; [exists f; by rewrite F1|]. unfold flow_stopped. by rewrite F1, Hf, Es. }
  destruct (flow_wakeup_ok f input Hfo) as (f' & i' & o & st & -> & Ho & Hl & Hs). cbn.
  destruct (feed_parent_ok (set_flow_ b1 (Some f')) o st false) as (b2 & -> & F2 & C2 & W2); [exact Hc1|done|]. cbn.
  exists b2, i'. split; [done|]. split; [|cbn in W2; change (left_ (set_flow_ b1 (Some f'))) with (left_ b1) in W2; lia].
  split; [exists f'; by rewrite F2|]. unfold flow_stopped. rewrite F2. cbn.
  assert (stop_flag_ (fl_common f') = bool_decide (is_Some st)) as ->; [|done].
  apply eq_true_iff_eq. rewrite Hs, bool_decide_eq_true, Es. split; [by intros [|]|by right].
Qed.

End Bodies.

(** ** Forms *)

Definition held (past : list bytes) (q : http_query) : list bytes := past ++ (temp_file_name <$> hq_files q).

Lemma find_boundary_ok s b n : b <> [] -> (length b <= 74)%nat ->
  exists ok m, find_boundary s b n = Some (ok, m) /\ (n <= m)%nat
  /\ (if ok : bool then (m + length b <= length s)%nat else (length s < m + length b)%nat).
Proof.
  intros Hb Hl. unfold find_boundary. rewrite (proj2 (Nat.leb_le _ _)) by done.
  destruct (find_loop (drop n s) b n) as [ok m] eqn:E. eexists _, _. split; [done|].
  apply find_loop_spec in E as (H1 & _ & H3); [|done]. split; [lia|]. destruct ok.
  - apply occurs_length in H3; [|done]. assert (length b <> 0%nat) by by destruct b. rewrite length_drop in *. lia.
  - rewrite length_drop in *. lia.
Qed.

(** Case analysis on the first boolean of the goal. *)
Ltac case_bool_in_goal := match goal with |- context [if ?b then _ else _] => destruct b eqn:? end.

Section Forms.
Context (e : env) (He : env_ok e) (max_files : Z) (ready can_be_slow : bool) (past : list bytes).

Definition boundary_ok (f : form) : Prop := (5 <= length (boundary_ f) <= 74)%nat.
Definition m_clean (m : multipart) : Prop := clean (m_temp m) (held past (the_query (m_parsed m))).
Record m_ok (m : multipart) : Prop := {
  m_boundary : boundary_ok (m_form m);
  m_bound : parameters_bound (m_parsed m);
  m_open : temp_file_ (m_temp m) = true -> form_data_parse_state_ (m_form m) = ReadFile;
  m_files : m_clean m;
}.
Definition m_measure (m : multipart) : nat :=
  2 * length (m_content m) + match form_data_parse_state_ (m_form m) with CheckForLastBoundary => 1 | _ => 0 end.

Definition turn_ok (m : multipart) (r : option (multipart * turn)) : Prop :=
  exists m' t, r = Some (m', t) /\ (length (m_content m') <= length (m_content m))%nat /\
  match t with
  | Continue => m_ok m' /\ (m_measure m' < m_measure m)%nat
  | Return finished => m_ok m' /\ (finished = true -> form_data_parse_state_ (m_form m') = SkipEpilogue)
  | Error _ => m_clean m'
  end.

Lemma boundary_not_nil f : boundary_ok f -> boundary_ f <> [] /\ drop 2 (boundary_ f) <> [].
Proof using Type.
  unfold boundary_ok. intros H. split; [intros E; rewrite E in H; change (@length ascii []) with 0%nat in H; lia|]. intros E. assert (length (drop 2 (boundary_ f)) = 0%nat) as E' by by rewrite E. rewrite length_drop in E'. lia.
Qed.

Lemma skip_prologue_ok m : m_ok m -> form_data_parse_state_ (m_form m) = SkipPrologue -> turn_ok m (skip_prologue m).
Proof using Type.
  intros [H1 H2 H3 H4] Hst. unfold skip_prologue. cbn zeta. destruct (boundary_not_nil _ H1) as [_ Hb]. unfold boundary_ok in H1.
  assert (Hc : temp_file_ (m_temp m) = false) by (destruct (temp_file_ (m_temp m)); [rewrite H3 in Hst|]; done).
  destruct (find_boundary_ok (m_content m) (drop 2 (boundary_ (m_form m))) (form_data_read_length_ (m_form m)) Hb) as (ok & n & -> & Hn & Hl);
    [rewrite length_drop; lia|]. rewrite length_drop in Hl. cbn. destruct ok; eexists _, _; (split; [done|]); cbn; rewrite length_drop; split; try lia.
  - split; [split; cbn; try done; by rewrite Hc|]. unfold m_measure. cbn -[Nat.mul]. rewrite Hst, !length_drop. lia.
  - split; [split; cbn; try done; by rewrite Hc|done].
Qed.

Lemma check_for_last_boundary_ok m : m_ok m -> form_data_parse_state_ (m_form m) = CheckForLastBoundary -> turn_ok m (check_for_last_boundary m).
Proof using Type.
  intros [H1 H2 H3 H4] Hst. unfold check_for_last_boundary. cbn zeta.
  assert (Hc : temp_file_ (m_temp m) = false) by (destruct (temp_file_ (m_temp m)); [rewrite H3 in Hst|]; done).
  destruct (m_content m) as [|x [|y s]] eqn:Es; [eexists _, _; (split; [done|]); rewrite Es; by split..|]. case_bool; eexists _, _; (split; [done|]); rewrite ?Es; cbn; split; try lia.
  - split; [split; cbn; try done; by rewrite Hc|]. unfold m_measure. cbn -[Nat.mul]. rewrite Hst, Es. cbn -[Nat.mul]. lia.
  - split; [split; cbn; try done; by rewrite Hc|]. unfold m_measure. cbn -[Nat.mul]. rewrite Hst, Es. cbn -[Nat.mul]. lia.
Qed.

Lemma skip_epilogue_ok m : m_ok m -> form_data_parse_state_ (m_form m) = SkipEpilogue -> turn_ok m (Some (skip_epilogue ready m)).
Proof using Type.
  intros [H1 H2 H3 H4] Hst. eexists _, _. split; [done|]. cbn. split; [lia|]. split; [|done]. by split.
Qed.

Lemma read_part_value_ok m : m_ok m -> form_data_parse_state_ (m_form m) = ReadPartValue -> turn_ok m (read_part_value m).
Proof using Type.
  intros [H1 H2 H3 H4] Hst. unfold read_part_value. cbn zeta. destruct (boundary_not_nil _ H1) as [Hb _].
  assert (Hc : temp_file_ (m_temp m) = false) by (destruct (temp_file_ (m_temp m)); [rewrite H3 in Hst|]; done). unfold boundary_ok in H1.
  destruct (find_boundary_ok (m_content m) (boundary_ (m_form m)) (form_data_read_length_ (m_form m)) Hb) as (ok & n & -> & Hn & Hl); [lia|].
  cbn -[length Nat.ltb]. destruct ok.
  - case_bool_in_goal; [eexists _, _; split; [done|by split]|]. case_bool_in_goal.
    + match goal with |- context [parse_parameters ?p ?s] => pose proof (parse_parameters_total p s) as (p' & r & -> & E1 & E2 & E3 & E4) end.
      cbn in E2, E3. assert (Hf : clean (m_temp m) (held past (the_query p'))) by (unfold held; rewrite E2; apply H4).
      destruct r as [[]|]; eexists _, _; (split; [done|]); cbn; rewrite length_drop; split; try lia; [|exact Hf].
      specialize (E4 eq_refl). destruct H2 as [H2 _]. split; [split; cbn; try done; [|by rewrite Hc]|].
      { split; [|done]. rewrite E3. pose proof (len_nonneg (take n (m_content m))). lia. }
      unfold m_measure. cbn -[Nat.mul]. rewrite Hst, ?length_drop. lia.
    + eexists _, _. split; [done|]. cbn. rewrite length_drop. split; [lia|]. split; [split; cbn; try done; [|by rewrite Hc]|].
      { unfold parameters_bound. cbn. by rewrite Z.add_0_r. }
      unfold m_measure. cbn -[Nat.mul]. rewrite Hst, ?length_drop. lia.
  - rewrite (proj2 (Nat.ltb_lt _ _)) by lia. eexists _, _. split; [done|]. cbn. split; [done|]. case_bool; [exact H4|]. split; [by split|done].
Qed.

Lemma read_part_headers_ok m : m_ok m -> form_data_parse_state_ (m_form m) = ReadPartHeaders -> turn_ok m (read_part_headers max_files m).
Proof using Type.
  intros [H1 H2 H3 H4] Hst. unfold read_part_headers. cbn zeta.
  assert (Hc : temp_file_ (m_temp m) = false) by (destruct (temp_file_ (m_temp m)); [rewrite H3 in Hst|]; done).
  destruct (find_boundary_ok (m_content m) (crlf ++ crlf) (form_data_read_length_ (m_form m))) as (ok & n & -> & Hn & Hl); [done|cbn; lia|].
  cbn -[length part_headers]. destruct ok.
  - case_bool_in_goal; [eexists _, _; split; [done|by split]|]. case_bool_in_goal; [eexists _, _; split; [done|by split]|].
    rewrite Hc. destruct (part_headers_total (S (length (take n (drop 2 (m_content m))))) new_part (init (take n (drop 2 (m_content m))))) as (r & ->); [cbn; lia|].
    assert (Hf : forall q, hq_files q = hq_files (the_query (m_parsed m)) -> clean (set_temp_file_name_ (m_temp m) []) (held past q)).
    { intros q E. unfold held. rewrite E. unfold m_clean, clean, held, open_names in *. cbn. by rewrite Hc in *. }
    cbn [length app crlf] in Hl. cbn -[length]. destruct r as [p|]; [case_bool_in_goal; [case_bool_in_goal|]|]; eexists _, _; (split; [done|]); cbn; rewrite length_drop; split; try lia; try by apply Hf.
    + split; [split; cbn; first [done|by rewrite Hc|by apply Hf]|]. unfold m_measure. cbn -[Nat.mul]. rewrite Hst, ?length_drop. lia.
    + split; [split; cbn; first [done|by rewrite Hc|by apply Hf]|]. unfold m_measure. cbn -[Nat.mul]. rewrite Hst, ?length_drop. lia.
  - case_bool; eexists _, _; (split; [done|]); cbn; (split; [done|]); [exact H4|]. split; [split; cbn; try done; by rewrite Hc|done].
Qed.

Lemma read_open_file_ok m : m_ok m -> form_data_parse_state_ (m_form m) = ReadFile -> temp_file_ (m_temp m) = true -> turn_ok m (read_open_file e m).
Proof using Type.
  intros [H1 H2 H3 H4] Hst Ho. unfold read_open_file. cbn zeta. destruct (boundary_not_nil _ H1) as [Hb _]. unfold boundary_ok in H1.
  destruct (find_boundary_ok (m_content m) (boundary_ (m_form m)) (form_data_read_length_ (m_form m)) Hb) as (ok & n & -> & Hn & Hl); [lia|].
  destruct (save_file_part_ok e (m_temp m) _ (take n (m_content m)) H4 Ho) as (t & r & Es & Ht & Hr). cbn -[length Nat.ltb]. destruct ok.
  - rewrite Es. cbn -[length]. destruct r as [[]|]; [|eexists _, _; split; [done|]; cbn; rewrite length_drop; split; [lia|done]].
    destruct (close_temp_file_ok t _ Ht Hr) as (t' & -> & Ht' & Hc). cbn -[length]. eexists _, _. split; [done|]. cbn. rewrite length_drop. split; [lia|].
    split; [split; cbn; try done; [by rewrite Hc|]|].
    { unfold m_clean, held. cbn. rewrite fmap_app, app_assoc. exact Ht'. }
    unfold m_measure. cbn -[Nat.mul]. rewrite Hst, ?length_drop. lia.
  - rewrite (proj2 (Nat.ltb_lt _ _)) by (rewrite length_drop; lia). rewrite Es. cbn -[length]. eexists _, _. split; [done|]. cbn. rewrite length_drop. split; [lia|].
    destruct r; [|exact Ht]. split; [|done]. by split.
Qed.

Lemma read_file_ok m : m_ok m -> form_data_parse_state_ (m_form m) = ReadFile -> turn_ok m (read_file e can_be_slow m).
Proof using He.
  intros H Hst. pose proof H as [H1 H2 H3 H4]. unfold read_file. case_bool_in_goal; [eexists _, _; split; [done|by split]|].
  destruct (temp_file_ (m_temp m)) eqn:Ho; [by apply read_open_file_ok|].
  destruct (open_temp_file_ok e He (m_temp m) _ (file_name_ (the_part (m_form m))) H4 Ho) as (t & r & -> & Ht & Hr). cbn -[read_open_file].
  destruct r as [[]|]; [|eexists _, _; split; [done|by split]].
  destruct (read_open_file_ok (mk_multipart (m_content m) (m_form m) (m_parsed m) t (m_headers_length m))) as (m' & t' & -> & Hl & Ht'); [by split|done..|].
  by exists m', t'.
Qed.

Lemma multipart_turn_ok m : m_ok m -> turn_ok m (multipart_turn e max_files ready can_be_slow m).
Proof using He.
  intros H. unfold multipart_turn. destruct (form_data_parse_state_ (m_form m)) eqn:E.
  - by apply skip_prologue_ok.
  - by apply read_part_headers_ok.
  - by apply read_part_value_ok.
  - by apply read_file_ok.
  - by apply check_for_last_boundary_ok.
  - by apply skip_epilogue_ok.
Qed.

(** The loop ends; with an error, the files are still accounted for. *)
Lemma parse_multipart_ok fuel : forall m, m_ok m -> (m_measure m < fuel)%nat ->
  exists m' r, parse_multipart_form_data e max_files ready can_be_slow fuel m = Some (m', r)
  /\ (length (m_content m') <= length (m_content m))%nat
  /\ match r with Ok finished => m_ok m' /\ (finished = true -> form_data_parse_state_ (m_form m') = SkipEpilogue) | Err _ => m_clean m' end.
Proof using He.
  induction fuel as [|fuel IH]; intros m H Hf; [lia|]. cbn [parse_multipart_form_data].
  destruct (multipart_turn_ok m H) as (m1 & t & -> & Hl & Ht). cbn [mbind option_bind]. destruct t as [|b|err].
  - destruct Ht as [H1 Hm]. destruct (IH m1 H1) as (m' & r & -> & Hl' & Hr); [lia|]. exists m', r. split_and!; [done|lia|done].
  - by eexists _, _.
  - by eexists _, _.
Qed.

End Forms.

(** ** The reader *)

Section Reader.
Context {Gz : Type} {ops : gzip_ops Gz} {laws : gzip_laws Gz} (e : env) (He : env_ok e).
#[local] Notation reader := (HttpReader.reader (Gz := Gz)).

(** The files of the query under construction; once it is complete, its files are
    among those of the past. *)
Definition holds (past : list bytes) (r : reader) : list bytes :=
  match query_ r with Some _ => held past (the_query (the_parsed r)) | None => past end.

Record consistent (past : list bytes) (r : reader) : Prop := {
  c_bound : parameters_bound (the_parsed r);
  c_query : state_ r <> ReadHeaders -> is_Some (query_ r);
  c_fresh : state_ r = ReadHeaders -> is_Some (query_ r) -> hq_files (the_query (the_parsed r)) = [];
  c_container : state_ r = ReadContent -> len (hq_container (the_query (the_parsed r))) = 1;
  c_body : state_ r <> ReadHeaders -> body_ok (the_body r);
  c_temp : temp_file_ (the_temp r) = true ->
    state_ r = ReadContentToFile \/ state_ r = ReadMultipartFormData /\ form_data_parse_state_ (the_form r) = ReadFile;
  c_form : state_ r = ReadMultipartFormData -> boundary_ok (the_form r);
  c_files : clean (the_temp r) (holds past r);
}.

Definition weight (r : reader) : nat :=
  length (content_ (the_body r)) + left_ (the_body r) + length (input_ r)
  + match state_ r with ReadContent => 1 | _ => 0 end.

(** What a turn of [do_read_next] leaves. *)
Definition finished (past : list bytes) (r : reader) : Prop :=
  temp_file_ (the_temp r) = false /\ clean (the_temp r) (holds past r).
Definition turn_result (past : list bytes) (r : reader) (x : option (reader * progress)) : Prop :=
  exists r' p, x = Some (r', p) /\ query_ r' = query_ r /\
  match p with
  | Again => consistent past r' /\ state_ r' <> ReadHeaders /\ (state_ r <> ReadHeaders -> (weight r' < weight r)%nat)
  | Done => finished past r'
  | Stop (Ok n) => consistent past r' /\ 0 < n
  | Stop (Err _) => clean (the_temp r') (holds past r')
  end.

Lemma holds_files past (r r' : reader) : query_ r' = query_ r -> hq_files (the_query (the_parsed r')) = hq_files (the_query (the_parsed r)) ->
  holds past r' = holds past r.
Proof using Type. intros E1 E2. unfold holds, held. rewrite E1. by destruct (query_ r); rewrite ?E2. Qed.

Lemma split_header_ok past (r : reader) : consistent past r -> state_ r = ReadHeaders -> is_Some (query_ r) ->
  exists r' res, split_header r = Some (r', res) /\ query_ r' = query_ r /\ state_ r' = ReadHeaders /\ the_temp r' = the_temp r
  /\ hq_files (the_query (the_parsed r')) = [] /\ max_post_size_ r' = max_post_size_ r /\
  match res with
  | Ok 0 => len (hq_container (the_query (the_parsed r'))) = 1 /\ parameters_bound (the_parsed r')
  | Ok n => 0 < n /\ parameters_bound (the_parsed r')
  | Err _ => True
  end.
Proof using Type.
  intros [H1 H2 H3 H4 H5 H6 H7 H8] Hst Hq. specialize (H3 Hst Hq). unfold split_header.
  destruct (find_boundary_ok (input_ r) (crlf ++ crlf) (headers_read_length_ r)) as (ok & n & -> & Hn & Hl); [done|cbn; lia|].
  cbn -[parse_head Z.add len]. destruct ok.
  - match goal with |- context [parse_head ?p ?s] => destruct (parse_head_total p s) as (p' & res & -> & E1 & E2 & E3); [exact H1|] end.
    cbn -[Z.add len] in *. eexists _, _. split; [done|]. cbn -[Z.add len]. split_and!; try done; [by apply E2|].
    destruct res as [[]|]; [|done]. cbn -[len]. rewrite E1. split; [done|by apply E3].
  - case_bool_in_goal; eexists _, _; (split; [done|]); cbn -[Z.add len]; split_and!; try done.
    pose proof (len_nonneg (input_ r)). destruct (len (input_ r) + 1) eqn:E; [lia|split; [lia|done]|lia].
Qed.

Lemma find_boundary_value_ok c l b : find_boundary_value c l = Ok b -> boundary_ok (mk_form (crlf ++ lit "--" ++ b) O 0 SkipPrologue new_part []).
Proof using Type.
  unfold find_boundary_value. destruct (search _ _); [|done]. destruct (Prelude.find _ _); [|done]. cbn zeta. match goal with |- context [bool_decide (?x = []) || _] => generalize x; intros v end.
  case_bool_in_goal; [done|]. intros [= <-]. apply orb_false_iff in Heqb0 as [E1 E2]. apply bool_decide_eq_false in E1. apply Z.ltb_ge in E2.
  unfold boundary_ok. cbn -[Nat.le]. unfold len, MAX_BOUNDARY_LENGTH in E2. assert (length v <> 0%nat) by by destruct v. lia.
Qed.

Lemma make_stage_ok p s : bool_decide (transfer_encoding_ p = []) && (content_length_ p <=? 0) = false -> make_stage p = Ok s -> stage_ok s.
Proof using Type.
  unfold make_stage. intros H. case_bool_in_goal; [|case_bool_in_goal; [|done]]; intros [= <-]; [|done]. cbn in *. lia.
Qed.

Lemma read_headers_ok past (r : reader) : consistent past r -> state_ r = ReadHeaders -> is_Some (query_ r) -> turn_result past r (read_headers r).
Proof using Type.
  intros H Hst Hq. pose proof H as [H1 H2 H3 H4 H5 H6 H7 H8]. specialize (H3 Hst Hq). unfold read_headers.
  destruct (split_header_ok past r H Hst Hq) as (r1 & res & -> & Q1 & S1 & T1 & F1 & _ & R1). cbn [mbind option_bind].
  assert (Hc : temp_file_ (the_temp r) = false) by (destruct (temp_file_ (the_temp r)); [destruct H6 as [E|[E _]]; [done|..]; by rewrite Hst in E|done]).
  assert (Hf : holds past r1 = holds past r) by (apply holds_files; [done|by rewrite F1, H3]).
  assert (Hcl : clean (the_temp r1) (holds past r1)) by by rewrite T1, Hf.
  assert (Hstop : forall r2 err, query_ r2 = query_ r1 -> the_temp r2 = the_temp r1 -> the_query (the_parsed r2) = the_query (the_parsed r1) ->
    turn_result past r (Some (r2, Stop (Err err)))).
  { intros r2 err E1 E2 E3. eexists _, _. split; [done|]. rewrite E1. split; [done|]. rewrite E2, (holds_files _ r1 r2); [done|done|by rewrite E3]. }
  destruct res as [n|err]; [|by apply Hstop]. destruct (Z.eqb_spec n 0) as [->|Hn]; cbn [negb].
  2:{ eexists _, _. split; [done|]. split; [done|]. destruct n; [done| |]; destruct R1 as [R0 R1]; (split; [|done]); split; try done; rewrite ?S1; try done; by rewrite T1, Hc. }
  destruct R1 as [R1 R2]. case_bool_in_goal.
  { eexists _, _. split; [done|]. split; [done|]. by split; [rewrite T1|]. }
  destruct (make_stage (the_parsed r1)) as [s|] eqn:Es; [|by apply Hstop]. destruct (make_gzip r1) as [g|] eqn:Eg; [|by apply Hstop].
  set (r2 := set_the_body r1 _).
  assert (Hb : body_ok (the_body r2)).
  { split; [eexists; split; [done|]; split_and!; [done..|by eapply make_stage_ok]|]. unfold closed_by. cbn.
    revert Eg. unfold make_gzip. cbn zeta. repeat case_bool_in_goal; by intros [= <-]. }
  assert (Hq1 : is_Some (query_ r1)) by by rewrite Q1.
  unfold choose_state. cbn zeta. case_bool_in_goal; [by apply Hstop|]. case_bool_in_goal.
  { destruct (find_boundary_value _ _) as [b|] eqn:Eb; [|by apply Hstop]. apply find_boundary_value_ok in Eb. eexists _, _. split; [done|].
    split; [done|]. split; [|split; [done|by rewrite Hst]]. split; try done. intros Hx. change (temp_file_ (the_temp r1) = true) in Hx. by rewrite T1, Hc in Hx. }
  case_bool_in_goal; (eexists _, _; split; [done|]; split; [done|]; split; [|split; [done|by rewrite Hst]]; split; try done; intros Hx; change (temp_file_ (the_temp r1) = true) in Hx; by rewrite T1, Hc in Hx).
Qed.

Lemma read_content_ok past (r : reader) n : consistent past r -> state_ r = ReadContent -> 0 < n -> turn_result past r (read_content r n).
Proof using Type.
  intros [H1 H2 H3 H4 H5 H6 H7 H8] Hst Hn. unfold read_content. cbn zeta. specialize (H4 Hst). assert (Hr : state_ r <> ReadHeaders) by by rewrite Hst. pose proof (H2 Hr) as Hq.
  specialize (H5 Hr). clear H2. assert (Hc : temp_file_ (the_temp r) = false) by (destruct (temp_file_ (the_temp r)); [destruct H6 as [E|[E _]]; [done|..]; by rewrite Hst in E|done]).
  case_bool_in_goal.
  - assert (Hg : body_ok (set_gzip_options (the_body r) 4194304 8388608) /\ left_ (set_gzip_options (the_body r) 4194304 8388608) = left_ (the_body r)
        /\ content_ (set_gzip_options (the_body r) 4194304 8388608) = content_ (the_body r)).
    { unfold set_gzip_options, left_. destruct H5 as [Hf Hcl]. unfold closed_by in Hcl. destruct (gzip_flow_ (the_body r)) as [[g st]|] eqn:E.
      - split; [split; [done|]; unfold closed_by; cbn; exact Hcl|]. cbn. by rewrite gzip_options_left.
      - rewrite E. split; [split; [done|unfold closed_by; by rewrite E]|done]. }
    destruct Hg as (G1 & G2 & G3). eexists _, _. split; [done|]. split; [done|]. split; [split; try done; intros; first [done|by left]|]. split; [done|].
    intros _. unfold weight. cbn -[Nat.add]. rewrite Hst, G2, G3. lia.
  - case_bool_in_goal.
    + rewrite (proj2 (Z.eqb_eq _ _) H4). eexists _, _. split; [done|]. split; [done|]. split; [exact Hc|]. by rewrite (holds_files past r).
    + eexists _, _. split; [done|]. split; [done|]. by split.
Qed.

Lemma read_args_ok past (r : reader) n : consistent past r -> state_ r = ReadArgs -> 0 < n -> turn_result past r (read_args r n).
Proof using Type.
  intros [H1 H2 H3 H4 H5 H6 H7 H8] Hst Hn. unfold read_args. cbn zeta.
  assert (Hc : temp_file_ (the_temp r) = false) by (destruct (temp_file_ (the_temp r)); [destruct H6 as [E|[E _]]; [done|..]; by rewrite Hst in E|done]).
  case_bool_in_goal; [by eexists _, _|]. case_bool_in_goal; [|by eexists _, _].
  set (p := update_query _ _). set (s := content_ (the_body r)).
  assert (exists p' res, (if has_substring (content_type_lowercased_ p) (lit "application/x-www-form-urlencoded")
    then parse_parameters p s else parse_json_parameters p s) = Some (p', res) /\ hq_files (the_query p') = hq_files (the_query (the_parsed r)))
    as (p' & res & -> & Hf) by (case_bool_in_goal;
      [destruct (parse_parameters_total p s) as (p' & res & E & _ & Hf & _)|destruct (parse_json_parameters_total p s) as (p' & res & E & Hf)]; by exists p', res).
  cbn [mbind option_bind].
  assert (Hcl : forall r2 : reader, query_ r2 = query_ r -> the_temp r2 = the_temp r -> hq_files (the_query (the_parsed r2)) = hq_files (the_query p') -> finished past r2).
  { intros r2 E1 E2 E3. split; [by rewrite E2|]. rewrite E2, (holds_files past r r2); [done|done|by rewrite E3]. }
  destruct res as [[]|err]; [|case_bool_in_goal]; eexists _, _; (split; [done|]); (split; [done|]); by apply Hcl.
Qed.

Lemma read_content_to_file_ok past (r : reader) slow n : consistent past r -> state_ r = ReadContentToFile -> 0 < n ->
  turn_result past r (read_content_to_file e slow r n).
Proof using He.
  intros H Hst Hn. pose proof H as [H1 H2 H3 H4 H5 H6 H7 H8]. unfold read_content_to_file. cbn zeta.
  case_bool_in_goal; [by eexists _, _|]. assert (Hr : state_ r <> ReadHeaders) by by rewrite Hst. pose proof (H2 Hr) as Hq.
  assert (exists t opened, (if temp_file_ (the_temp r) then Some (the_temp r, Ok tt) else open_temp_file e (the_temp r) (lit "file")) = Some (t, opened)
    /\ clean t (holds past r) /\ temp_file_ t = is_ok opened) as (t & opened & -> & Ht & Ho).
  { destruct (temp_file_ (the_temp r)) eqn:E; [by eexists _, _|]. by apply open_temp_file_ok. }
  cbn [mbind option_bind]. destruct opened as [[]|err]; [|by eexists _, _]. cbn in Ho.
  set (r1 := set_the_temp r t). assert (Hc1 : consistent past r1) by (split; try done; intros; first [done|by left]).
  match goal with |- context [(1048576 <? ?x) || ?y] => set (restart := (1048576 <? x) || y) end. destruct restart eqn:Er.
  - destruct (save_file_part_ok e t _ (content_ (the_body r1)) Ht Ho) as (t2 & saved & Es & Ht2 & Ho2).
    change (the_temp r1) with t. rewrite Es. cbn [mbind option_bind]. destruct saved as [[]|err]; [|by eexists _, _]. cbn in Ho2.
    case_bool_in_goal.
    + destruct (close_temp_file_ok t2 _ Ht2 Ho2) as (t3 & E3 & Ht3 & Hc3). cbn. rewrite E3. eexists _, _. split; [done|]. split; [done|].
      split; [done|]. cbn. destruct (H2 Hr) as [a Ha]. unfold holds in *. cbn. rewrite Ha in *. unfold held in *. cbn. by rewrite fmap_app, app_assoc.
    + eexists _, _. split; [done|]. split; [done|]. split; [split; try done; intros; first [done|by left]|]. split; [done|]. intros _.
      subst restart. rewrite ?Heqb0, orb_false_r in Er. unfold weight. cbn -[Nat.add]. rewrite Hst.
      change (left_ (set_content_ (the_body r) [])) with (left_ (the_body r)). unfold len in Er. change (the_body r1) with (the_body r) in Er. apply Z.ltb_lt in Er. lia.
  - cbn [mbind option_bind]. subst restart. apply orb_false_iff in Er as [_ ->]. by eexists _, _.
Qed.

Lemma read_form_ok past (r : reader) slow n : consistent past r -> state_ r = ReadMultipartFormData -> 0 < n -> turn_result past r (read_form e slow r n).
Proof using He.
  intros H Hst Hn. pose proof H as [H1 H2 H3 H4 H5 H6 H7 H8]. unfold read_form. cbn zeta. assert (Hr : state_ r <> ReadHeaders) by by rewrite Hst. pose proof (H2 Hr) as Hq.
  case_bool_in_goal; [|by eexists _, _]. destruct (H2 Hr) as [a Ha]. unfold holds in H8. rewrite Ha in H8.
  set (m := mk_multipart _ _ _ _ _). assert (Hm : m_ok past m).
  { split; cbn; [by apply H7|done| |done]. intros [E|[_ E]]%H6; [by rewrite Hst in E|done]. }
  destruct (parse_multipart_ok e He (max_files_ r) (is_ready (the_body r)) slow past (2 * length (content_ (the_body r)) + 2) m Hm) as (m' & res & -> & Hl & Hres).
  { unfold m_measure. cbn -[Nat.mul]. case_match; lia. }
  cbn [mbind option_bind]. destruct res as [[]|err].
  - destruct Hres as [[M1 M2 M3 M4] Hf]. eexists _, _. split; [done|]. split; [done|]. split.
    + cbn. destruct (temp_file_ (m_temp m')); [|done]. rewrite M3 in Hf by done. by specialize (Hf eq_refl).
    + cbn. unfold holds. cbn. by rewrite Ha.
  - destruct Hres as [[M1 M2 M3 M4] _]. eexists _, _. split; [done|]. split; [done|]. split; [|done]. specialize (H5 Hr).
    split; cbn; intros; rewrite ?Hst in *; first [done|right; split; [done|by apply M3]|unfold holds; cbn; by rewrite Ha].
  - eexists _, _. split; [done|]. split; [done|]. cbn. unfold holds. cbn. by rewrite Ha.
Qed.

Lemma read_flows_ok past (r : reader) n : consistent past r -> 0 < n ->
  exists r' res, read_flows r n = Some (r', res) /\ query_ r' = query_ r /\
  match res with
  | Ok n' => consistent past r' /\ 0 < n' /\ state_ r' = state_ r /\ (weight r' <= weight r)%nat
  | Err _ => clean (the_temp r') (holds past r')
  end.
Proof using Type.
  intros H Hn. unfold read_flows. case_bool_decide as Hst; [by exists r, (Ok n)|].
  pose proof H as [H1 H2 H3 H4 H5 H6 H7 H8]. specialize (H5 Hst). pose proof (H2 Hst) as Hq.
  destruct (wake_flows_ok (the_body r) (input_ r) H5) as (b & input & -> & Hb & Hw). cbn [mbind option_bind].
  set (r1 := set_input_ (set_the_body r b) input). assert (Hc1 : consistent past r1) by (split; try done; intros; done).
  assert (Hn1 : forall k, 0 <= k -> 0 < (if k =? 0 then len input + 1 else k)).
  { intros k Hk. pose proof (len_nonneg input). destruct (Z.eqb_spec k 0); lia. }
  assert (Hok : exists r' res, Some (r1, Ok (let k := match flow_ b with Some f => need_size_ (fl_common f) | None => 0 end in if k =? 0 then len input + 1 else k))
    = Some (r', res) /\ query_ r' = query_ r /\ match res with
      | Ok n' => consistent past r' /\ 0 < n' /\ state_ r' = state_ r /\ (weight r' <= weight r)%nat | Err _ => clean (the_temp r') (holds past r') end).
  { eexists _, _. split; [done|]. split; [done|]. split; [done|]. split; [|split; [done|unfold weight; cbn -[Nat.add]; lia]].
    apply Hn1. destruct Hb as [(f & -> & _ & Hf & _) _]. done. }
  destruct (flow_sink_ b) as [[err|]|]; [|exact Hok|exact Hok]. change (the_temp r1) with (the_temp r).
  destruct (temp_file_ (the_temp r)) eqn:E; [|by eexists _, _].
  destruct (clean_temporary_file_ok (the_temp r) _ H8 E) as (t & -> & Ht & _). by eexists _, _.
Qed.

Lemma read_turn_ok past (r : reader) slow n : consistent past r -> is_Some (query_ r) -> 0 < n -> turn_result past r (read_turn e slow r n).
Proof using He.
  intros H Hq Hn. unfold read_turn. destruct (state_ r) eqn:E.
  - by apply read_headers_ok.
  - by apply read_content_ok.
  - by apply read_content_to_file_ok.
  - by apply read_args_ok.
  - by apply read_form_ok.
Qed.

(** The files of the query the reader ends with. *)
Definition query_files (r : reader) : list bytes := temp_file_name <$> hq_files (the_query (the_parsed r)).

(** Between two queries. *)
Definition idle (r : reader) : Prop :=
  state_ r = ReadHeaders /\ query_ r = None /\ headers_read_length_ r = O /\ total_parameters_length_ (the_parsed r) = 0.

Definition read_result (past : list bytes) (r r' : reader) (res : result Z) : Prop :=
  match res with
  | Ok 0 => idle r' /\ consistent (past ++ query_files r') r'
  | Ok n => 0 < n /\ query_ r' = query_ r /\ consistent past r'
  | Err _ => clean (the_temp r') (past ++ query_files r')
  end.

Lemma finished_reset past (r : reader) : finished past r -> is_Some (query_ r) ->
  consistent (past ++ query_files r) (reset r (input_ r) (max_post_size_ r) (max_files_ r)).
Proof using Type.
  intros [Hc Hcl] [a Ha]. unfold holds in Hcl. rewrite Ha in Hcl. split; cbn; first [done|by intros _ []|by rewrite Hc|exact Hcl].
Qed.

Lemma do_read_next_ok past slow fuel : forall (r : reader) n, consistent past r -> is_Some (query_ r) -> 0 < n -> state_ r <> ReadHeaders ->
  (weight r < fuel)%nat -> exists r' res, do_read_next e fuel slow r n = Some (r', res) /\ read_result past r r' res.
Proof using He.
  induction fuel as [|fuel IH]; intros r n H Hq Hn Hst Hf; [lia|]. cbn [do_read_next].
  destruct (read_flows_ok past r n H Hn) as (r1 & res & -> & Q1 & H1). cbn [mbind option_bind].
  destruct res as [n1|err]; [|eexists _, _; split; [done|]; destruct Hq as [a Ha]; unfold read_result, holds, held in *; by rewrite Q1, Ha in H1].
  destruct H1 as (C1 & Hn1 & S1 & W1). destruct (read_turn_ok past r1 slow n1 C1) as (r2 & p & -> & Q2 & H2); [by rewrite Q1|done|]. cbn [mbind option_bind].
  rewrite Q1 in Q2. destruct p as [| |[n2|err]].
  - destruct H2 as (C2 & S2 & W2). rewrite S1 in W2. specialize (W2 Hst).
    destruct (IH r2 n1 C2) as (r' & res & -> & HR); [by rewrite Q2|done|done|lia|]. eexists _, _. split; [done|].
    unfold read_result in *. by rewrite Q2 in HR.
  - eexists _, _. split; [done|]. split; [done|]. change (query_files (reset r2 _ _ _)) with (query_files r2). apply finished_reset; [done|by rewrite Q2].
  - eexists _, _. split; [done|]. destruct H2 as [C2 Hn2]. destruct n2; [lia| |lia]. split_and!; [done|by rewrite Q2|done].
  - eexists _, _. split; [done|]. destruct Hq as [a Ha]. unfold read_result, holds, held in *. by rewrite Q2, Ha in H2.
Qed.

Lemma do_read_next_mono slow fuel fuel' : forall (r : reader) n x, do_read_next e fuel slow r n = Some x -> (fuel <= fuel')%nat ->
  do_read_next e fuel' slow r n = Some x.
Proof using Type.
  revert fuel'. induction fuel as [|fuel IH]; intros fuel' r n x; [done|]. destruct fuel' as [|fuel']; [lia|]. cbn [do_read_next].
  destruct (read_flows r n) as [[r1 [n1|err]]|]; cbn; [|done..]. destruct (read_turn e slow r1 n1) as [[r2 []]|]; cbn; [|done..].
  intros H Hf. apply IH; [done|lia].
Qed.

(** Also from the heads: a turn, and then the rest. *)
Lemma do_read_next_total past slow (r : reader) n : consistent past r -> is_Some (query_ r) -> 0 < n ->
  exists fuel r' res, do_read_next e fuel slow r n = Some (r', res) /\ read_result past r r' res.
Proof using He laws.
  intros H Hq Hn. destruct (decide (state_ r = ReadHeaders)) as [Hst|Hst].
  2:{ exists (S (weight r)). by apply do_read_next_ok; try lia. }
  assert (Hflow : read_flows r n = Some (r, Ok n)) by (unfold read_flows; by rewrite bool_decide_true).
  destruct (read_turn_ok past r slow n H Hq Hn) as (r2 & p & E & Q2 & H2). destruct p as [| |[n2|err]].
  - destruct H2 as (C2 & S2 & _). destruct (do_read_next_ok past slow (S (weight r2)) r2 n C2) as (r' & res & E' & HR); [by rewrite Q2|done|done|lia|].
    exists (S (S (weight r2))), r', res. split; [|unfold read_result in *; by rewrite Q2 in HR].
    cbn [do_read_next]. rewrite Hflow. cbn [mbind option_bind]. rewrite E. exact E'.
  - exists 1%nat. eexists _, _. cbn [do_read_next]. rewrite Hflow. cbn [mbind option_bind]. rewrite E. split; [done|]. split; [done|].
    change (query_files (reset r2 _ _ _)) with (query_files r2). apply finished_reset; [done|by rewrite Q2].
  - exists 1%nat. eexists _, _. cbn [do_read_next]. rewrite Hflow. cbn [mbind option_bind]. rewrite E. split; [done|].
    destruct H2 as [C2 Hn2]. destruct n2; [lia| |lia]. by split_and!.
  - exists 1%nat. eexists _, _. cbn [do_read_next]. rewrite Hflow. cbn [mbind option_bind]. rewrite E. split; [done|].
    destruct Hq as [a Ha]. unfold read_result, holds, held in *. by rewrite Q2, Ha in H2.
Qed.

(** [read_next] of some number of turns. *)
Definition reads_next (r : reader) (query : Z) (q : http_query) (slow : bool) (r' : reader) (res : result Z) : Prop :=
  exists fuel, read_next e fuel r query q slow = Some (r', res).

(** The caller passes a new query, or the one that is under construction. *)
Definition proper_query (r : reader) (query : Z) (q : http_query) : Prop :=
  query_ r = Some query \/ query_ r = None /\ hq_files q = [].

Lemma consistent_body past (r : reader) : consistent past r -> query_ r = None -> state_ r = ReadHeaders.
Proof using Type. intros [] E. destruct (decide (state_ r = ReadHeaders)) as [|Hs]; [done|]. destruct (c_query0 Hs) as [a Ha]. congruence. Qed.

Lemma read_flows_sink (r r1 : reader) n n1 : read_flows r n = Some (r1, Ok n1) -> state_ r1 <> ReadHeaders ->
  forall err, flow_sink_ (the_body r1) <> Some (Some err).
Proof using Type.
  unfold read_flows. case_bool_decide as Hs; [by intros [= <- _]|]. destruct (wake_flows _ _) as [[b input]|]; cbn; [|done].
  destruct (flow_sink_ b) as [[err|]|] eqn:E; [case_bool_in_goal; [by destruct (clean_temporary_file _)|done]|..]; intros [= <- _] _ err'; cbn; by rewrite E.
Qed.

Lemma choose_state_stop (r r' : reader) n : choose_state r <> (r', Stop (Ok n)).
Proof using Type. unfold choose_state. cbn zeta. repeat (case_bool_in_goal || case_match); congruence. Qed.

Lemma split_header_state (r r' : reader) res : split_header r = Some (r', res) -> state_ r' = state_ r.
Proof using Type.
  unfold split_header. destruct (find_boundary _ _ _) as [[ok n]|]; [|done]. cbn -[parse_head Z.add]. destruct ok; [|case_bool_in_goal; by intros [= <- _]].
  destruct (parse_head _ _) as [[p x]|]; [|done]. by intros [= <- _].
Qed.

Lemma read_headers_stop (r r' : reader) k : read_headers r = Some (r', Stop (Ok k)) -> state_ r' = state_ r.
Proof using Type.
  unfold read_headers. destruct (split_header r) as [[r1 res]|] eqn:E; [|done]. apply split_header_state in E. cbn [mbind option_bind].
  destruct res as [n|]; [|done]. case_bool_in_goal; [by intros [= <- _]|]. case_bool_in_goal; [done|].
  destruct (make_stage _); [|done]. destruct (make_gzip r1); [|done]. intros [=H]. by apply choose_state_stop in H.
Qed.

Lemma read_turn_sink (r r' : reader) slow n k : read_turn e slow r n = Some (r', Stop (Ok k)) -> state_ r' <> ReadHeaders ->
  state_ r <> ReadHeaders /\ flow_sink_ (the_body r') = flow_sink_ (the_body r).
Proof using Type.
  unfold read_turn. destruct (state_ r) eqn:Es; intros H Hs.
  { apply read_headers_stop in H. by rewrite H, Es in Hs. }
  all: split; [done|]; revert H.
  - unfold read_content. cbn zeta. repeat case_bool_in_goal; try done; by intros [= <-].
  - unfold read_content_to_file. cbn zeta. case_bool_in_goal; [done|]. destruct (if temp_file_ _ then _ else _) as [[t [[]|]]|]; cbn -[orb is_ready]; [|done..].
    destruct (orb _ _).
    + destruct (save_file_part _ _ _) as [[t2 [[]|]]|]; cbn -[is_ready]; [|done..]. destruct (is_ready _); [|done]. by destruct (close_temp_file t2).
    + cbn -[is_ready]. destruct (is_ready _); [by destruct (close_temp_file _)|]. by intros [= <-].
  - unfold read_args. cbn zeta. case_bool_in_goal; [done|]. case_bool_in_goal; [|by intros [= <-]].
    destruct (if has_substring _ _ then _ else _) as [[p [[]|err]]|]; cbn; [done| |done]. by case_bool_in_goal.
  - unfold read_form. cbn zeta. case_bool_in_goal; [|by intros [= <-]].
    destruct (parse_multipart_form_data _ _ _ _ _ _) as [[m [[]|]]|]; cbn; try done. by intros [= <-].
Qed.

Lemma do_read_next_sink slow fuel : forall (r : reader) n r' k, do_read_next e fuel slow r n = Some (r', Ok k) -> state_ r' <> ReadHeaders ->
  forall err, flow_sink_ (the_body r') <> Some (Some err).
Proof using Type.
  induction fuel as [|fuel IH]; intros r n r' k; [done|]. cbn [do_read_next].
  destruct (read_flows r n) as [[r1 [n1|err1]]|] eqn:E1; cbn [mbind option_bind]; [|done..].
  destruct (read_turn e slow r1 n1) as [[r2 p]|] eqn:E2; cbn [mbind option_bind]; [|done]. destruct p as [| |res].
  - apply IH.
  - by intros [= <- _].
  - intros [= <- ->] Hs err. apply read_turn_sink in E2 as [H1 ->]; [|done]. by eapply read_flows_sink.
Qed.

Lemma read_next_total past (r : reader) query q slow : consistent past r -> proper_query r query q ->
  exists r' res, reads_next r query q slow r' res /\
  match res with
  | Ok 0 => idle r' /\ consistent (past ++ query_files r') r'
  | Ok n => 0 < n /\ query_ r' = Some query /\ consistent past r'
  | Err _ => clean (the_temp r') (past ++ query_files r')
  end.
Proof using He laws.
  intros H Hp. set (r0 := match query_ r with Some _ => r | None => set_the_parsed (set_query_ r (Some query)) (set_the_query (the_parsed r) q) end).
  assert (H0 : consistent past r0 /\ query_ r0 = Some query).
  { subst r0. destruct Hp as [E|[E Hq]]; rewrite E; [done|]. split; [|done]. pose proof (consistent_body past r H E) as Hs.
    destruct H as [H1 H2 H3 H4 H5 H6 H7 H8]. split; cbn; rewrite ?Hs in *; try done.
    unfold holds, held in *. rewrite E in H8. cbn. by rewrite Hq, app_nil_r. }
  destruct H0 as [H0 Q0]. destruct (do_read_next_total past slow r0 (len (input_ r) + 1) H0) as (fuel & r' & res & E & HR); [by rewrite Q0|pose proof (len_nonneg (input_ r)); lia|].
  assert (Hr0 : (if bool_decide (query_ r = Some query) then Some r else match query_ r with Some _ => None
      | None => Some (set_the_parsed (set_query_ r (Some query)) (set_the_query (the_parsed r) q)) end) = Some r0).
  { subst r0. destruct Hp as [Eq|[Eq _]]; rewrite Eq; [by rewrite bool_decide_true|by rewrite bool_decide_false]. }
  assert (Hi : len (input_ r0) = len (input_ r)) by (subst r0; by destruct (query_ r)).
  assert (Hx : forall res', match res with
    | Ok n => if negb (bool_decide (state_ r' = ReadHeaders)) && (0 <? n) then
        match flow_sink_ (the_body r') with
        | Some (Some _) => None | Some None => Some (r', error 400 "Bad Request: unexpected end of request content") | None => Some (r', res) end
      else Some (r', res)
    | Err _ => Some (r', res) end = Some (r', res') -> reads_next r query q slow r' res').
  { intros res' Hm. exists fuel. unfold read_next. rewrite Hr0. cbn [mbind option_bind]. rewrite Hi, E. exact Hm. }
  unfold read_result in HR. rewrite Q0 in HR. exists r'. destruct res as [n|err]; [|exists (Err err); split; [by apply Hx|done]].
  destruct (negb (bool_decide (state_ r' = ReadHeaders)) && (0 <? n)) eqn:Heqb; [|exists (Ok n); split; [by apply Hx|done]]. apply andb_true_iff in Heqb as [Hs Hn].
  apply negb_true_iff, bool_decide_eq_false in Hs. destruct (flow_sink_ (the_body r')) as [[err|]|] eqn:Es.
  - by destruct (do_read_next_sink slow fuel r0 _ r' n E Hs err).
  - eexists. split; [by apply Hx|]. destruct n; [done| |done]. destruct HR as (_ & Qr & [H1 H2 H3 H4 H5 H6 H7 H8]). unfold holds in H8. by rewrite Qr in H8.
  - exists (Ok n). split; [by apply Hx|done].
Qed.

End Reader.
