(* ===== verification/HttpReaderMessages.v ===== *)
(** * Reading messages

    What [HttpReader] makes of a well-formed head, and that a message is read in
    the same way however its bytes arrive. *)

From S2P Require Import Prelude TdMisc Utf8 TextParser Json IPAddress HttpUrl ByteFlow Query HttpConnection HttpReader HttpReaderChecks.

Import Chars Strings Integers Coding Parser Reader Boundary Flow HttpReader.

(** ** The end of a head *)

(** The lines of a head, each with its line end. *)
Definition lines_text (lines : list bytes) : bytes := lines ≫= fun l => l ++ crlf.
Definition line_ok (l : bytes) : Prop := l <> [] /\ chr 13 ∉ l.

Lemma occurs_skip b x s i : occurs (x ++ s) b (length x + i) <-> occurs s b i.
Proof. unfold occurs. by rewrite <- drop_drop, drop_app_length. Qed.

Lemma blank_line lines rest : lines <> [] -> Forall line_ok lines ->
  let text := lines_text lines ++ crlf ++ rest in
  occurs text (crlf ++ crlf) (length (lines_text lines) - 2)
  /\ (forall j, (j < length (lines_text lines) - 2)%nat -> ~ occurs text (crlf ++ crlf) j)
  /\ (2 < length (lines_text lines))%nat.
Proof.
  cbn zeta. intros Hne Hl. induction Hl as [|x lines [Hx Hcr] Hl IH]; [done|].
  assert (Hlx : (0 < length x)%nat) by (destruct x; [done|cbn; lia]).
  change (lines_text (x :: lines)) with ((x ++ crlf) ++ lines_text lines). rewrite !length_app, <- !app_assoc. cbn [length crlf].
  assert (Hin : forall s j, (j < length x)%nat -> ~ occurs (x ++ crlf ++ s) (crlf ++ crlf) j).
  { intros s j Hj (c & r & E & [= <-])%occurs_head; [|done]. rewrite drop_app_le in E by lia.
    destruct (drop j x) as [|y d] eqn:Ed; [apply (f_equal length) in Ed; rewrite length_drop in Ed; cbn in Ed; lia|].
    cbn in E. injection E as -> _. apply Hcr. rewrite <- (take_drop j x), Ed. apply elem_of_app. right. apply list_elem_of_here. }
  destruct lines as [|y lines].
  - change (length (lines_text [])) with 0%nat. replace (length x + 2 + 0 - 2)%nat with (length x + 0)%nat by lia. split_and!.
    + by apply occurs_skip.
    + intros j Hj. apply Hin. lia.
    + lia.
  - destruct IH as (H1 & H2 & H3); [done|]. set (T := lines_text (y :: lines)) in *.
    replace (length x + 2 + length T - 2)%nat with (length x + (length crlf + (length T - 2)))%nat by (change (length crlf) with 2%nat; lia). split_and!.
    + by apply occurs_skip, (occurs_skip _ crlf).
    + intros j Hj. destruct (decide (j < length x)%nat) as [?|Hge]; [by apply Hin|]. replace j with (length x + (j - length x))%nat by lia.
      rewrite occurs_skip. destruct (j - length x)%nat as [|[|i]] eqn:Ej.
      * apply Forall_inv in Hl as [Hy Hcy]. subst T. destruct y as [|c y]; [done|]. cbn. intros [= Hc _]. apply Hcy. rewrite Hc. apply list_elem_of_here.
      * by cbn.
      * change (S (S i)) with (length crlf + i)%nat. rewrite occurs_skip. apply H2. cbn [length crlf] in Hj. lia.
    + lia.
Qed.

(** ** Headers *)

Definition header_text (h : bytes * bytes) : bytes := fst h ++ lit ": " ++ snd h.
(** A name that is not empty, has no colon and does not begin with a space or a
    tab; neither it nor the value has a carriage return. *)
Definition header_ok (h : bytes * bytes) : Prop :=
  ":"%char ∉ fst h /\ chr 13 ∉ fst h /\ chr 13 ∉ snd h /\ match fst h with c :: _ => ord c <> 32 /\ ord c <> 9 | [] => False end.

Lemma header_line_ok h : header_ok h -> line_ok (header_text h).
Proof.
  intros (H1 & H2 & H3 & H4). split; [by destruct h as [[|c k] v]|]. unfold header_text. rewrite !elem_of_app. intros [?|[?|?]]; [done| |done].
  by apply (bool_decide_eq_false_1 (chr 13 ∈ lit ": ")).
Qed.

(** The text after a header does not continue its value. *)
Definition no_fold (rest : bytes) : Prop := match rest with c :: _ => ord c <> 32 /\ ord c <> 9 | [] => True end.

Lemma read_header_value_text fuel s rest : chr 13 ∉ s -> no_fold rest ->
  read_header_value (S fuel) (init (s ++ chr 13 :: chr 10 :: rest)) = Some (init (chr 13 :: chr 10 :: rest), init rest).
Proof.
  intros Hs Hr. cbn [read_header_value]. rewrite read_till_spec by done. cbn [snd]. cbn zeta. rewrite !skip_spec.
  assert (((ord (peek_char (init rest)) =? 32) || (ord (peek_char (init rest)) =? 9)) = false) as ->; [|by rewrite andb_false_r].
  destruct rest as [|c rest]; [done|]. destruct Hr as [H32 H9]. change (peek_char (init (c :: rest))) with c.
  by rewrite (proj2 (Z.eqb_neq _ _) H32), (proj2 (Z.eqb_neq _ _) H9).
Qed.

Lemma read_header_text k v rest : header_ok (k, v) -> no_fold rest ->
  read_header (init (header_text (k, v) ++ crlf ++ rest)) = Some (k, " "%char :: v, init rest).
Proof.
  intros (H1 & H2 & H3 & H4) Hr. cbn [fst snd] in *. unfold read_header, header_text. cbn [fst snd]. rewrite <- !app_assoc.
  change (lit ": " ++ v ++ crlf ++ rest) with (":"%char :: (" "%char :: v) ++ chr 13 :: chr 10 :: rest).
  rewrite read_till_spec by done. cbn zeta. rewrite skip_spec.
  rewrite read_header_value_text; [|intros [E|?]%elem_of_cons; [by vm_compute in E|done]|done]. cbn [mbind option_bind data init p_data].
  do 3 f_equal. rewrite length_app. by rewrite Nat.add_sub, take_app_length.
Qed.

(** What a list of headers makes of the state. *)
Definition process_headers (p : parsed) (hs : list (bytes * bytes)) : parsed :=
  foldl (fun p h => process_header p (fst h) (" "%char :: snd h)) p hs.

Lemma headers_no_fold hs : Forall header_ok hs -> no_fold (lines_text (header_text <$> hs)).
Proof. destruct 1 as [|[[|c k] v] hs (_ & _ & _ & H) _]; done. Qed.

Lemma has_error_init s : has_error (init s) = false.
Proof. done. Qed.

Lemma parse_headers_text hs : Forall header_ok hs -> forall fuel p, (length (lines_text (header_text <$> hs)) < fuel)%nat ->
  parse_headers fuel p (init (lines_text (header_text <$> hs))) = Some (process_headers p hs, Ok tt).
Proof.
  induction 1 as [|[k v] hs Hh Hhs IH]; intros [|fuel] p Hf; try lia; [done|]. cbn [parse_headers].
  change (lines_text (header_text <$> (k, v) :: hs)) with ((header_text (k, v) ++ crlf) ++ lines_text (header_text <$> hs)) in *.
  rewrite <- app_assoc in *. rewrite (bool_decide_false (data _ = [])) by by destruct (header_line_ok (k, v) Hh) as [? _]; destruct (header_text (k, v)).
  rewrite has_error_init. cbn [negb andb].
  rewrite read_header_text; [|done|by apply headers_no_fold]. cbn [mbind option_bind]. rewrite IH; [done|].
  rewrite !length_app in Hf. cbn [length crlf] in Hf. lia.
Qed.

Lemma parse_head_lines_text p hs : Forall header_ok hs ->
  parse_head_lines p (init (crlf ++ lines_text (header_text <$> hs))) = Some (process_headers (reset_head p) hs, Ok tt).
Proof.
  intros H. unfold parse_head_lines. change (crlf ++ ?s) with (chr 13 :: chr 10 :: s). rewrite !skip_spec. apply parse_headers_text; [done|].
  cbn [data init p_data]. lia.
Qed.

(** A request, with the type [t] that [word] stands for. *)
Lemma parse_head_request p t word target hs : (t, word) ∈ [(Get, lit "GET"); (Post, lit "POST")] -> chr 13 ∉ target -> Forall header_ok hs ->
  parse_head p (word ++ lit " " ++ target ++ crlf ++ lines_text (header_text <$> hs)) =
  '(p, r) ← parse_request_line (update_query p (fun q => set_hq_args (set_hq_type q t) [])) target;
  match r with Err e => Some (p, Err e) | Ok _ => Some (process_headers (reset_head p) hs, Ok tt) end.
Proof.
  intros Ht Hcr Hhs. assert (Hw : " "%char ∉ word).
  { apply elem_of_cons in Ht as [[= -> ->]|[= -> ->]%list_elem_of_singleton]; [apply (bool_decide_eq_false_1 (" "%char ∈ lit "GET"))|apply (bool_decide_eq_false_1 (" "%char ∈ lit "POST"))]; done. }
  unfold parse_head. change (lit " " ++ ?s) with (" "%char :: s). rewrite read_till_spec by done. cbn zeta. rewrite skip_spec.
  change (target ++ crlf ++ ?s) with (target ++ chr 13 :: chr 10 :: s). rewrite read_till_spec by done.
  change (chr 13 :: chr 10 :: lines_text (header_text <$> hs)) with (crlf ++ lines_text (header_text <$> hs)).
  apply elem_of_cons in Ht as [[= -> ->]|[= -> ->]%list_elem_of_singleton].
  - rewrite bool_decide_true by done. destruct (parse_request_line _ target) as [[p1 [[]|e]]|]; cbn -[parse_head_lines crlf]; [|done..]. by apply parse_head_lines_text.
  - rewrite bool_decide_false by done. rewrite bool_decide_true by done.
    destruct (parse_request_line _ target) as [[p1 [[]|e]]|]; cbn -[parse_head_lines crlf]; [|done..]. by apply parse_head_lines_text.
Qed.

(** The status line of a response. *)
Definition response_query (q : http_query) (code : Z) (reason : bytes) : http_query :=
  set_hq_reason (set_hq_code (set_hq_args (set_hq_type (set_hq_keep_alive q true) ResponseType) []) code) reason.

Lemma parse_head_response p code reason hs : " "%char ∉ code -> chr 13 ∉ reason -> Forall header_ok hs ->
  parse_head p (lit "HTTP/1.1" ++ lit " " ++ code ++ lit " " ++ reason ++ crlf ++ lines_text (header_text <$> hs)) =
  Some (process_headers (reset_head (update_query p (fun q => response_query q (to_integer 32 code) reason))) hs, Ok tt).
Proof.
  intros Hc Hr Hhs. unfold parse_head. do 2 change (lit " " ++ ?s) with (" "%char :: s).
  rewrite read_till_spec by by apply (bool_decide_eq_false_1 (" "%char ∈ lit "HTTP/1.1")). cbn zeta. rewrite skip_spec.
  do 2 rewrite bool_decide_false by done. change ((4 <=? len (lit "HTTP/1.1")) && bool_decide (take 4 (lit "HTTP/1.1") = lit "HTTP")) with true. cbn [andb].
  unfold parse_http_version. rewrite bool_decide_true by done. unfold parse_status. rewrite read_till_spec by done. cbn zeta. rewrite skip_spec.
  change (reason ++ crlf ++ ?s) with (reason ++ chr 13 :: chr 10 :: s). rewrite read_till_spec by done.
  change (chr 13 :: chr 10 :: lines_text (header_text <$> hs)) with (crlf ++ lines_text (header_text <$> hs)).
  by rewrite parse_head_lines_text.
Qed.

(** ** Bodies *)

(** How the text of a body stands for the body. *)
Inductive framing (p : parsed) : bytes -> bytes -> Prop :=
| no_body : transfer_encoding_ p = [] -> content_length_ p <= 0 -> framing p [] []
| sized body : transfer_encoding_ p = [] -> content_length_ p = len body -> body <> [] -> framing p body body
| in_chunks text body k : transfer_encoding_ p = lit "chunked" -> chunked_body text body k -> k <= MAX_SIZE -> framing p text body.

(** A body that is not compressed, not too big and not a form. *)
Definition plain (p : parsed) : Prop :=
  (content_encoding_ p = [] \/ content_encoding_ p = lit "none") /\ content_length_ p < MAX_CONTENT_SIZE
  /\ has_substring (content_type_lowercased_ p) (lit "multipart/form-data") = false.

Definition has_body (p : parsed) : bool := negb (bool_decide (transfer_encoding_ p = []) && (content_length_ p <=? 0)).
Definition is_urlencoded (p : parsed) : bool := has_substring (content_type_lowercased_ p) (lit "application/x-www-form-urlencoded").
Definition has_parameters (p : parsed) : bool := is_urlencoded p || has_substring (content_type_lowercased_ p) (lit "application/json").

(** What a complete body makes of the query: parameters (an error in their text is
    ignored), or the content; nothing that is too big. *)
Definition receive (max_post_size : Z) (p : parsed) (body : bytes) : option parsed :=
  if negb (has_body p) then Some p
  else
    let q := update_query p (fun q => add_container q body) in
    if has_parameters p then
      if len body <=? MAX_TOTAL_PARAMETERS_LENGTH - total_parameters_length_ p then
        '(q, r) ← (if is_urlencoded p then parse_parameters q body else parse_json_parameters q body);
        Some (update_query q (fun q => set_hq_content q []))
      else None
    else if len body <=? max_post_size then Some (update_query q (fun q => set_hq_content q body)) else None.

Lemma parse_json_fields_code fuel : forall q s q' err, parse_json_fields fuel q (init s) = Some (q', Err err) -> st_code err = 400.
Proof.
  induction fuel as [|fuel IH]; intros q s q' err; [done|]. cbn [parse_json_fields]. cbn zeta. rewrite skip_ws_init.
  destruct (try_skip_char_cases "}"%char (ws s)) as [(s1 & E & ->)| ->]; [case_bool_in_goal; [done|by intros [= _ <-]]|].
  case_bool_in_goal; [by intros [= _ <-]|]. destruct (string_decode_init (ws s)) as ([key|] & s1 & -> & _); [|by intros [= _ <-]].
  rewrite skip_ws_init. destruct (try_skip_char_cases ":"%char (ws s1)) as [(s2 & E2 & ->)| ->]; [|by intros [= _ <-]]. rewrite skip_ws_init.
  destruct (read_json_value_total (ws s2)) as ([value|] & s3 & -> & _); cbn -[parse_json_fields]; [|by intros [= _ <-]]. rewrite skip_ws_init.
  case_bool_in_goal; [apply IH|]. destruct (try_skip_char_cases ","%char (ws s3)) as [(s4 & E4 & ->)| ->]; [apply IH|by intros [= _ <-]].
Qed.

(** Small parameters are not refused as too big. *)
Lemma parameters_fit p s p' err : len s <= MAX_TOTAL_PARAMETERS_LENGTH - total_parameters_length_ p ->
  (parse_parameters p s = Some (p', Err err) -> False) /\ (parse_json_parameters p s = Some (p', Err err) -> st_code err <> 413).
Proof.
  intros Hl. assert (Hb : (MAX_TOTAL_PARAMETERS_LENGTH <? total_parameters_length_ p + len s) = false) by (apply Z.ltb_ge; lia). split.
  - unfold parse_parameters. cbn -[parse_pairs len]. rewrite Hb. by destruct (parse_pairs _ _ _).
  - unfold parse_json_parameters. case_bool_in_goal; [done|]. cbn -[parse_json_fields len]. rewrite Hb. rewrite skip_ws_init. case_bool_in_goal.
    + destruct (string_decode_init (ws s)) as ([v|] & s1 & -> & _); [case_bool_in_goal; [|done]|]; by intros [= _ <-].
    + destruct (has_error _) eqn:E; [by intros [= _ <-]|]. unfold skip in *. change (has_error (init (ws s))) with false in *. cbn [init p_data] in *.
      destruct (ws s) as [|x w]; [done|]. destruct (decide (x = "{"%char)); [|done]. change (set_data (init (x :: w)) w) with (init w).
      destruct (parse_json_fields _ _ (init w)) as [[q r]|] eqn:Ef; cbn; [|done]. intros [= _ ->]. apply parse_json_fields_code in Ef. by rewrite Ef.
Qed.

Section Delivery.
Context {Gz : Type} {ops : gzip_ops Gz} (e : env).
#[local] Notation reader := (HttpReader.reader (Gz := Gz)).

Definition flow_reads (rest : bytes) (f : flow) (stream out : bytes) : Prop :=
  flow_ok f /\ match fl_stage f with
  | Length n => reads (length_R rest) (fl_common f) n stream out
  | Chunked c => reads (chunked_R rest) (fl_common f) c stream out
  end.

Lemma flow_wakeup_reads rest f input future out : flow_reads rest f (input ++ future) out ->
  exists f' i' o st, flow_wakeup f input = Some (f', i', o, st) /\ match st with
  | None => exists out', out = o ++ out' /\ flow_reads rest f' (i' ++ future) out' /\ len i' < need_size_ (fl_common f') <= len (i' ++ future)
  | Some s => s = None /\ out = o /\ i' ++ future = rest /\ stop_flag_ (fl_common f') = true
  end.
Proof using Type.
  intros [Hok HR]. destruct (flow_wakeup_ok f input Hok) as (f' & i' & o & st & E & Hok' & _ & Hst). exists f', i', o, st. split; [done|].
  assert (is_Some st -> stop_flag_ (fl_common f') = true) as Hstop by (intros; apply Hst; by right). clear Hst.
  revert E. unfold flow_wakeup. destruct (fl_stage f) as [n|c].
  - destruct (wakeup length_loop (fl_common f) n input) as [[[[[b n'] i1] o1] st1]|] eqn:E; [|done]. intros [= <- <- <- <-].
    pose proof (wakeup_reads _ _ rest (length_reads rest) _ _ _ _ _ _ _ _ _ _ HR E) as L.
    destruct st1; [destruct L as (-> & -> & L); split_and!; [done..|by apply Hstop]|]. destruct L as (out' & -> & L1 & L2). exists out'. split; [done|]. split; [by split|]. destruct L1 as (_ & _ & L1 & _). done.
  - destruct (wakeup chunked_loop (fl_common f) c input) as [[[[[b n'] i1] o1] st1]|] eqn:E; [|done]. intros [= <- <- <- <-].
    pose proof (wakeup_reads _ _ rest (chunked_reads rest) _ _ _ _ _ _ _ _ _ _ HR E) as L.
    destruct st1; [destruct L as (-> & -> & L); split_and!; [done..|by apply Hstop]|]. destruct L as (out' & -> & L1 & L2). exists out'. split; [done|]. split; [by split|]. destruct L1 as (_ & _ & L1 & _). done.
Qed.

(** While a body arrives: the flow will write what is missing. *)
Record streaming (body rest : bytes) (r : reader) (future : bytes) : Prop := {
  s_state : state_ r <> ReadHeaders;
  s_gzip : gzip_flow_ (the_body r) = None;
  s_sink : flow_sink_ (the_body r) = None;
  s_flow : exists f out, flow_ (the_body r) = Some f /\ flow_reads rest f (input_ r ++ future) out /\ content_ (the_body r) ++ out = body;
}.

Lemma streaming_input body rest (r : reader) s future : streaming body rest r (s ++ future) -> streaming body rest (set_input_ r (input_ r ++ s)) future.
Proof using Type. intros [H1 H2 H3 (f & out & H)]. split; try done. cbn. rewrite <- app_assoc. by exists f, out. Qed.

(** After a body: the flow has stopped, and what is left is the rest. *)
Record ended (rest : bytes) (r : reader) (future : bytes) : Prop := {
  e_state : state_ r <> ReadHeaders;
  e_gzip : gzip_flow_ (the_body r) = None;
  e_sink : flow_sink_ (the_body r) = Some None;
  e_flow : exists f, flow_ (the_body r) = Some f /\ stop_flag_ (fl_common f) = true;
  e_rest : input_ r ++ future = rest;
}.

Lemma ended_input rest (r : reader) s future : ended rest r (s ++ future) -> ended rest (set_input_ r (input_ r ++ s)) future.
Proof using Type. intros [H1 H2 H3 H4 H5]. split; try done. cbn. by rewrite <- app_assoc. Qed.

Lemma ended_flows rest (r : reader) future n : ended rest r future -> exists n1, read_flows r n = Some (r, Ok n1).
Proof using Type.
  intros [H1 H2 H3 (f & Hf & Hs) _]. unfold read_flows. rewrite bool_decide_false by done. unfold wake_flows, wake_gzip. rewrite H2. cbn [mbind option_bind].
  rewrite Hf, Hs. cbn [mbind option_bind]. rewrite H3. eexists. destruct r as [? ? ? ? ? ? ? ? ? ? []]; done.
Qed.

(** The flows in one turn. *)
Lemma streaming_flows body rest r future n : streaming body rest r future ->
  exists b i n1, read_flows r n = Some (set_input_ (set_the_body r b) i, Ok n1) /\
  ((0 < n1 /\ future <> [] /\ streaming body rest (set_input_ (set_the_body r b) i) future)
   \/ (content_ b = body /\ ended rest (set_input_ (set_the_body r b) i) future)).
Proof using Type.
  intros [H1 H4 H5 (f & out & Hf & HR & Hout)]. unfold read_flows.
  rewrite bool_decide_false by done. unfold wake_flows, wake_gzip. rewrite H4. cbn [mbind option_bind].
  rewrite Hf. assert (Hs : stop_flag_ (fl_common f) = false) by (destruct HR as [_ HR]; destruct (fl_stage f); by destruct HR as (_ & ? & _)).
  rewrite Hs. destruct (flow_wakeup_reads rest f (input_ r) future out HR) as (f' & i' & o & st & -> & L). cbn [mbind option_bind].
  unfold feed_parent. assert (gzip_flow_ (set_flow_ (the_body r) (Some f')) = None) as -> by done.
  destruct (feed_sink_ok (set_flow_ (the_body r) (Some f')) o st) as (b2 & -> & F2 & G2 & C2 & _ & S2); [unfold is_ready; cbn; by rewrite H5|].
  cbn [mbind option_bind]. cbn in F2, G2, C2. rewrite S2. destruct st as [s|].
  - destruct L as (-> & -> & Hrest & Hstop). eexists _, _, _. split; [done|]. right. split; [by rewrite C2|].
    split; try done; [by cbn; rewrite G2|]. exists f'. by rewrite <- Hstop.
  - destruct L as (out' & -> & HR' & Hneed1 & Hneed2). eexists _, _, _. split; [done|]. left. rewrite F2. pose proof (len_nonneg i').
    rewrite len_app in Hneed2. split_and!.
    + destruct (_ =? 0); lia.
    + intros ->. rewrite len_nil in Hneed2. lia.
    + split; cbn; try done; [by rewrite G2|]. exists f', out'. split; [done|]. split; [done|]. by rewrite C2, <- app_assoc.
Qed.

Record receiving (query : Z) (p : parsed) (body rest : bytes) (r : reader) (future : bytes) : Prop := {
  r_state : state_ r = if has_parameters p then ReadArgs else ReadContent;
  r_query : query_ r = Some query;
  r_parsed : the_parsed r = p;
  r_has : has_body p = true;
  r_streaming : streaming body rest r future;
}.

(** What one call leaves: it asks for bytes that are still to come, or it has the
    query and has left the rest. *)
Definition delivery (query : Z) (p : parsed) (body rest future : bytes) (r : reader) (x : option (reader * result Z)) : Prop :=
  exists r' n, x = Some (r', Ok n) /\ max_post_size_ r' = max_post_size_ r /\
  ((0 < n /\ future <> [] /\ receiving query p body rest r' future)
   \/ (n = 0 /\ input_ r' ++ future = rest /\ idle r'
       /\ Some (the_query (the_parsed r')) = the_query <$> receive (max_post_size_ r) p body)).

Lemma receiving_flows query p body rest r future n : receiving query p body rest r future ->
  exists r1 n1, read_flows r n = Some (r1, Ok n1) /\ state_ r1 = state_ r /\ the_parsed r1 = p /\ max_post_size_ r1 = max_post_size_ r
  /\ ((0 < n1 /\ future <> [] /\ receiving query p body rest r1 future /\ exists out, content_ (the_body r1) ++ out = body)
      \/ (flow_sink_ (the_body r1) = Some None /\ content_ (the_body r1) = body /\ input_ r1 ++ future = rest)).
Proof using Type.
  intros [H1 H2 H3 Hhas Hst]. destruct (streaming_flows body rest r future n Hst) as (b & i & n1 & -> & H). eexists _, _. split; [done|].
  split; [done|]. split; [done|]. split; [done|]. destruct H as [(Hn & Hf & HS)|(Hc & HE)]; [left|right; split_and!; [apply HE|done|apply HE]]. split; [done|]. split; [done|].
  split; [by split|]. destruct HS as [_ _ _ (f & out & _ & _ & H)]. by exists out.
Qed.

Lemma receiving_read query p body rest r future fuel slow n : receiving query p body rest r future ->
  is_Some (receive (max_post_size_ r) p body) -> parameters_bound p -> len (hq_container (the_query p)) = 1 ->
  delivery query p body rest future r (do_read_next e (S fuel) slow r n).
Proof using Type.
  intros HR [p2 Hp2] Hbound Hc. pose proof (r_has _ _ _ _ _ _ HR) as Hb. cbn [do_read_next]. destruct (receiving_flows query p body rest r future n HR) as (r1 & n1 & -> & S1 & P1 & M1 & H).
  cbn [mbind option_bind]. unfold read_turn. rewrite S1, (r_state _ _ _ _ _ _ HR). unfold receive in Hp2. rewrite Hb in Hp2. cbn [negb] in Hp2. cbn zeta in Hp2.
  destruct (has_parameters p) eqn:Hpar.
  - unfold read_args. cbn zeta. rewrite P1. destruct Hbound as [Hb0 Hb1]. rewrite (wrap_small 64 (MAX_TOTAL_PARAMETERS_LENGTH - total_parameters_length_ p))
      by (unfold MAX_TOTAL_PARAMETERS_LENGTH in *; change (2 ^ 64) with 18446744073709551616; lia).
    destruct (Z.leb_spec (len body) (MAX_TOTAL_PARAMETERS_LENGTH - total_parameters_length_ p)) as [Hlen|]; [|done].
    destruct H as [(Hn1 & Hfut & HR1 & out & Hout)|(Hsink & Hcont & Hrest)].
    + assert (len (content_ (the_body r1)) <= len body) by (rewrite <- Hout, len_app; pose proof (len_nonneg out); lia).
      rewrite ltb_false by lia. unfold is_ready. rewrite (s_sink _ _ _ _ (r_streaming _ _ _ _ _ _ HR1)). rewrite bool_decide_false by by intros [].
      cbn [mbind option_bind]. eexists _, _. split; [done|]. split; [done|]. left. by split_and!.
    + rewrite Hcont, ltb_false by lia. unfold is_ready. rewrite Hsink. rewrite bool_decide_true by done. set (q := update_query p _) in *.
      change (has_substring (content_type_lowercased_ q) (lit "application/x-www-form-urlencoded")) with (is_urlencoded p).
      assert (Hfit : len body <= MAX_TOTAL_PARAMETERS_LENGTH - total_parameters_length_ q) by exact Hlen.
      destruct (if is_urlencoded p then parse_parameters q body else parse_json_parameters q body) as [[p1 res]|] eqn:Ep; [|done].
      cbn [mbind option_bind] in Hp2 |- *.
      assert (Hres : match res with Err err => st_code err =? 413 | Ok _ => false end = false).
      { destruct res as [|err]; [done|]. apply Z.eqb_neq. destruct (is_urlencoded p); [by destruct (parameters_fit q body p1 err Hfit) as [[] _]|by eapply parameters_fit]. }
      assert (Hd : forall r2, r2 = set_the_parsed (set_the_body r1 (set_content_ (the_body r1) [])) (update_query p1 (fun q => set_hq_content q [])) ->
        delivery query p body rest future r (Some (reset r2 (input_ r2) (max_post_size_ r2) (max_files_ r2), Ok 0))).
      { intros r2 ->. eexists _, _. split; [done|]. split; [done|]. right. split_and!; try done.
        unfold receive. rewrite Hb, Hpar. cbn [negb]. cbn zeta. rewrite leb_true by done. fold q. by rewrite Ep. }
      destruct res as [[]|err]; [|rewrite Hres]; cbn [mbind option_bind]; by apply Hd.
  - unfold read_content. cbn zeta. destruct (Z.leb_spec (len body) (max_post_size_ r)) as [Hpost|]; [|done].
    destruct H as [(Hn1 & Hfut & HR1 & out & Hout)|(Hsink & Hcont & Hrest)].
    + assert (len (content_ (the_body r1)) <= len body) by (rewrite <- Hout, len_app; pose proof (len_nonneg out); lia).
      rewrite ltb_false by (rewrite M1; lia). unfold is_ready. rewrite (s_sink _ _ _ _ (r_streaming _ _ _ _ _ _ HR1)). cbn [bool_decide]. rewrite bool_decide_false by by intros [].
      cbn [mbind option_bind]. eexists _, _. split; [done|]. split; [done|]. left. by split_and!.
    + rewrite Hcont, ltb_false by (rewrite M1; lia). unfold is_ready. rewrite Hsink. rewrite bool_decide_true by done. rewrite P1, (proj2 (Z.eqb_eq _ _) Hc).
      cbn [mbind option_bind]. eexists _, _. split; [done|]. split; [done|]. right. split_and!; try done.
      unfold receive. rewrite Hb, Hpar. cbn [negb]. cbn zeta. by rewrite leb_true.
Qed.
(** ** Heads *)

(** Resuming the search for something that comes first at [l]. *)
Lemma find_resumes b s input future n l : b <> [] -> occurs s b l -> (forall j, (j < l)%nat -> ~ occurs s b j) -> input ++ future = s -> (n <= l)%nat ->
  let '(ok, m) := find_loop (drop n input) b n in
  if ok then m = l /\ (l + length b <= length input)%nat else (n <= m <= l)%nat /\ (length input < l + length b)%nat /\ future <> [].
Proof using Type.
  intros Hb Hl Hf HS Hn. assert (F : find_loop (drop n s) b n = (true, l)).
  { rewrite (find_loop_occurs b _ n (l - n)); [by replace (n + (l - n))%nat with l by lia|done|..].
    - apply occurs_drop. by replace (n + (l - n))%nat with l by lia.
    - intros j Hj Ho. apply occurs_drop in Ho. apply (Hf (n + j)%nat); [lia|done]. }
  destruct (find_loop (drop n input) b n) as [ok m] eqn:E. rewrite <- HS, drop_app, (find_loop_app b _ _ _ _ _ Hb E) in F.
  apply find_loop_spec in E as (E1 & _ & E3); [|done]. rewrite length_drop in *. apply occurs_length in Hl as Hs; [|done].
  assert (length b <> 0%nat) by by destruct b. destruct ok.
  - injection F as ->. apply occurs_length in E3; [|done]. rewrite length_drop in E3. split; [done|]. lia.
  - apply find_loop_spec in F as (F1 & _); [|done]. split; [lia|]. split; [lia|]. intros ->. rewrite app_nil_r in HS. subst s. lia.
Qed.

(** What reading a head does not change. *)
Definition same_setup (r r' : reader) : Prop :=
  max_post_size_ r' = max_post_size_ r /\ max_files_ r' = max_files_ r /\ the_temp r' = the_temp r.

Record awaiting (query : Z) (p : parsed) (lines : list bytes) (tail : bytes) (r : reader) (future : bytes) : Prop := {
  a_state : state_ r = ReadHeaders;
  a_query : query_ r = Some query;
  a_parsed : the_parsed r = p;
  a_read : (headers_read_length_ r <= length (lines_text lines) - 2)%nat;
  a_input : input_ r ++ future = lines_text lines ++ crlf ++ tail;
}.

Lemma split_header_reads query p lines tail (r : reader) future : lines <> [] -> Forall line_ok lines -> len (lines_text lines) < MAX_TOTAL_HEADERS_LENGTH ->
  awaiting query p lines tail r future ->
  exists r1, same_setup r r1 /\
  ((exists n, split_header r = Some (r1, Ok n) /\ 0 < n /\ future <> [] /\ awaiting query p lines tail r1 future)
   \/ ((forall p1, parse_head (update_query p (fun q => set_hq_container q [lines_text lines])) (lines_text lines) = Some (p1, Ok tt) ->
        split_header r = Some (set_the_parsed r1 p1, Ok 0)) /\ input_ r1 ++ future = tail /\ query_ r1 = Some query /\ state_ r1 = ReadHeaders
       /\ total_headers_length_ r1 = len (lines_text lines) - 2)).
Proof using Type.
  intros Hne Hl Hsize [H1 H2 H3 H4 H5]. destruct (blank_line lines tail Hne Hl) as (B1 & B2 & B3). cbn zeta in *.
  pose proof (find_resumes (crlf ++ crlf) _ (input_ r) future (headers_read_length_ r) _ ltac:(done) B1 B2 H5 H4) as F.
  unfold split_header, find_boundary. change ((length (crlf ++ crlf) <=? Boundary.MAX_BOUNDARY_LENGTH + 4)%nat) with true. cbn iota.
  destruct (find_loop _ _ _) as [ok m]. cbn [mbind option_bind]. change (length (crlf ++ crlf)) with 4%nat in F. destruct ok.
  - destruct F as [-> F]. eexists (set_total_headers_length_ (set_input_ (set_headers_read_length_ r _) _) _). split; [done|]. right. split; [|split].
    + intros p1 Hp1. cbn [input_ set_headers_read_length_]. change (the_parsed (set_headers_read_length_ r _)) with (the_parsed r).
      replace (length (lines_text lines) - 2 + 2)%nat with (length (lines_text lines)) by lia.
      assert (take (length (lines_text lines)) (input_ r) = lines_text lines) as ->.
      { rewrite <- (take_app_le _ future), H5 by lia. apply take_app_length. }
      rewrite H3, Hp1. done.
    + cbn. rewrite <- drop_app_le, H5 by lia. rewrite app_assoc. apply drop_app_length'. rewrite length_app. cbn. lia.
    + split; [done|]. split; [done|]. cbn. unfold len. lia.
  - destruct F as (F1 & F2 & F3). cbn [input_ set_headers_read_length_]. rewrite ltb_false by (unfold len, MAX_TOTAL_HEADERS_LENGTH in *; lia).
    eexists. split; [|left; eexists; split; [reflexivity|]]; [done|]. pose proof (len_nonneg (input_ r)). split_and!; [lia|done|]. split; cbn; try done; lia.
Qed.

(** A message: the lines of its head, which are parsed to [p1], and the text of a
    body that [p1] frames. *)
Record message (max_post_size : Z) (p : parsed) (lines : list bytes) (text : bytes) (p1 : parsed) (body : bytes) : Prop := {
  g_lines : lines <> [] /\ Forall line_ok lines /\ len (lines_text lines) < MAX_TOTAL_HEADERS_LENGTH;
  g_bound : parameters_bound p;
  g_head : parse_head (update_query p (fun q => set_hq_container q [lines_text lines])) (lines_text lines) = Some (p1, Ok tt);
  g_framing : framing p1 text body;
  g_plain : plain p1;
  g_receive : is_Some (receive max_post_size p1 body);
}.

Lemma message_parsed max_post p lines text p1 body : message max_post p lines text p1 body ->
  parameters_bound p1 /\ len (hq_container (the_query p1)) = 1.
Proof using Type.
  intros [_ H1 H2 _ _ _]. destruct (parse_head_total (update_query p (fun q => set_hq_container q [lines_text lines])) (lines_text lines) H1)
    as (p' & r & E & E1 & _ & E2). rewrite H2 in E. injection E as <- <-. split; [by apply E2|]. by rewrite E1.
Qed.

Lemma framing_has_body p text body : framing p text body -> if has_body p then exists st, make_stage p = Ok st /\ stage_ok st
    /\ forall rest, match st with Length n => reads (length_R rest) init_common n (text ++ rest) body | Chunked c => reads (chunked_R rest) init_common c (text ++ rest) body end
  else text = [].
Proof using Type.
  unfold has_body, make_stage. destruct 1 as [E1 E2|b E1 E2 E3|text b k E1 E2 E3]; rewrite E1.
  - by rewrite leb_true.
  - rewrite E2. assert (0 < len b) by (destruct b as [|c b]; [done|rewrite len_cons; pose proof (len_nonneg b); lia]). rewrite leb_false by done.
    cbn [bool_decide andb negb]. rewrite bool_decide_true by done. cbn [andb negb]. exists (Length (len b)). split; [done|]. split; [cbn; lia|].
    intros rest. by apply reads_init.
  - rewrite !bool_decide_false by done. cbn [andb negb]. rewrite bool_decide_true by done. exists (Chunked init_chunked). split; [done|]. split; [done|].
    intros rest. apply reads_init. by eapply chunked_R_init.
Qed.

(** The turn that reads the head: it waits, or the body is to be read next. *)
Lemma head_read query p lines text p1 body rest (r : reader) future : lines <> [] -> Forall line_ok lines -> len (lines_text lines) < MAX_TOTAL_HEADERS_LENGTH ->
  parse_head (update_query p (fun q => set_hq_container q [lines_text lines])) (lines_text lines) = Some (p1, Ok tt) ->
  framing p1 text body -> content_encoding_ p1 = [] \/ content_encoding_ p1 = lit "none" ->
  awaiting query p lines (text ++ rest) r future ->
  (exists r' k, read_headers r = Some (r', Stop (Ok k)) /\ 0 < k /\ future <> [] /\ same_setup r r' /\ awaiting query p lines (text ++ rest) r' future)
  \/ (exists r', same_setup r r' /\ the_parsed r' = p1 /\ query_ r' = Some query /\
      if has_body p1 then exists f, read_headers r = Some (choose_state r') /\ the_body r' = mk_body (Some f) None None []
        /\ flow_reads rest f (input_ r' ++ future) body /\ total_headers_length_ r' = len (lines_text lines) - 2
      else read_headers r = Some (r', Done) /\ input_ r' ++ future = rest).
Proof using Type.
  intros L1 L2 L3 M2 M3 P1 Ha. pose proof (framing_has_body _ _ _ M3) as Hbody. unfold read_headers.
  destruct (split_header_reads query p lines (text ++ rest) r future L1 L2 L3 Ha) as (r1 & X1 & [(k & -> & Hk & Hf & Ha1)|(Hs & Hi & Hq & Hst & Hh)]).
  { cbn [mbind option_bind]. rewrite (proj2 (Z.eqb_neq k 0)) by lia. left. by eexists _, _. }
  right. rewrite (Hs p1 M2). cbn [mbind option_bind]. cbn [Z.eqb negb]. change (the_parsed (set_the_parsed r1 p1)) with p1.
  unfold has_body in *. destruct (bool_decide (transfer_encoding_ p1 = []) && (content_length_ p1 <=? 0)); cbn [negb] in *.
  { subst text. by exists (set_the_parsed r1 p1). }
  destruct Hbody as (st & -> & Hst' & Hreads). unfold make_gzip. cbn zeta. change (the_parsed (set_the_parsed r1 p1)) with p1.
  assert (bool_decide (content_encoding_ p1 = []) || bool_decide (content_encoding_ p1 = lit "none") = true) as ->.
  { destruct P1 as [-> | ->]; [done|]. by rewrite orb_true_r. }
  eexists. split; [|split; [|split; [|eexists; split; [done|split; [done|split; [|exact Hh]]]]]]; [exact X1|done|exact Hq|].
  split; [by split_and!|]. cbn. rewrite Hi. apply Hreads.
Qed.

Lemma awaiting_read query p lines text p1 body rest (r : reader) future fuel slow n : message (max_post_size_ r) p lines text p1 body ->
  awaiting query p lines (text ++ rest) r future ->
  (exists r' k, do_read_next e (S (S fuel)) slow r n = Some (r', Ok k) /\ 0 < k /\ future <> [] /\ max_post_size_ r' = max_post_size_ r
     /\ awaiting query p lines (text ++ rest) r' future)
  \/ delivery query p1 body rest future r (do_read_next e (S (S fuel)) slow r n).
Proof using Type.
  intros Hm Ha. pose proof (message_parsed _ _ _ _ _ _ Hm) as [Hb1 Hb2]. destruct Hm as [(L1 & L2 & L3) M1 M2 M3 (P1 & P2 & P3) M5].
  remember (S fuel) as fuel1 eqn:Ef. cbn [do_read_next]. unfold read_flows. rewrite bool_decide_true by apply Ha. cbn [mbind option_bind].
  unfold read_turn. rewrite (a_state _ _ _ _ _ _ Ha).
  destruct (head_read query p lines text p1 body rest r future L1 L2 L3 M2 M3 P1 Ha) as [(r' & k & -> & Hk & Hf & (X1 & _) & Ha')|(r2 & (X1 & _) & Hp & Hq & H)].
  { cbn [mbind option_bind]. left. by eexists _, _. }
  right. destruct (has_body p1) eqn:Hbody.
  2:{ destruct H as [-> Hi]. cbn [mbind option_bind]. eexists _, _. split; [done|]. split; [done|]. right. split_and!; try done. cbn. rewrite Hp. unfold receive. by rewrite Hbody. }
  destruct H as (f & -> & Hbd & Hreads & _). unfold choose_state. cbn zeta. rewrite Hp. rewrite leb_false by done. rewrite P3.
  set (r3 := if has_parameters p1 then set_state_ r2 ReadArgs else set_state_ (set_the_form r2 (set_form_data_skipped_length_ (the_form r2) 0)) ReadContent).
  assert (HR : receiving query p1 body rest r3 future).
  { subst r3. split; try (by destruct (has_parameters p1)). split; destruct (has_parameters p1); cbn; try done; rewrite Hbd; cbn; try done; by exists f, body. }
  assert (Hd : delivery query p1 body rest future r (do_read_next e fuel1 slow r3 n)).
  { assert (Hmax : max_post_size_ r3 = max_post_size_ r) by (subst r3; by destruct (has_parameters p1)). subst fuel1.
    destruct (receiving_read query p1 body rest r3 future fuel slow n HR) as (r' & k & E & Hr & H); [by rewrite Hmax|done..|].
    exists r', k. rewrite Hmax in *. by split_and!. }
  clear HR. subst r3. unfold has_parameters, is_urlencoded in Hd. case_bool_in_goal; cbn [mbind option_bind]; exact Hd.
Qed.

(** ** Pieces *)

(** A connection that reads, gets the next piece when the reader asks for more,
    reads again with [can_be_slow] when the reader answers "SLOW", and stops when
    the query is complete; what it had not yet passed on. *)
Inductive delivers (query : Z) (q : http_query) : bool -> reader -> list bytes -> reader -> list bytes -> Prop :=
| delivers_done sl r r' pieces : reads_next e r query q sl r' (Ok 0) -> delivers query q sl r pieces r' pieces
| delivers_more sl r r1 n piece pieces r' unread : reads_next e r query q sl r1 (Ok n) -> 0 < n ->
    delivers query q sl (set_input_ r1 (input_ r1 ++ piece)) pieces r' unread -> delivers query q sl r (piece :: pieces) r' unread
| delivers_slow r r1 pieces r' unread : reads_next e r query q false r1 (Err slow) ->
    delivers query q true r1 pieces r' unread -> delivers query q false r pieces r' unread.

(** The state [read_next] starts from. *)
Definition with_query (query : Z) (q : http_query) (r : reader) : reader :=
  if bool_decide (query_ r = Some query) then r else set_the_parsed (set_query_ r (Some query)) (set_the_query (the_parsed r) q).

Lemma with_query_setup query q (r : reader) : input_ (with_query query q r) = input_ r /\ same_setup r (with_query query q r).
Proof using Type. unfold with_query. by case_bool_in_goal. Qed.

Lemma reads_from query q slow fuel (r r' : reader) res : query_ r = Some query \/ query_ r = None ->
  do_read_next e fuel slow (with_query query q r) (len (input_ r) + 1) = Some (r', res) ->
  (forall n, res = Ok n -> 0 < n -> state_ r' <> ReadHeaders -> flow_sink_ (the_body r') = None) -> reads_next e r query q slow r' res.
Proof using Type.
  intros Hq E Hs. exists fuel. unfold read_next. destruct (with_query_setup query q r) as [Hi _].
  assert ((if bool_decide (query_ r = Some query) then Some r else match query_ r with Some _ => None
      | None => Some (set_the_parsed (set_query_ r (Some query)) (set_the_query (the_parsed r) q)) end) = Some (with_query query q r)) as ->.
  { unfold with_query. destruct Hq as [Eq|Eq]; rewrite Eq; [by rewrite bool_decide_true|by rewrite bool_decide_false]. }
  cbn [mbind option_bind]. rewrite Hi, E. cbn [mbind option_bind]. destruct res as [n|]; [|done].
  case_bool_in_goal; [|done]. apply andb_true_iff in Heqb as [Hst Hn]. apply negb_true_iff, bool_decide_eq_false in Hst. by rewrite (Hs n) by first [done|lia].
Qed.

(** Calls that keep an invariant until they end. *)
Section Pieces.
Context (query : Z) (q : http_query) (rest : bytes) (progress : reader -> bytes -> Prop) (final : reader -> Prop).
Context (progress_input : forall (r : reader) s future, progress r (s ++ future) -> progress (set_input_ r (input_ r ++ s)) future).

(** What one call does. *)
Definition call_progress (sl : bool) (r : reader) (future : bytes) : Prop :=
  (sl = false /\ exists r', reads_next e r query q false r' (Err slow) /\ query_ r' = Some query /\ progress r' future)
  \/ exists r' n, reads_next e r query q sl r' (Ok n) /\
     ((0 < n /\ future <> [] /\ query_ r' = Some query /\ progress r' future) \/ (n = 0 /\ input_ r' ++ future = rest /\ idle r' /\ final r')).
Context (progress_read : forall sl (r : reader) future, query_ r = Some query \/ query_ r = None -> progress (with_query query q r) future -> call_progress sl r future).

Definition delivered (sl : bool) (pieces : list bytes) (r : reader) : Prop :=
  query_ r = Some query \/ query_ r = None -> progress (with_query query q r) (concat pieces) ->
  exists r' unread, delivers query q sl r pieces r' unread /\ input_ r' ++ concat unread = rest /\ idle r' /\ final r'.

Lemma with_query_same (r : reader) : query_ r = Some query -> with_query query q r = r.
Proof using Type. intros H. unfold with_query. by rewrite H, bool_decide_true. Qed.

Lemma progress_delivered_from sl (Hslow : sl = false -> forall pieces r, delivered true pieces r) pieces : forall r, delivered sl pieces r.
Proof using progress_input progress_read.
  assert (Hcase : forall pieces r, (forall r1, query_ r1 = Some query -> progress r1 (concat pieces) -> match pieces with piece :: pieces' => delivered sl pieces' (set_input_ r1 (input_ r1 ++ piece)) | [] => True end) ->
    delivered sl pieces r).
  { intros ps r Hnext Hq Hp. destruct (progress_read sl r _ Hq Hp) as [(-> & r1 & E & Q1 & P1)|(r1 & n & E & [(Hn & Hf & Q1 & P1)|(-> & Hi & Hidle & Hr)])].
    - destruct (Hslow eq_refl ps r1) as (r' & unread & Hd & H); [by left|by rewrite with_query_same|]. exists r', unread. split; [by eapply delivers_slow|done].
    - specialize (Hnext r1 Q1 P1). destruct ps as [|piece ps]; [done|]. destruct Hnext as (r' & unread & Hd & H); [by left| |].
      + rewrite with_query_same by done. by apply progress_input.
      + exists r', unread. split; [by econstructor|done].
    - exists r1, ps. by split_and!; [constructor|..]. }
  induction pieces as [|piece pieces IH]; intros r; apply Hcase; [done|]. intros r1 _ _. apply IH.
Qed.

Lemma progress_delivered sl pieces r : delivered sl pieces r.
Proof using progress_input progress_read. apply progress_delivered_from. intros _ ps. by apply progress_delivered_from. Qed.

End Pieces.

Section Message.
Context (query : Z) (q : http_query) (max_post_size : Z) (p : parsed) (lines : list bytes) (text : bytes) (p1 : parsed) (body rest : bytes).
Context (Hm : message max_post_size p lines text p1 body).

Definition in_progress (r : reader) (future : bytes) : Prop :=
  max_post_size_ r = max_post_size /\ (awaiting query p lines (text ++ rest) r future \/ receiving query p1 body rest r future).

Lemma in_progress_input (r : reader) s future : in_progress r (s ++ future) -> in_progress (set_input_ r (input_ r ++ s)) future.
Proof using Type.
  intros [Hx [[]|[]]]; (split; [done|]); [left|right]; split; try done; [cbn; by rewrite <- app_assoc|by apply streaming_input].
Qed.

Definition received (r : reader) : Prop := Some (the_query (the_parsed r)) = the_query <$> receive max_post_size p1 body.

Lemma in_progress_read slow (r : reader) future : query_ r = Some query \/ query_ r = None -> in_progress (with_query query q r) future ->
  call_progress query q rest in_progress received slow r future.
Proof using Hm.
  intros Hq [Hmax Hp]. right. unfold received. pose proof (reads_from query q slow 2 r) as Hread. set (r0 := with_query query q r) in *.
  assert (Hdel : delivery query p1 body rest future r0 (do_read_next e 2 slow r0 (len (input_ r) + 1)) -> exists r' n, reads_next e r query q slow r' (Ok n) /\
    ((0 < n /\ future <> [] /\ query_ r' = Some query /\ in_progress r' future)
     \/ (n = 0 /\ input_ r' ++ future = rest /\ idle r' /\ Some (the_query (the_parsed r')) = the_query <$> receive max_post_size p1 body))).
  { intros (r' & n & E & Hx & H). exists r', n. rewrite Hmax in *. split.
    - apply Hread; [done..|]. intros ? [= <-] Hn Hs. destruct H as [(_ & _ & HR)|(-> & _)]; [by apply (r_streaming _ _ _ _ _ _ HR)|done].
    - destruct H as [(H1 & H2 & H3)|H]; [left|by right]. split_and!; [done|done|by apply H3|]. split; [done|by right]. }
  destruct Hp as [Ha|HR].
  - destruct (awaiting_read query p lines text p1 body rest r0 future 0 slow (len (input_ r) + 1)) as [(r' & k & E & Hk & Hf & Hx & Ha')|Hd]; [by rewrite Hmax|done| |by apply Hdel].
    exists r', k. split; [|left; split_and!; [done|done|by apply Ha'|split; [by rewrite Hx|by left]]]. apply Hread; [done..|]. intros ? _ _ Hs. by destruct Hs; apply Ha'.
  - apply Hdel. pose proof (message_parsed _ _ _ _ _ _ Hm) as [Hb1 Hb2]. apply receiving_read; [done|rewrite Hmax; apply Hm|done|done].
Qed.

Lemma message_delivered slow pieces r : query_ r = Some query \/ query_ r = None -> in_progress (with_query query q r) (concat pieces) ->
  exists r' unread, delivers query q slow r pieces r' unread /\ input_ r' ++ concat unread = rest /\ idle r'
  /\ Some (the_query (the_parsed r')) = the_query <$> receive max_post_size p1 body.
Proof using Hm. apply (progress_delivered query q rest in_progress received in_progress_input in_progress_read). Qed.

End Message.

(** A reader between two queries gets a head. *)
Lemma idle_awaiting query q (r : reader) lines tail future : idle r -> input_ r ++ future = lines_text lines ++ crlf ++ tail ->
  awaiting query (set_the_query (the_parsed r) q) lines tail (with_query query q r) future.
Proof using Type.
  intros (H1 & H2 & H3 & H4) Hi. unfold with_query. rewrite H2, bool_decide_false by done. split; cbn; try done. rewrite H3. lia.
Qed.

End Delivery.
