(* ===== verification/HttpReaderForms.v ===== *)
(** * Reading forms

    What [HttpReader] makes of a [multipart/form-data] body: the text of a form
    with fields and files, and that it is read back however its bytes arrive. *)

From S2P Require Import Prelude TdMisc Utf8 TextParser Json IPAddress HttpUrl ByteFlow Query HttpConnection HttpReader HttpReaderChecks HttpReaderMessages.

Import Chars Strings Integers Coding Parser Reader Boundary Flow HttpReader.

(** ** The text of a part *)

(** A parameter of the disposition, in quotes: quotes and backslashes are escaped,
    percent signs and carriage returns are URL-encoded. *)
Definition dquote : ascii := chr 34.
Definition quoted_char (c : ascii) : bytes :=
  if bool_decide (c ∈ ["%"%char; chr 13]) then percent c
  else if bool_decide (c ∈ [dquote; chr 92]) then [chr 92; c] else [c].
Definition quoted (s : bytes) : bytes := [dquote] ++ (s ≫= quoted_char) ++ [dquote].

Inductive form_part :=
| Field (name value : bytes)
| File (name file_name content_type data : bytes).

Definition disposition_text (p : form_part) : bytes :=
  match p with
  | Field name _ => lit "form-data; name=" ++ quoted name
  | File name file_name _ _ => lit "form-data; name=" ++ quoted name ++ lit "; filename=" ++ quoted file_name
  end.
Definition part_head (p : form_part) : list (bytes * bytes) :=
  (lit "Content-Disposition", disposition_text p)
  :: match p with Field _ _ => [] | File _ _ content_type _ => [(lit "Content-Type", content_type)] end.
Definition part_lines (p : form_part) : list bytes := header_text <$> part_head p.
Definition part_data (p : form_part) : bytes := match p with Field _ value => value | File _ _ _ data => data end.

(** What the headers of a part say. *)
Definition part_of (p : form_part) : part :=
  match p with
  | Field name _ => mk_part name (lit "application/octet-stream") [] false
  | File name file_name content_type _ => mk_part name content_type file_name true
  end.

(** A name, a type in one line and without spaces around it. *)
Definition part_name (p : form_part) : bytes := match p with Field name _ => name | File name _ _ _ => name end.
Definition head_ok (p : form_part) : Prop :=
  part_name p <> [] /\ match p with Field _ _ => True | File _ _ content_type _ => trim content_type = content_type /\ chr 13 ∉ content_type end.

Definition escaped (s : bytes) : bytes := s ≫= fun c => if bool_decide (c ∈ ["%"%char; chr 13]) then percent c else [c].

Lemma unquote_plain s rest : Forall (fun c => ord c <> 34 /\ ord c <> 92) s -> unquote (s ++ rest) = prepend s (unquote rest).
Proof.
  induction 1 as [|c s [H1 H2] Hs IH]; [cbn [app]; by destruct (unquote rest) as [[]|]|]. cbn [app unquote].
  rewrite (proj2 (Z.eqb_neq _ _) H1), (proj2 (Z.eqb_neq _ _) H2), IH. by destruct (unquote rest) as [[]|].
Qed.

Lemma unquote_escape c rest : c ∈ [dquote; chr 92] -> unquote (chr 92 :: c :: rest) = prepend [c] (unquote rest).
Proof. done. Qed.

Lemma percent_plain c : Forall (fun x => ord x <> 34 /\ ord x <> 92 /\ x <> chr 13) (percent c).
Proof.
  assert (H : forallb (fun x => negb (ord x =? 34) && negb (ord x =? 92) && negb (bool_decide (x = chr 13))) (percent c) = true) by (revert c; all_chars).
  apply Forall_forall. intros x Hx. rewrite forallb_forall in H. specialize (H x (proj1 (list_elem_of_In _ _) Hx)).
  apply andb_true_iff in H as [[H1 H2]%andb_true_iff H3]. rewrite negb_true_iff in *. by rewrite Z.eqb_neq, bool_decide_eq_false in *.
Qed.

Lemma unquote_quoted s rest : unquote ((s ≫= quoted_char) ++ dquote :: rest) = Ok (escaped s, rest).
Proof.
  induction s as [|c s IH]; [done|]. unfold escaped in *. rewrite !bind_cons, <- app_assoc. unfold quoted_char at 1.
  case_bool_decide as H1; [|case_bool_decide as H2].
  - rewrite unquote_plain, IH; [done|]. eapply Forall_impl; [apply percent_plain|]. naive_solver.
  - cbn [app]. rewrite unquote_escape by done. by rewrite IH.
  - rewrite unquote_plain, IH; [done|]. repeat constructor; intros E; apply H2; rewrite <- (chr_ord c), E; set_solver.
Qed.

Lemma escaped_decode s : url_decode (escaped s) false = s.
Proof.
  induction s as [|c s IH]; [done|]. unfold escaped in *. rewrite bind_cons. case_bool_decide as H.
  - by rewrite percent_decode, IH.
  - cbn [app url_decode]. rewrite decide_False by (intros ->; apply H; set_solver). by rewrite IH.
Qed.

Lemma quoted_line s : chr 13 ∉ quoted s.
Proof.
  unfold quoted. rewrite !elem_of_app, list_elem_of_bind. intros [?|[(c & Hc & _)|?]]; [by apply (bool_decide_eq_false_1 (chr 13 ∈ [dquote]))| |by apply (bool_decide_eq_false_1 (chr 13 ∈ [dquote]))].
  revert Hc. unfold quoted_char. case_bool_decide as H1; [|case_bool_decide as H2].
  - intros Hc. pose proof (percent_plain c) as Hp. rewrite Forall_forall in Hp. by destruct (Hp _ Hc) as (_ & _ & []).
  - intros [E|E]%elem_of_cons; [by vm_compute in E|]. apply list_elem_of_singleton in E. apply H1. rewrite <- E. set_solver.
  - intros E%list_elem_of_singleton. apply H1. rewrite <- E. set_solver.
Qed.

(** ** The headers of a part *)

Lemma drop_spaces_head c s : is_space c = false -> drop_spaces (c :: s) = c :: s.
Proof. intros H. cbn [drop_spaces]. by rewrite H. Qed.

(** [trim] of a text that begins and ends with other characters. *)
Lemma trim_ends c s d : is_space c = false -> is_space d = false -> trim (c :: s ++ [d]) = c :: s ++ [d].
Proof.
  intros H1 H2. unfold trim. rewrite drop_spaces_head by done. rewrite app_comm_cons, reverse_app. cbn [reverse app].
  change (reverse [d] ++ ?x) with (d :: x). rewrite drop_spaces_head by done. change (d :: ?x) with ([d] ++ x). by rewrite reverse_app, reverse_involutive.
Qed.

Lemma trim_space s : trim (" "%char :: s) = trim s.
Proof. done. Qed.

(** The value of a parameter in quotes, and what follows. *)
Lemma disposition_value_quoted s rest : disposition_value (quoted s ++ rest) =
  match drop_spaces rest with
  | [] => Ok (escaped s, [])
  | c :: v => if decide (c = ";"%char) then Ok (escaped s, v) else error 400 "Bad Request: expected ';' in Content-Disposition header"
  end.
Proof.
  unfold disposition_value, quoted. rewrite <- !app_assoc. cbn [app]. rewrite drop_spaces_head by done. change (ord dquote =? 34) with true. cbn iota.
  by rewrite unquote_quoted.
Qed.

Lemma disposition_end fuel p : disposition (S fuel) [] p = Some (Ok p).
Proof. done. Qed.

(** One parameter of the disposition. *)
Lemma disposition_quoted fuel key s rest p : Forall (fun c => is_space c = false /\ c <> "="%char) key -> key <> [] ->
  (rest = [] \/ exists v d, rest = lit "; " ++ v ++ [d] /\ is_space d = false) ->
  disposition (S fuel) (" "%char :: key ++ lit "=" ++ quoted s ++ rest) p
  = disposition fuel (match rest with [] => [] | _ :: v => v end) (set_parameter p key s).
Proof.
  intros Hk Hne Hr. cbn [disposition]. cbn zeta. rewrite trim_space.
  assert (Htrim : trim (key ++ lit "=" ++ quoted s ++ rest) = key ++ lit "=" ++ quoted s ++ rest).
  { destruct Hk as [|c key [Hc _] _]; [done|]. assert (exists t d, quoted s ++ rest = t ++ [d] /\ is_space d = false) as (t & d & -> & Hd).
    { destruct Hr as [->|(v & d & -> & Hd)]; [exists ([dquote] ++ (s ≫= quoted_char)), dquote; unfold quoted; by rewrite app_nil_r, <- app_assoc|].
      exists (quoted s ++ lit "; " ++ v), d. by rewrite <- !app_assoc. }
    cbn [app]. rewrite !app_assoc. by apply trim_ends. }
  rewrite Htrim. change (lit "=" ++ ?x) with ("="%char :: x). rewrite find_app by (intros E; by apply (proj1 (Forall_forall _ _) Hk) in E as [_ []]).
  rewrite take_app_length. change ("="%char :: ?x) with (["="%char] ++ x). rewrite app_assoc, (drop_app_length' _ _ (S (length key))) by (rewrite length_app; cbn; lia).
  rewrite disposition_value_quoted.
  assert (Htk : trim key = key).
  { destruct key as [|d k _] using rev_ind; [done|].
    apply Forall_app in Hk as [Hk [Hd _]%Forall_inv]. destruct Hk as [|c k [Hc _] _]; [|by apply trim_ends].
    unfold trim. cbn [app]. rewrite drop_spaces_head by done. change (reverse [d]) with [d]. by rewrite drop_spaces_head. }
  rewrite Htk. destruct Hr as [->|(v & d & -> & _)]; cbn [drop_spaces app]; [by rewrite escaped_decode|].
  change (lit "; " ++ ?x) with (";"%char :: " "%char :: x). cbn [drop_spaces]. change (is_space ";"%char) with false. cbn iota. rewrite decide_True by done. by rewrite escaped_decode.
Qed.

Lemma trim_disposition p : trim (" "%char :: disposition_text p) = disposition_text p.
Proof.
  rewrite trim_space. assert (exists t, disposition_text p = "f"%char :: t ++ [dquote]) as (t & ->); [|by apply trim_ends].
  destruct p as [n v|n f t d]; cbn [disposition_text]; unfold quoted.
  - exists (lit "orm-data; name=" ++ [dquote] ++ (n ≫= quoted_char)). by rewrite <- !app_assoc.
  - exists (lit "orm-data; name=" ++ ([dquote] ++ (n ≫= quoted_char) ++ [dquote]) ++ lit "; filename=" ++ [dquote] ++ (f ≫= quoted_char)). by rewrite <- !app_assoc.
Qed.

Lemma part_disposition p : part_header new_part (lit "Content-Disposition") (" "%char :: disposition_text p) =
  Some (Ok (match p with Field name _ => mk_part name (lit "application/octet-stream") [] false
                       | File name file_name _ _ => mk_part name (lit "application/octet-stream") file_name true end)).
Proof.
  unfold part_header. cbn zeta. rewrite trim_disposition. change (to_lower (trim (lit "Content-Disposition"))) with (lit "content-disposition").
  rewrite bool_decide_true by done. assert (Hk : forall k, k ∈ [lit "name"; lit "filename"] -> Forall (fun c => is_space c = false /\ c <> "="%char) k /\ k <> []).
  { intros k [->|[->|[]%elem_of_nil]%elem_of_cons]%elem_of_cons; (split; [|done]); repeat constructor; done. }
  destruct p as [n v|n f t d]; cbn [disposition_text].
  - change (lit "form-data; name=" ++ ?x) with (lit "form-data;" ++ " "%char :: lit "name" ++ lit "=" ++ x).
    set (rest := " "%char :: _). change (take 10 (lit "form-data;" ++ rest)) with (lit "form-data;"). rewrite bool_decide_true by done. cbn [negb].
    change (drop 10 (lit "form-data;" ++ rest)) with rest. subst rest. rewrite <- (app_nil_r (quoted n)).
    rewrite disposition_quoted by (first [apply Hk; set_solver|by left]). done.
  - change (lit "form-data; name=" ++ ?x) with (lit "form-data;" ++ " "%char :: lit "name" ++ lit "=" ++ x).
    set (rest := " "%char :: _). change (take 10 (lit "form-data;" ++ rest)) with (lit "form-data;"). rewrite bool_decide_true by done. cbn [negb].
    change (drop 10 (lit "form-data;" ++ rest)) with rest. assert (length (lit "form-data;" ++ rest) = S (length rest + 9)) as -> by (rewrite length_app; cbn; lia).
    subst rest. rewrite disposition_quoted; [|by apply Hk; set_solver..|].
    + change (lit "; filename=" ++ ?x) with (";"%char :: " "%char :: lit "filename" ++ lit "=" ++ x). cbn iota.
      rewrite Nat.add_comm. cbn [Nat.add]. rewrite <- (app_nil_r (quoted f)). rewrite disposition_quoted by (first [apply Hk; set_solver|by left]). done.
    + right. exists (lit "filename=" ++ [dquote] ++ (f ≫= quoted_char)), dquote. unfold quoted. rewrite <- !app_assoc. done.
Qed.

Lemma part_head_ok p : head_ok p -> Forall header_ok (part_head p).
Proof.
  intros [_ H]. assert (Hd : forall x, header_ok (lit "Content-Disposition", x) <-> chr 13 ∉ x).
  { intros x. unfold header_ok. cbn [fst snd]. split; [by intros (_ & _ & ? & _)|]. intros Hx.
    split; [by apply (bool_decide_eq_false_1 (":"%char ∈ lit "Content-Disposition"))|]. split; [by apply (bool_decide_eq_false_1 (chr 13 ∈ lit "Content-Disposition"))|done]. }
  constructor.
  - apply Hd. destruct p as [n v|n f t d]; cbn [disposition_text]; rewrite !elem_of_app.
    + intros [?|?%quoted_line]; [|done]. by apply (bool_decide_eq_false_1 (chr 13 ∈ lit "form-data; name=")).
    + intros [?|[?%quoted_line|[?|?%quoted_line]]]; [|done| |done]; [by apply (bool_decide_eq_false_1 (chr 13 ∈ lit "form-data; name="))|by apply (bool_decide_eq_false_1 (chr 13 ∈ lit "; filename="))].
  - destruct p as [n v|n f t d]; [done|]. constructor; [|done]. unfold header_ok. cbn [fst snd].
    split; [by apply (bool_decide_eq_false_1 (":"%char ∈ lit "Content-Type"))|]. split; [by apply (bool_decide_eq_false_1 (chr 13 ∈ lit "Content-Type"))|]. by split; [apply H|].
Qed.

Lemma part_headers_end fuel p : field_name_ p <> [] -> part_headers (S fuel) p (init []) = Some (Ok p).
Proof. intros H. cbn [part_headers]. change (has_error (init [])) with false. change (data (init [])) with (@nil ascii). rewrite (bool_decide_true ([] = [])) by done. cbn [negb andb]. by rewrite bool_decide_false. Qed.

Lemma part_headers_step fuel p p' k v rest : header_ok (k, v) -> no_fold rest -> part_header p k (" "%char :: v) = Some (Ok p') ->
  part_headers (S fuel) p (init (header_text (k, v) ++ crlf ++ rest)) = part_headers fuel p' (init rest).
Proof.
  intros Hh Hr Hp. cbn [part_headers]. rewrite has_error_init.
  rewrite (bool_decide_false (data _ = [])) by by destruct (header_line_ok (k, v) Hh) as [? _]; destruct (header_text (k, v)).
  cbn [negb andb]. rewrite read_header_text by done. cbn [mbind option_bind]. by rewrite Hp.
Qed.

Lemma part_headers_read p : head_ok p ->
  part_headers (S (length (lines_text (part_lines p)))) new_part (init (lines_text (part_lines p))) = Some (Ok (part_of p)).
Proof.
  intros H. pose proof (part_head_ok p H) as Hh. destruct H as [Hn H]. unfold part_lines, part_head in *. apply Forall_cons in Hh as [Hd Ht]. set (hs := match p with Field _ _ => [] | _ => _ end) in *.
  change (lines_text (header_text <$> ?h :: hs)) with ((header_text h ++ crlf) ++ lines_text (header_text <$> hs)). rewrite <- app_assoc.
  erewrite part_headers_step; [|done|by apply headers_no_fold|apply part_disposition]. rewrite !length_app. change (length crlf) with 2%nat.
  destruct p as [n v|n f t d]; subst hs.
  - rewrite Nat.add_comm. by apply part_headers_end.
  - change (lines_text (header_text <$> [?h])) with ((header_text h ++ crlf) ++ []). rewrite app_nil_r, length_app, <- (app_nil_r (_ ++ crlf)), <- app_assoc.
    apply Forall_cons in Ht as [Ht _]. destruct H as [H1 H2]. rewrite Nat.add_comm. cbn [length crlf Nat.add]. rewrite <- !plus_n_Sm. cbn [Nat.add].
    erewrite part_headers_step; [|done|done|].
    2:{ unfold part_header. cbn zeta. rewrite trim_space, H1. change (to_lower (trim (lit "Content-Type"))) with (lit "content-type").
      rewrite (bool_decide_false (lit "content-type" = lit "content-disposition")) by done. by rewrite bool_decide_true. }
    by apply part_headers_end.
Qed.

(** ** Forms *)

Definition first_at (s b : bytes) (l : nat) : Prop := occurs s b l /\ forall j, (j < l)%nat -> ~ occurs s b j.

(** The end of a part: the line end before the boundary belongs to it. *)
Definition delimiter (b : bytes) : bytes := crlf ++ lit "--" ++ b.

(** After the boundary before the first of these parts. *)
Fixpoint parts_text (b : bytes) (ps : list form_part) (epilogue : bytes) : bytes :=
  match ps with
  | [] => lit "--" ++ epilogue
  | p :: ps => crlf ++ lines_text (part_lines p) ++ crlf ++ part_data p ++ delimiter b ++ parts_text b ps epilogue
  end.
Definition form_text (b prologue : bytes) (ps : list form_part) (epilogue : bytes) : bytes :=
  prologue ++ lit "--" ++ b ++ parts_text b ps epilogue.

Definition is_file (p : form_part) : bool := match p with Field _ _ => false | File _ _ _ _ => true end.

(** A part that can be read: the delimiter is not in its data, and the limits for
    one part hold; [total] is the length of the parameters before the form. *)
Definition part_ok (b : bytes) (total : Z) (p : form_part) : Prop :=
  head_ok p /\ first_at (part_data p ++ delimiter b) (delimiter b) (length (part_data p))
  /\ match p with
     | Field _ value => total + len value <= MAX_TOTAL_PARAMETERS_LENGTH
     | File _ _ _ data => len data <= MAX_FILE_SIZE
     end.

Definition headers_length (ps : list form_part) : Z := foldr (fun p n => len (lines_text (part_lines p)) + n) 0 ps.

Lemma headers_length_nonneg ps : 0 <= headers_length ps.
Proof.
  induction ps as [|p ps IH]; [done|]. change (headers_length (p :: ps)) with (len (lines_text (part_lines p)) + headers_length ps).
  pose proof (len_nonneg (lines_text (part_lines p))). lia.
Qed.

(** The arguments and the files of a query, and the temporary files with what was
    written to them, that parts make. *)
Inductive outcome : list form_part -> list (bytes * bytes) -> list http_file -> list (bytes * bytes) -> Prop :=
| outcome_nil : outcome [] [] [] []
| outcome_field ps args fs ws name value : outcome ps args fs ws ->
    outcome (ps ++ [Field name value]) (args ++ [(name, value)]) fs ws
| outcome_file ps args fs ws name file_name content_type data temp : outcome ps args fs ws ->
    outcome (ps ++ [File name file_name content_type data]) args
      (fs ++ [mk_http_file name file_name content_type (len data) temp]) (ws ++ [(temp, data)]).

(** Every file that was created, with its content. *)
Definition append_last (l : list (bytes * bytes)) (d : bytes) : list (bytes * bytes) :=
  match last l with Some (n, w) => take (length l - 1) l ++ [(n, w ++ d)] | None => l end.
Definition written (acts : list file_action) : list (bytes * bytes) :=
  foldl (fun l a => match a with OpenFile n => l ++ [(n, [])] | WriteFile _ d => append_last l d | _ => l end) [] acts.

Lemma append_last_snoc l n w d : append_last (l ++ [(n, w)]) d = l ++ [(n, w ++ d)].
Proof. unfold append_last. rewrite last_snoc, length_app. cbn [length]. by rewrite Nat.add_sub, take_app_length. Qed.

(** A system in which nothing fails. *)
Record env_works (e : env) : Prop := {
  has_directory : temporary_dir e <> [];
  realpath_works : forall n d, exists d', realpath e n d = Ok d' /\ d' <> [];
  mkdtemp_works : forall n d p, exists d', mkdtemp e n d p = Ok d' /\ d' <> [];
  open_works : forall n name, open_file e n name = Ok tt;
  write_works : forall n s, write_file e n s = Ok (len s);
}.

Lemma open_temp_works e t desired : env_works e -> temp_file_ t = false ->
  exists t' n, open_temp_file e t desired = Some (t', Ok tt) /\ temp_file_ t' = true /\ temp_file_name_ t' = n /\ file_size_ t' = 0
  /\ written (out t') = written (out t) ++ [(n, [])].
Proof.
  intros [H1 H2 H3 H4 H5] Hc. unfold open_temp_file. rewrite Hc, bool_decide_false by done. cbn zeta.
  destruct (H2 (asked t) (temporary_dir e)) as (d & -> & Hd). rewrite bool_decide_false by done.
  destruct (H3 (asked (ask t)) d TEMP_DIRECTORY_PREFIX) as (d' & -> & Hd'). unfold try_open_temp_file.
  change (temp_file_ (emit _ _)) with (temp_file_ t). rewrite Hc, bool_decide_false by done. cbn [orb]. cbn zeta. rewrite H4. cbn [mbind option_bind].
  eexists _, _. split; [done|]. split; [done|]. split; [done|]. split; [done|]. cbn. unfold written. by rewrite !foldl_app.
Qed.

Lemma save_file_works e t s l n w : env_works e -> temp_file_ t = true -> file_size_ t = len w -> len w + len s <= MAX_FILE_SIZE ->
  written (out t) = l ++ [(n, w)] ->
  exists t', save_file_part e t s = Some (t', Ok tt) /\ temp_file_ t' = true /\ temp_file_name_ t' = temp_file_name_ t /\ file_size_ t' = len (w ++ s)
  /\ written (out t') = l ++ [(n, w ++ s)].
Proof.
  intros [_ _ _ _ H5] Ho Hs Hm Hw. unfold save_file_part. cbn zeta. cbn [file_size_ set_file_size_]. rewrite Hs, ltb_false by lia. rewrite H5, Z.eqb_refl.
  eexists. split; [done|]. split; [done|]. split; [done|]. split; [by rewrite len_app|]. cbn. unfold written in *. rewrite foldl_app. cbn. rewrite Hw. apply append_last_snoc.
Qed.

(** ** Reading *)

Lemma first_drop s b l n : first_at s b l -> (n <= l)%nat -> first_at (drop n s) b (l - n).
Proof.
  intros [H1 H2] Hn. split; [apply occurs_drop; by replace (n + (l - n))%nat with l by lia|].
  intros j Hj Ho%occurs_drop. apply (H2 (n + j)%nat); [lia|done].
Qed.

Lemma first_found s b l : b <> [] -> find_loop s b 0 = (true, l) -> first_at s b l.
Proof.
  intros Hb E. apply find_loop_spec in E as (_ & H2 & H3); [|done]. rewrite Nat.sub_0_r in *. split; [done|].
  intros j Hj Ho. apply (H2 [] j Hj). by rewrite app_nil_r.
Qed.

Lemma occurs_app s t b i : b <> [] -> (i + length b <= length s)%nat -> occurs (s ++ t) b i <-> occurs s b i.
Proof. intros Hb Hl. unfold occurs. rewrite drop_app_le by lia. by rewrite take_app_le by (rewrite length_drop; lia). Qed.

Lemma first_app s t b l : b <> [] -> first_at s b l -> first_at (s ++ t) b l.
Proof.
  intros Hb [H1 H2]. pose proof (occurs_length _ _ _ Hb H1). split; [by apply occurs_app|]. intros j Hj Ho%occurs_app; [|done|lia]. by apply (H2 j).
Qed.

(** The search in the bytes that are there, of a stream in which the boundary is
    first at [l]. *)
Lemma find_first b s input future n l : (0 < length b <= 74)%nat -> first_at s b l -> input ++ future = s -> (n <= l)%nat ->
  exists ok m, find_boundary input b n = Some (ok, m) /\
  if ok : bool then m = l /\ (l + length b <= length input)%nat
  else (n <= m <= l)%nat /\ (length input < m + length b)%nat /\ (n <= length input -> m <= length input)%nat /\ future <> [].
Proof.
  intros Hb [H1 H2] Hs Hn. assert (Hne : b <> []) by (intros ->; cbn in Hb; lia).
  pose proof (find_resumes b s input future n l Hne H1 H2 Hs Hn) as F. unfold find_boundary. change (Boundary.MAX_BOUNDARY_LENGTH + 4)%nat with 74%nat.
  rewrite (proj2 (Nat.leb_le _ _)) by lia. destruct (find_loop (drop n input) b n) as [ok m] eqn:E. exists ok, m. split; [done|]. destruct ok; [done|].
  destruct F as (F1 & F2 & F3). apply find_loop_spec in E as (E1 & _ & E3); [|done]. rewrite length_drop in *. split_and!; try lia; done.
Qed.

(** After a delimiter: the end of the headers of the first part. *)
Lemma head_first p rest : head_ok p ->
  first_at (crlf ++ lines_text (part_lines p) ++ crlf ++ rest) (crlf ++ crlf) (length (lines_text (part_lines p))) /\ lines_text (part_lines p) <> [].
Proof.
  intros Hp. assert (Hl : Forall line_ok (part_lines p)).
  { unfold part_lines. apply Forall_fmap. eapply Forall_impl; [by apply part_head_ok|]. apply header_line_ok. }
  assert (Hne : part_lines p <> []) by done. destruct (blank_line (part_lines p) rest Hne Hl) as (B1 & B2 & B3). cbn zeta in *.
  split; [|intros E; rewrite E in B3; cbn in B3; lia]. set (T := lines_text (part_lines p)) in *. split.
  - replace (length T) with (length crlf + (length T - 2))%nat by (cbn; lia). by apply occurs_skip.
  - intros j Hj. destruct (decide (2 <= j)%nat) as [?|?].
    + replace j with (length crlf + (j - 2))%nat by (cbn; lia). rewrite occurs_skip. apply B2. lia.
    + destruct j as [|[|j]]; [| |lia].
      * assert (exists c T', T = c :: T' /\ c <> chr 13) as (c & T' & -> & Hc); [|cbn; by intros [= ? _]].
        subst T. destruct (part_lines p) as [|x l]; [done|]. apply Forall_cons in Hl as [[Hx Hcr] _]. destruct x as [|c x]; [done|]. exists c, (x ++ crlf ++ lines_text l). split; [cbn; by rewrite <- app_assoc|].
        intros ->. apply Hcr, list_elem_of_here.
      * by cbn.
Qed.

(** The parts of a query that come from the head. *)
Definition same_head (q q' : http_query) : Prop :=
  hq_type q = hq_type q' /\ hq_code q = hq_code q' /\ hq_url_path q = hq_url_path q' /\ hq_reason q = hq_reason q'
  /\ hq_keep_alive q = hq_keep_alive q' /\ hq_headers q = hq_headers q' /\ hq_content q = hq_content q' /\ hq_peer_address q = hq_peer_address q'.

Section Reading.
Context (e : env) (He : env_works e) (max_files : Z) (ready can_be_slow : bool) (b epilogue : bytes) (all : list form_part).
Context (total : Z) (args0 ws0 : list (bytes * bytes)) (q1 : http_query) (Hb : (1 <= length b <= 70)%nat).

(** The parts that are done, and those that come; [hs] are the parts with headers
    that come, [open] is the file that is open. *)
Record facts (m : multipart) (done ps hs : list form_part) (opened : list (bytes * bytes)) : Prop := {
  f_boundary : boundary_ (m_form m) = delimiter b;
  f_total : total_parameters_length_ (m_parsed m) = total;
  f_all : all = done ++ ps;
  f_ok : Forall (part_ok b total) ps;
  f_headers : m_headers_length m + headers_length hs <= MAX_TOTAL_HEADERS_LENGTH;
  f_files : len (hq_files (the_query (m_parsed m))) + len (filter is_file ps) <= max_files;
  f_same : same_head (the_query (m_parsed m)) q1;
  f_open : temp_file_ (m_temp m) = negb (bool_decide (opened = []));
  f_outcome : exists args ws, outcome done args (hq_files (the_query (m_parsed m))) ws /\ hq_args (the_query (m_parsed m)) = args0 ++ args
    /\ written (out (m_temp m)) = ws0 ++ ws ++ opened;
}.

Definition pending (tail : bytes) (m : multipart) : Prop :=
  let s := m_content m ++ tail in
  let n := form_data_read_length_ (m_form m) in
  exists done ps,
  match form_data_parse_state_ (m_form m) with
  | SkipPrologue => facts m done ps ps [] /\ n = O /\ ps <> []
      /\ exists l, first_at s (lit "--" ++ b) l /\ drop (l + length (lit "--" ++ b)) s = parts_text b ps epilogue
  | ReadPartHeaders => facts m done ps ps [] /\ s = parts_text b ps epilogue
      /\ match ps with p :: _ => (n <= length (lines_text (part_lines p)))%nat | [] => False end
  | ReadPartValue => exists name value, facts m done (Field name value :: ps) ps [] /\ the_part (m_form m) = part_of (Field name value)
      /\ s = value ++ delimiter b ++ parts_text b ps epilogue /\ (n <= length value)%nat
  | ReadFile => exists name file_name content_type data w opened,
      facts m done (File name file_name content_type (w ++ data) :: ps) ps opened /\ the_part (m_form m) = part_of (File name file_name content_type (w ++ data))
      /\ file_field_name_ (m_form m) = name
      /\ (opened = [] /\ w = [] \/ opened = [(temp_file_name_ (m_temp m), w)] /\ file_size_ (m_temp m) = len w)
      /\ s = data ++ delimiter b ++ parts_text b ps epilogue /\ n = O
  | CheckForLastBoundary => facts m done ps ps [] /\ s = parts_text b ps epilogue /\ n = O
  | SkipEpilogue => facts m done [] [] [] /\ n = O
  end.

(** A turn goes on, or waits for bytes of the tail, or has read everything. *)
Definition turn_pending (tail : bytes) (m : multipart) (r : option (multipart * turn)) : Prop :=
  exists m' t, r = Some (m', t) /\ pending tail m' /\
  match t with
  | Continue => (m_measure m' < m_measure m)%nat
  | Return finished => form_data_parse_state_ (m_form m') = SkipEpilogue /\ finished = ready \/ tail <> [] /\ finished = false
  | Error err => err = slow /\ can_be_slow = false
  end.

Local Ltac shrinks Hst := unfold m_measure; cbn -[Nat.mul length]; rewrite Hst, ?length_drop;
  repeat match goal with H : m_content _ = _ |- _ => rewrite H end; cbn -[Nat.mul] in *; lia.

Lemma delimiter_length : length (delimiter b) = (4 + length b)%nat.
Proof using Type. done. Qed.

Lemma skip_prologue_pending tail m : pending tail m -> form_data_parse_state_ (m_form m) = SkipPrologue -> turn_pending tail m (skip_prologue m).
Proof using Hb.
  intros (done & ps & H) Hst. rewrite Hst in H. destruct H as (F & Hn & Hps & l & Hl & Hd). unfold skip_prologue. rewrite Hn.
  rewrite (f_boundary _ _ _ _ _ F). change (drop 2 (delimiter b)) with (lit "--" ++ b).
  destruct (find_first (lit "--" ++ b) _ (m_content m) tail 0 l ltac:(cbn; lia) Hl eq_refl ltac:(lia)) as (ok & n & -> & Hf). cbn [mbind option_bind].
  destruct F as [F1 F2 F3 F4 F5 F6 Fq F7 F8]. destruct ok.
  - destruct Hf as [-> Hf]. eexists _, _. split; [done|]. split; [|shrinks Hst]. exists done, ps. cbn [form_data_parse_state_ skip_form set_form_data_parse_state_ m_form].
    split; [by split|]. cbn [m_content]. rewrite <- drop_app_le by done. split; [done|]. destruct ps; [done|]. cbn. lia.
  - destruct Hf as (Hn1 & Hf & Hm & Ht). specialize (Hm ltac:(lia)). eexists _, _. split; [done|]. split; [|by right].
    exists done, ps. cbn [form_data_parse_state_ skip_form set_form_data_parse_state_ m_form m_content].
    split; [by split|]. split; [done|]. split; [done|]. rewrite <- drop_app_le by done. exists (l - n)%nat. split; [apply first_drop; [done|lia]|].
    rewrite drop_drop. by replace (n + (l - n + length (lit "--" ++ b)))%nat with (l + length (lit "--" ++ b))%nat by lia.
Qed.

Lemma check_for_last_boundary_pending tail m : pending tail m -> form_data_parse_state_ (m_form m) = CheckForLastBoundary -> turn_pending tail m (check_for_last_boundary m).
Proof using Hb.
  intros (done & ps & H) Hst. rewrite Hst in H. destruct H as (F & Hs & Hn). unfold check_for_last_boundary. pose proof F as [F1 F2 F3 F4 F5 F6 Fq F7 F8].
  assert (Hshort : (length (m_content m) < 2)%nat -> tail <> []).
  { intros Hl ->. rewrite app_nil_r in Hs. rewrite Hs in Hl. destruct ps; cbn in Hl; lia. }
  assert (Hwait : (length (m_content m) < 2)%nat -> turn_pending tail m (Some (m, Return false))).
  { intros Hl. eexists _, _. split; [done|]. split; [|right; split; [by apply Hshort|done]]. exists done, ps. by rewrite Hst. }
  destruct (m_content m) as [|x [|y s]] eqn:Es; [apply Hwait; cbn; lia..|].
  destruct ps as [|p ps].
  - cbn in Hs. injection Hs as -> -> Hs. cbn [bool_decide andb]. eexists _, _. split; [done|]. split; [|shrinks Hst]. exists done, []. cbn. by split.
  - cbn in Hs. injection Hs as -> -> Hs. rewrite bool_decide_false by done. cbn [andb]. eexists _, _. split; [done|]. split; [|shrinks Hst].
    exists done, (p :: ps). cbn [form_data_parse_state_ set_form_data_parse_state_ m_form m_content]. split; [by split|]. split; [by cbn; rewrite Hs|]. cbn. rewrite Hn. lia.
Qed.

Lemma skip_epilogue_pending tail m : pending tail m -> form_data_parse_state_ (m_form m) = SkipEpilogue -> turn_pending tail m (Some (skip_epilogue ready m)).
Proof using Type.
  intros (done & ps & H) Hst. rewrite Hst in H. destruct H as ([F1 F2 F3 F4 F5 F6 Fq F7 F8] & Hn). eexists _, _. split; [done|]. split; [|by left].
  exists done, ps. cbn. rewrite Hst. by split.
Qed.

(** Some of what is known of the parts that come. *)
Lemma delimiter_short : (0 < length (delimiter b) <= 74)%nat.
Proof using Hb. rewrite delimiter_length. lia. Qed.

Lemma part_data_first p s : part_ok b total p -> first_at (part_data p ++ delimiter b ++ s) (delimiter b) (length (part_data p)).
Proof using Hb. intros (_ & H & _). rewrite app_assoc. by apply first_app. Qed.

Lemma after_data (d s : bytes) : drop (length d + length (delimiter b)) (d ++ delimiter b ++ s) = s.
Proof using Type. rewrite app_assoc. apply drop_app_length'. by rewrite length_app. Qed.

Lemma read_part_value_pending tail m : pending tail m -> form_data_parse_state_ (m_form m) = ReadPartValue -> turn_pending tail m (read_part_value m).
Proof using Hb.
  intros (done & ps & H) Hst. rewrite Hst in H. destruct H as (name & value & F & Hp & Hs & Hn). unfold read_part_value.
  pose proof F as [F1 F2 F3 F4 F5 F6 Fq F7 (args & ws & O1 & O2 & O3)]. rewrite F1. apply Forall_cons in F4 as [Fp F4].
  pose proof (part_data_first _ (parts_text b ps epilogue) Fp) as Hfirst. cbn [part_data] in Hfirst. rewrite <- Hs in Hfirst.
  destruct (find_first _ _ _ _ _ _ delimiter_short Hfirst eq_refl Hn) as (ok & n & -> & Hf). cbn [mbind option_bind]. destruct Fp as (_ & _ & Hlim).
  assert (Hlarge : (n <= length value)%nat -> (MAX_TOTAL_PARAMETERS_LENGTH <? total_parameters_length_ (m_parsed m) + Z.of_nat n) = false)
    by (intros; apply Z.ltb_ge; unfold len in Hlim; lia).
  destruct ok.
  - destruct Hf as [-> Hf]. rewrite Hlarge by done. cbn zeta. change (the_part (skip_form (m_form m) _ _)) with (the_part (m_form m)). rewrite Hp.
    change (begins_with _ _) with false. cbn iota. assert (Hv : take (length value) (m_content m) = value).
    { rewrite <- (take_app_le _ tail), Hs by (rewrite delimiter_length in Hf; lia). apply take_app_length. }
    eexists _, _. split; [done|]. split; [|shrinks Hst]. exists (done ++ [Field name value]), ps. cbn [form_data_parse_state_ set_form_data_parse_state_ m_form m_content].
    rewrite <- drop_app_le by done. split; [|split; [rewrite Hs; apply after_data|done]]. rewrite Hv. split; cbn; try done.
    + by rewrite F2, Z.add_0_r.
    + by rewrite <- app_assoc.
    + exists (args ++ [(name, value)]), ws. split; [by constructor|]. split; [by rewrite O2, app_assoc|done].
  - destruct Hf as (Hn1 & Hf & _ & Ht). rewrite (proj2 (Nat.ltb_lt _ _)) by done. rewrite Hlarge by lia. eexists _, _. split; [done|]. split; [|by right].
    exists done, ps. cbn. rewrite Hst. exists name, value. split; [by destruct F; split|]. split_and!; [done|done|lia].
Qed.

Lemma read_part_headers_pending tail m : pending tail m -> form_data_parse_state_ (m_form m) = ReadPartHeaders -> turn_pending tail m (read_part_headers max_files m).
Proof using Hb.
  intros (done & ps & H) Hst. rewrite Hst in H. destruct H as (F & Hs & Hn). destruct ps as [|p ps]; [done|]. unfold read_part_headers.
  pose proof F as [F1 F2 F3 F4 F5 F6 Fq F7 F8]. pose proof F4 as Fall. apply Forall_cons in F4 as [Fp F4]. pose proof Fp as (Hhead & _). cbn [parts_text] in Hs.
  destruct (head_first p (part_data p ++ delimiter b ++ parts_text b ps epilogue) Hhead) as [Hfirst Hne].
  set (rest := part_data p ++ delimiter b ++ parts_text b ps epilogue) in *. set (lines := lines_text (part_lines p)) in *. rewrite <- Hs in Hfirst.
  destruct (find_first (crlf ++ crlf) _ (m_content m) tail _ _ ltac:(cbn; lia) Hfirst eq_refl Hn) as (ok & n & -> & Hf). cbn [mbind option_bind].
  pose proof (headers_length_nonneg ps) as Hps.
  change (headers_length (p :: ps)) with (len lines + headers_length ps) in F5.
  assert (Hlim : (n <= length lines)%nat -> (MAX_TOTAL_HEADERS_LENGTH <? m_headers_length m + Z.of_nat n) = false) by (intros; apply Z.ltb_ge; unfold len in F5; lia).
  destruct ok.
  - destruct Hf as [-> Hf]. rewrite Hlim by done. rewrite (proj2 (Nat.eqb_neq _ _)) by (destruct lines; [done|cbn; lia]). cbn [m_temp].
    rewrite F7. cbn [bool_decide negb]. cbn zeta. cbn [m_content m_parsed m_form]. change (length (crlf ++ crlf)) with 4%nat in Hf.
    assert (Hhd : take (length lines) (drop 2 (m_content m)) = lines).
    { rewrite <- (take_app_le _ tail) by (rewrite length_drop; lia). rewrite <- drop_app_le, Hs by lia. change (drop 2 (crlf ++ ?x)) with x. apply take_app_length. }
    pose proof (part_headers_read p Hhead) as Hread. fold lines in Hread. rewrite Hhd, Hread. cbn [mbind option_bind].
    assert (Hrest : drop (length lines + 4) (m_content m) ++ tail = rest).
    { rewrite <- drop_app_le, Hs by lia. rewrite (app_assoc lines), (app_assoc crlf). apply drop_app_length'. rewrite !length_app. cbn. lia. }
    clearbody lines. destruct p as [name value|name file_name content_type data]; cbn [part_of has_file_name_].
    + eexists _, _. split; [done|]. split; [|shrinks Hst]. exists done, ps. cbn -[filter headers_length]. exists name, value. split; [|by split_and!; [..|lia]].
      split; try done. cbn [m_headers_length]. unfold len in *. lia.
    + rewrite filter_cons_True, len_cons in F6 by done. pose proof (len_nonneg (filter is_file ps)). rewrite (proj2 (Z.eqb_neq _ _)) by lia.
      eexists _, _. split; [done|]. split; [|shrinks Hst]. exists done, ps. cbn -[filter headers_length]. exists name, file_name, content_type, data, [], []. cbn [app].
      split; [|by split_and!; [..|left|done|done]]. split; try done; cbn [m_headers_length m_parsed]; [unfold len in *; lia|].
      rewrite filter_cons_True, len_cons by done. lia.
  - destruct Hf as (Hn1 & Hf & _ & Ht). cbn [m_headers_length]. rewrite Hlim by lia. eexists _, _. split; [done|]. split; [|by right].
    exists done, (p :: ps). cbn [form_data_parse_state_ set_form_data_read_length_ m_form m_content form_data_read_length_]. rewrite Hst.
    split; [by destruct F; split|]. split; [done|]. apply Hn1.
Qed.

Lemma read_open_file_pending tail m : pending tail m -> form_data_parse_state_ (m_form m) = ReadFile -> temp_file_ (m_temp m) = true ->
  turn_pending tail m (read_open_file e m).
Proof using Hb He.
  intros (done & ps & H) Hst Hopen. rewrite Hst in H. destruct H as (name & file_name & content_type & data & w & opened & F & Hp & Hname & Ho & Hs & Hn).
  unfold read_open_file. pose proof F as [F1 F2 F3 F4 F5 F6 Fq F7 (args & ws & O1 & O2 & O3)]. rewrite Hopen in F7.
  destruct Ho as [[-> _]|[-> Hsize]]; [done|]. rewrite F1, Hn. pose proof F4 as Fall. apply Forall_cons in F4 as [Fp F4].
  pose proof Fp as (_ & Hfp & Hlim). cbn [part_data] in Hfp. rewrite len_app in Hlim.
  assert (Hfirst : first_at (m_content m ++ tail) (delimiter b) (length data)).
  { rewrite Hs, app_assoc. apply first_app; [done|]. rewrite <- app_assoc in Hfp. apply (first_drop _ _ _ (length w)) in Hfp; [|rewrite length_app; lia].
    rewrite drop_app_length, length_app in Hfp. by replace (length w + length data - length w)%nat with (length data) in Hfp by lia. }
  destruct (find_first _ _ _ _ _ _ delimiter_short Hfirst eq_refl (Nat.le_0_l _)) as (ok & n & -> & Hf). cbn [mbind option_bind].
  destruct ok.
  - destruct Hf as [-> Hf]. assert (Hv : take (length data) (m_content m) = data).
    { rewrite <- (take_app_le _ tail), Hs by lia. apply take_app_length. }
    rewrite Hv. rewrite app_assoc in O3. destruct (save_file_works e _ data _ _ _ He Hopen Hsize Hlim O3) as (t & -> & T1 & T2 & T3 & T4). cbn [mbind option_bind].
    unfold close_temp_file. rewrite T1. cbn [negb mbind option_bind]. eexists _, _. split; [done|]. split; [|shrinks Hst].
    exists (done ++ [File name file_name content_type (w ++ data)]), ps. cbn [form_data_parse_state_ set_form_data_parse_state_ m_form m_content].
    rewrite <- drop_app_le by done. split; [|split; [rewrite Hs; apply after_data|done]].
    change (the_part (skip_form (m_form m) _ _)) with (the_part (m_form m)). change (file_field_name_ (skip_form (m_form m) _ _)) with (file_field_name_ (m_form m)).
    rewrite Hp, Hname, T2, T3. rewrite filter_cons_True, len_cons in F6 by done. split; cbn -[filter]; try done.
    + by rewrite <- app_assoc.
    + rewrite len_app, len_cons, len_nil. lia.
    + exists args, (ws ++ [(temp_file_name_ (m_temp m), w ++ data)]). split; [by constructor|]. split; [done|].
      unfold written in *. rewrite foldl_app. cbn. by rewrite T4, app_nil_r, app_assoc.
  - destruct Hf as (Hn1 & Hf & Hm & Ht). specialize (Hm ltac:(lia)). change (boundary_ (skip_form (m_form m) _ _)) with (boundary_ (m_form m)). rewrite F1. rewrite (proj2 (Nat.ltb_lt _ _)) by (rewrite length_drop; lia).
    assert (Hv : take n (m_content m) = take n data).
    { rewrite <- (take_app_le _ tail), Hs by lia. by rewrite take_app_le by lia. }
    rewrite Hv. rewrite app_assoc in O3. pose proof (take_drop n data) as Htd. assert (len (take n data) + len (drop n data) = len data) by (rewrite <- len_app; by rewrite Htd).
    pose proof (len_nonneg (drop n data)).
    destruct (save_file_works e _ (take n data) _ _ _ He Hopen Hsize ltac:(lia) O3) as (t & -> & T1 & T2 & T3 & T4). cbn [mbind option_bind].
    eexists _, _. split; [done|]. split; [|by right]. exists done, ps. cbn [form_data_parse_state_ skip_form set_form_data_parse_state_ m_form m_content].
    exists name, file_name, content_type, (drop n data), (w ++ take n data), [(temp_file_name_ t, w ++ take n data)].
    rewrite <- (app_assoc w), Htd. split; [|split_and!; [done|done|by right| |done]].
    + split; cbn; try done. exists args, ws. split; [done|]. split; [done|]. by rewrite T2, app_assoc.
    + rewrite <- drop_app_le, Hs by lia. rewrite drop_app_le by lia. done.
Qed.

Lemma read_file_pending tail m : pending tail m -> form_data_parse_state_ (m_form m) = ReadFile -> turn_pending tail m (read_file e can_be_slow m).
Proof using Hb He.
  intros H Hst. unfold read_file. destruct (negb can_be_slow) eqn:Eslow; [apply negb_true_iff in Eslow; by eexists _, _|]. destruct (temp_file_ (m_temp m)) eqn:Ho; [by apply read_open_file_pending|].
  destruct H as (done & ps & H). rewrite Hst in H. destruct H as (name & file_name & content_type & data & w & opened & F & Hp & Hname & Hop & Hs & Hn).
  destruct Hop as [[-> ->]|[-> _]]; [|by rewrite (f_open _ _ _ _ _ F) in Ho].
  destruct (open_temp_works e (m_temp m) (file_name_ (the_part (m_form m))) He Ho) as (t & n & -> & T1 & T2 & T3 & T4). cbn [mbind option_bind].
  change (turn_pending tail m ?x) with (turn_pending tail (mk_multipart (m_content m) (m_form m) (m_parsed m) t (m_headers_length m)) x).
  apply read_open_file_pending; [|done|done]. exists done, ps. cbn [m_form m_content m_temp]. rewrite Hst. exists name, file_name, content_type, data, [], [(n, [])].
  split; [|split_and!; try done; right; by rewrite T2]. destruct F as [F1 F2 F3 F4 F5 F6 Fq F7 (args & ws & O1 & O2 & O3)]. split; try done.
  exists args, ws. split; [done|]. split; [done|]. cbn [m_temp]. rewrite T4, O3. by rewrite app_nil_r, <- app_assoc.
Qed.

Lemma multipart_turn_pending tail m : pending tail m -> turn_pending tail m (multipart_turn e max_files ready can_be_slow m).
Proof using Hb He.
  intros H. unfold multipart_turn. destruct (form_data_parse_state_ (m_form m)) eqn:E.
  - by apply skip_prologue_pending.
  - by apply read_part_headers_pending.
  - by apply read_part_value_pending.
  - by apply read_file_pending.
  - by apply check_for_last_boundary_pending.
  - by apply skip_epilogue_pending.
Qed.

(** The loop ends; it waits only for bytes of the tail, and fails only because it
    may not be slow. *)
Lemma parse_multipart_pending tail fuel : forall m, pending tail m -> (m_measure m < fuel)%nat ->
  exists m' res, parse_multipart_form_data e max_files ready can_be_slow fuel m = Some (m', res) /\ pending tail m' /\
  match res with
  | Ok finished => form_data_parse_state_ (m_form m') = SkipEpilogue /\ finished = ready \/ tail <> [] /\ finished = false
  | Err err => err = slow /\ can_be_slow = false
  end.
Proof using Hb He.
  induction fuel as [|fuel IH]; intros m H Hf; [lia|]. cbn [parse_multipart_form_data].
  destruct (multipart_turn_pending tail m H) as (m1 & t & -> & H1 & Ht). cbn [mbind option_bind]. destruct t as [|finished|err]; [|by exists m1, (Ok finished)|by exists m1, (Err err)].
  apply IH; [done|lia].
Qed.

(** What a complete form leaves. *)
Lemma pending_outcome m : pending [] m -> form_data_parse_state_ (m_form m) = SkipEpilogue ->
  exists args ws, outcome all args (hq_files (the_query (m_parsed m))) ws /\ hq_args (the_query (m_parsed m)) = args0 ++ args
  /\ written (out (m_temp m)) = ws0 ++ ws /\ same_head (the_query (m_parsed m)) q1.
Proof using Type.
  intros (done & ps & H) Hst. rewrite Hst in H. destruct H as ([F1 F2 F3 F4 F5 F6 Fq F7 (args & ws & O1 & O2 & O3)] & _).
  rewrite app_nil_r in F3, O3. subst all. by exists args, ws.
Qed.

(** More of the tail is there. *)
Lemma pending_shift tail m content tail' : pending tail m -> content ++ tail' = m_content m ++ tail ->
  pending tail' (mk_multipart content (m_form m) (m_parsed m) (m_temp m) (m_headers_length m)).
Proof using Type.
  intros (done & ps & H) E. exists done, ps. cbn [m_content m_form]. rewrite E. revert H. destruct (form_data_parse_state_ (m_form m)).
  - by intros ([] & H).
  - by intros ([] & H).
  - intros (name & value & [] & H). by exists name, value.
  - intros (name & file_name & content_type & data & w & opened & [] & H). by exists name, file_name, content_type, data, w, opened.
  - by intros ([] & H).
  - by intros ([] & H).
Qed.

End Reading.

(** ** Messages with a form *)

Section Delivery.
Context {Gz : Type} {ops : gzip_ops Gz} (e : env) (He : env_works e).
#[local] Notation reader := (HttpReader.reader (Gz := Gz)).

(** A message: the lines of its head, which are parsed to [p1], and the text of a
    form with these parts, in a body that [p1] frames.  The limits: for the headers,
    the files, each field, each file. *)
Record form_message (max_files : Z) (p : parsed) (lines : list bytes) (text : bytes) (p1 : parsed) (b prologue : bytes) (ps : list form_part)
    (epilogue : bytes) : Prop := {
  fm_lines : lines <> [] /\ Forall line_ok lines /\ len (lines_text lines) < MAX_TOTAL_HEADERS_LENGTH;
  fm_head : parse_head (update_query p (fun q => set_hq_container q [lines_text lines])) (lines_text lines) = Some (p1, Ok tt);
  fm_framing : framing p1 text (form_text b prologue ps epilogue);
  fm_plain : (content_encoding_ p1 = [] \/ content_encoding_ p1 = lit "none") /\ content_length_ p1 < MAX_CONTENT_SIZE;
  fm_body : has_body p1 = true;
  fm_form : has_substring (content_type_lowercased_ p1) (lit "multipart/form-data") = true;
  fm_boundary : find_boundary_value (content_type_ p1) (content_type_lowercased_ p1) = Ok b;
  fm_prologue : first_at (prologue ++ lit "--" ++ b) (lit "--" ++ b) (length prologue);
  fm_parts : ps <> [] /\ Forall (part_ok b (total_parameters_length_ p1)) ps;
  fm_headers : len (lines_text lines) - 2 + headers_length ps <= MAX_TOTAL_HEADERS_LENGTH;
  fm_files : hq_files (the_query p1) = [] /\ len (filter is_file ps) <= max_files;
}.

Context (query : Z) (q : http_query) (max_files : Z) (p : parsed) (lines : list bytes) (text : bytes) (p1 : parsed) (b prologue : bytes).
Context (ps : list form_part) (epilogue rest : bytes) (ws0 : list (bytes * bytes)).
Context (Hm : form_message max_files p lines text p1 b prologue ps epilogue).

#[local] Notation pending := (pending max_files b epilogue ps (total_parameters_length_ p1) (hq_args (the_query p1)) ws0 (the_query p1)).

Lemma boundary_length : (1 <= length b <= 70)%nat.
Proof using Hm. pose proof (find_boundary_value_ok _ _ _ (fm_boundary _ _ _ _ _ _ _ _ _ Hm)) as H. unfold boundary_ok in H. cbn in H. lia. Qed.

(** What the form parser sees of the reader. *)
Definition parsing (r : reader) : multipart := mk_multipart (content_ (the_body r)) (the_form r) (the_parsed r) (the_temp r) (total_headers_length_ r).

Record reading_form (r : reader) (future : bytes) : Prop := {
  rf_state : state_ r = ReadMultipartFormData;
  rf_query : query_ r = Some query;
  rf_files : max_files_ r = max_files;
  rf_form : exists tail, pending tail (parsing r) /\ (streaming (content_ (the_body r) ++ tail) rest r future \/ tail = [] /\ ended rest r future);
}.

(** The query of a form that was read. *)
Definition form_read_as (r : reader) : Prop :=
  exists args ws, outcome ps args (hq_files (the_query (the_parsed r))) ws
  /\ hq_args (the_query (the_parsed r)) = hq_args (the_query p1) ++ args
  /\ written (out (the_temp r)) = ws0 ++ ws /\ same_head (the_query (the_parsed r)) (the_query p1).

Definition form_delivery (sl : bool) (future : bytes) (x : option (reader * result Z)) : Prop :=
  (sl = false /\ exists r', x = Some (r', Err slow) /\ reading_form r' future)
  \/ exists r' n, x = Some (r', Ok n) /\
  ((0 < n /\ future <> [] /\ flow_sink_ (the_body r') = None /\ reading_form r' future) \/ (n = 0 /\ input_ r' ++ future = rest /\ idle r' /\ form_read_as r')).

Lemma reading_form_input r s future : reading_form r (s ++ future) -> reading_form (set_input_ r (input_ r ++ s)) future.
Proof using Type.
  intros [H1 H2 H3 (tail & HP & HS)]. split; try done. exists tail. split; [done|]. destruct HS as [HS|[-> HE]]; [left; by apply streaming_input|right].
  split; [done|]. by apply ended_input.
Qed.

(** The flows in one turn: the form goes on, or its last bytes have come. *)
Lemma reading_form_flows r future n : reading_form r future ->
  exists b i n1 tail, read_flows r n = Some (set_input_ (set_the_body r b) i, Ok n1) /\
  let r1 := set_input_ (set_the_body r b) i in pending tail (parsing r1) /\
  ((0 < n1 /\ future <> [] /\ streaming (content_ b ++ tail) rest r1 future) \/ tail = [] /\ ended rest r1 future).
Proof using Type.
  intros [H1 H2 H3 (tail & HP & [HS|[-> HE]])].
  - destruct (streaming_flows _ _ r future n HS) as (b1 & i & n1 & -> & [(Hn1 & Hfut & HS1)|(Hcont & HE)]).
    + destruct HS1 as [S1 S2 S3 (f & tail' & S4 & S5 & S6)]. exists b1, i, n1, tail'. split; [done|]. split.
      * by apply (pending_shift _ _ _ _ _ _ _ _ tail (parsing r)).
      * left. split; [done|]. split; [done|]. split; try done. by exists f, tail'.
    + exists b1, i, n1, []. split; [done|]. split; [|by right].
      apply (pending_shift _ _ _ _ _ _ _ _ tail (parsing r)); [done|]. cbn. by rewrite app_nil_r.
  - destruct (ended_flows rest r future n HE) as [n1 ->]. exists (the_body r), (input_ r), n1, []. destruct r as [? ? ? ? ? ? ? ? ? ? []]. split; [done|]. split; [done|by right].
Qed.

Lemma parsing_pending sl ready tail r : pending tail (parsing r) -> exists m' res,
  parse_multipart_form_data e max_files ready sl (2 * length (content_ (the_body r)) + 2) (parsing r) = Some (m', res) /\ pending tail m' /\
  match res with
  | Ok finished => form_data_parse_state_ (m_form m') = SkipEpilogue /\ finished = ready \/ tail <> [] /\ finished = false
  | Err err => err = slow /\ sl = false
  end.
Proof using He Hm.
  intros HP. apply (parse_multipart_pending e He max_files ready sl b epilogue ps (total_parameters_length_ p1) (hq_args (the_query p1)) ws0 (the_query p1) boundary_length tail); [done|].
  unfold m_measure. cbn [parsing m_content]. destruct (form_data_parse_state_ _); lia.
Qed.

Lemma reading_form_read sl r future fuel n : reading_form r future -> form_delivery sl future (do_read_next e (S fuel) sl r n).
Proof using He Hm.
  intros HF. pose proof HF as [H1 H2 H3 _]. cbn [do_read_next]. destruct (reading_form_flows r future n HF) as (bd & i & n1 & tail & -> & HP1 & H). cbn [mbind option_bind].
  set (r1 := set_input_ (set_the_body r bd) i) in *. unfold read_turn. change (state_ r1) with (state_ r). rewrite H1. unfold read_form.
  change (the_body r1) with bd. change (max_files_ r1) with (max_files_ r). rewrite H3.
  assert (Hfirst : reading_form r1 future).
  { split; try done. exists tail. split; [done|]. destruct H as [(_ & _ & HS)|HE]; [by left|by right]. }
  assert (Hform : forall m', pending tail m' -> reading_form
    (set_total_headers_length_ (set_the_temp (set_the_parsed (set_the_form (set_the_body r1 (set_content_ bd (m_content m'))) (m_form m')) (m_parsed m')) (m_temp m')) (m_headers_length m')) future).
  { intros m' HP'. split; try done. exists tail.
    assert (Hpar : pending tail (parsing (set_total_headers_length_ (set_the_temp (set_the_parsed (set_the_form (set_the_body r1 (set_content_ bd (m_content m'))) (m_form m')) (m_parsed m')) (m_temp m')) (m_headers_length m')))) by by destruct m'.
    split; [done|]. destruct H as [(_ & _ & [S1 S2 S3 (f & out & S4 & S5 & S6)])|[-> [E1 E2 E3 E4 E5]]]; [left|right; split; [done|by split]].
    split; try done. exists f, out. split; [done|]. split; [done|]. apply app_inv_head in S6 as ->. done. }
  assert (Hready : is_ready bd = false -> 0 < n1 /\ future <> [] /\ flow_sink_ bd = None).
  { intros Hnr. destruct H as [(? & ? & [_ _ E _])|[_ [_ _ E _ _]]]; [done|]. unfold is_ready in Hnr. change (flow_sink_ bd = Some None) in E. by rewrite E, bool_decide_true in Hnr by done. }
  assert (Hrdy : is_ready bd = true -> tail = [] /\ i ++ future = rest).
  { intros Hr. destruct H as [(_ & _ & [_ _ E _])|[-> [_ _ _ _ E]]]; [|done]. unfold is_ready in Hr. change (flow_sink_ bd = None) in E. rewrite E, bool_decide_false in Hr by by intros []. done. }
  destruct (parsing_pending sl (is_ready bd) tail r1 HP1) as (m' & res & E & HP' & Hres). unfold parsing in E. change (the_body r1) with bd in E. 
  case_bool_in_goal.
  - rewrite E. cbn [mbind option_bind]. destruct res as [finished|err].
    + right. destruct (is_ready bd).
      * destruct (Hrdy eq_refl) as [-> Hrest]. destruct Hres as [[Hst ->]|[[] _]]; [|done]. cbn [mbind option_bind]. eexists _, _. split; [done|]. right. split; [done|]. split; [done|]. split; [done|].
        eapply pending_outcome in HP'; [exact HP'|exact Hst].
      * destruct (Hready eq_refl) as (Hn1 & Hfut & Hsink). assert (finished = false) as -> by by destruct Hres as [[_ ->]|[_ ->]]. eexists _, _. split; [done|]. left. split_and!; [done..|by apply Hform].
    + destruct Hres as [-> ->]. left. split; [done|]. eexists. split; [done|]. by apply Hform.
  - right. apply orb_false_iff in Heqb0 as [_ Hnr]. destruct (Hready Hnr) as (? & ? & ?). cbn [mbind option_bind]. eexists _, _. split; [done|]. left. by split_and!.
Qed.

(** Before the form: its head. *)
Definition form_awaiting (r : reader) (future : bytes) : Prop :=
  awaiting query p lines (text ++ rest) r future /\ max_files_ r = max_files /\ temp_file_ (the_temp r) = false /\ written (out (the_temp r)) = ws0.

Lemma form_awaiting_read sl r future fuel n : form_awaiting r future ->
  (exists r' k, do_read_next e (S (S fuel)) sl r n = Some (r', Ok k) /\ 0 < k /\ future <> [] /\ form_awaiting r' future)
  \/ form_delivery sl future (do_read_next e (S (S fuel)) sl r n).
Proof using He Hm.
  intros (Ha & Hx & Ht & Hw). remember (S fuel) as fuel1 eqn:Ef. pose proof Hm as [(L1 & L2 & L3) M2 M3 (P1 & P2) Hbody P3 P4 M4 (M5 & M6) M7 (M8 & M9)].
  cbn [do_read_next]. unfold read_flows. rewrite bool_decide_true by apply Ha. cbn [mbind option_bind]. unfold read_turn.
  rewrite (a_state _ _ _ _ _ _ Ha).
  destruct (head_read query p lines text p1 _ rest r future L1 L2 L3 M2 M3 P1 Ha) as [(r' & k & -> & Hk & Hf & (X1 & X2 & X3) & Ha')|(r2 & (X1 & X2 & X3) & Hp & Hq & H)].
  { cbn [mbind option_bind]. left. eexists _, _. split; [done|]. split; [done|]. split; [done|]. split; [done|]. by rewrite X2, X3. }
  right. rewrite Hbody in H. destruct H as (f & -> & Hbd & HR & Hh). unfold choose_state. rewrite Hp. cbn zeta. rewrite P3, P4. rewrite leb_false by done.
  cbn [mbind option_bind]. set (r3 := set_the_form _ _). subst fuel1. apply reading_form_read.
  assert (Htemp : the_temp r3 = the_temp r) by exact X3. assert (Hparsed : the_parsed r3 = p1) by exact Hp.
  split; [done|exact Hq|by rewrite <- Hx|]. exists (form_text b prologue ps epilogue). split.
  - exists [], ps. cbn [parsing m_form m_content]. change (form_data_parse_state_ (the_form r3)) with SkipPrologue. cbn iota. split_and!; [|done|done|].
    + split; cbn [parsing m_form m_headers_length m_parsed m_temp]; rewrite ?Hparsed, ?Htemp; try done.
      * change (total_headers_length_ r2 + headers_length ps <= MAX_TOTAL_HEADERS_LENGTH). by rewrite Hh.
      * by rewrite M8.
      * exists [], []. rewrite M8, !app_nil_r. split; [constructor|done].
    + exists (length prologue). change (content_ (the_body r3)) with (content_ (the_body r2)). rewrite Hbd. cbn [content_ app].
      assert (form_text b prologue ps epilogue = (prologue ++ lit "--" ++ b) ++ parts_text b ps epilogue) as -> by (unfold form_text; by rewrite <- !app_assoc).
      split; [by apply first_app|]. apply drop_app_length'. by rewrite (length_app prologue).
  - left. split; try done; change (the_body r3) with (the_body r2); rewrite Hbd; [done|done|]. by exists f, (form_text b prologue ps epilogue).
Qed.

Definition form_progress (r : reader) (future : bytes) : Prop := form_awaiting r future \/ reading_form r future.

Lemma form_progress_input r s future : form_progress r (s ++ future) -> form_progress (set_input_ r (input_ r ++ s)) future.
Proof using Type.
  intros [([] & H)|H]; [left; split; [|done]; split; try done; cbn; by rewrite <- app_assoc|right; by apply reading_form_input].
Qed.

Lemma form_progress_read sl (r : reader) future : query_ r = Some query \/ query_ r = None -> form_progress (with_query query q r) future ->
  call_progress e query q rest form_progress form_read_as sl r future.
Proof using He Hm.
  intros Hq Hp. pose proof (fun r' res => reads_from e query q sl 2 r r' res Hq) as Hread. set (r0 := with_query query q r) in *.
  assert (Hdel : form_delivery sl future (do_read_next e 2 sl r0 (len (input_ r) + 1)) -> call_progress e query q rest form_progress form_read_as sl r future).
  { intros [(-> & r' & E & HF)|(r' & n & E & H)].
    - left. split; [done|]. exists r'. split; [by apply Hread|]. split; [by apply HF|by right].
    - right. exists r', n. split.
      + apply Hread; [done|]. intros ? [= <-] Hn Hs. by destruct H as [(_ & _ & H & _)|(-> & _)].
      + destruct H as [(Hn & Hf & _ & HF)|H]; [left|by right]. split_and!; [done|done|by apply HF|by right]. }
  destruct Hp as [Ha|HR].
  - destruct (form_awaiting_read sl r0 future 0 (len (input_ r) + 1) Ha) as [(r' & k & E & Hk & Hf & Ha')|Hd]; [|by apply Hdel].
    right. exists r', k. split; [|left; split_and!; [done|done|by apply Ha'|by left]]. apply Hread; [done|]. intros ? _ _ Hs. by destruct Hs; apply Ha'.
  - apply Hdel. by apply reading_form_read.
Qed.

Lemma form_delivered sl pieces r : query_ r = Some query \/ query_ r = None -> form_progress (with_query query q r) (concat pieces) ->
  exists r' unread, delivers e query q sl r pieces r' unread /\ input_ r' ++ concat unread = rest /\ idle r' /\ form_read_as r'.
Proof using He Hm. apply (progress_delivered e query q rest form_progress form_read_as form_progress_input form_progress_read). Qed.

End Delivery.
