(* ===== verification/HttpReaderErrors.v ===== *)
(** * Errors of the HTTP reader

    Every error of [HttpReader::read_next] has a status code that the connection can
    answer with, or it is the request for a thread that may be slow; after the latter
    the reader goes on where it was. *)

From S2P Require Import Prelude TdMisc TextParser Json HttpHeader IPAddress HttpUrl ByteFlow Query HttpConnection HttpReader HttpReaderChecks HttpReaderMessages.

Import Chars Strings Integers Parser Reader Boundary Flow HttpReader.

(** ** The codes *)

Definition error_codes : list Z := [400; 413; 415; 431; 500; 501; 505].
Definition is_slow (err : status) : bool := bool_decide (st_message err = lit "SLOW").
Definition http_error (err : status) : bool := bool_decide (st_code err ∈ error_codes) && negb (is_slow err).

Definition fails {A} (P : status -> Prop) (r : result A) : Prop := match r with Ok _ => True | Err err => P err end.

(** Follows the branches of a definition; constants are errors. *)
Ltac branches := repeat first [progress simplify_option_eq | case_match | reflexivity].

Lemma parse_headers_error fuel : forall p ps p' r, parse_headers fuel p ps = Some (p', r) -> fails http_error r.
Proof.
  induction fuel as [|fuel IH]; intros p ps p' r; [done|]. cbn [parse_headers]. case_match; [|by intros [= _ <-]; case_match].
  destruct (read_header ps) as [[[name value] ps']|]; [|done]. apply IH.
Qed.

Lemma parse_parameters_error p s p' r : parse_parameters p s = Some (p', r) -> fails http_error r.
Proof. unfold parse_parameters. intros E. by branches. Qed.

Lemma parse_url_error p url p' r : parse_url p url = Some (p', r) -> fails http_error r.
Proof.
  unfold parse_url. destruct (span _ url) as [path [|c rest]]; [by intros [= _ <-]|]. case_match; [|by intros [= _ <-]]. apply parse_parameters_error.
Qed.

Lemma parse_http_version_error p v : fails http_error (parse_http_version p v).2.
Proof. unfold parse_http_version. by repeat case_match. Qed.

Lemma parse_request_line_error p s p' r : parse_request_line p s = Some (p', r) -> fails http_error r.
Proof.
  unfold parse_request_line. destruct (Url.rfind _ s) as [n|]; [|by intros [= _ <-]]. destruct (parse_url p (take n s)) as [[p1 [[]|err]]|] eqn:E; [..|done]; cbn.
  - intros [= E']. pose proof (parse_http_version_error p1 (drop (S n) s)) as H. by rewrite E' in H.
  - intros [= <- <-]. by apply parse_url_error in E.
Qed.

Lemma parse_head_lines_error p ps p' r : parse_head_lines p ps = Some (p', r) -> fails http_error r.
Proof. apply parse_headers_error. Qed.

Lemma parse_head_error p s p' r : parse_head p s = Some (p', r) -> fails http_error r.
Proof.
  unfold parse_head. destruct (read_till _ (init s)) as [type ps]. cbn zeta.
  assert (Hreq : forall t p' r, (let '(url_version, ps) := read_till (chr 13) (skip " "%char ps) in
    '(p, r) ← parse_request_line (update_query p (fun q => set_hq_args (set_hq_type q t) [])) url_version;
    match r with Err e => Some (p, Err e) | Ok _ => parse_head_lines p ps end) = Some (p', r) -> fails http_error r).
  { intros t p1 r1. destruct (read_till (chr 13) _) as [url_version ps1]. destruct (parse_request_line _ _) as [[p2 [[]|err]]|] eqn:E; [..|done]; cbn.
    - apply parse_head_lines_error.
    - intros [= _ <-]. by apply parse_request_line_error in E. }
  do 2 (case_bool_in_goal; [apply Hreq|]). case_bool_in_goal; [|by intros [= _ <-]]. pose proof (parse_http_version_error p type) as Hv.
  destruct (parse_http_version p type) as [p1 [[]|err]]; [|by intros [= _ <-]]. destruct (parse_status _ _) as [p2 ps2]. apply parse_head_lines_error.
Qed.

Lemma bad_json_error what e : fails http_error (bad_json what e).
Proof. done. Qed.

Lemma parse_json_fields_error fuel : forall q ps q' r, parse_json_fields fuel q ps = Some (q', r) -> fails http_error r.
Proof.
  induction fuel as [|fuel IH]; intros q ps q' r; [done|]. cbn [parse_json_fields]. cbn zeta.
  destruct (try_skip_char "}"%char _) as [[] ps1]; [by intros [= _ <-]; case_match|]. case_match; [by intros [= _ <-]|].
  destruct (json_string_decode _) as [[key|err] ps2]; [|by intros [= _ <-]]. destruct (try_skip_char ":"%char _) as [[] ps3]; [|by intros [= _ <-]].
  destruct (read_json_value _) as [[[value|err] ps4]|]; cbn -[parse_json_fields]; [|by intros [= _ <-]|done].
  case_match; [apply IH|]. destruct (try_skip_char ","%char _) as [[] ps5]; [apply IH|by intros [= _ <-]].
Qed.

Lemma parse_json_parameters_error p s p' r : parse_json_parameters p s = Some (p', r) -> fails http_error r.
Proof.
  unfold parse_json_parameters. case_match; [by intros [= _ <-]|]. cbn zeta. case_match; [by intros [= _ <-]|]. case_match.
  - destruct (json_string_decode _) as [[value|err] ps]; [|by intros [= _ <-]]. by case_match; intros [= _ <-].
  - case_match; [by intros [= _ <-]|]. destruct (parse_json_fields _ _ _) as [[q r1]|] eqn:E; cbn; [|done]. intros [= _ <-]. by apply parse_json_fields_error in E.
Qed.

(** ** Parts of forms *)

Lemma unquote_error s : fails http_error (unquote s).
Proof.
  assert (H : forall n s, (length s <= n)%nat -> fails http_error (unquote s)); [|by eapply H].
  clear s. induction n as [|n IH]; intros [|c s] Hn; cbn in Hn; [done|lia|done|]. cbn [unquote]. case_match; [done|].
  assert (Hp : forall l r, fails http_error r -> fails http_error (prepend l r)) by (intros l [[]|] Hr; exact Hr).
  case_match; [|by apply Hp, IH; lia]. destruct s as [|x s]; [done|]. apply Hp, IH. cbn in Hn. lia.
Qed.

Lemma disposition_value_error v : fails http_error (disposition_value v).
Proof.
  unfold disposition_value. destruct (drop_spaces v) as [|c s]; [done|]. case_bool_in_goal; [|by case_match].
  pose proof (unquote_error s) as Hu. destruct (unquote s) as [[value v']|err]; [|done]. destruct (drop_spaces v'); [done|]. by case_match.
Qed.

Lemma disposition_error fuel : forall v p r, disposition fuel v p = Some r -> fails http_error r.
Proof.
  induction fuel as [|fuel IH]; intros v p r; [done|]. cbn [disposition]. cbn zeta. destruct (Prelude.find _ _) as [n|]; [|by intros [= <-]].
  pose proof (disposition_value_error (drop (S n) (trim v))) as Hv. destruct (disposition_value _) as [[value v']|err]; [apply IH|by intros [= <-]].
Qed.

Lemma part_headers_error fuel : forall p ps r, part_headers fuel p ps = Some r -> fails http_error r.
Proof.
  induction fuel as [|fuel IH]; intros p ps r; [done|]. cbn [part_headers]. case_match.
  - destruct (read_header ps) as [[[name value] ps']|]; cbn -[part_headers]; [|done]. destruct (part_header p name value) as [[p'|err]|] eqn:E; cbn -[part_headers]; [apply IH| |done].
    intros [= <-]. revert E. unfold part_header. case_match; [|by case_match]. case_match; [by intros [= <-]|]. by intros E%disposition_error.
  - by repeat case_match; intros [= <-].
Qed.

Section Forms.
Context (e : env) (max_files : Z) (ready can_be_slow : bool).

Lemma save_file_part_error t s t' r : save_file_part e t s = Some (t', r) -> fails http_error r.
Proof.
  unfold save_file_part. case_match.
  - destruct (clean_temporary_file _); cbn; [|done]. by intros [= _ <-].
  - case_match; [by intros [= _ <-]|]. destruct (clean_temporary_file _); cbn; [|done]. by intros [= _ <-].
Qed.

(** An error of a turn: of HTTP, or the request for another thread. *)
Definition turn_error (m : multipart) (r : option (multipart * turn)) : Prop :=
  match r with
  | Some (m', Error err) => http_error err \/ can_be_slow = false /\ err = slow /\ m' = m
  | _ => True
  end.

Lemma read_part_headers_error m : turn_error m (read_part_headers max_files m).
Proof using Type.
  unfold read_part_headers. destruct (find_boundary _ _ _) as [[[] n]|]; [cbn -[part_headers]|cbn|done].
  - case_match; [by left|]. case_match; [by left|]. case_match; [done|].
    destruct (part_headers _ _ _) as [[p|err]|] eqn:E; cbn; [by repeat case_match; try left| |done]. left. by apply part_headers_error in E.
  - by case_match; [left|].
Qed.

Lemma read_part_value_error m : turn_error m (read_part_value m).
Proof using Type.
  unfold read_part_value. destruct (find_boundary _ _ _) as [[[] n]|]; [cbn -[parse_parameters begins_with]|cbn|done].
  - case_bool_in_goal; [by left|]. case_bool_in_goal; [|done]. destruct (parse_parameters _ _) as [[p [[]|err]]|] eqn:E; [done| |done]. left. by apply parse_parameters_error in E.
  - case_bool_in_goal; [|done]. by case_bool_in_goal; [left|].
Qed.

Lemma read_open_file_error m m' err : read_open_file e m = Some (m', Error err) -> http_error err.
Proof using Type.
  unfold read_open_file. destruct (find_boundary _ _ _) as [[[] n]|]; [cbn -[save_file_part]|cbn -[save_file_part]|done].
  - destruct (save_file_part _ _ _) as [[t [[]|err1]]|] eqn:E; cbn; [by destruct (close_temp_file t)| |done]. intros [= _ <-]. by apply save_file_part_error in E.
  - case_match; [|done]. destruct (save_file_part _ _ _) as [[t [[]|err1]]|] eqn:E; cbn; [done| |done]. intros [= _ <-]. by apply save_file_part_error in E.
Qed.

Lemma multipart_turn_error m : turn_error m (multipart_turn e max_files ready can_be_slow m).
Proof using Type.
  unfold multipart_turn. destruct (form_data_parse_state_ (m_form m)).
  - unfold skip_prologue. by destruct (find_boundary _ _ _) as [[[] n]|].
  - apply read_part_headers_error.
  - apply read_part_value_error.
  - unfold read_file. destruct (negb can_be_slow) eqn:Es; [apply negb_true_iff in Es; by right|].
    assert (Ho : forall m1, turn_error m (read_open_file e m1)).
    { intros m1. destruct (read_open_file e m1) as [[m' [| |err]]|] eqn:E; try done. left. by apply read_open_file_error in E. }
    case_match; [apply Ho|]. destruct (open_temp_file _ _ _) as [[t [[]|err]]|]; cbn; [apply Ho|by left|done].
  - unfold check_for_last_boundary. destruct (m_content m) as [|x [|y content]]; [done..|]. by case_match.
  - done.
Qed.

(** After a refusal to be slow the form is in a state where it can go on. *)
Lemma parse_multipart_slow past (He : env_ok e) fuel : forall m m' err, m_ok past m -> parse_multipart_form_data e max_files ready can_be_slow fuel m = Some (m', Err err) ->
  http_error err \/ can_be_slow = false /\ err = slow /\ m_ok past m'.
Proof using Type.
  induction fuel as [|fuel IH]; intros m m' err Hm; [done|]. cbn [parse_multipart_form_data].
  destruct (multipart_turn_ok e He max_files ready can_be_slow past m Hm) as (m1 & t & E & _ & Ht). pose proof (multipart_turn_error m) as H. rewrite E in *.
  cbn [mbind option_bind]. destruct t as [| |err1]; [apply IH, Ht|done|]. intros [= <- <-]. destruct H as [H|(H1 & H2 & ->)]; [by left|by right].
Qed.

End Forms.

(** ** The reader *)

Section Reader.
Context {Gz : Type} {ops : gzip_ops Gz} {laws : gzip_laws Gz} (e : env) (He : env_ok e).
#[local] Notation reader := (HttpReader.reader (Gz := Gz)).

Lemma find_boundary_value_error c l : fails http_error (find_boundary_value c l).
Proof using Type. unfold find_boundary_value. by repeat (case_match; try done). Qed.

Lemma read_headers_error (r : reader) r' err : read_headers r = Some (r', Stop (Err err)) -> http_error err.
Proof using Type.
  unfold read_headers, split_header. destruct (find_boundary _ _ _) as [[[] n]|]; cbn [mbind option_bind]; [| |done].
  - destruct (parse_head _ _) as [[p [[]|err1]]|] eqn:E; cbn [mbind option_bind]; [| |done].
    + cbn [Z.eqb negb]. case_bool_in_goal; [done|]. unfold make_stage. case_bool_in_goal; [|case_bool_in_goal; [|by intros [= _ <-]]].
      all: unfold make_gzip; cbn zeta; case_bool_in_goal; [|case_bool_in_goal; [|by intros [= _ <-]]].
      all: unfold choose_state; cbn zeta; case_bool_in_goal; [by intros [= _ <-]|]; case_bool_in_goal; [|by case_bool_in_goal].
      all: match goal with |- context [find_boundary_value ?c ?l] => pose proof (find_boundary_value_error c l) as Hb; destruct (find_boundary_value c l) as [b|err1] end; [done|].
      all: by intros [= _ <-].
    + intros [= _ <-]. by apply parse_head_error in E.
  - case_bool_in_goal; cbn [mbind option_bind]; [by intros [= _ <-]|]. case_bool_in_goal; [done|]. cbn zeta. pose proof (len_nonneg (input_ (set_headers_read_length_ r n))) as H.
    apply negb_false_iff, Z.eqb_eq in Heqb0. lia.
Qed.

(** An error of a turn; a refusal leaves the reader as it can be. *)
Lemma read_turn_error past (r r' : reader) sl n err : consistent past r -> is_Some (query_ r) -> 0 < n -> read_turn e sl r n = Some (r', Stop (Err err)) ->
  http_error err \/ sl = false /\ err = slow /\ consistent past r'.
Proof using He.
  intros H Hq Hn. unfold read_turn. destruct (state_ r) eqn:Hst.
  - intros E. left. by eapply read_headers_error.
  - unfold read_content. by repeat case_bool_in_goal.
  - unfold read_content_to_file. destruct (negb sl) eqn:Es; [intros [= <- <-]; right; apply negb_true_iff in Es; by split_and!|].
    intros E. left. revert E. destruct (if temp_file_ (the_temp r) then _ else _) as [[t [[]|err1]]|]; cbn [mbind option_bind]; [| |done]; [|by intros [= _ <-]]. cbn zeta.
    match goal with |- context [if (1048576 <? ?x) || ?y then ?u else ?v] => destruct (if (1048576 <? x) || y then u else v) as [[r1 [[]|err1]]|] eqn:E2 end; cbn [mbind option_bind]; [| |done].
    + case_bool_in_goal; [by destruct (close_temp_file _)|by case_bool_in_goal].
    + intros [= _ <-]. revert E2. case_bool_in_goal; [|done]. destruct (save_file_part _ _ _) as [[t2 saved]|] eqn:E3; cbn [mbind option_bind]; [|done]. intros [= _ ->].
      by apply save_file_part_error in E3.
  - unfold read_args. cbn zeta. case_bool_in_goal; [intros [= _ <-]; by left|]. case_bool_in_goal; [|done].
    match goal with |- context [if has_substring ?x ?y then ?u else ?v] => destruct (if has_substring x y then u else v) as [[p [[]|err1]]|] eqn:E end; cbn [mbind option_bind]; [done| |done].
    case_bool_in_goal; [|done]. intros [= _ <-]. left. destruct (has_substring _ _); [by apply parse_parameters_error in E|by apply parse_json_parameters_error in E].
  - pose proof H as [H1 H2 H3 H4 H5 H6 H7 H8]. assert (Hr : state_ r <> ReadHeaders) by by rewrite Hst. destruct (H2 Hr) as [a Ha]. unfold holds in H8. rewrite Ha in H8.
    unfold read_form. cbn zeta. case_bool_in_goal; [|done]. set (m := mk_multipart _ _ _ _ _). assert (Hm : m_ok past m).
    { split; cbn; [by apply H7|done| |done]. intros [E|[_ E]]%H6; [by rewrite Hst in E|done]. }
    destruct (parse_multipart_form_data _ _ _ _ _ m) as [[m' [[]|err1]]|] eqn:E; cbn [mbind option_bind]; [done..| |done]. intros [= <- <-].
    apply (parse_multipart_slow e _ _ _ past He _ m m' err1 Hm) in E as [E|(-> & -> & [M1 M2 M3 M4])]; [by left|right]. split; [done|]. split; [done|]. specialize (H5 Hr).
    split; cbn; intros; rewrite ?Hst in *; first [done|right; split; [done|by apply M3]|unfold holds; cbn; by rewrite Ha].
Qed.

Lemma read_flows_error (r r' : reader) n err : read_flows r n = Some (r', Err err) -> http_error err.
Proof using Type.
  unfold read_flows. case_bool_in_goal; [done|]. destruct (wake_flows _ _) as [[b input]|]; cbn [mbind option_bind]; [|done].
  destruct (flow_sink_ b) as [[err1|]|]; [|done..]. case_bool_in_goal; [|by intros [= _ <-]]. destruct (clean_temporary_file _); cbn; [|done]. by intros [= _ <-].
Qed.

Lemma do_read_next_error past sl fuel : forall (r r' : reader) n err, consistent past r -> is_Some (query_ r) -> 0 < n ->
  do_read_next e fuel sl r n = Some (r', Err err) -> http_error err \/ sl = false /\ err = slow /\ consistent past r' /\ query_ r' = query_ r.
Proof using He laws.
  induction fuel as [|fuel IH]; intros r r' n err H Hq Hn; [done|]. cbn [do_read_next].
  destruct (read_flows_ok past r n H Hn) as (r1 & res & E & Q1 & H1). rewrite E. cbn [mbind option_bind]. destruct res as [n1|err1].
  2:{ intros [= <- <-]. left. by apply read_flows_error in E. }
  destruct H1 as (C1 & Hn1 & S1 & W1). assert (Hq1 : is_Some (query_ r1)) by by rewrite Q1.
  destruct (read_turn_ok e He past r1 sl n1 C1 Hq1 Hn1) as (r2 & p & E2 & Q2 & H2). rewrite E2. cbn [mbind option_bind]. destruct p as [| |[n2|err2]]; [|done|done|].
  - intros Hx. rewrite <- Q1, <- Q2. eapply IH; [apply H2|by rewrite Q2|exact Hn1|exact Hx].
  - intros [= <- <-]. destruct (read_turn_error past r1 r2 sl n1 err2 C1 Hq1 Hn1 E2) as [Hx|(Hx & Hy & Hz)]; [by left|right]. split_and!; [done..|by rewrite Q2].
Qed.

(** [read_next] starts in a consistent state. *)
Lemma started past (r : reader) query q r0 : consistent past r -> proper_query r query q ->
  (if bool_decide (query_ r = Some query) then Some r else match query_ r with Some _ => None
   | None => Some (set_the_parsed (set_query_ r (Some query)) (set_the_query (the_parsed r) q)) end) = Some r0 ->
  consistent past r0 /\ query_ r0 = Some query.
Proof using Type.
  intros H Hp. case_bool_decide as Eq; [by intros [= <-]|]. destruct Hp as [|[E Hq]]; [done|]. rewrite E. intros [= <-]. split; [|done].
  pose proof (consistent_body past r H E) as Hs. destruct H as [H1 H2 H3 H4 H5 H6 H7 H8]. split; cbn; rewrite ?Hs in *; try done.
  unfold holds, held in *. rewrite E in H8. cbn. by rewrite Hq, app_nil_r.
Qed.

(** The errors of [read_next]. *)
Lemma read_next_error past (r r' : reader) query q sl err : consistent past r -> proper_query r query q -> reads_next e r query q sl r' (Err err) ->
  http_error err \/ sl = false /\ err = slow /\ consistent past r' /\ query_ r' = Some query.
Proof using He laws.
  intros H Hp [fuel E]. revert E. unfold read_next.
  destruct (if bool_decide (query_ r = Some query) then _ else _) as [r0|] eqn:E0; cbn [mbind option_bind]; [|done].
  destruct (started past r query q r0 H Hp E0) as (H0 & Q0). pose proof (len_nonneg (input_ r0)).
  destruct (do_read_next e fuel sl r0 _) as [[r1 [n|err1]]|] eqn:E1; cbn [mbind option_bind]; [| |done].
  - case_bool_in_goal; [|done]. destruct (flow_sink_ _) as [[]|]; [done| |done]. intros [= _ <-]. by left.
  - intros [= <- <-]. rewrite <- Q0. eapply do_read_next_error; [exact H0|by rewrite Q0| |exact E1]. lia.
Qed.

End Reader.
