(* ===== verification/HttpReaderAnswers.v ===== *)
(** * Reading the answers of the server

    What [HttpReader] makes of the JSON texts that [JsonBuilder] writes, and of the
    responses of [HttpConnection]. *)

From S2P Require Import Prelude TdMisc Utf8 TextParser Json HttpHeader IPAddress HttpUrl ByteFlow Query HttpConnection HttpReader HttpReaderChecks HttpReaderMessages.

Import Chars Strings Integers Coding Parser Writer Reader Boundary Flow HttpReader Response.

(** ** JSON parameters *)

(** The value of an argument: strings are decoded, other values keep their text. *)
Definition argument_text (v : json_value) : bytes :=
  match v with JString s => s | _ => from_option id [] (store v) end.
Definition arguments (l : list (bytes * json_value)) : list (bytes * bytes) := (fun '(n, v) => (n, argument_text v)) <$> l.
Definition add_args (q : http_query) (l : list (bytes * bytes)) : http_query := set_hq_args q (hq_args q ++ l).

Lemma add_args_nil q : add_args q [] = q.
Proof. unfold add_args. rewrite app_nil_r. by destruct q. Qed.
Lemma add_args_cons q k v l : add_args (add_arg q k v) l = add_args q ((k, v) :: l).
Proof. unfold add_args, add_arg. cbn. by rewrite <- app_assoc. Qed.

Lemma value_first v t : wf_value v = true -> store v = Some t -> exists c s, t = c :: s /\ value_start c = true /\ (ord c =? 34 = true <-> exists s, v = JString s).
Proof.
  intros Hwf Ht. destruct (reads_back_all v Hwf) as (t' & Ht' & (c & s & -> & Hc) & _). rewrite Ht in Ht'. injection Ht' as ->.
  exists c, s. split; [done|]. split; [done|]. destruct v as [|n|b|u|l|l].
  - cbn in Ht. injection Ht as <- _. split; [done|by intros (? & [=])].
  - cbn in Ht. injection Ht as ->. cbn in Hwf. apply andb_true_iff in Hwf as [Hn _].
    destruct (number_start_class c Hn) as (_ & _ & _ & _ & -> & _). split; [done|by intros (? & [=])].
  - cbn in Ht. destruct b; injection Ht as <- _; (split; [done|by intros (? & [=])]).
  - cbn in Ht. destruct (json_string_round_trip u Hwf) as (t' & Ht' & (b & ->) & _). rewrite Ht' in Ht. injection Ht as <- _. split; [by eexists|done].
  - rewrite store_array in Ht. destruct (elements store l true); [|done]. injection Ht as <- _. split; [done|by intros (? & [=])].
  - rewrite store_object in Ht. destruct (fields store l true); [|done]. injection Ht as <- _. split; [done|by intros (? & [=])].
Qed.

Lemma read_json_value_text v t rest : wf_value v = true -> depth v <= 100 -> store v = Some t -> ends_number rest = true ->
  read_json_value (init (t ++ rest)) = Some (Ok (argument_text v), init rest).
Proof.
  intros Hwf Hd Ht Hr. destruct (value_first v t Hwf Ht) as (c & s & -> & _ & Hc). unfold read_json_value. change (peek_char (init ((c :: s) ++ rest))) with c.
  destruct (ord c =? 34) eqn:E.
  - destruct (proj1 Hc eq_refl) as (u & ->). destruct (json_string_round_trip u Hwf) as (t' & Ht' & _ & Hdec). cbn in Ht. rewrite Ht' in Ht. injection Ht as ->. by rewrite Hdec.
  - destruct (reads_back_all v Hwf) as (t' & Ht' & _ & Hdec). rewrite Ht in Ht'. injection Ht' as <-. set (text := (c :: s) ++ rest) in *.
    destruct (proj1 (decode_returns (fuel_for (init text))) text 100) as (r & s' & Ed & _); [done|].
    pose proof (Hdec _ _ _ _ Hd Hr Ed) as [= -> ->]. pose proof (proj1 (decode_skip_agree (fuel_for (init text))) (init text) 100) as Ha. rewrite Ed in Ha. unfold agree in Ha.
    destruct (do_json_skip _ _ _) as [[[[]|] ps]|]; [|by destruct Ha..]. destruct Ha as [_ <-]. cbn [mbind option_bind]. do 3 f_equal.
    change (data (init text)) with text. change (data (init rest)) with rest. subst text. rewrite length_app, Nat.add_sub, take_app_length.
    assert (Hs : forall u, v <> JString u) by (intros u ->; discriminate (proj2 Hc (ex_intro _ u eq_refl))). unfold argument_text. rewrite Ht.
    destruct v as [|n|b|u|l|l]; try done. by destruct (Hs u).
Qed.

Lemma fields_first n v l body : fields store ((n, v) :: l) true = Some body ->
  exists f t rest, json_string n = Some f /\ store v = Some t /\ fields store l false = Some rest /\ body = f ++ ":"%char :: t ++ rest.
Proof.
  cbn [fields]. destruct (json_string n) as [f|]; [|done]. destruct (store v) as [t|]; [|done]. cbn. destruct (fields store l false) as [rest|]; [|done].
  cbn. intros [= <-]. by exists f, t, rest.
Qed.

Lemma quote_not_space b x : skip_whitespaces (init ((dquote :: b) ++ x)) = init ((dquote :: b) ++ x).
Proof. by apply skip_ws_id. Qed.
Lemma quote_no_close b x : try_skip_char "}"%char (init ((dquote :: b) ++ x)) = (false, init ((dquote :: b) ++ x)).
Proof. by apply try_skip_char_no. Qed.

(** The loop over the fields, on the text the writer makes. *)
Lemma parse_json_fields_text l : forallb (fun f => check_utf8 (fst f) && wf_value (snd f)) l = true -> depth (JObject l) <= 100 ->
  forall fuel q body, fields store l true = Some body -> (length body < fuel)%nat ->
  parse_json_fields (S fuel) q (init (body ++ ["}"%char])) = Some (add_args q (arguments l), Ok tt).
Proof.
  induction l as [|[n v] l IH]; intros Hwf Hd fuel q body Hb Hf.
  - injection Hb as <-. cbn [app parse_json_fields]. rewrite skip_ws_id, try_skip_char_yes by done. cbn -[bool_decide]. by rewrite add_args_nil.
  - apply fields_first in Hb as (f & t & rest & Hn & Hv & Hrest & ->). cbn [forallb fst snd] in Hwf. apply andb_true_iff in Hwf as [[Hwn Hwv]%andb_true_iff Hwf].
    apply depth_object in Hd as [Hdv Hdl]. destruct (json_string_round_trip n Hwn) as (f' & Hn' & (b & ->) & Hdec). rewrite Hn in Hn'. injection Hn' as ->.
    cbn [parse_json_fields]. cbn zeta. set (tail := rest ++ ["}"%char]).
    assert (Etext : ((dquote :: b) ++ ":"%char :: t ++ rest) ++ ["}"%char] = (dquote :: b) ++ ":"%char :: t ++ tail) by (subst tail; rewrite <- (app_assoc (dquote :: b)); cbn [app]; by rewrite <- app_assoc).
    rewrite Etext, quote_not_space, quote_no_close. change (empty (init ((dquote :: b) ++ ":"%char :: t ++ tail))) with false. cbn iota.
    rewrite Hdec, skip_ws_id, try_skip_char_yes by done.
    destruct (value_first v t Hwv Hv) as (c & s & -> & Hc & _). rewrite <- app_comm_cons. rewrite skip_ws_id by by apply value_start_spec. rewrite app_comm_cons.
    assert (Hends : ends_number tail = true).
    { subst tail. destruct l as [|[n2 v2] l]; [by injection Hrest as <-|]. rewrite fields_comma in Hrest. destruct (fields store _ true); [|done]. by injection Hrest as <-. }
    rewrite (read_json_value_text v (c :: s) tail Hwv ltac:(lia) Hv Hends). cbn [mbind option_bind]. subst tail.
    assert (Hargs : add_args q (arguments ((n, v) :: l)) = add_args (add_arg q n (argument_text v)) (arguments l)) by by rewrite add_args_cons.
    rewrite Hargs. destruct fuel as [|fuel]; [lia|]. rewrite !length_app in Hf. cbn [length] in Hf. rewrite length_app in Hf.
    destruct l as [|[n2 v2] l].
    + injection Hrest as <-. cbn [app]. rewrite skip_ws_id by done. change (ord (peek_char (init ["}"%char])) =? 125) with true. cbn iota.
      apply (IH Hwf Hdl fuel _ []); [done|cbn in *; lia].
    + rewrite fields_comma in Hrest. destruct (fields store ((n2, v2) :: l) true) as [body2|] eqn:Eb; [|done]. injection Hrest as <-. cbn [app].
      rewrite skip_ws_id by done. change (ord (peek_char (init (","%char :: body2 ++ ["}"%char]))) =? 125) with false. cbn iota. rewrite try_skip_char_yes.
      apply IH; [done..|cbn [length] in *; lia].
Qed.

(** An object that was written as a body gives an argument for every field. *)
Lemma parse_json_parameters_text p l text : wf_value (JObject l) = true -> depth (JObject l) <= 100 -> json_encode (JObject l) = Some text ->
  total_parameters_length_ p + len text <= MAX_TOTAL_PARAMETERS_LENGTH ->
  exists n, parse_json_parameters p text = Some (set_the_query (set_total_parameters_length_ p n) (add_args (the_query p) (arguments l)), Ok tt).
Proof.
  intros Hwf Hd Ht Hl. exists (total_parameters_length_ p + len text). unfold json_encode in Ht. rewrite store_object in Ht.
  destruct (fields store l true) as [body|] eqn:Eb; [|done]. injection Ht as <-. unfold parse_json_parameters. rewrite bool_decide_false by done. cbn zeta.
  cbn [total_parameters_length_ set_total_parameters_length_]. rewrite ltb_false by done. rewrite skip_ws_id by done.
  change (ord (peek_char (init ("{"%char :: body ++ ["}"%char]))) =? 34) with false. cbn iota. rewrite skip_spec. rewrite has_error_init.
  rewrite (parse_json_fields_text l Hwf Hd _ _ body Eb); [done|]. cbn [data init p_data]. rewrite length_app. cbn. lia.
Qed.

(** ** Responses *)

(** The head of a response is a status line and headers. *)
Definition status_line (code : Z) : bytes := lit "HTTP/1.1" ++ lit " " ++ print_int int32_min code ++ lit " " ++ Header.get_status_line code.

Lemma head_text_lines code headers : head_text code headers = lines_text (status_line code :: (header_text <$> headers)) ++ crlf.
Proof.
  unfold head_text, head_pieces. rewrite text_of_app. f_equal.
  change (lines_text (status_line code :: (header_text <$> headers))) with ((status_line code ++ crlf) ++ lines_text (header_text <$> headers)). f_equal.
  - rewrite !text_of_cons. cbn [Builder.piece_text]. change (Builder.text_of []) with (@nil ascii). rewrite app_nil_r. unfold status_line.
    change (lit "HTTP/1.1 ") with (lit "HTTP/1.1" ++ lit " "). change ([" "%char]) with (lit " "). by rewrite <- !app_assoc.
  - induction headers as [|[k v] l IH]; [done|]. rewrite bind_cons, text_of_app, IH.
    change (lines_text (header_text <$> (k, v) :: l)) with ((header_text (k, v) ++ crlf) ++ lines_text (header_text <$> l)). f_equal.
    rewrite !text_of_cons. cbn [Builder.piece_text]. change (Builder.text_of []) with (@nil ascii). rewrite app_nil_r. unfold header_text. cbn [fst snd].
    by rewrite <- !app_assoc.
Qed.

(** Numbers have neither spaces nor line ends. *)
Lemma number_text_plain t : number_text t = true -> Forall (fun c => is_space c = false /\ c <> chr 13) t.
Proof.
  unfold number_text. destruct t as [|c s]; [done|]. intros [_ H]%andb_true_iff. apply Forall_forall. intros x Hx.
  rewrite forallb_forall in H. specialize (H x (proj1 (list_elem_of_In _ _) Hx)).
  assert (Hc : implb (is_number_char x) (negb (is_space x) && negb (bool_decide (x = chr 13))) = true) by (clear; revert x; all_chars).
  rewrite H in Hc. cbn [implb] in Hc. apply andb_true_iff in Hc as [H1 H2]. by rewrite negb_true_iff, ?bool_decide_eq_false in *.
Qed.

Lemma get_status_line_plain code : chr 13 ∉ Header.get_status_line code.
Proof.
  unfold Header.get_status_line. repeat case_bool; match goal with |- _ ∉ lit ?s => exact (bool_decide_eq_false_1 (chr 13 ∈ lit s) eq_refl) end.
Qed.

Lemma trim_plain s : Forall (fun c => is_space c = false) s -> trim (" "%char :: s) = s.
Proof.
  intros H. change (trim (" "%char :: s)) with (trim s). assert (Hd : forall l, Forall (fun c => is_space c = false) l -> drop_spaces l = l).
  { intros l Hl. destruct l as [|c l]; [done|]. apply Forall_cons in Hl as [Hc _]. cbn [drop_spaces]. by rewrite Hc. }
  unfold trim. rewrite (Hd s) by done. rewrite Hd by by apply Forall_reverse. apply reverse_involutive.
Qed.


(** What the headers of a response make of the state. *)
Definition emplace_header (p : parsed) (name value : bytes) : parsed := update_query p (fun q => set_hq_headers q (hq_headers q ++ [(name, value)])).

Lemma process_connection p : process_header p (lit "Connection") (" "%char :: lit "keep-alive")
  = update_query (emplace_header p (lit "connection") (lit "keep-alive")) (fun q => set_hq_keep_alive q true).
Proof. unfold process_header. cbn zeta. change (to_lower (trim (lit "Connection"))) with (lit "connection"). rewrite bool_decide_false, bool_decide_true by done. done. Qed.

Lemma process_content_type p : process_header p (lit "Content-Type") (" "%char :: lit "application/json")
  = set_content_type_lowercased_ (set_content_type_ (emplace_header p (lit "content-type") (lit "application/json")) (lit "application/json")) (lit "application/json").
Proof. unfold process_header. cbn zeta. change (to_lower (trim (lit "Content-Type"))) with (lit "content-type"). do 2 rewrite bool_decide_false by done. by rewrite bool_decide_true. Qed.

Lemma process_retry_after p v : process_header p (lit "Retry-After") v = emplace_header p (lit "retry-after") (trim v).
Proof. unfold process_header. cbn zeta. change (to_lower (trim (lit "Retry-After"))) with (lit "retry-after"). by do 5 rewrite bool_decide_false by done. Qed.

Lemma process_content_length p n : 0 <= n <= MAX_CONTENT_SIZE -> process_header p (lit "Content-Length") (" "%char :: print_uint n)
  = set_content_length_ (emplace_header p (lit "content-length") (print_uint n)) n.
Proof.
  intros Hn. unfold process_header. cbn zeta. change (to_lower (trim (lit "Content-Length"))) with (lit "content-length"). rewrite bool_decide_true by done.
  rewrite trim_plain by (eapply Forall_impl; [apply print_uint_digits; lia|]; all_chars). unfold MAX_CONTENT_SIZE in *. unfold to_unsigned. rewrite to_integer_loop_print by (change (2 ^ 64) with 18446744073709551616; lia).
  by rewrite ltb_false by lia.
Qed.

Definition response_headers (n retry_after : Z) : list (bytes * bytes) :=
  [(lit "connection", lit "keep-alive"); (lit "content-type", lit "application/json")]
  ++ (if 0 <? retry_after then [(lit "retry-after", print_int int32_min retry_after)] else [])
  ++ [(lit "content-length", print_uint n)].

Lemma response_parsed p n retry_after : 0 <= n <= MAX_CONTENT_SIZE ->
  process_headers (reset_head p) (json_headers n retry_after []) =
  mk_parsed (set_hq_keep_alive (set_hq_headers (set_hq_content (set_hq_files (the_query p) []) []) (response_headers n retry_after)) true)
    (total_parameters_length_ p) n [] [] (lit "application/json") (lit "application/json").
Proof.
  intros Hn. unfold process_headers, json_headers, response_headers. rewrite (bool_decide_true ([] = [])) by done.
  destruct (0 <? retry_after); cbn [app foldl fst snd]; rewrite process_connection, process_content_type, ?process_retry_after, process_content_length by done.
  - rewrite trim_plain by (eapply Forall_impl; [apply number_text_plain, number_text_print; by left|]; by intros ? []). done.
  - done.
Qed.

Lemma status_line_ok code : line_ok (status_line code).
Proof.
  split; [done|]. unfold status_line. rewrite !elem_of_app. assert (Hp : chr 13 ∉ print_int int32_min code).
  { pose proof (number_text_plain _ (number_text_print int32_min code ltac:(by left))) as H. rewrite Forall_forall in H. by intros [_ []]%H. }
  intros [?|[?|[?|[?|?]]]]; [by apply (bool_decide_eq_false_1 (chr 13 ∈ lit "HTTP/1.1"))|by apply (bool_decide_eq_false_1 (chr 13 ∈ lit " "))|done|by apply (bool_decide_eq_false_1 (chr 13 ∈ lit " "))|by eapply get_status_line_plain].
Qed.

Lemma json_headers_ok n retry_after : 0 <= n -> Forall header_ok (json_headers n retry_after []).
Proof.
  intros Hn. assert (Hk : forall k v, k ∈ [lit "Connection"; lit "Content-Type"; lit "Retry-After"; lit "Content-Length"] -> chr 13 ∉ v -> header_ok (k, v)).
  { intros k v Hk Hv. unfold header_ok. cbn [fst snd].
    assert (bool_decide (":"%char ∉ k) && bool_decide (chr 13 ∉ k) && match k with c :: _ => negb (ord c =? 32) && negb (ord c =? 9) | [] => false end = true) as H.
    { revert k Hk. apply Forall_forall. repeat constructor. }
    apply andb_true_iff in H as [[H1 H2]%andb_true_iff H3]. apply bool_decide_eq_true in H1, H2. destruct k as [|c k]; [done|].
    apply andb_true_iff in H3 as [H3 H4]. by rewrite negb_true_iff, Z.eqb_neq in H3, H4. }
  assert (Hnum : forall x, number_text x = true -> chr 13 ∉ x).
  { intros x Hx. pose proof (number_text_plain _ Hx) as H. rewrite Forall_forall in H. by intros [_ []]%H. }
  unfold json_headers. rewrite (bool_decide_true ([] = [])) by done. repeat apply Forall_app_2; try constructor.
  - apply Hk; [set_solver|]. exact (bool_decide_eq_false_1 (chr 13 ∈ lit "keep-alive") eq_refl).
  - constructor; [|constructor]. apply Hk; [set_solver|]. exact (bool_decide_eq_false_1 (chr 13 ∈ lit "application/json") eq_refl).
  - destruct (0 <? retry_after); constructor; [|constructor]. apply Hk; [set_solver|]. apply Hnum, number_text_print. by left.
  - apply Hk; [set_solver|]. intros Hin. pose proof (print_uint_digits n Hn) as H. rewrite Forall_forall in H. by apply H in Hin.
  - constructor.
Qed.

Lemma json_headers_length n retry_after : len (lines_text (header_text <$> json_headers n retry_after [])) <= 1000.
Proof.
  pose proof (print_uint_length n). pose proof (print_int_length retry_after). unfold json_headers. rewrite (bool_decide_true ([] = [])) by done.
  destruct (0 <? retry_after); cbn [app fmap list_fmap lines_text mbind list_bind]; unfold header_text; cbn [fst snd]; rewrite !len_app;
    repeat match goal with |- context [len (lit ?s)] => let v := eval vm_compute in (len (lit s)) in change (len (lit s)) with v end;
    change (len crlf) with 2; change (len []) with 0; lia.
Qed.

Lemma status_text_length code : len (status_line code) <= 100.
Proof.
  unfold status_line. rewrite !len_app. pose proof (print_int_length code). pose proof (HttpConnection.status_line_length code).
  change (len (lit "HTTP/1.1")) with 8. change (len (lit " ")) with 1. lia.
Qed.

(** The response to a query whose answer is an object. *)
Definition response_lines (code n retry_after : Z) : list bytes := status_line code :: (header_text <$> json_headers n retry_after []).

Definition parsed_response (p : parsed) (lines : list bytes) (code n retry_after : Z) : parsed :=
  mk_parsed (set_hq_keep_alive (set_hq_headers (set_hq_content (set_hq_files
      (response_query (set_hq_container (the_query p) [lines_text lines]) code (Header.get_status_line code)) []) []) (response_headers n retry_after)) true)
    (total_parameters_length_ p) n [] [] (lit "application/json") (lit "application/json").

Lemma response_message max_post_size p code retry_after l text : tmin 32 <= code <= tmax 32 ->
  wf_value (JObject l) = true -> depth (JObject l) <= 100 -> json_encode (JObject l) = Some text -> total_parameters_length_ p = 0 ->
  len text <= MAX_TOTAL_PARAMETERS_LENGTH ->
  let lines := response_lines code (len text) retry_after in
  let p1 := parsed_response p lines code (len text) retry_after in
  message max_post_size p lines text p1 text
  /\ the_query <$> receive max_post_size p1 text = Some (set_hq_content (add_args (add_container (the_query p1) text) (arguments l)) []).
Proof.
  intros Hcode Hwf Hd Ht Hp Hl. cbn zeta. set (lines := response_lines _ _ _). set (p1 := parsed_response _ _ _ _ _).
  assert (Hpos : 0 < len text).
  { unfold json_encode in Ht. rewrite store_object in Ht. destruct (fields store l true) as [b|]; [|done]. injection Ht as <-. rewrite len_cons. pose proof (len_nonneg (b ++ ["}"%char])). lia. }
  assert (Hrecv : exists p2, receive max_post_size p1 text = Some p2 /\ the_query p2 = set_hq_content (add_args (add_container (the_query p1) text) (arguments l)) []).
  { unfold receive. assert (has_body p1 = true) as -> by (unfold has_body; cbn [p1 parsed_response transfer_encoding_ content_length_]; rewrite leb_false by lia; done).
    cbn [negb]. cbn zeta. change (has_parameters p1) with true. change (is_urlencoded p1) with false. change (total_parameters_length_ p1) with (total_parameters_length_ p).
    cbn iota. rewrite leb_true by lia.
    destruct (parse_json_parameters_text (update_query p1 (fun q => add_container q text)) l text Hwf Hd Ht) as (n & ->); [cbn; lia|]. by eexists. }
  split; [|destruct Hrecv as (p2 & -> & H); cbn; by rewrite H].
  assert (Hlen : len text <= MAX_CONTENT_SIZE) by (unfold MAX_TOTAL_PARAMETERS_LENGTH, MAX_CONTENT_SIZE in *; lia).
  split.
  - split; [done|]. split.
    + constructor; [apply status_line_ok|]. apply Forall_fmap. eapply Forall_impl; [apply json_headers_ok; lia|]. apply header_line_ok.
    + change (lines_text lines) with ((status_line code ++ crlf) ++ lines_text (header_text <$> json_headers (len text) retry_after [])).
      rewrite !len_app. pose proof (json_headers_length (len text) retry_after). pose proof (status_text_length code). change (len crlf) with 2. unfold MAX_TOTAL_HEADERS_LENGTH. lia.
  - unfold parameters_bound, MAX_TOTAL_PARAMETERS_LENGTH. lia.
  - assert (Etext : lines_text lines = lit "HTTP/1.1" ++ lit " " ++ print_int int32_min code ++ lit " " ++ Header.get_status_line code ++ crlf
      ++ lines_text (header_text <$> json_headers (len text) retry_after [])).
    { change (lines_text lines) with ((status_line code ++ crlf) ++ lines_text (header_text <$> json_headers (len text) retry_after [])).
      unfold status_line. by rewrite <- !app_assoc. }
    rewrite (f_equal (parse_head (update_query p (fun q => set_hq_container q [lines_text lines]))) Etext). rewrite parse_head_response.
    + rewrite response_parsed by lia. change int32_min with (tmin 32). rewrite to_integer_print by (first [by left|done]). done.
    + intros Hin. pose proof (number_text_plain _ (number_text_print int32_min code ltac:(by left))) as H. rewrite Forall_forall in H. by apply H in Hin as [? _].
    + apply get_status_line_plain.
    + apply json_headers_ok. lia.
  - apply sized; [done|done|]. intros E. rewrite E in Hpos. by vm_compute in Hpos.
  - split; [by left|]. split; [|done]. cbn. unfold MAX_TOTAL_PARAMETERS_LENGTH, MAX_CONTENT_SIZE in *. lia.
  - destruct Hrecv as (p2 & -> & _). by eexists.
Qed.

Lemma response_fields p lines code n retry_after text l :
  let response := set_hq_content (add_args (add_container (the_query (parsed_response p lines code n retry_after)) text) (arguments l)) [] in
  hq_type response = ResponseType /\ hq_code response = code /\ hq_reason response = Header.get_status_line code /\ hq_keep_alive response = true
  /\ hq_headers response = response_headers n retry_after /\ hq_args response = arguments l /\ hq_files response = [] /\ hq_content response = [].
Proof. cbn zeta. unfold parsed_response. cbn [the_query]. by split_and!. Qed.

(** The bytes of a response. *)
Lemma response_bytes q rest : bytes_of (on_query_finished q) ++ rest =
  lines_text (response_lines (Query.http_status_code q) (len (Query.answer q)) (Query.retry_after q)) ++ crlf ++ Query.answer q ++ rest.
Proof.
  unfold on_query_finished. rewrite send_response_ok by done. unfold bytes_of. cbn [mbind list_bind action_bytes app]. rewrite !app_nil_r, head_text_lines.
  by rewrite <- !app_assoc.
Qed.
