(* ===== verification/HttpReaderProperties.v ===== *)
(** * Properties of the HTTP reader

    Runs of [HttpReader] over everything that can arrive on a connection, and the
    theorems about them. *)

From S2P Require Import Prelude TdMisc Utf8 TextParser Json HttpHeader IPAddress HttpUrl ByteFlow Query HttpConnection HttpReader HttpReaderChecks HttpReaderMessages HttpReaderForms HttpReaderErrors HttpReaderAnswers.

Import Chars Strings Integers Coding Parser Boundary Flow HttpReader.

(** ** Runs *)

Section Runs.
Context {Gz : Type} {ops : gzip_ops Gz} (e : env) (max_post_size max_files : Z).
#[local] Notation reader := (HttpReader.reader (Gz := Gz)).

(** A reader whose calls have not failed, other than by a refusal to be slow, and
    the files of the queries that are complete.  Bytes arrive; the connection calls [read_next] with a new query, or
    with the one that is not complete. *)
Inductive reached : reader -> list bytes -> Prop :=
| reached_new q : reached (new_reader max_post_size max_files q) []
| reached_input r past s : reached r past -> reached (set_input_ r (input_ r ++ s)) past
| reached_query r past query q slow r' : reached r past -> proper_query r query q ->
    reads_next e r query q slow r' (Ok 0) -> reached r' (past ++ query_files r')
| reached_more r past query q slow r' n : reached r past -> proper_query r query q ->
    reads_next e r query q slow r' (Ok n) -> 0 < n -> reached r' past
| reached_slow r past query q r' : reached r past -> proper_query r query q -> reads_next e r query q false r' (Err slow) -> reached r' past.

(** The calls of [read_next] for a query, while the pieces arrive, read one message:
    the bytes after it are left, the reader is as before a message, and [made] holds
    of it and the query it has made. *)
Definition reads_one (query : Z) (q : http_query) (slow : bool) (r : reader) (pieces : list bytes) (rest : bytes) (made : reader -> http_query -> Prop) : Prop :=
  exists r' unread, delivers e query q slow r pieces r' unread /\ input_ r' ++ concat unread = rest /\ idle r' /\ made r' (the_query (the_parsed r')).

Context {laws : gzip_laws Gz} (He : env_ok e).

Lemma reads_next_deterministic (r : reader) query q slow r1 res1 r2 res2 :
  reads_next e r query q slow r1 res1 -> reads_next e r query q slow r2 res2 -> r1 = r2 /\ res1 = res2.
Proof using Type.
  assert (Hmono : forall fuel fuel' x, read_next e fuel r query q slow = Some x -> (fuel <= fuel')%nat -> read_next e fuel' r query q slow = Some x).
  { intros fuel fuel' x. unfold read_next. destruct (if bool_decide _ then _ else _) as [r0|]; cbn [mbind option_bind]; [|done].
    destruct (do_read_next e fuel slow r0 _) as [[r' res]|] eqn:E; cbn [mbind option_bind]; [|done]. intros H Hf.
    by rewrite (do_read_next_mono e slow fuel fuel' _ _ _ E Hf). }
  intros [f1 E1] [f2 E2]. destruct (Nat.le_ge_cases f1 f2) as [H|H].
  - eapply Hmono in E1; [|exact H]. rewrite E1 in E2. by simplify_eq.
  - eapply Hmono in E2; [|exact H]. rewrite E2 in E1. by simplify_eq.
Qed.

Lemma reached_consistent r past : reached r past -> consistent past r.
Proof using He laws.
  induction 1 as [q|r past s _ IH|r past query q slow r' _ IH Hq Hr|r past query q slow r' n _ IH Hq Hr Hn|r past query q r' _ IH Hq Hr].
  - split; try done. by intros _ [].
  - destruct IH as [H1 H2 H3 H4 H5 H6 H7 H8]. by split.
  - destruct (read_next_total e He past r query q slow IH Hq) as (r1 & res & Hr1 & H). destruct (reads_next_deterministic _ _ _ _ _ _ _ _ Hr Hr1) as [-> <-].
    by destruct H.
  - destruct (read_next_total e He past r query q slow IH Hq) as (r1 & res & Hr1 & H). destruct (reads_next_deterministic _ _ _ _ _ _ _ _ Hr Hr1) as [-> <-].
    destruct n; [done|by destruct H as (_ & _ & H)|done].
  - destruct (read_next_error e He past r r' query q false slow IH Hq Hr) as [[]|(_ & _ & H & _)]. exact H.
Qed.

End Runs.

(** ** An example

    No compression; a system where everything succeeds. *)

Module ReaderExample.

#[export] Instance no_gzip : gzip_ops unit :=
  {| gzip_new _ _ _ := tt; gzip_set_options g _ _ := g; gzip_wakeup g _ _ := (g, [], None) |}.
#[export, refine] Instance no_gzip_laws : gzip_laws unit := {| gzip_left _ := O |}.
Proof. all: cbn; done. Defined.

Definition system : env := mk_env (lit "/tmp") (fun _ d => Ok (lit "/tmp")) (fun _ d prefix => Ok (d ++ lit "/" ++ prefix ++ lit "ABCDEF"))
  (fun _ _ => Ok tt) (fun _ s => Ok (len s)) (fun _ => lit "file").

Lemma system_ok : env_ok system.
Proof.
  split; cbn.
  - by intros _ _ d [= <-].
  - intros _ d p d' [= <-]. exists d, (lit "ABCDEF"). split; [done|]. split; [done|]. by apply (bool_decide_eq_false_1 ("/"%char ∈ lit "ABCDEF")).
  - intros _. by apply (bool_decide_eq_false_1 ("/"%char ∈ lit "file")).
Defined.

Definition query0 : http_query := new_query Invalid.
Definition start : reader (Gz := unit) := new_reader 1000 10 query0.

(** A form with a field and a file. *)
Definition form_parts : list form_part := [Field (lit "f") (lit "val"); File (lit "d") (lit "a.txt") (lit "text/x") (lit "hello")].
Definition form_body : bytes := form_text (lit "XX") [] form_parts crlf.
Definition form_head : list bytes :=
  [lit "POST /bot1:a/x?k=1 HTTP/1.1"; lit "Content-Type: multipart/form-data; boundary=XX"; lit "Content-Length: " ++ print_uint (len form_body)].
Definition form_message : bytes := lines_text form_head ++ crlf ++ form_body.
Definition parse_lines (lines : list bytes) : parsed :=
  from_option fst (mk_parsed query0 0 0 [] [] [] []) (parse_head (update_query (mk_parsed query0 0 (-1) [] [] [] []) (fun q => set_hq_container q [lines_text lines])) (lines_text lines)).
Definition form_parsed : parsed := parse_lines form_head.
Definition with_form : reader (Gz := unit) := set_input_ start form_message.

Lemma with_form_reached : reached system 1000 10 with_form [].
Proof. apply (reached_input _ _ _ start [] form_message), reached_new. Defined.

(** A request with JSON parameters in two chunks. *)
Definition json_head : list bytes := [lit "POST /bot1:a/x?a=b%20c HTTP/1.1"; lit "Content-Type: application/json"; lit "Transfer-Encoding: chunked"].
Definition json_text : bytes := lit "{" ++ [dquote] ++ lit "k" ++ [dquote] ++ lit ":1}".
Definition json_chunks : bytes := (lit "3" ++ crlf ++ take 3 json_text ++ crlf) ++ (lit "4" ++ crlf ++ drop 3 json_text ++ crlf) ++ lit "0" ++ crlf ++ crlf.
Definition json_parsed : parsed := parse_lines json_head.

Lemma json_body : chunked_body json_chunks json_text 13.
Proof.
  assert (Hc : forall c, c ∈ [lit "0"; lit "3"; lit "4"] -> chr 13 ∉ c).
  { apply Forall_forall. repeat constructor; apply (bool_decide_eq_false_1 (chr 13 ∈ _)); reflexivity. }
  apply (body_chunk (lit "3") (take 3 json_text) ((lit "4" ++ crlf ++ drop 3 json_text ++ crlf) ++ lit "0" ++ crlf ++ crlf) (drop 3 json_text) 8); [|cbn; lia|done..|].
  { apply Hc. set_solver. }
  apply (body_chunk (lit "4") (drop 3 json_text) (lit "0" ++ crlf ++ crlf) [] 2); [|cbn; lia|done..|].
  { apply Hc. set_solver. }
  apply body_end; [apply Hc; set_solver|cbn; lia|done].
Defined.

Lemma lines_checked lines : forallb (fun l => negb (bool_decide (l = [])) && negb (bool_decide (chr 13 ∈ l))) lines = true -> Forall line_ok lines.
Proof.
  intros H. apply Forall_forall. intros l Hl. rewrite forallb_forall in H. specialize (H l (proj1 (list_elem_of_In _ _) Hl)).
  apply andb_true_iff in H as [H1 H2]. by rewrite !negb_true_iff, !bool_decide_eq_false in *.
Qed.

Lemma json_message : message 1000 (set_the_query (the_parsed start) query0) json_head json_chunks json_parsed json_text.
Proof.
  split.
  - split; [done|]. split; [apply lines_checked; vm_compute; reflexivity|vm_compute; reflexivity].
  - done.
  - by vm_compute.
  - apply (in_chunks _ _ _ 13); [done|apply json_body|done].
  - split; [by left|]. split; [done|]. by vm_compute.
  - eexists. by vm_compute.
Defined.

Lemma some_pair {A B} (a c : A) (b d : B) : Some (a, b) = Some (c, d) -> a = c /\ b = d.
Proof. by intros [= -> ->]. Qed.

Lemma system_works : env_works system.
Proof. split; cbn; intros; [done|by eexists|eexists; split; [done|by destruct d]|done|done]. Defined.

Lemma form_is_read : HttpReaderForms.form_message 10 (set_the_query (the_parsed start) query0) form_head form_body form_parsed (lit "XX") [] form_parts crlf.
Proof.
  split.
  - split; [done|]. split; [apply lines_checked; vm_compute; reflexivity|vm_compute; reflexivity].
  - by vm_compute.
  - apply sized; by vm_compute.
  - split; [by left|done].
  - done.
  - by vm_compute.
  - by vm_compute.
  - apply first_found; [done|by vm_compute].
  - split; [done|]. constructor; [|constructor; [|constructor]]; (split; [split; [done|]|split; [apply first_found; [done|vm_compute; reflexivity]|vm_compute; discriminate]]); [done|].
    split; [done|]. exact (bool_decide_eq_false_1 (chr 13 ∈ lit "text/x") eq_refl).
  - vm_compute. discriminate.
  - split; [vm_compute; reflexivity|vm_compute; discriminate].
Defined.

(** An answer with an error. *)
Definition error_fields : list (bytes * json_value) :=
  [(lit "ok", JBoolean false); (lit "error_code", JNumber (lit "404")); (lit "description", JString (lit "Not Found"))].
Definition error_text : bytes := from_option id [] (Writer.json_encode (JObject error_fields)).
Definition answered_query : Query.query := fst (Query.respond sample_query Query.SError 404 error_text).

End ReaderExample.

(** ** The theorems *)

Import ReaderExample.

(** C17. Whatever bytes arrive on a connection, in whatever pieces, and whatever the
    file system answers, a call of [read_next] ends and no check of the reader
    fails: sizes, lengths of boundaries, flows that are closed once, temporary files
    that are open when they are written.  It returns that the query is complete, or
    a positive number of bytes to wait for, or an error.  An error has a code that is
    an HTTP status ([error_codes]), or it is the refusal of a thread that may not be
    slow; after that, and after the other answers, the reader can be called again. *)
Theorem reader_checks {Gz : Type} {ops : gzip_ops Gz} {laws : gzip_laws Gz} (e : env) max_post_size max_files (r : reader (Gz := Gz)) past query q can_be_slow :
  env_ok e -> reached e max_post_size max_files r past -> proper_query r query q ->
  exists r' res, reads_next e r query q can_be_slow r' res /\
  match res with
  | Ok n => 0 <= n /\ (n = 0 -> query_ r' = None) /\ (0 < n -> query_ r' = Some query)
      /\ reached e max_post_size max_files r' (if n =? 0 then past ++ query_files r' else past)
  | Err err => http_error err \/ can_be_slow = false /\ err = slow /\ query_ r' = Some query /\ reached e max_post_size max_files r' past
  end.
Proof.
  intros He Hr Hq. destruct (read_next_total e He past r query q can_be_slow (reached_consistent e _ _ He r past Hr) Hq) as (r' & res & E & H).
  exists r', res. split; [done|]. destruct res as [n|err].
  2:{ destruct (read_next_error e He past r r' query q can_be_slow err (reached_consistent e _ _ He r past Hr) Hq E) as [H1|(-> & -> & _ & H1)]; [by left|right].
      split_and!; [done..|]. by eapply reached_slow. }
  destruct n as [|n|n].
  - destruct H as [(_ & Hn & _) _]. split_and!; [done|done|done|by eapply reached_query].
  - destruct H as (_ & Hn & _). split_and!; [done|done|done|by eapply reached_more].
  - by destruct H as [? _].
Qed.

Lemma reader_checks_witness : exists r' res, reads_next system with_form 1 query0 true r' res /\
  match res with
  | Ok n => 0 <= n /\ (n = 0 -> query_ r' = None) /\ (0 < n -> query_ r' = Some 1)
      /\ reached system 1000 10 r' (if n =? 0 then [] ++ query_files r' else [])
  | Err err => http_error err \/ true = false /\ err = slow /\ query_ r' = Some 1 /\ reached system 1000 10 r' []
  end.
Proof. apply (reader_checks system 1000 10 with_form [] 1 query0 true); [apply system_ok|apply with_form_reached|by right]. Defined.

(** C18. The reader leaves no file behind.  At any time, and also after an error, its
    destructor succeeds, and then the temporary files that were created and not
    deleted are exactly those of the queries: the complete ones and the one under
    construction; the same holds of the directories that were made for them. *)
Theorem reader_files {Gz : Type} {ops : gzip_ops Gz} {laws : gzip_laws Gz} (e : env) max_post_size max_files (r : reader (Gz := Gz)) past query q slow r' res :
  env_ok e -> reached e max_post_size max_files r past -> proper_query r query q -> reads_next e r query q slow r' res ->
  exists t, destroy (the_temp r') = Some t /\
  forall x, total (file_delta x) (out t) = count x (past ++ query_files r') /\ total (dir_delta x) (out t) = count x (dir_of <$> past ++ query_files r').
Proof.
  intros He Hr Hq E. destruct (read_next_total e He past r query q slow (reached_consistent e _ _ He r past Hr) Hq) as (r1 & res1 & E1 & H).
  destruct (reads_next_deterministic e _ _ _ _ _ _ _ _ E E1) as [-> ->].
  assert (Hc : clean (the_temp r1) (past ++ query_files r1)).
  { destruct res1 as [n|err]; [|done]. destruct n as [|n|n].
    - destruct H as [(_ & Hn & _) H]. destruct H as [_ _ _ _ _ _ _ H]. unfold holds in H. by rewrite Hn in H.
    - destruct H as (_ & Hn & H). destruct H as [_ _ _ _ _ _ _ H]. unfold holds in H. by rewrite Hn in H.
    - by destruct H as [? _]. }
  destruct (destroy_ok (the_temp r1) _ Hc) as (t & -> & _ & H1 & H2). exists t. split; [done|]. by split.
Qed.

Lemma reader_files_witness : exists r' t, read_next system 100 with_form 1 query0 true = Some (r', Ok 0) /\
  query_files r' = [lit "/tmp/tdlib-server-tmpABCDEF/file"] /\ destroy (the_temp r') = Some t /\
  forall x, total (file_delta x) (out t) = count x ([] ++ query_files r') /\ total (dir_delta x) (out t) = count x (dir_of <$> [] ++ query_files r').
Proof.
  destruct (read_next system 100 with_form 1 query0 true) as [[r' res]|] eqn:E; [|by vm_compute in E].
  destruct (reader_files system 1000 10 with_form [] 1 query0 true r' res system_ok with_form_reached) as (t & Ht & H);
    [right; split; reflexivity|exists 100%nat; exact E|]. exists r', t.
  assert (res = Ok 0 /\ query_files r' = [lit "/tmp/tdlib-server-tmpABCDEF/file"]) as [-> Hf].
  { assert (E' : (fun x => (snd x, query_files (fst x))) <$> read_next system 100 with_form 1 query0 true
      = Some (Ok 0, [lit "/tmp/tdlib-server-tmpABCDEF/file"])) by (vm_compute; reflexivity).
    rewrite E in E'. exact (some_pair _ _ _ _ E'). }
  split; [reflexivity|]. split; [exact Hf|]. split; [exact Ht|exact H].
Defined.

(** C19. A message is read in the same way however it is cut: when the head, the
    text of the body (of known length, or in chunks) and what comes after them
    arrive in any pieces, every call before the last one asks for more, the last one
    gives the query that the head and the whole body make ([receive]: the content,
    or parameters), and the bytes after the message are left for the next one. *)
Theorem message_read {Gz : Type} {ops : gzip_ops Gz} (e : env) (r : reader (Gz := Gz)) query q slow lines text p1 body rest pieces :
  idle r -> message (max_post_size_ r) (set_the_query (the_parsed r) q) lines text p1 body ->
  input_ r ++ concat pieces = lines_text lines ++ crlf ++ text ++ rest ->
  reads_one e query q slow r pieces rest (fun _ made => Some made = the_query <$> receive (max_post_size_ r) p1 body).
Proof.
  intros Hr Hm Hi. apply (message_delivered e query q (max_post_size_ r) _ lines text p1 body rest Hm); [right; apply Hr|]. split; [apply with_query_setup|]. left. by apply idle_awaiting.
Qed.

Lemma message_read_witness :
  reads_one system 1 query0 true start [lines_text json_head; crlf ++ take 6 json_chunks; drop 6 json_chunks ++ lit "GET"; lit " /"] (lit "GET /")
    (fun _ made => Some made = the_query <$> receive 1000 json_parsed json_text).
Proof.
  apply (message_read system start 1 query0 true json_head json_chunks json_parsed json_text (lit "GET /")); [by split_and!|apply json_message|by vm_compute].
Defined.

(** C20. The parts of a form are read back: when a head and a form with fields and
    files arrive in any pieces, and no operation on files fails, every call before
    the last one asks for more; the last one gives the query of the head with an
    argument for every field and a file for every file, in order, the temporary
    files have the data of the parts, and the bytes after the message are left.
    A thread that may not be slow gives up before the first file, and one that may
    be slow goes on from there ([delivers_slow]).
    [MAX_TOTAL_PARAMETERS_LENGTH] limits every field, but not their sum. *)
Theorem form_read {Gz : Type} {ops : gzip_ops Gz} (e : env) (r : reader (Gz := Gz)) query q slow lines text p1 b prologue ps epilogue rest pieces :
  env_works e -> idle r -> temp_file_ (the_temp r) = false ->
  HttpReaderForms.form_message (max_files_ r) (set_the_query (the_parsed r) q) lines text p1 b prologue ps epilogue ->
  input_ r ++ concat pieces = lines_text lines ++ crlf ++ text ++ rest ->
  reads_one e query q slow r pieces rest (fun r' made => exists args ws, outcome ps args (hq_files made) ws
    /\ hq_args made = hq_args (the_query p1) ++ args /\ written (out (the_temp r')) = written (out (the_temp r)) ++ ws /\ same_head made (the_query p1)).
Proof.
  intros He Hr Ht Hm Hi. edestruct (form_delivered e He query q (max_files_ r) _ _ _ _ _ _ _ _ rest (written (out (the_temp r))) Hm slow pieces r) as (r' & unread & Hd & Hu & Hidle & H); [right; apply Hr| |].
  - left. split; [by apply idle_awaiting|]. destruct (with_query_setup query q r) as (_ & _ & -> & ->). done.
  - by exists r', unread.
Qed.

Lemma form_read_witness :
  reads_one system 1 query0 false start [take 100 form_message; take 150 (drop 100 form_message); drop 250 form_message ++ lit "GE"; lit "T"] (lit "GET")
    (fun r' made => exists args ws, outcome form_parts args (hq_files made) ws /\ hq_args made = hq_args (the_query form_parsed) ++ args
      /\ written (out (the_temp r')) = written (out (the_temp start)) ++ ws /\ same_head made (the_query form_parsed)).
Proof.
  apply (form_read system start 1 query0 false form_head form_body form_parsed (lit "XX") [] form_parts crlf (lit "GET"));
    [apply system_works|by split_and!|done|apply form_is_read|by vm_compute].
Defined.

(** C21. The answer to a query comes back from the text of its response: when a client
    with this reader gets the bytes that the connection writes for a query whose
    answer is a JSON object, in any pieces, it reads one response with the status,
    the reason and the headers that were written and an argument for every field;
    strings are decoded, other values keep their text.  What comes after the
    response is left. *)
Theorem response_read {Gz : Type} {ops : gzip_ops Gz} (e : env) (r : reader (Gz := Gz)) query q slow (answered : Query.query) l rest pieces :
  idle r -> tmin 32 <= Query.http_status_code answered <= tmax 32 -> wf_value (JObject l) = true -> depth (JObject l) <= 100 ->
  Writer.json_encode (JObject l) = Some (Query.answer answered) -> len (Query.answer answered) <= MAX_TOTAL_PARAMETERS_LENGTH ->
  input_ r ++ concat pieces = bytes_of (Response.on_query_finished answered) ++ rest ->
  reads_one e query q slow r pieces rest (fun _ response =>
  hq_type response = ResponseType /\ hq_code response = Query.http_status_code answered
  /\ hq_reason response = Header.get_status_line (Query.http_status_code answered) /\ hq_keep_alive response = true
  /\ hq_headers response = response_headers (len (Query.answer answered)) (Query.retry_after answered)
  /\ hq_args response = arguments l /\ hq_files response = [] /\ hq_content response = []).
Proof.
  intros Hr Hcode Hwf Hd Ht Hl Hi. pose proof Hr as (_ & _ & _ & Hp).
  destruct (response_message (max_post_size_ r) (set_the_query (the_parsed r) q) _ (Query.retry_after answered) l _ Hcode Hwf Hd Ht Hp Hl) as [Hm Hrecv].
  destruct (message_delivered e query q _ _ _ _ _ _ rest Hm slow pieces r) as (r' & unread & Hdel & Hu & Hidle & Hq); [right; apply Hr| |].
  - split; [apply with_query_setup|]. left. apply idle_awaiting; [done|]. by rewrite Hi, response_bytes.
  - exists r', unread. split; [done|]. split; [done|]. split; [done|]. rewrite Hrecv in Hq. apply (inj Some) in Hq. rewrite Hq. apply response_fields.
Qed.

Lemma response_read_witness :
  reads_one system 1 query0 false start [bytes_of (Response.on_query_finished answered_query) ++ lit "H"; lit "TTP"] (lit "HTTP") (fun _ response =>
  hq_type response = ResponseType /\ hq_code response = 404 /\ hq_reason response = lit "Not Found" /\ hq_keep_alive response = true
  /\ hq_headers response = response_headers (len error_text) 0
  /\ hq_args response = [(lit "ok", lit "false"); (lit "error_code", lit "404"); (lit "description", lit "Not Found")]
  /\ hq_files response = [] /\ hq_content response = []).
Proof.
  apply (response_read system start 1 query0 false answered_query error_fields (lit "HTTP")); [by split_and!|split; vm_compute; discriminate|reflexivity|vm_compute; discriminate|vm_compute; reflexivity|vm_compute; discriminate|vm_compute; reflexivity].
Defined.
