(* ===== verification/HttpConnectionBase.v ===== *)
(** * HTTP connections

    [HttpConnectionBase.h/.cpp] and [HttpInboundConnection.cpp]: the actor that reads
    queries from a socket, hands them on, and writes what it is given, with promises
    for the bytes that have left. *)

From S2P Require Import Prelude TdMisc HttpHeader IPAddress ByteFlow Query HttpConnection HttpReader.

Module Connection.

(** ** The state *)

Inductive state := Read | Write | Close.
#[export] Instance state_eq_dec : EqDecision state.
Proof. solve_decision. Defined.

(** What happens to others: queries to the handler, errors for [on_error], bytes that
    the socket takes, promises, timers, the move to another scheduler, the end. *)
Inductive action :=
| HandQuery (query : http_query)
| OnError (error : status)
| Sent (data : bytes)
| Fulfil (promise : nat) (res : result unit)
| SetTimeoutIn (seconds : Z)
| Migrate (scheduler_id : Z)
| Stopped.

(** [WritePromise]; a promise is known by a number. *)
Record write_promise := mk_promise { offset : Z; promise : nat }.

Section Connections.
Context {Gz : Type} {ops : HttpReader.gzip_ops Gz}.
#[local] Notation reader := (HttpReader.reader (Gz := Gz)).

(** [output_] is the output buffer of the socket, behind [write_buffer_].  A query is
    an address and, while it is read, in the reader; [queries_] were made. *)
Record connection := mk_connection {
  state_ : state;
  output_ : bytes;
  peer_address_ : ip_address;
  write_buffer_ : bytes;
  max_post_size_ : Z;
  max_files_ : Z;
  idle_timeout_ : Z;
  reader_ : reader;
  current_query_ : option Z;
  queries_ : Z;
  close_after_write_ : bool;
  written_offset_ : Z;
  queued_offset_ : Z;
  write_promises_ : list write_promise;
  slow_scheduler_id_ : Z;
  stopped : bool;
  out : list action;
}.

Definition set_state_ (c : connection) (v : state) : connection := mk_connection v (output_ c) (peer_address_ c)
  (write_buffer_ c) (max_post_size_ c) (max_files_ c) (idle_timeout_ c) (reader_ c) (current_query_ c) (queries_ c)
  (close_after_write_ c) (written_offset_ c) (queued_offset_ c) (write_promises_ c) (slow_scheduler_id_ c) (stopped c)
  (out c).
Definition set_output_ (c : connection) (v : bytes) : connection := mk_connection (state_ c) v (peer_address_ c)
  (write_buffer_ c) (max_post_size_ c) (max_files_ c) (idle_timeout_ c) (reader_ c) (current_query_ c) (queries_ c)
  (close_after_write_ c) (written_offset_ c) (queued_offset_ c) (write_promises_ c) (slow_scheduler_id_ c) (stopped c)
  (out c).
Definition set_write_buffer_ (c : connection) (v : bytes) : connection := mk_connection (state_ c) (output_ c)
  (peer_address_ c) v (max_post_size_ c) (max_files_ c) (idle_timeout_ c) (reader_ c) (current_query_ c) (queries_ c)
  (close_after_write_ c) (written_offset_ c) (queued_offset_ c) (write_promises_ c) (slow_scheduler_id_ c) (stopped c)
  (out c).
Definition set_reader_ (c : connection) (v : reader) : connection := mk_connection (state_ c) (output_ c)
  (peer_address_ c) (write_buffer_ c) (max_post_size_ c) (max_files_ c) (idle_timeout_ c) v (current_query_ c)
  (queries_ c) (close_after_write_ c) (written_offset_ c) (queued_offset_ c) (write_promises_ c) (slow_scheduler_id_
  c) (stopped c) (out c).
Definition set_current_query_ (c : connection) (v : option Z) : connection := mk_connection (state_ c) (output_ c)
  (peer_address_ c) (write_buffer_ c) (max_post_size_ c) (max_files_ c) (idle_timeout_ c) (reader_ c) v (queries_ c)
  (close_after_write_ c) (written_offset_ c) (queued_offset_ c) (write_promises_ c) (slow_scheduler_id_ c) (stopped c)
  (out c).
Definition set_queries_ (c : connection) (v : Z) : connection := mk_connection (state_ c) (output_ c) (peer_address_
  c) (write_buffer_ c) (max_post_size_ c) (max_files_ c) (idle_timeout_ c) (reader_ c) (current_query_ c) v
  (close_after_write_ c) (written_offset_ c) (queued_offset_ c) (write_promises_ c) (slow_scheduler_id_ c) (stopped c)
  (out c).
Definition set_close_after_write_ (c : connection) (v : bool) : connection := mk_connection (state_ c) (output_ c)
  (peer_address_ c) (write_buffer_ c) (max_post_size_ c) (max_files_ c) (idle_timeout_ c) (reader_ c) (current_query_
  c) (queries_ c) v (written_offset_ c) (queued_offset_ c) (write_promises_ c) (slow_scheduler_id_ c) (stopped c) (out
  c).
Definition set_written_offset_ (c : connection) (v : Z) : connection := mk_connection (state_ c) (output_ c)
  (peer_address_ c) (write_buffer_ c) (max_post_size_ c) (max_files_ c) (idle_timeout_ c) (reader_ c) (current_query_
  c) (queries_ c) (close_after_write_ c) v (queued_offset_ c) (write_promises_ c) (slow_scheduler_id_ c) (stopped c)
  (out c).
Definition set_queued_offset_ (c : connection) (v : Z) : connection := mk_connection (state_ c) (output_ c)
  (peer_address_ c) (write_buffer_ c) (max_post_size_ c) (max_files_ c) (idle_timeout_ c) (reader_ c) (current_query_
  c) (queries_ c) (close_after_write_ c) (written_offset_ c) v (write_promises_ c) (slow_scheduler_id_ c) (stopped c)
  (out c).
Definition set_write_promises_ (c : connection) (v : list write_promise) : connection := mk_connection (state_ c)
  (output_ c) (peer_address_ c) (write_buffer_ c) (max_post_size_ c) (max_files_ c) (idle_timeout_ c) (reader_ c)
  (current_query_ c) (queries_ c) (close_after_write_ c) (written_offset_ c) (queued_offset_ c) v (slow_scheduler_id_
  c) (stopped c) (out c).
Definition set_slow_scheduler_id_ (c : connection) (v : Z) : connection := mk_connection (state_ c) (output_ c)
  (peer_address_ c) (write_buffer_ c) (max_post_size_ c) (max_files_ c) (idle_timeout_ c) (reader_ c) (current_query_
  c) (queries_ c) (close_after_write_ c) (written_offset_ c) (queued_offset_ c) (write_promises_ c) v (stopped c) (out
  c).
Definition set_stopped (c : connection) (v : bool) : connection := mk_connection (state_ c) (output_ c) (peer_address_
  c) (write_buffer_ c) (max_post_size_ c) (max_files_ c) (idle_timeout_ c) (reader_ c) (current_query_ c) (queries_ c)
  (close_after_write_ c) (written_offset_ c) (queued_offset_ c) (write_promises_ c) (slow_scheduler_id_ c) v (out c).
Definition set_out (c : connection) (v : list action) : connection := mk_connection (state_ c) (output_ c)
  (peer_address_ c) (write_buffer_ c) (max_post_size_ c) (max_files_ c) (idle_timeout_ c) (reader_ c) (current_query_
  c) (queries_ c) (close_after_write_ c) (written_offset_ c) (queued_offset_ c) (write_promises_ c)
  (slow_scheduler_id_ c) (stopped c) v.

Definition emit (c : connection) (a : action) : connection := set_out c (out c ++ [a]).

(** The answers of the system to a turn of [loop]: the bytes that can be read, with an
    error behind them; the number of bytes the socket takes, with an error behind
    them; an error of the socket; that the other side has closed it. *)
Record round := mk_round {
  can_read : option (bytes * option status);
  can_write : option (nat * option status);
  get_pending_error : option status;
  can_close : bool;
}.

(** ** Operations *)

Definition live_event (c : connection) : connection :=
  if negb (idle_timeout_ c =? 0) then emit c (SetTimeoutIn (idle_timeout_ c)) else c.
Definition touch_activity (c : connection) : connection := live_event c.

(** [make_unique<HttpQuery>()] *)
Definition make_query (c : connection) : connection := set_queries_ (set_current_query_ c (Some (queries_ c))) (queries_ c + 1).

Definition start_up (c : connection) : connection :=
  let c := if bool_decide (state_ c = Read) then make_query c else c in
  live_event c.

(** The loop over the promises: what is left of them, and what is told. *)
Fixpoint fulfill_loop (written_offset : Z) (error : option status) (promises : list write_promise) : list write_promise * list action :=
  match promises with
  | [] => ([], [])
  | p :: ps =>
    if bool_decide (is_Some error) || (offset p <=? written_offset) then
      let '(remaining, told) := fulfill_loop written_offset error ps in
      (remaining, Fulfil (promise p) (match error with Some err => Err err | None => Ok tt end) :: told)
    else (p :: ps, [])
  end.

Definition fulfill_write_promises (c : connection) (error : option status) : connection :=
  let '(remaining, told) := fulfill_loop (written_offset_ c) error (write_promises_ c) in
  set_out (set_write_promises_ c remaining) (out c ++ told).

Definition tear_down (c : connection) : connection :=
  fulfill_write_promises c (Some (Status 0 (lit "HTTP connection was closed before queued data was flushed"))).

Definition stop (c : connection) : connection := set_stopped (emit (tear_down c) Stopped) true.

(** A query that is complete, an error in it, or bytes to wait for. *)
Definition error_response (code : Z) : result bytes :=
  Header.finish (Header.set_content_size (Header.init_status_line code) 0) [].

Context (e : HttpReader.env).

(** What [loop] does with the result of [read_next]; it returns early with [true]. *)
Definition on_read (c : connection) (can_be_slow : bool) (res : result Z) : option (connection * bool) :=
  match res with
  | Err err =>
    if bool_decide (st_message err = lit "SLOW") then
      if can_be_slow then None
      else Some (set_slow_scheduler_id_ (emit c (Migrate (slow_scheduler_id_ c))) (-1), true)
    else
      let c := set_state_ (live_event c) Write in
      match error_response (st_code err) with
      | Err _ => None
      | Ok head =>
        let c := set_close_after_write_ (set_write_buffer_ c (write_buffer_ c ++ head)) true in
        Some (emit c (OnError (Status 0 (st_message err))), false)
      end
  | Ok n =>
    if n =? 0 then
      let c := live_event (set_state_ c Write) in
      let query := set_hq_peer_address (HttpReader.the_query (HttpReader.the_parsed (reader_ c))) (peer_address_ c) in
      Some (set_current_query_ (emit c (HandQuery query)) None, false)
    else Some (c, false)
  end.

(** The part of [loop] that reads. *)
Definition read_query (fuel : nat) (c : connection) : option (connection * bool) :=
  let can_be_slow := slow_scheduler_id_ c =? -1 in
  if bool_decide (state_ c = Read) then
    query ← current_query_ c;
    '(r, res) ← HttpReader.read_next e fuel (reader_ c) query (new_query Invalid) can_be_slow;
    on_read (set_reader_ c r) can_be_slow res
  else Some (c, false).

(** [flush_write]: the socket takes a prefix of its output. *)
Definition flush_write (c : connection) (k : nat) : connection :=
  emit (set_output_ c (drop k (output_ c))) (Sent (take k (output_ c))).

(** The part of [loop] that writes: it returns early with [true]. *)
Definition write_output (c : connection) (w : option (nat * option status)) : connection * bool :=
  let c := set_write_buffer_ (set_output_ c (output_ c ++ write_buffer_ c)) [] in
  match w with
  | None => (c, false)
  | Some (k, error) =>
    let size := Z.min (Z.of_nat k) (len (output_ c)) in
    let c := flush_write c k in
    let c := match error with
             | Some err => emit (fulfill_write_promises c (Some err)) (OnError err)
             | None => fulfill_write_promises (set_written_offset_ c (wrap 64 (written_offset_ c + size))) None
             end in
    if close_after_write_ c && bool_decide (output_ c = []) then (stop c, true) else (c, false)
  end.

(** The end of [loop]. *)
Definition finish_loop (c : connection) (x : round) : connection :=
  let c := match get_pending_error x with
           | Some err => set_state_ (if close_after_write_ c then c else emit c (OnError err)) Close
           | None => c
           end in
  let c := if can_close x then set_state_ c Close else c in
  if bool_decide (state_ c = Close) then stop c else c.

Definition loop (fuel : nat) (c : connection) (x : round) : option connection :=
  match can_read x with
  | Some (_, Some err) => Some (stop (emit c (OnError err)))
  | r =>
    let data := match r with Some (data, _) => data | None => [] end in
    let c := set_reader_ c (HttpReader.set_input_ (reader_ c) (HttpReader.input_ (reader_ c) ++ data)) in
    '(c, returns) ← read_query fuel c;
    if (returns : bool) then Some c
    else
      let '(c, returns) := write_output c (can_write x) in
      Some (if returns then c else finish_loop c x)
  end.

Definition write_next_noflush (c : connection) (buffer : bytes) : option connection :=
  if bool_decide (state_ c = Write) then
    Some (set_write_buffer_ (set_queued_offset_ c (wrap 64 (queued_offset_ c + len buffer))) (write_buffer_ c ++ buffer))
  else None.

Definition write_next (fuel : nat) (c : connection) (buffer : bytes) (x : round) : option connection :=
  c ← write_next_noflush c buffer; loop fuel c x.

Definition write_next_with_promise (fuel : nat) (c : connection) (buffer : bytes) (p : nat) (x : round) : option connection :=
  c ← write_next_noflush c buffer;
  loop fuel (set_write_promises_ c (write_promises_ c ++ [mk_promise (queued_offset_ c) p])) x.

Definition write_ok (fuel : nat) (c : connection) (x : round) : option connection :=
  if bool_decide (state_ c = Write) then loop fuel (live_event (set_state_ (make_query c) Read)) x else None.

Definition write_error (fuel : nat) (c : connection) (error : status) (x : round) : option connection :=
  if bool_decide (state_ c = Write) then loop fuel (set_state_ (fulfill_write_promises c (Some error)) Close) x else None.

Definition timeout_expired (c : connection) : connection :=
  stop (if negb (bool_decide (output_ c = [])) then emit c (OnError (Status 0 (lit "Write timeout expired")))
        else if bool_decide (state_ c = Read) then emit c (OnError (Status 0 (lit "Read timeout expired")))
        else c).

Definition on_finish_migrate (c : connection) : connection := live_event c.

(** [HttpInboundConnection()], and what happens to a connection. *)
Definition new_connection (peer : ip_address) (max_post_size max_files idle_timeout slow_scheduler_id : Z) : connection :=
  start_up (mk_connection Read [] peer [] max_post_size max_files idle_timeout (HttpReader.new_reader max_post_size max_files (new_query Invalid))
    None 0 false 0 0 [] slow_scheduler_id false []).

Inductive event :=
| Wakeup (x : round)
| WriteNextNoflush (buffer : bytes)
| WriteNext (buffer : bytes) (x : round)
| WriteNextWithPromise (buffer : bytes) (p : nat) (x : round)
| WriteOk (x : round)
| WriteError (error : status) (x : round)
| TouchActivity
| TimeoutExpired
| FinishMigrate.

(** Messages to a connection that has stopped are dropped. *)
Definition step (fuel : nat) (c : connection) (ev : event) : option connection :=
  if stopped c then Some c
  else
    match ev with
    | Wakeup x => loop fuel c x
    | WriteNextNoflush buffer => write_next_noflush c buffer
    | WriteNext buffer x => write_next fuel c buffer x
    | WriteNextWithPromise buffer p x => write_next_with_promise fuel c buffer p x
    | WriteOk x => write_ok fuel c x
    | WriteError error x => write_error fuel c error x
    | TouchActivity => Some (touch_activity c)
    | TimeoutExpired => Some (timeout_expired c)
    | FinishMigrate => Some (on_finish_migrate c)
    end.

End Connections.

End Connection.
