(* ===== verification/ConnectionBooks.v ===== *)
(** * The books of HTTP connections

    What was queued, what the socket took, who was told; the turns of a connection and
    the handler of its queries; that every operation keeps them. *)

From S2P Require Import Prelude TdMisc HttpHeader IPAddress HttpUrl ByteFlow Query HttpConnection HttpReader HttpReaderChecks HttpReaderMessages HttpReaderForms HttpReaderErrors HttpReaderProperties HttpConnectionBase.

Import Connection.

(** ** What was done *)

(** The bytes the socket took; the promises that were answered; the queries that were
    handed on. *)
Definition sent (o : list action) : bytes := o ≫= fun a => match a with Sent s => s | _ => [] end.
Definition told (o : list action) : list nat := omap (fun a => match a with Fulfil p _ => Some p | _ => None end) o.
Definition handed (o : list action) : list http_query := omap (fun a => match a with HandQuery q => Some q | _ => None end) o.

Lemma sent_app o o' : sent (o ++ o') = sent o ++ sent o'.
Proof. apply bind_app. Qed.
Lemma told_app o o' : told (o ++ o') = told o ++ told o'.
Proof. apply omap_app. Qed.
Lemma handed_app o o' : handed (o ++ o') = handed o ++ handed o'.
Proof. apply omap_app. Qed.

(** What the handler has written: data, and a promise for it. *)
Definition write : Type := bytes * option nat.
Definition text (w : list write) : bytes := concat w.*1.

Lemma text_app w w' : text (w ++ w') = text w ++ text w'.
Proof. unfold text. by rewrite fmap_app, concat_app. Qed.

(** A promise for the bytes up to [n]. *)
Definition promised (w : list write) (p : nat) (n : Z) : Prop :=
  exists w1 data w2, w = w1 ++ (data, Some p) :: w2 /\ n = len (text w1 ++ data).

Lemma promised_more w w' p n : promised w p n -> promised (w ++ w') p n.
Proof. intros (w1 & data & w2 & -> & ->). exists w1, data, (w2 ++ w'). by rewrite <- app_assoc. Qed.

Lemma promised_text w p n : promised w p n -> n <= len (text w).
Proof.
  intros (w1 & data & w2 & -> & ->). rewrite text_app. unfold text at 3. rewrite fmap_cons. cbn [concat fst]. rewrite !len_app.
  pose proof (len_nonneg (concat w2.*1)). lia.
Qed.

(** The bytes of a promise, and those before it, are among the bytes that were sent. *)
Definition delivered_by (w : list write) (p : nat) (s : bytes) : Prop :=
  exists w1 data w2, w = w1 ++ (data, Some p) :: w2 /\ (text w1 ++ data) `prefix_of` s.

Lemma delivered_by_more w w' p s : delivered_by w p s -> delivered_by (w ++ w') p s.
Proof. intros (w1 & data & w2 & -> & H). exists w1, data, (w2 ++ w'). by rewrite <- app_assoc. Qed.

(** ** The books

    [o] was done; [left] is in the buffers; [closing] says that a response to an error
    of the reader is the last thing. *)
Record books (w : list write) (closing : bool) (o : list action) (left : bytes) (written queued : Z) (ps : list write_promise) : Prop := {
  b_bytes : exists tail, text w ++ tail = sent o ++ left /\ (closing = false -> tail = []);
  b_queued : queued = len (text w);
  b_fits : queued < 2 ^ 64;
  b_written : 0 <= written <= len (sent o);
  b_promises : omap snd w = told o ++ (promise <$> ps);
  b_offsets : Forall (fun p => promised w (promise p) (offset p)) ps;
  b_told : forall o1 p o2, o = o1 ++ Fulfil p (Ok tt) :: o2 -> delivered_by w p (sent o1);
}.

Definition neutral (a : action) : bool := match a with Sent _ | Fulfil _ _ => false | _ => true end.

Lemma neutral_sent a : neutral a = true -> sent [a] = [] /\ told [a] = [].
Proof. by destruct a. Qed.

(** An action that is not the first one told. *)
Lemma told_last (o : list action) a o1 p o2 : o ++ [a] = o1 ++ Fulfil p (Ok tt) :: o2 ->
  (a = Fulfil p (Ok tt) /\ o1 = o /\ o2 = []) \/ exists o3, o = o1 ++ Fulfil p (Ok tt) :: o3.
Proof.
  destruct o2 as [|x o2 _] using rev_ind.
  - intros [-> [= ->]]%app_inj_tail. by left.
  - rewrite app_comm_cons, app_assoc. intros [-> _]%app_inj_tail. right. by exists o2.
Qed.

Lemma books_emit w cl o l n k ps a : neutral a = true -> books w cl o l n k ps -> books w cl (o ++ [a]) l n k ps.
Proof.
  intros [Hs Ht]%neutral_sent [H1 H2 H3 H4 H6 H7 H8]. split; rewrite ?sent_app, ?told_app, ?Hs, ?Ht, ?app_nil_r; try done.
  - intros o1 p o2 [(E & -> & ->)|[o3 E]]%told_last; [by subst a|by eapply H8].
Qed.

(** A promise is told. *)
Lemma books_told w cl o l n k p ps res : (res = Ok tt -> offset p <= n) -> books w cl o l n k (p :: ps) ->
  books w cl (o ++ [Fulfil (promise p) res]) l n k ps.
Proof.
  intros Hres [(tail & H1 & Htail) H2 H3 H4 H6 H7 H8]. apply Forall_cons in H7 as [Hp H7].
  split; rewrite ?sent_app, ?told_app; cbn [sent told mbind list_bind omap list_omap app]; rewrite ?app_nil_r; try done.
  - by exists tail.
  - rewrite H6. by rewrite <- app_assoc.
  - intros o1 q o2 [(E & -> & ->)|[o3 E]]%told_last; [|by eapply H8]. injection E as <- ->. specialize (Hres eq_refl).
    pose proof (promised_text _ _ _ Hp) as Hl. destruct Hp as (w1 & data & w2 & Hw & Hn). exists w1, data, w2. split; [done|].
    assert (Htext : text w = (text w1 ++ data) ++ text w2) by (rewrite Hw, text_app; unfold text at 2; rewrite fmap_cons; cbn; by rewrite <- app_assoc).
    rewrite Htext in H1. exists (drop (length (text w1 ++ data)) (sent o)).
    assert (Hle : (length (text w1 ++ data) <= length (sent o))%nat) by (unfold len in *; lia).
    rewrite <- (take_drop (length (text w1 ++ data)) (sent o)) at 1. f_equal.
    rewrite <- (take_app_le (sent o) l) by done. rewrite <- H1, <- app_assoc. apply take_app_length.
Qed.

Lemma books_fulfill w cl l n k err : forall ps o ps' t, fulfill_loop n err ps = (ps', t) -> books w cl o l n k ps -> books w cl (o ++ t) l n k ps'.
Proof.
  induction ps as [|p ps IH]; intros o ps' t; cbn [fulfill_loop]; [intros [= <- <-]; by rewrite app_nil_r|].
  destruct (bool_decide (is_Some err) || (offset p <=? n)) eqn:Eb; [|intros [= <- <-]; by rewrite app_nil_r]. destruct (fulfill_loop n err ps) as [ps1 t1] eqn:E. intros [= <- <-] H.
  rewrite cons_middle, app_assoc. eapply IH; [done|]. apply books_told; [|done]. destruct err as [err|]; [done|]. intros _.
  rewrite bool_decide_false in Eb by by intros []. by apply Z.leb_le.
Qed.

Lemma fulfill_all n err : forall ps, fst (fulfill_loop n (Some err) ps) = [].
Proof.
  induction ps as [|p ps IH]; [done|]. cbn [fulfill_loop]. rewrite bool_decide_true by done. cbn [orb].
  by destruct (fulfill_loop n (Some err) ps) as [ps1 t1].
Qed.

(** The socket takes bytes; at most these are counted. *)
Lemma books_flush w cl o l n q ps m n' : books w cl o l n q ps -> 0 <= n' <= n + len (take m l) ->
  books w cl (o ++ [Sent (take m l)]) (drop m l) n' q ps.
Proof.
  intros [(tail & H1 & Htail) H2 H3 H4 H6 H7 H8] Hn. assert (Hs : sent (o ++ [Sent (take m l)]) = sent o ++ take m l) by (rewrite sent_app; cbn; by rewrite app_nil_r).
  split; rewrite ?Hs; try done.
  - exists tail. by rewrite <- app_assoc, take_drop.
  - rewrite len_app. lia.
  - rewrite told_app. cbn. by rewrite app_nil_r.
  - by intros o1 p o2 [(E & _)|[o3 E]]%told_last; [|eapply H8].
Qed.

(** More is written, with or without a promise. *)
Lemma books_write w o l n q ps data p : books w false o l n q ps -> q + len data < 2 ^ 64 ->
  books (w ++ [(data, p)]) false o (l ++ data) n (wrap 64 (q + len data)) (ps ++ match p with Some p => [mk_promise (wrap 64 (q + len data)) p] | None => [] end).
Proof.
  intros [(tail & H1 & Htail) H2 H3 H4 H6 H7 H8] Hq. pose proof (len_nonneg data). pose proof (len_nonneg (text w)).
  assert (wrap 64 (q + len data) = q + len data) as -> by (unfold wrap; apply Z.mod_small; lia).
  assert (Ht : text (w ++ [(data, p)]) = text w ++ data) by (rewrite text_app; unfold text at 2; cbn; by rewrite app_nil_r).
  split; rewrite ?Ht, ?len_app; try done; try lia.
  - exists []. rewrite (Htail eq_refl), app_nil_r in H1. by rewrite app_nil_r, H1, app_assoc.
  - rewrite omap_app, H6, fmap_app, app_assoc. by destruct p.
  - apply Forall_app. split; [eapply Forall_impl; [exact H7|]; intros; by apply promised_more|]. destruct p as [p|]; [|done]. apply Forall_singleton.
    exists w, data, []. by rewrite len_app, H2.
  - intros o1 p1 o2 E. by apply delivered_by_more, (H8 _ _ _ E).
Qed.

(** The response to an error of the reader. *)
Lemma books_closing w o l n q ps head err : books w false o l n q ps -> books w true (o ++ [OnError err]) (l ++ head) n q ps.
Proof.
  intros [(tail & H1 & Htail) H2 H3 H4 H6 H7 H8]%(books_emit _ _ _ _ _ _ _ (OnError err)); [|done]. split; try done.
  exists head. by rewrite app_assoc, <- H1, (Htail eq_refl), app_nil_r.
Qed.

(** Every byte is counted as long as nothing failed. *)
Definition exact (closing : bool) (o : list action) (written : Z) : Prop :=
  closing = false -> (forall err, OnError err ∉ o) -> written = len (sent o).

Lemma exact_app cl o o' n : sent o' = [] -> exact cl o n -> exact cl (o ++ o') n.
Proof.
  intros Hs H Hc Ho. rewrite sent_app, Hs, app_nil_r. apply H; [done|]. intros err Hin. apply (Ho err). set_solver.
Qed.

Lemma exact_error cl o n err : OnError err ∈ o -> exact cl o n.
Proof. intros H _ Ho. by destruct (Ho err). Qed.

Lemma fulfill_told n err : forall ps ps' t, fulfill_loop n err ps = (ps', t) -> sent t = [] /\ handed t = [].
Proof.
  induction ps as [|p ps IH]; intros ps' t; cbn [fulfill_loop]; [intros [= <- <-]; by split|]. destruct (bool_decide (is_Some err) || (offset p <=? n)); [|intros [= <- <-]; by split].
  destruct (fulfill_loop n err ps) as [ps1 t1]. intros [= <- <-]. cbn. by eapply IH.
Qed.

(** The response to an error of the reader always fits. *)
Lemma size_head_fits code size : len (head_text code [(lit "Content-Length", Integers.print_uint size)]) <= 4066.
Proof.
  rewrite head_text_length. pose proof (status_line_length code). pose proof (print_int_length code). pose proof (print_uint_length size).
  cbn [foldr fst snd]. change (len (lit "Content-Length")) with 14. lia.
Qed.

Lemma error_response_ok code : exists head, error_response code = Ok head.
Proof.
  unfold error_response. generalize 0 at 1. intros size. exists (head_text code [(lit "Content-Length", Integers.print_uint size)]).
  rewrite <- (finish_fits code _ (size_head_fits code size)). cbn [foldl]. unfold Header.set_content_size. reflexivity.
Qed.

Section Connections.
Context {Gz : Type} {ops : HttpReader.gzip_ops Gz}.
#[local] Notation connection := (Connection.connection (Gz := Gz)).

Definition booked (w : list write) (c : connection) : Prop :=
  books w (close_after_write_ c) (out c) (output_ c ++ write_buffer_ c) (written_offset_ c) (queued_offset_ c) (write_promises_ c).
Definition kept (w : list write) (c : connection) : Prop := booked w c /\ exact (close_after_write_ c) (out c) (written_offset_ c).

(** What matters for the turns with the handler. *)
Definition turn (c : connection) := (state_ c, reader_ c, current_query_ c, close_after_write_ c, slow_scheduler_id_ c, stopped c, handed (out c), peer_address_ c).

Lemma kept_emit w (c : connection) a : neutral a = true -> kept w c -> kept w (emit c a).
Proof using Type. intros Ha [H1 H2]. split; [by apply books_emit|]. by apply exact_app; [apply (neutral_sent a Ha)|]. Qed.

Lemma kept_live w (c : connection) : kept w c -> kept w (live_event c).
Proof using Type. intros H. unfold live_event. case_bool; [by apply kept_emit|done]. Qed.
Lemma live_turn (c : connection) : turn (live_event c) = turn c.
Proof using Type. unfold live_event. case_bool; [|done]. unfold turn. cbn. by rewrite handed_app, app_nil_r. Qed.

Lemma booked_fulfill w (c : connection) err : booked w c -> booked w (fulfill_write_promises c err).
Proof using Type. unfold booked, fulfill_write_promises. destruct (fulfill_loop _ err _) as [ps t] eqn:E. by eapply books_fulfill. Qed.

Lemma fulfill_turn (c : connection) err : turn (fulfill_write_promises c err) = turn c.
Proof using Type.
  unfold fulfill_write_promises. destruct (fulfill_loop _ err _) as [ps t] eqn:E. unfold turn. cbn. rewrite handed_app.
  by rewrite (proj2 (fulfill_told _ _ _ _ _ E)), app_nil_r.
Qed.

Lemma kept_fulfill w (c : connection) err : kept w c -> kept w (fulfill_write_promises c err).
Proof using Type.
  intros [H1 H2]. split; [by apply booked_fulfill|]. unfold fulfill_write_promises. destruct (fulfill_loop _ err _) as [ps t] eqn:E.
  by apply exact_app; [apply (fulfill_told _ _ _ _ _ E)|].
Qed.

Lemma kept_stop w (c : connection) : kept w c -> kept w (stop c) /\ write_promises_ (stop c) = [] /\ stopped (stop c) = true /\ handed (out (stop c)) = handed (out c).
Proof using Type.
  intros H. unfold stop, tear_down. pose proof (kept_fulfill w c (Some (Status 0 (lit "HTTP connection was closed before queued data was flushed"))) H) as H1.
  pose proof (fulfill_turn c (Some (Status 0 (lit "HTTP connection was closed before queued data was flushed")))) as E.
  split; [exact (kept_emit w _ Stopped eq_refl H1)|]. split; [|split; [done|]].
  - unfold fulfill_write_promises. pose proof (fulfill_all (written_offset_ c) (Status 0 (lit "HTTP connection was closed before queued data was flushed")) (write_promises_ c)) as Hf.
    destruct (fulfill_loop _ _ _) as [ps t]. exact Hf.
  - cbn [emit set_stopped set_out out]. rewrite handed_app, app_nil_r. unfold turn in E. congruence.
Qed.

Lemma wrap_written n m : 0 <= n -> 0 <= m -> 0 <= wrap 64 (n + m) <= n + m.
Proof using Type. intros. unfold wrap. split; [by apply Z.mod_pos_bound|]. by apply Z.mod_le; [lia|]. Qed.

(** The part of [loop] that writes. *)
Lemma write_output_kept w (c : connection) r c' (returns : bool) : kept w c -> write_output c r = (c', returns) ->
  kept w c' /\ handed (out c') = handed (out c) /\ if returns then stopped c' = true /\ write_promises_ c' = [] else turn c' = turn c.
Proof using Type.
  intros [H1 H2]. unfold write_output. set (c1 := set_write_buffer_ (set_output_ c (output_ c ++ write_buffer_ c)) []).
  assert (K1 : kept w c1) by (split; [unfold booked; cbn; by rewrite app_nil_r|done]). destruct r as [[k error]|]; [|by intros [= <- <-]].
  assert (Hlen : Z.min (Z.of_nat k) (len (output_ c1)) = len (take k (output_ c1))) by (unfold len; rewrite length_take; lia). rewrite Hlen.
  assert (Hend : forall c2, kept w c2 -> turn c2 = turn c -> (if close_after_write_ c2 && bool_decide (output_ c2 = []) then (stop c2, true) else (c2, false)) = (c', returns) ->
    kept w c' /\ handed (out c') = handed (out c) /\ if returns then stopped c' = true /\ write_promises_ c' = [] else turn c' = turn c).
  { intros c2 K2 T2. case_bool; intros [= <- <-].
    - destruct (kept_stop w c2 K2) as (K3 & H3 & H4 & ->). split_and!; [done| |done..]. unfold turn in T2. congruence.
    - split_and!; [done| |done]. unfold turn in T2. congruence. }
  destruct K1 as [B1 X1]. unfold booked in B1. cbn [c1 set_write_buffer_ set_output_ write_buffer_ output_] in B1. rewrite app_nil_r in B1.
  pose proof (b_written _ _ _ _ _ _ _ B1) as Hw. change (written_offset_ c1) with (written_offset_ c) in *. pose proof (len_nonneg (take k (output_ c1))).
  assert (Hf : forall n, 0 <= n <= written_offset_ c + len (take k (output_ c1)) -> booked w (set_written_offset_ (flush_write c1 k) n)).
  { intros n Hn. unfold booked. cbn -[take drop]. rewrite app_nil_r. by apply (books_flush _ _ _ _ (written_offset_ c)). }
  assert (Hturn : forall n, turn (set_written_offset_ (flush_write c1 k) n) = turn c) by (intros; unfold turn; cbn; by rewrite handed_app, app_nil_r).
  destruct error as [err|].
  - specialize (Hf (written_offset_ c) ltac:(lia)). specialize (Hturn (written_offset_ c)).
    change (set_written_offset_ (flush_write c1 k) (written_offset_ c)) with (flush_write c1 k) in *. apply Hend.
    + split; [apply (books_emit _ _ _ _ _ _ _ (OnError err) eq_refl), booked_fulfill, Hf|]. apply (exact_error _ _ _ err). cbn. set_solver.
    + rewrite <- Hturn, <- (fulfill_turn (flush_write c1 k) (Some err)). unfold turn. cbn [emit set_out state_ reader_ current_query_ close_after_write_ slow_scheduler_id_ stopped out].
      by rewrite handed_app, app_nil_r.
  - pose proof (wrap_written (written_offset_ c) (len (take k (output_ c1))) ltac:(lia) ltac:(lia)) as Hwr. apply Hend; [|by rewrite fulfill_turn].
    apply kept_fulfill. split; [by apply Hf|]. intros Hc Ho. cbn -[take] in *. rewrite sent_app, len_app. cbn -[take]. rewrite app_nil_r.
    assert (Hn : written_offset_ c = len (sent (out c))) by (apply H2; [done|]; intros er Hin; apply (Ho er); set_solver).
    unfold wrap. rewrite Hn. apply Z.mod_small. pose proof (b_fits _ _ _ _ _ _ _ B1). pose proof (b_queued _ _ _ _ _ _ _ B1) as Hq.
    destruct (b_bytes _ _ _ _ _ _ _ B1) as (tail & Ht & Hnil). rewrite (Hnil Hc), app_nil_r in Ht. rewrite <- (take_drop k (output_ c ++ write_buffer_ c)) in Ht.
    apply (f_equal len) in Ht. rewrite !len_app in Ht. pose proof (len_nonneg (sent (out c))). pose proof (len_nonneg (drop k (output_ c ++ write_buffer_ c))).
    pose proof (len_nonneg (take k (output_ c ++ write_buffer_ c))). cbn in *. lia.
Qed.

(** ** The turns of the connection and the handler *)

Section Turns.
Context {laws : gzip_laws Gz} (e : HttpReader.env) (He : env_ok e).

(** The handler has answered [n] queries.  It has one more in its hands exactly when
    the connection is in state [Write], unless that writes the response to an error. *)
Record turns (n : nat) (c : connection) : Prop := {
  t_read : state_ c = Read -> close_after_write_ c = false /\ length (handed (out c)) = n
    /\ exists query, current_query_ c = Some query /\ (HttpReader.query_ (reader_ c) = Some query \/ HttpReader.query_ (reader_ c) = None);
  t_write : state_ c = Write -> close_after_write_ c = false -> length (handed (out c)) = S n /\ HttpReader.query_ (reader_ c) = None;
  t_closing : close_after_write_ c = true -> length (handed (out c)) = n;
  t_reader : close_after_write_ c = false -> exists past, consistent past (reader_ c);
}.

Lemma turn_turns n (c c' : connection) : turn c' = turn c -> turns n c -> turns n c'.
Proof using Type.
  unfold turn. intros [= E1 E2 E3 E4 E5 E6 E7 E8] [H1 H2 H3 H4]. split; rewrite ?E1, ?E2, ?E3, ?E4, ?E7; done.
Qed.

(** While it is alive: the books, the turns, no state [Close]; at the end nobody waits. *)
Definition alive (w : list write) (n : nat) (c : connection) : Prop := stopped c = false /\ state_ c <> Close /\ kept w c /\ turns n c.
Definition ended_with (w : list write) (n : nat) (c : connection) : Prop :=
  stopped c = true /\ kept w c /\ write_promises_ c = [] /\ (n <= length (handed (out c)) <= S n)%nat.
Definition fine (w : list write) (n : nat) (c : connection) : Prop := alive w n c \/ ended_with w n c.

Lemma turns_handed n (c : connection) : state_ c <> Close -> turns n c -> (n <= length (handed (out c)) <= S n)%nat.
Proof using Type.
  intros Hs [H1 H2 H3 H4]. destruct (close_after_write_ c) eqn:E; [rewrite H3; lia|]. destruct (state_ c) eqn:Es; [|by rewrite (proj1 (H2 eq_refl eq_refl)); lia|done].
  destruct (H1 eq_refl) as (_ & -> & _). lia.
Qed.

Lemma stop_ends w n (c : connection) : kept w c -> (n <= length (handed (out c)) <= S n)%nat -> ended_with w n (stop c).
Proof using Type. intros H Hn. destruct (kept_stop w c H) as (H1 & H2 & H3 & H4). split; [done|]. split; [done|]. split; [done|]. by rewrite H4. Qed.

(** What comes of a call of the reader that handed over [r] and [res]. *)
Lemma on_read_fine w n (c : connection) past query sl res : stopped c = false -> state_ c = Read -> close_after_write_ c = false -> length (handed (out c)) = n ->
  current_query_ c = Some query -> kept w c ->
  match res with
  | Ok 0 => idle (reader_ c) /\ consistent past (reader_ c)
  | Ok _ => HttpReader.query_ (reader_ c) = Some query /\ consistent past (reader_ c)
  | Err err => http_error err \/ sl = false /\ err = HttpReader.slow /\ consistent past (reader_ c) /\ HttpReader.query_ (reader_ c) = Some query
  end ->
  exists c' returns, on_read c sl res = Some (c', returns) /\ stopped c' = false /\ state_ c' <> Close /\ kept w c' /\ turns n c'.
Proof using Type.
  intros Hs Hst Hc Hn Hq K Hres. unfold on_read. assert (Hread : forall c', turn c' = turn c -> consistent past (reader_ c) -> HttpReader.query_ (reader_ c) = Some query -> turns n c').
  { intros c' Ht H1 H2. apply (turn_turns n c c' Ht). split; rewrite ?Hst, ?Hc; try done; [|by exists past]. intros _. split_and!; [done..|]. exists query. by split; [|left]. }
  destruct res as [m|err].
  - destruct (Z.eqb_spec m 0) as [->|Hm].
    + destruct Hres as [(_ & Hi & _) H]. eexists _, _. split; [done|]. pose proof (live_turn (set_state_ c Write)) as Ht.
      pose proof (kept_live w (set_state_ c Write) K) as K'. set (c1 := live_event (set_state_ c Write)) in *.
      unfold turn in Ht. cbn -[handed] in Ht. injection Ht as T1 T2 T3 T4 T5 T6 T7 T8. rewrite Hs in T6.
      split; [done|]. split; [cbn; by rewrite T1|]. split; [exact (kept_emit w c1 (HandQuery _) eq_refl K')|].
      split; cbn; rewrite ?T1, ?T2, ?T4, ?Hc; try done; [|by exists past]. intros _ _. by rewrite handed_app, T7, length_app, Hn, Nat.add_1_r.
    + eexists _, _. split; [done|]. split; [done|]. split; [by rewrite Hst|]. split; [done|]. destruct m; [done|..]; destruct Hres; by apply Hread.
  - destruct Hres as [He'|(-> & -> & H1 & H2)].
    + rewrite bool_decide_false.
      2:{ intros E. unfold http_error, is_slow in He'. by rewrite (bool_decide_true _ E), andb_false_r in He'. }
      destruct (error_response_ok (st_code err)) as [head ->]. eexists _, _. split; [done|]. pose proof (live_turn c) as Ht. pose proof (kept_live w c K) as [B X].
      unfold turn in Ht. injection Ht as T1 T2 T3 T4 T5 T6 T7 T8. rewrite Hs in T6. unfold booked in B. rewrite T4, Hc in B. split; [done|]. split; [done|]. split; [split|].
      * unfold booked. cbn. rewrite app_assoc. by apply books_closing.
      * eapply exact_error. cbn. apply elem_of_app. right. by apply list_elem_of_singleton.
      * split; cbn; try done. intros _. by rewrite handed_app, app_nil_r, T7.
    + rewrite bool_decide_true by done. eexists _, _. split; [done|]. split; [done|]. split; [cbn; by rewrite Hst|].
      split; [exact (kept_emit w c (Migrate _) eq_refl K)|]. split; cbn; rewrite ?Hst, ?Hc; try done; [|by exists past].
      intros _. split; [done|]. split; [by rewrite handed_app, app_nil_r|]. exists query. by split; [|left].
Qed.

Definition read_fine (w : list write) (n : nat) (c c' : connection) : Prop :=
  stopped c' = false /\ kept w c' /\ turns n c' /\ (state_ c <> Close -> state_ c' <> Close).

Lemma read_query_fine w n (c : connection) : stopped c = false -> kept w c -> turns n c ->
  (exists fuel c' returns, read_query e fuel c = Some (c', returns))
  /\ forall fuel c' returns, read_query e fuel c = Some (c', returns) -> read_fine w n c c' /\ (state_ c = Close -> returns = false /\ c' = c).
Proof using He laws.
  intros Hs K T. unfold read_query. destruct (decide (state_ c = Read)) as [Hst|Hst].
  2:{ rewrite bool_decide_false by done. split; [by exists O, c, false|]. by intros _ c' returns [= <- <-]. }
  rewrite bool_decide_true by done. destruct (t_read _ _ T Hst) as (Hc & Hn & query & Hq & Hr). rewrite Hq. cbn [mbind option_bind].
  destruct (t_reader _ _ T Hc) as [past Hpast]. set (sl := slow_scheduler_id_ c =? -1).
  assert (Hp : proper_query (reader_ c) query (new_query Invalid)) by (destruct Hr; [by left|by right]).
  destruct (read_next_total e He past (reader_ c) query (new_query Invalid) sl Hpast Hp) as (r & res & E & H).
  assert (Hres : match res with
    | Ok 0 => idle r /\ consistent (past ++ query_files r) r
    | Ok _ => HttpReader.query_ r = Some query /\ consistent past r
    | Err err => http_error err \/ sl = false /\ err = HttpReader.slow /\ consistent past r /\ HttpReader.query_ r = Some query
    end).
  { destruct res as [[]|err]; [done|by destruct H as (_ & ? & ?)..|]. by eapply read_next_error. }
  assert (Hon : exists c' returns, on_read (set_reader_ c r) sl res = Some (c', returns) /\ stopped c' = false /\ state_ c' <> Close /\ kept w c' /\ turns n c').
  { destruct res as [[|m|m]|err]; [by apply (on_read_fine w n (set_reader_ c r) (past ++ query_files r) query sl (Ok 0))|..];
      by eapply (on_read_fine w n (set_reader_ c r) past query sl). }
  destruct Hon as (c1 & b1 & Hon & S1 & N1 & K1 & T1). split.
  - destruct E as [fuel E]. exists fuel, c1, b1. by rewrite E.
  - intros fuel c' returns. destruct (HttpReader.read_next e fuel _ _ _ _) as [[r2 res2]|] eqn:E2; cbn [mbind option_bind]; [|done].
    destruct (reads_next_deterministic e _ _ _ _ r res r2 res2 E) as [<- <-]; [by exists fuel|]. rewrite Hon. intros [= <- <-]. split; [|by rewrite Hst]. by split_and!.
Qed.

(** The end of [loop]. *)
Definition within (n : nat) (c : connection) : Prop := (n <= length (handed (out c)) <= S n)%nat.

Lemma finish_loop_fine w n (c : connection) x : stopped c = false -> kept w c -> turns n c -> within n c -> fine w n (finish_loop c x).
Proof using Type.
  intros Hs K T Hn. unfold finish_loop. cbn zeta.
  set (c1 := match get_pending_error x with Some err => set_state_ (if close_after_write_ c then c else emit c (OnError err)) Close | None => c end).
  assert (H1 : stopped c1 = false /\ kept w c1 /\ within n c1 /\ (state_ c1 <> Close -> c1 = c)).
  { subst c1. destruct (get_pending_error x) as [err|]; [|done]. destruct (close_after_write_ c) eqn:Hc; [by split_and!; try apply Hn|].
    split; [done|]. split; [exact (kept_emit w c (OnError err) eq_refl K)|]. split; [|done]. unfold within. cbn -[handed]. by rewrite handed_app, app_nil_r. }
  destruct H1 as (S1 & K1 & N1 & E1). set (c2 := if can_close x then set_state_ c1 Close else c1).
  assert (H2 : kept w c2 /\ within n c2 /\ (state_ c2 <> Close -> c2 = c)) by (subst c2; by destruct (can_close x)).
  destruct H2 as (K2 & N2 & E2). case_bool_decide as Hst; [right; by apply stop_ends|]. left.
  pose proof (E2 Hst) as E. rewrite E in Hst |- *. by split.
Qed.

(** [loop] *)
Lemma loop_fine w n (c : connection) x : stopped c = false -> kept w c -> turns n c -> within n c ->
  (exists fuel c', loop e fuel c x = Some c') /\ forall fuel c', loop e fuel c x = Some c' -> fine w n c'.
Proof using He laws.
  intros Hs K T Hn. destruct (match can_read x with Some (_, Some err) => Some err | _ => None end) as [err|] eqn:Er.
  { unfold loop. destruct (can_read x) as [[data [err'|]]|]; [|done..]. split; [by exists O; eexists|]. intros _ c' [= <-]. right.
    apply stop_ends; [by apply kept_emit|]. cbn -[handed]. by rewrite handed_app, app_nil_r. }
  set (c1 := set_reader_ c (HttpReader.set_input_ (reader_ c) (HttpReader.input_ (reader_ c) ++ match can_read x with Some (data, _) => data | None => [] end))).
  assert (T1 : turns n c1).
  { destruct T as [H1 H2 H3 H4]. split; cbn; try done. intros Hc. destruct (H4 Hc) as [past []]. exists past. by split. }
  destruct (read_query_fine w n c1 Hs K T1) as [Hex Hall].
  set (rest := fun '((c, returns) : connection * bool) => if returns then Some c
               else let '(c, returns) := write_output c (can_write x) in Some (if (returns : bool) then c else finish_loop c x)).
  assert (Hrest : forall c2 returns, read_fine w n c1 c2 -> (state_ c1 = Close -> returns = false /\ c2 = c1) -> exists c', rest (c2, returns) = Some c' /\ fine w n c').
  { intros c2 returns (S2 & K2 & T2 & N2) Hclose. unfold rest. 
    assert (W2 : within n c2) by (destruct (decide (state_ c1 = Close)) as [Hc|Hc]; [destruct (Hclose Hc) as [_ ->]; exact Hn|by apply turns_handed; [apply N2|]]).
    destruct returns.
    - eexists. split; [done|]. left. split_and!; [done| |done..]. apply N2. intros Hc. by destruct (Hclose Hc).
    - destruct (write_output c2 (can_write x)) as [c3 returns] eqn:Ew. destruct (write_output_kept w c2 _ _ _ K2 Ew) as (K3 & H3 & Hr). eexists. split; [done|].
      destruct returns; [right; split_and!; try apply Hr; [done|..]; rewrite H3; apply W2|]. apply finish_loop_fine; [unfold turn in Hr; congruence|done|by eapply turn_turns|].
      unfold within. by rewrite H3. }
  assert (Hloop : forall fuel, loop e fuel c x = read_query e fuel c1 ≫= rest).
  { intros fuel. unfold loop. subst c1 rest. by destruct (can_read x) as [[data [err|]]|]. }
  split.
  - destruct Hex as (fuel & c2 & returns & E). destruct (Hall _ _ _ E) as [H1 H2]. destruct (Hrest c2 returns H1 H2) as (c' & E' & _).
    exists fuel, c'. by rewrite Hloop, E.
  - intros fuel c'. rewrite Hloop. destruct (read_query e fuel c1) as [[c2 returns]|] eqn:E; [|done]. destruct (Hall _ _ _ E) as [H1 H2].
    destruct (Hrest c2 returns H1 H2) as (c3 & E' & F). intros H. change (rest (c2, returns) = Some c') in H. by simplify_eq.
Qed.

(** ** Events *)

(** What an event writes, and how many queries it answers. *)
Definition writes (ev : event) : list write :=
  match ev with
  | WriteNextNoflush buffer | WriteNext buffer _ => [(buffer, None)]
  | WriteNextWithPromise buffer p _ => [(buffer, Some p)]
  | _ => []
  end.
Definition answers (ev : event) : nat := match ev with WriteOk _ | WriteError _ _ => 1 | _ => 0 end.

(** A handler writes and answers only while it has a query, and fewer than 2^64 bytes
    in all. *)
Definition allowed (n : nat) (c : connection) (ev : event) : bool :=
  match ev with
  | WriteNextNoflush buffer | WriteNext buffer _ | WriteNextWithPromise buffer _ _ =>
    (n <? length (handed (out c)))%nat && (queued_offset_ c + len buffer <? 2 ^ 64)
  | WriteOk _ | WriteError _ _ => (n <? length (handed (out c)))%nat
  | _ => true
  end.

Lemma holding w n (c : connection) : alive w n c -> (n <? length (handed (out c)))%nat = true ->
  state_ c = Write /\ close_after_write_ c = false /\ length (handed (out c)) = S n /\ HttpReader.query_ (reader_ c) = None.
Proof using Type.
  intros (_ & Hst & _ & [H1 H2 H3 H4]) Hn%Nat.ltb_lt. destruct (close_after_write_ c) eqn:E; [rewrite H3 in Hn by done; lia|].
  destruct (state_ c) eqn:Es; [destruct (H1 eq_refl) as (_ & H & _); lia| |done]. by destruct (H2 eq_refl eq_refl).
Qed.

(** [write_next_noflush], with the promise of [write_next_with_promise] behind it. *)
Lemma write_kept w n (c : connection) buffer p : alive w n c -> state_ c = Write -> close_after_write_ c = false -> queued_offset_ c + len buffer < 2 ^ 64 ->
  exists c1, write_next_noflush c buffer = Some c1 /\
  alive (w ++ [(buffer, p)]) n (set_write_promises_ c1 (write_promises_ c1 ++ match p with Some p => [mk_promise (queued_offset_ c1) p] | None => [] end)).
Proof using Type.
  intros (Hs & Hn & [B X] & T) Hst Hc Hq. unfold write_next_noflush. rewrite bool_decide_true by done. eexists. split; [done|].
  split; [done|]. split; [done|]. split; [split|].
  - unfold booked in *. cbn [set_write_promises_ set_write_buffer_ set_queued_offset_ close_after_write_ out output_ write_buffer_ written_offset_ queued_offset_ write_promises_].
    rewrite Hc in *. rewrite app_assoc. by apply books_write.
  - exact X.
  - by apply (turn_turns n c).
Qed.

Lemma no_promise (c : connection) : set_write_promises_ c (write_promises_ c ++ []) = c.
Proof using Type. rewrite app_nil_r. by destruct c. Qed.

Lemma fine_loop w n (c : connection) x : alive w n c ->
  (exists fuel c', loop e fuel c x = Some c') /\ forall fuel c', loop e fuel c x = Some c' -> fine w n c'.
Proof using He laws. intros (Hs & Hst & K & T). apply loop_fine; [done..|]. by apply turns_handed. Qed.

Lemma step_fine w n (c : connection) ev : alive w n c -> allowed n c ev = true ->
  (exists fuel c', step e fuel c ev = Some c') /\
  forall fuel c', step e fuel c ev = Some c' -> fine (w ++ writes ev) (n + answers ev) c'.
Proof using He laws.
  intros A Ha. pose proof A as (Hs & Hst & K & T). unfold step. rewrite Hs.
  assert (Hone : forall c1, fine (w ++ writes ev) (n + answers ev) c1 -> (exists (fuel : nat) c', Some c1 = Some c') /\
    forall (fuel : nat) c', Some c1 = Some c' -> fine (w ++ writes ev) (n + answers ev) c') by (intros c1 H; split; [by exists O, c1|by intros _ c' [= <-]]).
  destruct ev as [x|buffer|buffer x|buffer p x|x|err x| | |]; cbn [writes answers] in *; rewrite ?app_nil_r, ?Nat.add_0_r in *; unfold allowed in Ha.
  - by apply fine_loop.
  - apply andb_true_iff in Ha as [Hn Hq%Z.ltb_lt]. destruct (holding w n c A Hn) as (E1 & E2 & _). destruct (write_kept w n c buffer None A E1 E2 Hq) as (c1 & -> & A1).
    rewrite no_promise in A1. apply Hone. by left.
  - apply andb_true_iff in Ha as [Hn Hq%Z.ltb_lt]. destruct (holding w n c A Hn) as (E1 & E2 & _). destruct (write_kept w n c buffer None A E1 E2 Hq) as (c1 & E & A1).
    unfold write_next. rewrite E. cbn [mbind option_bind]. rewrite no_promise in A1. by apply fine_loop.
  - apply andb_true_iff in Ha as [Hn Hq%Z.ltb_lt]. destruct (holding w n c A Hn) as (E1 & E2 & _). destruct (write_kept w n c buffer (Some p) A E1 E2 Hq) as (c1 & E & A1).
    unfold write_next_with_promise. rewrite E. cbn [mbind option_bind]. by apply fine_loop.
  - destruct (holding w n c A Ha) as (E1 & E2 & E3 & E4). unfold write_ok. rewrite bool_decide_true by done. rewrite Nat.add_1_r. apply fine_loop.
    set (c1 := set_state_ (make_query c) Read). assert (A1 : alive w (S n) c1); [|destruct A1 as (H1 & H2 & H3 & H4); pose proof (live_turn c1) as Ht].
    + split; [done|]. split; [done|]. split; [exact K|]. destruct T as [_ _ H3 H4]. split; cbn; try done.
      intros _. split_and!; [done..|]. exists (queries_ c). by split; [|right].
    + split; [unfold turn in Ht; congruence|]. split; [unfold turn in Ht; congruence|]. split; [by apply kept_live|by eapply turn_turns].
  - destruct (holding w n c A Ha) as (E1 & E2 & E3 & E4). unfold write_error. rewrite bool_decide_true by done. rewrite Nat.add_1_r.
    pose proof (fulfill_turn c (Some err)) as Ht. unfold turn in Ht. set (c1 := fulfill_write_promises c (Some err)) in *. injection Ht as T1 T2 T3 T4 T5 T6 T7 T8.
    apply loop_fine; [cbn; congruence|exact (kept_fulfill w c (Some err) K)| |].
    + destruct T as [_ _ H3 H4]. split; [done|done|intros H; change (close_after_write_ c1 = true) in H; congruence|].
      intros _. change (exists past, consistent past (reader_ c1)). rewrite T2. by apply H4.
    + unfold within. cbn -[handed]. rewrite T7, E3. lia.
  - apply Hone. left. pose proof (live_turn c) as Ht. split; [unfold touch_activity, turn in *; congruence|]. split; [unfold touch_activity, turn in *; congruence|].
    split; [by apply kept_live|by eapply turn_turns].
  - apply Hone. right. unfold timeout_expired. pose proof (turns_handed n c Hst T) as Hn.
    assert (Hstop : forall err, ended_with w n (stop (emit c (OnError err)))).
    { intros err. apply stop_ends; [by apply kept_emit|]. cbn -[handed]. by rewrite handed_app, app_nil_r. }
    case_bool; [apply Hstop|]. case_bool; [apply Hstop|by apply stop_ends].
  - apply Hone. left. pose proof (live_turn c) as Ht. split; [unfold on_finish_migrate, turn in *; congruence|]. split; [unfold on_finish_migrate, turn in *; congruence|].
    split; [by apply kept_live|by eapply turn_turns].
Qed.

(** ** Rounds without trouble *)

Definition incoming (x : round) : bytes := match can_read x with Some (data, _) => data | None => [] end.
Definition quiet (x : round) : bool :=
  match can_read x with Some (_, Some _) => false | _ => true end && match can_write x with Some (_, Some _) => false | _ => true end
  && negb (bool_decide (is_Some (get_pending_error x))) && negb (can_close x).

Lemma quiet_write (c : connection) x : quiet x = true -> close_after_write_ c = false ->
  exists c', write_output c (can_write x) = (c', false) /\ turn c' = turn c.
Proof using Type.
  intros Hx Hc. apply andb_true_iff in Hx as [[[_ Hx]%andb_true_iff _]%andb_true_iff _]. unfold write_output.
  set (c1 := set_write_buffer_ _ _). destruct (can_write x) as [[k [err|]]|]; [done| |by exists c1].
  set (c2 := set_written_offset_ (flush_write c1 k) _). assert (T2 : turn (fulfill_write_promises c2 None) = turn c).
  { rewrite fulfill_turn. unfold turn. cbn -[handed]. by rewrite handed_app, app_nil_r. }
  assert (close_after_write_ (fulfill_write_promises c2 None) = false) as -> by (unfold turn in T2; congruence). by eexists.
Qed.

Lemma quiet_finish (c : connection) x : quiet x = true -> state_ c <> Close -> finish_loop c x = c.
Proof using Type.
  intros Hx Hs. apply andb_true_iff in Hx as [[_ Hp]%andb_true_iff Hc]. unfold finish_loop.
  rewrite negb_true_iff, bool_decide_eq_false in Hp. destruct (get_pending_error x); [by destruct Hp|]. rewrite negb_true_iff in Hc. rewrite Hc.
  by rewrite bool_decide_false.
Qed.

(** The connection waits for a query. *)
Definition waiting (query : Z) (r : HttpReader.reader (Gz := Gz)) (c : connection) : Prop :=
  stopped c = false /\ state_ c = Read /\ close_after_write_ c = false /\ current_query_ c = Some query /\ reader_ c = r.

Lemma turn_waiting query r (c c' : connection) : turn c' = turn c -> waiting query r c -> waiting query r c'.
Proof using Type. unfold turn, waiting. intros [= E1 E2 E3 E4 E5 E6 E7 E8]. by rewrite E1, E2, E3, E4, E6. Qed.

(** A quiet round of a connection that waits for a query. *)
Lemma quiet_round query r (c : connection) x r' res : waiting query r c -> quiet x = true ->
  reads_next e (HttpReader.set_input_ r (HttpReader.input_ r ++ incoming x)) query (new_query Invalid) (slow_scheduler_id_ c =? -1) r' res ->
  match res with
  | Ok 0 => exists fuel c', loop e fuel c x = Some c' /\ stopped c' = false /\ state_ c' = Write /\ close_after_write_ c' = false /\ reader_ c' = r'
      /\ handed (out c') = handed (out c) ++ [set_hq_peer_address (HttpReader.the_query (HttpReader.the_parsed r')) (peer_address_ c)]
  | Ok n => exists fuel c', loop e fuel c x = Some c' /\ waiting query r' c' /\ handed (out c') = handed (out c) /\ peer_address_ c' = peer_address_ c
      /\ slow_scheduler_id_ c' = slow_scheduler_id_ c
  | Err err => err = HttpReader.slow -> slow_scheduler_id_ c <> -1 -> exists fuel c', loop e fuel c x = Some c' /\ waiting query r' c' /\ handed (out c') = handed (out c)
      /\ peer_address_ c' = peer_address_ c /\ slow_scheduler_id_ c' = -1
  end.
Proof using Type.
  intros (Hs & Hst & Hc & Hq & Hr) Hx [fuel E]. subst r. set (c1 := set_reader_ c (HttpReader.set_input_ (reader_ c) (HttpReader.input_ (reader_ c) ++ incoming x))).
  set (sl := slow_scheduler_id_ c =? -1) in *.
  assert (Hloop : loop e fuel c x = '(c, returns) ← on_read (set_reader_ c1 r') sl res; if (returns : bool) then Some c
    else let '(c, returns) := write_output c (can_write x) in Some (if (returns : bool) then c else finish_loop c x)).
  { pose proof Hx as Hx'. apply andb_true_iff in Hx' as [[[Hcr _]%andb_true_iff _]%andb_true_iff _]. unfold loop.
    transitivity ('(c, returns) ← read_query e fuel c1; if (returns : bool) then Some c
      else let '(c, returns) := write_output c (can_write x) in Some (if (returns : bool) then c else finish_loop c x)).
    { subst c1. unfold incoming. by destruct (can_read x) as [[data [err|]]|]. }
    unfold read_query. change (state_ c1) with (state_ c). rewrite bool_decide_true by done. change (current_query_ c1) with (current_query_ c). rewrite Hq.
    cbn [mbind option_bind]. change (reader_ c1) with (HttpReader.set_input_ (reader_ c) (HttpReader.input_ (reader_ c) ++ incoming x)).
    change (slow_scheduler_id_ c1 =? -1) with sl. by rewrite E. }
  assert (Hend : forall c2, close_after_write_ c2 = false -> state_ c2 <> Close -> on_read (set_reader_ c1 r') sl res = Some (c2, false) ->
    exists c', loop e fuel c x = Some c' /\ turn c' = turn c2).
  { intros c2 H2 Hn Eo. rewrite Hloop, Eo. cbn [mbind option_bind]. destruct (quiet_write c2 x Hx H2) as (c3 & -> & T3).
    assert (Hn3 : state_ c3 <> Close) by (unfold turn in T3; congruence). rewrite (quiet_finish c3 x Hx Hn3). by exists c3. }
  assert (Hwait : waiting query r' (set_reader_ c1 r')) by done.
  assert (Hmore : forall n, res = Ok n -> n <> 0 -> exists fuel c', loop e fuel c x = Some c' /\ waiting query r' c' /\ handed (out c') = handed (out c)
    /\ peer_address_ c' = peer_address_ c /\ slow_scheduler_id_ c' = slow_scheduler_id_ c).
  { intros n -> Hz%Z.eqb_neq. destruct (Hend (set_reader_ c1 r')) as (c' & E' & T'); [exact Hc|cbn; by rewrite Hst|unfold on_read; by rewrite Hz|].
    exists fuel, c'. split; [done|]. split; [by eapply turn_waiting|]. unfold turn in T'. by injection T' as T1 T2 T3 T4 T5 T6 T7 T8. }
  destruct res as [[|n|n]|err]; [|by eapply Hmore..|].
  - pose proof (live_turn (set_state_ (set_reader_ c1 r') Write)) as Ht. unfold turn in Ht. cbn -[handed] in Ht. injection Ht as T1 T2 T3 T4 T5 T6 T7 T8.
    set (c0 := live_event (set_state_ (set_reader_ c1 r') Write)) in *.
    destruct (Hend (set_current_query_ (emit c0 (HandQuery (set_hq_peer_address (HttpReader.the_query (HttpReader.the_parsed r')) (peer_address_ c0)))) None)) as (c' & E' & T').
    { exact (eq_trans T4 Hc). } { change (state_ c0 <> Close). by rewrite T1. } { unfold on_read. rewrite Z.eqb_refl. fold c0. cbn zeta. f_equal. f_equal. f_equal. f_equal. f_equal. f_equal. f_equal. congruence. }
    exists fuel, c'. split; [done|]. unfold turn in T'. injection T' as U1 U2 U3 U4 U5 U6 U7 U8. cbn -[handed] in *.
    rewrite handed_app in U7. rewrite U1, U2, U4, U6, U7, T1, T2, T4, T6, T7, T8. by split_and!.
  - intros -> Hslow. exists fuel. rewrite Hloop. unfold on_read. rewrite bool_decide_true by done. assert (sl = false) as -> by (by apply Z.eqb_neq). cbn [mbind option_bind].
    eexists. split; [done|]. split; [done|]. split; [cbn -[handed]; by rewrite handed_app, app_nil_r|done].
Qed.

End Turns.

Lemma fulfill_reached n ps : Forall (fun p => offset p <= n) ps -> fulfill_loop n None ps = ([], (fun p => Fulfil (promise p) (Ok tt)) <$> ps).
Proof using Type.
  induction 1 as [|p ps Hp _ IH]; [done|]. cbn [fulfill_loop]. rewrite (proj2 (Z.leb_le _ _) Hp), orb_true_r. by rewrite IH.
Qed.

Lemma successes_sent (ps : list write_promise) : sent ((fun p => Fulfil (promise p) (Ok tt)) <$> ps) = [].
Proof using Type. induction ps as [|p ps IH]; [done|exact IH]. Qed.

(** The socket takes everything. *)
Lemma flush_all (e : HttpReader.env) (c : connection) x k w : state_ c = Write -> close_after_write_ c = false -> quiet x = true -> can_write x = Some (k, None) ->
  (length (output_ c ++ write_buffer_ c) <= k)%nat -> kept w c -> (forall err, OnError err ∉ out c) ->
  exists c', (forall fuel, loop e fuel c x = Some c') /\ write_promises_ c' = [] /\ output_ c' = [] /\ write_buffer_ c' = []
  /\ out c' = out c ++ Sent (output_ c ++ write_buffer_ c) :: ((fun p => Fulfil (promise p) (Ok tt)) <$> write_promises_ c) /\ sent (out c') = text w.
Proof using Type.
  intros Hst Hc Hx Hw Hk [[(tail & B1 & Btail) B2 B3 B4 B6 B7 B8] X] Ho. set (all := output_ c ++ write_buffer_ c) in *.
  rewrite (Btail Hc), app_nil_r in B1. specialize (X Hc Ho). apply (f_equal len) in B1 as Hlen. rewrite len_app in Hlen. pose proof (len_nonneg (sent (out c))). pose proof (len_nonneg all).
  set (c1 := set_reader_ c (HttpReader.set_input_ (reader_ c) (HttpReader.input_ (reader_ c) ++ incoming x))).
  set (c2 := set_written_offset_ (flush_write (set_write_buffer_ (set_output_ c1 all) []) k) (len (text w))).
  assert (Hful : fulfill_write_promises c2 None = set_out (set_write_promises_ c2 []) (out c2 ++ ((fun p => Fulfil (promise p) (Ok tt)) <$> write_promises_ c))).
  { unfold fulfill_write_promises. change (write_promises_ c2) with (write_promises_ c). change (written_offset_ c2) with (len (text w)).
    rewrite fulfill_reached; [done|]. eapply Forall_impl; [exact B7|]. intros p. apply promised_text. }
  exists (fulfill_write_promises c2 None).
  assert (Hlast : sent (out c2) = text w) by (cbn -[sent take]; rewrite sent_app, B1; cbn; by rewrite app_nil_r, take_ge).
  split; [|rewrite Hful; cbn -[sent take drop]; rewrite drop_ge, take_ge, <- app_assoc by done; split_and!; try done].
  - intros fuel. pose proof Hx as Hx'. apply andb_true_iff in Hx' as [[[Hcr _]%andb_true_iff _]%andb_true_iff _]. unfold loop.
    transitivity ('(c, returns) ← read_query e fuel c1; if (returns : bool) then Some c
      else let '(c, returns) := write_output c (can_write x) in Some (if (returns : bool) then c else finish_loop c x)).
    { subst c1. unfold incoming. by destruct (can_read x) as [[data [err|]]|]. }
    unfold read_query. change (state_ c1) with (state_ c). rewrite bool_decide_false by (by rewrite Hst). cbn [mbind option_bind]. rewrite Hw. unfold write_output.
    change (output_ c1 ++ write_buffer_ c1) with all. cbn zeta. set (c3 := set_write_buffer_ (set_output_ c1 all) []).
    change (output_ c3) with all. change (written_offset_ c3) with (written_offset_ c). change (written_offset_ (flush_write c3 k)) with (written_offset_ c).
    assert (wrap 64 (written_offset_ c + Z.min (Z.of_nat k) (len all)) = len (text w)) as ->.
    { unfold wrap. rewrite Z.mod_small; unfold len in *; lia. }
    change (set_written_offset_ (flush_write c3 k) (len (text w))) with c2. rewrite Hful. set (c4 := set_out _ _). assert (close_after_write_ c4 = false) as -> by exact Hc. cbn [andb].
    rewrite quiet_finish; [done|done|]. change (state_ c <> Close). by rewrite Hst.
  - rewrite app_assoc, sent_app. cbn -[sent take] in Hlast. rewrite take_ge in Hlast by done. rewrite Hlast.
    by rewrite successes_sent, app_nil_r.
Qed.
End Connections.
