(* ===== verification/ConnectionProperties.v ===== *)
(** * Properties of HTTP connections

    The runs of [HttpConnectionBase], and the theorems about them. *)

From S2P Require Import Prelude TdMisc HttpHeader IPAddress HttpUrl ByteFlow Query HttpConnection HttpReader HttpReaderChecks HttpReaderMessages HttpReaderForms HttpReaderErrors HttpReaderProperties HttpConnectionBase ConnectionBooks.

Import Connection.

Section Connections.
Context {Gz : Type} {ops : HttpReader.gzip_ops Gz}.
#[local] Notation connection := (Connection.connection (Gz := Gz)).

(** ** Runs *)

Section Runs.
Context (e : HttpReader.env).

(** A connection, what was written to it, and how many queries were answered.  Once
    it has stopped, nothing happens to it. *)
Inductive reached : connection -> list write -> nat -> Prop :=
| reached_new peer max_post_size max_files idle_timeout slow_scheduler_id :
    reached (new_connection peer max_post_size max_files idle_timeout slow_scheduler_id) [] 0
| reached_step fuel c w n ev c' : reached c w n -> stopped c = false -> allowed n c ev = true -> step e fuel c ev = Some c' ->
    reached c' (w ++ writes ev) (n + answers ev).

Lemma reached_fine {laws : gzip_laws Gz} (He : env_ok e) c w n : reached c w n -> fine w n c.
Proof using Type.
  induction 1 as [peer mp mf idle sched|fuel c w n ev c' _ IH Hs Ha E].
  - left. set (c0 := mk_connection (Gz := Gz) Read [] peer [] mp mf idle (HttpReader.new_reader mp mf (new_query Invalid)) None 0 false 0 0 [] sched false []).
    change (new_connection peer mp mf idle sched) with (live_event (make_query c0)). pose proof (live_turn (make_query c0)) as Ht.
    pose proof Ht as Ht'. unfold turn in Ht'. injection Ht' as T1 T2 T3 T4 T5 T6 T7 T8. split; [exact T6|]. split; [by rewrite T1|]. split.
    + apply kept_live. split; [|by intros _ _]. split; cbn; try done; [by exists []|intros [] p o2; done].
    + eapply turn_turns; [exact Ht|]. split; cbn; try done; [|intros _; exists []; split; try done; by intros _ []].
      intros _. split_and!; [done..|]. exists 0. by split; [|right].
  - destruct IH as [A|(Hs' & _)]; [|congruence]. by eapply (proj2 (step_fine e He w n c ev A Ha)).
Qed.


(** ** Serving a query

    [progress] is kept by the calls that do not complete a query ([call_progress]). *)
Section Serving.
Context (query : Z) (rest : bytes) (progress : HttpReader.reader (Gz := Gz) -> bytes -> Prop) (final : HttpReader.reader (Gz := Gz) -> Prop).
Context (progress_input : forall (r : HttpReader.reader) s future, progress r (s ++ future) -> progress (HttpReader.set_input_ r (HttpReader.input_ r ++ s)) future).
Context (progress_read : forall sl (r : HttpReader.reader) future, HttpReader.query_ r = Some query \/ HttpReader.query_ r = None ->
  progress (with_query query (new_query Invalid) r) future -> call_progress e query (new_query Invalid) rest progress final sl r future).









End Serving.
End Runs.
End Connections.

(** ** An example *)

Module ConnectionExample.
Import ReaderExample.

Definition connected : connection (Gz := unit) := new_connection Invalid 1000 10 30 2.

(** Everything is read and taken; or the socket has no room. *)
Definition all_of (data : bytes) : round := mk_round (Some (data, None)) (Some (1000%nat, None)) None false.
Definition no_room (data : bytes) : round := mk_round (Some (data, None)) None None false.

(** A query is handed on, and its answer with a promise waits for room. *)
Definition asked : event := Wakeup (no_room (lines_text json_head ++ crlf ++ json_chunks)).
Definition answered : event := WriteNextWithPromise (lit "answer") 7 (no_room []).
Definition with_query_in_hand : connection := from_option id connected (step system 100 connected asked).
Definition with_promise : connection := from_option id connected (step system 100 with_query_in_hand answered).

Lemma some_from {A} (d : A) (x : option A) : is_Some x -> x = Some (from_option id d x).
Proof. by intros [a ->]. Qed.

Lemma with_promise_reached : reached system with_promise [(lit "answer", Some 7%nat)] 0.
Proof.
  apply (reached_step system 100 with_query_in_hand [] 0 answered with_promise).
  - apply (reached_step system 100 connected [] 0 asked with_query_in_hand); [apply reached_new|vm_compute; reflexivity|vm_compute; reflexivity|].
    apply some_from. vm_compute. by eexists.
  - vm_compute. reflexivity.
  - vm_compute. reflexivity.
  - apply some_from. vm_compute. by eexists.
Defined.

Lemma no_errors (o : list action) : forallb (fun a => match a with OnError _ => false | _ => true end) o = true -> forall err, OnError err ∉ o.
Proof. intros H err Hin%list_elem_of_In. rewrite forallb_forall in H. by specialize (H _ Hin). Qed.

End ConnectionExample.

(** ** The theorems *)

Import ReaderExample ConnectionExample.

(** C22. No check of a connection fails, whatever arrives on the socket, however much of
    the output it takes, and whatever fails: the reader's checks hold, it asks for a
    slow scheduler only when it may, the response to its error fits, and a handler
    that writes and answers only while it has a query finds the state [Write].  A
    query is handed on only after the one before it was answered. *)
Theorem connection_checks {Gz : Type} {ops : HttpReader.gzip_ops Gz} {laws : gzip_laws Gz} (e : HttpReader.env) (c : connection (Gz := Gz)) w n ev :
  env_ok e -> reached e c w n -> allowed n c ev = true ->
  (exists fuel c', step e fuel c ev = Some c') /\
  forall fuel c', step e fuel c ev = Some c' ->
    (stopped c = true /\ c' = c \/ reached e c' (w ++ writes ev) (n + answers ev) /\ (n + answers ev <= length (handed (out c')) <= S (n + answers ev))%nat).
Proof.
  intros He Hr Ha. destruct (stopped c) eqn:Hs.
  - unfold step. rewrite Hs. split; [by exists O, c|]. intros _ c' [= <-]. by left.
  - destruct (reached_fine e He c w n Hr) as [A|(Hs' & _)]; [|congruence]. destruct (step_fine e He w n c ev A Ha) as [Hex Hall]. split; [done|].
    intros fuel c' E. right. split; [by eapply reached_step|]. destruct (Hall fuel c' E) as [(_ & Hn & _ & T)|(_ & _ & _ & H)]; [by apply turns_handed|done].
Qed.

Lemma connection_checks_witness : (exists fuel c', step system fuel connected (Wakeup (all_of form_message)) = Some c') /\
  forall fuel c', step system fuel connected (Wakeup (all_of form_message)) = Some c' ->
    (stopped connected = true /\ c' = connected \/ reached system c' ([] ++ []) (0 + 0) /\ (0 + 0 <= length (handed (out c')) <= S (0 + 0))%nat).
Proof. apply (connection_checks system connected [] 0 (Wakeup (all_of form_message))); [apply system_ok|apply reached_new|reflexivity]. Defined.

(** C23. The socket takes the bytes that were written, in their order (after them only
    the response to an error of the reader).  The promises are told one after the
    other, each at most once; a promise is told success only when its bytes and all
    those before them have been taken by the socket; and when the connection stops,
    nobody is left waiting. *)
Theorem connection_promises {Gz : Type} {ops : HttpReader.gzip_ops Gz} {laws : gzip_laws Gz} (e : HttpReader.env) (c : connection (Gz := Gz)) w n :
  env_ok e -> reached e c w n ->
  (exists tail, text w ++ tail = sent (out c) ++ output_ c ++ write_buffer_ c /\ (close_after_write_ c = false -> tail = []))
  /\ omap snd w = told (out c) ++ (promise <$> write_promises_ c)
  /\ (forall o1 p o2, out c = o1 ++ Fulfil p (Ok tt) :: o2 -> delivered_by w p (sent o1))
  /\ (stopped c = true -> write_promises_ c = []).
Proof.
  intros He Hr. pose proof (reached_fine e He c w n Hr) as F.
  assert (K : kept w c) by (destruct F as [(_ & _ & K & _)|(_ & K & _)]; exact K). destruct K as [B _]. split_and!; try apply B.
  intros Hs. destruct F as [(Hs' & _)|(_ & _ & H & _)]; [congruence|done].
Qed.

Lemma connection_promises_witness :
  (exists tail, text [(lit "answer", Some 7%nat)] ++ tail = sent (out with_promise) ++ output_ with_promise ++ write_buffer_ with_promise /\ (close_after_write_ with_promise = false -> tail = []))
  /\ omap snd [(lit "answer", Some 7%nat)] = told (out with_promise) ++ (promise <$> write_promises_ with_promise)
  /\ (forall o1 p o2, out with_promise = o1 ++ Fulfil p (Ok tt) :: o2 -> delivered_by [(lit "answer", Some 7%nat)] p (sent o1))
  /\ (stopped with_promise = true -> write_promises_ with_promise = []).
Proof. apply (connection_promises system with_promise [(lit "answer", Some 7%nat)] 0); [apply system_ok|apply with_promise_reached]. Defined.

(** C24. While nothing has failed, a round in which the socket takes all the output tells
    every waiting promise success, and leaves nothing to write. *)
Theorem connection_flushes {Gz : Type} {ops : HttpReader.gzip_ops Gz} {laws : gzip_laws Gz} (e : HttpReader.env) (c : connection (Gz := Gz)) w n x k fuel :
  env_ok e -> reached e c w n -> stopped c = false -> (n < length (handed (out c)))%nat -> (forall err, OnError err ∉ out c) ->
  quiet x = true -> can_write x = Some (k, None) -> (length (output_ c ++ write_buffer_ c) <= k)%nat ->
  exists c', step e fuel c (Wakeup x) = Some c' /\ write_promises_ c' = [] /\ output_ c' = [] /\ write_buffer_ c' = []
  /\ out c' = out c ++ Sent (output_ c ++ write_buffer_ c) :: ((fun p => Fulfil (promise p) (Ok tt)) <$> write_promises_ c) /\ sent (out c') = text w.
Proof.
  intros He Hr Hs Hn Ho Hx Hw Hk. destruct (reached_fine e He c w n Hr) as [A|(Hs' & _)]; [|congruence].
  destruct (holding w n c A (proj2 (Nat.ltb_lt _ _) Hn)) as (Hst & Hc & _). destruct A as (_ & _ & [B X] & _).
  destruct (flush_all e c x k w Hst Hc Hx Hw Hk (conj B X) Ho) as (c' & E & H). exists c'. split; [|exact H]. unfold step. rewrite Hs. apply E.
Qed.

Lemma connection_flushes_witness :
  exists c', step system 10 with_promise (Wakeup (all_of [])) = Some c' /\ write_promises_ c' = [] /\ output_ c' = [] /\ write_buffer_ c' = []
  /\ out c' = out with_promise ++ Sent (output_ with_promise ++ write_buffer_ with_promise)
       :: ((fun p => Fulfil (promise p) (Ok tt)) <$> write_promises_ with_promise)
  /\ sent (out c') = text [(lit "answer", Some 7%nat)].
Proof.
  apply (connection_flushes system with_promise [(lit "answer", Some 7%nat)] 0 (all_of []) 1000 10);
    [apply system_ok|apply with_promise_reached|vm_compute; reflexivity|apply Nat.ltb_lt; vm_compute; reflexivity|apply no_errors; vm_compute; reflexivity
    |reflexivity|reflexivity|apply Nat.leb_le; vm_compute; reflexivity].
Defined.


