(* ===== verification/Base64.v ===== *)
(** * Base64 and base32 ([td/utils/base64.h], [td/utils/base64.cpp])

    Module [Codec]: the encoders, the decoders and the checks; [is_url] chooses the
    alphabet and the padding, as the template argument does.  The facts lead to the
    exact inverse of the encoders. *)

From S2P Require Import Prelude TdMisc.

Module Codec.

Definition get_characters (is_url : bool) : bytes :=
  if is_url then lit "ABCDEFGHIJKLMNOPQRSTUVWXYZabcdefghijklmnopqrstuvwxyz0123456789-_"
  else lit "ABCDEFGHIJKLMNOPQRSTUVWXYZabcdefghijklmnopqrstuvwxyz0123456789+/".

(** [characters[i]], and [char_to_value[c]], which is 64 if [c] is no digit. *)
Definition character (is_url : bool) (i : Z) : ascii := List.nth (Z.to_nat i) (get_characters is_url) "A"%char.
Definition get_character_table (is_url : bool) (c : ascii) : Z :=
  match find c (get_characters is_url) with Some i => Z.of_nat i | None => 64 end.

Definition pad (is_url : bool) : bytes := if is_url then [] else ["="%char].

Fixpoint base64_encode_impl (is_url : bool) (input : bytes) : bytes :=
  let chars := character is_url in
  match input with
  | [] => []
  | [x] =>
    let c := Z.shiftl (ord x) 16 in
    [chars (Z.shiftr c 18); chars (Z.land (Z.shiftr c 12) 63)] ++ pad is_url ++ pad is_url
  | [x; y] =>
    let c := Z.lor (Z.shiftl (ord x) 16) (Z.shiftl (ord y) 8) in
    [chars (Z.shiftr c 18); chars (Z.land (Z.shiftr c 12) 63); chars (Z.land (Z.shiftr c 6) 63)] ++ pad is_url
  | x :: y :: z :: input =>
    let c := Z.lor (Z.lor (Z.shiftl (ord x) 16) (Z.shiftl (ord y) 8)) (ord z) in
    [chars (Z.shiftr c 18); chars (Z.land (Z.shiftr c 12) 63); chars (Z.land (Z.shiftr c 6) 63); chars (Z.land c 63)]
    ++ base64_encode_impl is_url input
  end.

Definition base64_encode : bytes -> bytes := base64_encode_impl false.
Definition base64url_encode : bytes -> bytes := base64_encode_impl true.

(** The trailing equals signs of the reversed text: their number, and the rest. *)
Fixpoint count_padding (rev_s : bytes) : Z * bytes :=
  match rev_s with
  | c :: s => if decide (c = "="%char) then let '(n, s) := count_padding s in (n + 1, s) else (0, rev_s)
  | [] => (0, [])
  end.

Definition base64_drop_padding (is_url : bool) (base64 : bytes) : result bytes :=
  let '(padding_length, rev_s) := count_padding (reverse base64) in
  let base64 := reverse rev_s in
  if 3 <=? padding_length then Err (Status 0 (lit "Wrong string padding"))
  else if (negb is_url || (0 <? padding_length)) && negb ((len base64 + padding_length) mod 4 =? 0) then
    Err (Status 0 (lit "Wrong padding length"))
  else if is_url && (len base64 mod 4 =? 1) then Err (Status 0 (lit "Wrong string length"))
  else Ok base64.

(** The 24 bits of at most four chars, the [t]-th of them first. *)
Fixpoint pack (table : ascii -> Z) (chars : bytes) (t c : Z) : result Z :=
  match chars with
  | [] => Ok c
  | x :: chars =>
    if table x =? 64 then Err (Status 0 (lit "Wrong character in the string"))
    else pack table chars (t + 1) (Z.lor c (Z.shiftl (table x) ((3 - t) * 6)))
  end.

(** One turn of the loop: the bytes of at most four chars. *)
Definition decode_group (table : ascii -> Z) (chars : bytes) : result bytes :=
  match pack table chars 0 0 with
  | Err e => Err e
  | Ok c =>
    let left := len chars in
    if left =? 2 then
      if negb (Z.land c (2 ^ 16 - 1) =? 0) then Err (Status 0 (lit "Wrong padding in the string")) else Ok [chr (Z.shiftr c 16)]
    else if left =? 3 then
      if negb (Z.land c (2 ^ 8 - 1) =? 0) then Err (Status 0 (lit "Wrong padding in the string"))
      else Ok [chr (Z.shiftr c 16); chr (Z.shiftr c 8)]
    else Ok [chr (Z.shiftr c 16); chr (Z.shiftr c 8); chr c]
  end.

Fixpoint do_base64_decode_impl (table : ascii -> Z) (base64 : bytes) : result bytes :=
  match base64 with
  | [] => Ok []
  | x :: y :: z :: w :: base64 =>
    match decode_group table [x; y; z; w] with
    | Err e => Err e
    | Ok l => match do_base64_decode_impl table base64 with Ok k => Ok (l ++ k) | Err e => Err e end
    end
  | _ => decode_group table base64
  end.

Definition base64_decode_impl (is_url : bool) (base64 : bytes) : result bytes :=
  match base64_drop_padding is_url base64 with
  | Err e => Err e
  | Ok base64 => do_base64_decode_impl (get_character_table is_url) base64
  end.

Definition base64_decode : bytes -> result bytes := base64_decode_impl false.
Definition base64url_decode : bytes -> result bytes := base64_decode_impl true.

Definition is_base64_characters_impl (is_url : bool) (input : bytes) : bool :=
  forallb (fun c => negb (get_character_table is_url c =? 64)) input.
Definition is_base64url_characters : bytes -> bool := is_base64_characters_impl true.

Definition last_value (is_url : bool) (input : bytes) : Z := get_character_table is_url (List.last input "A"%char).

Definition is_base64_impl (is_url : bool) (input : bytes) : bool :=
  let '(padding_length, rev_s) := count_padding (reverse input) in
  let input := reverse rev_s in
  if 3 <=? padding_length then false
  else if (negb is_url || (0 <? padding_length)) && negb ((len input + padding_length) mod 4 =? 0) then false
  else if is_url && (len input mod 4 =? 1) then false
  else if negb (is_base64_characters_impl is_url input) then false
  else if (len input mod 4 =? 2) && negb (Z.land (last_value is_url input) 15 =? 0) then false
  else if (len input mod 4 =? 3) && negb (Z.land (last_value is_url input) 3 =? 0) then false
  else true.

Definition base64_filter (input : bytes) : bytes :=
  base.filter (fun c => get_character_table false c <> 64 \/ c = "="%char) input.

(** *** Base32 *)

Definition get_base32_characters (upper_case : bool) : bytes :=
  if upper_case then lit "ABCDEFGHIJKLMNOPQRSTUVWXYZ234567" else lit "abcdefghijklmnopqrstuvwxyz234567".
Definition base32_character (upper_case : bool) (i : Z) : ascii := List.nth (Z.to_nat i) (get_base32_characters upper_case) "A"%char.
Definition get_base32_character_table (c : ascii) : Z :=
  match find c (get_base32_characters false) with
  | Some i => Z.of_nat i
  | None => match find c (get_base32_characters true) with Some i => Z.of_nat i | None => 32 end
  end.

(** The [while] loop that empties the accumulator; a byte completes at most two
    digits. *)
Fixpoint flush32 (fuel : nat) (upper_case : bool) (c length : Z) : bytes * Z :=
  match fuel with
  | O => ([], length)
  | S fuel =>
    if 5 <=? length then
      let length := length - 5 in
      let '(s, l) := flush32 fuel upper_case c length in
      (base32_character upper_case (Z.land (Z.shiftr c length) 31) :: s, l)
    else ([], length)
  end.

(** [c] and [length] are [uint32]. *)
Fixpoint base32_encode_loop (upper_case : bool) (input : bytes) (c length : Z) : bytes :=
  match input with
  | [] => if negb (length =? 0) then [base32_character upper_case (Z.land (wrap 32 (Z.shiftl c (5 - length))) 31)] else []
  | x :: input =>
    let c := Z.lor (wrap 32 (Z.shiftl c 8)) (ord x) in
    let '(s, length) := flush32 2 upper_case c (length + 8) in
    s ++ base32_encode_loop upper_case input c length
  end.
Definition base32_encode (input : bytes) (upper_case : bool) : bytes := base32_encode_loop upper_case input 0 0.

Fixpoint base32_decode_loop (base32 : bytes) (c length : Z) (res : bytes) : result bytes :=
  match base32 with
  | [] => if negb (Z.land c (Z.shiftl 1 length - 1) =? 0) then Err (Status 0 (lit "Nonzero padding")) else Ok res
  | x :: base32 =>
    let value := get_base32_character_table x in
    if value =? 32 then Err (Status 0 (lit "Wrong character in the string"))
    else
      let c := Z.lor (wrap 32 (Z.shiftl c 5)) value in
      let length := length + 5 in
      if 8 <=? length then
        let length := length - 8 in
        base32_decode_loop base32 c length (res ++ [chr (Z.land (Z.shiftr c length) 255)])
      else base32_decode_loop base32 c length res
  end.
Definition base32_decode (base32 : bytes) : result bytes := base32_decode_loop base32 0 0 [].

End Codec.

Example test_base64 : Codec.base64_encode (lit "Hello") = lit "SGVsbG8=" /\ Codec.base64_decode (lit "SGVsbG8=") = Ok (lit "Hello").
Proof. split; reflexivity. Qed.
Example test_base32 : Codec.base32_encode (lit "Hello") false = lit "jbswy3dp" /\ Codec.base32_decode (lit "JBSWY3DP") = Ok (lit "Hello").
Proof. split; reflexivity. Qed.

(** ** Facts *)

Import Codec.

(** *** Digits *)

Lemma table_bounds u c : 0 <= get_character_table u c <= 64.
Proof. destruct u; revert c; all_chars; split; discriminate. Qed.

Lemma character_table u c : get_character_table u c <> 64 -> character u (get_character_table u c) = c.
Proof. destruct u; revert c; intros c; destruct c as [[] [] [] [] [] [] [] []]; vm_compute; try reflexivity; by intros []. Qed.

(** A property of the 64 digits. *)
Lemma digits_64 (P : Z -> bool) : forallb P (Z.of_nat <$> seq 0 64) = true -> forall v, 0 <= v < 64 -> P v = true.
Proof.
  intros H v Hv. rewrite forallb_forall in H. apply H, list_elem_of_In, list_elem_of_fmap. exists (Z.to_nat v).
  rewrite Z2Nat.id by lia. split; [done|]. apply elem_of_seq. lia.
Qed.

Lemma table_character u v : 0 <= v < 64 -> get_character_table u (character u v) = v.
Proof.
  intros Hv. apply Z.eqb_eq. revert v Hv. apply (digits_64 (fun v => get_character_table u (character u v) =? v)).
  by destruct u; vm_compute.
Qed.

Lemma character_not_pad u v : 0 <= v < 64 -> character u v <> "="%char.
Proof.
  intros Hv. assert (negb (bool_decide (character u v = "="%char)) = true) as H.
  { revert v Hv. apply (digits_64 (fun v => negb (bool_decide (character u v = "="%char)))). by destruct u; vm_compute. }
  by apply negb_true_iff, bool_decide_eq_false in H.
Qed.

(** *** Twenty-four bits *)

Lemma shiftl_mul a n : 0 <= n -> Z.shiftl a n = a * 2 ^ n.
Proof. apply Z.shiftl_mul_pow2. Qed.

Lemma lor3 x y z : 0 <= x < 256 -> 0 <= y < 256 -> 0 <= z < 256 ->
  Z.lor (Z.lor (Z.shiftl x 16) (Z.shiftl y 8)) z = x * 65536 + y * 256 + z.
Proof.
  intros. rewrite !shiftl_mul by lia. change (2 ^ 16) with 65536. change (2 ^ 8) with 256.
  rewrite (lor_add 16 (x * 65536)) by (try lia; by rewrite Z.mod_mul).
  rewrite (lor_add 8); [done|lia|done|]. change (2 ^ 8) with 256. Z.div_mod_to_equations. lia.
Qed.

Lemma lor2 x y : 0 <= x < 256 -> 0 <= y < 256 -> Z.lor (Z.shiftl x 16) (Z.shiftl y 8) = x * 65536 + y * 256.
Proof. intros. rewrite <- (Z.lor_0_r (Z.lor _ _)), lor3 by lia. lia. Qed.

Lemma pick6 c n : 0 <= n -> Z.land (Z.shiftr c n) 63 = c / 2 ^ n mod 64.
Proof. intros. change 63 with (Z.ones 6). by rewrite Z.land_ones, Z.shiftr_div_pow2 by lia. Qed.

(** The digits of 24 bits, and their sum. *)
Definition d0 c := c / 262144.
Definition d1 c := c / 4096 mod 64.
Definition d2 c := c / 64 mod 64.
Definition d3 c := c mod 64.

Lemma digits_sum c : 0 <= c < 16777216 -> d0 c * 262144 + d1 c * 4096 + d2 c * 64 + d3 c = c
  /\ 0 <= d0 c < 64 /\ 0 <= d1 c < 64 /\ 0 <= d2 c < 64 /\ 0 <= d3 c < 64.
Proof. intros. unfold d0, d1, d2, d3. Z.div_mod_to_equations. lia. Qed.

Lemma sum_digits a b c d : 0 <= a < 64 -> 0 <= b < 64 -> 0 <= c < 64 -> 0 <= d < 64 ->
  let s := a * 262144 + b * 4096 + c * 64 + d in d0 s = a /\ d1 s = b /\ d2 s = c /\ d3 s = d /\ 0 <= s < 16777216.
Proof. intros. unfold d0, d1, d2, d3. Z.div_mod_to_equations. lia. Qed.

Lemma pack_digit c v k : 0 <= k -> 0 <= v < 64 -> 0 <= c -> c mod 2 ^ (k + 6) = 0 -> Z.lor c (Z.shiftl v k) = c + v * 2 ^ k.
Proof.
  intros Hk Hv Hc Hm. rewrite shiftl_mul by done. apply (lor_add (k + 6)); [lia| |done].
  rewrite Z.pow_add_r by lia. change (2 ^ 6) with 64. assert (0 < 2 ^ k) by (apply Z.pow_pos_nonneg; lia). nia.
Qed.

(** The values of up to four chars, the missing ones zero. *)
Definition value (u : bool) (l : bytes) (i : nat) : Z := match l !! i with Some c => get_character_table u c | None => 0 end.

Lemma pack_spec u l : (length l <= 4)%nat -> pack (get_character_table u) l 0 0
  = if forallb (fun c => negb (get_character_table u c =? 64)) l
    then Ok (value u l 0 * 262144 + value u l 1 * 4096 + value u l 2 * 64 + value u l 3)
    else Err (Status 0 (lit "Wrong character in the string")).
Proof.
  intros H. unfold value. set (e := Err (Status 0 (lit "Wrong character in the string"))).
  destruct l as [|x [|y [|z [|w [|? ?]]]]]; try (cbn in H; lia); cbn [pack forallb lookup list_lookup]; fold e; try done;
    repeat match goal with
    | |- context [get_character_table u ?c] =>
      let v := fresh "v" in pose proof (table_bounds u c); set (v := get_character_table u c) in *; clearbody v
    end;
    repeat match goal with |- context [?v =? 64] => destruct (Z.eqb_spec v 64); cbn [negb andb]; try done end;
    change ((3 - 0) * 6) with 18; change ((3 - (0 + 1)) * 6) with 12; change ((3 - (0 + 1 + 1)) * 6) with 6;
    change ((3 - (0 + 1 + 1 + 1)) * 6) with 0; rewrite ?Z.lor_0_l, ?(shiftl_mul _ 18) by lia; change (2 ^ 18) with 262144;
    rewrite ?(pack_digit _ _ 12) by (try lia; change (2 ^ (12 + 6)) with 262144; Z.div_mod_to_equations; lia); change (2 ^ 12) with 4096;
    rewrite ?(pack_digit _ _ 6) by (try lia; change (2 ^ (6 + 6)) with 4096; Z.div_mod_to_equations; lia); change (2 ^ 6) with 64;
    rewrite ?(pack_digit _ _ 0) by (try lia; change (2 ^ (0 + 6)) with 64; Z.div_mod_to_equations; lia); change (2 ^ 0) with 1;
    f_equal; lia.
Qed.

(** *** Groups *)

Definition bytes_of (s : Z) : bytes := [chr (Z.shiftr s 16); chr (Z.shiftr s 8); chr s].
Definition sum_of (a b c : ascii) : Z := ord a * 65536 + ord b * 256 + ord c.
Definition digits_of (u : bool) (s : Z) : bytes := character u <$> [d0 s; d1 s; d2 s; d3 s].

Lemma sum_bounds a b c : 0 <= sum_of a b c < 16777216.
Proof. unfold sum_of. pose proof (ord_bounds a). pose proof (ord_bounds b). pose proof (ord_bounds c). lia. Qed.

Lemma bytes_of_sum a b c : bytes_of (sum_of a b c) = [a; b; c].
Proof.
  pose proof (ord_bounds a). pose proof (ord_bounds b). pose proof (ord_bounds c).
  assert (forall x y, ord (chr x) = ord y -> chr x = y) as Hi by (intros; by apply ord_inj).
  unfold bytes_of, sum_of. rewrite !Z.shiftr_div_pow2 by lia. change (2 ^ 16) with 65536. change (2 ^ 8) with 256.
  repeat f_equal; apply Hi; rewrite ord_chr; Z.div_mod_to_equations; lia.
Qed.

Lemma sum_of_bytes s : 0 <= s < 16777216 -> exists a b c, bytes_of s = [a; b; c] /\ sum_of a b c = s.
Proof.
  intros Hs. eexists _, _, _. split; [done|]. unfold sum_of. rewrite !ord_chr, !Z.shiftr_div_pow2 by lia.
  change (2 ^ 16) with 65536. change (2 ^ 8) with 256. Z.div_mod_to_equations. lia.
Qed.

(** What a group of [k + 1] chars says of [k] bytes. *)
Definition encode_group (u : bool) (l : bytes) : bytes :=
  match l with
  | [a] => take 2 (digits_of u (sum_of a (chr 0) (chr 0)))
  | [a; b] => take 3 (digits_of u (sum_of a b (chr 0)))
  | [a; b; c] => digits_of u (sum_of a b c)
  | _ => []
  end.

Lemma group_pack u l s : (length l <= 4)%nat -> pack (get_character_table u) l 0 0 = Ok s ->
  0 <= s < 16777216 /\ l = take (length l) (digits_of u s) /\ (forall i, (length l <= i)%nat -> value u l i = 0)
  /\ s = value u l 0 * 262144 + value u l 1 * 4096 + value u l 2 * 64 + value u l 3.
Proof.
  intros Hl. rewrite pack_spec by done. destruct (forallb _ l) eqn:E; [|discriminate]. intros [= <-].
  rewrite forallb_forall in E.
  assert (forall i, 0 <= value u l i < 64) as Hv.
  { intros i. unfold value. destruct (l !! i) as [c|] eqn:Ei; [|lia]. apply list_elem_of_lookup_2, list_elem_of_In, E in Ei.
    apply negb_true_iff, Z.eqb_neq in Ei. pose proof (table_bounds u c). lia. }
  destruct (sum_digits (value u l 0) (value u l 1) (value u l 2) (value u l 3)) as (E0 & E1 & E2 & E3 & Hs); [apply Hv..|].
  split; [done|]. split; [|split; [|done]].
  - unfold digits_of. cbn [fmap list_fmap]. rewrite E0, E1, E2, E3.
    apply list_eq. intros i. destruct (l !! i) as [c|] eqn:Ei.
    + assert (character u (value u l i) = c) as Hc.
      { unfold value. rewrite Ei. apply character_table. apply list_elem_of_lookup_2, list_elem_of_In, E in Ei. by apply negb_true_iff, Z.eqb_neq in Ei. }
      pose proof (lookup_lt_Some _ _ _ Ei). rewrite lookup_take_lt by done.
      destruct i as [|[|[|[|i]]]]; cbn; try (by rewrite Hc). lia.
    + symmetry. apply lookup_take_None. right. by apply lookup_ge_None_1.
  - intros i Hi. unfold value. by rewrite lookup_ge_None_2.
Qed.

Lemma pack_digits u s k : 0 <= s < 16777216 -> (k <= 4)%nat -> (forall i, (k <= i)%nat -> value u (take k (digits_of u s)) i = 0) ->
  s mod 2 ^ (6 * (4 - Z.of_nat k)) = 0 -> pack (get_character_table u) (take k (digits_of u s)) 0 0 = Ok s.
Proof.
  intros Hs Hk Hz Hm. rewrite pack_spec by (rewrite length_take; cbn; lia).
  destruct (digits_sum s Hs) as (Es & H0 & H1 & H2 & H3).
  assert (forall i v, digits_of u s !! i = Some v -> exists d, 0 <= d < 64 /\ v = character u d) as Hd.
  { unfold digits_of. intros i v (d & -> & Hi)%list_lookup_fmap_Some. exists d. split; [|done].
    destruct i as [|[|[|[|i]]]]; cbn in Hi; try (injection Hi as <-; done). discriminate. }
  assert (forallb (fun c => negb (get_character_table u c =? 64)) (take k (digits_of u s)) = true) as ->.
  { apply forallb_forall. intros c [i [Hi _]%lookup_take_Some]%list_elem_of_In%list_elem_of_lookup. destruct (Hd _ _ Hi) as (d & ? & ->).
    rewrite table_character by done. apply negb_true_iff, Z.eqb_neq. lia. }
  assert (forall i, (i < k)%nat -> value u (take k (digits_of u s)) i = value u (digits_of u s) i) as Hv.
  { intros i Hi. unfold value. by rewrite lookup_take_lt. }
  assert (value u (digits_of u s) 0 = d0 s /\ value u (digits_of u s) 1 = d1 s /\ value u (digits_of u s) 2 = d2 s
    /\ value u (digits_of u s) 3 = d3 s) as (V0 & V1 & V2 & V3).
  { unfold value, digits_of. cbn. by rewrite !table_character. }
  f_equal. unfold d0, d1, d2, d3 in *.
  destruct k as [|[|[|[|[|k]]]]]; try lia;
    rewrite ?(Hz 0%nat), ?(Hz 1%nat), ?(Hz 2%nat), ?(Hz 3%nat), ?(Hv 0%nat), ?(Hv 1%nat), ?(Hv 2%nat), ?(Hv 3%nat), ?V0, ?V1, ?V2, ?V3 by lia;
    cbn in Hm; change (Z.pow_pos 2 24) with 16777216 in Hm; change (Z.pow_pos 2 18) with 262144 in Hm;
    change (Z.pow_pos 2 12) with 4096 in Hm; change (Z.pow_pos 2 6) with 64 in Hm; Z.div_mod_to_equations; lia.
Qed.

Lemma group_decoded u l r : (2 <= length l <= 4)%nat ->
  decode_group (get_character_table u) l = Ok r -> S (length r) = length l /\ l = encode_group u r.
Proof.
  intros Hl. unfold decode_group. destruct (pack _ l 0 0) as [s|] eqn:Ep; [|discriminate]. destruct (group_pack u l s ltac:(lia) Ep) as (Hs & El & Hz & Es).
    destruct (sum_of_bytes s Hs) as (a & b & c & Eb & Esum). unfold bytes_of in Eb. injection Eb as Ea Eb Ec. rewrite Ea, Eb, Ec.
    assert (forall n, 0 <= n -> Z.land s (2 ^ n - 1) = s mod 2 ^ n) as Hland.
    { intros n Hn. rewrite <- Z.land_ones, Z.ones_equiv by done. done. }
    assert (chr 0 = Ascii.zero) as Hchr by done. assert (forall x, ord x = 0 -> x = chr 0) as Hord by (intros x Hx; by rewrite <- Hx, chr_ord).
    pose proof (ord_bounds a). pose proof (ord_bounds b). pose proof (ord_bounds c). unfold sum_of in Esum.
    unfold len. destruct (Nat.eq_dec (length l) 2) as [L|L]; [|destruct (Nat.eq_dec (length l) 3) as [L'|L']].
  - rewrite L. rewrite Hland by lia. cbn [Z.of_nat Z.eqb]. destruct (s mod 2 ^ 16 =? 0) eqn:E0; [|discriminate].
      intros [= <-]. split; [done|]. apply Z.eqb_eq in E0. change (2 ^ 16) with 65536 in E0. rewrite L in El.
      assert (ord b = 0 /\ ord c = 0) as [Hb Hc] by (Z.div_mod_to_equations; lia).
      rewrite El. cbn [encode_group]. unfold sum_of. do 3 f_equal. rewrite <- Esum, Hb, Hc. done.
  - rewrite L'. rewrite !Hland by lia. change (Z.of_nat 3 =? 2) with false. change (Z.of_nat 3 =? 3) with true. cbn match.
      destruct (s mod 2 ^ 8 =? 0) eqn:E0; [|discriminate]. intros [= <-]. split; [done|]. apply Z.eqb_eq in E0.
      change (2 ^ 8) with 256 in E0. rewrite L' in El. assert (ord c = 0) as Hc by (Z.div_mod_to_equations; lia).
      rewrite El. cbn [encode_group]. unfold sum_of. do 3 f_equal. rewrite <- Esum, Hc. done.
  - assert (length l = 4%nat) as L4 by lia. rewrite L4. change (Z.of_nat 4 =? 2) with false. change (Z.of_nat 4 =? 3) with false. cbn match.
      intros [= <-]. split; [done|]. rewrite El, L4. cbn [encode_group]. unfold sum_of. rewrite Esum. done.
Qed.

Lemma group_encoded u l r : (2 <= length l <= 4)%nat -> S (length r) = length l -> l = encode_group u r ->
  decode_group (get_character_table u) l = Ok r.
Proof.
  intros Hl Hr El. unfold decode_group. assert (forall s k, 0 <= s < 16777216 -> (k <= 4)%nat -> forall i, (k <= i)%nat -> value u (take k (digits_of u s)) i = 0) as Hz.
    { intros s k _ Hk i Hi. unfold value. rewrite lookup_ge_None_2; [done|]. rewrite length_take. cbn. lia. }
    destruct r as [|a [|b [|c [|? ?]]]]; cbn [length] in Hr; try lia; cbn [encode_group] in El; subst l.
  - pose proof (sum_bounds a (chr 0) (chr 0)) as Hb. rewrite (pack_digits u _ 2) by (try done; try lia; try (apply Hz; [done|lia]);
        unfold sum_of; change (ord (chr 0)) with 0; change (2 ^ (6 * (4 - Z.of_nat 2))) with 4096; Z.div_mod_to_equations; lia).
      pose proof (bytes_of_sum a (chr 0) (chr 0)) as Eb. unfold bytes_of in Eb. injection Eb as Ea _ _. rewrite Ea.
      change (len (take 2 (digits_of u _))) with 2. cbn match.
      assert (Z.land (sum_of a (chr 0) (chr 0)) (2 ^ 16 - 1) = 0) as ->; [|done].
      change (2 ^ 16 - 1) with (Z.ones 16). rewrite Z.land_ones by lia. unfold sum_of. change (ord (chr 0)) with 0. change (2 ^ 16) with 65536.
      Z.div_mod_to_equations; lia.
  - pose proof (sum_bounds a b (chr 0)) as Hb. rewrite (pack_digits u _ 3) by (try done; try lia; try (apply Hz; [done|lia]);
        unfold sum_of; change (ord (chr 0)) with 0; change (2 ^ (6 * (4 - Z.of_nat 3))) with 64; Z.div_mod_to_equations; lia).
      pose proof (bytes_of_sum a b (chr 0)) as Eb. unfold bytes_of in Eb. injection Eb as Ea Eb _. rewrite Ea, Eb.
      change (len (take 3 (digits_of u _))) with 3. cbn match.
      assert (Z.land (sum_of a b (chr 0)) (2 ^ 8 - 1) = 0) as ->; [|done].
      change (2 ^ 8 - 1) with (Z.ones 8). rewrite Z.land_ones by lia. unfold sum_of. change (ord (chr 0)) with 0. change (2 ^ 8) with 256.
      Z.div_mod_to_equations; lia.
  - pose proof (sum_bounds a b c) as Hb. change (digits_of u (sum_of a b c)) with (take 4 (digits_of u (sum_of a b c))).
      rewrite (pack_digits u _ 4) by (try done; try lia; try (apply Hz; [done|lia]); change (2 ^ (6 * (4 - Z.of_nat 4))) with 1; apply Z.mod_1_r).
      change (len (take 4 (digits_of u _))) with 4. cbn match. change (4 =? 2) with false. change (4 =? 3) with false. cbn match. f_equal. apply (bytes_of_sum a b c).
Qed.

Lemma group_decode u l r : (2 <= length l <= 4)%nat ->
  decode_group (get_character_table u) l = Ok r <-> S (length r) = length l /\ l = encode_group u r.
Proof. intros Hl. split; [by apply group_decoded|]. intros [H1 H2]. by apply group_encoded. Qed.

(** *** Texts *)

(** The encoding without its padding. *)
Fixpoint body (u : bool) (l : bytes) : bytes :=
  match l with
  | a :: b :: c :: l => encode_group u [a; b; c] ++ body u l
  | _ => encode_group u l
  end.

Definition padding (u : bool) (l : bytes) : bytes := if u then [] else replicate ((3 - length l mod 3) mod 3) "="%char.

(** Induction by groups of three bytes. *)
Lemma triples_ind (P : bytes -> Prop) : P [] -> (forall a, P [a]) -> (forall a b, P [a; b]) ->
  (forall a b c l, P l -> P (a :: b :: c :: l)) -> forall l, P l.
Proof. intros H0 H1 H2 H3. fix IH 1. intros [|a [|b [|c l]]]; [done|done|done|apply H3, IH]. Qed.

Lemma padding_triple u a b c l : padding u (a :: b :: c :: l) = padding u l.
Proof.
  unfold padding. destruct u; [done|]. do 3 f_equal. cbn [length]. replace (S (S (S (length l)))) with (length l + 1 * 3)%nat by lia.
  by rewrite Nat.Div0.mod_add.
Qed.

Lemma encode_body u l : base64_encode_impl u l = body u l ++ padding u l.
Proof.
  assert (forall c, 0 <= c < 16777216 -> Z.shiftr c 18 = d0 c /\ Z.land (Z.shiftr c 12) 63 = d1 c /\ Z.land (Z.shiftr c 6) 63 = d2 c /\ Z.land c 63 = d3 c) as Hp.
  { intros c Hc. rewrite !pick6, Z.shiftr_div_pow2 by lia. split; [done|]. split; [done|]. split; [done|].
    change 63 with (Z.ones 6). by rewrite Z.land_ones by lia. }
  induction l as [|a|a b|a b c l IH] using triples_ind.
  - by destruct u.
  - cbn [base64_encode_impl body encode_group]. pose proof (sum_bounds a (chr 0) (chr 0)) as Hb.
    assert (Z.shiftl (ord a) 16 = sum_of a (chr 0) (chr 0)) as -> by (unfold sum_of; change (ord (chr 0)) with 0; rewrite shiftl_mul by lia; change (2 ^ 16) with 65536; lia).
    destruct (Hp _ Hb) as (-> & -> & _). by destruct u.
  - cbn [base64_encode_impl body encode_group]. pose proof (sum_bounds a b (chr 0)) as Hb.
    rewrite lor2 by apply ord_bounds. assert (ord a * 65536 + ord b * 256 = sum_of a b (chr 0)) as -> by (unfold sum_of; change (ord (chr 0)) with 0; lia).
    destruct (Hp _ Hb) as (-> & -> & -> & _). by destruct u.
  - cbn [base64_encode_impl body encode_group]. pose proof (sum_bounds a b c) as Hb.
    rewrite lor3 by apply ord_bounds. fold (sum_of a b c). destruct (Hp _ Hb) as (-> & -> & -> & ->).
    rewrite IH, padding_triple. by rewrite app_assoc.
Qed.

Lemma encode_group_length u l : (1 <= length l <= 3)%nat -> length (encode_group u l) = S (length l).
Proof. intros H. destruct l as [|a [|b [|c [|? ?]]]]; cbn in H; try lia; done. Qed.

Lemma body_triple u a b c l : body u (a :: b :: c :: l) = encode_group u [a; b; c] ++ body u l.
Proof. done. Qed.

(** Induction by groups of four chars. *)
Lemma quads_ind (P : bytes -> Prop) : P [] -> (forall a, P [a]) -> (forall a b, P [a; b]) -> (forall a b c, P [a; b; c]) ->
  (forall a b c d l, P l -> P (a :: b :: c :: d :: l)) -> forall l, P l.
Proof. intros H0 H1 H2 H3 H4. fix IH 1. intros [|a [|b [|c [|d l]]]]; [done|done|done|done|apply H4, IH]. Qed.

Lemma body_short u r : (length (body u r) < 4)%nat -> (length r <= 2)%nat.
Proof. destruct r as [|a [|b [|c r]]]; cbn; try lia. Qed.

Lemma body_nil u r : body u r = [] <-> r = [].
Proof. destruct r as [|a [|b [|c r]]]; done. Qed.

Lemma triple_inj u x y z x' y' z' : encode_group u [x; y; z] = encode_group u [x'; y'; z'] -> [x; y; z] = [x'; y'; z'].
Proof.
  intros E. assert (2 <= length (encode_group u [x; y; z]) <= 4)%nat as L by (change (length (encode_group u [x; y; z])) with 4%nat; lia).
  pose proof (group_encoded u (encode_group u [x; y; z]) [x; y; z] L eq_refl eq_refl) as H1.
  pose proof (group_encoded u (encode_group u [x; y; z]) [x'; y'; z'] L eq_refl E) as H2. rewrite H1 in H2. by injection H2 as -> -> ->.
Qed.

Lemma decode_body u s r : (length s mod 4 <> 1)%nat -> do_base64_decode_impl (get_character_table u) s = Ok r <-> s = body u r.
Proof.
  revert r. induction s as [|a|a b|a b c|a b c d s IH] using quads_ind; intros r Hl.
  - cbn. split; [intros [= <-]; done|]. intros E. symmetry in E. apply body_nil in E as ->. done.
  - by destruct Hl.
  - change (do_base64_decode_impl ?t [a; b]) with (decode_group t [a; b]). rewrite group_decode by (cbn; lia). split.
    + intros [Hr ->]. destruct r as [|x [|? ?]]; try discriminate. done.
    + intros E. pose proof (f_equal length E) as El. cbn [length] in El. pose proof (body_short u r ltac:(lia)) as Hs.
      destruct r as [|x [|y [|? ?]]]; cbn in El, Hs; try lia. by split.
  - change (do_base64_decode_impl ?t [a; b; c]) with (decode_group t [a; b; c]). rewrite group_decode by (cbn; lia). split.
    + intros [Hr ->]. destruct r as [|x [|y [|? ?]]]; try discriminate. done.
    + intros E. pose proof (f_equal length E) as El. cbn [length] in El. pose proof (body_short u r ltac:(lia)) as Hs.
      destruct r as [|x [|y [|? ?]]]; cbn in El, Hs; try lia. by split.
  - assert (length s mod 4 <> 1)%nat as Hl'.
    { cbn [length] in Hl. replace (S (S (S (S (length s))))) with (length s + 1 * 4)%nat in Hl by lia. by rewrite Nat.Div0.mod_add in Hl. }
    cbn [do_base64_decode_impl]. destruct (decode_group _ [a; b; c; d]) as [g|e] eqn:Eg.
    + apply group_decode in Eg as [Hg Eg]; [|cbn; lia]. destruct g as [|x [|y [|z [|? ?]]]]; try discriminate. split.
      * destruct (do_base64_decode_impl _ s) as [k|e] eqn:Ek; [|discriminate]. intros [= <-]. assert (s = body u k) as -> by (by apply IH).
        cbn [app]. rewrite body_triple, <- Eg. done.
      * intros E. destruct r as [|x' [|y' [|z' r]]]; try discriminate.
        rewrite body_triple in E. change (a :: b :: c :: d :: s) with ([a; b; c; d] ++ s) in E.
        apply app_inj_1 in E as [E1 E2]; [|done]. apply IH in E2; [|done]. rewrite E2. cbn [app].
        rewrite Eg in E1. by apply triple_inj in E1 as [= -> -> ->].
    + split; [discriminate|]. intros E. destruct r as [|x' [|y' [|z' r]]]; try discriminate.
      rewrite body_triple in E. change (a :: b :: c :: d :: s) with ([a; b; c; d] ++ s) in E.
      apply app_inj_1 in E as [E1 E2]; [|done]. rewrite (group_encoded u [a; b; c; d] [x'; y'; z']) in Eg; [discriminate|cbn; lia|done|done].
Qed.

(** *** Padding *)

Lemma count_padding_spec l : exists k l', count_padding l = (Z.of_nat k, l') /\ l = replicate k "="%char ++ l' /\ head l' <> Some "="%char.
Proof.
  induction l as [|c l (k & l' & E & -> & Hh)]; [by exists 0%nat, []|]. cbn [count_padding]. destruct (decide (c = "="%char)) as [->|Hc].
  - rewrite E. exists (S k), l'. split; [f_equal; lia|done].
  - eexists 0%nat, _. split; [done|]. split; [done|]. by intros [= ->].
Qed.

Lemma count_padding_app k l : head l <> Some "="%char -> count_padding (replicate k "="%char ++ l) = (Z.of_nat k, l).
Proof.
  intros Hl. induction k as [|k IH].
  - destruct l as [|c l]; [done|]. cbn [replicate app count_padding]. rewrite decide_False; [done|]. by intros ->.
  - cbn [replicate app count_padding]. rewrite decide_True, IH by done. f_equal. lia.
Qed.

Lemma body_chars u l : Forall (fun c => c <> "="%char) (body u l).
Proof.
  assert (forall s k, 0 <= s < 16777216 -> Forall (fun c => c <> "="%char) (take k (digits_of u s))) as H.
  { intros s k Hs. apply Forall_take. destruct (digits_sum s Hs) as (_ & ? & ? & ? & ?). unfold digits_of. cbn [fmap list_fmap].
    repeat constructor; by apply character_not_pad. }
  induction l as [|a|a b|a b c l IH] using triples_ind; [constructor|apply H, sum_bounds..|]. rewrite body_triple. apply Forall_app.
  split; [|done]. apply (H _ 4%nat), sum_bounds.
Qed.

Lemma body_length u l : exists k, (length l = 3 * k /\ length (body u l) = 4 * k \/ length l = 3 * k + 1 /\ length (body u l) = 4 * k + 2
  \/ length l = 3 * k + 2 /\ length (body u l) = 4 * k + 3)%nat.
Proof.
  induction l as [|a|a b|a b c l [k IH]] using triples_ind; [exists 0%nat; by left|exists 0%nat; by right; left|exists 0%nat; by right; right|].
  exists (S k). rewrite body_triple, length_app. change (length (encode_group u [a; b; c])) with 4%nat. cbn [length]. lia.
Qed.

Lemma strip_body u l k : count_padding (reverse (body u l ++ replicate k "="%char)) = (Z.of_nat k, reverse (body u l)).
Proof.
  rewrite reverse_app, reverse_replicate, count_padding_app; [done|]. intros Hh.
  assert ("="%char ∈ body u l) as Hin. { apply elem_of_reverse. destruct (reverse (body u l)); [done|]. injection Hh as ->. by left. }
  pose proof (body_chars u l) as Hb. rewrite Forall_forall in Hb. by destruct (Hb _ Hin).
Qed.

(** What the checks on the length leave. *)
Definition good_padding (u : bool) (n k : nat) : Prop :=
  (k <= 2)%nat /\ (if u then k = 0%nat \/ ((n + k) mod 4 = 0)%nat else ((n + k) mod 4 = 0)%nat) /\ (u = true -> (n mod 4 <> 1)%nat).

Lemma of_nat_mod n m : (Z.of_nat n) mod (Z.of_nat m) = Z.of_nat (n mod m)%nat.
Proof. by rewrite Nat2Z.inj_mod. Qed.

Lemma drop_padding_spec u s t : base64_drop_padding u s = Ok t <->
  exists k, s = t ++ replicate k "="%char /\ last t <> Some "="%char /\ good_padding u (length t) k.
Proof.
  unfold base64_drop_padding, good_padding, len. split.
  - destruct (count_padding_spec (reverse s)) as (k & l & -> & E & Hh).
    assert (s = reverse l ++ replicate k "="%char) as ->.
    { rewrite <- (reverse_involutive s), E, reverse_app, reverse_replicate. done. }
    change 4 with (Z.of_nat 4). rewrite <- Nat2Z.inj_add, !of_nat_mod.
    destruct u; cbn [negb orb andb]; (destruct (3 <=? Z.of_nat k) eqn:E3; [discriminate|]);
      (destruct (_ && _) eqn:E1 || destruct (negb _) eqn:E1; [discriminate|]); try (destruct (_ =? 1) eqn:E2; [discriminate|]);
      intros [= <-]; exists k; (split; [done|]); (split; [rewrite last_reverse; done|]); repeat split; try lia.
  - intros (k & -> & Ht & Hk & Hp & Hu). rewrite reverse_app, reverse_replicate, count_padding_app by by rewrite <- last_reverse, reverse_involutive.
    rewrite reverse_involutive. change 4 with (Z.of_nat 4). rewrite <- Nat2Z.inj_add, !of_nat_mod.
    assert (3 <=? Z.of_nat k = false) as -> by lia. destruct u; cbn [negb orb andb].
    + assert ((0 <? Z.of_nat k) && negb (Z.of_nat ((length t + k) mod 4) =? 0) = false) as -> by lia.
      assert ((Z.of_nat (length t mod 4) =? 1) = false) as ->; [|done]. apply Z.eqb_neq. specialize (Hu eq_refl). lia.
    + by rewrite Hp.
Qed.

(** The text of some bytes, with the padding that may follow it. *)
Lemma decoded_spec u s r : base64_decode_impl u s = Ok r <-> exists k, s = body u r ++ replicate k "="%char /\ good_padding u (length (body u r)) k.
Proof.
  unfold base64_decode_impl. split.
  - destruct (base64_drop_padding u s) as [t|] eqn:E; [|discriminate]. apply drop_padding_spec in E as (k & -> & Ht & Hk).
    rewrite decode_body. { intros ->. by exists k. }
    destruct Hk as (Hk & Hp & Hu). destruct u; [by apply Hu|]. intros E.
    rewrite <- Nat.Div0.add_mod_idemp_l, E in Hp. destruct k as [|[|[|k]]]; cbn in Hp; lia.
  - intros (k & -> & Hk). assert (base64_drop_padding u (body u r ++ replicate k "="%char) = Ok (body u r)) as ->.
    { apply drop_padding_spec. exists k. split; [done|]. split; [|done]. intros Hl. pose proof (body_chars u r) as Hb.
      rewrite Forall_forall in Hb. apply (Hb "="%char); [|done]. by apply last_Some_elem_of. }
    apply decode_body; [|done]. destruct (body_length u r) as [j Hj]. intros Hm. pose proof (Nat.div_mod_eq (length (body u r)) 4). lia.
Qed.

Lemma padding_unique r k : good_padding false (length (body false r)) k <-> replicate k "="%char = padding false r.
Proof.
  unfold good_padding, padding. destruct (body_length false r) as [j Hj]. pose proof (Nat.div_mod_eq (length r) 3).
  pose proof (Nat.mod_upper_bound (length r) 3 ltac:(lia)). pose proof (Nat.div_mod_eq (length (body false r) + k) 4).
  pose proof (Nat.mod_upper_bound (length (body false r) + k) 4 ltac:(lia)).
  assert ((3 - length r mod 3) mod 3 = if decide (length r mod 3 = 0) then 0 else 3 - length r mod 3)%nat as ->.
  { destruct (decide _) as [E|E]; [by rewrite E|]. apply Nat.mod_small. lia. }
  split.
  - intros (Hk & Hp & _). f_equal. destruct (decide _); lia.
  - intros E. apply (f_equal length) in E. rewrite !length_replicate in E. destruct (decide _); split; [lia|split; [lia|done]|lia|split; [lia|done]].
Qed.

(** *** The check *)

Definition valid (u : bool) (t : bytes) : bool :=
  is_base64_characters_impl u t
  && negb ((len t mod 4 =? 2) && negb (Z.land (last_value u t) 15 =? 0))
  && negb ((len t mod 4 =? 3) && negb (Z.land (last_value u t) 3 =? 0)).

Lemma valid_quad u a b c d s : valid u (a :: b :: c :: d :: s) = is_base64_characters_impl u [a; b; c; d] && valid u s.
Proof.
  unfold valid, is_base64_characters_impl. change (a :: b :: c :: d :: s) with ([a; b; c; d] ++ s) at 1. rewrite forallb_app.
  assert (len (a :: b :: c :: d :: s) mod 4 = len s mod 4) as ->.
  { rewrite !len_cons. replace (len s + 1 + 1 + 1 + 1) with (len s + 1 * 4) by lia. apply Z_mod_plus_full. }
  destruct s as [|x s]; [by rewrite !andb_true_r|].
  assert (last_value u (a :: b :: c :: d :: x :: s) = last_value u (x :: s)) as -> by done. by rewrite !andb_assoc.
Qed.

Lemma decode_valid u t : (length t mod 4 <> 1)%nat -> is_ok (do_base64_decode_impl (get_character_table u) t) = valid u t.
Proof.
  assert (forall x n m, 0 <= x -> 0 <= n -> 0 < m -> (Z.land (x * 2 ^ n) (2 ^ (n + m) - 1) =? 0) = (Z.land x (2 ^ m - 1) =? 0)) as Hland.
  { intros x n m Hx Hn Hm. assert (forall k, 0 <= k -> 2 ^ k - 1 = Z.ones k) as Ho by (intros; rewrite Z.ones_equiv; lia).
    rewrite !Ho, !Z.land_ones, Z.pow_add_r, (Z.mul_comm x), Z.mul_mod_distr_l by (try lia; apply Z.pow_nonzero; lia).
    assert (0 < 2 ^ n) by (apply Z.pow_pos_nonneg; lia). destruct (Z.eqb_spec (x mod 2 ^ m) 0) as [->|]; [by rewrite Z.mul_0_r|].
    apply Z.eqb_neq. nia. }
  induction t as [|a|a b|a b c|a b c d t IH] using quads_ind; intros Hl.
  - done.
  - by destruct Hl.
  - change (do_base64_decode_impl ?t [a; b]) with (decode_group t [a; b]). unfold decode_group. rewrite pack_spec by (cbn; lia).
    unfold valid. fold (is_base64_characters_impl u [a; b]). destruct (is_base64_characters_impl u [a; b]) eqn:E; [|done].
    change (len [a; b]) with 2. change (2 mod 4) with 2. cbn [Z.eqb Pos.eqb andb negb].
    unfold value, last_value. cbn [lookup list_lookup List.last]. rewrite Z.mul_0_l, !Z.add_0_r.
    pose proof (table_bounds u a). pose proof (table_bounds u b). set (x := get_character_table u a) in *. set (y := get_character_table u b) in *.
    replace (x * 262144 + y * 4096) with ((x * 64 + y) * 2 ^ 12) by (change (2 ^ 12) with 4096; lia).
    change (2 ^ 16 - 1) with (2 ^ (12 + 4) - 1). rewrite (Hland (x * 64 + y) 12 4) by lia. change (2 ^ 4 - 1) with (Z.ones 4). change 15 with (Z.ones 4). rewrite !Z.land_ones by lia.
    change (2 ^ 4) with 16. replace (x * 64 + y) with (y + (x * 4) * 16) by lia. rewrite Z_mod_plus_full. by destruct (y mod 16 =? 0).
  - change (do_base64_decode_impl ?t [a; b; c]) with (decode_group t [a; b; c]). unfold decode_group. rewrite pack_spec by (cbn; lia).
    unfold valid. fold (is_base64_characters_impl u [a; b; c]). destruct (is_base64_characters_impl u [a; b; c]) eqn:E; [|done].
    change (len [a; b; c]) with 3. change (3 mod 4) with 3. cbn [Z.eqb Pos.eqb andb negb].
    unfold value, last_value. cbn [lookup list_lookup List.last]. rewrite !Z.add_0_r.
    pose proof (table_bounds u a). pose proof (table_bounds u b). pose proof (table_bounds u c).
    set (x := get_character_table u a) in *. set (y := get_character_table u b) in *. set (z := get_character_table u c) in *.
    replace (x * 262144 + y * 4096 + z * 64) with ((x * 4096 + y * 64 + z) * 2 ^ 6) by (change (2 ^ 6) with 64; lia).
    change (2 ^ 8 - 1) with (2 ^ (6 + 2) - 1). rewrite (Hland (x * 4096 + y * 64 + z) 6 2) by lia. change (2 ^ 2 - 1) with (Z.ones 2). change 3 with (Z.ones 2). rewrite !Z.land_ones by lia.
    change (2 ^ 2) with 4. replace (x * 4096 + y * 64 + z) with (z + (x * 1024 + y * 16) * 4) by lia. rewrite Z_mod_plus_full. by destruct (z mod 4 =? 0).
  - assert (length t mod 4 <> 1)%nat as Hl'.
    { cbn [length] in Hl. replace (S (S (S (S (length t))))) with (length t + 1 * 4)%nat in Hl by lia. by rewrite Nat.Div0.mod_add in Hl. }
    rewrite valid_quad, <- (IH Hl'). cbn [do_base64_decode_impl]. unfold decode_group. rewrite pack_spec by (cbn; lia).
    fold (is_base64_characters_impl u [a; b; c; d]). destruct (is_base64_characters_impl u [a; b; c; d]) eqn:E; [|done].
    cbn [is_ok andb]. by destruct (do_base64_decode_impl _ t).
Qed.

Lemma is_base64_spec u s : is_base64_impl u s = is_ok (base64_decode_impl u s).
Proof.
  unfold is_base64_impl, base64_decode_impl. destruct (base64_drop_padding u s) as [t|e] eqn:E.
  - pose proof E as E'. apply drop_padding_spec in E' as (k & -> & Ht & Hk & Hp & Hu).
    rewrite decode_valid.
    + unfold base64_drop_padding in E. destruct (count_padding _) as [n l]. case_bool; [discriminate|]. case_bool; [discriminate|].
      case_bool; [discriminate|]. injection E as <-. unfold valid.
      by destruct (is_base64_characters_impl u _), (_ && negb (Z.land _ 15 =? 0)), (_ && negb (Z.land _ 3 =? 0)).
    + destruct u; [by apply Hu|]. intros Hm. pose proof (Nat.div_mod_eq (length t) 4). pose proof (Nat.div_mod_eq (length t + k) 4). lia.
  - unfold base64_drop_padding in E. destruct (count_padding _) as [n l]. by repeat case_bool; try discriminate.
Qed.

(** ** Properties *)

(** Base64 is exact.  [base64_decode] accepts exactly the texts that
    [base64_encode] makes, and gives back the bytes they were made of;
    [base64url_decode] accepts the unpadded texts of [base64url_encode], and those
    padded to a multiple of four chars; [is_base64] accepts exactly what can be decoded. *)
Theorem base64_exact (s r : bytes) :
  (base64_decode s = Ok r <-> s = base64_encode r)
  /\ (base64url_decode s = Ok r <-> exists k, (k <= 2)%nat /\ s = base64url_encode r ++ replicate k "="%char
       /\ (k = 0%nat \/ (length s mod 4 = 0)%nat))
  /\ (forall u, is_base64_impl u s = true <-> exists r', base64_decode_impl u s = Ok r').
Proof.
  unfold base64_decode, base64_encode, base64url_decode, base64url_encode. rewrite !decoded_spec, !encode_body. split; [|split].
  - split.
    + intros (k & -> & Hk%padding_unique). by rewrite Hk.
    + intros ->. exists (length (padding false r)). split; [f_equal; unfold padding; by rewrite length_replicate|].
      apply padding_unique. unfold padding. by rewrite length_replicate.
  - cbn [padding]. rewrite app_nil_r. split.
    + intros (k & -> & Hk & Hp & _). exists k. rewrite length_app, length_replicate. done.
    + intros (k & Hk & -> & Hp). exists k. rewrite length_app, length_replicate in Hp. split; [done|]. split; [done|]. split; [done|].
      intros _ Hm. destruct (body_length true r) as [j Hj]. pose proof (Nat.div_mod_eq (length (body true r)) 4). lia.
  - intros u. rewrite is_base64_spec. destruct (base64_decode_impl u s) as [r'|e]; cbn; split; try done; [by exists r'|by intros [? ?]].
Qed.
