(* ===== verification/Containers.v ===== *)
(** * Containers of tdutils: [Container.h], [VectorQueue.h] and [FloodControlFast.h]

    Module [Container]: objects in slots that are reached through identifiers
    with a generation.  Module [VectorQueue]: queues in a vector.  Module
    [Flood]: the leaking buckets that limit events. *)

From S2P Require Import Prelude.

(** ** [td::Container] *)

Module Container.
Section Container.
Context {DataT : Type} (default_data : DataT).

Definition GENERATION_STEP : Z := 256.
Definition TYPE_MASK : Z := 255.

(** [generation] is a [uint32]; slot numbers are [int32]. *)
Record slot := mk_slot { generation : Z; data : DataT }.
Record container := mk_container { slots : list slot; empty_slots : list nat }.

Definition empty_container : container := mk_container [] [].

Definition encode_id (c : container) (pos : nat) : option Z :=
  s ← slots c !! pos; Some (Z.lor (Z.shiftl (Z.of_nat pos) 32) (generation s)).

(** [None] is the result -1. *)
Definition decode_id (c : container) (id : Z) : option nat :=
  let slot_id := Z.shiftr id 32 in
  let gen := Z.land id 0xffffffff in
  if (int32_max <? slot_id) || (len (slots c) <=? slot_id) then None
  else
    s ← slots c !! Z.to_nat slot_id;
    if gen =? generation s then Some (Z.to_nat slot_id) else None.

Definition get (c : container) (id : Z) : option DataT :=
  pos ← decode_id c id; s ← slots c !! pos; Some (data s).

(** Writing through the pointer that [get] returns. *)
Definition modify (c : container) (id : Z) (f : DataT -> DataT) : option container :=
  pos ← decode_id c id; Some (mk_container (alter (fun s => mk_slot (generation s) (f (data s))) pos (slots c)) (empty_slots c)).

Definition inc_generation (c : container) (pos : nat) : container :=
  mk_container (alter (fun s => mk_slot (wrap 32 (generation s + GENERATION_STEP)) (data s)) pos (slots c)) (empty_slots c).

(** [generation & ~TYPE_MASK] *)
Definition age (gen : Z) : Z := gen - Z.land gen TYPE_MASK.

Definition release (c : container) (pos : nat) : container :=
  let c := inc_generation c pos in
  let slots' := alter (fun s => mk_slot (generation s) default_data) pos (slots c) in
  match slots' !! pos with
  | Some s => mk_container slots' (if age (generation s) =? 0 then empty_slots c else empty_slots c ++ [pos])
  | None => c
  end.

Definition erase (c : container) (id : Z) : container :=
  match decode_id c id with None => c | Some pos => release c pos end.

(** [extract] and [reset_id]; [None] is a failed [CHECK]. *)
Definition extract (c : container) (id : Z) : option (DataT * container) :=
  pos ← decode_id c id; s ← slots c !! pos; Some (data s, release c pos).

Definition reset_id (c : container) (id : Z) : option (Z * container) :=
  pos ← decode_id c id; let c := inc_generation c pos in id ← encode_id c pos; Some (id, c).

(** [generation ^= (generation & TYPE_MASK) ^ type] *)
Definition with_type (gen type : Z) : Z := Z.lxor gen (Z.lxor (Z.land gen TYPE_MASK) type).

(** [None] is a failed [CHECK] on the number of slots. *)
Definition store (c : container) (d : DataT) (type : Z) : option (nat * container) :=
  match last (empty_slots c) with
  | Some pos =>
    Some (pos, mk_container (alter (fun s => mk_slot (with_type (generation s) type) d) pos (slots c))
                            (take (length (empty_slots c) - 1) (empty_slots c)))
  | None =>
    if len (slots c) <=? int32_max then
      Some (length (slots c), mk_container (slots c ++ [mk_slot (GENERATION_STEP + type) d]) [])
    else None
  end.

Definition create (c : container) (d : DataT) (type : Z) : option (Z * container) :=
  '(pos, c) ← store c d type; id ← encode_id c pos; Some (id, c).

Definition type_from_id (id : Z) : Z := id mod 256.

Definition ids (c : container) : list Z :=
  omap (fun pos => if bool_decide (pos ∈ empty_slots c) then None else encode_id c pos) (seq 0 (length (slots c))).

Definition size (c : container) : Z := len (slots c) - len (empty_slots c).

Definition empty (c : container) : bool := size c =? 0.

End Container.

Arguments slot : clear implicits.
Arguments container : clear implicits.
End Container.

(** ** [td::VectorQueue] *)

Module VectorQueue.
Section VectorQueue.
Context {T : Type}.

Record vector_queue := mk_vector_queue { vector_ : list T; read_pos_ : nat }.

Definition empty_vector_queue : vector_queue := mk_vector_queue [] 0.

Definition push (q : vector_queue) (s : T) : vector_queue := mk_vector_queue (vector_ q ++ [s]) (read_pos_ q).

(** [None]: an iterator past the end of the vector. *)
Definition try_shrink (q : vector_queue) : option vector_queue :=
  if (length (vector_ q) <? read_pos_ q * 2)%nat && (4 <? read_pos_ q)%nat then
    if (read_pos_ q <=? length (vector_ q))%nat then Some (mk_vector_queue (drop (read_pos_ q) (vector_ q)) 0) else None
  else Some q.

(** [None]: an element past the end of the vector. *)
Definition pop (q : vector_queue) : option (T * vector_queue) :=
  q ← try_shrink q;
  x ← vector_ q !! read_pos_ q;
  Some (x, mk_vector_queue (vector_ q) (read_pos_ q + 1)).

(** [size_t]: it wraps when the position is past the end. *)
Definition size (q : vector_queue) : Z := wrap 64 (Z.of_nat (length (vector_ q)) - Z.of_nat (read_pos_ q)).

Definition empty (q : vector_queue) : bool := size q =? 0.

(** [rnd] is the number that the generator returns; the remainder of a division
    by zero is undefined. *)
Definition pop_rand (q : vector_queue) (rnd : Z) : option (T * vector_queue) :=
  if size q =? 0 then None
  else
    let i := Z.to_nat (rnd mod size q) in
    x ← vector_ q !! i; y ← vector_ q !! read_pos_ q;
    pop (mk_vector_queue (<[read_pos_ q := x]> (<[i := y]> (vector_ q))) (read_pos_ q)).

Definition pop_n (q : vector_queue) (n : nat) : option vector_queue :=
  try_shrink (mk_vector_queue (vector_ q) (read_pos_ q + n)).

Definition front (q : vector_queue) : option T := vector_ q !! read_pos_ q.
Definition back (q : vector_queue) : option T := last (vector_ q).

(** [as_span], [as_mutable_span]: the elements from [data()] on. *)
Definition as_span (q : vector_queue) : list T := drop (read_pos_ q) (vector_ q).

End VectorQueue.
Arguments vector_queue : clear implicits.
End VectorQueue.

(** ** [td::FloodControlFast] *)

Module Flood.

Record bucket := mk_bucket { max_capacity : Q; speed : Q; volume : Q; volume_at : time; wakeup_at : time }.

Definition new_bucket (duration count : Q) : bucket := mk_bucket (count - 1) (count / duration) (count - 1) 0 0.

(** [None] is a failed [CHECK]. *)
Definition update_volume (b : bucket) (now : time) : option bucket :=
  if qleb (volume_at b) now then
    Some (mk_bucket (max_capacity b) (speed b) (qmin (volume b + (now - volume_at b) * speed b) (max_capacity b)) now (wakeup_at b))
  else None.

Definition bucket_add_event (b : bucket) (now : time) (size : Q) : option bucket :=
  if qleb (wakeup_at b) now then
    b ← update_volume b now;
    if qleb size (volume b) then Some (mk_bucket (max_capacity b) (speed b) (volume b - size) (volume_at b) (wakeup_at b))
    else
      let wakeup_at := (volume_at b + (size - volume b) / speed b)%Q in
      Some (mk_bucket (max_capacity b) (speed b) 0 wakeup_at wakeup_at)
  else None.

Definition bucket_clear (b : bucket) : bucket := mk_bucket (max_capacity b) (speed b) (max_capacity b) 0 0.

Record flood_control := mk_flood { wakeup : time; buckets : list bucket }.

Definition new_flood : flood_control := mk_flood 0 [].

Definition get_wakeup_at (f : flood_control) : time := wakeup f.

Definition add_limit (f : flood_control) (duration count : Q) : flood_control :=
  mk_flood (wakeup f) (buckets f ++ [new_bucket duration count]).

Fixpoint add_events (l : list bucket) (now w : time) : option (list bucket * time) :=
  match l with
  | [] => Some ([], w)
  | b :: l =>
    b ← bucket_add_event b now 1;
    '(l, w) ← add_events l now (qmax w (wakeup_at b));
    Some (b :: l, w)
  end.

Definition add_event (f : flood_control) (now : time) : option flood_control :=
  '(l, w) ← add_events (buckets f) now (wakeup f); Some (mk_flood w l).

Definition clear_events (f : flood_control) : flood_control := mk_flood 0 (bucket_clear <$> buckets f).

End Flood.

(** ** Facts *)

Module ContainerFacts.
Import Container.

Definition enc (pos : nat) (gen : Z) : Z := Z.of_nat pos * 2 ^ 32 + gen.

(** The part of a generation that does not depend on the type. *)
Definition hi (gen : Z) : Z := gen / 256.

Lemma enc_inj p g p' g' : 0 <= g < 2 ^ 32 -> 0 <= g' < 2 ^ 32 -> enc p g = enc p' g' -> p = p' /\ g = g'.
Proof. unfold enc. change (2 ^ 32) with 4294967296. intros. split; lia. Qed.

Lemma age_hi gen : 0 <= gen -> (age gen =? 0) = (hi gen =? 0).
Proof.
  intros H. unfold age, hi, TYPE_MASK. change 255 with (Z.ones 8). rewrite Z.land_ones by lia. change (2 ^ 8) with 256.
  pose proof (Z.div_mod gen 256 ltac:(lia)). destruct (gen / 256 =? 0) eqn:E; lia.
Qed.

Lemma with_type_spec gen type : 0 <= gen < 2 ^ 32 -> 0 <= type < 256 -> with_type gen type = 256 * hi gen + type.
Proof.
  intros Hg Ht. unfold with_type, TYPE_MASK, hi.
  assert (Z.lxor gen (Z.lxor (Z.land gen 255) type) = Z.lor (Z.shiftl (Z.shiftr gen 8) 8) type) as ->.
  { apply Z.bits_inj'. intros i Hi. rewrite !Z.lxor_spec, Z.land_spec, Z.lor_spec, Z.shiftl_spec by done.
    change 255 with (Z.ones 8). rewrite Z.testbit_ones by lia. destruct (decide (i < 8)).
    - rewrite (Z.testbit_neg_r _ (i - 8)), (leb_true 0 i), (ltb_true i 8) by lia. cbn [andb orb].
      rewrite andb_true_r. by destruct (Z.testbit gen i), (Z.testbit type i).
    - rewrite (ltb_false i 8), andb_false_r, andb_false_r by lia. rewrite Z.shiftr_spec by lia.
      replace (i - 8 + 8) with i by lia. rewrite (Z.bits_above_log2 type i).
      + by destruct (Z.testbit gen i).
      + lia.
      + destruct (decide (type = 0)) as [->|]; [cbn; lia|]. apply Z.lt_le_trans with 8; [|lia]. apply Z.log2_lt_pow2; lia. }
  rewrite Z.shiftl_mul_pow2, Z.shiftr_div_pow2 by lia. change (2 ^ 8) with 256.
  rewrite (lor_add 8); [lia|lia|done|]. change (2 ^ 8) with 256. apply Z.mod_mul. lia.
Qed.

Section Facts.
Context {DataT : Type} (default_data : DataT).
Implicit Types (c : container DataT) (s : slot DataT).

Definition slots_ok c : Prop :=
  len (slots c) <= int32_max + 1 /\ Forall (fun s => 0 <= generation s < 2 ^ 32) (slots c).

Lemma slots_ok_lookup c pos s : slots_ok c -> slots c !! pos = Some s ->
  0 <= generation s < 2 ^ 32 /\ 0 <= Z.of_nat pos <= int32_max.
Proof.
  intros [Hl Hf] Hs. rewrite Forall_lookup in Hf. split; [by eapply Hf|].
  apply lookup_lt_Some in Hs. unfold len in Hl. lia.
Qed.

Lemma encode_spec c pos s : slots_ok c -> slots c !! pos = Some s -> encode_id c pos = Some (enc pos (generation s)).
Proof.
  intros Hok Hs. destruct (slots_ok_lookup c pos s Hok Hs) as [Hg _]. unfold encode_id. rewrite Hs. cbn [mbind option_bind].
  rewrite Z.shiftl_mul_pow2 by lia. rewrite (lor_add 32); [done|lia|done|]. apply Z.mod_mul. lia.
Qed.

Lemma decode_spec c pos gen : slots_ok c -> 0 <= gen < 2 ^ 32 ->
  decode_id c (enc pos gen) = match slots c !! pos with Some s => if gen =? generation s then Some pos else None | None => None end.
Proof.
  intros Hok Hg. unfold decode_id, enc. rewrite Z.shiftr_div_pow2 by lia. change (2 ^ 32) with 4294967296 in *.
  assert ((Z.of_nat pos * 4294967296 + gen) / 4294967296 = Z.of_nat pos) as ->
    by (rewrite Z.div_add_l, Z.div_small by lia; lia).
  change 0xffffffff with (Z.ones 32). rewrite Z.land_ones by lia. change (2 ^ 32) with 4294967296.
  assert ((Z.of_nat pos * 4294967296 + gen) mod 4294967296 = gen) as ->
    by (rewrite Z.add_comm, Z.mod_add, Z.mod_small by lia; lia). rewrite Nat2Z.id.
  destruct (slots c !! pos) as [s|] eqn:E.
  - destruct (slots_ok_lookup c pos s Hok E) as [_ Hp]. apply lookup_lt_Some in E.
    rewrite (ltb_false int32_max), leb_false by (unfold len; lia). done.
  - apply lookup_ge_None in E. rewrite (leb_true (len _)) by (unfold len; lia). by rewrite orb_true_r.
Qed.

Lemma container_get_spec c pos gen : slots_ok c -> 0 <= gen < 2 ^ 32 ->
  get c (enc pos gen) = match slots c !! pos with Some s => if gen =? generation s then Some (data s) else None | None => None end.
Proof.
  intros Hok Hg. unfold get. rewrite decode_spec by done. destruct (slots c !! pos) as [s|] eqn:E; [|done].
  destruct (gen =? generation s); [|done]. cbn [mbind option_bind]. by rewrite E.
Qed.

(** The generation after a release. *)
Definition next_gen (gen : Z) : Z := wrap 32 (gen + 256).

Lemma next_gen_spec gen : 0 <= gen < 2 ^ 32 ->
  0 <= next_gen gen < 2 ^ 32 /\ hi (next_gen gen) = (if hi gen + 1 =? 2 ^ 24 then 0 else hi gen + 1) /\ hi gen < 2 ^ 24.
Proof.
  intros Hg. unfold next_gen, hi, wrap. change (2 ^ 32) with 4294967296 in *. change (2 ^ 24) with 16777216.
  split; [apply Z.mod_pos_bound; lia|]. pose proof (Z.div_mod gen 256 ltac:(lia)). pose proof (Z.mod_pos_bound gen 256 ltac:(lia)).
  split; [|lia]. destruct (gen / 256 + 1 =? 16777216) eqn:E.
  - apply Z.eqb_eq in E. replace (gen + 256) with (gen mod 256 + 1 * 4294967296) by lia.
    rewrite Z.mod_add, Z.mod_small, Z.div_small by lia. done.
  - apply Z.eqb_neq in E. rewrite Z.mod_small by lia. replace (gen + 256) with (gen + 1 * 256) by lia. by rewrite Z.div_add by lia.
Qed.

Lemma release_spec c pos s : slots_ok c -> slots c !! pos = Some s ->
  release default_data c pos =
    mk_container (<[pos := mk_slot (next_gen (generation s)) default_data]> (slots c))
      (if hi (next_gen (generation s)) =? 0 then empty_slots c else empty_slots c ++ [pos]).
Proof.
  intros Hok Hs. destruct (slots_ok_lookup c pos s Hok Hs) as [Hg _].
  assert (H : alter (fun s => mk_slot (generation s) default_data) pos
    (alter (fun s => mk_slot (wrap 32 (generation s + GENERATION_STEP)) (data s)) pos (slots c))
    = <[pos := mk_slot (next_gen (generation s)) default_data]> (slots c)).
  { apply list_eq. intros i. destruct (decide (i = pos)) as [->|Hi].
    - rewrite list_lookup_insert_eq by (by eapply lookup_lt_Some). rewrite !list_lookup_alter_eq, Hs. done.
    - by rewrite list_lookup_insert_ne, !list_lookup_alter_ne by done. }
  unfold release, inc_generation. cbn [slots empty_slots]. rewrite H.
  rewrite list_lookup_insert_eq by (by eapply lookup_lt_Some). cbn [generation].
  rewrite age_hi by (apply next_gen_spec; done). done.
Qed.

Lemma slots_ok_insert c pos gen d l : slots_ok c -> 0 <= gen < 2 ^ 32 ->
  slots_ok (mk_container (<[pos := mk_slot gen d]> (slots c)) l).
Proof.
  intros [Hl Hf] Hg. split; cbn [slots]; [unfold len in *; by rewrite length_insert|]. by apply Forall_insert.
Qed.

(** *** Identifiers that were given out *)

Record tracked := mk_tracked { t_id : Z; t_data : DataT; t_alive : bool }.

Inductive op := Create (d : DataT) (type : Z) | Erase (n : nat).

Definition kill (t : tracked) : tracked := mk_tracked (t_id t) (t_data t) false.

(** [Erase n] erases the [n]-th identifier given out. *)
Definition step (st : container DataT * list tracked) (o : op) : option (container DataT * list tracked) :=
  let '(c, tr) := st in
  match o with
  | Create d type =>
    if (0 <=? type) && (type <? 256) then '(id, c) ← create c d type; Some (c, tr ++ [mk_tracked id d true]) else None
  | Erase n => t ← tr !! n; Some (erase default_data c (t_id t), alter kill n tr)
  end.

Fixpoint run (st : container DataT * list tracked) (l : list op) : option (container DataT * list tracked) :=
  match l with [] => Some st | o :: l => st ← step st o; run st l end.

(** Where an identifier given out stands. *)
Definition stands (c : container DataT) (t : tracked) : Prop :=
  exists pos s gen, t_id t = enc pos gen /\ slots c !! pos = Some s /\ 0 <= gen < 2 ^ 32 /\ 1 <= hi gen
  /\ if t_alive t then gen = generation s /\ data s = t_data t /\ pos ∉ empty_slots c
     else hi gen < hi (generation s) \/ (hi (generation s) = 0 /\ pos ∉ empty_slots c).

Record tracks (c : container DataT) (tr : list tracked) (n : Z) : Prop := {
  tracks_slots : slots_ok c;
  tracks_empty : NoDup (empty_slots c);
  tracks_empty_slot pos : pos ∈ empty_slots c -> exists s, slots c !! pos = Some s /\ 1 <= hi (generation s);
  tracks_stand t : t ∈ tr -> stands c t;
  tracks_nodup : NoDup (t_id <$> tr);
  tracks_full pos s : slots c !! pos = Some s -> pos ∉ empty_slots c -> hi (generation s) <> 0 ->
    exists t, t ∈ tr /\ t_alive t = true /\ t_id t = enc pos (generation s);
  tracks_age pos s : slots c !! pos = Some s ->
    hi (generation s) <= n + 1 /\ (n + 1 < 2 ^ 24 -> 1 <= hi (generation s)) }.

Lemma tracks_start : tracks empty_container [] 0.
Proof.
  split; [split; [done|by apply Forall_nil]|by apply NoDup_nil|by intros ? ?%not_elem_of_nil|by intros ? ?%not_elem_of_nil|by apply NoDup_nil| |];
    intros pos s H; cbn in H; by rewrite lookup_nil in H.
Qed.

Lemma hi_typed h type : 0 <= type < 256 -> hi (256 * h + type) = h.
Proof. intros H. unfold hi. rewrite Z.mul_comm, Z.div_add_l, Z.div_small by lia. lia. Qed.

Lemma hi_pos_lt gen : 0 <= gen < 2 ^ 32 -> hi gen < 2 ^ 24.
Proof. intros H. by apply next_gen_spec. Qed.

Lemma typed_bounds h type : 0 <= h < 2 ^ 24 -> 0 <= type < 256 -> 0 <= 256 * h + type < 2 ^ 32.
Proof. change (2 ^ 32) with 4294967296. change (2 ^ 24) with 16777216. lia. Qed.

(** [create] in a slot that is empty, and in a new one. *)
Lemma create_reuse c d type pos l s : slots_ok c -> empty_slots c = l ++ [pos] -> slots c !! pos = Some s -> 0 <= type < 256 ->
  create c d type = Some (enc pos (256 * hi (generation s) + type),
    mk_container (<[pos := mk_slot (256 * hi (generation s) + type) d]> (slots c)) l).
Proof.
  intros Hok He Hs Ht. destruct (slots_ok_lookup c pos s Hok Hs) as [Hg _].
  assert (Hb : 0 <= 256 * hi (generation s) + type < 2 ^ 32).
  { apply typed_bounds; [|done]. split; [apply Z.div_pos; lia|by apply hi_pos_lt]. }
  unfold create, store. rewrite He, last_snoc, length_app. cbn [length mbind option_bind].
  replace (length l + 1 - 1)%nat with (length l) by lia. rewrite take_app_length.
  assert (alter (fun s => mk_slot (with_type (generation s) type) d) pos (slots c)
    = <[pos := mk_slot (256 * hi (generation s) + type) d]> (slots c)) as ->.
  { apply list_eq. intros i. destruct (decide (i = pos)) as [->|Hi].
    - rewrite list_lookup_insert_eq by (by eapply lookup_lt_Some). rewrite list_lookup_alter_eq, Hs. cbn. by rewrite with_type_spec.
    - by rewrite list_lookup_insert_ne, list_lookup_alter_ne by done. }
  rewrite (encode_spec _ pos (mk_slot (256 * hi (generation s) + type) d)); [done|by apply slots_ok_insert|].
  cbn [slots]. apply list_lookup_insert_eq. by eapply lookup_lt_Some.
Qed.

Lemma create_grow c d type : slots_ok c -> empty_slots c = [] -> 0 <= type < 256 ->
  create c d type = if len (slots c) <=? int32_max
    then Some (enc (length (slots c)) (256 + type), mk_container (slots c ++ [mk_slot (256 + type) d]) []) else None.
Proof.
  intros Hok He Ht. unfold create, store. rewrite He. cbn [last]. destruct (len (slots c) <=? int32_max) eqn:E; [|done].
  cbn [mbind option_bind]. unfold GENERATION_STEP. rewrite (encode_spec _ _ (mk_slot (256 + type) d)); [done| |].
  - destruct Hok as [_ Hf]. apply Z.leb_le in E. split; cbn [slots]; [rewrite len_app, len_cons; cbn; unfold len in *; cbn; lia|].
    apply Forall_app. split; [done|]. constructor; [|done]. cbn. lia.
  - cbn [slots]. by apply list_lookup_middle.
Qed.

(** What a new identifier does to the others: its slot [pos] held no object. *)
Lemma tracks_new c c' tr n pos s d : tracks c tr n -> 0 <= n -> slots_ok c' ->
  slots c' !! pos = Some s -> data s = d -> 1 <= hi (generation s) <= n + 1 ->
  (forall q, q <> pos -> slots c' !! q = slots c !! q) ->
  (forall q, q ∈ empty_slots c' <-> q ∈ empty_slots c /\ q <> pos) -> NoDup (empty_slots c') ->
  (forall t gen, t ∈ tr -> t_id t = enc pos gen -> 0 <= gen < 2 ^ 32 -> t_alive t = false /\ hi gen < hi (generation s)) ->
  tracks c' (tr ++ [mk_tracked (enc pos (generation s)) d true]) n.
Proof.
  intros [H1 H2 H3 H4 H5 H6 H7] Hn Hok Hs Hd Hh Hq He Hnd Hpos.
  pose proof (slots_ok_lookup _ _ _ Hok Hs) as [Hg _].
  split; [done|done| | | | |].
  - intros q [Hq1 Hq2]%He. rewrite Hq by done. by apply H3.
  - intros t [Ht|Ht]%elem_of_app.
    + destruct (H4 t Ht) as (q & s' & gen & E & Hs' & Hgen & Hh' & Hst). destruct (decide (q = pos)) as [->|Hne].
      * destruct (Hpos t gen Ht E Hgen) as [Ha Hlt]. exists pos, s, gen. rewrite Ha. split; [done|]. split; [done|]. split; [done|]. split; [done|by left].
      * exists q, s', gen. rewrite Hq by done. split; [done|]. split; [done|]. split; [done|]. split; [done|]. destruct (t_alive t).
        -- destruct Hst as (-> & ? & ?). split_and!; try done. rewrite He. tauto.
        -- destruct Hst as [?|[? ?]]; [by left|right]. split; [done|]. rewrite He. tauto.
    + apply list_elem_of_singleton in Ht as ->. exists pos, s, (generation s). cbn [t_id t_alive t_data].
      split; [done|]. split; [done|]. split; [done|]. split; [lia|]. split; [done|]. split; [done|]. rewrite He. tauto.
  - rewrite fmap_app. apply NoDup_app. split_and!; [done| |apply NoDup_singleton].
    intros id (t & -> & Ht)%list_elem_of_fmap Hid. apply list_elem_of_singleton in Hid. cbn [t_id] in Hid.
    destruct (Hpos t (generation s) Ht Hid Hg). lia.
  - intros q s' Hs' Hne Hh'. destruct (decide (q = pos)) as [->|Hqp].
    + rewrite Hs in Hs'. injection Hs' as <-. eexists. split; [apply elem_of_app; right; by left|]. done.
    + rewrite Hq in Hs' by done. destruct (H6 q s' Hs') as (t & ? & ? & ?); [|done|].
      * intros ?. apply Hne. by apply He.
      * exists t. split_and!; try done. apply elem_of_app. by left.
  - intros q s' Hs'. destruct (decide (q = pos)) as [->|Hqp]; [rewrite Hs in Hs'; injection Hs' as <-; lia|].
    rewrite Hq in Hs' by done. by apply (H7 q).
Qed.

Lemma tracks_create c tr n d type id c' : tracks c tr n -> 0 <= n -> 0 <= type < 256 -> create c d type = Some (id, c') ->
  tracks c' (tr ++ [mk_tracked id d true]) n.
Proof.
  intros H Hn Ht. pose proof H as [H1 H2 H3 H4 _ _ H7].
  destruct (last (empty_slots c)) as [pos|] eqn:E.
  - apply last_Some in E as [l E]. assert (pos ∈ empty_slots c) as Hpos by (rewrite E; set_solver).
    destruct (H3 pos Hpos) as (s & Hs & Hh). rewrite (create_reuse c d type pos l s) by done. intros [= <- <-].
    pose proof (slots_ok_lookup _ _ _ H1 Hs) as [Hg _]. pose proof (hi_pos_lt _ Hg).
    set (g := 256 * hi (generation s) + type). assert (hi g = hi (generation s)) as Hhi by by apply hi_typed.
    assert (0 <= g < 2 ^ 32) as Hgb by (apply typed_bounds; lia).
    rewrite E in H2. apply NoDup_app in H2 as (Hl & Hd & _).
    apply (tracks_new c _ tr n pos (mk_slot g d)); cbn [slots empty_slots generation data]; try done.
    + by apply slots_ok_insert.
    + apply list_lookup_insert_eq. by eapply lookup_lt_Some.
    + rewrite Hhi. specialize (H7 pos s Hs). lia.
    + intros q Hq. by rewrite list_lookup_insert_ne.
    + intros q. rewrite E. split.
      * intros Hq. split; [set_solver|]. intros ->. apply (Hd pos Hq). by left.
      * intros [[?|?%list_elem_of_singleton]%elem_of_app ?]; done.
    + intros t gen Htr Eid Hgen. destruct (H4 t Htr) as (q & s' & gen' & E' & Hs' & Hgen' & _ & Hst).
      rewrite Eid in E'. apply enc_inj in E' as [<- <-]; [|done..]. rewrite Hs in Hs'. injection Hs' as <-.
      destruct (t_alive t); [by destruct Hst as (_ & _ & ?)|]. split; [done|]. rewrite Hhi. by destruct Hst as [?|[_ ?]].
  - apply last_None in E. rewrite create_grow by done. case_bool; [|done]. intros [= <- <-]. apply Z.leb_le in Heqb.
    apply (tracks_new c _ tr n (length (slots c)) (mk_slot (256 + type) d)); cbn [slots empty_slots generation data]; try done.
    + destruct H1 as [_ Hf]. split; cbn [slots]; [rewrite len_app, len_cons; cbn; unfold len in *; cbn; lia|].
      apply Forall_app. split; [done|]. constructor; [cbn; lia|done].
    + by apply list_lookup_middle.
    + replace (256 + type) with (256 * 1 + type) by lia. rewrite hi_typed by done. lia.
    + intros q Hq. destruct (decide (q < length (slots c))%nat) as [?|?]; [by rewrite lookup_app_l|].
      rewrite lookup_app_r by lia. rewrite (lookup_ge_None_2 (slots c)) by lia. apply lookup_ge_None_2. cbn. lia.
    + intros q. rewrite E. set_solver.
    + constructor.
    + intros t gen Htr Eid Hgen. destruct (H4 t Htr) as (q & s' & gen' & E' & Hs' & Hgen' & _).
      rewrite Eid in E'. apply enc_inj in E' as [<- _]; [|done..]. apply lookup_lt_Some in Hs'. lia.
Qed.

Lemma elem_of_kill (tr : list tracked) (i : nat) t u : tr !! i = Some t -> NoDup (t_id <$> tr) -> u ∈ alter kill i tr ->
  u = kill t \/ (u ∈ tr /\ t_id u <> t_id t).
Proof.
  intros Ht Hnd Hu. apply list_elem_of_lookup in Hu as [j Hj]. destruct (decide (j = i)) as [->|Hne].
  - rewrite list_lookup_alter_eq, Ht in Hj. injection Hj as <-. by left.
  - rewrite list_lookup_alter_ne in Hj by done. right. split; [by eapply list_elem_of_lookup_2|]. intros E. apply Hne.
    eapply (NoDup_lookup (t_id <$> tr)); [done|by rewrite list_lookup_fmap, Hj|by rewrite list_lookup_fmap, Ht, E].
Qed.

Lemma kill_ids (i : nat) (tr : list tracked) : t_id <$> alter kill i tr = t_id <$> tr.
Proof.
  apply list_eq. intros j. rewrite !list_lookup_fmap. destruct (decide (j = i)) as [->|Hne].
  - rewrite list_lookup_alter_eq. by destruct (tr !! i).
  - by rewrite list_lookup_alter_ne.
Qed.

(** Erasing an object that is there. *)
Lemma tracks_release c tr n i t pos s : tracks c tr n -> tr !! i = Some t -> t_alive t = true ->
  t_id t = enc pos (generation s) -> slots c !! pos = Some s -> pos ∉ empty_slots c -> 1 <= hi (generation s) ->
  tracks (release default_data c pos) (alter kill i tr) (n + 1).
Proof.
  intros [H1 H2 H3 H4 H5 H6 H7] Ht Ha Eid Hs Hne Hh1. pose proof (slots_ok_lookup _ _ _ H1 Hs) as [Hg _].
  rewrite (release_spec c pos s) by done. destruct (next_gen_spec _ Hg) as (Hg' & Hh & Hlt).
  set (g := next_gen (generation s)) in *. set (e := if hi g =? 0 then _ else _).
  assert (He : forall q, q ∈ e <-> q ∈ empty_slots c \/ (q = pos /\ hi g <> 0)).
  { intros q. unfold e. destruct (hi g =? 0) eqn:E0; [apply Z.eqb_eq in E0; naive_solver lia|].
    apply Z.eqb_neq in E0. rewrite elem_of_app, list_elem_of_singleton. tauto. }
  assert (Hpos : <[pos := mk_slot g default_data]> (slots c) !! pos = Some (mk_slot g default_data)).
  { apply list_lookup_insert_eq. by eapply lookup_lt_Some. }
  split; cbn [slots empty_slots].
  - by apply slots_ok_insert.
  - unfold e. destruct (hi g =? 0); [done|]. apply NoDup_app. split; [done|]. split; [|apply NoDup_singleton].
    intros q Hq ->%list_elem_of_singleton. done.
  - intros q [Hq|[-> Hq]]%He.
    + rewrite list_lookup_insert_ne by (intros ->; done). by apply H3.
    + exists (mk_slot g default_data). split; [done|]. cbn [generation]. destruct (hi (generation s) + 1 =? 2 ^ 24); lia.
  - intros u [->|[Hu Hid]]%(elem_of_kill tr i t); [| |done|done].
    + exists pos, (mk_slot g default_data), (generation s). cbn [kill t_id t_alive slots empty_slots generation].
      split; [done|]. split; [done|]. split; [done|]. split; [done|].
      destruct (hi (generation s) + 1 =? 2 ^ 24); [right; split; [lia|rewrite He; naive_solver]|left; lia].
    + destruct (H4 u Hu) as (q & s' & gen & E & Hs' & Hgen & Hh' & Hst). destruct (decide (q = pos)) as [->|Hqp].
      * rewrite Hs in Hs'. injection Hs' as <-. exists pos, (mk_slot g default_data), gen.
        split; [done|]. split; [done|]. split; [done|]. split; [done|]. cbn [generation empty_slots].
        destruct (t_alive u); [destruct Hst as (-> & _); congruence|].
        destruct Hst as [?|[? _]]; [|lia].
        destruct (hi (generation s) + 1 =? 2 ^ 24); [right; split; [lia|rewrite He; naive_solver]|left; lia].
      * exists q, s', gen. cbn [slots empty_slots]. rewrite list_lookup_insert_ne by done.
        split; [done|]. split; [done|]. split; [done|]. split; [done|]. destruct (t_alive u).
        -- destruct Hst as (? & ? & ?). split; [done|]. split; [done|]. rewrite He. naive_solver.
        -- destruct Hst as [?|[? ?]]; [by left|right]. split; [done|]. rewrite He. naive_solver.
  - by rewrite kill_ids.
  - intros q s' Hs' Hq Hh'. rewrite He in Hq. destruct (decide (q = pos)) as [->|Hqp].
    + rewrite Hpos in Hs'. injection Hs' as <-. exfalso. apply Hq. by right.
    + rewrite list_lookup_insert_ne in Hs' by done. destruct (H6 q s' Hs') as (u & Hu & Hua & Hue); [tauto|done|].
      exists u. split; [|done]. apply list_elem_of_lookup in Hu as [j Hj]. apply list_elem_of_lookup. exists j.
      rewrite list_lookup_alter_ne; [done|]. intros <-. rewrite Ht in Hj. injection Hj as <-.
      rewrite Eid in Hue. pose proof (slots_ok_lookup _ _ _ H1 Hs') as [? _]. by apply enc_inj in Hue as [? _].
  - intros q s' Hs'. destruct (decide (q = pos)) as [->|Hqp].
    + rewrite Hpos in Hs'. injection Hs' as <-. cbn [generation]. specialize (H7 pos s Hs).
      destruct (hi (generation s) + 1 =? 2 ^ 24) eqn:E24; [apply Z.eqb_eq in E24|]; lia.
    + rewrite list_lookup_insert_ne in Hs' by done. specialize (H7 q s' Hs'). lia.
Qed.

Lemma alter_kill_dead (i : nat) (tr : list tracked) t : tr !! i = Some t -> t_alive t = false -> alter kill i tr = tr.
Proof.
  intros Ht Ha. apply list_eq. intros j. destruct (decide (j = i)) as [->|]; [|by rewrite list_lookup_alter_ne].
  rewrite list_lookup_alter_eq, Ht. destruct t; cbn in Ha. by subst.
Qed.

Lemma tracks_erase c tr n i t : tracks c tr n -> 0 <= n -> tr !! i = Some t ->
  tracks (erase default_data c (t_id t)) (alter kill i tr) (n + 1).
Proof.
  intros H Hn Ht. pose proof H as [H1 _ _ H4 _ _ H7].
  destruct (H4 t) as (pos & s & gen & E & Hs & Hgen & Hh & Hst); [by eapply list_elem_of_lookup_2|].
  unfold erase. rewrite E, decode_spec, Hs by done. destruct (t_alive t) eqn:Ha.
  - destruct Hst as (-> & Hd & He). rewrite Z.eqb_refl. by eapply tracks_release.
  - rewrite (alter_kill_dead i tr t) by done.
    assert (gen =? generation s = false) as -> by (apply Z.eqb_neq; intros ->; lia).
    destruct H as [? ? ? ? ? ? ?]. split; try done. intros q s' Hs'. specialize (H7 q s' Hs'). lia.
Qed.

Lemma run_tracks l c tr n c' tr' : tracks c tr n -> 0 <= n -> run (c, tr) l = Some (c', tr') -> tracks c' tr' (n + len l).
Proof.
  revert c tr n. induction l as [|o l IH]; intros c tr n H Hn.
  - cbn. intros [= <- <-]. by rewrite Z.add_0_r.
  - cbn [run]. destruct (step (c, tr) o) as [[c1 tr1]|] eqn:E; [|done]. cbn [mbind option_bind]. intros Hr.
    rewrite len_cons. replace (n + (len l + 1)) with (n + 1 + len l) by lia. eapply IH; [|lia|exact Hr].
    destruct o as [d type|i]; cbn [step] in E.
    + destruct ((0 <=? type) && (type <? 256)) eqn:Et; [|done]. destruct (create c d type) as [[id c2]|] eqn:Ec; [|done].
      cbn [mbind option_bind] in E. injection E as <- <-. apply andb_true_iff in Et as [?%Z.leb_le ?%Z.ltb_lt].
      assert (tracks c2 (tr ++ [mk_tracked id d true]) n) as [? ? ? ? ? ? H7] by (eapply tracks_create; try done; lia).
      split; try done. intros q s' Hs'. specialize (H7 q s' Hs'). lia.
    + destruct (tr !! i) as [t|] eqn:Et; [|done]. cbn [mbind option_bind] in E. injection E as <- <-. by apply tracks_erase.
Qed.

(** *** The identifiers in use *)

Lemma elem_of_ids c id : slots_ok c -> id ∈ ids c <->
  exists pos s, slots c !! pos = Some s /\ pos ∉ empty_slots c /\ id = enc pos (generation s).
Proof.
  intros Hok. unfold ids. rewrite list_elem_of_omap. split.
  - intros (pos & _ & H). case_bool_decide; [done|]. destruct (slots c !! pos) as [s|] eqn:Hs.
    + rewrite (encode_spec c pos s) in H by done. injection H as <-. by exists pos, s.
    + unfold encode_id in H. by rewrite Hs in H.
  - intros (pos & s & Hs & Hne & ->). exists pos. split.
    + apply elem_of_seq. apply lookup_lt_Some in Hs. lia.
    + rewrite bool_decide_false by done. by apply encode_spec.
Qed.

Lemma NoDup_ids c : slots_ok c -> NoDup (ids c).
Proof.
  intros Hok. unfold ids. generalize 0%nat. generalize (length (slots c)) as k.
  intros k m. revert m. induction k as [|k IH]; intros m; cbn [seq omap list_omap]; [constructor|].
  destruct (if bool_decide (m ∈ empty_slots c) then None else encode_id c m) as [id|] eqn:E; [|apply IH].
  apply NoDup_cons. split; [|apply IH]. case_bool_decide; [done|]. unfold encode_id in E.
  destruct (slots c !! m) as [s|] eqn:Hs; [|done]. assert (encode_id c m = Some id) as E' by (unfold encode_id; by rewrite Hs).
  rewrite (encode_spec c m s) in E' by done. injection E' as <-.
  intros (pos & Hp%elem_of_seq & Hid)%list_elem_of_omap. case_bool_decide; [done|].
  destruct (slots c !! pos) as [s'|] eqn:Hs'; [|unfold encode_id in Hid; by rewrite Hs' in Hid].
  rewrite (encode_spec c pos s') in Hid by done. injection Hid as Hid.
  apply enc_inj in Hid as [-> _]; [lia|by eapply slots_ok_lookup..].
Qed.

Lemma length_ids c : (forall pos, pos ∈ empty_slots c -> (pos < length (slots c))%nat) -> NoDup (empty_slots c) ->
  length (ids c) = (length (slots c) - length (empty_slots c))%nat.
Proof.
  intros Hlt Hnd.
  assert (H : forall l, (forall pos, pos ∈ l -> (pos < length (slots c))%nat) ->
    length (omap (fun pos => if bool_decide (pos ∈ empty_slots c) then None else encode_id c pos) l)
    = length (base.filter (fun pos => pos ∉ empty_slots c) l)).
  { induction l as [|pos l IH]; intros Hl; [done|]. cbn [omap list_omap]. rewrite filter_cons.
    destruct (decide (pos ∈ empty_slots c)) as [Hin|Hin].
    - rewrite bool_decide_true, decide_False by (try done; tauto). apply IH. set_solver.
    - rewrite bool_decide_false, decide_True by done. unfold encode_id.
      destruct (lookup_lt_is_Some_2 (slots c) pos) as [s ->]; [apply Hl; by left|]. cbn [mbind option_bind length].
      f_equal. apply IH. set_solver. }
  unfold ids. rewrite H by (intros pos ?%elem_of_seq; lia).
  assert (Hp : seq 0 (length (slots c)) ≡ₚ empty_slots c ++ base.filter (fun pos => pos ∉ empty_slots c) (seq 0 (length (slots c)))).
  { apply NoDup_Permutation; [apply NoDup_seq| |].
    - apply NoDup_app. split; [done|]. split; [|apply NoDup_filter, NoDup_seq]. intros pos Hin [? _]%list_elem_of_filter. done.
    - intros pos. rewrite elem_of_app, list_elem_of_filter, elem_of_seq. split.
      + intros. destruct (decide (pos ∈ empty_slots c)); tauto.
      + intros [Hin|[_ ?]]; [|done]. specialize (Hlt pos Hin). lia. }
  apply Permutation_length in Hp. rewrite length_app, length_seq in Hp. lia.
Qed.

Lemma tracks_ids c tr n : tracks c tr n -> n + 1 < 2 ^ 24 ->
  ids c ≡ₚ t_id <$> base.filter (fun t => t_alive t = true) tr.
Proof.
  intros [H1 H2 H3 H4 H5 H6 H7] Hn. apply NoDup_Permutation; [by apply NoDup_ids| |].
  - clear -H5. induction tr as [|t tr IH]; [constructor|]. cbn in H5. apply NoDup_cons in H5 as [Ht H5].
    rewrite filter_cons. destruct (decide _); [|by apply IH]. cbn. apply NoDup_cons. split; [|by apply IH].
    intros (u & E & [_ Hu]%list_elem_of_filter)%list_elem_of_fmap. apply Ht. rewrite E. by apply list_elem_of_fmap_2.
  - intros id. rewrite elem_of_ids by done. rewrite list_elem_of_fmap. split.
    + intros (pos & s & Hs & Hne & ->). destruct (H7 pos s Hs) as [_ Hh].
      destruct (H6 pos s Hs Hne) as (t & Ht & Ha & Hid); [specialize (Hh Hn); lia|].
      exists t. rewrite list_elem_of_filter. done.
    + intros (t & -> & [Ha Ht]%list_elem_of_filter). destruct (H4 t Ht) as (pos & s & gen & E & Hs & _ & _ & Hst).
      rewrite Ha in Hst. destruct Hst as (-> & _ & Hne). by exists pos, s.
Qed.

(** *** Writing to an object *)

Lemma elem_of_write (tr : list tracked) (i : nat) t u v : tr !! i = Some t -> NoDup (t_id <$> tr) -> v ∈ <[i := u]> tr ->
  v = u \/ (v ∈ tr /\ t_id v <> t_id t).
Proof.
  intros Hi Hd [j Hj]%list_elem_of_lookup. destruct (decide (j = i)) as [->|Hne].
  - left. rewrite list_lookup_insert_eq in Hj by (by eapply lookup_lt_Some). by injection Hj.
  - right. rewrite list_lookup_insert_ne in Hj by done. split; [by eapply list_elem_of_lookup_2|]. intros E. apply Hne.
    eapply (NoDup_lookup (t_id <$> tr)); [done|by rewrite list_lookup_fmap, Hj|by rewrite list_lookup_fmap, Hi; cbn; rewrite E].
Qed.

Lemma tracks_write c tr n i pos s id d d' : tracks c tr n -> tr !! i = Some (mk_tracked id d true) -> slots c !! pos = Some s ->
  id = enc pos (generation s) -> pos ∉ empty_slots c ->
  tracks (mk_container (<[pos := mk_slot (generation s) d']> (slots c)) (empty_slots c)) (<[i := mk_tracked id d' true]> tr) n.
Proof.
  intros [H1 H2 H3 H4 H5 H6 H7] Hi Hs E Hne. destruct (slots_ok_lookup c pos s H1 Hs) as [Hgen _].
  pose proof (lookup_lt_Some _ _ _ Hs) as Hlt. pose proof (lookup_lt_Some _ _ _ Hi) as Hilt.
  assert (Hh : 1 <= hi (generation s)).
  { destruct (H4 (mk_tracked id d true)) as (pos' & s' & gen' & E' & Hs' & Hg' & Hh' & -> & _); [by eapply list_elem_of_lookup_2|].
    cbn in E'. rewrite E in E'. apply enc_inj in E' as [<- Eg]; [|done..]. by rewrite Eg. }
  split; cbn [slots empty_slots].
  - by apply slots_ok_insert.
  - done.
  - intros p Hp. destruct (H3 p Hp) as (s' & Hs' & ?). exists s'. split; [|done]. rewrite list_lookup_insert_ne; [done|]. by intros ->.
  - intros t [->|[Ht Hne']]%(elem_of_write tr i (mk_tracked id d true)); [| |done..].
    + exists pos, (mk_slot (generation s) d'), (generation s). split; [done|]. split; [by apply list_lookup_insert_eq|]. done.
    + destruct (H4 t Ht) as (p & s' & gen & E' & Hs' & Hg & Hh' & Hst). cbn in Hne'. destruct (decide (p = pos)) as [->|Hp].
      * rewrite Hs in Hs'. injection Hs' as <-. exists pos, (mk_slot (generation s) d'), gen. split; [done|].
        split; [by apply list_lookup_insert_eq|]. split; [done|]. split; [done|]. cbn [generation data].
        destruct (t_alive t); [|done]. destruct Hst as (-> & _). by rewrite E, E' in Hne'.
      * exists p, s', gen. split; [done|]. split; [|done]. cbn [slots]. by rewrite list_lookup_insert_ne.
  - rewrite list_fmap_insert, list_insert_id; [done|]. by rewrite list_lookup_fmap, Hi.
  - intros p s' Hs' Hp Hg. destruct (decide (p = pos)) as [->|Hpp].
    + rewrite list_lookup_insert_eq in Hs' by done. injection Hs' as <-. exists (mk_tracked id d' true).
      split; [eapply list_elem_of_lookup_2; by apply list_lookup_insert_eq|]. done.
    + rewrite list_lookup_insert_ne in Hs' by done. destruct (H6 p s' Hs' Hp Hg) as (t & Ht & Ha & Et). exists t.
      split; [|done]. apply list_elem_of_lookup in Ht as [j Hj]. eapply (list_elem_of_lookup_2 _ j). rewrite list_lookup_insert_ne; [done|].
      intros ->. rewrite Hi in Hj. injection Hj as <-. cbn in Et. rewrite E in Et. apply enc_inj in Et as [? _]; [done..|].
      destruct (slots_ok_lookup c p s' H1 Hs') as [? _]. done.
  - intros p s' Hs'. destruct (decide (p = pos)) as [->|Hpp].
    + rewrite list_lookup_insert_eq in Hs' by done. injection Hs' as <-. cbn. by apply (H7 pos s).
    + rewrite list_lookup_insert_ne in Hs' by done. by apply (H7 p s').
Qed.

End Facts.
End ContainerFacts.

(** *** The container as a map

    What its users see: the identifiers given out, and a map of the objects that
    are still there; [n] counts the objects created and erased so far. *)

Module ContainerMap.
Import Container ContainerFacts.

Section Map.
Context {DataT : Type} (default_data : DataT).
Implicit Types c : container DataT.

Definition holds (c : container DataT) (given : gset Z) (live : gmap Z DataT) (n : Z) : Prop :=
  exists tr, tracks c tr n /\ 0 <= n /\ given = list_to_set (t_id <$> tr)
  /\ forall id d, live !! id = Some d <-> mk_tracked id d true ∈ tr.

Lemma holds_start : holds empty_container ∅ ∅ 0.
Proof. exists []. split; [apply tracks_start|]. split; [lia|]. split; [done|]. intros id d. rewrite lookup_empty. set_solver. Qed.

Lemma holds_given c given live n id d : holds c given live n -> live !! id = Some d -> id ∈ given.
Proof.
  intros (tr & _ & _ & -> & Hl) Hi%Hl. apply elem_of_list_to_set, list_elem_of_fmap. by exists (mk_tracked id d true).
Qed.

Lemma holds_get c given live n id : holds c given live n -> id ∈ given -> get c id = live !! id.
Proof.
  intros (tr & [H1 _ _ H4 H5 _ _] & _ & -> & Hl) (t & -> & Ht)%elem_of_list_to_set%list_elem_of_fmap.
  destruct (H4 t Ht) as (pos & s & gen & E & Hs & Hgen & Hh & Hst). rewrite E, container_get_spec, Hs by done. destruct (t_alive t) eqn:Ha.
  - destruct Hst as (-> & Hd & _). rewrite Z.eqb_refl, Hd. symmetry. apply Hl. destruct t as [i d []]; cbn in *; [|done].
    by rewrite <- E.
  - assert (gen =? generation s = false) as -> by (apply Z.eqb_neq; intros ->; lia).
    destruct (live !! enc pos gen) as [d|] eqn:El; [|done]. apply Hl in El. exfalso.
    apply list_elem_of_lookup in El as [i Hi]. apply list_elem_of_lookup in Ht as [j Hj].
    assert (i = j) as ->; [|rewrite Hi in Hj; injection Hj as <-; done].
    eapply (NoDup_lookup (t_id <$> tr)); [done|by rewrite list_lookup_fmap, Hi|by rewrite list_lookup_fmap, Hj; cbn; rewrite E].
Qed.

Lemma holds_create c given live n d type id c' : holds c given live n -> 0 <= type < 256 -> create c d type = Some (id, c') ->
  id ∉ given /\ holds c' ({[id]} ∪ given) (<[id := d]> live) (n + 1).
Proof.
  intros (tr & Htr & Hn & -> & Hl) Ht E. pose proof (tracks_create _ _ _ _ _ _ _ Htr Hn Ht E) as H.
  assert (Hid : id ∉ t_id <$> tr).
  { pose proof (tracks_nodup _ _ _ H) as Hd. rewrite fmap_app in Hd. apply NoDup_app in Hd as (_ & Hd & _).
    intros Hin. apply (Hd id Hin). by left. }
  split; [by rewrite elem_of_list_to_set|]. exists (tr ++ [mk_tracked id d true]). split; [|split; [lia|split]].
  - destruct H as [? ? ? ? ? ? H7]. split; try done. intros q s Hs. specialize (H7 q s Hs). lia.
  - rewrite fmap_app, list_to_set_app_L. cbn. set_solver.
  - intros i e. rewrite elem_of_app, list_elem_of_singleton. destruct (decide (i = id)) as [->|Hne].
    + rewrite lookup_insert_eq. split; [intros [= ->]; by right|]. intros [Hin|[= ->]]; [|done]. exfalso. apply Hid.
      apply list_elem_of_fmap. by exists (mk_tracked id e true).
    + rewrite lookup_insert_ne by done. rewrite Hl. split; [by left|]. by intros [?|[= -> _]].
Qed.

Lemma holds_erase c given live n id : holds c given live n -> id ∈ given ->
  holds (erase default_data c id) given (delete id live) (n + 1).
Proof.
  intros (tr & Htr & Hn & -> & Hl) (t & -> & Ht)%elem_of_list_to_set%list_elem_of_fmap.
  apply list_elem_of_lookup in Ht as [i Hi]. exists (alter kill i tr). split; [by apply tracks_erase|]. split; [lia|].
  split; [by rewrite kill_ids|]. intros id d. pose proof (tracks_nodup _ _ _ Htr) as Hd.
  rewrite lookup_delete_Some, Hl. split.
  - intros [Hne [j Hj]%list_elem_of_lookup]. apply list_elem_of_lookup. exists j. rewrite list_lookup_alter_ne; [done|].
    intros ->. rewrite Hi in Hj. by injection Hj as ->.
  - intros [E|[Hin Hne]]%(elem_of_kill tr i t); [|done|done|done]. done.
Qed.

Lemma holds_modify c given live n id d f : holds c given live n -> live !! id = Some d ->
  exists c', modify c id f = Some c' /\ holds c' given (<[id := f d]> live) n /\ size c' = size c /\ length (slots c') = length (slots c).
Proof.
  intros (tr & Htr & Hn & -> & Hl) Hid. pose proof Htr as [H1 H2 H3 H4 H5 H6 H7].
  pose proof (proj1 (Hl _ _) Hid) as Hin. pose proof (H4 _ Hin) as (pos & s & gen & E & Hs & Hgen & Hh & -> & Hd & Hne). cbn [t_id t_data] in *.
  apply list_elem_of_lookup in Hin as [i Hi].
  assert (Eid : t_id <$> <[i := mk_tracked id (f d) true]> tr = t_id <$> tr).
  { rewrite list_fmap_insert. apply list_insert_id. by rewrite list_lookup_fmap, Hi. }
  exists (mk_container (<[pos := mk_slot (generation s) (f d)]> (slots c)) (empty_slots c)). split; [|split; [|split]].
  - unfold modify. rewrite E, decode_spec, Hs, Z.eqb_refl by done. cbn [mbind option_bind]. do 2 f_equal.
    apply list_eq. intros j. destruct (decide (j = pos)) as [->|Hj].
    + rewrite list_lookup_alter_eq, list_lookup_insert_eq, Hs by (by eapply lookup_lt_Some). cbn. by rewrite Hd.
    + by rewrite list_lookup_alter_ne, list_lookup_insert_ne by done.
  - exists (<[i := mk_tracked id (f d) true]> tr). split; [|split; [done|split; [by rewrite Eid|]]].
    + by apply (tracks_write c tr n i pos s id d (f d)).
    + intros id' d'. destruct (decide (id' = id)) as [->|Hne'].
      * rewrite lookup_insert_eq. split.
        -- intros [= <-]. apply list_elem_of_lookup. exists i. apply list_lookup_insert_eq. by eapply lookup_lt_Some.
        -- intros Hin'. f_equal. apply (elem_of_write tr i (mk_tracked id d true)) in Hin' as [Ht|[_ Ht]]; [by injection Ht|by destruct Ht|done..].
      * rewrite lookup_insert_ne, Hl by done. split.
        -- intros [j Hj]%list_elem_of_lookup. apply list_elem_of_lookup. exists j. rewrite list_lookup_insert_ne; [done|].
           intros ->. rewrite Hi in Hj. by injection Hj as -> _.
        -- intros Hin'. apply (elem_of_write tr i (mk_tracked id d true)) in Hin' as [Ht|[Ht _]]; [by injection Ht as -> _|done..].
  - unfold size, len. cbn. by rewrite length_insert.
  - cbn. by rewrite length_insert.
Qed.

Lemma holds_ids c given live n : holds c given live n -> n + 1 < 2 ^ 24 -> ids c ≡ₚ elements (dom live).
Proof.
  intros (tr & Htr & Hn & -> & Hl) Hlt. pose proof (tracks_ids c tr n Htr Hlt) as Hp.
  apply NoDup_Permutation; [apply NoDup_ids; by eapply tracks_slots|apply NoDup_elements|].
  intros id. rewrite Hp, elem_of_elements, elem_of_dom, list_elem_of_fmap. split.
  - intros (t & -> & [Ha Ht]%list_elem_of_filter). exists (t_data t). apply Hl. by destruct t; cbn in Ha; subst.
  - intros [d Hd%Hl]. exists (mk_tracked id d true). by rewrite list_elem_of_filter.
Qed.

Lemma holds_size c given live n : holds c given live n -> n + 1 < 2 ^ 24 -> size c = Z.of_nat (base.size live).
Proof.
  intros H Hlt. pose proof (holds_ids c given live n H Hlt) as Hp. apply Permutation_length in Hp.
  rewrite <- size_dom. unfold base.size at 1, set_size. cbn. rewrite <- Hp. destruct H as (tr & [_ H2 H3 _ _ _ _] & _).
  rewrite length_ids; [|intros pos (s & ?%lookup_lt_Some & _)%H3; done|done]. unfold size, len.
  assert (length (empty_slots c) <= length (slots c))%nat; [|lia].
  rewrite <- (length_seq (length (slots c)) 0). apply submseteq_length, NoDup_submseteq; [done|].
  intros pos (s & ?%lookup_lt_Some & _)%H3. apply elem_of_seq. lia.
Qed.

Lemma holds_slots c given live n : holds c given live n ->
  slots_ok c /\ NoDup (empty_slots c) /\ forall pos, pos ∈ empty_slots c -> (pos < length (slots c))%nat.
Proof.
  intros (tr & [H1 H2 H3 _ _ _ _] & _). split; [done|]. split; [done|]. by intros pos (s & ?%lookup_lt_Some & _)%H3.
Qed.

(** Slots that are used up may be counted, so the size is an upper bound. *)
Lemma holds_size_le c given live n : holds c given live n -> Z.of_nat (base.size live) <= size c.
Proof.
  intros H. pose proof (holds_slots c given live n H) as (Hok & Hd & Hlt).
  assert (Hsub : elements (dom live) ⊆+ ids c).
  { apply NoDup_submseteq; [apply NoDup_elements|]. intros id [d Hid]%elem_of_elements%elem_of_dom. apply elem_of_ids; [done|].
    destruct H as (tr & [_ _ _ H4 _ _ _] & _ & _ & Hl). apply Hl, H4 in Hid as (pos & s & gen & E & Hs & _ & _ & -> & _ & Hne).
    by exists pos, s. }
  apply submseteq_length in Hsub. rewrite length_ids in Hsub by done. rewrite <- size_dom. unfold base.size, set_size. cbn.
  assert (length (empty_slots c) <= length (slots c))%nat.
  { rewrite <- (length_seq (length (slots c)) 0). apply submseteq_length, NoDup_submseteq; [done|].
    intros pos Hp%Hlt. apply elem_of_seq. lia. }
  unfold size, len. lia.
Qed.

Lemma holds_create_some c given live n d M : holds c given live n -> size c < M -> len (slots c) <= M -> M <= int32_max ->
  exists id c', create c d 0 = Some (id, c') /\ len (slots c') <= M /\ size c' = size c + 1.
Proof.
  intros H Hs Hl HM. pose proof H as (tr & [H1 _ H3 _ _ _ _] & _). unfold size in *.
  assert (Hc : empty_slots c = [] \/ exists l pos, empty_slots c = l ++ [pos]).
  { destruct (empty_slots c) as [|x l]; [by left|right]. destruct (exists_last (l:=x :: l)) as (l' & y & ->); [done|]. by exists l', y. }
  destruct Hc as [E|(l & pos & E)].
  - rewrite E, len_nil in Hs. rewrite (create_grow c d 0 H1 E) by done. rewrite leb_true by lia. eexists _, _. split; [done|].
    cbn [slots empty_slots]. rewrite E, len_app, len_cons, len_nil. lia.
  - destruct (H3 pos) as (s & Hp & _); [rewrite E; set_solver|]. rewrite (create_reuse c d 0 pos l s) by done.
    eexists _, _. split; [done|]. cbn [slots empty_slots]. unfold len in *. rewrite E, length_insert, length_app. rewrite E, length_app in Hs.
    cbn [length] in *. lia.
Qed.

Lemma holds_erase_size c given live n id : holds c given live n ->
  size (erase default_data c id) <= size c /\ length (slots (erase default_data c id)) = length (slots c).
Proof.
  intros (tr & [H1 _ _ _ _ _ _] & _). unfold erase. destruct (decode_id c id) as [pos|] eqn:E; [|done].
  assert (exists s, slots c !! pos = Some s) as [s Hs].
  { unfold decode_id in E. destruct (_ || _); [done|]. destruct (slots c !! Z.to_nat (Z.shiftr id 32)) as [s|] eqn:Es; [|done].
    cbn in E. destruct (_ =? _); [|done]. injection E as <-. by exists s. }
  rewrite (release_spec default_data c pos s) by done. unfold size, len. cbn [slots empty_slots]. rewrite length_insert.
  destruct (_ =? 0); [done|]. rewrite length_app. cbn [length]. lia.
Qed.

End Map.
End ContainerMap.

(** *** Containers with a bound on their slots *)

Module Held.
Import ContainerMap.

Definition held {D} (M : Z) (c : Container.container D) (given : gset Z) (live : gmap Z D) : Prop :=
  exists n, holds c given live n /\ n + Z.of_nat (base.size live) <= 2 * Z.of_nat (base.size given) /\ len (Container.slots c) <= M.

Lemma held_start {D} M : 0 <= M -> @held D M Container.empty_container ∅ ∅.
Proof. intros H. exists 0. split; [apply holds_start|]. rewrite map_size_empty, size_empty. by split. Qed.

Lemma held_get {D} M (c : Container.container D) given live id : held M c given live -> id ∈ given ->
  Container.get c id = live !! id.
Proof. intros (n & H & _) Hi. by eapply holds_get. Qed.

Lemma held_given {D} M (c : Container.container D) given live id d : held M c given live -> live !! id = Some d -> id ∈ given.
Proof. intros (n & H & _) Hd. by eapply holds_given. Qed.

Lemma held_size {D} M (c : Container.container D) given live : held M c given live -> Z.of_nat (base.size live) <= Container.size c.
Proof. intros (n & H & _). by eapply holds_size_le. Qed.

Lemma held_size_eq {D} M (c : Container.container D) given live : held M c given live -> Z.of_nat (base.size given) < 2 ^ 22 ->
  Container.size c = Z.of_nat (base.size live).
Proof. intros (n & H & Hn & _) Hg. apply (holds_size _ _ _ n H). change (2 ^ 22) with 4194304 in Hg. change (2 ^ 24) with 16777216. lia. Qed.

Lemma held_create {D} M (c : Container.container D) given live d : held M c given live -> Container.size c < M -> M <= int32_max ->
  exists id c', Container.create c d 0 = Some (id, c') /\ live !! id = None /\ id ∉ given /\ held M c' ({[id]} ∪ given) (<[id := d]> live)
    /\ Container.size c' = Container.size c + 1.
Proof.
  intros (n & H & Hn & Hl) Hs HM. destruct (holds_create_some c given live n d M H Hs Hl HM) as (id & c' & E & Hl' & Hs').
  destruct (holds_create c given live n d 0 id c' H ltac:(lia) E) as [Hid H']. exists id, c'. split; [done|].
  assert (live !! id = None) as Hnone by (destruct (live !! id) eqn:El; [by destruct Hid; eapply holds_given|done]).
  split; [done|]. split; [done|]. split; [|done]. exists (n + 1). split; [done|]. split; [|done].
  rewrite map_size_insert_None, size_union, size_singleton by (done || set_solver). lia.
Qed.

Lemma held_modify {D} M (c : Container.container D) given live id d f : held M c given live -> live !! id = Some d ->
  exists c', Container.modify c id f = Some c' /\ held M c' given (<[id := f d]> live) /\ Container.size c' = Container.size c.
Proof.
  intros (n & H & Hn & Hl) Hid. destruct (holds_modify c given live n id d f H Hid) as (c' & E & H' & Hs & Hlen).
  exists c'. split; [done|]. split; [|done]. exists n. split; [done|]. rewrite map_size_insert_Some by (by eexists).
  split; [done|]. unfold len in *. by rewrite Hlen.
Qed.

Lemma held_erase {D} M (c : Container.container D) dd given live id d : held M c given live -> live !! id = Some d ->
  held M (Container.erase dd c id) given (delete id live).
Proof.
  intros (n & H & Hn & Hl) Hid. pose proof (holds_given _ _ _ _ _ _ H Hid) as Hg. exists (n + 1).
  split; [by apply holds_erase|]. destruct (holds_erase_size dd c given live n id H) as [_ Hlen]. unfold len in *. rewrite Hlen.
  split; [|done]. rewrite (map_size_delete_Some id live) by (by eexists).
  assert (base.size live <> 0)%nat; [|lia]. intros E%map_size_empty_inv. by rewrite E in Hid.
Qed.

End Held.

(** *** Queues in vectors *)

Module VectorQueueFacts.
Import VectorQueue.

Section Facts.
Context {T : Type}.
Implicit Types q : vector_queue T.

(** The position stays in the vector, at most half of it was popped (but for
    small ones), and its length is a [size_t]. *)
Definition queue_ok q : Prop :=
  (read_pos_ q <= length (vector_ q))%nat /\ (2 * read_pos_ q <= length (vector_ q) + 10)%nat /\ len (vector_ q) < 2 ^ 64.

Lemma empty_ok : queue_ok empty_vector_queue.
Proof. split; [done|]. split; [cbn; lia|done]. Qed.

Lemma as_span_empty : as_span (@empty_vector_queue T) = [].
Proof. done. Qed.

Lemma len_vector q : queue_ok q -> len (vector_ q) <= 2 * len (as_span q) + 10.
Proof. intros (H & Hr & _). unfold as_span, len. rewrite length_drop. lia. Qed.

Lemma vector_push_ok q x : queue_ok q -> len (as_span q) < 2 ^ 62 -> queue_ok (push q x).
Proof.
  intros H Hl. pose proof (len_vector q H). destruct H as (H & Hr & _).
  assert (E : len (vector_ (push q x)) = len (vector_ q) + 1) by (unfold push; cbn; by rewrite len_app).
  unfold queue_ok. rewrite E. unfold push. cbn [vector_ read_pos_]. rewrite length_app. cbn [length].
  change (2 ^ 62) with 4611686018427387904 in Hl. change (2 ^ 64) with 18446744073709551616. lia.
Qed.

Lemma push_span q x : queue_ok q -> as_span (push q x) = as_span q ++ [x].
Proof. intros [H _]. unfold as_span. cbn. by rewrite drop_app_le. Qed.

Lemma size_span q : queue_ok q -> size q = len (as_span q).
Proof. intros (H & _ & Hl). unfold size, as_span, len in *. rewrite length_drop, wrap_small by lia. lia. Qed.

Lemma empty_span q : queue_ok q -> empty q = true <-> as_span q = [].
Proof.
  intros H. unfold empty. rewrite Z.eqb_eq, size_span by done. unfold len. split; [|by intros ->].
  intros Hz. apply length_zero_iff_nil. lia.
Qed.

Lemma front_span q : front q = head (as_span q).
Proof.
  unfold front, as_span. rewrite <- (Nat.add_0_r (read_pos_ q)) at 1. rewrite <- lookup_drop.
  by destruct (drop _ _).
Qed.

Lemma back_span q : as_span q <> [] -> back q = last (as_span q).
Proof.
  unfold back, as_span. intros H. rewrite <- (take_drop (read_pos_ q) (vector_ q)) at 1.
  rewrite last_app. destruct (last (drop _ _)) eqn:E; [done|]. by apply last_None in E.
Qed.

Lemma try_shrink_ok q : (read_pos_ q <= length (vector_ q))%nat ->
  exists q', try_shrink q = Some q' /\ (read_pos_ q' <= length (vector_ q'))%nat
    /\ (2 * read_pos_ q' <= length (vector_ q') + 8)%nat /\ as_span q' = as_span q /\ (length (vector_ q') <= length (vector_ q))%nat.
Proof.
  intros H. unfold try_shrink. destruct (_ && _) eqn:E.
  - rewrite (proj2 (Nat.leb_le _ _)) by done. eexists. split; [done|]. unfold as_span, len. cbn [vector_ read_pos_].
    rewrite drop_0, length_drop. split; [lia|]. split; [lia|]. split; [done|lia].
  - exists q. apply andb_false_iff in E as [E%Nat.ltb_ge|E%Nat.ltb_ge]; (split; [done|]; split; [done|]; split; [lia|done]).
Qed.

Lemma vector_pop_ok q x l : queue_ok q -> as_span q = x :: l ->
  exists q', pop q = Some (x, q') /\ queue_ok q' /\ as_span q' = l.
Proof.
  intros (H & _ & Hs) E. destruct (try_shrink_ok q H) as (q1 & E1 & Hr & Hr2 & Es & Hle). unfold pop. rewrite E1. cbn [mbind option_bind].
  rewrite E in Es. pose proof (front_span q1) as Hf. unfold front in Hf. rewrite Hf, Es. cbn [head mbind option_bind].
  eexists. split; [done|]. unfold as_span, len in *. unfold queue_ok, len. cbn [vector_ read_pos_].
  pose proof (f_equal length Es) as Hlen. rewrite length_drop in Hlen. cbn [length] in Hlen.
  split; [lia|]. by rewrite <- drop_drop, Es.
Qed.

Lemma pop_empty q : queue_ok q -> as_span q = [] -> pop q = None.
Proof.
  intros (H & _) E. destruct (try_shrink_ok q H) as (q1 & E1 & _ & _ & Es & _). unfold pop. rewrite E1. cbn [mbind option_bind].
  pose proof (front_span q1) as Hf. unfold front in Hf. by rewrite Hf, Es, E.
Qed.

Lemma pop_n_ok q n : queue_ok q -> (n <= length (as_span q))%nat ->
  exists q', pop_n q n = Some q' /\ queue_ok q' /\ as_span q' = drop n (as_span q).
Proof.
  intros (H & _ & Hl) Hn. unfold as_span in Hn. rewrite length_drop in Hn.
  destruct (try_shrink_ok (mk_vector_queue (vector_ q) (read_pos_ q + n))) as (q' & E & Hq1 & Hq2 & Es & Hle); [cbn; lia|].
  exists q'. split; [done|]. unfold queue_ok, len in *. cbn [vector_] in Hle. split; [lia|]. rewrite Es. unfold as_span. cbn. by rewrite drop_drop.
Qed.
End Facts.
End VectorQueueFacts.

(** *** The rate of accepted events *)

Module FloodFacts.
Import Flood.
#[local] Open Scope Q_scope.

(** Buckets as [add_limit] makes them and [bucket_add_event] leaves them. *)
Record bucket_ok (b : bucket) : Prop := {
  ok_speed : 0 < speed b;
  ok_capacity : 0 <= max_capacity b;
  ok_volume : 0 <= volume b <= max_capacity b;
  ok_wakeup : wakeup_at b <= volume_at b;
  ok_at : 0 <= volume_at b }.

Lemma new_bucket_ok duration count : 0 < duration -> 1 <= count -> bucket_ok (new_bucket duration count).
Proof.
  intros Hd Hc. split; cbn [new_bucket speed max_capacity volume wakeup_at volume_at]; try lra.
  apply Qlt_shift_div_l; lra.
Qed.

(** What the bucket still grants, less what time has added. *)
Definition credit (b : bucket) : Q := volume b - speed b * volume_at b.

Lemma add_event_spec b now b' : bucket_ok b -> bucket_add_event b now 1 = Some b' ->
  bucket_ok b' /\ max_capacity b' = max_capacity b /\ speed b' = speed b
  /\ credit b' <= credit b - 1 /\ credit b' <= max_capacity b - 1 - speed b * now
  /\ now <= volume_at b' /\ speed b * volume_at b' <= speed b * now + 1.
Proof.
  intros [H1 H2 H3 H4 H5] H. unfold bucket_add_event in H. destruct (qleb_spec (wakeup_at b) now); [|discriminate].
  unfold update_volume in H. destruct (qleb_spec (volume_at b) now) as [Hat|]; [|discriminate]. cbn [mbind option_bind] in H.
  set (v := qmin (volume b + (now - volume_at b) * speed b) (max_capacity b)) in H.
  assert (Hv : 0 <= v /\ v <= max_capacity b /\ v <= volume b + (now - volume_at b) * speed b).
  { assert (0 <= (now - volume_at b) * speed b) by (apply Qmult_le_0_compat; lra).
    subst v. unfold qmin. case_q; lra. }
  clearbody v. cbn [volume max_capacity speed volume_at wakeup_at] in H. unfold credit.
  destruct (qleb_spec 1 v); injection H as <-; cbn [volume max_capacity speed volume_at wakeup_at].
  - split; [split; cbn; lra|]. repeat split; try lra; nra.
  - assert (E : speed b * ((1 - v) / speed b) == 1 - v) by (field; lra).
    assert (0 <= (1 - v) / speed b) by (apply Qle_shift_div_l; lra).
    set (w := (1 - v) / speed b) in *. clearbody w.
    split; [split; cbn; lra|]. repeat split; try lra; nra.
Qed.

(** Events accepted one after another. *)
Fixpoint bucket_run (b : bucket) (events : list time) : option bucket :=
  match events with
  | [] => Some b
  | now :: events => b ← bucket_add_event b now 1; bucket_run b events
  end.

Lemma bucket_run_credit events b b' : bucket_ok b -> bucket_run b events = Some b' ->
  bucket_ok b' /\ max_capacity b' = max_capacity b /\ speed b' = speed b /\ credit b' <= credit b - inject_Z (len events).
Proof.
  revert b. induction events as [|now events IH]; intros b Hb; cbn [bucket_run].
  - intros [= <-]. repeat split; try done; try apply Hb. change (inject_Z (len (@nil time))) with 0. lra.
  - destruct (bucket_add_event b now 1) as [b1|] eqn:E; [|discriminate]. cbn [mbind option_bind]. intros Hr.
    destruct (add_event_spec b now b1 Hb E) as (Hb1 & E1 & E2 & Hc & _).
    destruct (IH b1 Hb1 Hr) as (Hb' & E3 & E4 & Hc'). split; [done|]. split; [congruence|]. split; [congruence|].
    rewrite len_cons, inject_Z_plus. change (inject_Z 1) with 1. lra.
Qed.

(** The last event of a run. *)
Lemma bucket_run_last events now b b' : bucket_ok b -> bucket_run b (events ++ [now]) = Some b' ->
  speed b' * volume_at b' <= speed b * now + 1.
Proof.
  revert b. induction events as [|e events IH]; intros b Hb; cbn [app bucket_run].
  - destruct (bucket_add_event b now 1) as [b1|] eqn:E; [|discriminate]. cbn [mbind option_bind]. intros [= <-].
    destruct (add_event_spec b now b1 Hb E) as (_ & _ & -> & _ & _ & _ & H). exact H.
  - destruct (bucket_add_event b e 1) as [b1|] eqn:E; [|discriminate]. cbn [mbind option_bind]. intros Hr.
    destruct (add_event_spec b e b1 Hb E) as (Hb1 & _ & E2 & _). rewrite <- E2. by apply IH.
Qed.

Lemma bucket_run_bound b e0 events now b' : bucket_ok b -> bucket_run b (e0 :: events ++ [now]) = Some b' ->
  inject_Z (len (e0 :: events ++ [now])) <= max_capacity b + 1 + speed b * (now - e0).
Proof.
  intros Hb. cbn [bucket_run]. destruct (bucket_add_event b e0 1) as [b1|] eqn:E; [|discriminate]. cbn [mbind option_bind].
  intros Hr. destruct (add_event_spec b e0 b1 Hb E) as (Hb1 & E1 & E2 & _ & Hc & _).
  pose proof (bucket_run_last events now b1 b' Hb1 Hr) as Hl.
  destruct (bucket_run_credit _ b1 b' Hb1 Hr) as (Hb' & _ & E4 & Hc'). unfold credit in *.
  rewrite len_cons, inject_Z_plus. change (inject_Z 1) with 1. destruct (ok_volume b' Hb') as [Hv _].
  rewrite E2 in *. lra.
Qed.

(** *** Several limits *)

(** A new control with some limits, as its users build it. *)
Definition with_limits (limits : list (Q * Q)) : flood_control :=
  foldl (fun f l => add_limit f (fst l) (snd l)) new_flood limits.

Definition is_limit (l : Q * Q) : Prop := 0 < fst l /\ 1 <= snd l.

(** Events that are let through: each at or after the time to wait for. *)
Fixpoint flood_run (f : flood_control) (events : list time) : option flood_control :=
  match events with
  | [] => Some f
  | now :: events => if qleb (get_wakeup_at f) now then f ← add_event f now; flood_run f events else None
  end.

Lemma with_limits_buckets limits : with_limits limits = mk_flood 0 ((fun l => new_bucket (fst l) (snd l)) <$> limits).
Proof.
  unfold with_limits. induction limits as [|l limits IH] using rev_ind; [done|].
  rewrite foldl_app. cbn [foldl]. rewrite IH. unfold add_limit. by rewrite fmap_app.
Qed.

(** Every bucket is used at every event, and none is ready later than the control says. *)
Lemma add_events_spec l now w l' w' : add_events l now w = Some (l', w') ->
  Forall2 (fun b b' => bucket_add_event b now 1 = Some b') l l' /\ w <= w' /\ Forall (fun b => wakeup_at b <= w') l'.
Proof.
  revert w l' w'. induction l as [|b l IH]; intros w l' w'; cbn [add_events].
  - intros [= <- <-]. split; [constructor|]. split; [lra|constructor].
  - destruct (bucket_add_event b now 1) as [b1|] eqn:E; [|discriminate]. cbn [mbind option_bind].
    destruct (add_events l now (qmax w (wakeup_at b1))) as [[l1 w1]|] eqn:E1; [|discriminate]. cbn [mbind option_bind].
    intros [= <- <-]. destruct (IH _ _ _ E1) as (H1 & H2 & H3). split; [by constructor|].
    pose proof (qmax_le_l w (wakeup_at b1)). pose proof (qmax_le_r w (wakeup_at b1)). split; [lra|]. constructor; [lra|done].
Qed.

Lemma flood_run_buckets events f f' : flood_run f events = Some f' ->
  Forall2 (fun b b' => bucket_run b events = Some b') (buckets f) (buckets f').
Proof.
  revert f. induction events as [|now events IH]; intros f; cbn [flood_run].
  - intros [= <-]. apply Forall_Forall2_diag, Forall_true. done.
  - destruct (qleb _ now); [|discriminate]. unfold add_event.
    destruct (add_events (buckets f) now (wakeup f)) as [[l w]|] eqn:E; [|discriminate]. cbn [mbind option_bind].
    intros H%IH. apply add_events_spec in E as (H1 & _ & _). cbn [buckets] in H. revert H. generalize (buckets f').
    induction H1 as [|b b1 lb l1 Hb _ IHl]; intros k Hk; inversion Hk; subst; constructor.
    + cbn [bucket_run]. rewrite Hb. done.
    + by apply IHl.
Qed.

Lemma bucket_run_app b l k : bucket_run b (l ++ k) = b ← bucket_run b l; bucket_run b k.
Proof.
  revert b. induction l as [|e l IH]; intros b; [done|]. cbn [app bucket_run].
  destruct (bucket_add_event b e 1); [|done]. cbn [mbind option_bind]. apply IH.
Qed.

(** The state between events that come in order. *)
Definition flood_ok (f : flood_control) (last : time) : Prop :=
  0 <= last /\ Forall (fun b => bucket_ok b /\ wakeup_at b <= wakeup f /\ (volume_at b <= last \/ volume_at b <= wakeup f)) (buckets f).

Lemma add_event_total f last now : flood_ok f last -> last <= now -> get_wakeup_at f <= now ->
  exists f', add_event f now = Some f' /\ flood_ok f' now.
Proof.
  intros [H0 H] Hl Hw. unfold add_event, get_wakeup_at in *. cut (forall w, exists l' w', add_events (buckets f) now w = Some (l', w')
    /\ w <= w' /\ Forall (fun b => bucket_ok b /\ wakeup_at b <= w' /\ (volume_at b <= now \/ volume_at b <= w')) l').
  { intros Hc. destruct (Hc (wakeup f)) as (l' & w' & -> & _ & Hf). eexists. split; [done|]. split; [lra|done]. }
  induction H as [|b l (Hb & Hbw & Hbv) _ IH]; intros w; cbn [add_events].
  - exists [], w. split; [done|]. split; [lra|constructor].
  - assert (exists b1, bucket_add_event b now 1 = Some b1 /\ (volume_at b1 <= now \/ volume_at b1 <= wakeup_at b1)) as (b1 & E & Hv).
    { unfold bucket_add_event, update_volume. destruct (qleb_spec (wakeup_at b) now); [|lra].
      destruct (qleb_spec (volume_at b) now); [|destruct Hbv; lra]. cbn [mbind option_bind].
      case_match; eexists; (split; [done|]); cbn [volume_at wakeup_at]; [left; lra|right; lra]. }
    rewrite E. cbn [mbind option_bind]. destruct (add_event_spec b now b1 Hb E) as (Hb1 & _).
    destruct (IH (qmax w (wakeup_at b1))) as (l' & w' & -> & Hw' & Hf). cbn [mbind option_bind].
    pose proof (qmax_le_l w (wakeup_at b1)). pose proof (qmax_le_r w (wakeup_at b1)).
    exists (b1 :: l'), w'. split; [done|]. split; [lra|]. constructor; [|done]. split; [done|]. split; [lra|]. destruct Hv; [left|right]; lra.
Qed.

Lemma with_limits_ok limits : Forall is_limit limits -> flood_ok (with_limits limits) 0.
Proof.
  intros H. rewrite with_limits_buckets. split; [lra|]. cbn [buckets wakeup]. apply Forall_fmap. eapply Forall_impl; [exact H|].
  intros l [H1 H2]. split; [by apply new_bucket_ok|]. cbn. split; [lra|left; lra].
Qed.

End FloodFacts.

(** ** Properties *)

Import ContainerFacts FloodFacts.

(** Identifiers of a container.  Whatever objects are created and erased,
    with whatever types, no identifier is zero or given out twice, and each finds its own
    object as long as it was not erased and nothing afterwards.  As long as no
    slot can have run out of generations, [ids] lists exactly the objects that
    are left and [size] counts them. *)
Theorem container_identifiers (DataT : Type) (default_data : DataT) (l : list (op (DataT:=DataT)))
    (c : Container.container DataT) (tr : list (tracked (DataT:=DataT))) :
  run default_data (Container.empty_container, []) l = Some (c, tr) ->
  NoDup (t_id <$> tr)
  /\ (forall t, t ∈ tr -> t_id t <> 0 /\ Container.get c (t_id t) = if t_alive t then Some (t_data t) else None)
  /\ (len l + 1 < 2 ^ 24 ->
      Container.ids c ≡ₚ t_id <$> base.filter (fun t => t_alive t = true) tr
      /\ Container.size c = len (base.filter (fun t => t_alive t = true) tr)).
Proof.
  intros H. apply (run_tracks default_data l _ _ 0) in H; [|apply tracks_start|lia]. rewrite Z.add_0_l in H.
  pose proof H as [H1 H2 H3 H4 H5 _ _]. split; [done|]. split.
  - intros t Ht. destruct (H4 t Ht) as (pos & s & gen & -> & Hs & Hgen & Hh & Hst). split.
    + unfold enc, hi in *. change (2 ^ 32) with 4294967296 in *. pose proof (Z.div_mod gen 256 ltac:(lia)).
      pose proof (Z.mod_pos_bound gen 256 ltac:(lia)). lia.
    + rewrite container_get_spec, Hs by done. destruct (t_alive t); [destruct Hst as (-> & -> & _); by rewrite Z.eqb_refl|].
      assert (gen =? Container.generation s = false) as -> by (apply Z.eqb_neq; intros ->; lia). done.
  - intros Hn. pose proof (tracks_ids c tr (len l) H Hn) as Hp. split; [done|].
    apply Permutation_length in Hp. rewrite length_fmap, length_ids in Hp; [|intros pos (s & ?%lookup_lt_Some & _)%H3; done|done].
    unfold Container.size, len. rewrite <- Hp.
    assert (length (Container.empty_slots c) <= length (Container.slots c))%nat; [|lia].
    rewrite <- (length_seq (length (Container.slots c)) 0). apply submseteq_length, NoDup_submseteq; [done|].
    intros pos (s & ?%lookup_lt_Some & _)%H3. apply elem_of_seq. lia.
Qed.

Lemma container_identifiers_witness : exists c tr,
  run 0 (Container.empty_container, []) [Create 7 0; Create 8 1; Erase 0; Create 9 2] = Some (c, tr)
  /\ NoDup (t_id <$> tr) /\ Container.size c = 2.
Proof.
  eexists _, _. split; [vm_compute; reflexivity|].
  destruct (container_identifiers Z 0 [Create 7 0; Create 8 1; Erase 0; Create 9 2] _ _ ltac:(vm_compute; reflexivity)) as (H & _ & H').
  split; [exact H|]. destruct H' as [_ ->]; [reflexivity|]. reflexivity.
Defined.

(** The slot after [n] objects were created and erased, one after another. *)
Lemma cycles_spec {DataT} (default_data d : DataT) (n : nat) (c : Container.container DataT) tr k :
  Container.slots c = [Container.mk_slot (256 * k) default_data] -> Container.empty_slots c = [0%nat] ->
  1 <= k -> k + Z.of_nat n < 2 ^ 24 -> Forall (fun t => t_alive t = false) tr ->
  exists l c' tr', run default_data (c, tr) l = Some (c', tr') /\ Forall (fun t => t_alive t = false) tr'
  /\ Container.slots c' = [Container.mk_slot (256 * (k + Z.of_nat n)) default_data] /\ Container.empty_slots c' = [0%nat].
Proof.
  revert c tr k. induction n as [|n IH]; intros c tr k Hs He Hk Hn Hd.
  - exists [], c, tr. rewrite Z.add_0_r. done.
  - assert (Hg : 0 <= 256 * k + 0 < 2 ^ 32) by (apply typed_bounds; lia).
    assert (Hok : slots_ok c) by (split; rewrite Hs; [done|constructor; [cbn; lia|done]]).
    assert (Hhi : hi (256 * k) = k) by (replace (256 * k) with (256 * k + 0) by lia; by apply hi_typed).
    pose proof (create_reuse c d 0 0 [] (Container.mk_slot (256 * k) default_data) Hok He ltac:(by rewrite Hs) ltac:(lia)) as Ec.
    cbn [Container.generation] in Ec. rewrite Hhi, Hs in Ec. cbn [insert list_insert] in Ec. rewrite Z.add_0_r in Ec.
    set (c1 := Container.mk_container _ _) in Ec.
    assert (Hok1 : slots_ok c1) by (split; [done|constructor; [cbn; lia|done]]).
    assert (Er : Container.erase default_data c1 (enc 0 (256 * k)) = Container.mk_container [Container.mk_slot (256 * (k + 1)) default_data] [0%nat]).
    { unfold Container.erase. rewrite decode_spec by (try done; lia). cbn [Container.slots c1 lookup list_lookup Container.generation].
      rewrite Z.eqb_refl, (release_spec default_data c1 0 (Container.mk_slot (256 * k) d)) by done. cbn [Container.generation].
      destruct (next_gen_spec (256 * k) ltac:(lia)) as (_ & Hh & _). rewrite Hhi in Hh.
      assert (k + 1 =? 2 ^ 24 = false) as E24 by (apply Z.eqb_neq; lia). rewrite E24 in Hh. rewrite Hh.
      assert (k + 1 =? 0 = false) as -> by (apply Z.eqb_neq; lia). unfold next_gen. rewrite wrap_small; [|].
      - cbn. by replace (256 * k + 256) with (256 * (k + 1)) by lia.
      - pose proof (typed_bounds (k + 1) 0 ltac:(lia) ltac:(lia)). lia. }
    destruct (IH (Container.mk_container [Container.mk_slot (256 * (k + 1)) default_data] [0%nat]) (tr ++ [mk_tracked (enc 0 (256 * k)) d false]) (k + 1))
      as (l & c' & tr' & Hr & Hd' & Hs' & He'); [done|done|lia|lia|by apply Forall_app; split; [|constructor]|].
    exists (Create d 0 :: Erase (length tr) :: l), c', tr'. split; [|split; [done|split; [|done]]].
    + cbn [run step]. change ((0 <=? 0) && (0 <? 256)) with true. cbn [andb]. rewrite Ec. cbn [mbind option_bind run step].
      rewrite list_lookup_middle by done. cbn [mbind option_bind t_id]. rewrite Er.
      assert (alter kill (length tr) (tr ++ [mk_tracked (enc 0 (256 * k)) d true]) = tr ++ [mk_tracked (enc 0 (256 * k)) d false]) as ->; [|done].
      apply list_eq. intros i. destruct (decide (i = length tr)) as [->|Hi].
      * rewrite list_lookup_alter_eq, !list_lookup_middle by done. done.
      * rewrite list_lookup_alter_ne by done. destruct (decide (i < length tr)%nat); [by rewrite !lookup_app_l|].
        rewrite !lookup_ge_None_2 by (rewrite length_app; cbn; lia). done.
    + by replace (k + Z.of_nat (S n)) with (k + 1 + Z.of_nat n) by lia.
Qed.

(** A slot that ran out of generations.  After sixteen million objects were
    created and erased one after another every one of them is gone, and yet the
    container is not empty: its size is one, and [ids] lists an identifier that
    finds an object no one created. *)
Theorem container_exhausted_slot (DataT : Type) (default_data d : DataT) :
  exists l c tr, run default_data (Container.empty_container, []) l = Some (c, tr)
  /\ Forall (fun t => t_alive t = false) tr /\ Container.size c = 1 /\ Container.empty c = false
  /\ Container.ids c = [0] /\ Container.get c 0 = Some default_data.
Proof.
  set (c0 := Container.mk_container [Container.mk_slot (256 * 2) default_data] [0%nat]).
  assert (H0 : run default_data (Container.empty_container, []) [Create d 0; Erase 0] = Some (c0, [mk_tracked 256 d false])) by done.
  destruct (cycles_spec default_data d (Z.to_nat (2 ^ 24 - 3)) c0 [mk_tracked 256 d false] 2)
    as (l & c1 & tr1 & Hr & Hd & Hs & He); [done|done|lia|rewrite Z2Nat.id; lia|by constructor|].
  rewrite Z2Nat.id in Hs by lia. change (2 + (2 ^ 24 - 3)) with 16777215 in Hs.
  assert (Hok : slots_ok c1) by (split; rewrite Hs; [done|constructor; [done|done]]).
  pose proof (create_reuse c1 d 0 0 [] (Container.mk_slot (256 * 16777215) default_data) Hok He ltac:(by rewrite Hs) ltac:(lia)) as Ec.
  rewrite Hs in Ec. cbn [Container.generation insert list_insert] in Ec.
  change (256 * hi (256 * 16777215) + 0) with 4294967040 in Ec.
  set (c2 := Container.mk_container _ _) in Ec.
  assert (Er : Container.erase default_data c2 (enc 0 4294967040) = Container.mk_container [Container.mk_slot 0 default_data] []) by done.
  exists ([Create d 0; Erase 0] ++ l ++ [Create d 0; Erase (length tr1)]), (Container.mk_container [Container.mk_slot 0 default_data] []),
    (tr1 ++ [mk_tracked (enc 0 4294967040) d false]).
  split; [|split; [apply Forall_app; by split; [|constructor]|done]].
  assert (Happ : forall k k' st, run default_data st (k ++ k') = st' ← run default_data st k; run default_data st' k').
  { intros k k'. induction k as [|o k IH]; intros st; [done|]. cbn [app run]. destruct (step default_data st o); [|done]. apply IH. }
  rewrite !Happ, H0. cbn [mbind option_bind]. rewrite Happ, Hr. cbn [mbind option_bind run step].
  change ((0 <=? 0) && (0 <? 256)) with true. cbn match. rewrite Ec. cbn [mbind option_bind run step].
  rewrite list_lookup_middle by done. cbn [mbind option_bind t_id]. rewrite Er. do 2 f_equal.
  apply list_eq. intros i. destruct (decide (i = length tr1)) as [->|Hi].
  - rewrite list_lookup_alter_eq, !list_lookup_middle by done. done.
  - rewrite list_lookup_alter_ne by done. destruct (decide (i < length tr1)%nat); [by rewrite !lookup_app_l|].
    rewrite !lookup_ge_None_2 by (rewrite length_app; cbn; lia). done.
Qed.

(** The rate that flood control lets through.  An event that comes in order
    and after the time to wait for is always accepted.  Whatever is accepted, in any
    window every limit of [count] events in [duration] seconds admits at most
    [count] plus the share of [count] of the window's length; so two
    times [count] in one [duration], and that many do get through. *)
Theorem flood_rate (limits : list (Q * Q)) :
  Forall is_limit limits ->
  (forall f last now, flood_ok f last -> (last <= now)%Q -> (Flood.get_wakeup_at f <= now)%Q ->
     exists f', Flood.add_event f now = Some f' /\ flood_ok f' now)
  /\ flood_ok (with_limits limits) 0
  /\ (forall before first events now after f', flood_run (with_limits limits) (before ++ (first :: events ++ [now]) ++ after) = Some f' ->
      forall l, l ∈ limits -> (inject_Z (len (first :: events ++ [now])) <= snd l + snd l / fst l * (now - first))%Q)
  /\ (exists events, length events = 40%nat /\ Forall (fun t => 1000 <= t <= 1060)%Q events
      /\ is_Some (flood_run (with_limits [(60, 20); (3600, 600)]%Q) events)).
Proof.
  intros Hl. split; [by apply add_event_total|]. split; [by apply with_limits_ok|]. split.
  - intros before first events now after f' Hr l Hin. apply flood_run_buckets in Hr.
    rewrite with_limits_buckets in Hr. cbn [Flood.buckets] in Hr.
    apply list_elem_of_lookup in Hin as [i Hi]. rewrite Forall_lookup in Hl. destruct (Hl i l Hi) as [H1 H2].
    eapply Forall2_lookup_l in Hr as (b' & _ & Hr); [|by rewrite list_lookup_fmap, Hi].
    pose proof (new_bucket_ok (fst l) (snd l) H1 H2) as Hb. rewrite bucket_run_app in Hr.
    destruct (bucket_run (Flood.new_bucket (fst l) (snd l)) before) as [b1|] eqn:E1; [|discriminate]. cbn [mbind option_bind] in Hr.
    destruct (bucket_run_credit before _ b1 Hb E1) as (Hb1 & Ec & Es & _).
    rewrite bucket_run_app in Hr.
    destruct (bucket_run b1 (first :: events ++ [now])) as [b2|] eqn:E2; [|discriminate].
    pose proof (bucket_run_bound b1 first events now b2 Hb1 E2) as H. rewrite Ec, Es in H.
    cbn [Flood.new_bucket Flood.max_capacity Flood.speed] in H. lra.
  - exists (replicate 20 1000%Q ++ ((fun i => 1000 + 3 * inject_Z (Z.of_nat i))%Q <$> seq 1 20)).
    split; [done|]. split.
    + apply Forall_app. split; [by apply Forall_replicate|]. apply Forall_fmap, Forall_forall. intros i Hi%elem_of_seq.
      cbn. assert (0 <= inject_Z (Z.of_nat i) <= 20)%Q; [|lra].
      change 0%Q with (inject_Z 0). change 20%Q with (inject_Z 20). rewrite <- !Zle_Qle. lia.
    + vm_compute. by eexists.
Qed.

Lemma flood_rate_witness : flood_ok (with_limits [(60, 20); (3600, 600)]%Q) 0.
Proof. apply flood_rate. repeat (apply Forall_cons; split; [split; cbn; lra|]). apply Forall_nil. exact I. Defined.

(** *** Queues in vectors *)

Import VectorQueue VectorQueueFacts.

(** A queue in a vector behaves as the list of its elements: [push] appends,
    [pop] and [pop_n] remove from the front, and shrinking the vector changes
    nothing.  [pop_rand], which picks a slot counted from the start of the vector
    instead of from the first element, does not: it can return an element that
    was popped before, and lose one that was not. *)
Theorem vector_queue_fifo (T : Type) (q : vector_queue T) (x : T) (n : nat) : queue_ok q ->
  (len (as_span q) < 2 ^ 62 -> queue_ok (push q x) /\ as_span (push q x) = as_span q ++ [x])
  /\ size q = len (as_span q) /\ (VectorQueue.empty q = true <-> as_span q = []) /\ front q = head (as_span q)
  /\ match as_span q with
     | [] => pop q = None
     | y :: l => exists q', pop q = Some (y, q') /\ queue_ok q' /\ as_span q' = l
     end
  /\ ((n <= length (as_span q))%nat -> exists q', pop_n q n = Some q' /\ queue_ok q' /\ as_span q' = drop n (as_span q))
  /\ exists q0 q1 : vector_queue Z, queue_ok q0 /\ as_span q0 = [2; 3] /\ pop_rand q0 0 = Some (1, q1) /\ as_span q1 = [3].
Proof.
  intros H. split; [intros Hl; split; [by apply vector_push_ok|by apply push_span]|]. split; [by apply size_span|].
  split; [by apply empty_span|]. split; [apply front_span|]. split.
  - destruct (as_span q) as [|y l] eqn:E; [by apply pop_empty|]. by apply vector_pop_ok.
  - split; [by apply pop_n_ok|]. exists (mk_vector_queue [1; 2; 3] 1). eexists. split; [split; [cbn; lia|]; split; [cbn; lia|done]|].
    split; [done|]. split; [reflexivity|]. reflexivity.
Qed.

Lemma vector_queue_fifo_witness : exists q', pop (push (mk_vector_queue [1; 2] 1) 3) = Some (2, q') /\ as_span q' = [3].
Proof.
  destruct (vector_queue_fifo Z (push (mk_vector_queue [1; 2] 1) 3) 0 0) as (_ & _ & _ & _ & H & _); [split; [cbn; lia|]; split; [cbn; lia|done]|].
  cbn in H. destruct H as (q' & E & _ & Es). by exists q'.
Defined.
