(* ===== verification/TQueue.v ===== *)
(** * The persistent queues of updates ([TQueue.h], [TQueue.cpp])

    Module [Queues]: the identifiers of events, the storage interface that
    receives every change ([StorageCallback]) with the storage in memory as its
    instance, the queues with their garbage collection, and the replay of a
    storage into new queues. *)

From S2P Require Import Prelude.

Module Queues.

(** ** Identifiers of events: [TQueue::EventId] *)

Definition MAX_ID : Z := 2000000000.

Definition is_valid_id (id : Z) : bool := (0 <=? id) && (id <? MAX_ID).

Definition from_int32 (id : Z) : result Z := if is_valid_id id then Ok id else Err (Status 0 (lit "Invalid ID")).

Definition is_empty (id : Z) : bool := id =? 0.
Definition is_valid (id : Z) : bool := negb (is_empty id) && is_valid_id id.
Definition next (id : Z) : result Z := from_int32 (id + 1).

(** [narrow_cast_safe<int32>(id_ + offset)], where [offset] is a [size_t]. *)
Definition advance (id offset : Z) : result Z :=
  let new_id := wrap 64 (id + offset) in
  if new_id <=? int32_max then from_int32 new_id else Err (Status 0 (lit "Narrow cast failed")).

(** [Result::ok()] and [Result::move_as_ok()]: an error is a failed check. *)
Definition ok_value {A} (r : result A) : option A := match r with Ok a => Some a | Err _ => None end.

(** ** Events and their storage *)

Record event := mk_event { ev_id : Z; ev_expires_at : Z; ev_data : bytes; ev_extra : Z }.
#[export] Instance event_eq_dec : EqDecision event.
Proof. solve_decision. Defined.

Record raw_event := mk_raw { log_event_id : Z; event_id : Z; expires_at : Z; data : bytes; extra : Z }.

Definition with_log_event_id (e : raw_event) (id : Z) : raw_event :=
  mk_raw id (event_id e) (expires_at e) (data e) (extra e).
Definition without_data (e : raw_event) : raw_event :=
  mk_raw (log_event_id e) (event_id e) (expires_at e) [] (extra e).

(** [TQueue::StorageCallback]: [push] returns the identifier of the record it
    has made, or rewritten when the event already has one; the records are
    replayed in the order of their identifiers. *)
Class storage_ops (St : Type) := {
  storage_push : St -> Z -> raw_event -> Z * St;
  storage_pop : St -> Z -> St;
  storage_records : St -> list (Z * (Z * raw_event)) }.

Definition storage_pop_batch `{storage_ops St} (s : St) (ids : list Z) : St := foldl storage_pop s ids.

(** [TQueueMemoryStorage]: the map is the list of its entries in the order of
    their keys. *)
Record memory_storage := mk_memory { next_log_event_id : Z; stored_events : list (Z * (Z * raw_event)) }.

Definition new_memory_storage : memory_storage := mk_memory 1 [].

(** [events_[id] = value] *)
Fixpoint map_assign {A} (id : Z) (value : A) (l : list (Z * A)) : list (Z * A) :=
  match l with
  | [] => [(id, value)]
  | (i, v) :: l =>
    if id <? i then (id, value) :: (i, v) :: l
    else if id =? i then (id, value) :: l
    else (i, v) :: map_assign id value l
  end.

#[export] Instance memory_storage_ops : storage_ops memory_storage := {
  storage_push s queue_id e :=
    let '(id, n) :=
      if log_event_id e =? 0 then (next_log_event_id s, wrap 64 (next_log_event_id s + 1))
      else (log_event_id e, next_log_event_id s) in
    (id, mk_memory n (map_assign id (queue_id, e) (stored_events s)));
  storage_pop s id := mk_memory (next_log_event_id s) (List.filter (fun x => negb (fst x =? id)) (stored_events s));
  storage_records := stored_events }.

(** ** The queues: [TQueueImpl] *)

Definition MAX_EVENT_LENGTH : Z := 65536 * 8.
Definition MAX_QUEUE_EVENTS : Z := 100000.
Definition MAX_TOTAL_EVENT_LENGTH : Z := Z.shiftl 1 27.

(** The map [events] is the list of its events in the order of their
    identifiers. *)
Record queue := mk_queue { tail_id : Z; events : list raw_event; total_event_length : Z; gc_at : Z }.

Definition empty_queue : queue := mk_queue 0 [] 0 0.

Definition set_events (q : queue) (l : list raw_event) (total : Z) : queue := mk_queue (tail_id q) l total (gc_at q).

(** [events.emplace(event_id, event)] *)
Fixpoint emplace (e : raw_event) (l : list raw_event) : list raw_event :=
  match l with
  | [] => [e]
  | x :: l' =>
    if event_id e <? event_id x then e :: l
    else if event_id e =? event_id x then l
    else x :: emplace e l'
  end.

(** [std::set<std::pair<int32, QueueId>>], in order. *)
Definition gc_less (a b : Z * Z) : bool := (a.1 <? b.1) || ((a.1 =? b.1) && (a.2 <? b.2)).

Fixpoint gc_emplace (a : Z * Z) (l : list (Z * Z)) : bool * list (Z * Z) :=
  match l with
  | [] => (true, [a])
  | b :: l' =>
    if gc_less a b then (true, a :: l)
    else if gc_less b a then let '(inserted, l') := gc_emplace a l' in (inserted, b :: l')
    else (false, l)
  end.

Definition gc_erase (a : Z * Z) (l : list (Z * Z)) : bool * list (Z * Z) :=
  (bool_decide (a ∈ l), List.filter (fun b => negb (bool_decide (b = a))) l).

(** What is left of a number of bytes, as a [size_t]. *)
Definition less (total size : Z) : Z := wrap 64 (total - size).

Section Impl.
Context {St : Type} `{!storage_ops St}.

Record tqueue := mk_tqueue { queues : gmap Z queue; queue_gc_at : list (Z * Z); callback : option St }.

Definition create : tqueue := mk_tqueue ∅ [] None.

Definition set_callback (t : tqueue) (s : St) : tqueue := mk_tqueue (queues t) (queue_gc_at t) (Some s).
Definition extract_callback (t : tqueue) : option St * tqueue := (callback t, mk_tqueue (queues t) (queue_gc_at t) None).

(** [queues_[queue_id]] makes the queue when it is not there. *)
Definition get_queue (t : tqueue) (queue_id : Z) : queue := default empty_queue (queues t !! queue_id).
Definition set_queue (t : tqueue) (queue_id : Z) (q : queue) : tqueue :=
  mk_tqueue (<[queue_id := q]> (queues t)) (queue_gc_at t) (callback t).

Definition get_queue_head (q : queue) : Z := match events q with [] => tail_id q | e :: _ => event_id e end.

Definition size_of (q : queue) : Z :=
  match last (events q) with
  | None => 0
  | Some e => len (events q) - (if bool_decide (data e = []) then 1 else 0)
  end.

(** [schedule_queue_gc]: the queue and the set with the new time; [None] is a
    failed check. *)
Definition schedule_queue_gc (queue_id : Z) (q : queue) (set : list (Z * Z)) (at_ : Z) : option (queue * list (Z * Z)) :=
  set ← (if gc_at q =? 0 then Some set
         else let '(is_deleted, set) := gc_erase (gc_at q, queue_id) set in if is_deleted : bool then Some set else None);
  let q := mk_queue (tail_id q) (events q) (total_event_length q) at_ in
  if at_ =? 0 then Some (q, set)
  else let '(is_inserted, set) := gc_emplace (at_, queue_id) set in if is_inserted : bool then Some (q, set) else None.

(** The event at the end whose data has been dropped gives way to the next one. *)
Definition drop_empty_last (q : queue) (s : option St) : queue * option St :=
  match last (events q) with
  | Some e =>
    if bool_decide (data e = []) then
      (set_events q (removelast (events q)) (total_event_length q),
       if log_event_id e =? 0 then s else (fun s => storage_pop s (log_event_id e)) <$> s)
    else (q, s)
  | None => (q, s)
  end.

Definition do_push (t : tqueue) (queue_id : Z) (e : raw_event) : option (bool * tqueue) :=
  if negb (is_valid (event_id e)) then None
  else if (MAX_EVENT_LENGTH <? len (data e)) || (queue_id =? 0) then Some (false, t)
  else
    let q := get_queue t queue_id in
    let t := set_queue t queue_id q in
    if (MAX_QUEUE_EVENTS <=? len (events q)) || (MAX_TOTAL_EVENT_LENGTH - len (data e) <? total_event_length q)
       || (expires_at e <=? 0) then Some (false, t)
    else if event_id e <? tail_id q then Some (false, t)
    else
      let '(q, s) := drop_empty_last q (callback t) in
      '(q, set) ← (if bool_decide (events q = []) && negb (bool_decide (data e = []))
                   then schedule_queue_gc queue_id q (queue_gc_at t) (expires_at e)
                   else Some (q, queue_gc_at t));
      let '(e, s) :=
        match s with
        | Some st =>
          if log_event_id e =? 0 then
            let '(id, st) := storage_push st queue_id e in (with_log_event_id e id, Some st)
          else (e, s)
        | None => (e, s)
        end in
      tail ← ok_value (next (event_id e));
      let q := mk_queue tail (emplace e (events q)) (wrap 64 (total_event_length q + len (data e))) (gc_at q) in
      Some (true, mk_tqueue (<[queue_id := q]> (queues t)) set s).

(** [pop]: what becomes of the event, and the storage.  The total loses the size
    of its data in every case. *)
Definition pop (queue_id tail : Z) (e : raw_event) (s : option St) : option (list raw_event * option St) :=
  match s with
  | None => Some ([], s)
  | Some st =>
    if log_event_id e =? 0 then Some ([], s)
    else
      id ← ok_value (next (event_id e));
      if id =? tail then
        if bool_decide (data e = []) then Some ([e], s)
        else
          let e := without_data e in
          Some ([e], Some (storage_push st queue_id e).2)
      else Some ([], Some (storage_pop st (log_event_id e)))
  end.

(** [pop] of every event of a list. *)
Fixpoint pop_list (queue_id tail : Z) (l : list raw_event) (s : option St) (total : Z)
  : option (list raw_event * option St * Z) :=
  match l with
  | [] => Some ([], s, total)
  | e :: l =>
    '(r, s) ← pop queue_id tail e s;
    '(l, s, total) ← pop_list queue_id tail l s (less total (len (data e)));
    Some (r ++ l, s, total)
  end.

(** *** New events *)

(** The loop of [push] that chooses the identifier; [random] is the value of
    [Random::fast]. *)
Fixpoint new_event_id (fuel : nat) (queue_id random hint_new_id : Z) (q : queue) (s : option St)
  : option (Z * queue * option St) :=
  match fuel with
  | O => None
  | S fuel =>
    tail ← (if is_empty (tail_id q) then
              if is_empty hint_new_id then ok_value (from_int32 random) else Some hint_new_id
            else Some (tail_id q));
    let q := mk_queue tail (events q) (total_event_length q) (gc_at q) in
    if negb (is_valid tail) then None
    else if is_ok (next tail) then Some (tail, q, s)
    else
      '(l, s, total) ← pop_list queue_id 0 (events q) s (total_event_length q);
      if is_ok (next hint_new_id) then new_event_id fuel queue_id random hint_new_id (mk_queue 0 l total (gc_at q)) s
      else None
  end.

Definition push (t : tqueue) (queue_id : Z) (data : bytes) (expires_at extra hint_new_id random : Z)
  : option (result Z * tqueue) :=
  let fail t message := Some (Err (Status 0 (lit message)), t) in
  if bool_decide (data = []) then fail t "Data is empty"
  else if MAX_EVENT_LENGTH <? len data then fail t "Data is too big"
  else if queue_id =? 0 then fail t "Queue identifier is invalid"
  else
    let q := get_queue t queue_id in
    let t := set_queue t queue_id q in
    if MAX_QUEUE_EVENTS <=? len (events q) then fail t "Queue is full"
    else if MAX_TOTAL_EVENT_LENGTH - len data <? total_event_length q then fail t "Queue size is too big"
    else if expires_at <=? 0 then fail t "Failed to add already expired event"
    else
      '(id, q, s) ← new_event_id 2 queue_id random hint_new_id q (callback t);
      let t := mk_tqueue (<[queue_id := q]> (queues t)) (queue_gc_at t) s in
      '(is_added, t) ← do_push t queue_id (mk_raw 0 id expires_at data extra);
      if is_added : bool then Some (Ok id, t) else None.

(** *** Reading and forgetting *)

Definition get_head (t : tqueue) (queue_id : Z) : Z :=
  match queues t !! queue_id with None => 0 | Some q => get_queue_head q end.
Definition get_tail (t : tqueue) (queue_id : Z) : Z :=
  match queues t !! queue_id with None => 0 | Some q => tail_id q end.
Definition get_size (t : tqueue) (queue_id : Z) : Z :=
  match queues t !! queue_id with None => 0 | Some q => size_of q end.

(** The events before the one with an identifier, that event and those after it. *)
Fixpoint find_event (id : Z) (l : list raw_event) : option (list raw_event * raw_event * list raw_event) :=
  match l with
  | [] => None
  | e :: l =>
    if event_id e =? id then Some ([], e, l)
    else match find_event id l with Some (a, x, b) => Some (e :: a, x, b) | None => None end
  end.

Definition forget (t : tqueue) (queue_id id : Z) : option tqueue :=
  match queues t !! queue_id with
  | None => Some t
  | Some q =>
    match find_event id (events q) with
    | None => Some t
    | Some (a, e, b) =>
      '(r, s) ← pop queue_id (tail_id q) e (callback t);
      let q := set_events q (a ++ r ++ b) (less (total_event_length q) (len (data e))) in
      Some (mk_tqueue (<[queue_id := q]> (queues t)) (queue_gc_at t) s)
    end
  end.

(** The events before an identifier ([lower_bound]), and the others. *)
Fixpoint split_at (id : Z) (l : list raw_event) : list raw_event * list raw_event :=
  match l with
  | [] => ([], [])
  | e :: l' => if event_id e <? id then let '(a, b) := split_at id l' in (e :: a, b) else ([], l)
  end.

Definition to_event (e : raw_event) : event := mk_event (event_id e) (expires_at e) (data e) (extra e).

(** The loop of [do_get]: at most [n] events, and what is left of the queue. *)
Fixpoint collect (queue_id tail unix_time_now : Z) (n : nat) (l : list raw_event) (s : option St) (total : Z)
  : option (list event * list raw_event * option St * Z) :=
  match l with
  | [] => Some ([], [], s, total)
  | e :: l' =>
    if (expires_at e <? unix_time_now) || bool_decide (data e = []) then
      '(r, s) ← pop queue_id tail e s;
      '(res, l', s, total) ← collect queue_id tail unix_time_now n l' s (less total (len (data e)));
      Some (res, r ++ l', s, total)
    else
      match n with
      | O => Some ([], l, s, total)
      | S n =>
        '(res, l', s, total) ← collect queue_id tail unix_time_now n l' s total;
        Some (to_event e :: res, e :: l', s, total)
      end
  end.

Definition do_get (queue_id : Z) (q : queue) (s : option St) (from_id : Z) (forget_previous : bool) (unix_time_now : Z)
    (n : nat) : option (list event * queue * option St) :=
  '(q, s) ← (if forget_previous then
               let '(a, b) := split_at from_id (events q) in
               '(a, s, total) ← pop_list queue_id (tail_id q) a s (total_event_length q);
               Some (set_events q (a ++ b) total, s)
             else Some (q, s));
  let '(a, b) := split_at from_id (events q) in
  '(res, b, s, total) ← collect queue_id (tail_id q) unix_time_now n b s (total_event_length q);
  Some (res, set_events q (a ++ b) total, s).

(** [n] is the size of the span of results. *)
Definition get (t : tqueue) (queue_id from_id : Z) (forget_previous : bool) (unix_time_now : Z) (n : nat)
  : option (result Z * list event * tqueue) :=
  match queues t !! queue_id with
  | None => Some (Ok 0, [], t)
  | Some q =>
    if tail_id q + 10 <? from_id then Some (Err (Status 0 (lit "Specified from_id is in the future")), [], t)
    else if from_id <? get_queue_head q - MAX_QUEUE_EVENTS then
      Some (Err (Status 0 (lit "Specified from_id is in the past")), [], t)
    else
      '(res, q, s) ← do_get queue_id q (callback t) from_id forget_previous unix_time_now n;
      Some (Ok (size_of q), res, mk_tqueue (<[queue_id := q]> (queues t)) (queue_gc_at t) s)
  end.

(** *** Clearing *)

Definition sum_length (l : list raw_event) : Z := foldr (fun e n => len (data e) + n) 0 l.

(** The last event when it is to keep the identifiers of the queue: how many
    events go, the queue and the storage. *)
Definition clear_last (queue_id : Z) (q : queue) (s : option St) : nat * queue * option St :=
  let n := length (events q) in
  match s, last (events q) with
  | Some st, Some e =>
    if log_event_id e =? 0 then (n, q, s)
    else if bool_decide (data e = []) then ((n - 1)%nat, q, s)
    else
      ((n - 1)%nat, set_events q (removelast (events q) ++ [without_data e]) (less (total_event_length q) (len (data e))),
       Some (storage_push st queue_id (without_data e)).2)
  | _, _ => (n, q, s)
  end.

Definition clear (t : tqueue) (queue_id keep_count : Z) : list raw_event * tqueue :=
  match queues t !! queue_id with
  | None => ([], t)
  | Some q =>
    let size := size_of q in
    if size <=? keep_count then ([], t)
    else
      let '(n, q, s) :=
        if keep_count =? 0 then clear_last queue_id q (callback t)
        else ((length (events q) - Z.to_nat keep_count)%nat, q, callback t) in
      let deleted := take n (events q) in
      let kept := drop n (events q) in
      let s :=
        (fun st => storage_pop_batch st (List.filter (fun id => negb (id =? 0)) (log_event_id <$> deleted))) <$> s in
      let total :=
        if size / 2 <? keep_count then foldl (fun total e => less total (len (data e))) (total_event_length q) deleted
        else sum_length kept in
      (deleted, mk_tqueue (<[queue_id := set_events q kept total]> (queues t)) (queue_gc_at t) s)
  end.

(** *** Garbage collection *)

(** [late i] is the answer of the [i]-th comparison of the clock with the
    deadline. *)
Context (late : nat -> bool).

(** The loop over the events of a queue: what is left, the storage, the total,
    [new_gc_at], and the two counters. *)
Fixpoint gc_events (queue_id tail unix_time_now : Z) (l : list raw_event) (s : option St) (total new_gc_at counter : Z)
    (i : nat) : option (list raw_event * option St * Z * Z * Z * nat) :=
  match l with
  | [] => Some ([], s, total, new_gc_at, counter, i)
  | e :: l' =>
    let counter := counter + 1 in
    let asks := Z.land counter 128 =? 0 in
    if asks && late i then
      Some (l, s, total, (if new_gc_at =? 0 then expires_at e else new_gc_at), counter, S i)
    else
      let i := if asks then S i else i in
      if (expires_at e <? unix_time_now) || bool_decide (data e = []) then
        '(r, s) ← pop queue_id tail e s;
        '(l', s, total, new_gc_at, counter, i) ←
          gc_events queue_id tail unix_time_now l' s (less total (len (data e))) new_gc_at counter i;
        Some (r ++ l', s, total, new_gc_at, counter, i)
      else if negb (new_gc_at =? 0) then Some (l, s, total, new_gc_at, counter, i)
      else
        '(l', s, total, new_gc_at, counter, i) ←
          gc_events queue_id tail unix_time_now l' s total (expires_at e) counter i;
        Some (e :: l', s, total, new_gc_at, counter, i)
  end.

Fixpoint gc_loop (fuel : nat) (t : tqueue) (unix_time_now deleted_events counter : Z) (i : nat)
  : option (Z * bool * tqueue) :=
  match queue_gc_at t with
  | [] => Some (deleted_events, true, t)
  | (at_, queue_id) :: _ =>
    if unix_time_now <=? at_ then Some (deleted_events, true, t)
    else
      match fuel with
      | O => None
      | S fuel =>
        let q := get_queue t queue_id in
        if negb (gc_at q =? at_) then None
        else
          '(l, s, total, new_gc_at, counter, i) ←
            gc_events queue_id (tail_id q) unix_time_now (events q) (callback t) (total_event_length q) 0 counter i;
          let size_before := size_of q in
          let q := set_events q l total in
          if size_before <? size_of q then None
          else
            let deleted_events := deleted_events + (size_before - size_of q) in
            '(q, set) ← schedule_queue_gc queue_id q (queue_gc_at t) new_gc_at;
            let t := mk_tqueue (<[queue_id := q]> (queues t)) set s in
            if late i then Some (deleted_events, false, t)
            else gc_loop fuel t unix_time_now deleted_events counter (S i)
      end
  end.

(** A queue is visited again only when the deadline has passed. *)
Definition run_gc (t : tqueue) (unix_time_now : Z) : option (Z * bool * tqueue) :=
  gc_loop (length (queue_gc_at t)) t unix_time_now 0 0 0.

Definition close (t : tqueue) : tqueue := mk_tqueue (queues t) (queue_gc_at t) None.

(** *** Replay *)

(** [TQueueMemoryStorage::replay] *)
Fixpoint replay (records : list (Z * (Z * raw_event))) (t : tqueue) : option tqueue :=
  match records with
  | [] => Some t
  | (id, (queue_id, e)) :: records =>
    '(is_added, t) ← do_push t queue_id (with_log_event_id e id);
    if is_added : bool then replay records t else None
  end.

(** The start of the server ([ClientManager::start_up]): the records that cannot
    be replayed are erased from the storage, which then serves the queues. *)
Definition replay_record (t : tqueue) (id queue_id : Z) (e : raw_event) : option (bool * tqueue) :=
  match from_int32 (event_id e) with
  | Err _ => Some (false, t)
  | Ok _ => do_push t queue_id (with_log_event_id e id)
  end.

Fixpoint load (records : list (Z * (Z * raw_event))) (t : tqueue) (failed : list Z) : option (list Z * tqueue) :=
  match records with
  | [] => Some (failed, t)
  | (id, (queue_id, e)) :: records =>
    '(is_added, t) ← replay_record t id queue_id e;
    load records t (if is_added : bool then failed else failed ++ [id])
  end.

Definition restart (t : tqueue) : option tqueue :=
  match callback t with
  | None => Some create
  | Some st =>
    '(failed, t) ← load (storage_records st) create [];
    Some (set_callback t (foldl storage_pop st failed))
  end.

End Impl.
Arguments tqueue : clear implicits.

End Queues.

(** ** Facts *)

Import Queues.

(** *** What the queues rely on a storage for *)

(** A storage keeps its records in the order of their identifiers: a new one
    comes last, a rewritten one keeps its place, and a popped one is gone.
    [room] says that identifiers are left. *)
Class storage_laws (St : Type) `{!storage_ops St} := {
  valid : St -> Prop;
  room : St -> Prop;
  records_sorted s : valid s -> StronglySorted Z.lt (storage_records s).*1;
  records_pos s : valid s -> Forall (fun x => 0 < x.1) (storage_records s);
  push_new s q e : valid s -> room s -> log_event_id e = 0 ->
    let '(id, s') := storage_push s q e in
    0 < id /\ valid s' /\ storage_records s' = storage_records s ++ [(id, (q, e))];
  push_old s q e : valid s -> log_event_id e ∈ (storage_records s).*1 ->
    let s' := (storage_push s q e).2 in
    valid s' /\ (room s -> room s') /\ storage_records s'
      = (fun x => if x.1 =? log_event_id e then (log_event_id e, (q, e)) else x) <$> storage_records s;
  pop_record s id : valid s ->
    valid (storage_pop s id) /\ (room s -> room (storage_pop s id))
    /\ storage_records (storage_pop s id) = List.filter (fun x => negb (x.1 =? id)) (storage_records s) }.

(** *** The storage in memory *)

Lemma map_assign_last {A} id (v : A) l : Forall (fun x => x.1 < id) l -> map_assign id v l = l ++ [(id, v)].
Proof.
  induction 1 as [|[i w] l H _ IH]; cbn in *; [done|]. rewrite ltb_false by lia. destruct (Z.eqb_spec id i); [lia|]. by rewrite IH.
Qed.

Lemma map_assign_there {A} id (v : A) l : StronglySorted Z.lt l.*1 -> id ∈ l.*1 ->
  map_assign id v l = (fun x => if x.1 =? id then (id, v) else x) <$> l.
Proof.
  induction l as [|[i w] l IH]; cbn; [intros _ H; by apply not_elem_of_nil in H|].
  intros [Hs Hi]%StronglySorted_inv Hin.
  assert (Hne : i <> id -> id ∈ l.*1) by (intros; apply elem_of_cons in Hin as []; [congruence|done]).
  destruct (Z.ltb_spec id i).
  - rewrite Forall_forall in Hi. specialize (Hi id (Hne ltac:(lia))). lia.
  - destruct (Z.eqb_spec id i) as [->|Hd].
    + rewrite Z.eqb_refl. f_equal. rewrite <-(map_id l) at 1. apply map_ext_in. intros x Hx%list_elem_of_In.
      rewrite Forall_forall in Hi. specialize (Hi x.1 ltac:(apply list_elem_of_fmap; eauto)).
      destruct (Z.eqb_spec x.1 i); [lia|done].
    + rewrite (proj2 (Z.eqb_neq i id)) by congruence. f_equal. apply IH; [done|]. apply Hne. congruence.
Qed.

Lemma sorted_filter {A} (R : A -> A -> Prop) (f : A -> bool) l : StronglySorted R l -> StronglySorted R (List.filter f l).
Proof.
  induction 1 as [|x l _ IH H]; cbn; [constructor|]. case_match; [|done]. constructor; [done|].
  rewrite Forall_forall in *. intros y Hy. apply H. apply list_elem_of_In in Hy. apply filter_In in Hy as [Hy _]. by apply list_elem_of_In.
Qed.

Lemma Forall_filter {A} (P : A -> Prop) (f : A -> bool) l : Forall P l -> Forall P (List.filter f l).
Proof. induction 1; cbn; [constructor|]. case_match; by try constructor. Qed.

Lemma fst_filter {B} (g : Z -> bool) (l : list (Z * B)) : (List.filter (fun x => g x.1) l).*1 = List.filter g l.*1.
Proof. induction l as [|x l IH]; cbn; [done|]. case_match; cbn; by rewrite ?IH. Qed.

Definition memory_valid (s : memory_storage) : Prop :=
  0 < next_log_event_id s /\ StronglySorted Z.lt (stored_events s).*1
  /\ Forall (fun x => 0 < x.1 < next_log_event_id s) (stored_events s).

#[export] Instance memory_storage_laws : storage_laws memory_storage.
Proof.
  refine {| valid := memory_valid; room s := next_log_event_id s < uint64_max |}.
  - by intros s (_ & H & _).
  - intros s (_ & _ & H). eapply Forall_impl; [exact H|]. cbn. lia.
  - intros s q e (H1 & H2 & H3) Hr He. cbn. rewrite He, Z.eqb_refl. cbn [stored_events next_log_event_id].
    unfold uint64_max in Hr. rewrite wrap_small by lia.
    rewrite map_assign_last by (eapply Forall_impl; [exact H3|]; cbn; lia).
    repeat split; try done; cbn; try lia.
    + rewrite fmap_app. apply StronglySorted_app_2; [|done|by repeat constructor]. cbn. intros x y Hx Hy.
      apply list_elem_of_singleton in Hy as ->. apply list_elem_of_fmap in Hx as (z & -> & Hz).
      rewrite Forall_forall in H3. specialize (H3 _ Hz). lia.
    + apply Forall_app. split; [|repeat constructor; cbn; lia]. eapply Forall_impl; [exact H3|]. cbn. lia.
  - intros s q e (H1 & H2 & H3) Hin. cbn.
    assert (H0 : log_event_id e <> 0).
    { apply list_elem_of_fmap in Hin as (x & Hx & Hin). rewrite Forall_forall in H3. specialize (H3 _ Hin). lia. }
    rewrite (proj2 (Z.eqb_neq _ _) H0). cbn. rewrite map_assign_there by done. split; [|split; done].
    assert (((fun x => if x.1 =? log_event_id e then (log_event_id e, (q, e)) else x) <$> stored_events s).*1 = (stored_events s).*1) as E.
    { rewrite <-list_fmap_compose. apply list_fmap_ext. intros i x _. cbn. by destruct (Z.eqb_spec x.1 (log_event_id e)). }
    repeat split; cbn; [done|by rewrite E|]. apply Forall_fmap. eapply Forall_impl; [exact H3|]. intros x Hx. unfold compose; cbn in *.
    destruct (Z.eqb_spec x.1 (log_event_id e)); cbn; lia.
  - intros s id (H1 & H2 & H3). split; [|split; done]. repeat split; cbn; [done| |by apply Forall_filter].
    rewrite (fst_filter (fun i => negb (i =? id))). by apply sorted_filter.
Defined.

(** *** The events of a queue in a storage *)

Definition of_queue (queue_id : Z) (l : list (Z * (Z * raw_event))) : list raw_event :=
  omap (fun x => if x.2.1 =? queue_id then Some (with_log_event_id x.2.2 x.1) else None) l.

Lemma of_queue_app q l k : of_queue q (l ++ k) = of_queue q l ++ of_queue q k.
Proof. apply omap_app. Qed.

Lemma of_queue_cons q id q' e l :
  of_queue q ((id, (q', e)) :: l) = (if q' =? q then [with_log_event_id e id] else []) ++ of_queue q l.
Proof. unfold of_queue. cbn. by destruct (_ =? _). Qed.

Lemma elem_of_queue q l e : e ∈ of_queue q l -> exists e', (log_event_id e, (q, e')) ∈ l /\ e = with_log_event_id e' (log_event_id e).
Proof.
  intros ([i [q' e']] & Hin & He)%list_elem_of_omap. cbn in He. destruct (Z.eqb_spec q' q) as [->|]; [|done]. injection He as <-. eauto.
Qed.

Lemma log_in_records q l e : e ∈ of_queue q l -> log_event_id e ∈ l.*1.
Proof. intros (e' & H & _)%elem_of_queue. apply list_elem_of_fmap. by exists (log_event_id e, (q, e')). Qed.

(** A record belongs to one queue only. *)
Lemma sorted_unique {B} (l : list (Z * B)) i x y : StronglySorted Z.lt l.*1 -> (i, x) ∈ l -> (i, y) ∈ l -> x = y.
Proof.
  induction l as [|[j z] l IH]; [intros _ H; by apply not_elem_of_nil in H|].
  intros [Hs Hj]%StronglySorted_inv [Hx|Hx]%elem_of_cons [Hy|Hy]%elem_of_cons; simplify_eq/=; auto;
    rewrite Forall_forall in Hj; (assert (j < j); [|lia]); apply Hj, list_elem_of_fmap; by eexists (_, _).
Qed.

Lemma of_queue_other q q' l e f : StronglySorted Z.lt l.*1 -> e ∈ of_queue q l -> q' <> q -> f ∈ of_queue q' l ->
  log_event_id f <> log_event_id e.
Proof.
  intros Hs (e1 & H1 & _)%elem_of_queue Hq (f1 & H2 & _)%elem_of_queue E. rewrite E in H2.
  pose proof (sorted_unique _ _ _ _ Hs H1 H2). by simplify_eq.
Qed.

Lemma of_queue_logs q l : StronglySorted Z.lt l.*1 -> StronglySorted Z.lt (log_event_id <$> of_queue q l).
Proof.
  induction l as [|[i [q' e]] l IH]; cbn; [constructor|]. intros [Hs Hi]%StronglySorted_inv.
  destruct (Z.eqb_spec q' q) as [->|]; cbn; [|by apply IH]. constructor; [by apply IH|].
  rewrite Forall_forall in *. intros z (f & -> & Hf)%list_elem_of_fmap. apply Hi. by apply (log_in_records q).
Qed.

Lemma of_queue_filter q l id : of_queue q (List.filter (fun x => negb (x.1 =? id)) l)
  = List.filter (fun e => negb (log_event_id e =? id)) (of_queue q l).
Proof.
  induction l as [|[i [q' e]] l IH]; [done|]. rewrite of_queue_cons, List.filter_app. cbn [List.filter fst].
  destruct (i =? id) eqn:Ei; cbn [negb]; rewrite ?of_queue_cons, IH; destruct (q' =? q); cbn; by rewrite ?Ei.
Qed.

Lemma of_queue_rewrite q q' id e l : (forall f, (id, f) ∈ l -> f.1 = q') ->
  of_queue q ((fun x => if x.1 =? id then (id, (q', e)) else x) <$> l)
  = if q' =? q then (fun f => if log_event_id f =? id then with_log_event_id e id else f) <$> of_queue q l else of_queue q l.
Proof.
  induction l as [|[i [q2 f]] l IH]; intros H; [by destruct (_ =? _)|].
  assert (IH' := IH ltac:(intros; apply H; by apply elem_of_cons; right)). clear IH.
  rewrite fmap_cons, of_queue_cons, fmap_app. cbn [fst snd]. destruct (Z.eqb_spec i id) as [->|Hi].
  - specialize (H (q2, f) ltac:(by apply elem_of_cons; left)). cbn in H. subst q2. rewrite of_queue_cons, IH'.
    destruct (Z.eqb_spec q' q) as [->|]; [|done]. cbn. by rewrite Z.eqb_refl.
  - rewrite of_queue_cons, IH'. destruct (q' =? q); [|done]. f_equal. destruct (q2 =? q); [|done]. cbn.
    by rewrite (proj2 (Z.eqb_neq _ _) Hi).
Qed.

Lemma filter_all {A} (f : A -> bool) (l : list A) : (forall x, x ∈ l -> f x = true) -> List.filter f l = l.
Proof.
  induction l as [|x l IH]; cbn; [done|]. intros H. rewrite (H x) by (by apply elem_of_cons; left).
  f_equal. apply IH. intros y Hy. apply H. by apply elem_of_cons; right.
Qed.

Lemma fmap_all {A} (f : A -> A) (l : list A) : (forall x, x ∈ l -> f x = x) -> f <$> l = l.
Proof.
  induction l as [|x l IH]; cbn; [done|]. intros H. f_equal; [by apply H, elem_of_cons; left|].
  apply IH. intros y Hy. apply H. by apply elem_of_cons; right.
Qed.

(** The other identifiers around one of a sorted list. *)
Lemma sorted_around (l k : list raw_event) e x : StronglySorted Z.lt (log_event_id <$> (l ++ e :: k)) -> x ∈ l ++ k ->
  log_event_id x <> log_event_id e.
Proof.
  rewrite fmap_app. intros Hs Hx. apply StronglySorted_app in Hs as (H1 & _ & H2).
  apply elem_of_app in Hx as [Hx|Hx].
  - assert (log_event_id x < log_event_id e); [|lia].
    apply H1; [by apply list_elem_of_fmap_2|cbn; by apply elem_of_cons; left].
  - cbn in H2. apply StronglySorted_inv in H2 as [_ H2]. rewrite Forall_forall in H2.
    assert (log_event_id e < log_event_id x); [|lia]. apply H2. by apply list_elem_of_fmap_2.
Qed.

(** *** What popping does *)

Definition stores {St} (s : option St) : bool := match s with Some _ => true | None => false end.

(** What becomes of a popped event: with a storage, the last identifier of a
    queue is remembered by an event without data. *)
Definition after (cb : bool) (tail : Z) (e : raw_event) : list raw_event :=
  if cb && (event_id e + 1 =? tail) then [without_data e] else [].

(** A list of events of which some have been popped. *)
Inductive trim (cb : bool) (tail : Z) (p : raw_event -> Prop) : list raw_event -> list raw_event -> Prop :=
| trim_nil : trim cb tail p [] []
| trim_keep e l l' : trim cb tail p l l' -> trim cb tail p (e :: l) (e :: l')
| trim_drop e l l' : p e -> trim cb tail p l l' -> trim cb tail p (e :: l) (after cb tail e ++ l').

#[local] Hint Constructors trim : core.

Lemma trim_refl cb tail p l : trim cb tail p l l.
Proof. induction l; auto. Qed.

Lemma trim_app cb tail p a b a' b' : trim cb tail p a a' -> trim cb tail p b b' -> trim cb tail p (a ++ b) (a' ++ b').
Proof. induction 1; intros Hb; cbn [app]; rewrite <-?app_assoc; auto. Qed.

Lemma trim_weaken cb tail (p p' : raw_event -> Prop) l l' : (forall e, p e -> p' e) -> trim cb tail p l l' -> trim cb tail p' l l'.
Proof. intros Hp. induction 1; auto. Qed.

Lemma trim_all cb tail (p : raw_event -> Prop) l : Forall p l -> trim cb tail p l (l ≫= after cb tail).
Proof. induction 1; cbn; auto. Qed.

Definition upd (f : Z -> list raw_event) (q : Z) (l : list raw_event) : Z -> list raw_event := fun x => if x =? q then l else f x.

Lemma upd_same f q l : upd f q l q = l.
Proof. unfold upd. by rewrite Z.eqb_refl. Qed.

Lemma next_ok id : 0 <= id + 1 < MAX_ID -> next id = Ok (id + 1).
Proof. intros H. unfold next, from_int32, is_valid_id. by rewrite leb_true, ltb_true by lia. Qed.

Section Storage.
Context {St : Type} `{!storage_ops St} `{!storage_laws St}.
Implicit Types (s : option St) (f : Z -> list raw_event).

(** The storage holds the events of every queue. *)
Definition matches s f : Prop :=
  match s with
  | None => True
  | Some st => valid st /\ forall q, of_queue q (storage_records st) = f q
  end.

Lemma matches_ext s f g : (forall q, f q = g q) -> matches s f -> matches s g.
Proof. destruct s; [|done]. intros E [H1 H2]. split; [done|]. intros q. by rewrite H2. Qed.

Lemma matches_log st f q e : matches (Some st) f -> e ∈ f q -> 0 < log_event_id e.
Proof.
  intros [Hv Hf] He. rewrite <-Hf in He. apply elem_of_queue in He as (e' & He & _).
  pose proof (records_pos _ Hv) as Hp. rewrite Forall_forall in Hp. by specialize (Hp _ He).
Qed.

(** A record is removed. *)
Lemma matches_pop st f q a e b : matches (Some st) f -> f q = a ++ e :: b ->
  (room st -> room (storage_pop st (log_event_id e)))
  /\ matches (Some (storage_pop st (log_event_id e))) (upd f q (a ++ b)).
Proof.
  intros [Hv Hf] Hq. destruct (pop_record _ (log_event_id e) Hv) as (Hv' & Hroom & Hr). split; [done|]. split; [done|]. intros q'.
  rewrite Hr, of_queue_filter. pose proof (records_sorted _ Hv) as Hs. pose proof (of_queue_logs q _ Hs) as Hl.
  rewrite Hf, Hq in Hl. unfold upd. destruct (Z.eqb_spec q' q) as [->|Hne].
  - rewrite Hf, Hq, List.filter_app. cbn. rewrite Z.eqb_refl. cbn.
    rewrite !filter_all; [done| |]; intros x Hx; apply negb_true_iff, Z.eqb_neq; apply (sorted_around _ _ _ _ Hl);
      apply elem_of_app; auto.
  - rewrite filter_all; [done|]. intros x Hx. apply negb_true_iff, Z.eqb_neq.
    eapply (of_queue_other q q'); [exact Hs| |done|done]. rewrite Hf, Hq. apply elem_of_app. right. by apply elem_of_cons; left.
Qed.

(** A record is rewritten. *)
Lemma matches_rewrite st f q a e b : matches (Some st) f -> f q = a ++ e :: b ->
  (room st -> room (storage_push st q (without_data e)).2)
  /\ matches (Some (storage_push st q (without_data e)).2) (upd f q (a ++ without_data e :: b)).
Proof.
  intros [Hv Hf] Hq. assert (Hin : e ∈ of_queue q (storage_records st)).
  { rewrite Hf, Hq. apply elem_of_app. right. by apply elem_of_cons; left. }
  destruct (push_old st q (without_data e) Hv) as (Hv' & Hroom & Hr); [exact (log_in_records q _ e Hin)|]. split; [done|]. split; [done|]. intros q'.
  pose proof (records_sorted _ Hv) as Hs. pose proof (of_queue_logs q _ Hs) as Hl. rewrite Hf, Hq in Hl.
  rewrite Hr, (of_queue_rewrite q' q (log_event_id e)).
  2:{ intros x Hx. apply elem_of_queue in Hin as (e' & Hin & _). by rewrite (sorted_unique _ _ _ _ Hs Hx Hin). }
  unfold upd. rewrite (Z.eqb_sym q'). destruct (Z.eqb_spec q q') as [->|Hne]; [|done].
  rewrite Hf, Hq, fmap_app. cbn. rewrite Z.eqb_refl. f_equal; [|f_equal].
  all: apply fmap_all; intros x Hx; rewrite (proj2 (Z.eqb_neq _ _)); [done|];
    apply (sorted_around _ _ _ _ Hl); apply elem_of_app; auto.
Qed.

Definition roomy s : Prop := match s with Some st => room st | None => True end.

Lemma pop_ok q tail a e b s f : matches s f -> f q = a ++ e :: b -> 0 <= event_id e + 1 < MAX_ID ->
  exists s', pop q tail e s = Some (after (stores s) tail e, s') /\ stores s' = stores s /\ (roomy s -> roomy s')
    /\ matches s' (upd f q (a ++ after (stores s) tail e ++ b)).
Proof.
  intros Hm Hq Hid. unfold after. destruct s as [st|]; cbn [pop stores andb]; [|by exists None].
  assert (0 < log_event_id e) by (eapply (matches_log st f q); [done|rewrite Hq; apply elem_of_app; right; by apply elem_of_cons; left]).
  rewrite (proj2 (Z.eqb_neq _ _)) by lia. rewrite next_ok by done. cbn [ok_value mbind option_bind].
  destruct (event_id e + 1 =? tail).
  - destruct (bool_decide _) eqn:Ed.
    + apply bool_decide_eq_true in Ed. exists (Some st). replace (without_data e) with e by (destruct e; cbn in Ed; by subst).
      split; [done|]. split; [done|]. split; [done|]. split; [apply Hm|]. intros q'. unfold upd. destruct (Z.eqb_spec q' q) as [->|]; [|apply Hm].
      change ([e] ++ b) with (e :: b). rewrite <-Hq. apply Hm.
    + eexists. split; [done|]. split; [done|]. by apply (matches_rewrite st f q a e b).
  - eexists. split; [done|]. split; [done|]. by apply (matches_pop st f q a e b).
Qed.
End Storage.

(** *** Lists of events *)

Definition live (l : list raw_event) : list raw_event := filter (fun e => data e <> []) l.

Lemma live_app l k : live (l ++ k) = live l ++ live k.
Proof. apply filter_app. Qed.

Lemma live_cons e l : live (e :: l) = (if bool_decide (data e = []) then [] else [e]) ++ live l.
Proof.
  unfold live. destruct (bool_decide_reflect (data e = [])); [by rewrite filter_cons_False by auto|by rewrite filter_cons_True].
Qed.

Lemma live_after cb tail e : live (after cb tail e) = [].
Proof. unfold after. by case_match. Qed.

Lemma live_afters cb tail l : live (l ≫= after cb tail) = [].
Proof. induction l as [|e l IH]; [done|]. cbn. by rewrite live_app, live_after. Qed.

#[local] Arguments sum_length : simpl never.

Lemma sum_cons e l : sum_length (e :: l) = len (data e) + sum_length l.
Proof. done. Qed.

Lemma sum_one e : sum_length [e] = len (data e).
Proof. rewrite sum_cons. unfold sum_length. cbn. lia. Qed.

Lemma sum_app l k : sum_length (l ++ k) = sum_length l + sum_length k.
Proof. induction l as [|e l IH]; [done|]. rewrite <-app_comm_cons, !sum_cons. lia. Qed.

Lemma sum_after cb tail e : sum_length (after cb tail e) = 0.
Proof. unfold after. by case_match. Qed.

Lemma sum_afters cb tail l : sum_length (l ≫= after cb tail) = 0.
Proof. induction l as [|e l IH]; [done|]. cbn. by rewrite sum_app, sum_after, IH. Qed.

Lemma sum_nonneg l : 0 <= sum_length l.
Proof. induction l as [|e l IH]; [done|]. rewrite sum_cons. pose proof (len_nonneg (data e)). lia. Qed.

Lemma less_ok x y : 0 <= y <= x -> x < 2 ^ 64 -> less x y = x - y.
Proof. intros. apply wrap_small. lia. Qed.

(** Elements removed from a list, each for a reason. *)
Inductive pruned {A} (p : A -> Prop) : list A -> list A -> Prop :=
| pruned_nil : pruned p [] []
| pruned_keep x l l' : pruned p l l' -> pruned p (x :: l) (x :: l')
| pruned_drop x l l' : p x -> pruned p l l' -> pruned p (x :: l) l'.

#[local] Hint Constructors trim pruned : core.

Lemma pruned_refl {A} (p : A -> Prop) l : pruned p l l.
Proof. induction l; auto. Qed.

Lemma pruned_app {A} (p : A -> Prop) a b a' b' : pruned p a a' -> pruned p b b' -> pruned p (a ++ b) (a' ++ b').
Proof. induction 1; cbn; auto. Qed.

Lemma pruned_trans {A} (p : A -> Prop) a b c : pruned p a b -> pruned p b c -> pruned p a c.
Proof.
  intros H. revert c. induction H; intros c Hc; auto. inversion Hc; subst; auto.
Qed.

Lemma pruned_weaken {A} (p p' : A -> Prop) a b : (forall x, p x -> p' x) -> pruned p a b -> pruned p' a b.
Proof. intros Hp. induction 1; auto. Qed.

Lemma pruned_all {A} (p : A -> Prop) l : Forall p l -> pruned p l [].
Proof. induction 1; auto. Qed.

Lemma pruned_sublist {A} (p : A -> Prop) a b : pruned p a b -> b `sublist_of` a.
Proof. induction 1; by constructor. Qed.

Lemma pruned_fmap {A B} (g : A -> B) (p : B -> Prop) a b : pruned (fun x => p (g x)) a b -> pruned p (g <$> a) (g <$> b).
Proof. induction 1; cbn; auto. Qed.

Lemma trim_live cb tail p l l' : trim cb tail p l l' -> pruned p (live l) (live l').
Proof.
  induction 1 as [|e l l' _ IH|e l l' Hp _ IH]; [constructor| |].
  - rewrite !live_cons. by apply pruned_app; [apply pruned_refl|].
  - rewrite live_app, live_after, live_cons. by case_match; cbn; auto.
Qed.

Lemma trim_ids cb tail p l l' : trim cb tail p l l' -> event_id <$> l' `sublist_of` event_id <$> l.
Proof.
  induction 1 as [|e l l' _ IH|e l l' Hp _ IH]; cbn; [done|by constructor|].
  rewrite fmap_app. unfold after. case_match; cbn; by constructor.
Qed.

Lemma trim_sum cb tail p l l' : trim cb tail p l l' -> sum_length l' <= sum_length l.
Proof.
  induction 1 as [|e l l' _ IH|e l l' Hp _ IH]; [done|rewrite !sum_cons; lia|]. rewrite sum_app, sum_after, sum_cons.
  pose proof (len_nonneg (data e)). lia.
Qed.

Lemma trim_elem cb tail p l l' e : trim cb tail p l l' -> e ∈ l' ->
  exists x, x ∈ l /\ (e = x \/ e = without_data x /\ event_id x + 1 = tail).
Proof.
  induction 1 as [|x l l' _ IH|x l l' Hp _ IH]; intros He.
  - by apply not_elem_of_nil in He.
  - apply elem_of_cons in He as [->|He]; [exists x; split; [by apply elem_of_cons; left|by left]|].
    destruct (IH He) as (y & Hy & H). exists y. split; [by apply elem_of_cons; right|done].
  - apply elem_of_app in He as [He|He].
    + unfold after in He. destruct (cb && _) eqn:E; [|by apply not_elem_of_nil in He].
      apply list_elem_of_singleton in He as ->. apply andb_true_iff in E as [_ E%Z.eqb_eq].
      exists x. split; [by apply elem_of_cons; left|by right].
    + destruct (IH He) as (y & Hy & H). exists y. split; [by apply elem_of_cons; right|done].
Qed.

(** The shape of the events of a queue. *)
Record qok (cb : bool) (tail : Z) (l : list raw_event) : Prop := {
  q_sorted : StronglySorted Z.lt (event_id <$> l);
  q_ids : forall e, e ∈ l -> 0 < event_id e < tail;
  q_tail : 0 <= tail < MAX_ID;
  q_sizes : forall e, e ∈ l -> len (data e) <= MAX_EVENT_LENGTH /\ 0 < expires_at e;
  q_dead : forall e, e ∈ l -> data e = [] -> event_id e + 1 = tail;
  q_full : cb = true -> match last l with Some e => event_id e + 1 = tail | None => tail = 0 end }.

Lemma sorted_sublist l k : StronglySorted Z.lt l -> k `sublist_of` l -> StronglySorted Z.lt k.
Proof.
  intros Hl H. revert Hl. induction H as [|x l k Hs IH|x l k Hs IH]; intros Hl; [done| |].
  - apply StronglySorted_inv in Hl as [Hl Hx]. constructor; [by apply IH|].
    rewrite Forall_forall in *. intros y Hy. apply Hx. by eapply elem_of_sublist.
  - apply StronglySorted_inv in Hl as [Hl Hx]. by apply IH.
Qed.

Lemma trim_last cb tail p l l' : trim cb tail p l l' -> cb = true ->
  match last l with Some e => event_id e + 1 = tail | None => False end ->
  match last l' with Some e => event_id e + 1 = tail | None => False end.
Proof.
  intros H ->. induction H as [|e l l' Ht IH|e l l' Hp Ht IH]; [done| |].
  - destruct l as [|x l]; cbn [last] in *; [inversion Ht; by subst|]. intros Hl. specialize (IH Hl).
    destruct l' as [|y l']; [done|]. exact IH.
  - destruct l as [|x l]; cbn [last] in *.
    + inversion Ht; subst. intros He. unfold after. cbn [andb]. by rewrite (proj2 (Z.eqb_eq _ _) He).
    + intros Hl. specialize (IH Hl). rewrite last_app. destruct (last l'); [done|]. done.
Qed.

Lemma qok_trim cb tail p l l' : qok cb tail l -> trim cb tail p l l' -> qok cb tail l'.
Proof.
  intros [H1 H2 H3 H4 H5 H6] Ht. split; [|intros e He|done|intros e He|intros e He|].
  - eapply sorted_sublist; [exact H1|]. by eapply trim_ids.
  - destruct (trim_elem _ _ _ _ _ _ Ht He) as (x & Hx & [E|[E _]]); rewrite E; exact (H2 x Hx).
  - destruct (trim_elem _ _ _ _ _ _ Ht He) as (x & Hx & [E|[E _]]); rewrite E; [by apply H4|]. destruct (H4 _ Hx). split; [|done].
    cbn. unfold len, MAX_EVENT_LENGTH. cbn. lia.
  - destruct (trim_elem _ _ _ _ _ _ Ht He) as (x & Hx & [E|[E E']]); rewrite E; [by apply H5|done].
  - intros Hcb. specialize (H6 Hcb). pose proof (trim_last _ _ _ _ _ Ht Hcb) as Hl. destruct (last l) eqn:E.
    + specialize (Hl H6). by destruct (last l').
    + apply last_None in E as ->. inversion Ht; subst. done.
Qed.

Lemma qok_next cb tail l e : qok cb tail l -> e ∈ l -> 0 <= event_id e + 1 < MAX_ID.
Proof. intros H He. destruct (q_ids _ _ _ H e He). destruct (q_tail _ _ _ H). lia. Qed.

(** *** The loops *)

Section Loops.
Context {St : Type} `{!storage_ops St} `{!storage_laws St}.
Implicit Types (s : option St) (f : Z -> list raw_event).

Lemma upd_upd f q l k x : upd (upd f q l) q k x = upd f q k x.
Proof. unfold upd. by case_match. Qed.

(** One pop in a loop: the lists around the event. *)
Lemma pop_step q tail a e b s f total : matches s f -> f q = a ++ e :: b -> 0 <= event_id e + 1 < MAX_ID ->
  len (data e) <= total < 2 ^ 64 ->
  exists s', pop q tail e s = Some (after (stores s) tail e, s') /\ stores s' = stores s
    /\ less total (len (data e)) = total - len (data e) /\ (roomy s -> roomy s')
    /\ exists f', matches s' f' /\ f' q = (a ++ after (stores s) tail e) ++ b /\ forall k x, upd f' q k x = upd f q k x.
Proof.
  intros Hm Hq Hid Ht. destruct (pop_ok q tail a e b s f Hm Hq Hid) as (s' & H1 & H2 & Hr & H3). exists s'.
  split; [done|]. split; [done|]. split; [apply less_ok; pose proof (len_nonneg (data e)); lia|]. split; [done|].
  eexists. split; [exact H3|]. rewrite upd_same, app_assoc. split; [done|]. intros. apply upd_upd.
Qed.

Lemma pop_list_ok q tail l : forall a b s f total, matches s f -> f q = a ++ l ++ b ->
  (forall e, e ∈ l -> 0 <= event_id e + 1 < MAX_ID) -> sum_length l <= total < 2 ^ 64 ->
  exists s', pop_list q tail l s total = Some (l ≫= after (stores s) tail, s', total - sum_length l)
    /\ stores s' = stores s /\ (roomy s -> roomy s') /\ matches s' (upd f q (a ++ (l ≫= after (stores s) tail) ++ b)).
Proof.
  induction l as [|e l IH]; intros a b s f total Hm Hq Hid Ht.
  - exists s. cbn. split; [by rewrite Z.sub_0_r|]. split; [done|]. split; [done|]. eapply matches_ext; [|exact Hm].
    intros x. unfold upd. destruct (Z.eqb_spec x q) as [->|]; [done|done].
  - rewrite sum_cons in Ht. pose proof (sum_nonneg l). pose proof (len_nonneg (data e)).
    destruct (pop_step q tail a e (l ++ b) s f total) as (s1 & E1 & E2 & E3 & Er & f1 & Hm1 & Hq1 & Hf1); try done; try lia.
    { apply Hid. by apply elem_of_cons; left. }
    destruct (IH _ _ s1 f1 (total - len (data e)) Hm1 Hq1) as (s2 & E4 & E5 & Er' & Hm2); try lia.
    { intros x Hx. apply Hid. by apply elem_of_cons; right. }
    exists s2. cbn [pop_list]. rewrite E1. cbn. rewrite E3, E4. cbn. rewrite E2 in *. split; [|split; [done|split; [by auto|]]].
    + rewrite sum_cons. do 2 f_equal. lia.
    + eapply matches_ext; [|exact Hm2]. intros x. rewrite Hf1, <-!app_assoc. done.
Qed.

(** The events that [do_get] returns, and those it drops. *)
Definition stale (now : Z) (e : raw_event) : Prop := expires_at e < now \/ data e = [].

Lemma stale_spec now e : (expires_at e <? now) || bool_decide (data e = []) = true <-> stale now e.
Proof. unfold stale. by rewrite orb_true_iff, Z.ltb_lt, bool_decide_eq_true. Qed.

#[local] Instance stale_dec now e : Decision (stale now e).
Proof. unfold stale. apply _. Defined.

Lemma collect_ok q tail now l : forall n a s f total, matches s f -> f q = a ++ l ->
  (forall e, e ∈ l -> 0 <= event_id e + 1 < MAX_ID) -> sum_length l <= total < 2 ^ 64 ->
  exists l' s', collect q tail now n l s total
      = Some (to_event <$> take n (filter (fun e => ~ stale now e) l), l', s', total - (sum_length l - sum_length l'))
    /\ trim (stores s) tail (stale now) l l' /\ stores s' = stores s /\ matches s' (upd f q (a ++ l')).
Proof.
  induction l as [|e l IH]; intros n a s f total Hm Hq Hid Ht.
  - exists [], s. cbn. rewrite take_nil. split; [by rewrite Z.sub_0_r|]. split; [constructor|]. split; [done|].
    eapply matches_ext; [|exact Hm]. intros x. unfold upd. by destruct (Z.eqb_spec x q) as [->|].
  - rewrite sum_cons in Ht. pose proof (sum_nonneg l). pose proof (len_nonneg (data e)).
    assert (Hid' : forall x, x ∈ l -> 0 <= event_id x + 1 < MAX_ID) by (intros x Hx; apply Hid; by apply elem_of_cons; right).
    cbn [collect]. destruct ((_ <? _) || _) eqn:Es.
    + apply stale_spec in Es. rewrite filter_cons_False by auto.
      destruct (pop_step q tail a e l s f total) as (s1 & E1 & E2 & E3 & Er & f1 & Hm1 & Hq1 & Hf1); try done; try lia.
      { apply Hid. by apply elem_of_cons; left. }
      destruct (IH n _ s1 f1 (total - len (data e)) Hm1 Hq1) as (l' & s2 & E4 & E5 & E6 & Hm2); try lia; try done.
      exists (after (stores s) tail e ++ l'), s2. rewrite E1. cbn. rewrite E3, E4. cbn. rewrite E2 in *. split; [|split; [by constructor|split; [done|]]].
      * rewrite sum_app, sum_after, sum_cons. do 2 f_equal. lia.
      * eapply matches_ext; [|exact Hm2]. intros x. by rewrite Hf1, <-!app_assoc.
    + assert (Hs : ~ stale now e) by (rewrite <-stale_spec, Es; done). rewrite filter_cons_True by done.
      destruct n as [|n].
      * exists (e :: l), s. cbn. rewrite Z.sub_diag, Z.sub_0_r. split; [done|]. split; [apply trim_refl|]. split; [done|].
        eapply matches_ext; [|exact Hm]. intros x. unfold upd. by destruct (Z.eqb_spec x q) as [->|].
      * destruct (IH n (a ++ [e]) s f total) as (l' & s2 & E4 & E5 & E6 & Hm2); try lia; try done.
        { by rewrite Hq, <-app_assoc. }
        exists (e :: l'), s2. rewrite E4. cbn. split; [|split; [by constructor|split; [done|]]].
        -- rewrite !sum_cons. do 2 f_equal. lia.
        -- eapply matches_ext; [|exact Hm2]. intros x. by rewrite <-app_assoc.
Qed.

(** The collection of one queue. *)
Lemma gc_events_ok (late : nat -> bool) q tail now l : forall a s f total new counter i, matches s f -> f q = a ++ l ->
  (forall e, e ∈ l -> 0 <= event_id e + 1 < MAX_ID /\ 0 < expires_at e) -> sum_length l <= total < 2 ^ 64 -> 0 <= new ->
  exists l' s' new' counter' i',
    gc_events late q tail now l s total new counter i
      = Some (l', s', total - (sum_length l - sum_length l'), new', counter', i')
    /\ trim (stores s) tail (stale now) l l' /\ stores s' = stores s /\ matches s' (upd f q (a ++ l'))
    /\ (new <> 0 -> new' = new) /\ 0 <= new' /\ (new' = 0 -> live l' = [])
    /\ (new = 0 -> new' = 0 \/ now <= new' \/ exists j, (j < i')%nat /\ late j = true) /\ (i <= i')%nat.
Proof.
  induction l as [|e l IH]; intros a s f total new counter i Hm Hq Hid Ht Hn; cbn [gc_events].
  - exists [], s, new, counter, i. rewrite Z.sub_0_r. repeat split; try done; try lia.
    eapply matches_ext; [|exact Hm]. intros x. unfold upd. by destruct (Z.eqb_spec x q) as [->|].
  - rewrite sum_cons in Ht. pose proof (sum_nonneg l). pose proof (len_nonneg (data e)).
    assert (Hid' : forall x, x ∈ l -> 0 <= event_id x + 1 < MAX_ID /\ 0 < expires_at x)
      by (intros x Hx; apply Hid; by apply elem_of_cons; right).
    destruct (Hid e ltac:(by apply elem_of_cons; left)) as [He1 He2].
    assert (Hsame : matches s (upd f q (a ++ e :: l)))
      by (eapply matches_ext; [|exact Hm]; intros x; unfold upd; by destruct (Z.eqb_spec x q) as [->|]).
    destruct (_ && late i) eqn:El.
    { apply andb_true_iff in El as [_ El].
      exists (e :: l), s, (if new =? 0 then expires_at e else new), (counter + 1), (S i). rewrite Z.sub_diag, Z.sub_0_r.
      destruct (Z.eqb_spec new 0); repeat split; try done; try lia; try apply trim_refl; right; right; exists i; split; auto; lia. }
    set (i1 := if _ : bool then S i else i). assert (Hi : (i <= i1)%nat) by (unfold i1; case_match; lia).
    destruct ((_ <? _) || _) eqn:Es.
    + apply stale_spec in Es.
      destruct (pop_step q tail a e l s f total) as (s1 & E1 & E2 & E3 & Er & f1 & Hm1 & Hq1 & Hf1); try done; try lia.
      destruct (IH _ s1 f1 (total - len (data e)) new (counter + 1) i1 Hm1 Hq1)
        as (l' & s2 & n' & c' & i' & E4 & E5 & E6 & Hm2 & R1 & R2 & R3 & R4 & R5); try lia; try done.
      exists (after (stores s) tail e ++ l'), s2, n', c', i'. rewrite E1. cbn. rewrite E3, E4. cbn. rewrite E2 in *.
      rewrite sum_app, sum_after, sum_cons, live_app, live_after.
      split; [|split; [by constructor|split; [done|split; [|repeat split; try done; lia]]]]; [do 5 f_equal; lia|].
      eapply matches_ext; [|exact Hm2]. intros x. by rewrite Hf1, <-!app_assoc.
    + assert (Hs : ~ stale now e) by (rewrite <-stale_spec, Es; done).
      destruct (Z.eqb_spec new 0) as [->|Hne]; cbn [negb].
      * destruct (IH (a ++ [e]) s f total (expires_at e) (counter + 1) i1 Hm)
          as (l' & s2 & n' & c' & i' & E4 & E5 & E6 & Hm2 & R1 & R2 & R3 & R4 & R5); try lia; try done.
        { by rewrite Hq, <-app_assoc. }
        exists (e :: l'), s2, n', c', i'. rewrite E4. cbn. rewrite !sum_cons. specialize (R1 ltac:(lia)).
        assert (now <= expires_at e) by (unfold stale in Hs; lia).
        split; [|split; [by constructor|split; [done|split; [|repeat split; try done; lia]]]]; [do 5 f_equal; lia|].
        eapply matches_ext; [|exact Hm2]. intros x. by rewrite <-app_assoc.
      * exists (e :: l), s, new, (counter + 1), i1. rewrite Z.sub_diag, Z.sub_0_r.
        repeat split; try done; try lia; apply trim_refl.
Qed.
End Loops.

(** *** The times of garbage collection *)

Definition gc_lt (a b : Z * Z) : Prop := gc_less a b = true.

Lemma gc_lt_spec a b : gc_lt a b <-> a.1 < b.1 \/ (a.1 = b.1 /\ a.2 < b.2).
Proof. unfold gc_lt, gc_less. rewrite orb_true_iff, andb_true_iff, !Z.ltb_lt, Z.eqb_eq. done. Qed.

Lemma gc_lt_total a b : gc_less a b = false -> gc_less b a = false -> a = b.
Proof.
  intros H1 H2. destruct a as [a1 a2], b as [b1 b2].
  assert (~ gc_lt (a1, a2) (b1, b2)) by (unfold gc_lt; congruence). assert (~ gc_lt (b1, b2) (a1, a2)) by (unfold gc_lt; congruence).
  rewrite gc_lt_spec in *. cbn in *. f_equal; lia.
Qed.

Lemma gc_emplace_ok a l : StronglySorted gc_lt l -> a ∉ l ->
  exists l', gc_emplace a l = (true, l') /\ StronglySorted gc_lt l' /\ forall b, b ∈ l' <-> b = a \/ b ∈ l.
Proof.
  induction l as [|x l IH]; intros Hs Ha; cbn [gc_emplace].
  - exists [a]. split; [done|]. split; [repeat constructor|]. intros b. rewrite list_elem_of_singleton. set_solver.
  - pose proof (StronglySorted_inv Hs) as [Hs' Hx]. destruct (gc_less a x) eqn:E1; [|destruct (gc_less x a) eqn:E2].
    + exists (a :: x :: l). split; [done|]. split; [|intros b; apply elem_of_cons].
      constructor; [done|]. constructor; [done|]. eapply Forall_impl; [exact Hx|]. intros y Hy.
      change (gc_lt a x) in E1. rewrite gc_lt_spec in *. lia.
    + destruct IH as (l' & El & Hs2 & Hl); [done|set_solver|]. rewrite El. exists (x :: l').
      split; [done|]. split; [|set_solver]. constructor; [done|]. rewrite Forall_forall in *.
      intros y [->|Hy]%Hl; [done|by apply Hx].
    + destruct Ha. rewrite (gc_lt_total a x) by done. by apply elem_of_cons; left.
Qed.

Lemma elem_of_gc_erase a l b : b ∈ (gc_erase a l).2 <-> b <> a /\ b ∈ l.
Proof.
  unfold gc_erase. cbn. rewrite !list_elem_of_In, filter_In, negb_true_iff, bool_decide_eq_false. naive_solver.
Qed.

(** *** The invariant of the queues *)

Record wfq (cb : bool) (q : queue) : Prop := {
  wq_ok : qok cb (tail_id q) (events q);
  wq_total : total_event_length q = sum_length (events q);
  wq_max : sum_length (events q) <= MAX_TOTAL_EVENT_LENGTH;
  wq_count : len (events q) <= MAX_QUEUE_EVENTS;
  wq_gc : 0 <= gc_at q;
  wq_live : gc_at q = 0 -> live (events q) = [] }.

Lemma wfq_empty cb : wfq cb empty_queue.
Proof.
  split; try done. cbn. split; cbn; try done; try (by intros e He; apply not_elem_of_nil in He). constructor.
Qed.

Lemma qok_false cb tail l : qok cb tail l -> qok false tail l.
Proof. by intros []. Qed.

Lemma wfq_false cb q : wfq cb q -> wfq false q.
Proof. intros [H ? ? ? ? ?]. split; try done. by eapply qok_false. Qed.

Lemma wfq_sum cb q : wfq cb q -> sum_length (events q) <= total_event_length q < 2 ^ 64.
Proof. intros [_ H1 H2 _ _ _]. rewrite H1. unfold MAX_TOTAL_EVENT_LENGTH in H2. change (Z.shiftl 1 27) with 134217728 in H2. lia. Qed.

Lemma wfq_next cb q e : wfq cb q -> e ∈ events q -> 0 <= event_id e + 1 < MAX_ID.
Proof. intros H. eapply qok_next. apply H. Qed.

Lemma trim_count cb tail p l l' : trim cb tail p l l' -> len l' <= len l.
Proof. intros H%trim_ids%sublist_length. rewrite !length_fmap in H. unfold len. lia. Qed.

(** A queue of which events have been popped. *)
Lemma wfq_trim cb q p l' : wfq cb q -> trim cb (tail_id q) p (events q) l' ->
  wfq cb (set_events q l' (total_event_length q - (sum_length (events q) - sum_length l'))).
Proof.
  intros [H1 H2 H3 H4 H5 H6] Ht. pose proof (trim_sum _ _ _ _ _ Ht). pose proof (trim_count _ _ _ _ _ Ht).
  split; cbn; try lia; [by eapply qok_trim|]. intros Hg. specialize (H6 Hg). pose proof (trim_live _ _ _ _ _ Ht) as Hl.
  rewrite H6 in Hl. by inversion Hl.
Qed.

Section Invariant.
Context {St : Type} `{!storage_ops St} `{!storage_laws St}.
Implicit Types (s : option St) (t : tqueue St).

Definition events_of t : Z -> list raw_event := fun queue_id => events (get_queue t queue_id).

(** The set of times belongs to the queues. *)
Definition scheduled (set : list (Z * Z)) (times : Z -> Z) : Prop :=
  StronglySorted gc_lt set /\ forall at_ queue_id, (at_, queue_id) ∈ set <-> at_ <> 0 /\ times queue_id = at_.

(** [cb] tells that every event is in a storage. *)
Record tok (cb : bool) t : Prop := {
  t_wf : forall queue_id, wfq cb (get_queue t queue_id);
  t_zero : queues t !! 0 = None;
  t_gc : scheduled (queue_gc_at t) (fun queue_id => gc_at (get_queue t queue_id));
  t_matches : matches (callback t) (events_of t) }.

Definition wf t : Prop := tok (stores (callback t)) t.

Lemma get_set t set s queue_id q k :
  get_queue (mk_tqueue (<[queue_id := q]> (queues t)) set s) k = if k =? queue_id then q else get_queue t k.
Proof.
  unfold get_queue. cbn. destruct (Z.eqb_spec k queue_id) as [->|Hn]; [by rewrite lookup_insert_eq|].
  by rewrite lookup_insert_ne by congruence.
Qed.

(** A queue is replaced: the others must be well formed. *)
Lemma tok_replace cb t queue_id q set s : tok false t -> queue_id <> 0 ->
  (forall k, k <> queue_id -> wfq cb (get_queue t k)) -> wfq cb q ->
  scheduled set (fun k => if k =? queue_id then gc_at q else gc_at (get_queue t k)) ->
  matches s (upd (events_of t) queue_id (events q)) ->
  tok cb (mk_tqueue (<[queue_id := q]> (queues t)) set s).
Proof.
  intros [_ Hz H2 H3] H0 H1 Hq [Hs1 Hs2] Hm. split.
  - intros k. rewrite get_set. destruct (Z.eqb_spec k queue_id); auto.
  - cbn. by rewrite lookup_insert_ne.
  - split; [done|]. intros at_ k. rewrite get_set. cbn. rewrite Hs2. by destruct (k =? queue_id).
  - cbn. eapply matches_ext; [|exact Hm]. intros k. unfold upd, events_of. rewrite get_set. by case_match.
Qed.

Lemma tok_false cb t : tok cb t -> tok false t.
Proof. intros [H1 H2 H3 H4]. split; [|done..]. intros k. by eapply wfq_false. Qed.

Lemma tok_update cb t queue_id q set s : tok cb t -> queue_id <> 0 -> wfq cb q ->
  scheduled set (fun k => if k =? queue_id then gc_at q else gc_at (get_queue t k)) ->
  matches s (upd (events_of t) queue_id (events q)) ->
  tok cb (mk_tqueue (<[queue_id := q]> (queues t)) set s).
Proof. intros H ?. apply tok_replace; [by eapply tok_false|done|]. intros. apply H. Qed.

Lemma tok_present cb t queue_id q : tok cb t -> queues t !! queue_id = Some q -> queue_id <> 0 /\ get_queue t queue_id = q.
Proof. intros H Hq. split; [|unfold get_queue; by rewrite Hq]. intros ->. rewrite (t_zero _ _ H) in Hq. done. Qed.

Lemma scheduled_same set (times times' : Z -> Z) : (forall k, times k = times' k) -> scheduled set times -> scheduled set times'.
Proof. intros E [H1 H2]. split; [done|]. intros at_ k. by rewrite H2, E. Qed.

(** The common case: one queue has changed, but not its time. *)
Lemma tok_update_same cb t queue_id q s : tok cb t -> queue_id <> 0 -> wfq cb q -> gc_at q = gc_at (get_queue t queue_id) ->
  matches s (upd (events_of t) queue_id (events q)) ->
  tok cb (mk_tqueue (<[queue_id := q]> (queues t)) (queue_gc_at t) s).
Proof.
  intros H H0 Hq Hg Hm. apply tok_update; [done|done|done| |done]. eapply scheduled_same; [|apply (t_gc _ _ H)].
  intros k. cbn. by destruct (Z.eqb_spec k queue_id) as [->|].
Qed.

Lemma schedule_ok queue_id q set (times : Z -> Z) at_ : scheduled set times -> times queue_id = gc_at q ->
  exists set', schedule_queue_gc queue_id q set at_ = Some (mk_queue (tail_id q) (events q) (total_event_length q) at_, set')
    /\ scheduled set' (fun k => if k =? queue_id then at_ else times k).
Proof.
  intros [Hs Ht] Hq. unfold schedule_queue_gc.
  assert (exists set1, (if gc_at q =? 0 then Some set
    else let '(is_deleted, set) := gc_erase (gc_at q, queue_id) set in if is_deleted : bool then Some set else None) = Some set1
    /\ StronglySorted gc_lt set1 /\ (forall a k, (a, k) ∈ set1 <-> a <> 0 /\ k <> queue_id /\ times k = a)) as (set1 & E & Hs1 & H1).
  { destruct (Z.eqb_spec (gc_at q) 0) as [E|E].
    - exists set. split; [done|]. split; [done|]. intros a k. rewrite Ht. split; [|naive_solver].
      intros [Ha Hk]. split; [done|]. split; [|done]. intros ->. congruence.
    - exists (gc_erase (gc_at q, queue_id) set).2. unfold gc_erase at 1. rewrite bool_decide_eq_true_2 by (rewrite Ht; done).
      split; [done|]. split; [by apply sorted_filter|]. intros a k. rewrite elem_of_gc_erase, Ht. split; [|naive_solver].
      intros (Hne & Ha & Hk). split; [done|]. split; [|done]. intros ->. apply Hne. f_equal. congruence. }
  rewrite E. cbn [mbind option_bind]. destruct (Z.eqb_spec at_ 0) as [->|Ha].
  - exists set1. split; [done|]. split; [done|]. intros a k. rewrite H1. destruct (Z.eqb_spec k queue_id); naive_solver.
  - destruct (gc_emplace_ok (at_, queue_id) set1 Hs1) as (set2 & E2 & Hs2 & H2); [rewrite H1; naive_solver|].
    rewrite E2. exists set2. split; [done|]. split; [done|]. intros a k. rewrite H2, H1.
    destruct (Z.eqb_spec k queue_id) as [->|]; naive_solver.
Qed.

Lemma get_queue_set t queue_id k : get_queue (set_queue t queue_id (get_queue t queue_id)) k = get_queue t k.
Proof. unfold set_queue. rewrite get_set. by destruct (Z.eqb_spec k queue_id) as [->|]. Qed.

(** A queue that is looked at is there afterwards. *)
Lemma tok_get cb t queue_id : tok cb t -> queue_id <> 0 -> tok cb (set_queue t queue_id (get_queue t queue_id)).
Proof.
  intros H H0. apply tok_update_same; [done|done|apply H|done|]. eapply matches_ext; [|apply H].
  intros k. unfold upd, events_of. by destruct (Z.eqb_spec k queue_id) as [->|].
Qed.

End Invariant.

(** *** Pushing *)

(** The events without the one at the end that has no data. *)
Definition base_of (l : list raw_event) : list raw_event :=
  match last l with Some e => if bool_decide (data e = []) then removelast l else l | None => l end.

Lemma base_of_cases l : base_of l = l \/ exists d, l = base_of l ++ [d] /\ data d = [].
Proof.
  unfold base_of. destruct (last l) as [d|] eqn:E; [|by left]. destruct (bool_decide_reflect (data d = [])) as [Hd|]; [|by left].
  right. exists d. apply last_Some in E as [k ->]. by rewrite removelast_last.
Qed.

Lemma base_of_live cb tail l : qok cb tail l -> live (base_of l) = live l /\ base_of l = live l.
Proof.
  intros H. assert (forall e, e ∈ base_of l -> data e <> []) as Hb.
  { intros e He Hd. unfold base_of in He. destruct (last l) as [d|] eqn:El.
    2:{ apply last_None in El as ->. by apply not_elem_of_nil in He. }
    apply last_Some in El as [k ->].
    assert (Hlt : forall x, x ∈ k -> event_id x < event_id d).
    { intros x Hx. pose proof (q_sorted _ _ _ H) as Hs. rewrite fmap_app in Hs. apply StronglySorted_app in Hs as (Hs & _ & _).
      apply Hs; [by apply list_elem_of_fmap_2|by apply list_elem_of_singleton]. }
    destruct (q_ids _ _ _ H d) as [_ Hdt]; [set_solver|].
    destruct (bool_decide_reflect (data d = [])) as [Hdd|Hdd]; rewrite ?removelast_last in He.
    - pose proof (q_dead _ _ _ H e ltac:(set_solver) Hd). specialize (Hlt e He). lia.
    - apply elem_of_app in He as [He|He%list_elem_of_singleton]; [|congruence].
      pose proof (q_dead _ _ _ H e ltac:(set_solver) Hd). specialize (Hlt e He). lia. }
  assert (live (base_of l) = base_of l) as E.
  { unfold live. clear -Hb. induction (base_of l) as [|x k IH]; [done|]. rewrite filter_cons_True by (apply Hb; set_solver).
    f_equal. apply IH. intros e He. apply Hb. set_solver. }
  assert (live (base_of l) = live l) as E2.
  { destruct (base_of_cases l) as [->|(d & Hl & Hd)]; [done|]. rewrite Hl at 2. rewrite live_app, live_cons, Hd. cbn. by rewrite app_nil_r. }
  split; congruence.
Qed.

Lemma emplace_last e l : (forall x, x ∈ l -> event_id x < event_id e) -> emplace e l = l ++ [e].
Proof.
  induction l as [|x l IH]; intros H; cbn; [done|]. specialize (H x ltac:(set_solver)) as Hx.
  rewrite ltb_false by lia. rewrite (proj2 (Z.eqb_neq _ _)) by lia. f_equal. apply IH. intros y Hy. apply H. set_solver.
Qed.

Lemma last_snoc_event (l : list raw_event) e : last (l ++ [e]) = Some e.
Proof. by rewrite last_snoc. Qed.

Section Push.
Context {St : Type} `{!storage_ops St} `{!storage_laws St}.
Implicit Types (s : option St) (t : tqueue St).

(** What [do_push] needs to accept an event. *)
Record acceptable (q : queue) (queue_id : Z) (e : raw_event) : Prop := {
  a_id : 0 < event_id e; a_next : event_id e + 1 < MAX_ID;
  a_queue : queue_id <> 0;
  a_size : len (data e) <= MAX_EVENT_LENGTH;
  a_count : len (events q) < MAX_QUEUE_EVENTS;
  a_total : sum_length (events q) + len (data e) <= MAX_TOTAL_EVENT_LENGTH;
  a_expires : 0 < expires_at e;
  a_tail : tail_id q <= event_id e }.

Lemma base_of_sublist l : base_of l `sublist_of` l.
Proof. destruct (base_of_cases l) as [->|(d & Hl & _)]; [done|]. rewrite Hl at 2. by apply sublist_inserts_r. Qed.

Lemma base_of_in l x : x ∈ base_of l -> x ∈ l.
Proof. intros H. eapply elem_of_sublist; [exact H|]. apply base_of_sublist. Qed.

Lemma base_of_sum l : sum_length (base_of l) = sum_length l.
Proof.
  destruct (base_of_cases l) as [->|(d & Hl & Hd)]; [done|]. rewrite Hl at 2. rewrite sum_app, sum_one, Hd, len_nil. lia.
Qed.

Lemma base_of_count l : len (base_of l) <= len l.
Proof. destruct (base_of_cases l) as [->|(d & Hl & Hd)]; [done|]. rewrite Hl at 2. rewrite len_app, len_cons, len_nil. lia. Qed.

Lemma drop_empty_last_ok t queue_id q s f : matches s f -> f queue_id = events q -> (roomy s) ->
  exists s', drop_empty_last q s = (set_events q (base_of (events q)) (total_event_length q), s')
    /\ stores s' = stores s /\ roomy s' /\ matches s' (upd f queue_id (base_of (events q))).
Proof.
  intros Hm Hf Hr. unfold drop_empty_last, base_of.
  assert (Hsame : matches s (upd f queue_id (events q))).
  { eapply matches_ext; [|exact Hm]. intros x. unfold upd. by destruct (Z.eqb_spec x queue_id) as [->|]. }
  assert (q = set_events q (events q) (total_event_length q)) as Eq by (by destruct q).
  destruct (last (events q)) as [d|] eqn:El; [|exists s; by rewrite <-Eq].
  destruct (bool_decide (data d = [])); [|exists s; by rewrite <-Eq].
  apply last_Some in El as [k Hk]. rewrite Hk, removelast_last in *.
  destruct s as [st|]; [|exists None; by destruct (_ =? 0)].
  assert (0 < log_event_id d) by (eapply matches_log; [exact Hm|]; rewrite Hf; set_solver).
  rewrite (proj2 (Z.eqb_neq _ _)) by lia. destruct (matches_pop st f queue_id k d [] Hm Hf) as [Hr' Hm'].
  rewrite app_nil_r in Hm'. eexists. split; [done|]. split; [done|]. split; [by apply Hr'|done].
Qed.

(** The identifier an event gets from the storage. *)
Lemma matches_push st f queue_id e : matches (Some st) f -> room st -> log_event_id e = 0 ->
  exists id st', storage_push st queue_id e = (id, st') /\ 0 < id
    /\ matches (Some st') (upd f queue_id (f queue_id ++ [with_log_event_id e id])).
Proof.
  intros [Hv Hf] Hr He. pose proof (push_new st queue_id e Hv Hr He) as H. destruct (storage_push st queue_id e) as [id st'].
  destruct H as (Hid & Hv' & Hrec). exists id, st'. split; [done|]. split; [done|]. split; [done|]. intros k.
  rewrite Hrec, of_queue_app, of_queue_cons. unfold upd. rewrite (Z.eqb_sym k). destruct (Z.eqb_spec queue_id k) as [->|]; cbn;
    rewrite ?app_nil_r; by rewrite Hf.
Qed.

Lemma qok_push cb tail l e : qok false tail l -> tail <= event_id e -> 0 < event_id e -> event_id e + 1 < MAX_ID ->
  len (data e) <= MAX_EVENT_LENGTH -> 0 < expires_at e -> qok cb (event_id e + 1) (base_of l ++ [e]).
Proof.
  intros H H1 H2 H3 H4 H5. pose proof (base_of_live _ _ _ H) as [_ Hb].
  pose proof (base_of_in l) as Hin.
  split.
  - rewrite fmap_app. apply StronglySorted_app. split; [|split].
    + intros x y (z & -> & Hz)%list_elem_of_fmap Hy. apply list_elem_of_singleton in Hy as ->. destruct (q_ids _ _ _ H z); [by apply Hin|]. lia.
    + eapply sorted_sublist; [apply (q_sorted _ _ _ H)|]. apply fmap_sublist, base_of_sublist.
    + repeat constructor.
  - intros x [Hx|Hx%list_elem_of_singleton]%elem_of_app; [|subst; lia]. destruct (q_ids _ _ _ H x); [by apply Hin|]. lia.
  - lia.
  - intros x [Hx|Hx%list_elem_of_singleton]%elem_of_app; [apply (q_sizes _ _ _ H); by apply Hin|subst; lia].
  - intros x [Hx|Hx%list_elem_of_singleton]%elem_of_app; [|by subst]. rewrite Hb in Hx. by apply list_elem_of_filter in Hx as [? _].
  - intros _. by rewrite last_snoc.
Qed.

(** An accepted event. *)
Lemma do_push_ok cb t queue_id e : tok false t -> (forall k, k <> queue_id -> wfq cb (get_queue t k)) -> roomy (callback t) ->
  acceptable (get_queue t queue_id) queue_id e -> (stores (callback t) = true -> log_event_id e = 0) ->
  exists t' id gc, do_push t queue_id e = Some (true, t') /\ tok cb t' /\ stores (callback t') = stores (callback t)
    /\ (callback t = None -> id = log_event_id e)
    /\ (forall k, get_queue t' k = if k =? queue_id then
          mk_queue (event_id e + 1) (base_of (events (get_queue t queue_id)) ++ [with_log_event_id e id])
            (total_event_length (get_queue t queue_id) + len (data e)) gc
        else get_queue t k).
Proof.
  intros H Hcb Hroom [H1 H2 H3 H4 H5 H6 H7 H8] Hlog. unfold do_push. set (q := get_queue t queue_id) in *.
  assert (Hq : wfq false q) by apply H. pose proof (wfq_sum _ _ Hq) as Hsum. pose proof (wq_total _ _ Hq) as Htot.
  unfold is_valid, is_empty, is_valid_id. rewrite (proj2 (Z.eqb_neq _ _)), leb_true, (ltb_true (event_id e)) by lia. cbn [negb andb].
  rewrite ltb_false, (proj2 (Z.eqb_neq _ _)) by lia. cbn [orb].
  rewrite leb_false, ltb_false, leb_false by lia. cbn [orb]. rewrite ltb_false by lia.
  cbn [callback set_queue queue_gc_at queues].
  destruct (drop_empty_last_ok t queue_id q (callback t) (events_of t)) as (s1 & E1 & Es1 & Er1 & Hm1);
    [apply H|done|done|]. rewrite E1. set (base := base_of (events q)) in *. cbn [events set_events].
  destruct (base_of_live _ _ _ (wq_ok _ _ Hq)) as [Hb1 Hb2]. fold base in Hb1, Hb2.
  assert (exists gc set, (if bool_decide (base = []) && negb (bool_decide (data e = [])) then
      schedule_queue_gc queue_id (set_events q base (total_event_length q)) (queue_gc_at t) (expires_at e)
    else Some (set_events q base (total_event_length q), queue_gc_at t))
    = Some (mk_queue (tail_id q) base (total_event_length q) gc, set)
    /\ scheduled set (fun k => if k =? queue_id then gc else gc_at (get_queue t k))
    /\ 0 <= gc /\ (gc = 0 -> base = [] /\ data e = [])) as (gc & set & E2 & Hs & Hg1 & Hg2).
  { destruct (bool_decide_reflect (base = [])) as [Hb|Hb]; destruct (bool_decide_reflect (data e = [])) as [Hd|Hd]; cbn [negb andb].
    2:{ destruct (schedule_ok queue_id (set_events q base (total_event_length q)) (queue_gc_at t)
         (fun k => gc_at (get_queue t k)) (expires_at e) (t_gc _ _ H)) as (set & E & Hs); [done|].
        exists (expires_at e), set. split; [exact E|]. split; [done|]. lia. }
    all: exists (gc_at q), (queue_gc_at t); split; [done|]; (split;
      [eapply scheduled_same; [|apply (t_gc _ _ H)]; intros k; cbn; by destruct (Z.eqb_spec k queue_id) as [->|]|]);
      split; [apply Hq|]; intros Hg; pose proof (wq_live _ _ Hq Hg); rewrite Hb2 in *; done. }
  rewrite E2. cbn [mbind option_bind tail_id events total_event_length gc_at].
  assert (exists id s2, (match s1 with
      | Some st => if log_event_id e =? 0 then let '(id, st) := storage_push st queue_id e in (with_log_event_id e id, Some st)
                   else (e, s1)
      | None => (e, s1) end) = (with_log_event_id e id, s2)
    /\ stores s2 = stores s1 /\ (s1 = None -> id = log_event_id e)
    /\ matches s2 (upd (events_of t) queue_id (base ++ [with_log_event_id e id]))) as (id & s2 & E3 & Es2 & Hid & Hm2).
  { destruct s1 as [st|].
    - rewrite (Hlog ltac:(by rewrite <-Es1)), Z.eqb_refl.
      destruct (matches_push st _ queue_id e Hm1 Er1 ltac:(apply Hlog; by rewrite <-Es1)) as (id & st' & -> & _ & Hm).
      exists id, (Some st'). split; [done|]. split; [done|]. split; [done|]. eapply matches_ext; [|exact Hm].
      intros k. rewrite upd_upd, upd_same. done.
    - exists (log_event_id e), None. split; [by destruct e|]. repeat split. }
  rewrite E3. cbn iota. change (event_id (with_log_event_id e id)) with (event_id e). rewrite next_ok by lia.
  cbn [ok_value mbind option_bind]. rewrite emplace_last.
  2:{ intros x Hx. apply base_of_in in Hx. destruct (q_ids _ _ _ (wq_ok _ _ Hq) x Hx). cbn. lia. }
  assert (MAX_TOTAL_EVENT_LENGTH = 134217728) as Emax by done. assert (MAX_EVENT_LENGTH = 524288) as Emax2 by done.
  pose proof (sum_nonneg (events q)). pose proof (len_nonneg (data e)).
  change (data (with_log_event_id e id)) with (data e).
  rewrite wrap_small by lia.
  eexists _, id, gc. split; [done|]. split; [|split; [by cbn; rewrite Es2, Es1|split]].
  - set (q' := mk_queue _ _ _ gc).
    assert (mk_tqueue (<[queue_id:=q']> (<[queue_id:=q]> (queues t))) set s2 = mk_tqueue (<[queue_id:=q']> (queues t)) set s2) as ->
      by (by rewrite insert_insert_eq).
    apply tok_replace; [done|done|done| |exact Hs|exact Hm2]. split; cbn.
    + by apply (qok_push cb (tail_id q) (events q) (with_log_event_id e id) (wq_ok _ _ Hq)).
    + rewrite sum_app, sum_one. unfold base. rewrite base_of_sum. cbn. lia.
    + rewrite sum_app, sum_one. unfold base. rewrite base_of_sum. cbn. lia.
    + rewrite len_app. pose proof (base_of_count (events q)) as Hc. fold base in Hc. rewrite len_cons, len_nil. lia.
    + done.
    + intros Hg. destruct (Hg2 Hg) as [Hbe Hd]. rewrite Hbe, app_nil_l, live_cons. change (data (with_log_event_id e id)) with (data e).
      by rewrite Hd.
  - intros Hn. apply Hid. rewrite Hn in Es1. by destruct s1.
  - intros k. rewrite insert_insert_eq. apply get_set.
Qed.

(** *** Choosing an identifier *)

Definition first_id (hint random : Z) : Z := if is_empty hint then random else hint.

(** The identifier of the next event, and the events that stay. *)
Definition new_id (q : queue) (hint random : Z) : Z :=
  if is_empty (tail_id q) || negb (is_ok (next (tail_id q))) then first_id hint random else tail_id q.
Definition remaining (q : queue) : list raw_event := if is_ok (next (tail_id q)) then events q else [].

Definition good_id (id : Z) : Prop := 0 < id /\ id + 1 < MAX_ID.

Lemma next_fails id : 0 <= id < MAX_ID -> is_ok (next id) = false -> id = MAX_ID - 1.
Proof.
  intros H. unfold next, from_int32, is_valid_id. destruct (_ && _) eqn:E; [done|]. intros _.
  apply andb_false_iff in E as [E%Z.leb_gt|E%Z.ltb_ge]; lia.
Qed.

Lemma next_is_ok id : good_id id -> is_ok (next id) = true.
Proof. intros [H1 H2]. by rewrite next_ok by lia. Qed.

Lemma is_valid_good id : 0 < id < MAX_ID -> is_valid id = true.
Proof. intros H. unfold is_valid, is_empty, is_valid_id. by rewrite (proj2 (Z.eqb_neq _ _)), leb_true, ltb_true by lia. Qed.

Definition good_hint (hint random : Z) : Prop := (hint = 0 \/ good_id hint) /\ good_id random.

Lemma good_first hint random : good_hint hint random -> good_id (first_id hint random) /\ is_ok (next hint) = true.
Proof.
  intros [[->|H] Hr]; [done|]. split; [|by apply next_is_ok]. unfold first_id, is_empty.
  destruct H. rewrite (proj2 (Z.eqb_neq _ _)) by lia. done.
Qed.

Lemma choose_first queue_id hint random q s fuel : good_hint hint random -> tail_id q = 0 ->
  new_event_id (S fuel) queue_id random hint q s
  = Some (first_id hint random, mk_queue (first_id hint random) (events q) (total_event_length q) (gc_at q), s).
Proof.
  intros Hh Ht. destruct (good_first _ _ Hh) as [[Hf1 Hf2] Hn]. cbn [new_event_id]. rewrite Ht. cbn [is_empty Z.eqb].
  assert ((if is_empty hint then ok_value (from_int32 random) else Some hint) = Some (first_id hint random)) as ->.
  { unfold first_id in *. destruct (is_empty hint); [|done]. unfold from_int32, is_valid_id. by rewrite leb_true, ltb_true by lia. }
  cbn [mbind option_bind]. rewrite is_valid_good by lia. by rewrite next_is_ok.
Qed.

Lemma new_event_id_ok queue_id hint random q s f : wfq false q -> matches s f -> f queue_id = events q -> roomy s ->
  good_hint hint random ->
  exists s', new_event_id 2 queue_id random hint q s
    = Some (new_id q hint random,
            mk_queue (new_id q hint random) (remaining q) (sum_length (remaining q)) (gc_at q), s')
    /\ stores s' = stores s /\ roomy s' /\ matches s' (upd f queue_id (remaining q)).
Proof.
  intros Hq Hm Hf Hr Hh. destruct (good_first _ _ Hh) as [Hg Hn]. unfold new_id, remaining.
  pose proof (q_tail _ _ _ (wq_ok _ _ Hq)) as Ht. pose proof (wq_total _ _ Hq) as Htot.
  assert (Hsame : matches s (upd f queue_id (events q))).
  { eapply matches_ext; [|exact Hm]. intros x. unfold upd. by destruct (Z.eqb_spec x queue_id) as [->|]. }
  destruct (Z.eqb_spec (tail_id q) 0) as [E|E].
  - exists s. rewrite choose_first by done. rewrite E. cbn. by rewrite Htot.
  - assert (Ee : is_empty (tail_id q) = false) by (by apply Z.eqb_neq). remember 1%nat as n eqn:Hfuel. cbn [new_event_id]. rewrite Ee. cbn [orb mbind option_bind tail_id].
    rewrite is_valid_good by lia. cbn [negb]. destruct (is_ok (next (tail_id q))) eqn:En; cbn [negb].
    + exists s. rewrite Htot. done.
    + destruct (pop_list_ok queue_id 0 (events q) [] [] s f (total_event_length q) Hm) as (s' & E1 & E2 & E3 & E4).
      { by rewrite app_nil_r. }
      { intros e He. by eapply wfq_next. }
      { by eapply wfq_sum. }
      assert (events q ≫= after (stores s) 0 = []) as Ez.
      { assert (Hid : forall e, e ∈ events q -> event_id e + 1 <> 0).
        { intros e He. destruct (q_ids _ _ _ (wq_ok _ _ Hq) e He). lia. }
        clear -Hid. induction (events q) as [|e l IH]; [done|]. cbn. rewrite IH by (intros; apply Hid; set_solver).
        unfold after. rewrite (proj2 (Z.eqb_neq _ _)) by (apply Hid; set_solver). by rewrite andb_false_r. }
      rewrite Ez in *. cbn [events total_event_length gc_at]. rewrite E1. cbn [mbind option_bind]. rewrite Hn.
      pose proof (choose_first queue_id hint random (mk_queue 0 [] (total_event_length q - sum_length (events q)) (gc_at q)) s' 0 Hh eq_refl)
        as Ec. rewrite Hfuel, Ec. exists s'. cbn. rewrite Htot, Z.sub_diag. repeat split; auto.
Qed.

(** The result of [push] by cases: its errors in the order they are looked at. *)
Definition push_error (q : queue) (queue_id : Z) (data : bytes) (expires_at : Z) : option string :=
  if bool_decide (data = []) then Some "Data is empty"%string
  else if MAX_EVENT_LENGTH <? len data then Some "Data is too big"%string
  else if queue_id =? 0 then Some "Queue identifier is invalid"%string
  else if MAX_QUEUE_EVENTS <=? len (events q) then Some "Queue is full"%string
  else if MAX_TOTAL_EVENT_LENGTH <? sum_length (events q) + len data then Some "Queue size is too big"%string
  else if expires_at <=? 0 then Some "Failed to add already expired event"%string
  else None.

Lemma push_ok cb t queue_id data expires extra hint random : tok cb t -> roomy (callback t) -> good_hint hint random ->
  let q := get_queue t queue_id in
  exists r t', push t queue_id data expires extra hint random = Some (r, t') /\ tok cb t'
    /\ stores (callback t') = stores (callback t)
    /\ match push_error q queue_id data expires with
       | Some message => r = Err (Status 0 (lit message)) /\ forall k, get_queue t' k = get_queue t k
       | None => exists log gc, r = Ok (new_id q hint random)
           /\ forall k, get_queue t' k = if k =? queue_id then
                mk_queue (new_id q hint random + 1)
                  (base_of (remaining q) ++ [mk_raw log (new_id q hint random) expires data extra])
                  (sum_length (remaining q) + len data) gc
              else get_queue t k
       end.
Proof.
  intros H Hr Hh q. unfold push, push_error. fold q. pose proof (t_wf _ _ H queue_id) as Hq. fold q in Hq.
  pose proof (wq_total _ _ Hq) as Htot.
  destruct (bool_decide (data = [])); [by eexists _, t|]. destruct (Z.ltb_spec MAX_EVENT_LENGTH (len data)); [by eexists _, t|].
  destruct (Z.eqb_spec queue_id 0); [by eexists _, t|].
  pose proof (tok_get cb t queue_id H ltac:(done)) as H'. fold q in H'. pose proof (fun k => get_queue_set t queue_id k) as Hget. fold q in Hget.
  destruct (Z.leb_spec MAX_QUEUE_EVENTS (len (events q))); [by eexists _, _|].
  replace (MAX_TOTAL_EVENT_LENGTH - len data <? total_event_length q)
    with (MAX_TOTAL_EVENT_LENGTH <? sum_length (events q) + len data) by (rewrite Htot; destruct (Z.ltb_spec (MAX_TOTAL_EVENT_LENGTH - len data) (sum_length (events q))); destruct (Z.ltb_spec MAX_TOTAL_EVENT_LENGTH (sum_length (events q) + len data)); lia).
  destruct (Z.ltb_spec MAX_TOTAL_EVENT_LENGTH (sum_length (events q) + len data)); [by eexists _, _|].
  destruct (Z.leb_spec expires 0); [by eexists _, _|].
  destruct (new_event_id_ok queue_id hint random q (callback t) (events_of t)) as (s1 & E1 & E2 & E3 & E4);
    [by eapply wfq_false|apply H|done|done|done|].
  unfold set_queue. cbn [callback]. rewrite E1. cbn [mbind option_bind queues queue_gc_at].
  rewrite insert_insert_eq. set (id := new_id q hint random) in *. set (q1 := mk_queue id _ _ _).
  destruct (good_first _ _ Hh) as [Hg Hn]. pose proof (q_tail _ _ _ (wq_ok _ _ Hq)) as Ht.
  assert (Hid : good_id id /\ (remaining q = [] \/ remaining q = events q /\ id = tail_id q)).
  { unfold id, new_id, remaining. destruct (Z.eqb_spec (tail_id q) 0) as [E|E]; unfold is_empty.
    - rewrite E. cbn. split; [done|]. left. destruct (events q) as [|e l] eqn:Ee; [done|].
      destruct (q_ids _ _ _ (wq_ok _ _ Hq) e); [rewrite Ee; set_solver|lia].
    - rewrite (proj2 (Z.eqb_neq _ _) E). cbn [orb]. destruct (is_ok (next (tail_id q))) eqn:En; cbn [negb]; [|auto].
      split; [|auto]. unfold next, from_int32, is_valid_id in En. destruct (_ && _) eqn:Ev; [|done].
      apply andb_true_iff in Ev as [_ Ev%Z.ltb_lt]. split; lia. }
  destruct Hid as [[Hid1 Hid2] Hrem].
  assert (Hsub : sum_length (remaining q) <= sum_length (events q) /\ len (remaining q) <= len (events q)).
  { destruct Hrem as [->|[-> _]]; [|lia]. split; [apply sum_nonneg|apply len_nonneg]. }
  assert (Hq1 : wfq false q1).
  { destruct Hrem as [E|[E Ei]]; unfold q1; rewrite E; [|rewrite Ei; destruct q; cbn in *; rewrite <-Htot; by eapply wfq_false].
    split; cbn; try done; try apply Hq. split; cbn; try done; try (by intros e He; apply not_elem_of_nil in He); [constructor|lia]. }
  set (t1 := mk_tqueue (<[queue_id:=q1]> (queues t)) (queue_gc_at t) s1).
  assert (Ht1 : tok false t1).
  { apply tok_update_same; [by eapply tok_false|done..]. }
  assert (Hget1 : forall k, get_queue t1 k = if k =? queue_id then q1 else get_queue t k) by (intros; apply get_set).
  destruct (do_push_ok cb t1 queue_id (mk_raw 0 id expires data extra) Ht1) as (t2 & log & gc & E5 & Ht2 & E6 & _ & Hget2).
  - intros k Hk. rewrite Hget1, (proj2 (Z.eqb_neq _ _) Hk). apply H.
  - done.
  - rewrite Hget1, Z.eqb_refl. split; cbn; try done; lia.
  - done.
  - rewrite E5. cbn [mbind option_bind]. eexists _, t2. split; [done|]. split; [done|]. split; [by rewrite E6|].
    exists log, gc. split; [done|]. intros k. rewrite Hget2, Hget1, Z.eqb_refl, Hget1. by destruct (k =? queue_id).
Qed.
End Push.

(** *** Reading and forgetting *)

Lemma find_event_some id l a e b : find_event id l = Some (a, e, b) -> l = a ++ e :: b /\ event_id e = id.
Proof.
  revert a. induction l as [|x l IH]; intros a; cbn; [done|]. destruct (Z.eqb_spec (event_id x) id).
  - by intros [= <- <- <-].
  - destruct (find_event id l) as [[[a' x'] b']|]; [|done]. intros [= <- <- <-]. by destruct (IH a' eq_refl) as [-> ?].
Qed.

Lemma find_event_none id l : find_event id l = None -> forall e, e ∈ l -> event_id e <> id.
Proof.
  induction l as [|x l IH]; cbn; intros H e He; [by apply not_elem_of_nil in He|].
  destruct (Z.eqb_spec (event_id x) id); [done|]. destruct (find_event id l) as [[[a' x'] b']|] eqn:E; [done|].
  apply elem_of_cons in He as [->|He]; auto.
Qed.

Lemma split_at_app id a b : (forall e, e ∈ a -> event_id e < id) -> (forall e, e ∈ b -> id <= event_id e) ->
  split_at id (a ++ b) = (a, b).
Proof.
  intros Ha Hb. induction a as [|x a IH]; cbn.
  - destruct b as [|y b]; [done|]. cbn. by rewrite ltb_false by (apply Hb; set_solver).
  - rewrite ltb_true by (apply Ha; set_solver). rewrite IH by (intros; apply Ha; set_solver). done.
Qed.

Lemma split_at_ok id l : StronglySorted Z.lt (event_id <$> l) ->
  exists a b, split_at id l = (a, b) /\ l = a ++ b
    /\ (forall e, e ∈ a -> event_id e < id) /\ (forall e, e ∈ b -> id <= event_id e).
Proof.
  induction l as [|x l IH]; cbn; intros Hs.
  - exists [], []. repeat split; try done; intros e He; by apply not_elem_of_nil in He.
  - apply StronglySorted_inv in Hs as [Hs Hx]. destruct (Z.ltb_spec (event_id x) id).
    + destruct (IH Hs) as (a & b & -> & -> & Ha & Hb). exists (x :: a), b. repeat split; try done.
      intros e [->|He]%elem_of_cons; auto.
    + exists [], (x :: l). repeat split; try done; [intros e He; by apply not_elem_of_nil in He|].
      intros e [->|He]%elem_of_cons; [done|]. rewrite Forall_forall in Hx.
      specialize (Hx (event_id e) ltac:(by apply list_elem_of_fmap_2)). lia.
Qed.

(** The events of two parts of a queue. *)
Lemma filter_none {A} (P : A -> Prop) `{Hdec : !forall x, Decision (P x)} (l : list A) : (forall x, x ∈ l -> ~ P x) -> filter P l = [].
Proof.
  induction l as [|x l IH]; intros H; [done|]. rewrite filter_cons_False by (apply H; set_solver). apply IH. intros; apply H; set_solver.
Qed.

Lemma filter_every {A} (P : A -> Prop) `{Hdec : !forall x, Decision (P x)} (l : list A) : (forall x, x ∈ l -> P x) -> filter P l = l.
Proof.
  induction l as [|x l IH]; intros H; [done|]. rewrite filter_cons_True by (apply H; set_solver). f_equal. apply IH. intros; apply H; set_solver.
Qed.

Section Get.
Context {St : Type} `{!storage_ops St} `{!storage_laws St}.
Implicit Types (s : option St) (t : tqueue St).

(** Events of one queue have been popped. *)
Definition popped (p : raw_event -> Prop) t t' (queue_id : Z) (l' : list raw_event) : Prop :=
  tok (stores (callback t)) t' /\ stores (callback t') = stores (callback t)
  /\ trim (stores (callback t)) (tail_id (get_queue t queue_id)) p (events (get_queue t queue_id)) l'
  /\ (forall k, get_queue t' k =
       let q := get_queue t k in
       if k =? queue_id then set_events q l' (total_event_length q - (sum_length (events q) - sum_length l')) else q).

Lemma popped_intro p t queue_id q l' s total : wf t -> queues t !! queue_id = Some q ->
  trim (stores (callback t)) (tail_id q) p (events q) l' -> stores s = stores (callback t) ->
  matches s (upd (events_of t) queue_id l') -> total = total_event_length q - (sum_length (events q) - sum_length l') ->
  popped p t (mk_tqueue (<[queue_id := set_events q l' total]> (queues t)) (queue_gc_at t) s) queue_id l'.
Proof.
  intros H Hq Ht Hs Hm ->. destruct (tok_present _ _ _ _ H Hq) as [H0 Eq]. split; [|split; [done|split]].
  - apply tok_update_same; [done|done| |by cbn; rewrite Eq|done]. eapply wfq_trim; [|exact Ht]. rewrite <-Eq. apply H.
  - by rewrite Eq.
  - intros k. rewrite get_set. cbn. destruct (Z.eqb_spec k queue_id) as [->|]; [by rewrite Eq|done].
Qed.

Lemma popped_refl p t queue_id : wf t -> popped p t t queue_id (events (get_queue t queue_id)).
Proof.
  intros H. split; [done|]. split; [done|]. split; [apply trim_refl|]. intros k. cbn.
  destruct (Z.eqb_spec k queue_id) as [->|]; [|done]. rewrite Z.sub_diag, Z.sub_0_r. by destruct (get_queue t queue_id).
Qed.

Lemma forget_ok t queue_id id : wf t ->
  exists t' l', forget t queue_id id = Some t' /\ popped (fun e => event_id e = id) t t' queue_id l'
    /\ live l' = filter (fun e => event_id e <> id) (live (events (get_queue t queue_id))).
Proof.
  intros H. unfold forget. set (q := get_queue t queue_id).
  assert (Hnone : (forall e, e ∈ events q -> event_id e <> id) -> exists t' l', Some t = Some t'
    /\ popped (fun e => event_id e = id) t t' queue_id l' /\ live l' = filter (fun e => event_id e <> id) (live (events q))).
  { intros Hn. exists t, (events q). split; [done|]. split; [by apply popped_refl|]. rewrite filter_every; [done|].
    intros e [_ He]%list_elem_of_filter. by apply Hn. }
  destruct (queues t !! queue_id) as [q'|] eqn:Eq.
  2:{ apply Hnone. unfold q, get_queue. rewrite Eq. cbn. intros e He. by apply not_elem_of_nil in He. }
  destruct (tok_present _ _ _ _ H Eq) as [H0 Eq']. fold q in Eq'. subst q'.
  pose proof (t_wf _ _ H queue_id) as Hq. fold q in Hq.
  destruct (find_event id (events q)) as [[[a e] b]|] eqn:Ef; [|apply Hnone; by apply find_event_none].
  apply find_event_some in Ef as [El He].
  destruct (pop_step queue_id (tail_id q) a e b (callback t) (events_of t) (total_event_length q))
    as (s' & E1 & E2 & E3 & _ & f' & Hm & Hf & Hu).
  { apply H. } { exact El. } { eapply wfq_next; [exact Hq|]. rewrite El. set_solver. }
  { pose proof (wfq_sum _ _ Hq) as Hs. rewrite El, sum_app, sum_cons in Hs. pose proof (sum_nonneg a). pose proof (sum_nonneg b). lia. }
  rewrite E1. cbn [mbind option_bind]. rewrite E3.
  assert (Ht : trim (stores (callback t)) (tail_id q) (fun e => event_id e = id) (events q) (a ++ after (stores (callback t)) (tail_id q) e ++ b)).
  { rewrite El. apply trim_app; [apply trim_refl|]. constructor; [done|apply trim_refl]. }
  eexists _, _. split; [done|]. split.
  - apply popped_intro; try done.
    + eapply matches_ext; [|exact Hm]. intros k. rewrite <-Hu. unfold upd. destruct (Z.eqb_spec k queue_id) as [->|]; [|done].
      by rewrite Hf, <-app_assoc.
    + rewrite El, !sum_app, sum_after, sum_cons. lia.
  - rewrite El, !live_app, live_after, live_cons, !filter_app. f_equal; [|change ([] ++ live b) with (live b)].
    + symmetry. apply filter_every. intros x [_ Hx]%list_elem_of_filter. pose proof (q_sorted _ _ _ (wq_ok _ _ Hq)) as Hs.
      rewrite El, fmap_app in Hs. apply StronglySorted_app in Hs as (Hs & _ & _).
      specialize (Hs (event_id x) (event_id e) ltac:(by apply list_elem_of_fmap_2) ltac:(cbn; set_solver)). lia.
    + rewrite (filter_none _ (if _ : bool then _ else _)) by (case_match; set_solver). cbn. symmetry. apply filter_every.
      intros x [_ Hx]%list_elem_of_filter. pose proof (q_sorted _ _ _ (wq_ok _ _ Hq)) as Hs.
      rewrite El, fmap_app in Hs. apply StronglySorted_app in Hs as (_ & _ & Hs). cbn in Hs.
      apply StronglySorted_inv in Hs as [_ Hs]. rewrite Forall_forall in Hs.
      specialize (Hs (event_id x) ltac:(by apply list_elem_of_fmap_2)). lia.
Qed.

(** What [get] looks at: the events from an identifier on that are not stale. *)
Definition fresh (from_id now : Z) (l : list raw_event) : list raw_event :=
  filter (fun e => from_id <= event_id e /\ ~ stale now e) l.

Definition dropped_by_get (from_id : Z) (forget_previous : bool) (now : Z) (e : raw_event) : Prop :=
  (forget_previous = true /\ event_id e < from_id) \/ (from_id <= event_id e /\ stale now e).

Lemma fresh_split from_id now a b : (forall e, e ∈ a -> event_id e < from_id) -> (forall e, e ∈ b -> from_id <= event_id e) ->
  fresh from_id now (a ++ b) = filter (fun e => ~ stale now e) b.
Proof.
  intros Ha Hb. unfold fresh. rewrite filter_app, filter_none by (intros e He [? _]; specialize (Ha e He); lia). cbn.
  clear Ha. induction b as [|e b IH]; [done|]. specialize (IH ltac:(intros; apply Hb; set_solver)).
  destruct (decide (stale now e)).
  - rewrite !filter_cons_False by naive_solver. done.
  - assert (from_id <= event_id e) by (apply Hb; set_solver). rewrite !filter_cons_True by done. by rewrite IH.
Qed.

Lemma trim_both cb tail (p1 p2 p : raw_event -> Prop) a b a' b' : trim cb tail p1 a a' -> trim cb tail p2 b b' ->
  (forall e, e ∈ a -> p1 e -> p e) -> (forall e, e ∈ b -> p2 e -> p e) -> trim cb tail p (a ++ b) (a' ++ b').
Proof.
  intros Ha Hb H1 H2. apply trim_app.
  - clear -Ha H1. induction Ha; [constructor|constructor; apply IHHa; intros; apply H1; set_solver|].
    constructor; [apply H1; set_solver|]. apply IHHa. intros; apply H1; set_solver.
  - clear -Hb H2. induction Hb; [constructor|constructor; apply IHHb; intros; apply H2; set_solver|].
    constructor; [apply H2; set_solver|]. apply IHHb. intros; apply H2; set_solver.
Qed.

(** The part of [do_get] after the previous events are gone; [a0] are those. *)
Lemma collect_from queue_id q from_id now n a b s f : wfq (stores s) q -> events q = a ++ b ->
  (forall e, e ∈ a -> event_id e < from_id) -> (forall e, e ∈ b -> from_id <= event_id e) ->
  matches s f -> f queue_id = a ++ b -> exists l' s' total,
    collect queue_id (tail_id q) now n b s (total_event_length q)
      = Some (to_event <$> take n (filter (fun e => ~ stale now e) b), l', s', total)
    /\ trim (stores s) (tail_id q) (stale now) b l' /\ stores s' = stores s /\ matches s' (upd f queue_id (a ++ l'))
    /\ total = total_event_length q - (sum_length b - sum_length l').
Proof.
  intros Hq El Ha Hb Hm Hf. pose proof (wfq_sum _ _ Hq) as Hs. rewrite El, sum_app in Hs. pose proof (sum_nonneg a).
  destruct (collect_ok queue_id (tail_id q) now b n a s f (total_event_length q) Hm Hf) as (l' & s' & E1 & E2 & E3 & E4).
  { intros e He. eapply wfq_next; [exact Hq|]. rewrite El. set_solver. } { lia. }
  exists l', s', (total_event_length q - (sum_length b - sum_length l')). done.
Qed.

Lemma do_get_ok t queue_id q from_id forget_previous now n : wf t -> queues t !! queue_id = Some q ->
  exists l' s total, do_get queue_id q (callback t) from_id forget_previous now n
      = Some (to_event <$> take n (fresh from_id now (events q)), set_events q l' total, s)
    /\ trim (stores (callback t)) (tail_id q) (dropped_by_get from_id forget_previous now) (events q) l'
    /\ stores s = stores (callback t) /\ matches s (upd (events_of t) queue_id l')
    /\ total = total_event_length q - (sum_length (events q) - sum_length l')
    /\ (forget_previous = true -> forall e, e ∈ live l' -> from_id <= event_id e).
Proof.
  intros H Eq. destruct (tok_present _ _ _ _ H Eq) as [H0 Eq'].
  pose proof (t_wf _ _ H queue_id) as Hq. rewrite Eq' in Hq.
  destruct (split_at_ok from_id (events q) (q_sorted _ _ _ (wq_ok _ _ Hq))) as (a & b & Es & El & Ha & Hb).
  assert (Hfq : events_of t queue_id = a ++ b) by (unfold events_of; by rewrite Eq').
  unfold do_get. rewrite El, (fresh_split from_id now a b Ha Hb), <-El. destruct forget_previous.
  - rewrite Es. pose proof (wfq_sum _ _ Hq) as Hs. rewrite El, sum_app in Hs. pose proof (sum_nonneg a). pose proof (sum_nonneg b).
    destruct (pop_list_ok queue_id (tail_id q) a [] b (callback t) (events_of t) (total_event_length q)) as (s1 & E1 & E2 & _ & Hm1).
    { apply H. } { exact Hfq. } { intros e He. eapply wfq_next; [exact Hq|]. rewrite El. set_solver. } { lia. }
    rewrite E1. cbn [mbind option_bind]. set (a1 := a ≫= after (stores (callback t)) (tail_id q)) in *. cbn [app] in Hm1.
    assert (Ha1 : forall e, e ∈ a1 -> event_id e < from_id).
    { intros e (x & He & Hx)%list_elem_of_bind. unfold after in He. case_match; [|by apply not_elem_of_nil in He].
      apply list_elem_of_singleton in He as ->. exact (Ha x Hx). }
    assert (Ht1 : trim (stores (callback t)) (tail_id q) (fun _ => True) (events q) (a1 ++ b)).
    { rewrite El. apply trim_app; [|apply trim_refl]. apply trim_all. by apply Forall_forall. }
    pose proof (wfq_trim _ _ _ _ Hq Ht1) as Hq1. rewrite El, !sum_app in Hq1. unfold a1 in Hq1 at 2. rewrite sum_afters in Hq1.
    replace (sum_length a + sum_length b - (0 + sum_length b)) with (sum_length a) in Hq1 by lia.
    cbn [set_events events tail_id total_event_length]. rewrite split_at_app by done.
    destruct (collect_from queue_id (set_events q (a1 ++ b) (total_event_length q - sum_length a)) from_id now n a1 b s1
      (upd (events_of t) queue_id (a1 ++ b))) as (l' & s' & total & E3 & E4 & E5 & E6 & E7); try done.
    { by rewrite E2. } { by rewrite upd_same. }
    cbn [tail_id total_event_length set_events] in E3, E4, E7. rewrite E3. cbn [mbind option_bind].
    exists (a1 ++ l'), s', total. split; [done|]. rewrite E2 in *. split; [|split; [by rewrite E5|split; [|split]]].
    + rewrite El. eapply trim_both; [apply (trim_all _ _ (fun _ => True)); by apply Forall_forall|exact E4| |].
      * intros e He _. left. split; [done|]. by apply Ha.
      * intros e He Hst. right. split; [|done]. by apply Hb.
    + eapply matches_ext; [|exact E6]. intros k. apply upd_upd.
    + rewrite E7, El, !sum_app. unfold a1. rewrite sum_afters. lia.
    + intros _ e He. rewrite live_app in He. unfold a1 in He. rewrite live_afters in He. cbn in He.
      apply list_elem_of_filter in He as [_ He]. destruct (trim_elem _ _ _ _ _ _ E4 He) as (x & Hx & [->|[-> _]]);
        [by apply Hb|]. exact (Hb x Hx).
  - cbn [mbind option_bind]. rewrite Es.
    destruct (collect_from queue_id q from_id now n a b (callback t) (events_of t)) as (l' & s' & total & E3 & E4 & E5 & E6 & E7); try done.
    { apply H. }
    rewrite E3. cbn [mbind option_bind]. exists (a ++ l'), s', total. split; [done|]. split; [|split; [done|split; [done|split; [|done]]]].
    + rewrite El. eapply trim_both; [apply (trim_refl _ _ (fun _ => False))|exact E4|done|].
      intros e He Hst. right. split; [|done]. by apply Hb.
    + rewrite E7, El, !sum_app. lia.
Qed.

Lemma get_ok t queue_id from_id forget_previous now n : wf t ->
  let q := get_queue t queue_id in
  if bool_decide (queues t !! queue_id = None) then get t queue_id from_id forget_previous now n = Some (Ok 0, [], t)
  else if tail_id q + 10 <? from_id then
    get t queue_id from_id forget_previous now n = Some (Err (Status 0 (lit "Specified from_id is in the future")), [], t)
  else if from_id <? get_queue_head q - MAX_QUEUE_EVENTS then
    get t queue_id from_id forget_previous now n = Some (Err (Status 0 (lit "Specified from_id is in the past")), [], t)
  else exists t' l',
    get t queue_id from_id forget_previous now n
      = Some (Ok (len (live l')), to_event <$> take n (fresh from_id now (events q)), t')
    /\ popped (dropped_by_get from_id forget_previous now) t t' queue_id l'
    /\ (forget_previous = true -> forall e, e ∈ live l' -> from_id <= event_id e).
Proof.
  intros H q. unfold get. destruct (queues t !! queue_id) as [q'|] eqn:Eq; [rewrite bool_decide_eq_false_2 by done|done].
  destruct (tok_present _ _ _ _ H Eq) as [H0 Eq']. fold q in Eq'. subst q'.
  destruct (_ <? from_id); [done|]. destruct (from_id <? _); [done|].
  destruct (do_get_ok t queue_id q from_id forget_previous now n H Eq) as (l' & s & total & E1 & E2 & E3 & E4 & E5 & E6).
  rewrite E1. cbn [mbind option_bind].
  pose proof (popped_intro (dropped_by_get from_id forget_previous now) t queue_id q l' s total H Eq E2 E3 E4 E5) as Hp.
  eexists _, l'. split; [|split; [exact Hp|done]]. do 4 f_equal.
  unfold size_of. cbn [events set_events]. destruct Hp as (Hp & _ & _ & Hg).
  pose proof (t_wf _ _ Hp queue_id) as Hq. rewrite Hg in Hq. cbn in Hq. rewrite Z.eqb_refl in Hq.
  pose proof (wq_ok _ _ Hq) as Hok. cbn [events set_events tail_id] in Hok. destruct (base_of_live _ _ _ Hok) as [_ Hb].
  rewrite <-Hb. unfold base_of. destruct (last l') as [d|] eqn:Ed; [|by apply last_None in Ed as ->].
  apply last_Some in Ed as [k ->]. destruct (bool_decide_reflect (data d = [])); [|lia].
  rewrite removelast_last, len_app, len_cons, len_nil. lia.
Qed.
End Get.

(** *** Clearing *)

Lemma trim_prefix cb tail a b : StronglySorted Z.lt (event_id <$> (a ++ b)) -> (forall e, e ∈ a ++ b -> event_id e < tail) ->
  (cb = true -> b <> []) -> trim cb tail (fun _ => True) (a ++ b) b.
Proof.
  intros Hs Ht Hb. induction a as [|e a IH]; [apply trim_refl|]. cbn in *. apply StronglySorted_inv in Hs as [Hs He].
  assert (after cb tail e = []) as Ea.
  { unfold after. destruct cb; [|done]. destruct b as [|x b]; [by destruct Hb|]. rewrite Forall_forall in He.
    assert (event_id e < event_id x) by (apply He, list_elem_of_fmap_2; set_solver).
    assert (event_id x < tail) by (apply Ht; set_solver). by rewrite (proj2 (Z.eqb_neq _ _)) by lia. }
  assert (H := trim_drop cb tail (fun _ => True) e (a ++ b) b I (IH Hs ltac:(intros; apply Ht; set_solver))).
  by rewrite Ea in H.
Qed.

Lemma foldl_less l total : sum_length l <= total < 2 ^ 64 ->
  foldl (fun total e => less total (len (data e))) total l = total - sum_length l.
Proof.
  revert total. induction l as [|e l IH]; intros total H; cbn; [by rewrite Z.sub_0_r|].
  rewrite sum_cons in *. pose proof (sum_nonneg l). pose proof (len_nonneg (data e)).
  rewrite less_ok by lia. rewrite IH by lia. lia.
Qed.

Lemma size_of_live q cb : wfq cb q -> size_of q = len (live (events q)).
Proof.
  intros Hq. destruct (base_of_live _ _ _ (wq_ok _ _ Hq)) as [_ <-]. unfold size_of, base_of.
  destruct (last (events q)) as [d|] eqn:Ed; [|by apply last_None in Ed as ->].
  apply last_Some in Ed as [k ->]. destruct (bool_decide_reflect (data d = [])); [|lia].
  rewrite removelast_last, len_app, len_cons, len_nil. lia.
Qed.

(** The last events of a queue, as long as one of them is asked for. *)
Lemma live_drop cb tail l n : qok cb tail l -> (n < length l)%nat -> live (drop n l) = drop n (live l).
Proof.
  intros Hl Hn. destruct (base_of_live _ _ _ Hl) as [_ Hb]. destruct (base_of_cases l) as [E|(d & E & Hd)].
  - rewrite E in Hb. rewrite <-Hb. unfold live. apply filter_every. intros e He. rewrite Hb in He.
    eapply elem_of_sublist in He; [|apply sublist_drop]. by apply list_elem_of_filter in He as [? _].
  - rewrite <-Hb. rewrite E at 1. assert (length l = S (length (base_of l))) as Hlen by (rewrite E at 1; rewrite length_app; cbn; lia).
    rewrite drop_app_le by lia. rewrite live_app, live_cons, Hd. cbn. rewrite app_nil_r.
    unfold live. apply filter_every. intros e He. rewrite Hb in He.
    eapply elem_of_sublist in He; [|apply sublist_drop]. by apply list_elem_of_filter in He as [? _].
Qed.

Section Clear.
Context {St : Type} `{!storage_ops St} `{!storage_laws St}.
Implicit Types (s : option St) (t : tqueue St).

Lemma pop_batch_ok queue_id deleted kept : forall st (f : Z -> list raw_event), matches (Some st) f -> f queue_id = deleted ++ kept ->
  matches (Some (storage_pop_batch st (log_event_id <$> deleted))) (upd f queue_id kept).
Proof.
  induction deleted as [|e deleted IH]; intros st f Hm Hf.
  - eapply matches_ext; [|exact Hm]. intros k. unfold upd. by destruct (Z.eqb_spec k queue_id) as [->|].
  - destruct (matches_pop st f queue_id [] e (deleted ++ kept) Hm Hf) as [_ Hm'].
    change (storage_pop_batch st (log_event_id <$> e :: deleted))
      with (storage_pop_batch (storage_pop st (log_event_id e)) (log_event_id <$> deleted)).
    eapply matches_ext; [|apply (IH _ _ Hm'); by rewrite upd_same]. intros k. apply upd_upd.
Qed.

(** The records of the deleted events are removed. *)
Lemma clear_storage_ok queue_id deleted kept s (f : Z -> list raw_event) : matches s f -> f queue_id = deleted ++ kept ->
  matches ((fun st => storage_pop_batch st (List.filter (fun id => negb (id =? 0)) (log_event_id <$> deleted))) <$> s)
    (upd f queue_id kept).
Proof.
  destruct s as [st|]; [|done]. intros Hm Hf. cbn [fmap option_fmap option_map]. rewrite filter_all.
  - by apply pop_batch_ok.
  - intros id (e & -> & He)%list_elem_of_fmap. assert (0 < log_event_id e); [|by apply negb_true_iff, Z.eqb_neq; lia].
    eapply matches_log; [exact Hm|]. rewrite Hf. set_solver.
Qed.

Lemma clear_last_ok t queue_id q : wf t -> queues t !! queue_id = Some q -> events q <> [] ->
  exists n q' s, clear_last queue_id q (callback t) = (n, q', s) /\ stores s = stores (callback t)
    /\ tail_id q' = tail_id q /\ gc_at q' = gc_at q
    /\ matches s (upd (events_of t) queue_id (events q')) /\ live (drop n (events q')) = []
    /\ trim (stores (callback t)) (tail_id q) (fun _ => True) (events q) (drop n (events q')).
Proof.
  intros H Eq Hne. destruct (tok_present _ _ _ _ H Eq) as [H0 Eq'].
  pose proof (t_wf _ _ H queue_id) as Hq. rewrite Eq' in Hq.
  pose proof (q_sorted _ _ _ (wq_ok _ _ Hq)) as Hs. pose proof (q_ids _ _ _ (wq_ok _ _ Hq)) as Hi.
  assert (Hsame : matches (callback t) (upd (events_of t) queue_id (events q))).
  { eapply matches_ext; [|apply H]. intros k. unfold upd, events_of. destruct (Z.eqb_spec k queue_id) as [->|]; [|done]. by rewrite Eq'. }
  unfold clear_last. destruct (callback t) as [st|] eqn:Ec; cbn [stores].
  - destruct (last (events q)) as [e|] eqn:El; [|by apply last_None in El]. pose proof (q_full _ _ _ (wq_ok _ _ Hq)) as Hfull.
    rewrite El in Hfull. specialize (Hfull eq_refl). apply last_Some in El as [k El]. rewrite El, length_app in *. cbn [length].
    assert (0 < log_event_id e) by (eapply matches_log; [exact Hsame|]; rewrite upd_same; set_solver).
    rewrite (proj2 (Z.eqb_neq _ _)) by lia. replace (length k + 1 - 1)%nat with (length k) by lia.
    destruct (bool_decide_reflect (data e = [])) as [Hd|Hd].
    + exists (length k), q, (Some st). rewrite El, drop_app_length. repeat split; try done; [apply Hsame..| |].
      * by rewrite live_cons, Hd.
      * apply trim_prefix; [done| |done]. intros x Hx. by apply Hi.
    + rewrite removelast_last. eexists _, _, _. split; [done|]. cbn [events tail_id gc_at set_events].
      rewrite drop_app_length. split; [done|]. split; [done|]. split; [done|]. split; [|split; [done|]].
      * destruct (matches_rewrite st (upd (events_of t) queue_id (k ++ [e])) queue_id k e [] Hsame) as [_ Hm]; [by rewrite upd_same|].
        eapply matches_ext; [|exact Hm]. intros x. apply upd_upd.
      * assert (Ht := trim_drop true (tail_id q) (fun _ => True) e [] [] I (trim_nil _ _ _)). unfold after in Ht. cbn [andb] in Ht.
        rewrite (proj2 (Z.eqb_eq _ _) Hfull) in Ht. rewrite app_nil_r in Ht.
        assert (Hk : trim true (tail_id q) (fun _ => True) (k ++ [e]) [e]) by (apply trim_prefix; [done| |done]; intros x Hx; by apply Hi).
        clear -Hs Hi Ht Hk. change [without_data e] with ([] ++ [without_data e]). apply trim_app; [|exact Ht].
        assert (Hp : trim true (tail_id q) (fun _ => True) k (k ≫= after true (tail_id q))) by (apply trim_all; by apply Forall_forall).
        replace (k ≫= after true (tail_id q)) with (@nil raw_event) in Hp; [done|]. symmetry.
        rewrite fmap_app in Hs. apply StronglySorted_app in Hs as (Hs & _ & _).
        assert (Hk2 : forall x, x ∈ k -> event_id x + 1 <> tail_id q).
        { intros x Hx. assert (event_id x < event_id e) by (apply Hs; [by apply list_elem_of_fmap_2|cbn; set_solver]).
          destruct (Hi e); [set_solver|lia]. }
        clear -Hk2. induction k as [|x k IH]; [done|]. cbn. rewrite IH by (intros; apply Hk2; set_solver).
        unfold after. by rewrite (proj2 (Z.eqb_neq _ _)) by (apply Hk2; set_solver).
  - exists (length (events q)), q, None. rewrite drop_all. repeat split; try done.
    rewrite <-(app_nil_r (events q)) at 1. apply trim_prefix; rewrite ?app_nil_r; try done. intros x Hx. by apply Hi.
Qed.

Lemma clear_ok t queue_id keep_count : wf t -> 0 <= keep_count ->
  let q := get_queue t queue_id in
  if size_of q <=? keep_count then clear t queue_id keep_count = ([], t)
  else exists deleted t' l', clear t queue_id keep_count = (deleted, t')
    /\ popped (fun _ => True) t t' queue_id l'
    /\ live l' = if keep_count =? 0 then [] else drop (length (events q) - Z.to_nat keep_count) (live (events q)).
Proof.
  intros H Hk q. unfold clear. destruct (queues t !! queue_id) as [q'|] eqn:Eq.
  2:{ unfold q, get_queue. rewrite Eq. cbn. by rewrite leb_true. }
  destruct (tok_present _ _ _ _ H Eq) as [H0 Eq']. fold q in Eq'. subst q'.
  pose proof (t_wf _ _ H queue_id) as Hq. fold q in Hq. pose proof (wfq_sum _ _ Hq) as Hsum. pose proof (wq_total _ _ Hq) as Htot.
  destruct (Z.leb_spec (size_of q) keep_count) as [|Hsize]; [done|].
  pose proof (size_of_live _ _ Hq) as Hlive. destruct (Z.eqb_spec keep_count 0) as [->|Hne].
  - destruct (clear_last_ok t queue_id q H Eq) as (n & q1 & s & E & Es & Et & Eg & Hm & Hl & Ht).
    { intros E. rewrite E in Hlive. change (len (live [])) with 0 in Hlive. lia. }
    rewrite E. cbn iota. rewrite ltb_false by (apply Z.div_pos; lia).
    exists (take n (events q1)). eexists _, (drop n (events q1)). split; [done|]. split; [|done].
    replace (set_events q1 (drop n (events q1)) (sum_length (drop n (events q1))))
      with (set_events q (drop n (events q1)) (sum_length (drop n (events q1)))) by (unfold set_events; by rewrite Et, Eg).
    apply popped_intro; try done; [by destruct s|..|lia].
    eapply matches_ext; [|apply (clear_storage_ok queue_id (take n (events q1)) (drop n (events q1)) s _ Hm)].
    + intros k. apply upd_upd.
    + by rewrite upd_same, take_drop.
  - set (n := (length (events q) - Z.to_nat keep_count)%nat). cbn iota.
    assert (Hn : (n < length (events q))%nat).
    { unfold n. assert (len (live (events q)) <= len (events q)); [|unfold len in *; lia].
      pose proof (sublist_length _ _ (sublist_filter (fun e => data e <> []) (events q))) as Hsl. unfold len, live. lia. }
    exists (take n (events q)). eexists _, (drop n (events q)). split; [done|]. split; [|by apply (live_drop _ _ _ _ (wq_ok _ _ Hq))].
    assert (sum_length (events q) = sum_length (take n (events q)) + sum_length (drop n (events q))) as Hsplit
      by (rewrite <-sum_app, take_drop; done).
    pose proof (sum_nonneg (drop n (events q))).
    apply popped_intro; try done.
    + rewrite <-(take_drop n (events q)) at 1. apply trim_prefix.
      * rewrite take_drop. apply (q_sorted _ _ _ (wq_ok _ _ Hq)).
      * rewrite take_drop. intros e He. by apply (q_ids _ _ _ (wq_ok _ _ Hq)).
      * intros _ Hd. apply (f_equal length) in Hd. rewrite length_drop in Hd. cbn in Hd. lia.
    + by destruct (callback t).
    + apply (clear_storage_ok queue_id (take n (events q))); [apply H|]. rewrite take_drop. done.
    + destruct (_ <? keep_count); [rewrite foldl_less by lia|]; lia.
Qed.
End Clear.

(** *** Garbage collection *)

Lemma pruned_weaken_in {A} (p p' : A -> Prop) a b : (forall x, x ∈ a -> p x -> p' x) -> pruned p a b -> pruned p' a b.
Proof.
  intros Hp H. induction H as [|x l l' _ IH|x l l' Hx _ IH]; constructor; try (apply IH; intros; apply Hp; set_solver).
  apply Hp; set_solver.
Qed.

Lemma trim_stale_live cb tail now l l' : trim cb tail (stale now) l l' -> pruned (fun e => expires_at e < now) (live l) (live l').
Proof.
  intros H%trim_live. eapply pruned_weaken_in; [|exact H]. intros e [Hd _]%list_elem_of_filter [|]; done.
Qed.

Section Gc.
Context {St : Type} `{!storage_ops St} `{!storage_laws St}.
Implicit Types (s : option St) (t : tqueue St).

(** The number of events in all queues. *)
Definition total_size t : Z := map_fold (fun _ q n => size_of q + n) 0 (queues t).

Lemma total_size_insert queue_id q set s t : queues t !! queue_id = None ->
  total_size (mk_tqueue (<[queue_id := q]> (queues t)) set s) = size_of q + total_size t.
Proof. intros H. unfold total_size. cbn. rewrite map_fold_insert_L; [done|intros; lia|done]. Qed.

Lemma total_size_update queue_id q q' set s t : queues t !! queue_id = Some q ->
  total_size (mk_tqueue (<[queue_id := q']> (queues t)) set s) = total_size t - size_of q + size_of q'.
Proof.
  intros H. unfold total_size. cbn. rewrite <-(insert_delete_id (queues t) queue_id q H) at 2.
  rewrite <-insert_delete_eq. rewrite !map_fold_insert_L by first [apply lookup_delete_eq | intros; lia]. lia.
Qed.

(** The times that have passed. *)
Definition due (now : Z) (set : list (Z * Z)) : list (Z * Z) := filter (fun x => x.1 < now) set.

Lemma scheduled_nodup set times : scheduled set times -> NoDup set.
Proof.
  intros [Hs _]. induction Hs as [|x l _ IH Hx]; constructor; [|done]. intros Hin. rewrite Forall_forall in Hx.
  specialize (Hx x Hin). apply gc_lt_spec in Hx. lia.
Qed.

Lemma due_less now set set' (times times' : Z -> Z) g k : scheduled set times -> scheduled set' times' -> (g, k) ∈ set -> g < now ->
  (times' k = 0 \/ now <= times' k) -> (forall x, x <> k -> times' x = times x) ->
  (length (due now set') < length (due now set))%nat.
Proof.
  intros H H' Hin Hg Hk Hother. unfold due.
  assert (((g, k) :: due now set') ⊆+ due now set) as Hsub%submseteq_length; [|cbn in Hsub; unfold due in Hsub; lia].
  apply NoDup_submseteq.
  - constructor; [|apply NoDup_filter; by eapply scheduled_nodup].
    intros [Hlt Hin']%list_elem_of_filter. apply H' in Hin' as [Hg0 Ht]. cbn in Hlt. lia.
  - intros [a x] [E|Hx]%elem_of_cons; [injection E as -> ->; by apply list_elem_of_filter|].
    apply list_elem_of_filter in Hx as [Hlt Hx]. apply list_elem_of_filter. split; [done|]. apply H' in Hx as [Ha Ht].
    cbn in Hlt. apply H. split; [done|]. destruct (decide (x = k)) as [->|Hne]; [lia|]. by rewrite <-Hother.
Qed.

(** What a collection may do. *)
Definition collected (now : Z) t t' : Prop :=
  forall k, tail_id (get_queue t' k) = tail_id (get_queue t k)
    /\ pruned (fun e => expires_at e < now) (live (events (get_queue t k))) (live (events (get_queue t' k))).

Lemma collected_trans now t1 t2 t3 : collected now t1 t2 -> collected now t2 t3 -> collected now t1 t3.
Proof. intros H1 H2 k. destruct (H1 k), (H2 k). split; [congruence|]. by eapply pruned_trans. Qed.

Context (late : nat -> bool) (Hlate : forall i j, (i <= j)%nat -> late i = true -> late j = true).

(** One turn of the loop. *)
Lemma gc_turn cb t now at_ queue_id rest counter i : tok cb t -> cb = stores (callback t) -> queue_gc_at t = (at_, queue_id) :: rest ->
  at_ < now ->
  let q := get_queue t queue_id in
  gc_at q = at_ /\ exists l s total new_gc_at counter' i' set',
    gc_events late queue_id (tail_id q) now (events q) (callback t) (total_event_length q) 0 counter i
      = Some (l, s, total, new_gc_at, counter', i')
    /\ size_of (set_events q l total) <= size_of q
    /\ schedule_queue_gc queue_id (set_events q l total) (queue_gc_at t) new_gc_at
       = Some (mk_queue (tail_id q) l total new_gc_at, set')
    /\ let t' := mk_tqueue (<[queue_id := mk_queue (tail_id q) l total new_gc_at]> (queues t)) set' s in
       tok cb t' /\ stores s = stores (callback t) /\ collected now t t'
       /\ total_size t' = total_size t - (size_of q - size_of (set_events q l total))
       /\ (late i' = false -> (length (due now (queue_gc_at t')) < length (due now (queue_gc_at t)))%nat) /\ (i <= i')%nat.
Proof using Type*.
  intros H Hcb Hset Hat q. pose proof (t_gc _ _ H) as Hg.
  assert ((at_, queue_id) ∈ queue_gc_at t) as Hin by (rewrite Hset; by apply elem_of_cons; left).
  pose proof (proj1 (proj2 Hg at_ queue_id) Hin) as [Hat0 Hq0]. fold q in Hq0. split; [done|].
  assert (exists q', queues t !! queue_id = Some q') as [q' Eq].
  { unfold q, get_queue in Hq0. destruct (queues t !! queue_id); [by eexists|]. cbn in Hq0. congruence. }
  destruct (tok_present _ _ _ _ H Eq) as [H0 Eq']. fold q in Eq'. subst q'.
  pose proof (t_wf _ _ H queue_id) as Hq. fold q in Hq.
  destruct (gc_events_ok late queue_id (tail_id q) now (events q) [] (callback t) (events_of t) (total_event_length q) 0 counter i)
    as (l & s & new & counter' & i' & E1 & E2 & E3 & E4 & E5 & E6 & E7 & E8 & E9); try done.
  { apply H. }
  { intros e He. split; [by eapply wfq_next|]. by apply (q_sizes _ _ _ (wq_ok _ _ Hq)). }
  { by eapply wfq_sum. }
  set (total := total_event_length q - (sum_length (events q) - sum_length l)) in *.
  rewrite <-Hcb in E2. pose proof (wfq_trim _ _ _ _ Hq E2) as Hq1. fold total in Hq1.
  pose proof (trim_stale_live _ _ _ _ _ E2) as Hp.
  assert (size_of (set_events q l total) <= size_of q) as Hsz.
  { rewrite (size_of_live _ _ Hq1), (size_of_live _ _ Hq). change (events (set_events q l total)) with l. pose proof (sublist_length _ _ (pruned_sublist _ _ _ Hp)). unfold len. lia. }
  destruct (schedule_ok queue_id (set_events q l total) (queue_gc_at t) (fun k => gc_at (get_queue t k)) new Hg) as (set' & Es & Hs'); [done|].
  exists l, s, total, new, counter', i', set'. split; [done|]. split; [done|]. split; [exact Es|]. cbn zeta.
  set (t' := mk_tqueue _ set' s).
  assert (Hget : forall k, get_queue t' k = if k =? queue_id then mk_queue (tail_id q) l total new else get_queue t k)
    by (intros; apply get_set).
  split; [|split; [done|split; [|split; [|split; [|done]]]]].
  - apply tok_update; [done|done| |exact Hs'|exact E4]. destruct Hq1 as [R1 R2 R3 R4 R5 R6]. by split.
  - intros k. rewrite Hget. destruct (Z.eqb_spec k queue_id) as [->|]; [|split; [done|apply pruned_refl]]. fold q. cbn. done.
  - unfold t'. rewrite (total_size_update _ q) by done. change (size_of (mk_queue (tail_id q) l total new)) with (size_of (set_events q l total)). lia.
  - intros Hl. cbn. eapply (due_less now _ _ _ _ at_ queue_id Hg Hs'); try done.
    + rewrite Z.eqb_refl. destruct (E8 eq_refl) as [->|[?|(j & Hj & Hlj)]]; [by left|by right|].
      rewrite (Hlate j i') in Hl; [done|lia|done].
    + intros x Hx. by rewrite (proj2 (Z.eqb_neq _ _)).
Qed.

Lemma gc_loop_ok cb fuel : forall t now deleted counter i, tok cb t -> cb = stores (callback t) ->
  (length (due now (queue_gc_at t)) <= fuel)%nat ->
  exists finished t', gc_loop late fuel t now deleted counter i = Some (deleted + (total_size t - total_size t'), finished, t')
    /\ tok cb t' /\ stores (callback t') = stores (callback t) /\ collected now t t' /\ total_size t' <= total_size t
    /\ (finished = true -> forall k, gc_at (get_queue t' k) = 0 \/ now <= gc_at (get_queue t' k))
    /\ (finished = false -> exists i, late i = true).
Proof using Type*.
  induction fuel as [|fuel IH]; intros t now deleted counter i H Hcb Hf; cbn [gc_loop].
  all: destruct (queue_gc_at t) as [|[at_ queue_id] rest] eqn:Eset.
  1,3: exists true, t; rewrite Z.sub_diag, Z.add_0_r; split; [done|]; split; [done|]; split; [done|];
    (split; [intros k; split; [done|apply pruned_refl]|]); (split; [done|]); (split; [|done]); intros _ k; left;
    destruct (decide (gc_at (get_queue t k) = 0)) as [|Hne]; [done|];
    assert ((gc_at (get_queue t k), k) ∈ queue_gc_at t) as Hin by (by apply (t_gc _ _ H)); rewrite Eset in Hin; by apply not_elem_of_nil in Hin.
  all: destruct (Z.leb_spec now at_) as [Hle|Hlt].
  1,3: exists true, t; rewrite Z.sub_diag, Z.add_0_r; split; [done|]; split; [done|]; split; [done|];
    (split; [intros k; split; [done|apply pruned_refl]|]); (split; [done|]); (split; [|done]); intros _ k;
    destruct (decide (gc_at (get_queue t k) = 0)) as [|Hne]; [by left|right];
    assert ((gc_at (get_queue t k), k) ∈ queue_gc_at t) as Hin by (by apply (t_gc _ _ H));
    pose proof (t_gc _ _ H) as [Hs _]; rewrite Eset in Hs, Hin; apply StronglySorted_inv in Hs as [_ Hs];
    apply elem_of_cons in Hin as [E|Hin]; [injection E as -> ->; done|]; rewrite Forall_forall in Hs;
    specialize (Hs _ Hin); apply gc_lt_spec in Hs; cbn in Hs; lia.
  - exfalso. unfold due in Hf. rewrite filter_cons_True in Hf by done. cbn in Hf. lia.
  - rewrite <-Eset in Hf.
    destruct (gc_turn cb t now at_ queue_id rest counter i H Hcb Eset Hlt)
      as (Eg & l & s & total & new & counter' & i' & set' & E1 & E2 & E3 & H1 & E4 & E5 & E6 & E7 & E8).
    rewrite Eg, Z.eqb_refl. cbn [negb]. rewrite E1. cbn [mbind option_bind].
    rewrite ltb_false by done. rewrite Eset in E3. rewrite E3. cbn [mbind option_bind].
    set (t1 := mk_tqueue _ set' s) in *. destruct (late i') eqn:El.
    + exists false, t1. rewrite E6. split; [do 3 f_equal; lia|]. split; [done|]. split; [done|]. split; [done|]. split; [lia|]. split; [done|]. by exists i'.
    + destruct (IH t1 now (deleted + (size_of (get_queue t queue_id) - size_of (set_events (get_queue t queue_id) l total))) counter' (S i'))
        as (finished & t2 & E9 & H2 & E10 & E11 & E12 & E13); [done|by rewrite Hcb|specialize (E7 eq_refl); lia|].
      exists finished, t2. rewrite E9, E6. split; [do 3 f_equal; lia|]. split; [done|]. split; [by rewrite E10|].
      split; [by eapply collected_trans|]. split; [lia|done].
Qed.

Lemma run_gc_ok t now : wf t ->
  exists finished t', run_gc late t now = Some (total_size t - total_size t', finished, t')
    /\ wf t' /\ stores (callback t') = stores (callback t) /\ collected now t t' /\ total_size t' <= total_size t
    /\ (finished = true -> forall k, gc_at (get_queue t' k) = 0 \/ now <= gc_at (get_queue t' k))
    /\ (finished = false -> exists i, late i = true).
Proof using Type*.
  intros H. destruct (gc_loop_ok _ (length (queue_gc_at t)) t now 0 0 0 H eq_refl) as (finished & t' & E1 & E2 & E3 & E4 & E5 & E6).
  { apply sublist_length, sublist_filter. }
  exists finished, t'. split; [exact E1|]. unfold wf. rewrite E3. done.
Qed.
End Gc.

(** *** Replay *)

Lemma full_tail tail l : qok true tail l -> tail = match last l with Some e => event_id e + 1 | None => 0 end.
Proof. intros H. pose proof (q_full _ _ _ H eq_refl). by destruct (last l). Qed.

Section Replay.
Context {St : Type} `{!storage_ops St} `{!storage_laws St}.
Implicit Types (t : tqueue St).

Lemma tok_create cb : tok cb (@create St).
Proof.
  split; [|done| |done]; [intros k; unfold get_queue; cbn; rewrite lookup_empty; apply wfq_empty|].
  split; [constructor|]. intros at_ k. unfold get_queue. cbn. rewrite lookup_empty. cbn. split; [by intros ?%not_elem_of_nil|naive_solver].
Qed.

(** The next record of a storage is accepted. *)
Lemma replay_acceptable t t0 queue_id e done rest : wf t0 -> stores (callback t0) = true -> tok true t ->
  events (get_queue t0 queue_id) = done ++ e :: rest -> events (get_queue t queue_id) = done ->
  acceptable (get_queue t queue_id) queue_id e /\ base_of done = done.
Proof.
  intros H0 Hst H E0 E. pose proof (t_wf _ _ H0 queue_id) as Hq0. rewrite Hst in Hq0. pose proof (t_wf _ _ H queue_id) as Hq.
  assert (e ∈ events (get_queue t0 queue_id)) as Hin by (rewrite E0; set_solver).
  destruct (q_ids _ _ _ (wq_ok _ _ Hq0) e Hin) as [Hi1 Hi2]. pose proof (q_tail _ _ _ (wq_ok _ _ Hq0)) as Ht0.
  destruct (q_sizes _ _ _ (wq_ok _ _ Hq0) e Hin) as [Hz1 Hz2].
  pose proof (wq_max _ _ Hq0) as Hmax. pose proof (wq_count _ _ Hq0) as Hcount. rewrite E0, sum_app, sum_cons in Hmax.
  rewrite E0, len_app, len_cons in Hcount. pose proof (sum_nonneg rest). pose proof (len_nonneg rest).
  assert (Hlt : forall x, x ∈ done -> event_id x < event_id e).
  { intros x Hx. pose proof (q_sorted _ _ _ (wq_ok _ _ Hq0)) as Hs. rewrite E0, fmap_app in Hs.
    apply StronglySorted_app in Hs as (Hs & _ & _). apply Hs; [by apply list_elem_of_fmap_2|cbn; set_solver]. }
  split.
  - split; try done; try lia.
    + intros ->. unfold get_queue in E0. rewrite (t_zero _ _ H0) in E0. by destruct done.
    + rewrite E. lia.
    + rewrite E. lia.
    + rewrite (full_tail _ _ (wq_ok _ _ Hq)), E. destruct (last done) as [d|] eqn:El; [|lia].
      apply last_Some in El as [k ->]. specialize (Hlt d ltac:(set_solver)). lia.
  - pose proof (wq_ok _ _ Hq) as Hok. rewrite E in Hok. destruct (base_of_live _ _ _ Hok) as [_ ->]. apply filter_every.
    intros x Hx Hd. pose proof (q_dead _ _ _ (wq_ok _ _ Hq0) x ltac:(rewrite E0; set_solver) Hd). specialize (Hlt x Hx). lia.
Qed.

Lemma replay_ok st t0 : wf t0 -> callback t0 = Some st -> forall rest done t, storage_records st = done ++ rest ->
  tok true t -> callback t = None -> (forall k, events (get_queue t k) = of_queue k done) ->
  exists t', replay rest t = Some t' /\ tok true t' /\ callback t' = None
    /\ forall k, events (get_queue t' k) = of_queue k (storage_records st).
Proof.
  intros H0 Hst. induction rest as [|[id [queue_id e]] rest IH]; intros dn t Hrec H Hcb Hev.
  - exists t. rewrite app_nil_r in Hrec. by rewrite Hrec.
  - cbn [replay]. set (e' := with_log_event_id e id).
    assert (events (get_queue t0 queue_id) = of_queue queue_id dn ++ e' :: of_queue queue_id rest) as E0.
    { pose proof (t_matches _ _ H0) as Hm. rewrite Hst in Hm. destruct Hm as [_ Hm].
      change (events (get_queue t0 queue_id)) with (events_of t0 queue_id). rewrite <-Hm, Hrec, of_queue_app, of_queue_cons.
      by rewrite Z.eqb_refl. }
    destruct (replay_acceptable t t0 queue_id e' _ _ H0 ltac:(by rewrite Hst) H E0 (Hev queue_id)) as [Ha Hb].
    destruct (do_push_ok true t queue_id e') as (t1 & id' & gc & E1 & H1 & E2 & E3 & E4).
    + by eapply tok_false.
    + intros k _. apply H.
    + by rewrite Hcb.
    + done.
    + by rewrite Hcb.
    + rewrite E1. cbn [mbind option_bind]. apply (IH (dn ++ [(id, (queue_id, e))]) t1).
      * by rewrite Hrec, <-app_assoc.
      * done.
      * rewrite Hcb in E2. by destruct (callback t1).
      * intros k. rewrite E4, of_queue_app, of_queue_cons, (E3 Hcb). rewrite (Z.eqb_sym queue_id).
        destruct (Z.eqb_spec k queue_id) as [->|]; [|by rewrite Hev, app_nil_r]. cbn. by rewrite Hev, Hb.
Qed.

(** What [replay] adds is loaded, and nothing fails. *)
Lemma replay_load records : forall t t' failed, replay records t = Some t' -> load records t failed = Some (failed, t').
Proof.
  induction records as [|[id [queue_id e]] records IH]; intros t t' failed; cbn [replay load]; [by intros [= <-]|].
  destruct (do_push t queue_id (with_log_event_id e id)) as [[is_added t1]|] eqn:E; [|done]. cbn [mbind option_bind].
  destruct is_added; [|done]. intros Hr. unfold replay_record.
  assert (exists i, from_int32 (event_id e) = Ok i) as [i ->].
  { unfold do_push in E. change (event_id (with_log_event_id e id)) with (event_id e) in E. unfold is_valid in E. unfold from_int32.
    destruct (is_valid_id (event_id e)); [by eexists|]. by rewrite andb_false_r in E. }
  rewrite E. cbn [mbind option_bind]. by apply IH.
Qed.

Lemma restart_ok t st : wf t -> callback t = Some st ->
  exists t1 t', replay (storage_records st) create = Some t1 /\ restart t = Some t' /\ t' = set_callback t1 st
    /\ wf t' /\ callback t' = Some st /\ forall k, events (get_queue t' k) = events (get_queue t k) /\ tail_id (get_queue t' k) = tail_id (get_queue t k).
Proof.
  intros H Hst. pose proof (t_matches _ _ H) as Hm. rewrite Hst in Hm. destruct Hm as [Hv Hm]. unfold restart. rewrite Hst.
  destruct (replay_ok st t H Hst (storage_records st) [] create) as (t' & E1 & H1 & E2 & E3); try done.
  { apply tok_create. }
  rewrite (replay_load _ _ _ [] E1). cbn [mbind option_bind foldl]. exists t', (set_callback t' st). split; [done|]. split; [done|]. split; [done|].
  assert (Hev : forall k, events (get_queue t' k) = events (get_queue t k)) by (intros k; rewrite E3; apply Hm).
  split; [|split; [done|]].
  - destruct H1 as [R1 R2 R3 R4]. split; [exact R1|exact R2|exact R3|]. cbn. split; [done|]. intros k. by rewrite <-E3.
  - intros k. change (get_queue (set_callback t' st) k) with (get_queue t' k). split; [done|].
    pose proof (t_wf _ _ H k) as Hq. unfold wf in H. rewrite Hst in Hq. cbn in Hq.
    rewrite (full_tail _ _ (wq_ok _ _ (t_wf _ _ H1 k))), (full_tail _ _ (wq_ok _ _ Hq)). by rewrite Hev.
Qed.
End Replay.

(** ** What the queues promise *)

(** The events of a queue that can be read, and the identifier after the last
    one that was given. *)
Record view := mk_view { v_live : list event; v_tail : Z }.

Section Views.
Context {St : Type} `{!storage_ops St} `{!storage_laws St}.
Implicit Types (t : tqueue St).

Definition view_of t (queue_id : Z) : view :=
  mk_view (to_event <$> live (events (get_queue t queue_id))) (tail_id (get_queue t queue_id)).

Inductive op :=
| Push (queue_id : Z) (data : bytes) (expires_at extra hint_new_id random : Z)
| Forget (queue_id id : Z)
| Get (queue_id from_id : Z) (forget_previous : bool) (unix_time_now : Z) (n : nat)
| Clear (queue_id keep_count : Z)
| RunGc (unix_time_now : Z) (late : nat -> bool)
| Restart.

Inductive output :=
| Pushed (r : result Z)
| Done
| Got (r : result Z) (l : list event)
| Collected (deleted_events : Z) (finished : bool).

Definition apply_op t (o : op) : option (output * tqueue St) :=
  match o with
  | Push queue_id data expires_at extra hint random =>
    '(r, t) ← push t queue_id data expires_at extra hint random; Some (Pushed r, t)
  | Forget queue_id id => t ← forget t queue_id id; Some (Done, t)
  | Get queue_id from_id forget_previous now n =>
    '(r, l, t) ← get t queue_id from_id forget_previous now n; Some (Got r l, t)
  | Clear queue_id keep_count => Some (Done, (clear t queue_id keep_count).2)
  | RunGc now late => '(n, finished, t) ← run_gc late t now; Some (Collected n finished, t)
  | Restart => t ← restart t; Some (Done, t)
  end.

(** The values the types of the arguments allow; that the storage has
    identifiers left; a clock that does not go back; a storage to start from. *)
Definition allowed t (o : op) : Prop :=
  match o with
  | Push _ _ _ _ hint random => good_hint hint random /\ roomy (callback t)
  | Clear _ keep_count => 0 <= keep_count
  | RunGc _ late => forall i j, (i <= j)%nat -> late i = true -> late j = true
  | Restart => stores (callback t) = true
  | _ => True
  end.

(** The states of the queues, with or without a storage. *)
Inductive reached : tqueue St -> Prop :=
| reached_create : reached create
| reached_storage st : valid st -> storage_records st = [] -> reached (set_callback create st)
| reached_step t o out t' : reached t -> allowed t o -> apply_op t o = Some (out, t') -> reached t'.

Definition replaced (v v' : Z -> view) (queue_id : Z) (x : view) : Prop :=
  forall k, v' k = if k =? queue_id then x else v k.

Definition total_data (l : list event) : Z := foldr (fun e n => len (ev_data e) + n) 0 l.

(** What [get] may drop, and what it shows. *)
Definition may_drop (from_id : Z) (forget_previous : bool) (now : Z) (e : event) : Prop :=
  (forget_previous = true /\ ev_id e < from_id) \/ (from_id <= ev_id e /\ ev_expires_at e < now).
Definition visible (from_id now : Z) (l : list event) : list event :=
  filter (fun e => from_id <= ev_id e /\ now <= ev_expires_at e) l.

(** The abstract queues: how an operation changes the views, and its result. *)
Definition spec (o : op) (v : Z -> view) (out : output) (v' : Z -> view) : Prop :=
  match o, out with
  | Push k data expires extra hint random, Pushed (Ok id) =>
    id = (if (v_tail (v k) =? 0) || (v_tail (v k) =? MAX_ID - 1) then first_id hint random else v_tail (v k))
    /\ replaced v v' k (mk_view ((if v_tail (v k) =? MAX_ID - 1 then [] else v_live (v k)) ++ [mk_event id expires data extra])
                        (id + 1))
    /\ data <> [] /\ 0 < expires
  | Push k data expires extra hint random, Pushed (Err _) =>
    (forall q, v' q = v q)
    /\ (data = [] \/ MAX_EVENT_LENGTH < len data \/ k = 0 \/ expires <= 0 \/ MAX_QUEUE_EVENTS <= len (v_live (v k)) + 1
        \/ MAX_TOTAL_EVENT_LENGTH < total_data (v_live (v k)) + len data)
  | Forget k id, Done => replaced v v' k (mk_view (filter (fun e => ev_id e <> id) (v_live (v k))) (v_tail (v k)))
  | Get k from_id forget_previous now n, Got (Ok size) l =>
    l = take n (visible from_id now (v_live (v k)))
    /\ exists live', replaced v v' k (mk_view live' (v_tail (v k))) /\ size = len live'
       /\ pruned (may_drop from_id forget_previous now) (v_live (v k)) live'
       /\ (forget_previous = true -> Forall (fun e => from_id <= ev_id e) live')
  | Get k from_id _ _ _, Got (Err _) l =>
    l = [] /\ (forall q, v' q = v q)
    /\ (v_tail (v k) + 10 < from_id \/ from_id < v_tail (v k) - MAX_QUEUE_EVENTS \/
        exists e, head (v_live (v k)) = Some e /\ from_id < ev_id e - MAX_QUEUE_EVENTS)
  | Clear k keep_count, Done =>
    let l := v_live (v k) in
    exists n, replaced v v' k (mk_view (drop n l) (v_tail (v k)))
      /\ (len l <= keep_count -> n = 0%nat)
      /\ (keep_count < len l -> keep_count - 1 <= len (drop n l) <= keep_count)
      /\ (keep_count = 0 -> drop n l = [])
  | RunGc now _, Collected n finished =>
    (forall k, v_tail (v' k) = v_tail (v k)
      /\ pruned (fun e => ev_expires_at e < now) (v_live (v k)) (v_live (v' k))) /\ 0 <= n
  | Restart, Done => forall k, v' k = v k
  | _, _ => False
  end.

(** *** The invariant along a run *)

Lemma wf_create : wf (@create St).
Proof. apply tok_create. Qed.

Lemma wf_storage st : valid st -> storage_records st = [] -> wf (set_callback create st).
Proof.
  intros Hv Hr. destruct (tok_create true) as [R1 R2 R3 _]. split; [exact R1|exact R2|exact R3|]. cbn. split; [done|].
  intros k. rewrite Hr. unfold events_of, get_queue. cbn. by rewrite lookup_empty.
Qed.

Lemma view_same t t' : (forall k, get_queue t' k = get_queue t k) -> forall k, view_of t' k = view_of t k.
Proof. intros H k. unfold view_of. by rewrite H. Qed.

Lemma popped_view p t t' k l' : popped p t t' k l' ->
  replaced (view_of t) (view_of t') k (mk_view (to_event <$> live l') (tail_id (get_queue t k))).
Proof.
  intros (_ & _ & _ & H) x. unfold view_of. rewrite H. cbn. by destruct (Z.eqb_spec x k) as [->|].
Qed.

Lemma popped_wf p t t' k l' : popped p t t' k l' -> wf t'.
Proof. intros (H & E & _). unfold wf. by rewrite E. Qed.

Lemma popped_live p (p' : event -> Prop) t t' k l' : popped p t t' k l' -> (forall e, data e <> [] -> p e -> p' (to_event e)) ->
  pruned p' (to_event <$> live (events (get_queue t k))) (to_event <$> live l').
Proof.
  intros (_ & _ & H%trim_live & _) Hp. apply pruned_fmap. eapply pruned_weaken_in; [|exact H].
  intros e [Hd _]%list_elem_of_filter. auto.
Qed.

Lemma filter_map {A B} (g : A -> B) (P : B -> Prop) (P' : A -> Prop) `{H1 : !forall x, Decision (P x)} `{H2 : !forall x, Decision (P' x)}
  (l : list A) : (forall x, x ∈ l -> P (g x) <-> P' x) -> filter P (g <$> l) = g <$> filter P' l.
Proof.
  induction l as [|x l IH]; intros H; [done|]. rewrite fmap_cons. specialize (IH ltac:(intros; apply H; set_solver)).
  destruct (decide (P' x)) as [Hx|Hx]; assert (Hx' := Hx); rewrite <-(H x) in Hx' by set_solver.
  - rewrite !filter_cons_True by done. by rewrite fmap_cons, IH.
  - by rewrite !filter_cons_False by done.
Qed.

Lemma total_live l : total_data (to_event <$> live l) = sum_length l.
Proof.
  induction l as [|e l IH]; [done|]. rewrite live_cons, fmap_app, sum_cons, <-IH.
  destruct (bool_decide_reflect (data e = [])) as [->|]; [done|]. done.
Qed.

Lemma len_live l cb tail : qok cb tail l -> len l <= len (live l) + 1.
Proof.
  intros H. destruct (base_of_live _ _ _ H) as [_ <-]. destruct (base_of_cases l) as [->|(d & E & _)]; [lia|].
  rewrite E at 1. rewrite len_app, len_cons, len_nil. lia.
Qed.

Lemma next_last id : 0 <= id < MAX_ID -> is_ok (next id) = negb (id =? MAX_ID - 1).
Proof.
  intros H. unfold next, from_int32, is_valid_id. destruct (Z.eqb_spec id (MAX_ID - 1)) as [->|]; [done|].
  by rewrite leb_true, ltb_true by lia.
Qed.

Lemma push_spec t k data expires extra hint random : wf t -> good_hint hint random -> roomy (callback t) ->
  exists r t', push t k data expires extra hint random = Some (r, t') /\ wf t'
    /\ spec (Push k data expires extra hint random) (view_of t) (Pushed r) (view_of t').
Proof.
  intros H Hh Hr. destruct (push_ok _ t k data expires extra hint random H Hr Hh) as (r & t' & E1 & H1 & E2 & E3).
  exists r, t'. split; [done|]. split; [unfold wf; by rewrite E2|]. set (q := get_queue t k) in *.
  pose proof (t_wf _ _ H k) as Hq. fold q in Hq. pose proof (q_tail _ _ _ (wq_ok _ _ Hq)) as Ht. revert E3. unfold push_error.
  assert (Hmsg : forall m, (r = Err (Status 0 (lit m)) /\ forall x, get_queue t' x = get_queue t x) ->
    (data = [] \/ MAX_EVENT_LENGTH < len data \/ k = 0 \/ expires <= 0 \/ MAX_QUEUE_EVENTS <= len (live (events q)) + 1
     \/ MAX_TOTAL_EVENT_LENGTH < sum_length (events q) + len data) ->
    spec (Push k data expires extra hint random) (view_of t) (Pushed r) (view_of t')).
  { intros m [-> Hg] Hc. cbn. split; [by apply view_same|]. fold q. rewrite total_live.
    unfold len at 2. rewrite length_fmap. exact Hc. }
  destruct (bool_decide_reflect (data = [])) as [|Hd]; [intros E; by eapply Hmsg; [exact E|left]|].
  destruct (Z.ltb_spec MAX_EVENT_LENGTH (len data)); [intros E; eapply Hmsg; [exact E|]; by right; left|].
  destruct (Z.eqb_spec k 0); [intros E; eapply Hmsg; [exact E|]; by do 2 right; left|].
  destruct (Z.leb_spec MAX_QUEUE_EVENTS (len (events q))).
  { intros E; eapply Hmsg; [exact E|]; do 4 right; left. pose proof (len_live _ _ _ (wq_ok _ _ Hq)). lia. }
  destruct (Z.ltb_spec MAX_TOTAL_EVENT_LENGTH (sum_length (events q) + len data)); [intros E; eapply Hmsg; [exact E|]; by do 5 right|].
  destruct (Z.leb_spec expires 0); [intros E; eapply Hmsg; [exact E|]; by do 3 right; left|].
  intros (log & gc & -> & Hg). cbn. fold q.
  assert (new_id q hint random = if (tail_id q =? 0) || (tail_id q =? MAX_ID - 1) then first_id hint random else tail_id q) as Eid.
  { unfold new_id, is_empty. rewrite next_last by lia. by rewrite negb_involutive. }
  split; [exact Eid|]. split; [|split; [done|lia]]. intros x. unfold view_of. rewrite Hg.
  destruct (x =? k); [|done]. cbn. f_equal. rewrite live_app, live_cons, fmap_app. cbn.
  rewrite bool_decide_eq_false_2 by done. cbn. f_equal. unfold remaining. rewrite next_last by lia.
  destruct (tail_id q =? MAX_ID - 1); cbn [negb]; [done|]. destruct (base_of_live _ _ _ (wq_ok _ _ Hq)) as [-> _]. done.
Qed.

Lemma queue_forget_spec t k id : wf t -> exists t', forget t k id = Some t' /\ wf t' /\ spec (Forget k id) (view_of t) Done (view_of t').
Proof.
  intros H. destruct (forget_ok t k id H) as (t' & l' & E1 & Hp & El). exists t'. split; [done|]. split; [by eapply popped_wf|].
  intros x. rewrite (popped_view _ _ _ _ _ Hp). destruct (x =? k); [|done]. cbn. f_equal. rewrite El. symmetry. by apply filter_map.
Qed.

Lemma queue_get_spec t k from_id forget_previous now n : wf t ->
  exists r l t', get t k from_id forget_previous now n = Some (r, l, t') /\ wf t'
    /\ spec (Get k from_id forget_previous now n) (view_of t) (Got r l) (view_of t').
Proof.
  intros H. pose proof (get_ok t k from_id forget_previous now n H) as Hg. cbn zeta in Hg. set (q := get_queue t k) in *.
  pose proof (t_wf _ _ H k) as Hq. fold q in Hq. revert Hg. destruct (bool_decide_reflect (queues t !! k = None)) as [Hn|Hn].
  { intros E. exists (Ok 0), [], t. split; [done|]. split; [done|]. assert (q = empty_queue) as Eq by (unfold q, get_queue; by rewrite Hn).
    cbn. fold q. rewrite Eq. cbn. rewrite take_nil. split; [done|]. exists []. split; [|repeat split; constructor].
    intros x. unfold view_of. destruct (Z.eqb_spec x k) as [->|]; [fold q; by rewrite Eq|done]. }
  destruct (Z.ltb_spec (tail_id q + 10) from_id).
  { intros E. eexists _, _, _. split; [exact E|]. split; [done|]. cbn. fold q. split; [done|]. split; [done|]. by left. }
  destruct (Z.ltb_spec from_id (get_queue_head q - MAX_QUEUE_EVENTS)).
  { intros E. eexists _, _, _. split; [exact E|]. split; [done|]. cbn. fold q. split; [done|]. split; [done|]. right.
    unfold get_queue_head in *. destruct (events q) as [|e l] eqn:Ee; [left; lia|]. rewrite live_cons.
    destruct (bool_decide_reflect (data e = [])) as [Hd|Hd]; [left|right; by exists (to_event e)].
    pose proof (q_ids _ _ _ (wq_ok _ _ Hq) e ltac:(rewrite Ee; set_solver)). lia. }
  intros (t' & l' & E & Hp & Hf). eexists _, _, _. split; [exact E|]. split; [by eapply popped_wf|]. cbn. fold q. split.
  - rewrite fmap_take. f_equal. unfold visible, fresh. symmetry. rewrite (filter_map _ _ (fun e => from_id <= event_id e /\ ~ stale now e)).
    + f_equal. unfold live. rewrite list_filter_filter_l; [done|]. intros e [_ He] Hd. apply He. by right.
    + intros e [Hd _]%list_elem_of_filter. cbn. unfold stale. split; [intros [? ?]; split; [done|]; intros [?|?]; [lia|done]|].
      intros [? Hs]. split; [done|]. destruct (decide (now <= expires_at e)); [done|]. destruct Hs. left. lia.
  - exists (to_event <$> live l'). split; [apply (popped_view _ _ _ _ _ Hp)|]. split; [unfold len; by rewrite length_fmap|]. split.
    + eapply popped_live; [exact Hp|]. intros e Hd [[? ?]|[? [?|?]]]; [by left|by right|done].
    + intros Hfp. apply Forall_fmap, Forall_forall. intros e He. by apply Hf.
Qed.

Lemma clear_spec t k keep_count : wf t -> 0 <= keep_count ->
  wf (clear t k keep_count).2 /\ spec (Clear k keep_count) (view_of t) Done (view_of (clear t k keep_count).2).
Proof.
  intros H Hk. pose proof (clear_ok t k keep_count H Hk) as Hc. cbn zeta in Hc. set (q := get_queue t k) in *.
  pose proof (t_wf _ _ H k) as Hq. fold q in Hq. pose proof (size_of_live _ _ Hq) as Hs. revert Hc.
  assert (len (to_event <$> live (events q)) = size_of q) as Elen by (unfold len; rewrite length_fmap; by rewrite Hs).
  destruct (Z.leb_spec (size_of q) keep_count).
  - intros ->. split; [done|]. cbn. fold q. exists 0%nat. rewrite drop_0, Elen. split; [|split; [done|split; [lia|]]].
    + intros x. unfold view_of. by destruct (Z.eqb_spec x k) as [->|].
    + intros ->. apply length_zero_iff_nil. unfold len in Elen. lia.
  - intros (deleted & t' & l' & E & Hp & El). rewrite E. cbn [snd]. split; [by eapply popped_wf|]. cbn. fold q.
    destruct (Z.eqb_spec keep_count 0) as [->|Hne].
    + exists (length (live (events q))). rewrite Elen. rewrite <-fmap_drop, drop_all. split; [|repeat split; try done; try lia].
      pose proof (popped_view _ _ _ _ _ Hp) as Hv. by rewrite El in Hv.
    + exists (length (events q) - Z.to_nat keep_count)%nat. rewrite Elen. rewrite <-fmap_drop. split; [|split; [lia|split; [|done]]].
      * pose proof (popped_view _ _ _ _ _ Hp) as Hv. by rewrite El in Hv.
      * intros _. unfold len. rewrite length_fmap, length_drop. pose proof (len_live _ _ _ (wq_ok _ _ Hq)) as Hl.
        pose proof (sublist_length _ _ (sublist_filter (fun e => data e <> []) (events q))) as Hsl. fold (live (events q)) in Hsl.
        unfold len in *. lia.
Qed.

Lemma gc_spec t now late : wf t -> (forall i j, (i <= j)%nat -> late i = true -> late j = true) ->
  exists n finished t', run_gc late t now = Some (n, finished, t') /\ wf t'
    /\ spec (RunGc now late) (view_of t) (Collected n finished) (view_of t').
Proof.
  intros H Hl. destruct (run_gc_ok late Hl t now H) as (finished & t' & E1 & H1 & E2 & Hc & Hn & _ & _).
  exists (total_size t - total_size t'), finished, t'. split; [done|]. split; [done|]. cbn. split.
  - intros k. destruct (Hc k) as [? Hp]. split; [done|]. by apply pruned_fmap.
  - lia.
Qed.
End Views.

Section Reached.
Context {St : Type} `{!storage_ops St} `{!storage_laws St}.
Implicit Types (t : tqueue St).

Lemma op_step t o : wf t -> allowed t o ->
  exists out t', apply_op t o = Some (out, t') /\ wf t' /\ spec o (view_of t) out (view_of t').
Proof.
  intros H Ha. destruct o; cbn [apply_op allowed] in *.
  - destruct Ha as [Hh Hr]. destruct (push_spec t queue_id data0 expires_at0 extra0 hint_new_id random H Hh Hr) as (r & t' & E & Hw & Hs).
    exists (Pushed r), t'. by rewrite E.
  - destruct (queue_forget_spec t queue_id id H) as (t' & E & Hw & Hs). exists Done, t'. by rewrite E.
  - destruct (queue_get_spec t queue_id from_id forget_previous unix_time_now n H) as (r & l & t' & E & Hw & Hs).
    exists (Got r l), t'. by rewrite E.
  - destruct (clear_spec t queue_id keep_count H Ha) as [Hw Hs]. by exists Done, (clear t queue_id keep_count).2.
  - destruct (gc_spec t unix_time_now late H Ha) as (n & finished & t' & E & Hw & Hs). exists (Collected n finished), t'. by rewrite E.
  - destruct (callback t) as [st|] eqn:Ec; [|done]. destruct (restart_ok t st H Ec) as (t1 & t' & _ & E & _ & Hw & _ & Hs).
    exists Done, t'. rewrite E. split; [done|]. split; [done|]. intros k. unfold view_of. by destruct (Hs k) as [-> ->].
Qed.

Lemma reached_wf t : reached t -> wf t.
Proof.
  induction 1 as [|st Hv Hr|t o out t' _ IH Ha E].
  - apply wf_create.
  - by apply wf_storage.
  - destruct (op_step t o IH Ha) as (out' & t2 & E' & Hw & _). rewrite E in E'. by injection E' as <- <-.
Qed.
End Reached.

(** ** Properties *)

Section Properties.
Context {St : Type} `{!storage_ops St} `{!storage_laws St}.

(** C32. The persistent queues of updates refine abstract queues.  In every
    reachable state, with or without a storage, every operation returns (no
    check of the code fails) and changes the readable events and the next
    identifier of the queues as the specification says: [push] appends one event
    with the next identifier (the hint or a random one for a new queue, and
    again when the identifiers are used up, where the old events go) or refuses
    for one of the named reasons; [forget] removes one event; [get] shows the
    first events from an identifier on that have not expired, tells how many are
    left, and drops only expired events and, when it is asked to, the earlier
    ones; [clear] keeps the last events; [run_gc] removes only expired events;
    a restart, which replays the storage, changes nothing.  The other queues are
    never changed, except that a collection removes their expired events. *)
Theorem tqueue_refines (t : tqueue St) (o : op) : reached t -> allowed t o ->
  exists out t', apply_op t o = Some (out, t') /\ reached t' /\ spec o (view_of t) out (view_of t').
Proof.
  intros H Ha. destruct (op_step t o (reached_wf t H) Ha) as (out & t' & E & Hw & Hs). exists out, t'. split; [done|].
  split; [by eapply reached_step|done].
Qed.

(** What holds of the queues in every reachable state: the identifiers of a
    queue increase and are below its tail, which is a valid identifier; the
    recorded length is the sum of the sizes of the data and stays below the
    limit, as does the number of events; an event without data is the one with
    the last identifier; a queue with readable events has a time of garbage
    collection and the ordered set of these times is exactly that of the queues;
    and the records of the storage are, queue by queue and in the order in which
    they are replayed, exactly the events in memory. *)
Theorem tqueue_invariant (t : tqueue St) (k : Z) : reached t ->
  let q := get_queue t k in
  StronglySorted Z.lt (event_id <$> events q)
  /\ (forall e, e ∈ events q -> 0 < event_id e < tail_id q /\ 0 < expires_at e /\ len (data e) <= MAX_EVENT_LENGTH)
  /\ 0 <= tail_id q < MAX_ID
  /\ (total_event_length q = sum_length (events q) /\ sum_length (events q) <= MAX_TOTAL_EVENT_LENGTH)
  /\ len (events q) <= MAX_QUEUE_EVENTS
  /\ (forall e, e ∈ events q -> data e = [] -> event_id e + 1 = tail_id q)
  /\ (live (events q) <> [] -> gc_at q <> 0)
  /\ (forall at_, (at_, k) ∈ queue_gc_at t <-> at_ <> 0 /\ gc_at q = at_) /\ NoDup (queue_gc_at t)
  /\ (forall st, callback t = Some st -> of_queue k (storage_records st) = events q).
Proof.
  intros H%reached_wf q. pose proof (t_wf _ _ H k) as Hq. fold q in Hq. pose proof (wq_ok _ _ Hq) as Hok.
  split; [apply Hok|]. split; [|split; [apply Hok|split; [split; [apply Hq|apply Hq]|split; [apply Hq|split; [apply Hok|]]]]].
  - intros e He. split; [by apply Hok|]. destruct (q_sizes _ _ _ Hok e He). lia.
  - split; [intros Hl Hg; by destruct (Hl (wq_live _ _ Hq Hg))|]. split; [|split].
    + intros at_. apply (t_gc _ _ H).
    + eapply scheduled_nodup. apply (t_gc _ _ H).
    + intros st Hst. pose proof (t_matches _ _ H) as Hm. rewrite Hst in Hm. by destruct Hm as [_ Hm].
Qed.

(** C33. A restart loses nothing: replaying the storage into new queues succeeds,
    and every queue comes back with the same events, those that only remember
    the last identifier included, and the same tail. *)
Theorem tqueue_restart (t : tqueue St) (st : St) : reached t -> callback t = Some st ->
  exists t', replay (storage_records st) create = Some t' /\ reached (set_callback t' st)
    /\ forall k, events (get_queue t' k) = events (get_queue t k) /\ tail_id (get_queue t' k) = tail_id (get_queue t k).
Proof.
  intros H Hst. destruct (restart_ok t st (reached_wf t H) Hst) as (t1 & t' & E1 & E & -> & Hw & _ & Hs).
  exists t1. split; [done|]. split; [|done]. eapply (reached_step t Restart Done); [done|cbn; by rewrite Hst|cbn; by rewrite E].
Qed.

(** Garbage collection ends within its fuel, whatever the clock says as long
    as it does not go back.  It removes only expired events and returns how many
    events are gone; when it reports that it has finished, no queue is due; and
    it finishes unless the deadline passes. *)
Theorem tqueue_gc (t : tqueue St) (now : Z) (late : nat -> bool) : reached t ->
  (forall i j, (i <= j)%nat -> late i = true -> late j = true) ->
  exists finished t', run_gc late t now = Some (total_size t - total_size t', finished, t')
    /\ total_size t' <= total_size t
    /\ (forall k, pruned (fun e => expires_at e < now) (live (events (get_queue t k))) (live (events (get_queue t' k))))
    /\ (finished = true -> forall k, gc_at (get_queue t' k) = 0 \/ now <= gc_at (get_queue t' k))
    /\ ((forall i, late i = false) -> finished = true).
Proof.
  intros H Hl. destruct (run_gc_ok late Hl t now (reached_wf t H)) as (finished & t' & E1 & _ & _ & Hc & Hn & Hf & Hnf).
  exists finished, t'. split; [done|]. split; [done|]. split; [intros k; apply Hc|]. split; [done|].
  intros Hi. destruct finished; [done|]. destruct (Hnf eq_refl) as [i E]. by rewrite Hi in E.
Qed.

End Properties.

(** *** Concrete queues *)

Fixpoint run_ops {St} `{!storage_ops St} (t : tqueue St) (l : list op) : option (tqueue St) :=
  match l with
  | [] => Some t
  | o :: l => '(_, t) ← apply_op t o; run_ops t l
  end.

Fixpoint allowed_ops {St} `{!storage_ops St} `{!storage_laws St} (t : tqueue St) (l : list op) : Prop :=
  match l with
  | [] => True
  | o :: l => allowed t o /\ match apply_op t o with Some (_, t) => allowed_ops t l | None => True end
  end.

Lemma run_reached {St} `{!storage_ops St} `{!storage_laws St} (t t' : tqueue St) l : reached t -> allowed_ops t l ->
  run_ops t l = Some t' -> reached t'.
Proof.
  revert t. induction l as [|o l IH]; intros t H Ha; cbn in *; [by intros [= <-]|]. destruct Ha as [Ha Hl].
  destruct (apply_op t o) as [[out t1]|] eqn:E; [|done]. apply IH; [|done]. by eapply reached_step.
Qed.

(** Three updates of the bot 7; the last two are forgotten out of order. *)
Definition sample_push (text : string) (expires : Z) : op := Push 7 (lit text) expires 0 0 2000001.
Definition sample_ops : list op := [sample_push "a" 100; sample_push "b" 50; sample_push "c" 100; Forget 7 2000003].
Definition sample_start : tqueue memory_storage := set_callback create new_memory_storage.
Definition sample_queue (l : list op) : tqueue memory_storage := default create (run_ops sample_start l).

Lemma sample_reached : reached (sample_queue sample_ops).
Proof.
  apply (run_reached sample_start _ sample_ops); [apply reached_storage; [|done]|..].
  - repeat split; constructor.
  - vm_compute. repeat split; try done; by left.
  - vm_compute. reflexivity.
Qed.

Lemma tqueue_refines_witness : exists out t',
  apply_op (sample_queue sample_ops) (Get 7 2000002 true 60 10) = Some (out, t')
  /\ reached t' /\ spec (Get 7 2000002 true 60 10) (view_of (sample_queue sample_ops)) out (view_of t').
Proof. apply (tqueue_refines (sample_queue sample_ops)); [apply sample_reached|done]. Defined.

Lemma tqueue_invariant_witness : StronglySorted Z.lt (event_id <$> events (get_queue (sample_queue sample_ops) 7)).
Proof. apply (tqueue_invariant (sample_queue sample_ops) 7). apply sample_reached. Defined.

Lemma tqueue_restart_witness : exists st t', callback (sample_queue sample_ops) = Some st
  /\ replay (storage_records st) create = Some t'
  /\ forall k, events (get_queue t' k) = events (get_queue (sample_queue sample_ops) k).
Proof.
  destruct (callback (sample_queue sample_ops)) as [st|] eqn:E; [|vm_compute in E; discriminate].
  destruct (tqueue_restart (sample_queue sample_ops) st sample_reached E) as (t' & E1 & _ & H).
  exists st, t'. split; [reflexivity|]. split; [exact E1|]. intros k. apply H.
Defined.

Lemma tqueue_gc_witness : exists finished t', run_gc (fun _ => false) (sample_queue sample_ops) 101
  = Some (total_size (sample_queue sample_ops) - total_size t', finished, t') /\ finished = true /\ total_size t' = 0.
Proof.
  destruct (tqueue_gc (sample_queue sample_ops) 101 (fun _ => false) sample_reached) as (finished & t' & E & _ & _ & _ & Hf); [done|].
  exists finished, t'. split; [exact E|]. split; [by apply Hf|].
  assert (E2 : (fun x => x.1.1) <$> run_gc (fun _ => false) (sample_queue sample_ops) 101 = Some 2) by (vm_compute; reflexivity).
  assert (E3 : total_size (sample_queue sample_ops) = 2) by (vm_compute; reflexivity).
  rewrite E, E3 in E2. cbn [fmap option_fmap option_map fst] in E2. injection E2. lia.
Defined.

(** [clear] is asked to keep a number of events and counts the event that
    only remembers the last identifier among them: there is a reachable queue
    with two readable events (the third and last one was forgotten) of which
    [clear] keeps none although one is to be kept.  [Client::do_get_updates]
    calls it with a negative offset, for the last updates of the queue. *)
Theorem clear_counts_forgotten : exists t t' : tqueue memory_storage, reached t
  /\ ev_data <$> v_live (view_of t 7) = [lit "a"; lit "b"]
  /\ apply_op t (Clear 7 1) = Some (Done, t') /\ v_live (view_of t' 7) = [].
Proof.
  exists (sample_queue sample_ops), (clear (sample_queue sample_ops) 7 1).2. split; [apply sample_reached|].
  split; [vm_compute; reflexivity|]. split; [reflexivity|]. vm_compute. reflexivity.
Qed.

(** The identifiers of a queue that uses them up start again. *)
Example ids_start_again : default [] ((fun t => ev_id <$> v_live (view_of t 7)) <$>
  run_ops sample_start [Push 7 (lit "a") 9 0 1999999998 5; Push 7 (lit "b") 9 0 0 5; Push 7 (lit "c") 9 0 0 5]) = [5; 6].
Proof. vm_compute. reflexivity. Qed.
