(* ===== verification/ClientWebhook.v ===== *)
(** * The webhook of a client ([Client.cpp], [ClientManager.cpp])

    Module [Webhook]: the settings of a webhook, how they are taken from a
    setWebhook query, the text they are stored as ([Client::save_webhook]) and
    the query that restores them ([ClientManager::get_webhook_restore_query]). *)

From S2P Require Import Prelude TdMisc Utf8 TextParser Json IPAddress Query.

(** ** Stored webhooks *)

Module Webhook.
Import Parser.

(** [Client::DEFAULT_ALLOWED_UPDATE_TYPES]: all but the updates about members
    and reactions; the numbers are those of [Client::UpdateType]. *)
Definition update_type_count : Z := 28.
Definition ChatMember : Z := 14.
Definition MessageReaction : Z := 18.
Definition MessageReactionCount : Z := 19.
Definition DEFAULT_ALLOWED_UPDATE_TYPES : Z :=
  Z.shiftl 1 update_type_count - 1 - Z.shiftl 1 ChatMember - Z.shiftl 1 MessageReaction - Z.shiftl 1 MessageReactionCount.

Record webhook := mk_webhook {
  has_webhook_certificate : bool; webhook_max_connections : Z; webhook_ip_address : bytes; webhook_fix_ip_address : bool;
  webhook_secret_token : bytes; allowed_update_types : Z; webhook_url : bytes }.

(** The value [Client::save_webhook] stores. *)
Definition save_webhook (w : webhook) : bytes :=
  (if has_webhook_certificate w then lit "cert/" else [])
  ++ (lit "#maxc" ++ Integers.print_int int32_min (webhook_max_connections w) ++ lit "/")
  ++ (if bool_decide (webhook_ip_address w = []) then [] else lit "#ip" ++ webhook_ip_address w ++ lit "/")
  ++ (if webhook_fix_ip_address w then lit "#fix_ip/" else [])
  ++ (if bool_decide (webhook_secret_token w = []) then [] else lit "#secret" ++ webhook_secret_token w ++ lit "/")
  ++ (if allowed_update_types w =? DEFAULT_ALLOWED_UPDATE_TYPES then []
      else lit "#allow" ++ Integers.print_uint (allowed_update_types w) ++ lit "/")
  ++ webhook_url w.

(** One optional part of the text: its tag, then a value up to a slash. *)
Definition restore_part (tag name : string) (p : parser) (args : list (bytes * bytes)) : parser * list (bytes * bytes) :=
  let '(found, p) := try_skip (lit tag) p in
  if found then
    let '(value, p) := read_till "/"%char p in
    (skip "/"%char p, args ++ [(lit name, value)])
  else (p, args).

Definition restore_args (webhook_info : bytes) : list (bytes * bytes) :=
  let p := init webhook_info in
  let '(found, p) := try_skip (lit "cert/") p in
  let args := if found then [(lit "certificate", lit "previous")] else [] in
  let '(p, args) := restore_part "#maxc" "max_connections" p args in
  let '(p, args) := restore_part "#ip" "ip_address" p args in
  let '(found, p) := try_skip (lit "#fix_ip") p in
  let '(p, args) := if found then (skip "/"%char p, args ++ [(lit "fix_ip_address", lit "1")]) else (p, args) in
  let '(p, args) := restore_part "#secret" "secret_token" p args in
  let '(p, args) := restore_part "#allow" "allowed_updates" p args in
  let '(url, _) := read_all p in
  args ++ [(lit "url", url)].

(** [bot_token_with_dc_]: the key of a bot in the webhook database. *)
Definition webhook_key (token : bytes) (is_test_dc : bool) : bytes := token ++ (if is_test_dc then lit ":T" else []).

(** [ClientManager::get_webhook_restore_query] *)
Definition get_webhook_restore_query (now : time) (token webhook_info : bytes) (shared_data : Query.shared)
  : Query.query * option Query.shared :=
  let args := restore_args webhook_info in
  let container := token :: (args ≫= fun a => [fst a; snd a]) ++ [lit "setwebhook"] in
  let is_test_dc := Strings.ends_with token (lit ":T") in
  let token := if is_test_dc then take (length token - 2) token else token in
  Query.create now container token is_test_dc (lit "setwebhook") args [] [] (Some shared_data) Invalid true.

End Webhook.

(** ** Facts *)

Import Webhook.

(** *** Stored webhooks *)

Lemma try_skip_not prefix p : (forall b, Parser.p_data p <> prefix ++ b) -> Parser.try_skip prefix p = (false, p).
Proof.
  intros H. destruct (Parser.try_skip prefix p) as [[] p'] eqn:E.
  - apply try_skip_true in E as [E _]. by destruct (H _ E).
  - by apply try_skip_false in E as [-> _].
Qed.

Lemma number_text_no_slash t : number_text t = true -> "/"%char ∉ t.
Proof.
  unfold number_text. destruct t as [|c s]; [done|]. intros [_ H]%andb_true_iff Hin.
  rewrite forallb_forall in H. specialize (H "/"%char ltac:(by apply list_elem_of_In)). discriminate.
Qed.

Lemma print_int_no_slash x : "/"%char ∉ Integers.print_int int32_min x.
Proof. apply number_text_no_slash, number_text_print. by left. Qed.

Lemma print_uint_no_slash x : 0 <= x -> "/"%char ∉ Integers.print_uint x.
Proof.
  intros Hx Hin. pose proof (print_uint_digits x Hx) as H. rewrite Forall_forall in H. specialize (H _ Hin). discriminate.
Qed.

(** A part that is there, and one that is not. *)
Lemma restore_part_found tag name value rest args : "/"%char ∉ value ->
  restore_part tag name (Parser.init (lit tag ++ value ++ lit "/" ++ rest)) args
  = (Parser.init rest, args ++ [(lit name, value)]).
Proof.
  intros H. unfold restore_part. rewrite try_skip_app. change (lit "/" ++ rest) with ("/"%char :: rest).
  by rewrite read_till_spec, skip_spec.
Qed.

Lemma restore_part_absent tag name rest args : (forall b, rest <> lit tag ++ b) ->
  restore_part tag name (Parser.init rest) args = (Parser.init rest, args).
Proof. intros H. unfold restore_part. by rewrite try_skip_not. Qed.

(** The arguments of the query that restores a webhook. *)
Definition webhook_args (w : webhook) : list (bytes * bytes) :=
  (if has_webhook_certificate w then [(lit "certificate", lit "previous")] else [])
  ++ [(lit "max_connections", Integers.print_int int32_min (webhook_max_connections w))]
  ++ (if bool_decide (webhook_ip_address w = []) then [] else [(lit "ip_address", webhook_ip_address w)])
  ++ (if webhook_fix_ip_address w then [(lit "fix_ip_address", lit "1")] else [])
  ++ (if bool_decide (webhook_secret_token w = []) then [] else [(lit "secret_token", webhook_secret_token w)])
  ++ (if allowed_update_types w =? DEFAULT_ALLOWED_UPDATE_TYPES then []
      else [(lit "allowed_updates", Integers.print_uint (allowed_update_types w))])
  ++ [(lit "url", webhook_url w)].

(** What [Client] checks before it stores a webhook. *)
Record storable (w : webhook) : Prop := {
  storable_ip : "/"%char ∉ webhook_ip_address w;
  storable_secret : "/"%char ∉ webhook_secret_token w;
  storable_allowed : 0 <= allowed_update_types w;
  storable_url : head (webhook_url w) <> Some "#"%char }.

Lemma url_not_tag url tag : head url <> Some "#"%char -> head (lit tag) = Some "#"%char -> forall b, url <> lit tag ++ b.
Proof. intros H Ht b ->. by destruct (lit tag). Qed.

(** An optional part. *)
Lemma restore_optional tag name (absent : bool) value rest args : "/"%char ∉ value -> (forall b, rest <> lit tag ++ b) ->
  restore_part tag name (Parser.init ((if absent then [] else lit tag ++ value ++ lit "/") ++ rest)) args
  = (Parser.init rest, args ++ if absent then [] else [(lit name, value)]).
Proof.
  intros Hv Hr. destruct absent; [by rewrite app_nil_r, restore_part_absent|]. rewrite <- !app_assoc. by apply restore_part_found.
Qed.

(** The part without a value. *)
Lemma restore_flag (present : bool) rest : (forall b, rest <> lit "#fix_ip" ++ b) ->
  Parser.try_skip (lit "#fix_ip") (Parser.init ((if present then lit "#fix_ip/" else []) ++ rest))
  = (present, Parser.init ((if present then lit "/" else []) ++ rest)).
Proof.
  intros Hr. destruct present; [|cbn [app]; by rewrite try_skip_not].
  change (lit "#fix_ip/" ++ rest) with (lit "#fix_ip" ++ lit "/" ++ rest). by rewrite try_skip_app.
Qed.

Ltac not_tag := let b := fresh in repeat case_match; intros b; try (by apply url_not_tag); discriminate.

Lemma restore_save w : storable w -> restore_args (save_webhook w) = webhook_args w.
Proof.
  intros [H1 H2 H3 H4]. unfold restore_args, save_webhook, webhook_args.
  set (url := webhook_url w) in *.
  set (t5 := (if _ =? _ then _ else _) ++ url). set (t4 := (if bool_decide (webhook_secret_token w = []) then _ else _) ++ t5).
  set (t3 := (if webhook_fix_ip_address w then _ else _) ++ t4).
  set (t2 := (if bool_decide (webhook_ip_address w = []) then _ else _) ++ t3).
  assert (Parser.try_skip (lit "cert/") (Parser.init ((if has_webhook_certificate w then lit "cert/" else []) ++
    (lit "#maxc" ++ Integers.print_int int32_min (webhook_max_connections w) ++ lit "/") ++ t2))
    = (has_webhook_certificate w, Parser.init ((lit "#maxc" ++ Integers.print_int int32_min (webhook_max_connections w) ++ lit "/") ++ t2)))
    as ->.
  { destruct (has_webhook_certificate w); [by rewrite try_skip_app|]. rewrite try_skip_not; [done|]. intros b. discriminate. }
  rewrite (restore_optional "#maxc" "max_connections" false _ t2); [|apply print_int_no_slash|unfold t2, t3, t4, t5; not_tag].
  unfold t2. rewrite (restore_optional "#ip" "ip_address"); [|done|unfold t3, t4, t5; not_tag].
  unfold t3. rewrite restore_flag; [|unfold t4, t5; not_tag].
  destruct (webhook_fix_ip_address w); [change (lit "/" ++ t4) with ("/"%char :: t4); rewrite skip_spec|cbn [app]];
    unfold t4; rewrite (restore_optional "#secret" "secret_token"); try done; try (unfold t5; not_tag);
    unfold t5; rewrite (restore_optional "#allow" "allowed_updates"); try (by apply print_uint_no_slash); try not_tag;
    cbn [Parser.read_all Parser.p_data Parser.init]; by rewrite <- !app_assoc.
Qed.
