(* ===== verification/WebhookActor.v ===== *)
(** * Webhooks ([WebhookActor.h], [WebhookActor.cpp])

    Module [Webhook]: the actor that loads the updates of a bot from the shared
    [TQueue] and delivers them over HTTP connections.  The queues of updates are
    reached through the interface [update_source], which [TQueue] implements.
    What the environment answers (the clock, random numbers, sockets) are
    functions of the number of questions asked so far. *)

From Stdlib Require Import Qround.
From S2P Require Import Prelude TdMisc Utf8 Json HttpHeader IPAddress Idn Query HttpConnection HttpUrl Base64 Containers TQueue.

Import Strings.

(** ** The interface of the queues of updates *)

Module Source.

(** [get_head], [get] with [forget_previous] off, and [forget]. *)
Class update_source (T : Type) := {
  source_head : T -> Z -> Z;
  source_get : T -> Z -> Z -> Z -> nat -> option (result Z * list Queues.event * T);
  source_forget : T -> Z -> Z -> option T }.

#[export] Instance tqueue_source {St} `{!Queues.storage_ops St} : update_source (Queues.tqueue St) := {
  source_head := Queues.get_head;
  source_get t queue_id from_id unix_time_now n := Queues.get t queue_id from_id false unix_time_now n;
  source_forget := Queues.forget }.

End Source.

(** ** The actor *)

Module Webhook.
Import Source.

#[local] Existing Instance Url.protocol_eq_dec.

Definition MIN_PENDING_UPDATES_WARNING : Z := 50.
Definition IP_ADDRESS_CACHE_TIME : Z := 30 * 60.
Definition WEBHOOK_MAX_RESEND_TIMEOUT : Z := 60.
Definition WEBHOOK_DROP_TIMEOUT : Z := 60 * 60 * 23.
Definition TQUEUE_EVENT_BUFFER_SIZE : Z := 1000.

(** The constant members, and the parameters of the server that are used. *)
Record config := mk_config {
  tqueue_id : Z; url_ : Url.http_url; host_header : bytes; cert_path : bytes; fix_ip_address : bool;
  from_db_flag : bool; max_connections : Z; secret_token : bytes;
  local_mode : bool; webhook_proxy_ip_address : ip_address }.

Record update := mk_update {
  id_ : Z; json_ : bytes; expires_at_ : Z; last_send_time_ : time; wakeup_at_ : time; delay_ : Z; fail_count_ : Z;
  queue_id_ : Z }.

Record queue := mk_queue { q_wakeup_at : time; integer_wakeup_at : Z; q_id : Z }.

(** [static_cast<int64>] of a [double]. *)
Definition truncate (x : Q) : Z := Z.quot (Qnum x) (Zpos (Qden x)).

Definition new_queue (wakeup_at : time) (id : Z) : queue := mk_queue wakeup_at (truncate (wakeup_at * 1000000000)) id.

Definition queue_less (a b : queue) : bool :=
  (integer_wakeup_at a <? integer_wakeup_at b) || ((integer_wakeup_at a =? integer_wakeup_at b) && (q_id a <? q_id b)).

(** [std::set::emplace] *)
Fixpoint queue_emplace (a : queue) (l : list queue) : list queue :=
  match l with
  | [] => [a]
  | b :: l' => if queue_less a b then a :: l else if queue_less b a then b :: queue_emplace a l' else l
  end.

(** [actor_id_] owns an actor; [event_id_] is 0 when there is none. *)
Record connection := mk_connection { actor_id_ : bool; conn_id_ : Z; event_id_ : Z; conn_ip_generation : Z }.
Definition no_connection : connection := mk_connection false 0 0 (-1).

Inductive effect :=
(* to the callback *)
| WebhookVerified (cached_ip : bytes)
| WebhookSuccess
| WebhookError (e : status)
| WebhookClosed (e : option status)
| SendQuery (q : Query.promised)
(* to other actors *)
| ResolveHost (host : bytes) (port : Z)
| CreateSslContext (cert_path : bytes)
| OpenProxy (id : Z) (address : ip_address)
| OpenConnection (id fd : Z)
| Conn (id : Z) (a : conn_action)
| DropConnection (id : Z)                  (* the owner of the actor is destroyed *)
(* to itself *)
| SetTimeoutAt (at_ : time)
| Yield
| CloseLater
| Stop.

Section Constructor.
Context (inet_ntop4 : Z -> bytes) (inet_addr : bytes -> option Z)
        (inet_pton4 : bytes -> pton_result Z) (inet_pton6 : bytes -> pton_result bytes).

Definition header_protocol (p : Url.protocol) : Header.protocol :=
  match p with Url.Http => Header.Http | Url.Https => Header.Https end.

Definition with_host (u : Url.http_url) (host : bytes) : Url.http_url :=
  Url.mk_url (Url.protocol_ u) (Url.userinfo_ u) host (Url.is_ipv6_ u) (Url.specified_port_ u) (Url.port_ u) (Url.query_ u).

(** The constructor: the constant members and the first address. *)
Definition construct (tqueue_id : Z) (url : Url.http_url) (cert_path : bytes) (max_connections : Z) (from_db_flag : bool)
    (cached_ip_address : bytes) (fix_ip_address : bool) (secret_token : bytes) (local_mode : bool)
    (webhook_proxy_ip_address : ip_address) : option (config * ip_address) :=
  if max_connections <=? 0 then None
  else
    address ← (if bool_decide (cached_ip_address = []) then Some Invalid
               else match get_ip_address inet_ntop4 inet_addr inet_pton4 inet_pton6 cached_ip_address with
                    | Ok a => set_port a (Url.port_ url)
                    | Err _ => Some Invalid
                    end);
    r_ascii_host ← Idn.idn_to_ascii (Url.host_ url);
    let url := match r_ascii_host with Ok host => with_host url host | Err _ => url end in
    let host_header := Header.get_host_header (header_protocol (Url.protocol_ url)) (Url.host_ url) (Url.port_ url) in
    Some (mk_config tqueue_id url host_header cert_path fix_ip_address from_db_flag max_connections secret_token local_mode
            webhook_proxy_ip_address, address).

End Constructor.

(** The environment: [Time::now], [SharedData::unix_time_difference_],
    [Random::fast], [SocketFd::open], [SslStream::create], as answers to the n-th
    question; [Status::public_message] and [IPAddress::get_ip_str]. *)
Record environment := mk_environment {
  clock : nat -> time; unix_time_difference : nat -> time; random_fast : nat -> Z -> Z -> Z;
  open_socket : nat -> ip_address -> result Z; ssl_stream : nat -> bytes -> bool -> result unit;
  public_message : status -> bytes; get_ip_str : ip_address -> bytes }.

Section Actor.
Context {T : Type} `{!update_source T}.

Record actor := mk_actor {
  callback_ : bool;  (* [callback_] was not moved away *)
  tqueue_empty : bool;
  last_pending_update_count : Z;
  last_error_time : time;
  last_error_message : bytes;
  stop_flag : bool;
  was_checked : bool;
  tqueue_offset : Z;
  max_loaded_updates : Z;
  update_map : gmap Z update;
  queue_updates : gmap Z (VectorQueue.vector_queue Z);
  queues : list queue;  (* [std::set<Queue>], in its order *)
  unique_queue_id : Z;
  first_error_410_time : time;
  ssl_ctx : bool;  (* [ssl_ctx_] is set *)
  ip_address_ : ip_address;
  ip_generation : Z;
  next_ip_address_resolve_time : time;
  is_ip_address_being_resolved : bool;
  pending_sockets : Container.container bool;  (* whether a slot holds an actor *)
  ready_sockets : list Z;
  connections : Container.container connection;  (* [Container<Connection>] *)
  ready_connections : list Z;  (* [ready_connections_]: identifiers, from [begin()] on *)
  active_new_connection_flood : Flood.flood_control;
  pending_new_connection_flood : Flood.flood_control;
  last_success_time : time;
  wakeup_at : time;
  last_update_was_successful : bool;
  tqueue : T;  (* [SharedData::tqueue_] *)
  query_shared : Query.shared;  (* the counters of [SharedData] *)
  total_connection_count : Z;  (* the static counter *)
  ticks : nat;  (* questions asked to the environment *)
  stopped : bool;  (* [stop()] was called *)
  out : list effect;
}.

Definition set_callback_ (s : actor) (v : bool) : actor := mk_actor v (tqueue_empty s) (last_pending_update_count
  s) (last_error_time s) (last_error_message s) (stop_flag s) (was_checked s) (tqueue_offset s) (max_loaded_updates
  s) (update_map s) (queue_updates s) (queues s) (unique_queue_id s) (first_error_410_time s) (ssl_ctx s)
  (ip_address_ s) (ip_generation s) (next_ip_address_resolve_time s) (is_ip_address_being_resolved s)
  (pending_sockets s) (ready_sockets s) (connections s) (ready_connections s) (active_new_connection_flood s)
  (pending_new_connection_flood s) (last_success_time s) (wakeup_at s) (last_update_was_successful s) (tqueue s)
  (query_shared s) (total_connection_count s) (ticks s) (stopped s) (out s).
Definition set_tqueue_empty (s : actor) (v : bool) : actor := mk_actor (callback_ s) v (last_pending_update_count
  s) (last_error_time s) (last_error_message s) (stop_flag s) (was_checked s) (tqueue_offset s) (max_loaded_updates
  s) (update_map s) (queue_updates s) (queues s) (unique_queue_id s) (first_error_410_time s) (ssl_ctx s)
  (ip_address_ s) (ip_generation s) (next_ip_address_resolve_time s) (is_ip_address_being_resolved s)
  (pending_sockets s) (ready_sockets s) (connections s) (ready_connections s) (active_new_connection_flood s)
  (pending_new_connection_flood s) (last_success_time s) (wakeup_at s) (last_update_was_successful s) (tqueue s)
  (query_shared s) (total_connection_count s) (ticks s) (stopped s) (out s).
Definition set_last_pending_update_count (s : actor) (v : Z) : actor := mk_actor (callback_ s) (tqueue_empty s) v
  (last_error_time s) (last_error_message s) (stop_flag s) (was_checked s) (tqueue_offset s) (max_loaded_updates s)
  (update_map s) (queue_updates s) (queues s) (unique_queue_id s) (first_error_410_time s) (ssl_ctx s) (ip_address_
  s) (ip_generation s) (next_ip_address_resolve_time s) (is_ip_address_being_resolved s) (pending_sockets s)
  (ready_sockets s) (connections s) (ready_connections s) (active_new_connection_flood s)
  (pending_new_connection_flood s) (last_success_time s) (wakeup_at s) (last_update_was_successful s) (tqueue s)
  (query_shared s) (total_connection_count s) (ticks s) (stopped s) (out s).
Definition set_last_error_time (s : actor) (v : time) : actor := mk_actor (callback_ s) (tqueue_empty s)
  (last_pending_update_count s) v (last_error_message s) (stop_flag s) (was_checked s) (tqueue_offset s)
  (max_loaded_updates s) (update_map s) (queue_updates s) (queues s) (unique_queue_id s) (first_error_410_time s)
  (ssl_ctx s) (ip_address_ s) (ip_generation s) (next_ip_address_resolve_time s) (is_ip_address_being_resolved s)
  (pending_sockets s) (ready_sockets s) (connections s) (ready_connections s) (active_new_connection_flood s)
  (pending_new_connection_flood s) (last_success_time s) (wakeup_at s) (last_update_was_successful s) (tqueue s)
  (query_shared s) (total_connection_count s) (ticks s) (stopped s) (out s).
Definition set_last_error_message (s : actor) (v : bytes) : actor := mk_actor (callback_ s) (tqueue_empty s)
  (last_pending_update_count s) (last_error_time s) v (stop_flag s) (was_checked s) (tqueue_offset s)
  (max_loaded_updates s) (update_map s) (queue_updates s) (queues s) (unique_queue_id s) (first_error_410_time s)
  (ssl_ctx s) (ip_address_ s) (ip_generation s) (next_ip_address_resolve_time s) (is_ip_address_being_resolved s)
  (pending_sockets s) (ready_sockets s) (connections s) (ready_connections s) (active_new_connection_flood s)
  (pending_new_connection_flood s) (last_success_time s) (wakeup_at s) (last_update_was_successful s) (tqueue s)
  (query_shared s) (total_connection_count s) (ticks s) (stopped s) (out s).
Definition set_stop_flag (s : actor) (v : bool) : actor := mk_actor (callback_ s) (tqueue_empty s)
  (last_pending_update_count s) (last_error_time s) (last_error_message s) v (was_checked s) (tqueue_offset s)
  (max_loaded_updates s) (update_map s) (queue_updates s) (queues s) (unique_queue_id s) (first_error_410_time s)
  (ssl_ctx s) (ip_address_ s) (ip_generation s) (next_ip_address_resolve_time s) (is_ip_address_being_resolved s)
  (pending_sockets s) (ready_sockets s) (connections s) (ready_connections s) (active_new_connection_flood s)
  (pending_new_connection_flood s) (last_success_time s) (wakeup_at s) (last_update_was_successful s) (tqueue s)
  (query_shared s) (total_connection_count s) (ticks s) (stopped s) (out s).
Definition set_was_checked (s : actor) (v : bool) : actor := mk_actor (callback_ s) (tqueue_empty s)
  (last_pending_update_count s) (last_error_time s) (last_error_message s) (stop_flag s) v (tqueue_offset s)
  (max_loaded_updates s) (update_map s) (queue_updates s) (queues s) (unique_queue_id s) (first_error_410_time s)
  (ssl_ctx s) (ip_address_ s) (ip_generation s) (next_ip_address_resolve_time s) (is_ip_address_being_resolved s)
  (pending_sockets s) (ready_sockets s) (connections s) (ready_connections s) (active_new_connection_flood s)
  (pending_new_connection_flood s) (last_success_time s) (wakeup_at s) (last_update_was_successful s) (tqueue s)
  (query_shared s) (total_connection_count s) (ticks s) (stopped s) (out s).
Definition set_tqueue_offset (s : actor) (v : Z) : actor := mk_actor (callback_ s) (tqueue_empty s)
  (last_pending_update_count s) (last_error_time s) (last_error_message s) (stop_flag s) (was_checked s) v
  (max_loaded_updates s) (update_map s) (queue_updates s) (queues s) (unique_queue_id s) (first_error_410_time s)
  (ssl_ctx s) (ip_address_ s) (ip_generation s) (next_ip_address_resolve_time s) (is_ip_address_being_resolved s)
  (pending_sockets s) (ready_sockets s) (connections s) (ready_connections s) (active_new_connection_flood s)
  (pending_new_connection_flood s) (last_success_time s) (wakeup_at s) (last_update_was_successful s) (tqueue s)
  (query_shared s) (total_connection_count s) (ticks s) (stopped s) (out s).
Definition set_max_loaded_updates (s : actor) (v : Z) : actor := mk_actor (callback_ s) (tqueue_empty s)
  (last_pending_update_count s) (last_error_time s) (last_error_message s) (stop_flag s) (was_checked s)
  (tqueue_offset s) v (update_map s) (queue_updates s) (queues s) (unique_queue_id s) (first_error_410_time s)
  (ssl_ctx s) (ip_address_ s) (ip_generation s) (next_ip_address_resolve_time s) (is_ip_address_being_resolved s)
  (pending_sockets s) (ready_sockets s) (connections s) (ready_connections s) (active_new_connection_flood s)
  (pending_new_connection_flood s) (last_success_time s) (wakeup_at s) (last_update_was_successful s) (tqueue s)
  (query_shared s) (total_connection_count s) (ticks s) (stopped s) (out s).
Definition set_update_map (s : actor) (v : gmap Z update) : actor := mk_actor (callback_ s) (tqueue_empty s)
  (last_pending_update_count s) (last_error_time s) (last_error_message s) (stop_flag s) (was_checked s)
  (tqueue_offset s) (max_loaded_updates s) v (queue_updates s) (queues s) (unique_queue_id s) (first_error_410_time
  s) (ssl_ctx s) (ip_address_ s) (ip_generation s) (next_ip_address_resolve_time s) (is_ip_address_being_resolved
  s) (pending_sockets s) (ready_sockets s) (connections s) (ready_connections s) (active_new_connection_flood s)
  (pending_new_connection_flood s) (last_success_time s) (wakeup_at s) (last_update_was_successful s) (tqueue s)
  (query_shared s) (total_connection_count s) (ticks s) (stopped s) (out s).
Definition set_queue_updates (s : actor) (v : gmap Z (VectorQueue.vector_queue Z)) : actor := mk_actor (callback_
  s) (tqueue_empty s) (last_pending_update_count s) (last_error_time s) (last_error_message s) (stop_flag s)
  (was_checked s) (tqueue_offset s) (max_loaded_updates s) (update_map s) v (queues s) (unique_queue_id s)
  (first_error_410_time s) (ssl_ctx s) (ip_address_ s) (ip_generation s) (next_ip_address_resolve_time s)
  (is_ip_address_being_resolved s) (pending_sockets s) (ready_sockets s) (connections s) (ready_connections s)
  (active_new_connection_flood s) (pending_new_connection_flood s) (last_success_time s) (wakeup_at s)
  (last_update_was_successful s) (tqueue s) (query_shared s) (total_connection_count s) (ticks s) (stopped s) (out
  s).
Definition set_queues (s : actor) (v : list queue) : actor := mk_actor (callback_ s) (tqueue_empty s)
  (last_pending_update_count s) (last_error_time s) (last_error_message s) (stop_flag s) (was_checked s)
  (tqueue_offset s) (max_loaded_updates s) (update_map s) (queue_updates s) v (unique_queue_id s)
  (first_error_410_time s) (ssl_ctx s) (ip_address_ s) (ip_generation s) (next_ip_address_resolve_time s)
  (is_ip_address_being_resolved s) (pending_sockets s) (ready_sockets s) (connections s) (ready_connections s)
  (active_new_connection_flood s) (pending_new_connection_flood s) (last_success_time s) (wakeup_at s)
  (last_update_was_successful s) (tqueue s) (query_shared s) (total_connection_count s) (ticks s) (stopped s) (out
  s).
Definition set_unique_queue_id (s : actor) (v : Z) : actor := mk_actor (callback_ s) (tqueue_empty s)
  (last_pending_update_count s) (last_error_time s) (last_error_message s) (stop_flag s) (was_checked s)
  (tqueue_offset s) (max_loaded_updates s) (update_map s) (queue_updates s) (queues s) v (first_error_410_time s)
  (ssl_ctx s) (ip_address_ s) (ip_generation s) (next_ip_address_resolve_time s) (is_ip_address_being_resolved s)
  (pending_sockets s) (ready_sockets s) (connections s) (ready_connections s) (active_new_connection_flood s)
  (pending_new_connection_flood s) (last_success_time s) (wakeup_at s) (last_update_was_successful s) (tqueue s)
  (query_shared s) (total_connection_count s) (ticks s) (stopped s) (out s).
Definition set_first_error_410_time (s : actor) (v : time) : actor := mk_actor (callback_ s) (tqueue_empty s)
  (last_pending_update_count s) (last_error_time s) (last_error_message s) (stop_flag s) (was_checked s)
  (tqueue_offset s) (max_loaded_updates s) (update_map s) (queue_updates s) (queues s) (unique_queue_id s) v
  (ssl_ctx s) (ip_address_ s) (ip_generation s) (next_ip_address_resolve_time s) (is_ip_address_being_resolved s)
  (pending_sockets s) (ready_sockets s) (connections s) (ready_connections s) (active_new_connection_flood s)
  (pending_new_connection_flood s) (last_success_time s) (wakeup_at s) (last_update_was_successful s) (tqueue s)
  (query_shared s) (total_connection_count s) (ticks s) (stopped s) (out s).
Definition set_ssl_ctx (s : actor) (v : bool) : actor := mk_actor (callback_ s) (tqueue_empty s)
  (last_pending_update_count s) (last_error_time s) (last_error_message s) (stop_flag s) (was_checked s)
  (tqueue_offset s) (max_loaded_updates s) (update_map s) (queue_updates s) (queues s) (unique_queue_id s)
  (first_error_410_time s) v (ip_address_ s) (ip_generation s) (next_ip_address_resolve_time s)
  (is_ip_address_being_resolved s) (pending_sockets s) (ready_sockets s) (connections s) (ready_connections s)
  (active_new_connection_flood s) (pending_new_connection_flood s) (last_success_time s) (wakeup_at s)
  (last_update_was_successful s) (tqueue s) (query_shared s) (total_connection_count s) (ticks s) (stopped s) (out
  s).
Definition set_ip_address_ (s : actor) (v : ip_address) : actor := mk_actor (callback_ s) (tqueue_empty s)
  (last_pending_update_count s) (last_error_time s) (last_error_message s) (stop_flag s) (was_checked s)
  (tqueue_offset s) (max_loaded_updates s) (update_map s) (queue_updates s) (queues s) (unique_queue_id s)
  (first_error_410_time s) (ssl_ctx s) v (ip_generation s) (next_ip_address_resolve_time s)
  (is_ip_address_being_resolved s) (pending_sockets s) (ready_sockets s) (connections s) (ready_connections s)
  (active_new_connection_flood s) (pending_new_connection_flood s) (last_success_time s) (wakeup_at s)
  (last_update_was_successful s) (tqueue s) (query_shared s) (total_connection_count s) (ticks s) (stopped s) (out
  s).
Definition set_ip_generation (s : actor) (v : Z) : actor := mk_actor (callback_ s) (tqueue_empty s)
  (last_pending_update_count s) (last_error_time s) (last_error_message s) (stop_flag s) (was_checked s)
  (tqueue_offset s) (max_loaded_updates s) (update_map s) (queue_updates s) (queues s) (unique_queue_id s)
  (first_error_410_time s) (ssl_ctx s) (ip_address_ s) v (next_ip_address_resolve_time s)
  (is_ip_address_being_resolved s) (pending_sockets s) (ready_sockets s) (connections s) (ready_connections s)
  (active_new_connection_flood s) (pending_new_connection_flood s) (last_success_time s) (wakeup_at s)
  (last_update_was_successful s) (tqueue s) (query_shared s) (total_connection_count s) (ticks s) (stopped s) (out
  s).
Definition set_next_ip_address_resolve_time (s : actor) (v : time) : actor := mk_actor (callback_ s) (tqueue_empty
  s) (last_pending_update_count s) (last_error_time s) (last_error_message s) (stop_flag s) (was_checked s)
  (tqueue_offset s) (max_loaded_updates s) (update_map s) (queue_updates s) (queues s) (unique_queue_id s)
  (first_error_410_time s) (ssl_ctx s) (ip_address_ s) (ip_generation s) v (is_ip_address_being_resolved s)
  (pending_sockets s) (ready_sockets s) (connections s) (ready_connections s) (active_new_connection_flood s)
  (pending_new_connection_flood s) (last_success_time s) (wakeup_at s) (last_update_was_successful s) (tqueue s)
  (query_shared s) (total_connection_count s) (ticks s) (stopped s) (out s).
Definition set_is_ip_address_being_resolved (s : actor) (v : bool) : actor := mk_actor (callback_ s) (tqueue_empty
  s) (last_pending_update_count s) (last_error_time s) (last_error_message s) (stop_flag s) (was_checked s)
  (tqueue_offset s) (max_loaded_updates s) (update_map s) (queue_updates s) (queues s) (unique_queue_id s)
  (first_error_410_time s) (ssl_ctx s) (ip_address_ s) (ip_generation s) (next_ip_address_resolve_time s) v
  (pending_sockets s) (ready_sockets s) (connections s) (ready_connections s) (active_new_connection_flood s)
  (pending_new_connection_flood s) (last_success_time s) (wakeup_at s) (last_update_was_successful s) (tqueue s)
  (query_shared s) (total_connection_count s) (ticks s) (stopped s) (out s).
Definition set_pending_sockets (s : actor) (v : Container.container bool) : actor := mk_actor (callback_ s)
  (tqueue_empty s) (last_pending_update_count s) (last_error_time s) (last_error_message s) (stop_flag s)
  (was_checked s) (tqueue_offset s) (max_loaded_updates s) (update_map s) (queue_updates s) (queues s)
  (unique_queue_id s) (first_error_410_time s) (ssl_ctx s) (ip_address_ s) (ip_generation s)
  (next_ip_address_resolve_time s) (is_ip_address_being_resolved s) v (ready_sockets s) (connections s)
  (ready_connections s) (active_new_connection_flood s) (pending_new_connection_flood s) (last_success_time s)
  (wakeup_at s) (last_update_was_successful s) (tqueue s) (query_shared s) (total_connection_count s) (ticks s)
  (stopped s) (out s).
Definition set_ready_sockets (s : actor) (v : list Z) : actor := mk_actor (callback_ s) (tqueue_empty s)
  (last_pending_update_count s) (last_error_time s) (last_error_message s) (stop_flag s) (was_checked s)
  (tqueue_offset s) (max_loaded_updates s) (update_map s) (queue_updates s) (queues s) (unique_queue_id s)
  (first_error_410_time s) (ssl_ctx s) (ip_address_ s) (ip_generation s) (next_ip_address_resolve_time s)
  (is_ip_address_being_resolved s) (pending_sockets s) v (connections s) (ready_connections s)
  (active_new_connection_flood s) (pending_new_connection_flood s) (last_success_time s) (wakeup_at s)
  (last_update_was_successful s) (tqueue s) (query_shared s) (total_connection_count s) (ticks s) (stopped s) (out
  s).
Definition set_connections (s : actor) (v : Container.container connection) : actor := mk_actor (callback_ s)
  (tqueue_empty s) (last_pending_update_count s) (last_error_time s) (last_error_message s) (stop_flag s)
  (was_checked s) (tqueue_offset s) (max_loaded_updates s) (update_map s) (queue_updates s) (queues s)
  (unique_queue_id s) (first_error_410_time s) (ssl_ctx s) (ip_address_ s) (ip_generation s)
  (next_ip_address_resolve_time s) (is_ip_address_being_resolved s) (pending_sockets s) (ready_sockets s) v
  (ready_connections s) (active_new_connection_flood s) (pending_new_connection_flood s) (last_success_time s)
  (wakeup_at s) (last_update_was_successful s) (tqueue s) (query_shared s) (total_connection_count s) (ticks s)
  (stopped s) (out s).
Definition set_ready_connections (s : actor) (v : list Z) : actor := mk_actor (callback_ s) (tqueue_empty s)
  (last_pending_update_count s) (last_error_time s) (last_error_message s) (stop_flag s) (was_checked s)
  (tqueue_offset s) (max_loaded_updates s) (update_map s) (queue_updates s) (queues s) (unique_queue_id s)
  (first_error_410_time s) (ssl_ctx s) (ip_address_ s) (ip_generation s) (next_ip_address_resolve_time s)
  (is_ip_address_being_resolved s) (pending_sockets s) (ready_sockets s) (connections s) v
  (active_new_connection_flood s) (pending_new_connection_flood s) (last_success_time s) (wakeup_at s)
  (last_update_was_successful s) (tqueue s) (query_shared s) (total_connection_count s) (ticks s) (stopped s) (out
  s).
Definition set_active_new_connection_flood (s : actor) (v : Flood.flood_control) : actor := mk_actor (callback_ s)
  (tqueue_empty s) (last_pending_update_count s) (last_error_time s) (last_error_message s) (stop_flag s)
  (was_checked s) (tqueue_offset s) (max_loaded_updates s) (update_map s) (queue_updates s) (queues s)
  (unique_queue_id s) (first_error_410_time s) (ssl_ctx s) (ip_address_ s) (ip_generation s)
  (next_ip_address_resolve_time s) (is_ip_address_being_resolved s) (pending_sockets s) (ready_sockets s)
  (connections s) (ready_connections s) v (pending_new_connection_flood s) (last_success_time s) (wakeup_at s)
  (last_update_was_successful s) (tqueue s) (query_shared s) (total_connection_count s) (ticks s) (stopped s) (out
  s).
Definition set_pending_new_connection_flood (s : actor) (v : Flood.flood_control) : actor := mk_actor (callback_ s)
  (tqueue_empty s) (last_pending_update_count s) (last_error_time s) (last_error_message s) (stop_flag s)
  (was_checked s) (tqueue_offset s) (max_loaded_updates s) (update_map s) (queue_updates s) (queues s)
  (unique_queue_id s) (first_error_410_time s) (ssl_ctx s) (ip_address_ s) (ip_generation s)
  (next_ip_address_resolve_time s) (is_ip_address_being_resolved s) (pending_sockets s) (ready_sockets s)
  (connections s) (ready_connections s) (active_new_connection_flood s) v (last_success_time s) (wakeup_at s)
  (last_update_was_successful s) (tqueue s) (query_shared s) (total_connection_count s) (ticks s) (stopped s) (out
  s).
Definition set_last_success_time (s : actor) (v : time) : actor := mk_actor (callback_ s) (tqueue_empty s)
  (last_pending_update_count s) (last_error_time s) (last_error_message s) (stop_flag s) (was_checked s)
  (tqueue_offset s) (max_loaded_updates s) (update_map s) (queue_updates s) (queues s) (unique_queue_id s)
  (first_error_410_time s) (ssl_ctx s) (ip_address_ s) (ip_generation s) (next_ip_address_resolve_time s)
  (is_ip_address_being_resolved s) (pending_sockets s) (ready_sockets s) (connections s) (ready_connections s)
  (active_new_connection_flood s) (pending_new_connection_flood s) v (wakeup_at s) (last_update_was_successful s)
  (tqueue s) (query_shared s) (total_connection_count s) (ticks s) (stopped s) (out s).
Definition set_wakeup_at (s : actor) (v : time) : actor := mk_actor (callback_ s) (tqueue_empty s)
  (last_pending_update_count s) (last_error_time s) (last_error_message s) (stop_flag s) (was_checked s)
  (tqueue_offset s) (max_loaded_updates s) (update_map s) (queue_updates s) (queues s) (unique_queue_id s)
  (first_error_410_time s) (ssl_ctx s) (ip_address_ s) (ip_generation s) (next_ip_address_resolve_time s)
  (is_ip_address_being_resolved s) (pending_sockets s) (ready_sockets s) (connections s) (ready_connections s)
  (active_new_connection_flood s) (pending_new_connection_flood s) (last_success_time s) v
  (last_update_was_successful s) (tqueue s) (query_shared s) (total_connection_count s) (ticks s) (stopped s) (out
  s).
Definition set_last_update_was_successful (s : actor) (v : bool) : actor := mk_actor (callback_ s) (tqueue_empty s)
  (last_pending_update_count s) (last_error_time s) (last_error_message s) (stop_flag s) (was_checked s)
  (tqueue_offset s) (max_loaded_updates s) (update_map s) (queue_updates s) (queues s) (unique_queue_id s)
  (first_error_410_time s) (ssl_ctx s) (ip_address_ s) (ip_generation s) (next_ip_address_resolve_time s)
  (is_ip_address_being_resolved s) (pending_sockets s) (ready_sockets s) (connections s) (ready_connections s)
  (active_new_connection_flood s) (pending_new_connection_flood s) (last_success_time s) (wakeup_at s) v (tqueue s)
  (query_shared s) (total_connection_count s) (ticks s) (stopped s) (out s).
Definition set_tqueue (s : actor) (v : T) : actor := mk_actor (callback_ s) (tqueue_empty s)
  (last_pending_update_count s) (last_error_time s) (last_error_message s) (stop_flag s) (was_checked s)
  (tqueue_offset s) (max_loaded_updates s) (update_map s) (queue_updates s) (queues s) (unique_queue_id s)
  (first_error_410_time s) (ssl_ctx s) (ip_address_ s) (ip_generation s) (next_ip_address_resolve_time s)
  (is_ip_address_being_resolved s) (pending_sockets s) (ready_sockets s) (connections s) (ready_connections s)
  (active_new_connection_flood s) (pending_new_connection_flood s) (last_success_time s) (wakeup_at s)
  (last_update_was_successful s) v (query_shared s) (total_connection_count s) (ticks s) (stopped s) (out s).
Definition set_query_shared (s : actor) (v : Query.shared) : actor := mk_actor (callback_ s) (tqueue_empty s)
  (last_pending_update_count s) (last_error_time s) (last_error_message s) (stop_flag s) (was_checked s)
  (tqueue_offset s) (max_loaded_updates s) (update_map s) (queue_updates s) (queues s) (unique_queue_id s)
  (first_error_410_time s) (ssl_ctx s) (ip_address_ s) (ip_generation s) (next_ip_address_resolve_time s)
  (is_ip_address_being_resolved s) (pending_sockets s) (ready_sockets s) (connections s) (ready_connections s)
  (active_new_connection_flood s) (pending_new_connection_flood s) (last_success_time s) (wakeup_at s)
  (last_update_was_successful s) (tqueue s) v (total_connection_count s) (ticks s) (stopped s) (out s).
Definition set_total_connection_count (s : actor) (v : Z) : actor := mk_actor (callback_ s) (tqueue_empty s)
  (last_pending_update_count s) (last_error_time s) (last_error_message s) (stop_flag s) (was_checked s)
  (tqueue_offset s) (max_loaded_updates s) (update_map s) (queue_updates s) (queues s) (unique_queue_id s)
  (first_error_410_time s) (ssl_ctx s) (ip_address_ s) (ip_generation s) (next_ip_address_resolve_time s)
  (is_ip_address_being_resolved s) (pending_sockets s) (ready_sockets s) (connections s) (ready_connections s)
  (active_new_connection_flood s) (pending_new_connection_flood s) (last_success_time s) (wakeup_at s)
  (last_update_was_successful s) (tqueue s) (query_shared s) v (ticks s) (stopped s) (out s).
Definition set_ticks (s : actor) (v : nat) : actor := mk_actor (callback_ s) (tqueue_empty s)
  (last_pending_update_count s) (last_error_time s) (last_error_message s) (stop_flag s) (was_checked s)
  (tqueue_offset s) (max_loaded_updates s) (update_map s) (queue_updates s) (queues s) (unique_queue_id s)
  (first_error_410_time s) (ssl_ctx s) (ip_address_ s) (ip_generation s) (next_ip_address_resolve_time s)
  (is_ip_address_being_resolved s) (pending_sockets s) (ready_sockets s) (connections s) (ready_connections s)
  (active_new_connection_flood s) (pending_new_connection_flood s) (last_success_time s) (wakeup_at s)
  (last_update_was_successful s) (tqueue s) (query_shared s) (total_connection_count s) v (stopped s) (out s).
Definition set_stopped (s : actor) (v : bool) : actor := mk_actor (callback_ s) (tqueue_empty s)
  (last_pending_update_count s) (last_error_time s) (last_error_message s) (stop_flag s) (was_checked s)
  (tqueue_offset s) (max_loaded_updates s) (update_map s) (queue_updates s) (queues s) (unique_queue_id s)
  (first_error_410_time s) (ssl_ctx s) (ip_address_ s) (ip_generation s) (next_ip_address_resolve_time s)
  (is_ip_address_being_resolved s) (pending_sockets s) (ready_sockets s) (connections s) (ready_connections s)
  (active_new_connection_flood s) (pending_new_connection_flood s) (last_success_time s) (wakeup_at s)
  (last_update_was_successful s) (tqueue s) (query_shared s) (total_connection_count s) (ticks s) v (out s).
Definition set_out (s : actor) (v : list effect) : actor := mk_actor (callback_ s) (tqueue_empty s)
  (last_pending_update_count s) (last_error_time s) (last_error_message s) (stop_flag s) (was_checked s)
  (tqueue_offset s) (max_loaded_updates s) (update_map s) (queue_updates s) (queues s) (unique_queue_id s)
  (first_error_410_time s) (ssl_ctx s) (ip_address_ s) (ip_generation s) (next_ip_address_resolve_time s)
  (is_ip_address_being_resolved s) (pending_sockets s) (ready_sockets s) (connections s) (ready_connections s)
  (active_new_connection_flood s) (pending_new_connection_flood s) (last_success_time s) (wakeup_at s)
  (last_update_was_successful s) (tqueue s) (query_shared s) (total_connection_count s) (ticks s) (stopped s) v.

Definition emit (s : actor) (e : effect) : actor := set_out s (out s ++ [e]).

(** A closure sent to [callback_]: nothing happens when it was moved away. *)
Definition notify (s : actor) (e : effect) : actor := if callback_ s then emit s e else s.

Definition stop (s : actor) : actor := emit (set_stopped s true) Stop.

(** The members that change, at their first values. *)
Definition create (tq : T) (shared : Query.shared) (total : Z) (ticks : nat) (address : ip_address) : actor :=
  mk_actor true false MIN_PENDING_UPDATES_WARNING 0 (lit "<none>") false false 0 0 ∅ ∅ [] (2 ^ 60) 0 false address 0 0 false
    Container.empty_container [] Container.empty_container [] Flood.new_flood Flood.new_flood 0 0 true tq shared total
    ticks false [].

Context (cfg : config) (env : environment).

Definition ask (s : actor) : nat * actor := (ticks s, set_ticks s (S (ticks s))).
Definition time_now (s : actor) : time * actor := let '(n, s) := ask s in (clock env n, s).

(** [SharedData::get_unix_time] *)
Definition get_unix_time (difference now : time) : Z :=
  let result := (difference + now)%Q in
  if qleb result 0 then 0 else if qleb (inject_Z int32_max) result then int32_max else truncate result.
Definition unix_time (s : actor) (now : time) : Z * actor :=
  let '(n, s) := ask s in (get_unix_time (unix_time_difference env n) now, s).

Definition relax_wakeup_at (s : actor) (at_ : time) : actor :=
  if Qeq_bool (wakeup_at s) 0 || qltb at_ (wakeup_at s) then set_wakeup_at s at_ else s.

(** ** Errors and notifications *)

Definition on_webhook_verified (s : actor) : actor :=
  notify s (WebhookVerified (if is_valid (ip_address_ s) then get_ip_str env (ip_address_ s) else [])).

Definition check_ip_address (addr : ip_address) : option (result unit) :=
  if negb (is_valid addr) then Some (error 0 "Invalid IP address specified")
  else if local_mode cfg then Some (Ok tt)
  else if negb (is_ipv4 addr) then Some (error 0 "IPv6-only addresses are not allowed")
  else
    r ← is_reserved addr;
    Some (if r : bool then Err (Status 0 (lit "IP address " ++ get_ip_str env addr ++ lit " is reserved")) else Ok tt).

Definition on_error (s : actor) (e : status) : option actor :=
  if negb (was_checked s) && negb (stop_flag s) then
    if callback_ s then Some (set_stop_flag (set_callback_ (emit s (WebhookClosed (Some e))) false) true) else None
  else Some s.

Definition on_webhook_error (s : actor) (e : bytes) : actor :=
  if was_checked s then
    let s := notify s (WebhookError (Status 0 e)) in
    let '(now, s) := time_now s in
    set_last_error_message (set_last_error_time s now) e
  else s.

Definition on_connection_error (s : actor) (e : status) : actor := on_webhook_error s (st_message e).

(** The status it returns is only tested for being an error. *)
Definition create_webhook_error (s : actor) (message : string) (e : status) (is_public : bool) : option actor :=
  let s := on_webhook_error s (if is_public then lit message ++ lit ": " ++ public_message env e else lit message) in
  on_error s e.

(** ** The address *)

Definition resolve_ip_address (s : actor) : actor :=
  if fix_ip_address cfg || is_ip_address_being_resolved s then s
  else
    let '(now, s) := time_now s in
    if qltb now (next_ip_address_resolve_time s) then relax_wakeup_at s (next_ip_address_resolve_time s)
    else emit (set_is_ip_address_being_resolved s true) (ResolveHost (Url.host_ (url_ cfg)) (Url.port_ (url_ cfg))).

(** ** Connections *)

Definition create_ssl_stream (s : actor) : option (bool * actor) :=
  if bool_decide (Url.protocol_ (url_ cfg) = Url.Http) then Some (true, s)
  else if ssl_ctx s then
    let '(n, s) := ask s in
    match ssl_stream env n (Url.host_ (url_ cfg)) (negb (bool_decide (cert_path cfg = []))) with
    | Err e => s ← create_webhook_error s "Can't create an SSL connection" e true; Some (false, s)
    | Ok _ => Some (true, s)
    end
  else None.

(** The webhook is known to work, or to be behind a proxy. *)
Definition verify (s : actor) : actor := if was_checked s then s else on_webhook_verified (set_was_checked s true).

(** [create_connection(fd)]; the result tells whether it succeeded. *)
Definition create_connection_fd (s : actor) (fd : Z) : option (bool * actor) :=
  '(ok, s) ← create_ssl_stream s;
  if negb ok then Some (false, s)
  else
    '(id, c) ← Container.create (connections s) no_connection 0;
    c ← Container.modify c id (fun _ => mk_connection true id 0 (ip_generation s));
    let s := emit (set_connections s c) (OpenConnection id fd) in
    let s := set_ready_connections s (id :: ready_connections s) in
    let s := set_total_connection_count s (wrap 64 (total_connection_count s + 1)) in
    Some (true, verify s).

Definition create_connection (s : actor) : option (bool * actor) :=
  if negb (is_valid (ip_address_ s)) then None
  else
    let '(n, s) := ask s in
    if is_valid (webhook_proxy_ip_address cfg) then
      match open_socket env n (webhook_proxy_ip_address cfg) with
      | Err e => s ← create_webhook_error s "Can't connect to the webhook proxy" e false; Some (false, s)
      | Ok _ =>
        let s := verify s in
        '(id, c) ← Container.create (pending_sockets s) true 0;
        Some (false, emit (set_pending_sockets s c) (OpenProxy id (ip_address_ s)))
      end
    else
      match open_socket env n (ip_address_ s) with
      | Err e => s ← create_webhook_error s "Can't connect to the webhook" e false; Some (false, s)
      | Ok fd => create_connection_fd s fd
      end.

(** The first loop of [create_new_connections]; the result tells whether the
    function goes on.  [active] selects the flood control. *)
Fixpoint open_connections (fuel : nat) (active : bool) (now : time) (need : Z) (s : actor) : option (bool * actor) :=
  match fuel with
  | O => None
  | S fuel =>
    if Container.size (connections s) + Container.size (pending_sockets s) + len (ready_sockets s) <? need then
      let flood := if active then active_new_connection_flood s else pending_new_connection_flood s in
      let at_ := Flood.get_wakeup_at flood in
      if qltb now at_ then Some (true, relax_wakeup_at s at_)
      else
        flood ← Flood.add_event flood now;
        let s := if active then set_active_new_connection_flood s flood else set_pending_new_connection_flood s flood in
        '(ok, s) ← create_connection s;
        if negb ok then Some (false, relax_wakeup_at s (now + 1)%Q)
        else open_connections fuel active now need s
    else Some (true, s)
  end.

(** The second loop, over [ready_sockets_] from its back. *)
Fixpoint use_sockets (fuel : nat) (now : time) (need : Z) (s : actor) : option actor :=
  match fuel with
  | O => None
  | S fuel =>
    match last (ready_sockets s) with
    | None => Some s
    | Some fd =>
      if Container.size (connections s) + Container.size (pending_sockets s) <? need then
        let s := set_ready_sockets s (take (length (ready_sockets s) - 1) (ready_sockets s)) in
        '(ok, s) ← create_connection_fd s fd;
        if negb ok then Some (relax_wakeup_at s (now + 1)%Q) else use_sockets fuel now need s
      else Some s
    end
  end.

(** The number of connections that are needed, and whether the webhook was
    successful in the last seconds. *)
Definition needed_connections (s : actor) (now : time) : Z * bool :=
  let need := Z.of_nat (base.size (queue_updates s)) in
  let need := if max_connections cfg <? need then max_connections cfg else need in
  let need := if negb (was_checked s) then 1 else need in
  if qltb (last_success_time s + 10)%Q now then (if 1 <? need then 1 else need, false)
  else (if need =? 0 then 1 else need, true).

Definition create_new_connections (s : actor) : option actor :=
  if negb (is_valid (ip_address_ s)) then Some s
  else if negb (bool_decide (Url.protocol_ (url_ cfg) = Url.Http)) && negb (ssl_ctx s) then Some s
  else
    let '(now, s) := time_now s in
    let '(need, active) := needed_connections s now in
    '(go, s) ← open_connections (S (Z.to_nat need)) active now need s;
    if negb go then Some s
    else
      s ← use_sockets (S (length (ready_sockets s))) now need s;
      Some (set_ready_sockets s []).

(** ** Loading updates *)

Fixpoint raise_warning (fuel : nat) (total_size count : Z) : option Z :=
  match fuel with
  | O => None
  | S fuel => if count <=? total_size then raise_warning fuel total_size (wrap 64 (count * 2)) else Some count
  end.

(** [last_pending_update_count_] after a load. *)
Definition pending_update_count (total_size count : Z) : option Z :=
  if total_size <=? MIN_PENDING_UPDATES_WARNING / 2 then
    Some (if MIN_PENDING_UPDATES_WARNING <? count then MIN_PENDING_UPDATES_WARNING else count)
  else if count <=? total_size then raise_warning 65 total_size count
  else Some count.

(** The body of the loop over the loaded events. *)
Definition load_update (now : time) (unix_time_now : Z) (s : actor) (u : Queues.event) : option actor :=
  let id := Queues.ev_id u in
  if negb (Queues.is_valid id) then None
  else
    match update_map s !! id with
    | Some _ => Some s
    | None =>
      if negb (unix_time_now <=? Queues.ev_expires_at u) then None
      else
        next ← Queues.ok_value (Queues.next id);
        let s := set_tqueue_offset s next in
        let '(queue_id, s) :=
          if Queues.ev_extra u =? 0 then (unique_queue_id s, set_unique_queue_id s (unique_queue_id s + 1))
          else (Queues.ev_extra u, s) in
        let dest := mk_update id (Queues.ev_data u) (Queues.ev_expires_at u) 0 now 1 0 queue_id in
        let s := set_update_map s (<[id := dest]> (update_map s)) in
        let event_ids := default VectorQueue.empty_vector_queue (queue_updates s !! queue_id) in
        let s := if VectorQueue.empty event_ids then set_queues s (queue_emplace (new_queue now queue_id) (queues s)) else s in
        Some (set_queue_updates s (<[queue_id := VectorQueue.push event_ids id]> (queue_updates s)))
    end.

Fixpoint load_all (now : time) (unix_time_now : Z) (s : actor) (l : list Queues.event) : option actor :=
  match l with
  | [] => Some s
  | u :: l => s ← load_update now unix_time_now s u; load_all now unix_time_now s l
  end.

(** What [TQueue::get] shows from the current offset: the number of pending
    updates and the updates. *)
Definition fetch (s : actor) (unix_time_now : Z) (limit : Z) : option (Z * list Queues.event * actor) :=
  let id := tqueue_id cfg in
  let offset := tqueue_offset s in
  if Queues.is_empty offset then Some (0, [], s)
  else
    '(r, updates, tq) ← source_get (tqueue s) id offset unix_time_now (Z.to_nat limit);
    let s := set_tqueue s tq in
    match r with
    | Ok total_size => Some (total_size, updates, s)
    | Err _ =>
      let offset := source_head tq id in
      let s := set_tqueue_offset s offset in
      '(r, updates, tq) ← source_get tq id offset unix_time_now (Z.to_nat limit);
      total_size ← Queues.ok_value r;
      Some (total_size, updates, set_tqueue s tq)
    end.

Definition load_updates (s : actor) : option actor :=
  let size := Z.of_nat (base.size (queue_updates s)) in
  if tqueue_empty s then Some s
  else if max_loaded_updates s <=? size then
    if size =? max_loaded_updates s then Some s else None
  else
    let s := if Queues.is_empty (tqueue_offset s) then set_tqueue_offset s (source_head (tqueue s) (tqueue_id cfg)) else s in
    let limit := Z.min TQUEUE_EVENT_BUFFER_SIZE (max_loaded_updates s - size) in
    let '(now, s) := time_now s in
    let '(unix_time_now, s) := unix_time s now in
    '(total_size, updates, s) ← fetch s unix_time_now limit;
    let s := if bool_decide (updates = []) then set_tqueue_empty s true else s in
    s ← load_all now unix_time_now s updates;
    count ← pending_update_count total_size (last_pending_update_count s);
    let s := set_last_pending_update_count s count in
    Some (if (len updates =? total_size) && last_update_was_successful s then notify s WebhookSuccess else s).

(** ** Results of updates *)

Definition drop_event (s : actor) (event_id : Z) : option actor :=
  u ← update_map s !! event_id;
  let queue_id := queue_id_ u in
  let s := set_update_map s (delete event_id (update_map s)) in
  event_ids ← queue_updates s !! queue_id;
  if VectorQueue.empty event_ids then None
  else if negb (bool_decide (VectorQueue.front event_ids = Some event_id)) then None
  else
    '(_, event_ids) ← VectorQueue.pop event_ids;
    s ← (if VectorQueue.empty event_ids then Some (set_queue_updates s (delete queue_id (queue_updates s)))
         else
           let s := set_queue_updates s (<[queue_id := event_ids]> (queue_updates s)) in
           update_id ← VectorQueue.front event_ids;
           if negb (Queues.is_valid update_id) then None
           else
             update ← update_map s !! update_id;
             Some (set_queues s (queue_emplace (new_queue (wakeup_at_ update) (queue_id_ update)) (queues s))));
    tq ← source_forget (tqueue s) (tqueue_id cfg) event_id;
    Some (set_tqueue s tq).

Definition on_update_ok (s : actor) (event_id : Z) : option actor :=
  let s := set_last_update_was_successful s true in
  let '(now, s) := time_now s in
  let s := set_last_success_time s now in
  _ ← update_map s !! event_id;
  drop_event s event_id.

Definition MAX_RETRY_AFTER : Z := 3600.

(** [next_delay] and [next_effective_delay]. *)
Definition next_delays (random : Z) (u : update) (retry_after : Z) : Z * Z :=
  let retry_after := clamp retry_after 0 MAX_RETRY_AFTER in
  if (retry_after =? 0) && (0 <? fail_count_ u) then
    let next_delay := Z.min random (delay_ u * 2) in (next_delay, next_delay)
  else (delay_ u, retry_after).

Definition on_update_error (s : actor) (event_id : Z) (retry_after : Z) : option actor :=
  let s := set_last_update_was_successful s false in
  let '(now, s) := time_now s in
  u ← update_map s !! event_id;
  let '(n, s) := ask s in
  let max_timeout := random_fast env n WEBHOOK_MAX_RESEND_TIMEOUT (WEBHOOK_MAX_RESEND_TIMEOUT * 2) in
  let '(next_delay, next_effective_delay) := next_delays max_timeout u retry_after in
  let '(unix_time_now, s) := unix_time s now in
  if expires_at_ u <? unix_time_now + next_effective_delay then drop_event s event_id
  else
    let u := mk_update (id_ u) (json_ u) (expires_at_ u) (last_send_time_ u) (now + inject_Z next_effective_delay)%Q next_delay
               (fail_count_ u + 1) (queue_id_ u) in
    let s := set_update_map s (<[event_id := u]> (update_map s)) in
    Some (set_queues s (queue_emplace (new_queue (wakeup_at_ u) (queue_id_ u)) (queues s))).

(** ** Sending *)

(** [JsonUpdate]; [None] is [CHECK(!update_.empty())]. *)
Definition json_update (id : Z) (update : bytes) : option bytes :=
  if bool_decide (update = []) then None
  else Some ("{"%char :: Writer.json_raw_string (lit "update_id") ++ ":"%char :: Integers.print_int int32_min id
             ++ lit "," ++ [chr 10] ++ update ++ lit "}").

Definition request_header (content_size : Z) : result bytes :=
  let hc := Header.init_post (Url.query_ (url_ cfg)) in
  let hc := Header.add_header hc (lit "Host") (host_header cfg) in
  let hc := if bool_decide (Url.userinfo_ (url_ cfg) = []) then hc
            else Header.add_header hc (lit "Authorization") (lit "Basic " ++ Codec.base64_encode (Url.userinfo_ (url_ cfg))) in
  let hc := if bool_decide (secret_token cfg = []) then hc
            else Header.add_header hc (lit "X-Telegram-Bot-Api-Secret-Token") (secret_token cfg) in
  let hc := Header.set_content_type hc (lit "application/json") in
  let hc := Header.set_content_size hc content_size in
  let hc := Header.set_keep_alive hc in
  let hc := Header.add_header hc (lit "Accept-Encoding") (lit "gzip, deflate") in
  Header.finish hc [].

(** The errors of [send_update]. *)
Inductive unsent := NoConnection | NoPendingUpdates | NoReadyUpdates | UrlTooLong.

(** [ListNode::get] takes the last connection of the list. *)
Definition send_update (s : actor) : option (unsent + unit) * actor :=
  match last (ready_connections s), queues s with
  | None, _ => (Some (inl NoConnection), s)
  | _, [] => (Some (inl NoPendingUpdates), s)
  | Some conn_id, it :: queues' =>
    let '(now, s) := time_now s in
    if qltb now (q_wakeup_at it) then (Some (inl NoReadyUpdates), relax_wakeup_at s (q_wakeup_at it))
    else
      let queue_id := q_id it in
      let s := set_queues s queues' in
      match
        (if queue_id =? 0 then None
         else
           event_ids ← queue_updates s !! queue_id;
           event_id ← VectorQueue.front event_ids;
           if negb (Queues.is_valid event_id) then None
           else u ← update_map s !! event_id; body ← json_update (id_ u) (json_ u); Some (event_id, u, body))
      with
      | None => (None, s)
      | Some (event_id, u, body) =>
        let u := mk_update (id_ u) (json_ u) (expires_at_ u) now (wakeup_at_ u) (delay_ u) (fail_count_ u) (queue_id_ u) in
        let s := set_update_map s (<[event_id := u]> (update_map s)) in
        match request_header (len body) with
        | Err _ => (Some (inl UrlTooLong), s)
        | Ok header =>
          let s := set_ready_connections s (take (length (ready_connections s) - 1) (ready_connections s)) in
          match Container.modify (connections s) conn_id
                  (fun c => mk_connection (actor_id_ c) (conn_id_ c) (id_ u) (conn_ip_generation c)) with
          | None => (None, s)
          | Some c =>
            let s := set_connections s c in
            let s := emit s (Conn conn_id (WriteNextNoflush header)) in
            let s := emit s (Conn conn_id (WriteNextNoflush body)) in
            (Some (inr tt), emit s (Conn conn_id WriteOk))
          end
        end
      end
  end.

Fixpoint send_loop (fuel : nat) (s : actor) : option actor :=
  match fuel with
  | O => None
  | S fuel =>
    match send_update s with
    | (None, _) => None
    | (Some (inl _), s) => Some s
    | (Some (inr _), s) => send_loop fuel s
    end
  end.

Definition send_updates (s : actor) : option actor := send_loop (S (length (ready_connections s))) s.

(** ** The loop *)

Definition unless_stopped (f : actor -> option actor) (s : actor) : option actor := if stop_flag s then Some s else f s.

Definition loop (s : actor) : option actor :=
  let s := set_wakeup_at s 0 in
  s ← unless_stopped load_updates s;
  s ← unless_stopped (fun s => Some (resolve_ip_address s)) s;
  s ← unless_stopped create_new_connections s;
  s ← unless_stopped send_updates s;
  if stop_flag s then Some (stop s)
  else Some (if Qeq_bool (wakeup_at s) 0 then s else emit s (SetTimeoutAt (wakeup_at s))).

(** ** Events *)

Definition update_ (s : actor) : option actor := loop (set_tqueue_empty s false).

Definition on_resolved_ip_address (s : actor) (r : result ip_address) : option actor :=
  if negb (is_ip_address_being_resolved s) then None
  else
    let s := set_is_ip_address_being_resolved s false in
    let '(now, s) := time_now s in
    let '(n, s) := ask s in
    let next := (now + inject_Z (IP_ADDRESS_CACHE_TIME + random_fast env n 0 (IP_ADDRESS_CACHE_TIME / 10)))%Q in
    let s := relax_wakeup_at (set_next_ip_address_resolve_time s next) next in
    s ← match r with
        | Err e => on_error s e
        | Ok new_ip_address =>
          check ← check_ip_address new_ip_address;
          match check with
          | Err e => on_error s e
          | Ok _ =>
            if bool_decide (ip_address_ s = new_ip_address) then Some s
            else
              let s := set_ip_generation (set_ip_address_ s new_ip_address) (ip_generation s + 1) in
              Some (if was_checked s then on_webhook_verified s else s)
          end
        end;
    loop s.

(** The context is set when it was created. *)
Definition on_ssl_context_created (s : actor) (r : result unit) : option actor :=
  match r with
  | Err e => s ← create_webhook_error s "Can't create an SSL context" e true; loop s
  | Ok _ => loop (set_ssl_ctx s true)
  end.

Definition on_socket_ready_async (s : actor) (r : result Z) (id : Z) : option actor :=
  let s := set_pending_sockets s (Container.erase false (pending_sockets s) id) in
  s ← match r with
      | Ok fd => Some (set_ready_sockets s (ready_sockets s ++ [fd]))
      | Err e => on_error (on_webhook_error s (st_message e)) e
      end;
  loop s.

(** [to_lower_inplace] on the value of the first argument with that name. *)
Fixpoint lower_arg (key : bytes) (l : list (bytes * bytes)) : list (bytes * bytes) :=
  match l with
  | [] => []
  | (k, v) :: l => if decide (k = key) then (k, to_lower v) :: l else (k, v) :: lower_arg key l
  end.

Definition is_allowed_method (method : bytes) : bool :=
  negb (bool_decide (method = [])) && negb (bool_decide (method = lit "deletewebhook"))
  && negb (bool_decide (method = lit "setwebhook")) && negb (bool_decide (method = lit "close"))
  && negb (bool_decide (method = lit "logout")) && negb (begins_with method (lit "get")).

(** A request in the body of a response. *)
Definition send_response_query (s : actor) (response : http_query) : actor :=
  let method := to_lower (hq_get_arg response (lit "method")) in
  if is_allowed_method method then
    let token := Integers.print_int int64_min (Z.land (tqueue_id cfg) (Z.shiftl 1 54 - 1)) in
    let '(now, s) := time_now s in
    let '(query, shared) := Query.create now (hq_container response ++ [token]) token (Z.shiftl 1 54 <=? tqueue_id cfg) []
      (lower_arg (lit "method") (hq_args response)) (hq_headers response) (hq_files response) (Some (query_shared s))
      (hq_peer_address response) false in
    let s := set_query_shared s (default (query_shared s) shared) in
    notify s (SendQuery (Query.mk_promised query false))
  else s.

(** HTTP 410: the first one is remembered; the result tells whether the webhook is
    given up. *)
Definition check_gone (s : actor) (code : Z) : bool * actor :=
  if code =? 410 then
    if Qeq_bool (first_error_410_time s) 0 then
      let '(now, s) := time_now s in (false, set_first_error_410_time s now)
    else
      let '(now, s) := time_now s in
      (qltb (first_error_410_time s + inject_Z WEBHOOK_DROP_TIMEOUT)%Q now, s)
  else (false, set_first_error_410_time s 0).

(** What a response says: the error (empty when it is accepted), the delay it
    asks for, whether the webhook is given up, and the state. *)
Definition read_response (s : actor) (response : http_query) : bytes * Z * bool * actor :=
  if bool_decide (hq_type response = ResponseType) then
    if (200 <=? hq_code response) && (hq_code response <=? 299) then
      ([], 0, false, set_first_error_410_time (send_response_query s response) 0)
    else
      let query_error := lit "Wrong response from the webhook: " ++ Integers.print_int int32_min (hq_code response) ++ lit " "
                         ++ hq_reason response in
      let '(need_close, s) := check_gone s (hq_code response) in
      (query_error, hq_get_retry_after response, need_close, on_webhook_error s query_error)
  else
    let query_error := lit "Wrong response from the webhook: " ++ hq_print response in
    (query_error, 0, false, on_webhook_error s query_error).

(** The connection goes back to the list of ready connections, or away. *)
Definition finish_connection (s : actor) (connection_id : Z) (close : bool) : option actor :=
  c ← Container.modify (connections s) connection_id
        (fun c => mk_connection (actor_id_ c) (conn_id_ c) 0 (conn_ip_generation c));
  let s := set_connections s c in
  if close then
    conn ← Container.get c connection_id;
    let s := set_connections s (Container.erase no_connection c (conn_id_ conn)) in
    let s := set_ready_connections s (filter (fun x => x <> conn_id_ conn) (ready_connections s)) in
    let s := if actor_id_ conn then emit s (DropConnection (conn_id_ conn)) else s in
    Some (set_total_connection_count s (wrap 64 (total_connection_count s - 1)))
  else Some (set_ready_connections s (connection_id :: ready_connections s)).

(** [connection_id] is the link token of the connection; no response is a hangup. *)
Definition handle (s : actor) (connection_id : Z) (response : option http_query) : option actor :=
  match Container.get (connections s) connection_id with
  | None => Some s
  | Some connection =>
    '(query_error, retry_after, need_close, close_connection, s) ←
      match response with
      | Some response =>
        let close_connection := negb (bool_decide (hq_type response = ResponseType)) || negb (hq_keep_alive response)
                                || negb (ip_generation s =? conn_ip_generation connection) in
        let '(query_error, retry_after, need_close, s) := read_response s response in
        Some (query_error, retry_after, need_close, close_connection, s)
      | None =>
        c ← Container.modify (connections s) connection_id
              (fun c => mk_connection false (conn_id_ c) (event_id_ c) (conn_ip_generation c));
        Some (lit "Webhook connection closed", 0, false, true, set_connections s c)
      end;
    let event_id := event_id_ connection in
    s ← (if negb (Queues.is_empty event_id) then
           if bool_decide (query_error = []) then on_update_ok s event_id else on_update_error s event_id retry_after
         else if bool_decide (query_error = []) then None else Some s);
    s ← finish_connection s connection_id (need_close || close_connection);
    if need_close : bool then Some (emit s CloseLater) else loop s
  end.

Definition hangup_shared (s : actor) (connection_id : Z) : option actor :=
  s ← handle s connection_id None; loop s.

Definition hangup (s : actor) : actor := stop (set_callback_ s false).

Definition close (s : actor) : actor := stop (set_callback_ (notify s (WebhookClosed None)) false).

Definition tear_down (s : actor) : actor :=
  set_total_connection_count s (wrap 64 (total_connection_count s - Container.size (connections s))).

Definition allowed_port (port : Z) : bool := (port =? 443) || (port =? 88) || (port =? 80) || (port =? 8443).

Definition start_up (s : actor) : option actor :=
  let s := set_max_loaded_updates s (max_connections cfg * 2) in
  let '(now, s) := time_now s in
  let s := set_last_success_time s (now - 2 * inject_Z IP_ADDRESS_CACHE_TIME)%Q in
  let s :=
    if from_db_flag cfg then
      let '(now, s) := time_now s in
      let '(n, s) := ask s in
      set_next_ip_address_resolve_time s (now + inject_Z (random_fast env n 0 IP_ADDRESS_CACHE_TIME))%Q
    else set_next_ip_address_resolve_time s (last_success_time s) in
  let s := set_active_new_connection_flood s (Flood.add_limit (active_new_connection_flood s) (1 # 2) 10) in
  let s := set_pending_new_connection_flood s (Flood.add_limit (pending_new_connection_flood s) 2 1) in
  s ← (if local_mode cfg then Some s
       else if bool_decide (Url.protocol_ (url_ cfg) = Url.Https) then
         if allowed_port (Url.port_ (url_ cfg)) then Some s
         else on_error s (Status 0 (lit "Webhook can be set up only on ports 80, 88, 443 or 8443"))
       else on_error s (Status 0 (lit "An HTTPS URL must be provided for webhook")));
  check ← (if fix_ip_address cfg && negb (stop_flag s) then check_ip_address (ip_address_ s) else Some (Ok tt));
  match check with
  | Err e => on_error s e
  | Ok _ =>
    let s := if from_db_flag cfg && negb (stop_flag s) then on_webhook_verified (set_was_checked s true) else s in
    let s := if negb (bool_decide (Url.protocol_ (url_ cfg) = Url.Http)) && negb (stop_flag s)
             then emit s (CreateSslContext (cert_path cfg)) else s in
    Some (emit s Yield)
  end.

(** The events of the actor.  [Retry] is the timeout and a wakeup, which run
    [loop]; [Shared] is what other actors did to the shared state meanwhile. *)
Inductive event :=
| Update
| Retry
| Resolved (r : result ip_address)
| SslContextCreated (r : result unit)
| SocketReady (r : result Z) (id : Z)
| Response (connection_id : Z) (response : http_query)
| ConnectionError (e : status)
| ConnectionHangup (connection_id : Z)
| Close
| Hangup
| Shared (tq : T) (shared : Query.shared) (total : Z) (ticks : nat).

Definition on_event (s : actor) (e : event) : option actor :=
  match e with
  | Update => update_ s
  | Retry => loop s
  | Resolved r => on_resolved_ip_address s r
  | SslContextCreated r => on_ssl_context_created s r
  | SocketReady r id => on_socket_ready_async s r id
  | Response connection_id response => handle s connection_id (Some response)
  | ConnectionError e => Some (on_connection_error s e)
  | ConnectionHangup connection_id => hangup_shared s connection_id
  | Close => Some (close s)
  | Hangup => Some (hangup s)
  | Shared tq shared total n =>
    Some (set_ticks (set_total_connection_count (set_query_shared (set_tqueue s tq) shared) total) (ticks s + n))
  end.

(** An event, and [tear_down] when the actor was stopped. *)
Definition step (s : actor) (e : event) : option actor :=
  s ← on_event s e; Some (if stopped s then tear_down s else s).

End Actor.
Arguments actor : clear implicits.
Arguments event : clear implicits.

End Webhook.
