(* ===== verification/WebhookDelivery.v ===== *)
(** * Invariants of webhooks

    Module [Delivery]: where every loaded update stands - scheduled, in flight on
    one connection, or lost because its request does not fit - and how the steps
    of the actor of [WebhookActor.v] move it. *)

From Stdlib Require Import Qround.
From S2P Require Import Prelude TdMisc Utf8 Json HttpHeader IPAddress Query HttpConnection HttpUrl Base64 Containers TQueue WebhookActor.

Import Webhook VectorQueue VectorQueueFacts.

Module Delivery.

Implicit Types (um : gmap Z update) (qu : gmap Z (vector_queue Z)) (l : list queue) (live : gmap Z connection) (ready : list Z).

Definition content qu (q : Z) : list Z := default [] (as_span <$> qu !! q).
Definition front_of um qu (q : Z) : option update := id ← head (content qu q); um !! id.

(** The loaded updates and their queues. *)
Record loaded um qu : Prop := {
  ld_update id u : um !! id = Some u ->
    id_ u = id /\ 0 < id < Queues.MAX_ID /\ json_ u <> [] /\ queue_id_ u <> 0 /\ id ∈ content qu (queue_id_ u);
  ld_queue q vq : qu !! q = Some vq -> queue_ok vq /\ as_span vq <> [] /\ NoDup (as_span vq);
  ld_event q id : id ∈ content qu q -> exists u, um !! id = Some u /\ queue_id_ u = q }.

Definition queue_lt (a b : queue) : Prop := queue_less a b = true.

Section Delivery.
Context (cfg : config).

(** The request of an update does not fit in the buffer of the header. *)
Definition too_long (u : update) : Prop :=
  exists body, json_update (id_ u) (json_ u) = Some body /\ is_error (request_header cfg (len body)) = true.

(** The queue is neither scheduled nor in flight. *)
Definition unscheduled l live (q id : Z) : Prop :=
  q ∉ q_id <$> l /\ forall cid c, live !! cid = Some c -> event_id_ c <> id.

(** [loose] is a queue that the current step has taken, and [lost] the queues
    that will never be scheduled again, with their first updates. *)
Record delivery (lost : gmap Z Z) (loose : option Z) um qu l live ready : Prop := {
  dl_loaded : loaded um qu;
  dl_sorted : StronglySorted queue_lt l;
  dl_nodup : NoDup (q_id <$> l);
  dl_scheduled k : k ∈ l -> exists u, front_of um qu (q_id k) = Some u /\ k = new_queue (wakeup_at_ u) (q_id k);
  dl_ready : NoDup ready;
  dl_ready_elem id : id ∈ ready <-> exists c, live !! id = Some c /\ event_id_ c = 0;
  dl_conn id c : live !! id = Some c -> conn_id_ c = id /\ actor_id_ c = true;
  dl_flight id c : live !! id = Some c -> event_id_ c <> 0 ->
    exists u, um !! event_id_ c = Some u /\ head (content qu (queue_id_ u)) = Some (event_id_ c) /\ queue_id_ u ∉ q_id <$> l;
  dl_one id id' c c' : live !! id = Some c -> live !! id' = Some c' -> event_id_ c = event_id_ c' -> event_id_ c <> 0 -> id = id';
  dl_loose q : loose = Some q -> exists u, front_of um qu q = Some u /\ unscheduled l live q (id_ u);
  dl_lost q id : lost !! q = Some id ->
    exists u, um !! id = Some u /\ head (content qu q) = Some id /\ unscheduled l live q id /\ too_long u /\ loose <> Some q;
  dl_every q u : front_of um qu q = Some u ->
    loose = Some q \/ q ∈ q_id <$> l \/ (exists id c, live !! id = Some c /\ event_id_ c = id_ u) \/ is_Some (lost !! q) }.

(** *** Facts about loaded updates *)

Lemma front_loaded um qu q u : loaded um qu -> front_of um qu q = Some u ->
  um !! id_ u = Some u /\ queue_id_ u = q /\ head (content qu q) = Some (id_ u) /\ q <> 0.
Proof.
  intros [H1 _ H3] H. unfold front_of in H. destruct (head (content qu q)) as [id|] eqn:E; [|done]. cbn in H.
  destruct (H1 id u H) as (-> & _ & _ & Hq & _). destruct (H3 q id) as (u' & Hu & <-).
  { destruct (content qu q); [done|]. injection E as ->. by left. }
  rewrite H in Hu. injection Hu as ->. done.
Qed.

Lemma front_intro um qu q id u : head (content qu q) = Some id -> um !! id = Some u -> front_of um qu q = Some u.
Proof. intros E H. unfold front_of. by rewrite E. Qed.

Lemma front_exists um qu q : loaded um qu -> content qu q <> [] -> exists u, front_of um qu q = Some u.
Proof.
  intros [_ _ H3] H. unfold front_of. destruct (content qu q) as [|id l] eqn:E; [done|]. cbn.
  destruct (H3 q id) as (u & Hu & _); [rewrite E; by left|]. by exists u.
Qed.

Lemma content_insert qu q vq q' : content (<[q := vq]> qu) q' = if decide (q' = q) then as_span vq else content qu q'.
Proof. unfold content. destruct (decide (q' = q)) as [->|]; [by rewrite lookup_insert_eq|by rewrite lookup_insert_ne by done]. Qed.

Lemma content_delete qu q q' : content (delete q qu) q' = if decide (q' = q) then [] else content qu q'.
Proof. unfold content. destruct (decide (q' = q)) as [->|]; [by rewrite lookup_delete_eq|by rewrite lookup_delete_ne by done]. Qed.

(** An event is in one queue. *)
Lemma content_queue um qu q q' id : loaded um qu -> id ∈ content qu q -> id ∈ content qu q' -> q = q'.
Proof. intros [_ _ H] (u & Hu & <-)%H (u' & Hu' & <-)%H. rewrite Hu in Hu'. by injection Hu' as ->. Qed.

Lemma head_elem {A} (x : A) k : head k = Some x -> x ∈ k.
Proof. destruct k; [done|]. intros [= ->]. by left. Qed.

(** *** The ordered set of queues *)

Lemma queue_less_trans a b c : queue_lt a b -> queue_lt b c -> queue_lt a c.
Proof. unfold queue_lt, queue_less. intros. lia. Qed.

Lemma queue_lt_id a b : ~ queue_lt a b -> ~ queue_lt b a -> q_id a = q_id b.
Proof. unfold queue_lt, queue_less. intros. lia. Qed.

Lemma emplace_perm a l : q_id a ∉ q_id <$> l -> queue_emplace a l ≡ₚ a :: l.
Proof.
  induction l as [|b l IH]; intros H; [done|]. cbn [fmap list_fmap] in H. apply not_elem_of_cons in H as [Hb Hl]. cbn.
  destruct (queue_less a b) eqn:E1; [done|]. destruct (queue_less b a) eqn:E2.
  - rewrite IH by done. apply Permutation_swap.
  - destruct Hb. apply queue_lt_id; unfold queue_lt; congruence.
Qed.

Lemma emplace_ids a l : q_id a ∉ q_id <$> l -> q_id <$> queue_emplace a l ≡ₚ q_id a :: (q_id <$> l).
Proof. intros H. by rewrite (emplace_perm a l H). Qed.

Lemma emplace_elem a l k : q_id a ∉ q_id <$> l -> k ∈ queue_emplace a l <-> k = a \/ k ∈ l.
Proof. intros H. by rewrite (emplace_perm a l H), elem_of_cons. Qed.

Lemma emplace_sorted a l : StronglySorted queue_lt l -> StronglySorted queue_lt (queue_emplace a l).
Proof.
  induction 1 as [|b l Hl IH Hb]; cbn; [repeat constructor|]. destruct (queue_less a b) eqn:E1.
  - constructor; [by constructor|]. constructor; [done|]. eapply Forall_impl; [exact Hb|]. intros c. by apply queue_less_trans.
  - destruct (queue_less b a) eqn:E2; [|by constructor]. constructor; [done|]. clear -Hb E2.
    induction Hb as [|c l Hc Hl IH]; cbn; [by repeat constructor|]. destruct (queue_less a c); [by repeat constructor|].
    destruct (queue_less c a); constructor; done.
Qed.

(** *** Steps *)

Lemma live_event lost loose um qu l live ready id c u q : delivery lost loose um qu l live ready ->
  live !! id = Some c -> front_of um qu q = Some u -> event_id_ c = id_ u -> q ∉ q_id <$> l.
Proof.
  intros D Hl Hf E. pose proof (dl_loaded _ _ _ _ _ _ _ D) as L. destruct (front_loaded _ _ _ _ L Hf) as (Hu & <- & _ & _).
  destruct (ld_update _ _ L _ _ Hu) as (_ & Hid & _). destruct (dl_flight _ _ _ _ _ _ _ D id c Hl) as (u' & Hu' & _ & Hn); [lia|].
  rewrite E, Hu in Hu'. by injection Hu' as ->.
Qed.

(** The first queue is taken from the set. *)
Lemma take_first lost um qu k l live ready : delivery lost None um qu (k :: l) live ready ->
  delivery lost (Some (q_id k)) um qu l live ready.
Proof.
  intros D. pose proof D as [H1 H2 H3 H4 H5 H6 H7 H8 H9 H10 H11 H12]. cbn [fmap list_fmap] in *.
  apply StronglySorted_inv in H2 as [H2 _]. apply NoDup_cons in H3 as [H3n H3].
  assert (Hun : forall q id, unscheduled (k :: l) live q id -> unscheduled l live q id /\ q <> q_id k).
  { intros q id [Hq Hc]. cbn [fmap list_fmap] in Hq. apply not_elem_of_cons in Hq as [? ?]. done. }
  split; try done.
  - intros k' Hk. apply H4. by right.
  - intros id c Hc Hne. destruct (H8 id c Hc Hne) as (u & ? & ? & Hq). exists u. split_and!; [done..|].
    intros ?. apply Hq. by right.
  - intros q [= <-]. destruct (H4 k ltac:(by left)) as (u & Hf & _). exists u. split; [done|]. split; [done|].
    intros cid c Hc E. apply (live_event _ _ _ _ _ _ _ cid c u (q_id k) D Hc Hf E). by left.
  - intros q id Hl. destruct (H11 q id Hl) as (u & ? & ? & [? ?]%Hun & ? & ?). exists u. split_and!; try done. congruence.
  - intros q u Hf. destruct (H12 q u Hf) as [?|[[->|?]%elem_of_cons|[?|?]]]; [done|by left|by right; left|by right; right; left|by right; right; right].
Qed.

(** An update changes, but for its place and what is sent; its time of wakeup only
    when its queue is not scheduled. *)
Lemma touch_update lost loose um qu l live ready u u' : delivery lost loose um qu l live ready -> um !! id_ u = Some u ->
  id_ u' = id_ u -> json_ u' = json_ u -> queue_id_ u' = queue_id_ u ->
  (wakeup_at_ u' = wakeup_at_ u \/ queue_id_ u ∉ q_id <$> l) ->
  delivery lost loose (<[id_ u := u']> um) qu l live ready.
Proof.
  intros D Hu Ei Ej Eq Hw. pose proof D as [H1 H2 H3 H4 H5 H6 H7 H8 H9 H10 H11 H12].
  assert (Hlook : forall id v, um !! id = Some v -> exists v', <[id_ u := u']> um !! id = Some v'
    /\ id_ v' = id_ v /\ json_ v' = json_ v /\ queue_id_ v' = queue_id_ v /\ (id <> id_ u -> v' = v) /\ (id = id_ u -> v' = u')).
  { intros id v Hv. destruct (decide (id = id_ u)) as [->|Hne].
    - exists u'. rewrite lookup_insert_eq. rewrite Hu in Hv. injection Hv as <-. done.
    - exists v. by rewrite lookup_insert_ne. }
  assert (Hfront : forall q v, front_of um qu q = Some v -> exists v', front_of (<[id_ u := u']> um) qu q = Some v'
    /\ id_ v' = id_ v /\ (id_ v <> id_ u -> v' = v) /\ (id_ v = id_ u -> v' = u')).
  { intros q v Hf. destruct (front_loaded _ _ _ _ H1 Hf) as (Hv & _ & Hh & _). destruct (Hlook _ _ Hv) as (v' & Hv' & ? & _ & _ & ? & ?).
    exists v'. split; [by eapply front_intro|]. done. }
  split; try done.
  - destruct H1 as [L1 L2 L3]. split; [|done|].
    + intros id v Hv. destruct (decide (id = id_ u)) as [->|Hne].
      * rewrite lookup_insert_eq in Hv. injection Hv as <-. rewrite Ei, Ej, Eq. by apply L1.
      * rewrite lookup_insert_ne in Hv by done. by apply L1.
    + intros q id Hq. destruct (L3 q id Hq) as (v & Hv & <-). destruct (Hlook id v Hv) as (v' & ? & _ & _ & ? & _). by exists v'.
  - intros k Hk. destruct (H4 k Hk) as (v & Hf & Ek). destruct (Hfront _ _ Hf) as (v' & ? & _ & Hne & Heq). exists v'. split; [done|].
    destruct (decide (id_ v = id_ u)) as [E|E]; [|by rewrite Hne]. rewrite (Heq E). destruct (front_loaded _ _ _ _ H1 Hf) as (Hv & Hq & _).
    rewrite E, Hu in Hv. injection Hv as <-. destruct Hw as [->|Hw]; [done|]. destruct Hw. rewrite Hq. by apply list_elem_of_fmap_2.
  - intros id c Hc Hne. destruct (H8 id c Hc Hne) as (v & Hv & ? & ?). destruct (Hlook _ v Hv) as (v' & ? & _ & _ & E & _).
    exists v'. by rewrite E.
  - intros q Hq. destruct (H10 q Hq) as (v & Hf & ?). destruct (Hfront _ _ Hf) as (v' & ? & E & _). exists v'. by rewrite E.
  - intros q id Hq. destruct (H11 q id Hq) as (v & Hv & ? & ? & (body & Hb & ?) & ?). destruct (Hlook _ v Hv) as (v' & ? & E1 & E2 & _).
    exists v'. split_and!; try done. exists body. by rewrite E1, E2.
  - intros q v Hf. assert (exists v', front_of um qu q = Some v' /\ id_ v = id_ v') as (v' & Hf' & ->); [|by apply H12].
    revert Hf. unfold front_of. destruct (head (content qu q)) as [id|] eqn:Eh; [|done]. cbn. intros Hv.
    destruct (decide (id = id_ u)) as [->|Hne]; [rewrite lookup_insert_eq in Hv; injection Hv as <-; exists u; by rewrite Ei|].
    rewrite lookup_insert_ne in Hv by done. by exists v.
Qed.

(** The loose queue is sent over a ready connection. *)
Lemma dispatch lost um qu l live ready q cid c u : delivery lost (Some q) um qu l live (ready ++ [cid]) ->
  front_of um qu q = Some u -> live !! cid = Some c ->
  delivery lost None um qu l (<[cid := mk_connection (actor_id_ c) (conn_id_ c) (id_ u) (conn_ip_generation c)]> live) ready.
Proof.
  intros D Hf Hc. pose proof D as [H1 H2 H3 H4 H5 H6 H7 H8 H9 H10 H11 H12].
  destruct (front_loaded _ _ _ _ H1 Hf) as (Hu & Hq & Hh & _). destruct (ld_update _ _ H1 _ _ Hu) as (_ & Hid & _).
  destruct (H10 q eq_refl) as (u' & Hf' & Hql & Hqc). rewrite Hf in Hf'. injection Hf' as <-.
  apply NoDup_app in H5 as (H5 & Hnr & _).
  assert (Hev : event_id_ c = 0).
  { assert (cid ∈ ready ++ [cid]) as (c' & Hc' & ?)%H6 by set_solver. rewrite Hc in Hc'. by injection Hc' as ->. }
  split; try done.
  - intros id. destruct (decide (id = cid)) as [->|Hne].
    + rewrite lookup_insert_eq. split; [intros Hr; destruct (Hnr cid Hr); by left|]. intros (c' & [= <-] & E). cbn in E. lia.
    + rewrite lookup_insert_ne, <- H6 by done. set_solver.
  - intros id c'. destruct (decide (id = cid)) as [->|Hne]; [|by rewrite lookup_insert_ne; [apply H7|]].
    rewrite lookup_insert_eq. intros [= <-]. exact (H7 cid c Hc).
  - intros id c'. destruct (decide (id = cid)) as [->|Hne]; [|by rewrite lookup_insert_ne; [apply H8|]].
    rewrite lookup_insert_eq. intros [= <-] _. cbn [event_id_]. exists u. by rewrite Hq.
  - intros id id' c1 c2. destruct (decide (id = cid)) as [->|Hne], (decide (id' = cid)) as [->|Hne']; [done|..];
      rewrite ?lookup_insert_eq, ?lookup_insert_ne by done.
    + intros [= <-] Hc2. cbn [event_id_]. intros E _. by destruct (Hqc id' c2).
    + intros Hc1 [= <-]. cbn [event_id_]. intros E _. by destruct (Hqc id c1).
    + by apply H9.
  - intros q' id Hl. destruct (H11 q' id Hl) as (v & Hv & Hh' & [Hun Hun'] & Ht & Hne). exists v. split_and!; try done.
    split; [done|]. intros id' c'. destruct (decide (id' = cid)) as [->|Hne']; [|by rewrite lookup_insert_ne; [apply Hun'|]].
    rewrite lookup_insert_eq. intros [= <-]. cbn [event_id_]. intros E. apply Hne. f_equal.
    rewrite <- Hq. rewrite <- E, Hu in Hv. injection Hv as <-. by destruct (ld_update _ _ H1 _ _ Hu) as (_ & _ & _ & _ & ?);
      eapply content_queue; [done| |apply head_elem]; [|rewrite <- E in Hh']; eauto using head_elem.
  - intros q' v Hf'. destruct (H12 q' v Hf') as [[= <-]|[?|[(id & c' & Hc' & E)|?]]]; [|by right; left| |by right; right; right].
    + right; right; left. rewrite Hf in Hf'. injection Hf' as <-. exists cid. eexists. by rewrite lookup_insert_eq.
    + right; right; left. destruct (decide (id = cid)) as [->|Hne].
      * rewrite Hc in Hc'. injection Hc' as <-. exfalso. destruct (front_loaded _ _ _ _ H1 Hf') as (Hv & _).
        destruct (ld_update _ _ H1 _ _ Hv) as (_ & ? & _). lia.
      * exists id, c'. by rewrite lookup_insert_ne.
Qed.

(** The header of the request does not fit: the queue is lost. *)
Lemma lose lost um qu l live ready q u : delivery lost (Some q) um qu l live ready -> front_of um qu q = Some u -> too_long u ->
  delivery (<[q := id_ u]> lost) None um qu l live ready.
Proof.
  intros D Hf Ht. pose proof D as [H1 H2 H3 H4 H5 H6 H7 H8 H9 H10 H11 H12].
  destruct (front_loaded _ _ _ _ H1 Hf) as (Hu & Hq & Hh & _).
  destruct (H10 q eq_refl) as (u' & Hf' & Hun). rewrite Hf in Hf'. injection Hf' as <-. split; try done.
  - intros q' id. destruct (decide (q' = q)) as [->|Hne].
    + rewrite lookup_insert_eq. intros [= <-]. by exists u.
    + rewrite lookup_insert_ne by done. intros Hl. destruct (H11 q' id Hl) as (v & ? & ? & ? & ? & _). by exists v.
  - intros q' v Hf'. destruct (H12 q' v Hf') as [[= <-]|[?|[?|?]]]; [|by right; left|by right; right; left|].
    + right; right; right. rewrite lookup_insert_eq. by eexists.
    + right; right; right. by apply lookup_insert_is_Some'; right.
Qed.

(** A connection with a request goes away, or becomes ready again. *)
Lemma release_busy lost um qu l live ready cid c u : delivery lost None um qu l live ready -> live !! cid = Some c ->
  event_id_ c <> 0 -> um !! event_id_ c = Some u ->
  delivery lost (Some (queue_id_ u)) um qu l (delete cid live) ready /\ front_of um qu (queue_id_ u) = Some u.
Proof.
  intros D Hc He Hu. pose proof D as [H1 H2 H3 H4 H5 H6 H7 H8 H9 H10 H11 H12].
  destruct (H8 cid c Hc He) as (u' & Hu' & Hh & Hq). rewrite Hu in Hu'. injection Hu' as <-.
  assert (Hf : front_of um qu (queue_id_ u) = Some u) by (by eapply front_intro). split; [|done].
  destruct (ld_update _ _ H1 _ _ Hu) as (Ei & _). split; try done.
  - intros id. destruct (decide (id = cid)) as [->|Hne]; [|by rewrite lookup_delete_ne; [apply H6|]].
    rewrite lookup_delete_eq. split; [|by intros (? & ? & _)]. intros (c' & Hc' & ?)%H6. rewrite Hc in Hc'. by injection Hc' as <-.
  - intros id c' [_ Hc']%lookup_delete_Some. by eapply H7.
  - intros id c' [_ Hc']%lookup_delete_Some. by eapply H8.
  - intros id id' c1 c2 [_ Hc1]%lookup_delete_Some [_ Hc2]%lookup_delete_Some. by eapply H9.
  - intros q [= <-]. exists u. split; [done|]. split; [done|]. intros id c' [Hne Hc']%lookup_delete_Some E.
    apply Hne. apply (H9 cid id c c'); [done..|by rewrite E|done].
  - intros q id Hl. destruct (H11 q id Hl) as (v & Hv & Hhq & [? Hun] & ? & _). exists v. split_and!; try done.
    + split; [done|]. intros id' c' [_ Hc']%lookup_delete_Some. by eapply Hun.
    + intros [= <-]. rewrite Hh in Hhq. injection Hhq as Eid. by apply (Hun cid c Hc).
  - intros q v Hfv. destruct (H12 q v Hfv) as [?|[?|[(id & c' & Hc' & E)|?]]]; [done|by right; left| |by right; right; right].
    destruct (decide (id = cid)) as [->|Hne]; [|right; right; left; exists id, c'; by rewrite lookup_delete_ne].
    left. rewrite Hc in Hc'. injection Hc' as <-. destruct (front_loaded _ _ _ _ H1 Hfv) as (Hv & <- & _). rewrite <- E, Hu in Hv.
    by injection Hv as ->.
Qed.

Lemma release_ready lost loose um qu l live ready cid c : delivery lost loose um qu l live ready -> live !! cid = Some c ->
  event_id_ c = 0 -> delivery lost loose um qu l (delete cid live) (filter (fun x => x <> cid) ready).
Proof.
  intros D Hc He. pose proof D as [H1 H2 H3 H4 H5 H6 H7 H8 H9 H10 H11 H12]. split; try done.
  - by apply NoDup_filter.
  - intros id. rewrite list_elem_of_filter, H6. split.
    + intros [Hne (c' & ? & ?)]. exists c'. by rewrite lookup_delete_ne.
    + intros (c' & [? ?]%lookup_delete_Some & ?). split; [congruence|]. by exists c'.
  - intros id c' [_ Hc']%lookup_delete_Some. by eapply H7.
  - intros id c' [_ Hc']%lookup_delete_Some. by eapply H8.
  - intros id id' c1 c2 [_ Hc1]%lookup_delete_Some [_ Hc2]%lookup_delete_Some. by eapply H9.
  - intros q Hq. destruct (H10 q Hq) as (u & ? & ? & Hun). exists u. split; [done|]. split; [done|].
    intros id c' [_ Hc']%lookup_delete_Some. by eapply Hun.
  - intros q id Hl. destruct (H11 q id Hl) as (v & Hv & Hhq & [? Hun] & ? & ?). exists v. split_and!; try done.
    split; [done|]. intros id' c' [_ Hc']%lookup_delete_Some. by eapply Hun.
  - intros q v Hfv. destruct (H12 q v Hfv) as [?|[?|[(id & c' & Hc' & E)|?]]]; [by left|by right; left| |by right; right; right].
    right; right; left. exists id, c'. split; [|done]. rewrite lookup_delete_ne; [done|]. intros ->. rewrite Hc in Hc'. injection Hc' as <-.
    destruct (front_loaded _ _ _ _ H1 Hfv) as (Hv & _). destruct (ld_update _ _ H1 _ _ Hv) as (_ & ? & _). lia.
Qed.

(** A connection without a request appears. *)
Lemma add_ready lost loose um qu l live ready cid c : delivery lost loose um qu l live ready -> live !! cid = None ->
  event_id_ c = 0 -> conn_id_ c = cid -> actor_id_ c = true ->
  delivery lost loose um qu l (<[cid := c]> live) (cid :: ready).
Proof.
  intros D Hc He Hi Ha. pose proof D as [H1 H2 H3 H4 H5 H6 H7 H8 H9 H10 H11 H12].
  assert (Hpos : forall id v, um !! id = Some v -> id <> 0) by (intros id v (_ & ? & _)%(ld_update _ _ H1); lia).
  split; try done.
  - apply NoDup_cons. split; [|done]. intros (c' & Hc' & _)%H6. congruence.
  - intros id. rewrite elem_of_cons. destruct (decide (id = cid)) as [->|Hne].
    + rewrite lookup_insert_eq. split; [by exists c|by left].
    + rewrite lookup_insert_ne, <- H6 by done. split; [by intros [?|?]|by right].
  - intros id c' [[<- <-]|[_ Hc']]%lookup_insert_Some; [done|by eapply H7].
  - intros id c' [[<- <-]|[_ Hc']]%lookup_insert_Some; [done|by eapply H8].
  - intros id id' c1 c2 [[<- <-]|[_ Hc1]]%lookup_insert_Some [[<- <-]|[_ Hc2]]%lookup_insert_Some; [done|..|by eapply H9];
      intros E ?; congruence.
  - intros q Hq. destruct (H10 q Hq) as (u & Hf & ? & Hun). exists u. split; [done|]. split; [done|].
    intros id c' [[<- <-]|[_ Hc']]%lookup_insert_Some; [|by eapply Hun]. rewrite He.
    destruct (front_loaded _ _ _ _ H1 Hf) as (?%Hpos & _). congruence.
  - intros q id Hl. destruct (H11 q id Hl) as (v & Hv & Hhq & [? Hun] & ? & ?). exists v. split_and!; try done.
    split; [done|]. intros id' c' [[<- <-]|[_ Hc']]%lookup_insert_Some; [|by eapply Hun]. rewrite He. apply Hpos in Hv. congruence.
  - intros q v Hfv. destruct (H12 q v Hfv) as [?|[?|[(id & c' & Hc' & E)|?]]]; [by left|by right; left| |by right; right; right].
    right; right; left. exists id, c'. split; [|done]. rewrite lookup_insert_ne; [done|]. congruence.
Qed.

(** The loose queue is scheduled. *)
Lemma schedule lost um qu l live ready q u : delivery lost (Some q) um qu l live ready -> front_of um qu q = Some u ->
  delivery lost None um qu (queue_emplace (new_queue (wakeup_at_ u) q) l) live ready.
Proof.
  intros D Hf. pose proof D as [H1 H2 H3 H4 H5 H6 H7 H8 H9 H10 H11 H12].
  destruct (front_loaded _ _ _ _ H1 Hf) as (Hu & Hq & Hh & _).
  destruct (H10 q eq_refl) as (u' & Hf' & Hql & Hqc). rewrite Hf in Hf'. injection Hf' as <-.
  set (k := new_queue (wakeup_at_ u) q). assert (Hk : q_id k ∉ q_id <$> l) by done.
  pose proof (emplace_ids k l Hk) as Hids. assert (Hin : forall x, x ∈ q_id <$> queue_emplace k l <-> x = q \/ x ∈ q_id <$> l).
  { intros x. by rewrite Hids, elem_of_cons. }
  split; try done.
  - by apply emplace_sorted.
  - rewrite Hids. by constructor.
  - intros k' [->|Hk']%(emplace_elem k l k' Hk); [by exists u|by apply H4].
  - intros id c Hc Hne. destruct (H8 id c Hc Hne) as (v & Hv & Hhv & ?). exists v. split_and!; [done..|]. rewrite Hin.
    intros [E|?]; [|done]. rewrite E, Hh in Hhv. injection Hhv as E'. by apply (Hqc id c).
  - intros q' id Hl. destruct (H11 q' id Hl) as (v & Hv & Hhq & [? Hun] & ? & Hne). exists v. split_and!; try done.
    split; [|done]. rewrite Hin. intros [->|?]; done.
  - intros q' v Hfv. destruct (H12 q' v Hfv) as [[= <-]|[?|[?|?]]]; right; [left; by rewrite Hin; left|left; by rewrite Hin; right|by right; left|by right; right].
Qed.

(** The first event of the loose queue is dropped. *)
Lemma drop_front lost um qu l live ready q id rest qu' : delivery lost (Some q) um qu l live ready ->
  content qu q = id :: rest ->
  (forall q', content qu' q' = if decide (q' = q) then rest else content qu q') ->
  (forall q' vq, qu' !! q' = Some vq -> queue_ok vq /\ as_span vq <> []) ->
  delivery lost (match rest with [] => None | _ => Some q end) (delete id um) qu' l live ready.
Proof.
  intros D Eq Hc' Hok. pose proof D as [H1 H2 H3 H4 H5 H6 H7 H8 H9 H10 H11 H12].
  destruct (H10 q eq_refl) as (u & Hf & Hql & Hqc). destruct (front_loaded _ _ _ _ H1 Hf) as (Hu & Hq & Hh & _).
  assert (E : id_ u = id) by (rewrite Eq in Hh; by injection Hh as ->).
  assert (Hnd : NoDup (id :: rest)).
  { unfold content in Eq. destruct (qu !! q) as [vq|] eqn:Ev; [|done]. cbn in Eq. rewrite <- Eq. by apply (ld_queue _ _ H1 q vq). }
  apply NoDup_cons in Hnd as [Hnin Hnd].
  assert (Hsub : forall q' x, x ∈ content qu' q' -> x ∈ content qu q').
  { intros q' x. rewrite Hc'. destruct (decide (q' = q)) as [->|]; [rewrite Eq; by right|done]. }
  assert (Hne : forall q' x, x ∈ content qu q' -> q' <> q -> x <> id).
  { intros q' x Hx Hn ->. apply Hn. apply (content_queue um qu q' q id H1 Hx). rewrite Eq. by left. }
  assert (Hfront : forall q' v, q' <> q -> front_of um qu q' = Some v <-> front_of (delete id um) qu' q' = Some v).
  { intros q' v Hn. unfold front_of. rewrite Hc', decide_False by done. destruct (head (content qu q')) as [x|] eqn:Ex; [|done]. cbn.
    rewrite lookup_delete_ne; [done|]. intros <-. by apply (Hne q' id (head_elem _ _ Ex) Hn). }
  split; try done.
  - destruct H1 as [L1 L2 L3]. split.
    + intros x v [Hx Hv]%lookup_delete_Some. destruct (L1 x v Hv) as (? & ? & ? & ? & Hin). split_and!; try done; [lia..|].
      rewrite Hc'. destruct (decide (queue_id_ v = q)) as [Ev|]; [|done]. rewrite Ev, Eq in Hin. by apply elem_of_cons in Hin as [->|].
    + intros q' vq Hv. destruct (Hok q' vq Hv) as [? ?]. split_and!; [done..|].
      assert (as_span vq = content qu' q') as -> by (unfold content; by rewrite Hv). rewrite Hc'. destruct (decide (q' = q)); [done|].
      unfold content. destruct (qu !! q') as [vq'|] eqn:Ev; [by apply (L2 q' vq')|constructor].
    + intros q' x Hx. destruct (L3 q' x (Hsub q' x Hx)) as (v & Hv & Hvq). exists v. split; [|done].
      rewrite lookup_delete_ne; [done|]. intros <-. rewrite Hc' in Hx. destruct (decide (q' = q)); [done|]. by apply (Hne q' id).
  - intros k Hk. destruct (H4 k Hk) as (v & Hv & ?). exists v. split; [|done]. apply Hfront; [|done]. intros En. apply Hql.
    rewrite <- En. by apply list_elem_of_fmap_2.
  - intros cid c Hc Hn. destruct (H8 cid c Hc Hn) as (v & Hv & Hhv & ?). exists v. pose proof (Hqc cid c Hc) as Hci. rewrite E in Hci.
    split_and!; [by rewrite lookup_delete_ne| |done]. rewrite Hc', decide_False; [done|]. intros Ev. rewrite Ev, Eq in Hhv. by injection Hhv.
  - intros q' Hl. destruct rest as [|id2 rest]; [done|]. injection Hl as <-.
    destruct (ld_event _ _ H1 q id2) as (v & Hv & Hvq); [rewrite Eq; by right; left|].
    destruct (ld_update _ _ H1 _ _ Hv) as (Ei & ? & _). exists v. split.
    + apply (front_intro _ _ _ id2); [by rewrite Hc', decide_True|]. rewrite lookup_delete_ne; [done|]. intros ->. apply Hnin. by left.
    + split; [done|]. intros cid c Hc Ec. rewrite Ei in Ec. destruct (H8 cid c Hc) as (v' & Hv' & Hhv & _); [lia|].
      rewrite Ec, Hv in Hv'. injection Hv' as <-. rewrite Hvq, Eq, Ec in Hhv. injection Hhv as ->. apply Hnin. by left.
  - intros q' x Hl. destruct (H11 q' x Hl) as (v & Hv & Hhq & ? & ? & Hn). assert (q' <> q) by congruence. exists v. split_and!; try done.
    + rewrite lookup_delete_ne; [done|]. intros <-. by apply (Hne q' id (head_elem _ _ Hhq)).
    + by rewrite Hc', decide_False.
    + destruct rest; congruence.
  - intros q' v Hv. destruct (decide (q' = q)) as [->|Hn].
    + left. unfold front_of in Hv. rewrite Hc', decide_True in Hv by done. by destruct rest.
    + apply Hfront in Hv; [|done]. destruct (H12 q' v Hv) as [[= Hx]|?]; [by destruct Hn|by right].
Qed.

(** *** Loading *)

(** Identifiers without repetition are not more than there are. *)
Lemma ids_length (ids : list Z) N : 0 <= N -> NoDup ids -> (forall x, x ∈ ids -> 0 <= x < N) -> len ids <= N.
Proof.
  intros HN Hd Hb. unfold len. transitivity (Z.of_nat (length (seqZ 0 N))); [|rewrite length_seqZ; lia]. apply inj_le, submseteq_length, NoDup_submseteq; [done|].
  intros x Hx%Hb. apply elem_of_seqZ. lia.
Qed.

Lemma content_length um qu q : loaded um qu -> len (content qu q) < 2 ^ 62.
Proof.
  intros H. apply Z.le_lt_trans with Queues.MAX_ID; [|done]. apply ids_length; [done|..].
  - unfold content. destruct (qu !! q) as [vq|] eqn:Ev; [by apply (ld_queue _ _ H q vq)|constructor].
  - intros x (u & Hu & _)%(ld_event _ _ H). destruct (ld_update _ _ H _ _ Hu) as (_ & ? & _). lia.
Qed.

Lemma content_ok um qu q : loaded um qu -> queue_ok (default empty_vector_queue (qu !! q)).
Proof. intros H. destruct (qu !! q) as [vq|] eqn:Ev; [by apply (ld_queue _ _ H q vq)|apply empty_ok]. Qed.

Lemma content_span qu q : as_span (default empty_vector_queue (qu !! q)) = content qu q.
Proof. unfold content. by destruct (qu !! q). Qed.

Lemma load_event lost um qu l live ready u : delivery lost None um qu l live ready -> um !! id_ u = None ->
  0 < id_ u < Queues.MAX_ID -> json_ u <> [] -> queue_id_ u <> 0 ->
  let vq := default empty_vector_queue (qu !! queue_id_ u) in
  delivery lost (if empty vq then Some (queue_id_ u) else None) (<[id_ u := u]> um) (<[queue_id_ u := push vq (id_ u)]> qu) l live ready.
Proof.
  intros D Hn Hid Hj Hq0 vq. pose proof D as [H1 H2 H3 H4 H5 H6 H7 H8 H9 H10 H11 H12]. set (q := queue_id_ u) in *. set (id := id_ u) in *.
  pose proof (content_ok um qu q H1) as Hvq. pose proof (content_length um qu q H1) as Hlen. fold vq in Hvq.
  pose proof (content_span qu q) as Hsp. fold vq in Hsp.
  assert (Hc' : forall q', content (<[q := push vq id]> qu) q' = if decide (q' = q) then content qu q ++ [id] else content qu q').
  { intros q'. rewrite content_insert, push_span, Hsp by done. done. }
  assert (Hnew : forall q' x, x ∈ content qu q' -> x <> id).
  { intros q' x (v & Hv & _)%(ld_event _ _ H1) ->. congruence. }
  assert (He : empty vq = bool_decide (content qu q = [])).
  { pose proof (empty_span vq Hvq) as Hev. rewrite Hsp in Hev. destruct (empty vq); case_bool_decide; tauto. }
  assert (Hhead : forall q' x, head (content qu q') = Some x -> head (content (<[q := push vq id]> qu) q') = Some x).
  { intros q' x Hx. rewrite Hc'. destruct (decide (q' = q)) as [->|]; [|done]. by destruct (content qu q). }
  assert (Hfront : forall q' v, front_of um qu q' = Some v -> front_of (<[id := u]> um) (<[q := push vq id]> qu) q' = Some v).
  { intros q' v Hf. destruct (front_loaded _ _ _ _ H1 Hf) as (Hv & _ & Hh & _). apply (front_intro _ _ _ (id_ v)); [by apply Hhead|].
    rewrite lookup_insert_ne; [done|]. intros E. by apply (Hnew q' (id_ v) (head_elem _ _ Hh)). }
  assert (Hflight : forall cid c, live !! cid = Some c -> event_id_ c <> id).
  { intros cid c Hc E. destruct (H8 cid c Hc) as (v & Hv & _); [rewrite E; lia|]. congruence. }
  assert (Hun : q ∈ q_id <$> l -> content qu q <> []).
  { intros (k & Ek & Hk)%list_elem_of_fmap E. destruct (H4 k Hk) as (v & Hf & _). unfold front_of in Hf. by rewrite <- Ek, E in Hf. }
  split; try done.
  - split.
    + intros x v [[<- <-]|[Hx Hv]]%lookup_insert_Some.
      * split_and!; try done; [lia..|]. fold q. rewrite Hc', decide_True by done. set_solver.
      * destruct (ld_update _ _ H1 x v Hv) as (? & ? & ? & ? & Hin). split_and!; try done; [lia..|]. rewrite Hc'.
        destruct (decide _) as [Eq|]; [rewrite Eq in Hin; set_solver|done].
    + intros q' v [[<- <-]|[? Hv]]%lookup_insert_Some; [|by apply (ld_queue _ _ H1 q' v)]. rewrite push_span by done. split_and!.
      * apply vector_push_ok; [done|by rewrite Hsp].
      * by destruct (as_span vq).
      * rewrite Hsp. apply NoDup_app. split_and!; [|intros x Hx%Hnew ?%list_elem_of_singleton; done|apply NoDup_singleton].
        unfold content. destruct (qu !! q) as [v|] eqn:Ev; [by apply (ld_queue _ _ H1 q v)|constructor].
    + intros q' x Hx. rewrite Hc' in Hx. destruct (decide (q' = q)) as [->|].
      * apply elem_of_app in Hx as [Hx|Hx]; [|apply list_elem_of_singleton in Hx as ->; exists u; by rewrite lookup_insert_eq].
        pose proof (Hnew q x Hx). destruct (ld_event _ _ H1 q x Hx) as (v & ? & ?). exists v. by rewrite lookup_insert_ne.
      * pose proof (Hnew q' x Hx). destruct (ld_event _ _ H1 q' x Hx) as (v & ? & ?). exists v. by rewrite lookup_insert_ne.
  - intros k Hk. destruct (H4 k Hk) as (v & Hf & ?). exists v. split; [by apply Hfront|done].
  - intros cid c Hc Hne. destruct (H8 cid c Hc Hne) as (v & Hv & Hhv & ?). exists v. split_and!; [|by apply Hhead|done].
    rewrite lookup_insert_ne; [done|]. intros E. by apply (Hflight cid c).
  - intros q' Hl. rewrite He in Hl. case_bool_decide as Hemp; [|done]. injection Hl as <-. exists u. split.
    + apply (front_intro _ _ _ id); [by rewrite Hc', decide_True, Hemp|by apply lookup_insert_eq].
    + split; [by intros ?%Hun|done].
  - intros q' x Hl. destruct (H11 q' x Hl) as (v & Hv & Hhq & ? & ? & _). exists v. split_and!; try done.
    + rewrite lookup_insert_ne; [done|]. intros <-. by apply (Hnew q' id (head_elem _ _ Hhq)).
    + by apply Hhead.
    + rewrite He. case_bool_decide as Hemp; [|done]. intros [= <-]. by rewrite Hemp in Hhq.
  - intros q' v Hf. assert (Hd : (q' = q /\ content qu q = []) \/ exists w, front_of um qu q' = Some w).
    { destruct (decide (content qu q' = [])) as [E|E]; [|right; by apply (front_exists um)]. left. split; [|].
      - destruct (decide (q' = q)); [done|]. unfold front_of in Hf. by rewrite Hc', decide_False, E in Hf.
      - destruct (decide (q' = q)) as [->|]; [done|]. unfold front_of in Hf. by rewrite Hc', decide_False, E in Hf. }
    destruct Hd as [[-> E]|(w & Hw)]; [left; by rewrite He, bool_decide_eq_true_2|].
    pose proof (Hfront q' w Hw) as Hw'. rewrite Hf in Hw'. injection Hw' as <-. destruct (H12 q' v Hw) as [?|?]; [done|by right].
Qed.

End Delivery.
End Delivery.

(** ** What the queues of updates promise *)

Module Laws.
Import Source.

(** [source_view] are the events of a queue that can be read, in order. *)
Class source_laws (T : Type) `{!update_source T} := {
  source_ok : T -> Prop;
  source_view : T -> Z -> list Queues.event;
  source_events t k e : source_ok t -> e ∈ source_view t k ->
    0 < Queues.ev_id e /\ Queues.ev_id e + 1 < Queues.MAX_ID /\ Queues.ev_data e <> [];
  source_sorted t k : source_ok t -> StronglySorted Z.lt (Queues.ev_id <$> source_view t k);
  source_size t k : source_ok t -> len (source_view t k) <= Queues.MAX_QUEUE_EVENTS;
  source_get_ok t k from_id now n : source_ok t ->
    exists r l t', source_get t k from_id now n = Some (r, l, t') /\ source_ok t'
      /\ (forall k', k' <> k -> source_view t' k' = source_view t k')
      /\ match r with
         | Ok size =>
           l = take n (filter (fun e => from_id <= Queues.ev_id e /\ now <= Queues.ev_expires_at e) (source_view t k))
           /\ size = len (source_view t' k)
           /\ pruned (fun e => from_id <= Queues.ev_id e /\ Queues.ev_expires_at e < now) (source_view t k) (source_view t' k)
         | Err _ => l = [] /\ source_view t' k = source_view t k
         end;
  source_head_ok t k now n : source_ok t -> exists size l t', source_get t k (source_head t k) now n = Some (Ok size, l, t');
  source_forget_ok t k id : source_ok t -> exists t', source_forget t k id = Some t' /\ source_ok t'
      /\ forall k', source_view t' k' = if k' =? k then filter (fun e => Queues.ev_id e <> id) (source_view t k) else source_view t k' }.

Lemma reached_view {St} `{!Queues.storage_ops St} `{!storage_laws St} (t : Queues.tqueue St) k : wf t ->
  let q := Queues.get_queue t k in
  wfq (stores (Queues.callback t)) q /\ v_live (view_of t k) = Queues.to_event <$> live (Queues.events q).
Proof. intros Hw q. split; [apply (t_wf _ _ Hw k)|done]. Qed.

#[local] Obligation Tactic := idtac.

(** [TQueue] keeps the promise, with every storage that keeps its own. *)
#[export] Program Instance tqueue_laws {St} `{!Queues.storage_ops St} `{!storage_laws St} : source_laws (Queues.tqueue St) := {
  source_ok := wf;
  source_view t k := v_live (view_of t k) }.
Next Obligation.
  intros St ops laws t k e H He. cbv beta in *. destruct (reached_view t k H) as [Hq E]. rewrite E in He.
  apply list_elem_of_fmap in He as (x & -> & [Hd Hx]%list_elem_of_filter). destruct (q_ids _ _ _ (wq_ok _ _ Hq) x Hx).
  pose proof (q_tail _ _ _ (wq_ok _ _ Hq)). cbn. split_and!; [done|lia|done].
Qed.
Next Obligation.
  intros St ops laws t k H. cbv beta in *. destruct (reached_view t k H) as [Hq E]. rewrite E, <- list_fmap_compose.
  eapply sorted_sublist; [apply (q_sorted _ _ _ (wq_ok _ _ Hq))|]. apply fmap_sublist, sublist_filter.
Qed.
Next Obligation.
  intros St ops laws t k H. cbv beta in *. destruct (reached_view t k H) as [Hq E]. rewrite E. unfold len. rewrite length_fmap.
  pose proof (sublist_length _ _ (sublist_filter (fun e => Queues.data e <> []) (Queues.events (Queues.get_queue t k)))) as Hl.
  fold (live (Queues.events (Queues.get_queue t k))) in Hl. pose proof (wq_count _ _ Hq). unfold len in *. lia.
Qed.
Next Obligation.
  intros St ops laws t k from_id now n H. cbv beta in *. destruct (queue_get_spec t k from_id false now n H) as (r & l & t' & E & Hw & Hs).
  exists r, l, t'. split; [exact E|]. split; [done|]. cbn in Hs. destruct r as [size|e].
  - destruct Hs as (-> & live' & Hr & -> & Hp & _). split.
    + intros k' Hk. by rewrite Hr, (proj2 (Z.eqb_neq k' k)).
    + rewrite Hr, Z.eqb_refl. cbn [v_live]. split; [done|]. split; [done|]. eapply pruned_weaken; [|exact Hp].
      intros x [[? _]|?]; done.
  - destruct Hs as (-> & Hr & _). split; [intros k' _; by rewrite Hr|]. split; [done|by rewrite Hr].
Qed.
Next Obligation.
  intros St ops laws t k now n H. cbv beta in *. pose proof (get_ok t k (Queues.get_head t k) false now n H) as Hg. cbn zeta in Hg.
  unfold source_head, source_get, tqueue_source. destruct (Queues.queues t !! k) as [q|] eqn:Eq.
  - rewrite bool_decide_eq_false_2 in Hg by done. destruct (tok_present _ _ _ _ H Eq) as [_ Eq'].
    assert (Eh : Queues.get_head t k = Queues.get_queue_head q) by (unfold Queues.get_head; by rewrite Eq).
    pose proof (t_wf _ _ H k) as Hq. subst q. set (q := Queues.get_queue t k) in *.
    assert (0 <= Queues.get_queue_head q <= Queues.tail_id q) as Hh.
    { pose proof (wq_ok _ _ Hq) as Hok. unfold Queues.get_queue_head. destruct (Queues.events q) as [|e l] eqn:El.
      - pose proof (q_tail _ _ _ Hok). lia.
      - pose proof (q_ids _ _ _ Hok e ltac:(by left)). lia. }
    rewrite Eh in *. rewrite ltb_false in Hg by lia. rewrite ltb_false in Hg by (unfold Queues.MAX_QUEUE_EVENTS; lia).
    destruct Hg as (t' & l' & E & _). eauto.
  - rewrite bool_decide_eq_true_2 in Hg by done. eauto.
Qed.
Next Obligation.
  intros St ops laws t k id H. cbv beta in *. destruct (queue_forget_spec t k id H) as (t' & E & Hw & Hs). exists t'. split; [exact E|]. split; [done|].
  intros k'. cbn in Hs. rewrite Hs. by destruct (k' =? k).
Qed.

End Laws.
