(* ===== verification/WebhookInvariant.v ===== *)
(** * The webhook actor never fails a check

    Every handler of [WebhookActor.v] keeps the invariant of [WebhookDelivery.v],
    whatever the environment answers, and returns: no check of the code fails and
    the fuel of its loops is enough. *)

From Stdlib Require Import Qround.
From S2P Require Import Prelude TdMisc Utf8 Json HttpHeader IPAddress Query HttpConnection HttpUrl Base64 Containers TQueue WebhookActor WebhookDelivery.

Import Webhook Source VectorQueue VectorQueueFacts Delivery Laws ContainerMap Held FloodFacts.

Module Invariant.

#[local] Existing Instance Queues.event_eq_dec.

(** ** The invariant of the actor *)

Definition opened (l : list effect) : gset Z :=
  list_to_set (omap (fun e => match e with OpenConnection id _ => Some id | _ => None end) l).
Definition proxied (l : list effect) : gset Z :=
  list_to_set (omap (fun e => match e with OpenProxy id _ => Some id | _ => None end) l).

Definition plain (e : effect) : bool := match e with OpenConnection _ _ | OpenProxy _ _ => false | _ => true end.

Lemma opened_plain l e : plain e = true -> opened (l ++ [e]) = opened l.
Proof. intros H. unfold opened. rewrite omap_app. destruct e; try done; cbn; by rewrite app_nil_r. Qed.
Lemma proxied_plain l e : plain e = true -> proxied (l ++ [e]) = proxied l.
Proof. intros H. unfold proxied. rewrite omap_app. destruct e; try done; cbn; by rewrite app_nil_r. Qed.
Lemma opened_open l id fd : opened (l ++ [OpenConnection id fd]) = {[id]} ∪ opened l.
Proof. unfold opened. rewrite omap_app, list_to_set_app_L. cbn. set_solver. Qed.
Lemma proxied_open l id fd : proxied (l ++ [OpenConnection id fd]) = proxied l.
Proof. unfold proxied. rewrite omap_app. cbn. by rewrite app_nil_r. Qed.
Lemma proxied_proxy l id a : proxied (l ++ [OpenProxy id a]) = {[id]} ∪ proxied l.
Proof. unfold proxied. rewrite omap_app, list_to_set_app_L. cbn. set_solver. Qed.
Lemma opened_proxy l id a : opened (l ++ [OpenProxy id a]) = opened l.
Proof. unfold opened. rewrite omap_app. cbn. by rewrite app_nil_r. Qed.

Section Actor.
Context {T : Type} `{!update_source T} `{!source_laws T}.
Context (cfg : config) (env : environment).
Implicit Types s : actor T.

#[local] Notation M := (max_connections cfg).

(** The connections and the sockets on their way. *)
Record sockets_ok s (live : gmap Z connection) (plive : gmap Z bool) : Prop := {
  so_connections : held M (connections s) (opened (out s)) live;
  so_pending : held M (pending_sockets s) (proxied (out s)) plive;
  so_room : Z.of_nat (base.size live) + Z.of_nat (base.size plive) + len (ready_sockets s) <= M }.

(** The clock as the flood controls saw it last is at most [last]. *)
Record rest_ok s (last : time) : Prop := {
  ro_active : flood_ok (active_new_connection_flood s) last;
  ro_flood : flood_ok (pending_new_connection_flood s) last;
  ro_last : (last <= clock env (ticks s))%Q;
  ro_source : source_ok (tqueue s);
  ro_max : max_loaded_updates s = 2 * M;
  ro_loaded : Z.of_nat (base.size (queue_updates s)) <= 2 * M;
  ro_unique : 0 < unique_queue_id s;
  ro_count : 50 <= last_pending_update_count s < 2 ^ 33 }.

Definition callback_ok s : Prop := stop_flag s = false -> callback_ s = true.

Definition delivers lost loose s live : Prop :=
  delivery cfg lost loose (update_map s) (queue_updates s) (queues s) live (ready_connections s).

Record wf_at (lost : gmap Z Z) s (live : gmap Z connection) (plive : gmap Z bool) (last : time) : Prop := {
  wf_delivers : delivers lost None s live;
  wf_sockets : sockets_ok s live plive;
  wf_rest : rest_ok s last;
  wf_callback : callback_ok s }.

Definition wf lost s : Prop := exists live plive last, wf_at lost s live plive last.

(** ** Steps that touch nothing of this *)

(** What the invariant reads, but for the flags. *)
Definition key s :=
  (update_map s, queue_updates s, queues s, ready_connections s, connections s, pending_sockets s, opened (out s), proxied (out s),
   ready_sockets s, (active_new_connection_flood s, pending_new_connection_flood s, tqueue s, max_loaded_updates s, unique_queue_id s,
   last_pending_update_count s, ip_address_ s, ssl_ctx s)).

Record quiet s s' : Prop := {
  qt_key : key s' = key s;
  qt_ticks : (ticks s <= ticks s')%nat;
  qt_callback : callback_ok s -> callback_ok s';
  qt_checked : was_checked s = true -> was_checked s' = true;
  qt_stop : stop_flag s = true -> stop_flag s' = true;
  qt_offset : tqueue_offset s' = tqueue_offset s }.

#[export] Instance quiet_preorder : PreOrder quiet.
Proof.
  split; [by intros s; split|]. intros s1 s2 s3 [A1 A2 A3 A4 A5 A6] [B1 B2 B3 B4 B5 B6]. split; [congruence|lia|auto|auto|auto|congruence].
Qed.

Lemma quiet_emit s e : plain e = true -> quiet s (emit s e).
Proof. intros H. split; try done. unfold key. cbn [out emit set_out]. by rewrite opened_plain, proxied_plain. Qed.

Lemma quiet_notify s e : plain e = true -> quiet s (notify s e).
Proof. intros H. unfold notify. destruct (callback_ s); [by apply quiet_emit|done]. Qed.

Lemma quiet_relax s at_ : quiet s (relax_wakeup_at s at_).
Proof. unfold relax_wakeup_at. by case_match; split. Qed.

Lemma quiet_ask s n s' : ask s = (n, s') -> n = ticks s /\ quiet s s'.
Proof. intros [= <- <-]. split; [done|]. split; try done. cbn. lia. Qed.

Lemma quiet_now s now s' : time_now env s = (now, s') -> now = clock env (ticks s) /\ quiet s s' /\ ticks s' = S (ticks s).
Proof. intros [= <- <-]. split; [done|]. split; [|done]. split; try done. cbn. lia. Qed.

Lemma quiet_unix s now t s' : unix_time env s now = (t, s') ->
  t = get_unix_time (unix_time_difference env (ticks s)) now /\ quiet s s' /\ ticks s' = S (ticks s).
Proof. intros [= <- <-]. split; [done|]. split; [|done]. split; try done. cbn. lia. Qed.

Lemma quiet_verified s : quiet s (on_webhook_verified env s).
Proof. by apply quiet_notify. Qed.

Lemma quiet_verify s : quiet s (verify env s).
Proof. unfold verify. destruct (was_checked s); [done|]. transitivity (set_was_checked s true); [by split|apply quiet_verified]. Qed.

Lemma quiet_on_error s e : callback_ok s -> exists s', on_error s e = Some s' /\ quiet s s'.
Proof.
  intros H. unfold on_error. destruct (negb _ && negb _) eqn:E; [|by exists s].
  apply andb_true_iff in E as [_ E%negb_true_iff]. rewrite (H E). eexists. split; [done|].
  transitivity (emit s (WebhookClosed (Some e))); [by apply quiet_emit|]. by split.
Qed.

Lemma quiet_webhook_error s e : quiet s (on_webhook_error env s e).
Proof.
  unfold on_webhook_error. destruct (was_checked s); [|done]. destruct (time_now env _) as [now s1] eqn:E.
  apply quiet_now in E as (_ & E & _). transitivity (notify s (WebhookError (Status 0 e))); [by apply quiet_notify|].
  transitivity s1; [done|]. by split.
Qed.

Lemma quiet_create_error s m e public : callback_ok s ->
  exists s', create_webhook_error env s m e public = Some s' /\ quiet s s'.
Proof.
  intros H. unfold create_webhook_error. set (s1 := on_webhook_error _ _ _). assert (Hq : quiet s s1) by apply quiet_webhook_error.
  destruct (quiet_on_error s1 e) as (s' & E & Hq'); [by apply Hq|]. exists s'. split; [done|]. by etransitivity.
Qed.

Lemma quiet_resolve s : quiet s (resolve_ip_address cfg env s).
Proof.
  unfold resolve_ip_address. destruct (_ || _); [done|]. destruct (time_now env s) as [now s1] eqn:E.
  apply quiet_now in E as (_ & E & _). case_match; [etransitivity; [done|apply quiet_relax]|].
  transitivity s1; [done|]. transitivity (set_is_ip_address_being_resolved s1 true); [by split|by apply quiet_emit].
Qed.

Lemma quiet_ssl s : callback_ok s -> Url.protocol_ (url_ cfg) = Url.Http \/ ssl_ctx s = true ->
  exists ok s', create_ssl_stream cfg env s = Some (ok, s') /\ quiet s s'.
Proof.
  intros Hc Hs. unfold create_ssl_stream. case_bool_decide as Hp; [by exists true, s|]. destruct Hs as [|Hs]; [done|]. rewrite Hs.
  destruct (ask s) as [n s1] eqn:E. apply quiet_ask in E as [_ E]. destruct (ssl_stream env _ _ _) as [?|e].
  - by exists true, s1.
  - destruct (quiet_create_error s1 "Can't create an SSL connection" e true) as (s' & -> & Hq); [by apply E|].
    exists false, s'. split; [done|]. by etransitivity.
Qed.

Lemma quiet_delivers lost loose s s' live : quiet s s' -> delivers lost loose s live -> delivers lost loose s' live.
Proof. intros [K _ _ _ _ _]. unfold key in K. unfold delivers. injection K as -> -> -> -> _. done. Qed.

Lemma quiet_sockets s s' live plive : quiet s s' -> sockets_ok s live plive -> sockets_ok s' live plive.
Proof. intros [K _ _ _ _ _] [H1 H2 H3]. unfold key in K. injection K as _ _ _ _ E1 E2 E3 E4 E5 _. split; congruence. Qed.

(** ** A clock that does not go back *)

Context (Hclock : forall n, (clock env n <= clock env (S n))%Q) (Hcfg : 0 < M <= int32_max).

Lemma clock_le n m : (n <= m)%nat -> (clock env n <= clock env m)%Q.
Proof using Hclock. induction 1 as [|m _ IH]; [lra|]. pose proof (Hclock m). lra. Qed.

Lemma quiet_rest s s' last : quiet s s' -> rest_ok s last -> rest_ok s' last.
Proof using Hclock.
  intros [K Ht _ _ _ _] [H1 H2 H3 H4 H5 H6 H7 H8]. unfold key in K. injection K as _ E1 _ _ _ _ _ _ _ E2 E3 E4 E5 E6 E7 _ _.
  pose proof (clock_le _ _ Ht). split; rewrite ?E1, ?E2, ?E3, ?E4, ?E5, ?E6, ?E7; try done. lra.
Qed.

Lemma quiet_wf lost s s' live plive last : quiet s s' -> wf_at lost s live plive last -> wf_at lost s' live plive last.
Proof using Hclock.
  intros Q [H1 H2 H3 H4]. split; [by eapply quiet_delivers|by eapply quiet_sockets|by eapply quiet_rest|by apply Q].
Qed.

(** ** Connections *)

(** What creating connections leaves alone. *)
Definition key_loaded s :=
  (update_map s, queue_updates s, queues s, tqueue s, max_loaded_updates s, unique_queue_id s, last_pending_update_count s,
   ip_address_ s, ssl_ctx s, tqueue_offset s).

Record moved s s' : Prop := {
  mv_key : key_loaded s' = key_loaded s;
  mv_ticks : (ticks s <= ticks s')%nat;
  mv_callback : callback_ok s -> callback_ok s';
  mv_checked : was_checked s = true -> was_checked s' = true;
  mv_stop : stop_flag s = true -> stop_flag s' = true }.

#[export] Instance moved_preorder : PreOrder moved.
Proof.
  split; [by intros s; split|]. intros s1 s2 s3 [A1 A2 A3 A4 A5] [B1 B2 B3 B4 B5]. split; [congruence|lia|auto|auto|auto].
Qed.

Lemma quiet_moved s s' : quiet s s' -> moved s s'.
Proof. intros [K ? ? ? ? ?]. unfold key in K. injection K as. split; [|done..]. unfold key_loaded. congruence. Qed.

Definition ssl_ready s : Prop := Url.protocol_ (url_ cfg) = Url.Http \/ ssl_ctx s = true.

Lemma moved_ssl s s' : moved s s' -> ssl_ready s -> ssl_ready s'.
Proof. intros [K _ _ _ _] H. unfold key_loaded in K. injection K as. unfold ssl_ready in *. congruence. Qed.

Lemma quiet_same s s' : quiet s s' -> ready_sockets s' = ready_sockets s /\ pending_sockets s' = pending_sockets s
  /\ connections s' = connections s /\ active_new_connection_flood s' = active_new_connection_flood s
  /\ pending_new_connection_flood s' = pending_new_connection_flood s /\ ready_connections s' = ready_connections s
  /\ update_map s' = update_map s /\ queue_updates s' = queue_updates s /\ queues s' = queues s /\ tqueue s' = tqueue s.
Proof. intros [K _ _ _ _ _]. unfold key in K. by injection K as. Qed.

(** The next two lemmas say what [create_connection] does to the invariant. *)
Record created lost s s' (ok : bool) (last : time) : Prop := {
  cr_wf : exists live' plive', wf_at lost s' live' plive' last;
  cr_moved : moved s s';
  cr_sockets : ready_sockets s' = ready_sockets s;
  cr_flood : active_new_connection_flood s' = active_new_connection_flood s
             /\ pending_new_connection_flood s' = pending_new_connection_flood s;
  cr_size : ok = true -> Container.size (connections s') = Container.size (connections s) + 1
             /\ Container.size (pending_sockets s') = Container.size (pending_sockets s) }.

Lemma created_quiet lost s s1 s' ok last : quiet s s1 -> created lost s1 s' ok last -> created lost s s' ok last.
Proof.
  intros Q [H1 H2 H3 H4 H5]. destruct (quiet_same _ _ Q) as (E1 & E2 & E3 & E4 & E5 & _). split; [done|..].
  - transitivity s1; [by apply quiet_moved|done].
  - by rewrite H3.
  - by rewrite <- E4, <- E5.
  - by rewrite <- E2, <- E3.
Qed.

Lemma quiet_created lost s s' live plive last : quiet s s' -> wf_at lost s live plive last -> created lost s s' false last.
Proof using Hclock.
  intros Q W. destruct (quiet_same _ _ Q) as (E1 & E2 & E3 & E4 & E5 & _). split; try done.
  - exists live, plive. by eapply quiet_wf.
  - by apply quiet_moved.
Qed.

Lemma create_fd_ok lost s live plive last fd : wf_at lost s live plive last -> ssl_ready s ->
  Container.size (connections s) < M -> Z.of_nat (base.size live) + Z.of_nat (base.size plive) + len (ready_sockets s) < M ->
  exists ok s', create_connection_fd cfg env s fd = Some (ok, s') /\ created lost s s' ok last.
Proof using Hclock Hcfg.
  intros W Hssl Hsize Hroom. unfold create_connection_fd.
  destruct (quiet_ssl s (wf_callback _ _ _ _ _ W) Hssl) as (ok & s1 & -> & Q). cbn [mbind option_bind].
  destruct ok; cbn [negb]; [|exists false, s1; split; [done|by eapply quiet_created]].
  pose proof (quiet_wf _ _ _ _ _ _ Q W) as [W1 W2 W3 W4]. destruct (quiet_same _ _ Q) as (E1 & E2 & E3 & _).
  rewrite <- E1 in Hroom. rewrite <- E3 in Hsize. destruct W2 as [S1 S2 S3].
  destruct (held_create M _ _ _ no_connection S1 Hsize ltac:(lia)) as (id & c & -> & Hnone & Hid & S1' & Ec). cbn [mbind option_bind].
  destruct (held_modify M _ _ _ id no_connection (fun _ => mk_connection true id 0 (ip_generation s1)) S1') as (c' & -> & S1'' & Ec').
  { by rewrite lookup_insert_eq. }
  cbn [mbind option_bind]. rewrite insert_insert_eq in S1''. set (conn := mk_connection true id 0 (ip_generation s1)) in *.
  set (s2 := set_total_connection_count _ _).
  assert (W' : wf_at lost s2 (<[id := conn]> live) plive last).
  { split.
    - unfold delivers. cbn. by apply add_ready.
    - split; cbn [s2 out connections pending_sockets ready_sockets emit set_total_connection_count set_ready_connections set_connections set_out].
      + by rewrite opened_open.
      + by rewrite proxied_open.
      + rewrite map_size_insert_None by done. lia.
    - by destruct W3; split.
    - done. }
  assert (Q2 : quiet s2 (verify env s2)) by apply quiet_verify.
  exists true, (verify env s2). split; [done|]. apply (created_quiet _ s s1); [done|].
  destruct (quiet_same _ _ Q2) as (F1 & F2 & F3 & F4 & F5 & _). split.
  - exists (<[id := conn]> live), plive. by eapply quiet_wf.
  - transitivity s2; [by split|by apply quiet_moved].
  - by rewrite F1.
  - by rewrite F4, F5.
  - intros _. rewrite F2, F3. cbn. split; [lia|done].
Qed.

Lemma create_ok lost s live plive last : wf_at lost s live plive last -> ssl_ready s -> is_valid (ip_address_ s) = true ->
  Container.size (connections s) < M -> Container.size (pending_sockets s) < M ->
  Z.of_nat (base.size live) + Z.of_nat (base.size plive) + len (ready_sockets s) < M ->
  exists ok s', create_connection cfg env s = Some (ok, s') /\ created lost s s' ok last.
Proof using Hclock Hcfg.
  intros W Hssl Hip Hsize Hpsize Hroom. unfold create_connection. rewrite Hip. cbn [negb]. destruct (ask s) as [n s1] eqn:E.
  apply quiet_ask in E as [_ Q]. pose proof (quiet_wf _ _ _ _ _ _ Q W) as W'. destruct (quiet_same _ _ Q) as (E1 & E2 & E3 & _).
  assert (Hfail : forall m e, exists ok s', (s ← create_webhook_error env s1 m e false; Some (false, s)) = Some (ok, s') /\ created lost s s' ok last).
  { intros m e. destruct (quiet_create_error s1 m e false (wf_callback _ _ _ _ _ W')) as (s' & -> & Q'). exists false, s'.
    split; [done|]. eapply created_quiet; [exact Q|]. by eapply quiet_created. }
  destruct (is_valid (webhook_proxy_ip_address cfg)).
  - destruct (open_socket env n _) as [fd|e]; [|apply Hfail]. pose proof (quiet_verify s1) as Qv. set (s2 := verify env s1) in *.
    pose proof (quiet_wf _ _ _ _ _ _ Qv W') as [D1 [S1 S2 S3] D3 D4]. destruct (quiet_same _ _ Qv) as (F1 & F2 & F3 & F4 & F5 & _).
    destruct (held_create M _ _ _ true S2 ltac:(by rewrite F2, E2) ltac:(lia)) as (id & c & -> & Hnone & Hid & S2' & Ec).
    cbn [mbind option_bind]. eexists false, _. split; [done|]. eapply created_quiet; [exact Q|]. eapply created_quiet; [exact Qv|].
    split; [|by split|done|done|done]. exists live, (<[id := true]> plive). split; [done| |by destruct D3; split|done].
    split; cbn [out connections pending_sockets ready_sockets emit set_pending_sockets set_out].
    + by rewrite opened_proxy.
    + by rewrite proxied_proxy.
    + rewrite map_size_insert_None by done. rewrite F1, E1. lia.
  - destruct (open_socket env n _) as [fd|e]; [|apply Hfail].
    destruct (create_fd_ok lost s1 live plive last fd W') as (ok & s' & -> & C).
    + eapply moved_ssl; [by apply quiet_moved|done].
    + by rewrite E3.
    + by rewrite E1.
    + exists ok, s'. split; [done|]. by eapply created_quiet.
Qed.

(** *** The loops *)

Lemma flood_mono f last last' : flood_ok f last -> (last <= last')%Q -> flood_ok f last'.
Proof.
  intros [H0 H] Hl. split; [lra|]. eapply Forall_impl; [exact H|]. intros b (? & ? & [?|?]); (split; [done|]; split; [done|]); [left; lra|by right].
Qed.

Lemma wf_later lost s live plive last now : wf_at lost s live plive last -> (last <= now)%Q -> (now <= clock env (ticks s))%Q ->
  wf_at lost s live plive now.
Proof. intros [H1 H2 [] H4] Hl Hn. split; [done|done| |done]. split; try done; by eapply flood_mono. Qed.

(** What the loops leave. *)
Record grown lost s s' (now : time) : Prop := {
  gr_wf : exists live plive, wf_at lost s' live plive now;
  gr_moved : moved s s';
  gr_sockets : ready_sockets s' = ready_sockets s }.

Lemma quiet_grown lost s s' live plive now : quiet s s' -> wf_at lost s live plive now -> grown lost s s' now.
Proof using Hclock. intros Q W. split; [exists live, plive; by eapply quiet_wf|by apply quiet_moved|by apply (quiet_same _ _ Q)]. Qed.

Lemma grown_trans lost s1 s2 s3 now : moved s1 s2 -> ready_sockets s2 = ready_sockets s1 -> grown lost s2 s3 now -> grown lost s1 s3 now.
Proof. intros Hm Hs [H1 H2 H3]. split; [done|by transitivity s2|by rewrite H3]. Qed.

Lemma moved_valid s s' : moved s s' -> is_valid (ip_address_ s) = true -> is_valid (ip_address_ s') = true.
Proof. intros [K _ _ _ _] H. unfold key_loaded in K. injection K as. congruence. Qed.

Lemma sizes_le s live plive : sockets_ok s live plive ->
  Z.of_nat (base.size live) <= Container.size (connections s) /\ Z.of_nat (base.size plive) <= Container.size (pending_sockets s).
Proof. intros [H1 H2 _]. split; by eapply held_size. Qed.

Lemma open_ok lost active now need fuel : forall s live plive, wf_at lost s live plive now -> ssl_ready s ->
  is_valid (ip_address_ s) = true -> need <= M ->
  need - Container.size (connections s) - Container.size (pending_sockets s) - len (ready_sockets s) < Z.of_nat fuel -> (0 < fuel)%nat ->
  exists go s', open_connections cfg env fuel active now need s = Some (go, s') /\ grown lost s s' now.
Proof using Hclock Hcfg.
  induction fuel as [|fuel IH]; intros s live plive W Hssl Hip Hneed Hfuel H0; [lia|]. cbn [open_connections].
  destruct (Z.ltb_spec (Container.size (connections s) + Container.size (pending_sockets s) + len (ready_sockets s)) need) as [Hlt|].
  2:{ exists true, s. split; [done|]. by eapply quiet_grown. }
  set (flood := if active then _ else _). destruct (qltb_spec now (Flood.get_wakeup_at flood)) as [Hw|Hw].
  { eexists true, _. split; [done|]. eapply quiet_grown; [apply quiet_relax|done]. }
  destruct (sizes_le _ _ _ (wf_sockets _ _ _ _ _ W)) as [Hs1 Hs2]. pose proof (len_nonneg (ready_sockets s)).
  assert (Hf : flood_ok flood now) by (destruct W as [_ _ [? ? _ _ _ _ _ _] _]; by destruct active).
  destruct (add_event_total flood now now Hf ltac:(lra) ltac:(lra)) as (flood' & -> & Hf'). cbn [mbind option_bind].
  set (s1 := if active then set_active_new_connection_flood s flood' else set_pending_new_connection_flood s flood').
  assert (W1 : wf_at lost s1 live plive now).
  { destruct W as [D1 [? ? ?] [? ? ? ? ? ? ? ?] D4]. subst s1 flood. destruct active; (split; [done|by split|by split|done]). }
  assert (Hm : moved s s1) by (subst s1; destruct active; split; done).
  assert (Hsame : connections s1 = connections s /\ pending_sockets s1 = pending_sockets s /\ ready_sockets s1 = ready_sockets s)
    by (subst s1; by destruct active).
  destruct Hsame as (F1 & F2 & F3).
  destruct (create_ok lost s1 live plive now W1) as (ok & s2 & -> & C).
  - by eapply moved_ssl.
  - by eapply moved_valid.
  - rewrite F1. lia.
  - rewrite F2. lia.
  - rewrite F3. lia.
  - cbn [mbind option_bind]. destruct C as [(live' & plive' & W2) Hm2 Hr2 _ Hsz]. destruct ok; cbn [negb].
    + destruct (Hsz eq_refl) as [Hs3 Hs4]. destruct (IH s2 live' plive' W2) as (go & s' & -> & G).
      * eapply moved_ssl; [|exact Hssl]. by transitivity s1.
      * eapply moved_valid; [|exact Hip]. by transitivity s1.
      * done.
      * rewrite Hr2, Hs3, Hs4, F1, F2, F3. lia.
      * lia.
      * exists go, s'. split; [done|]. eapply grown_trans; [|by rewrite Hr2|done]. by transitivity s1.
    + eexists false, _. split; [done|]. eapply grown_trans; [|by rewrite Hr2|eapply quiet_grown; [apply quiet_relax|done]].
      by transitivity s1.
Qed.

Lemma use_ok lost now need fuel : forall s live plive, wf_at lost s live plive now -> ssl_ready s -> need <= M ->
  (length (ready_sockets s) < fuel)%nat ->
  exists s', use_sockets cfg env fuel now need s = Some s' /\ (exists live plive, wf_at lost s' live plive now) /\ moved s s'.
Proof using Hclock Hcfg.
  induction fuel as [|fuel IH]; intros s live plive W Hssl Hneed Hfuel; [lia|]. cbn [use_sockets].
  destruct (last (ready_sockets s)) as [fd|] eqn:El; [|exists s; split; [done|]; split; [by exists live, plive|done]].
  destruct (Z.ltb_spec (Container.size (connections s) + Container.size (pending_sockets s)) need) as [Hlt|];
    [|exists s; split; [done|]; split; [by exists live, plive|done]].
  destruct (sizes_le _ _ _ (wf_sockets _ _ _ _ _ W)) as [Hs1 Hs2].
  apply last_Some in El as [l El]. set (s1 := set_ready_sockets s _).
  assert (E1 : ready_sockets s1 = l).
  { subst s1. cbn. rewrite El, length_app. cbn. replace (length l + 1 - 1)%nat with (length l) by lia. by rewrite take_app_length. }
  assert (Hlen : len (ready_sockets s1) = len (ready_sockets s) - 1) by (rewrite E1, El, len_app, len_cons, len_nil; lia).
  assert (Hm : moved s s1) by by split.
  pose proof (wf_sockets _ _ _ _ _ W) as [S1 S2 S3].
  assert (W1 : wf_at lost s1 live plive now).
  { destruct W as [D1 _ [? ? ? ? ? ? ? ?] D4]. split; [done|split; [done|done|lia]|by split|done]. }
  destruct (create_fd_ok lost s1 live plive now fd W1) as (ok & s2 & -> & C).
  - by eapply moved_ssl.
  - cbn. lia.
  - lia.
  - cbn [mbind option_bind]. destruct C as [(live' & plive' & W2) Hm2 Hr2 _ Hsz]. destruct ok; cbn [negb].
    + destruct (IH s2 live' plive' W2) as (s' & -> & Hwf & Hm').
      * eapply moved_ssl; [|exact Hssl]. by transitivity s1.
      * done.
      * rewrite Hr2, E1. rewrite El, length_app in Hfuel. cbn in Hfuel. lia.
      * exists s'. split; [done|]. split; [done|]. transitivity s1; [done|]. by transitivity s2.
    + eexists. split; [done|]. split.
      * exists live', plive'. eapply quiet_wf; [apply quiet_relax|done].
      * transitivity s1; [done|]. transitivity s2; [done|]. apply quiet_moved, quiet_relax.
Qed.

Lemma needed_le s now need active : needed_connections cfg s now = (need, active) -> 0 <= need <= M.
Proof using Hcfg.
  unfold needed_connections. intros E. destruct (qltb _ _), (was_checked s); cbn [negb] in E;
    repeat match type of E with context [if ?b then _ else _] => destruct b eqn:? end; injection E as <- <-; lia.
Qed.

(** The state after a handler: the invariant with the clock of the state. *)
Lemma create_new_ok lost s : wf lost s -> exists s', create_new_connections cfg env s = Some s' /\ wf lost s' /\ moved s s'.
Proof using Hclock Hcfg.
  intros (live & plive & last & W). unfold create_new_connections.
  assert (Hend : forall s', quiet s s' -> exists s'', Some s' = Some s'' /\ wf lost s'' /\ moved s s'').
  { intros s' Q. exists s'. split; [done|]. split; [exists live, plive, last; by eapply quiet_wf|by apply quiet_moved]. }
  destruct (is_valid (ip_address_ s)) eqn:Hip; cbn [negb]; [|by apply Hend].
  destruct (negb (bool_decide (Url.protocol_ (url_ cfg) = Url.Http)) && negb (ssl_ctx s)) eqn:Hs; [by apply Hend|].
  assert (Hssl : ssl_ready s).
  { unfold ssl_ready. apply andb_false_iff in Hs as [Hs%negb_false_iff%bool_decide_eq_true|Hs%negb_false_iff]; [by left|by right]. }
  destruct (time_now env s) as [now s1] eqn:En. apply quiet_now in En as (-> & Q & Ht). set (now := clock env (ticks s)) in *.
  assert (W1 : wf_at lost s1 live plive now).
  { eapply (wf_later _ _ _ _ last); [by eapply quiet_wf|apply (ro_last _ _ (wf_rest _ _ _ _ _ W))|]. rewrite Ht. apply Hclock. }
  assert (Hssl1 : ssl_ready s1) by (eapply moved_ssl; [by apply quiet_moved|done]).
  destruct (needed_connections cfg s1 now) as [need active] eqn:Eneed. apply needed_le in Eneed.
  destruct (sizes_le _ _ _ (wf_sockets _ _ _ _ _ W1)) as [Hs1 Hs2]. pose proof (len_nonneg (ready_sockets s1)).
  destruct (open_ok lost active now need (S (Z.to_nat need)) s1 live plive W1 Hssl1) as (go & s2 & -> & [(live2 & plive2 & W2) Hm2 Hr2]);
    [eapply moved_valid; [by apply quiet_moved|done]|lia|lia|lia|]. cbn [mbind option_bind].
  assert (Hm02 : moved s s2) by (transitivity s1; [by apply quiet_moved|done]).
  destruct go; cbn [negb]; [|exists s2; split; [done|]; split; [by exists live2, plive2, now|done]].
  destruct (use_ok lost now need (S (length (ready_sockets s2))) s2 live2 plive2 W2) as (s3 & -> & (live3 & plive3 & W3) & Hm3);
    [by eapply moved_ssl|lia|lia|]. cbn [mbind option_bind]. eexists. split; [done|]. split.
  - exists live3, plive3, now. destruct W3 as [D1 [S1 S2 S3] [? ? ? ? ? ? ? ?] D4]. split; [done| |by split|done].
    split; [done|done|]. cbn [ready_sockets set_ready_sockets]. rewrite len_nil. pose proof (len_nonneg (ready_sockets s3)). lia.
  - transitivity s2; [done|]. transitivity s3; [done|]. by split.
Qed.

(** ** Loading *)

(** An event of the source had expired at a time the actor looked at. *)
Definition expired s s' (e : Queues.event) : Prop :=
  exists n m, (ticks s <= n < ticks s')%nat /\ (ticks s <= m < ticks s')%nat
    /\ Queues.ev_expires_at e < get_unix_time (unix_time_difference env m) (clock env n).

(** Nothing that was loaded is lost, the queues only grow at their ends, and the
    source only loses events of the bot that have expired. *)
Record kept s s' : Prop := {
  kp_ticks : (ticks s <= ticks s')%nat;
  kp_updates id u : update_map s !! id = Some u -> exists u', update_map s' !! id = Some u'
    /\ id_ u' = id_ u /\ json_ u' = json_ u /\ expires_at_ u' = expires_at_ u /\ queue_id_ u' = queue_id_ u;
  kp_events k e : e ∈ source_view (tqueue s) k -> e ∉ source_view (tqueue s') k -> k = tqueue_id cfg /\ expired s s' e;
  kp_order q : content (queue_updates s) q `prefix_of` content (queue_updates s') q }.

#[export] Instance kept_preorder : PreOrder kept.
Proof.
  split.
  - intros s. split; [done|intros id u H; by exists u|done|done].
  - intros s1 s2 s3 [A1 A2 A3 A4] [B1 B2 B3 B4]. split; [lia| | |intros q; by transitivity (content (queue_updates s2) q)].
    + intros id u H. destruct (A2 id u H) as (u2 & H2 & <- & <- & <- & <-). destruct (B2 id u2 H2) as (u3 & Hu3 & Ea & Eb & Ec & Ed).
      exists u3. rewrite Ea, Eb, Ec, Ed. by split.
    + intros k e H1 H3. destruct (decide (e ∈ source_view (tqueue s2) k)) as [H2|H2].
      * destruct (B3 k e H2 H3) as (? & n & m & ? & ? & ?). split; [done|]. exists n, m. split; [lia|]. by split; [lia|].
      * destruct (A3 k e H1 H2) as (? & n & m & ? & ? & ?). split; [done|]. exists n, m. split; [lia|]. by split; [lia|].
Qed.

Lemma kept_same s s' : update_map s' = update_map s -> queue_updates s' = queue_updates s -> tqueue s' = tqueue s ->
  (ticks s <= ticks s')%nat -> kept s s'.
Proof.
  intros E1 E2 E3 Ht. split; [done|..].
  - intros id u H. exists u. by rewrite E1.
  - intros k e H. by rewrite E3.
  - intros q. by rewrite E2.
Qed.

Lemma moved_kept s s' : moved s s' -> kept s s'.
Proof. intros [K Ht _ _ _]. unfold key_loaded in K. injection K as E1 E2 E3 E4 _ _ _ _ _ _. by apply kept_same. Qed.

Lemma quiet_kept s s' : quiet s s' -> kept s s'.
Proof. intros. by apply moved_kept, quiet_moved. Qed.

Definition good_event (now : Z) (u : Queues.event) : Prop :=
  0 < Queues.ev_id u /\ Queues.ev_id u + 1 < Queues.MAX_ID /\ Queues.ev_data u <> [] /\ now <= Queues.ev_expires_at u.

Lemma valid_id id : 0 < id < Queues.MAX_ID -> Queues.is_valid id = true.
Proof.
  intros H. unfold Queues.is_valid, Queues.is_empty, Queues.is_valid_id. rewrite leb_true, ltb_true by lia.
  destruct (Z.eqb_spec id 0); [lia|done].
Qed.

Lemma event_next_ok id : 0 < id -> id + 1 < Queues.MAX_ID -> Queues.next id = Ok (id + 1).
Proof. intros H1 H2. unfold Queues.next, Queues.from_int32, Queues.is_valid_id. by rewrite leb_true, ltb_true by lia. Qed.

Lemma insert_size_le {A} (m : gmap Z A) k (x : A) : (base.size (<[k := x]> m) <= S (base.size m))%nat.
Proof. rewrite map_size_insert. destruct (m !! k); cbn; lia. Qed.

Lemma load_update_ok lost s live plive last now unix u : wf_at lost s live plive last -> good_event unix u ->
  Z.of_nat (base.size (queue_updates s)) < 2 * M ->
  exists s', load_update now unix s u = Some s' /\ wf_at lost s' live plive last /\ kept s s' /\ (ticks s' = ticks s)
    /\ (base.size (queue_updates s') <= S (base.size (queue_updates s)))%nat.
Proof.
  intros W (Hid & Hid2 & Hd & Hx) Hroom. unfold load_update. rewrite valid_id by lia. cbn [negb].
  destruct (update_map s !! Queues.ev_id u) as [v|] eqn:Ev.
  { exists s. split; [done|]. split; [done|]. split; [done|]. split; [done|lia]. }
  rewrite leb_true by done. cbn [negb]. rewrite event_next_ok by done. cbn [Queues.ok_value mbind option_bind].
  set (s1 := set_tqueue_offset s _). destruct W as [D1 D2 [R1 R2 R3 R4 R5 R6 R7 R8] D4].
  assert (exists queue_id s2, (if Queues.ev_extra u =? 0 then (unique_queue_id s1, set_unique_queue_id s1 (unique_queue_id s1 + 1))
    else (Queues.ev_extra u, s1)) = (queue_id, s2) /\ queue_id <> 0
    /\ s2 = set_unique_queue_id s1 (unique_queue_id s2) /\ 0 < unique_queue_id s2) as (queue_id & s2 & -> & Hq0 & Es2 & Hu2).
  { destruct (Z.eqb_spec (Queues.ev_extra u) 0) as [E|E].
    - eexists _, _. split; [done|]. cbn. split; [lia|]. split; [done|lia].
    - eexists _, _. split; [done|]. split; [done|]. by split. }
  rewrite Es2. clear Es2. set (dest := mk_update _ _ _ _ _ _ _ _).
  cbn [queue_updates update_map queues set_unique_queue_id set_tqueue_offset s1 set_update_map set_queues].
  set (vq := default empty_vector_queue (queue_updates s !! queue_id)).
  pose proof (load_event cfg lost _ _ _ live _ dest D1 Ev ltac:(cbn; lia) Hd Hq0) as L. cbn zeta in L. cbn [queue_id_ dest] in L. fold vq in L.
  eexists. split; [done|]. split; [|split; [|split]].
  - split.
    + unfold delivers. destruct (empty vq) eqn:Ee; [|exact L].
      refine (schedule cfg lost _ _ _ live _ queue_id dest L _). unfold front_of.
      rewrite content_insert, decide_True by done. pose proof (content_ok _ _ queue_id (dl_loaded _ _ _ _ _ _ _ _ D1)) as Hok. fold vq in Hok.
      rewrite push_span by done. rewrite (proj1 (empty_span vq Hok) Ee). cbn. by rewrite lookup_insert_eq.
    + destruct D2. destruct (empty vq); by split.
    + destruct (empty vq); (split; try done; cbn [queue_updates set_queue_updates]); pose proof (insert_size_le (queue_updates s) queue_id (push vq (Queues.ev_id u))); cbn; lia.
    + by destruct (empty vq).
  - assert (kept s (set_queue_updates (set_update_map s (<[Queues.ev_id u:=dest]> (update_map s)))
      (<[queue_id:=push vq (Queues.ev_id u)]> (queue_updates s)))) as [? K2 K3 K4].
    { split; [done| |done|].
      - intros id w Hw. exists w. split; [|done]. cbn. rewrite lookup_insert_ne; [done|]. by intros <-; rewrite Ev in Hw.
      - intros q. cbn. rewrite content_insert. pose proof (content_ok _ _ queue_id (dl_loaded _ _ _ _ _ _ _ _ D1)) as Hok. fold vq in Hok.
        destruct (decide (q = queue_id)) as [->|]; [|done]. rewrite push_span by done. unfold vq. rewrite content_span. by apply prefix_app_r. }
    destruct (empty vq); by split.
  - by destruct (empty vq).
  - pose proof (insert_size_le (queue_updates s) queue_id (push vq (Queues.ev_id u))). by destruct (empty vq).
Qed.

Lemma load_all_ok lost now unix l : forall s live plive last, wf_at lost s live plive last -> Forall (good_event unix) l ->
  Z.of_nat (base.size (queue_updates s)) + len l <= 2 * M ->
  exists s', load_all now unix s l = Some s' /\ wf_at lost s' live plive last /\ kept s s' /\ ticks s' = ticks s.
Proof.
  induction l as [|u l IH]; intros s live plive last W Hf Hroom; [by exists s|]. apply Forall_cons in Hf as [Hu Hf].
  rewrite len_cons in Hroom. pose proof (len_nonneg l). cbn [load_all].
  destruct (load_update_ok lost s live plive last now unix u W Hu ltac:(lia)) as (s1 & -> & W1 & K1 & T1 & Hs). cbn [mbind option_bind].
  destruct (IH s1 live plive last W1 Hf ltac:(lia)) as (s2 & -> & W2 & K2 & T2). exists s2. split; [done|]. split; [done|].
  split; [by transitivity s1|congruence].
Qed.

Lemma raise_warning_ok total count fuel : 0 < count -> count < 2 ^ 33 -> 0 <= total < 2 ^ 32 -> total < count * 2 ^ Z.of_nat fuel ->
  exists c, raise_warning (S fuel) total count = Some c /\ count <= c < 2 ^ 33.
Proof.
  revert count. induction fuel as [|fuel IH]; intros count H0 Hc Ht Hf.
  - exists count. cbn [raise_warning]. rewrite leb_false by (change (2 ^ Z.of_nat 0) with 1 in Hf; lia). by split.
  - cbn [raise_warning]. destruct (Z.leb_spec count total); [|by exists count]. rewrite wrap_small.
    + change (2 ^ 33) with 8589934592 in *. change (2 ^ 32) with 4294967296 in *.
      destruct (IH (count * 2)) as (c & E & ?); [lia|lia|lia| |exists c; split; [exact E|lia]].
      rewrite Nat2Z.inj_succ, Z.pow_succ_r in Hf by lia. lia.
    + change (2 ^ 32) with 4294967296 in *. change (2 ^ 64) with 18446744073709551616. lia.
Qed.

Lemma pending_count_ok total count : 50 <= count < 2 ^ 33 -> 0 <= total <= Queues.MAX_QUEUE_EVENTS ->
  exists c, pending_update_count total count = Some c /\ 50 <= c < 2 ^ 33.
Proof.
  intros Hc Ht. unfold pending_update_count, MIN_PENDING_UPDATES_WARNING. unfold Queues.MAX_QUEUE_EVENTS in Ht.
  assert (Ht' : 0 <= total < 2 ^ 32) by (change (2 ^ 32) with 4294967296; lia).
  destruct (_ <=? 50 / 2); [eexists; split; [done|]; case_match; lia|]. case_match; [|by exists count].
  destruct (raise_warning_ok total count 64 ltac:(lia) ltac:(lia) Ht') as (c & E & ?); [|exists c; split; [exact E|lia]].
  change (Z.of_nat 64) with 64. change (2 ^ 64) with 18446744073709551616. lia.
Qed.

Lemma fetch_ok lost s live plive last unix limit : wf_at lost s live plive last -> 0 <= limit ->
  exists total l s', fetch cfg s unix limit = Some (total, l, s') /\ wf_at lost s' live plive last
    /\ queue_updates s' = queue_updates s /\ update_map s' = update_map s /\ ticks s' = ticks s
    /\ last_pending_update_count s' = last_pending_update_count s
    /\ Forall (good_event unix) l /\ len l <= limit /\ 0 <= total <= Queues.MAX_QUEUE_EVENTS
    /\ (forall k e, e ∈ source_view (tqueue s) k -> e ∉ source_view (tqueue s') k -> k = tqueue_id cfg /\ Queues.ev_expires_at e < unix).
Proof.
  intros W Hlim. unfold fetch. destruct (Queues.is_empty (tqueue_offset s)).
  { exists 0, [], s. split_and!; try done. }
  set (id := tqueue_id cfg). pose proof (ro_source _ _ (wf_rest _ _ _ _ _ W)) as Hok.
  assert (Hset : forall t off, source_ok t -> wf_at lost (set_tqueue (set_tqueue_offset s off) t) live plive last).
  { intros t off Ht. destruct W as [D1 [? ? ?] [? ? ? ? ? ? ? ?] D4]. split; [done|by split|by split|done]. }
  assert (Hgood : forall t from l t', source_ok t -> source_ok t' ->
    l = take (Z.to_nat limit) (filter (fun e => from <= Queues.ev_id e /\ unix <= Queues.ev_expires_at e) (source_view t id)) ->
    Forall (good_event unix) l /\ len l <= limit /\ 0 <= len (source_view t' id) <= Queues.MAX_QUEUE_EVENTS).
  { intros t from l t' Ht Ht' ->. split; [|split; [unfold len; rewrite length_take; lia|split; [apply len_nonneg|by apply source_size]]].
    apply Forall_forall. intros e He. eapply elem_of_sublist in He; [|apply sublist_take]. apply list_elem_of_filter in He as [[_ ?] He].
    destruct (source_events t id e Ht He) as (? & ? & ?). by split_and!. }
  assert (Hdrop : forall t from t', (forall k', k' <> id -> source_view t' k' = source_view t k') ->
    pruned (fun e => from <= Queues.ev_id e /\ Queues.ev_expires_at e < unix) (source_view t id) (source_view t' id) ->
    forall k e, e ∈ source_view t k -> e ∉ source_view t' k -> k = id /\ Queues.ev_expires_at e < unix).
  { intros t from t' Ho Hp k e He Hne. destruct (decide (k = id)) as [->|Hk]; [|by rewrite Ho in Hne]. split; [done|].
    clear Ho. induction Hp as [|x l l' _ IH|x l l' [_ Hx] _ IH]; [done|..].
    - apply not_elem_of_cons in Hne as [? Hne]. apply elem_of_cons in He as [->|He]; [done|by apply IH].
    - apply elem_of_cons in He as [->|He]; [done|by apply IH]. }
  destruct (source_get_ok (tqueue s) id (tqueue_offset s) unix (Z.to_nat limit) Hok) as (r & l & t & -> & Ht & Ho & Hr).
  cbn [mbind option_bind]. destruct r as [total|e].
  - destruct Hr as (Hl & -> & Hp). destruct (Hgood _ _ _ t Hok Ht Hl) as (? & ? & ?).
    eexists _, l, (set_tqueue s t). split; [done|]. split; [exact (Hset t (tqueue_offset s) Ht)|].
    do 7 (split; [done|]). by eapply Hdrop.
  - destruct Hr as [-> Hv]. cbn [tqueue set_tqueue set_tqueue_offset].
    destruct (source_head_ok t id unix (Z.to_nat limit) Ht) as (total & l & t2 & E).
    destruct (source_get_ok t id (source_head t id) unix (Z.to_nat limit) Ht) as (r2 & l2 & t3 & E2 & Ht2 & Ho2 & Hr2).
    rewrite E in E2. injection E2 as <- <- <-. rewrite E. cbn [mbind option_bind Queues.ok_value].
    destruct Hr2 as (Hl & -> & Hp). destruct (Hgood _ _ _ t2 Ht Ht2 Hl) as (? & ? & ?).
    eexists _, l, _. split; [done|]. split; [exact (Hset t2 (source_head t id) Ht2)|].
    do 7 (split; [done|]).
    intros k e' He Hne. eapply (Hdrop t); [done..| |done]. destruct (decide (k = id)) as [->|]; [by rewrite Hv|by rewrite Ho].
Qed.

Lemma load_updates_ok lost s : wf lost s -> exists s', load_updates cfg env s = Some s' /\ wf lost s' /\ kept s s'.
Proof using Hclock Hcfg.
  intros (live & plive & last & W). unfold load_updates. destruct (wf_rest _ _ _ _ _ W) as [R1 R2 R3 R4 R5 R6 R7 R8].
  destruct (tqueue_empty s); [exists s; split; [done|]; split; [by exists live, plive, last|done]|].
  rewrite R5. destruct (Z.leb_spec (2 * M) (Z.of_nat (base.size (queue_updates s)))) as [Hle|Hlt].
  { rewrite (proj2 (Z.eqb_eq _ _)) by lia. exists s. split; [done|]. split; [by exists live, plive, last|done]. }
  set (s1 := if Queues.is_empty (tqueue_offset s) then _ else s).
  assert (W1 : wf_at lost s1 live plive last /\ kept s s1 /\ queue_updates s1 = queue_updates s /\ max_loaded_updates s1 = 2 * M).
  { subst s1. destruct (Queues.is_empty _); [|done]. destruct W as [D1 [? ? ?] _ D4]. split; [split; [done|by split|by split|done]|].
    split; [by apply kept_same|done]. }
  destruct W1 as (W1 & K1 & E1 & Em). rewrite Em. set (limit := Z.min TQUEUE_EVENT_BUFFER_SIZE _).
  assert (Hlim : 0 <= limit) by (subst limit; unfold TQUEUE_EVENT_BUFFER_SIZE; lia).
  destruct (time_now env s1) as [now s2] eqn:En. apply quiet_now in En as (En & Q2 & T2).
  destruct (unix_time env s2 now) as [unix s3] eqn:Eu. apply quiet_unix in Eu as (Eu & Q3 & T3).
  assert (W3 : wf_at lost s3 live plive last) by (eapply quiet_wf; [exact Q3|]; by eapply quiet_wf).
  destruct (fetch_ok lost s3 live plive last unix limit W3 Hlim) as (total & l & s4 & -> & W4 & F1 & F2 & F3 & F4 & F5 & F6 & F7 & F8).
  cbn [mbind option_bind]. set (s5 := if bool_decide (l = []) then _ else s4).
  assert (W5 : wf_at lost s5 live plive last /\ kept s4 s5 /\ queue_updates s5 = queue_updates s4).
  { subst s5. case_bool_decide; [|done]. destruct W4 as [D1 [? ? ?] [? ? ? ? ? ? ? ?] D4]. split; [split; [done|by split|by split|done]|].
    split; [by apply kept_same|done]. }
  destruct W5 as (W5 & K5 & E5). assert (Eq3 : queue_updates s3 = queue_updates s1).
  { transitivity (queue_updates s2); [by apply (quiet_same _ _ Q3)|by apply (quiet_same _ _ Q2)]. }
  destruct (load_all_ok lost now unix l s5 live plive last W5 F5) as (s6 & -> & W6 & K6 & T6).
  { rewrite E5, F1, Eq3, E1. subst limit. lia. }
  cbn [mbind option_bind]. destruct (pending_count_ok total (last_pending_update_count s6)) as (c & -> & Hc); [apply W6|done|].
  cbn [mbind option_bind]. set (s7 := set_last_pending_update_count s6 c).
  assert (W7 : wf_at lost s7 live plive last).
  { destruct W6 as [D1 [? ? ?] [? ? ? ? ? ? ? ?] D4]. split; [done|by split|by split|done]. }
  assert (Q8 : quiet s7 (if (len l =? total) && last_update_was_successful s7 then notify s7 WebhookSuccess else s7)).
  { destruct (_ && _); [by apply quiet_notify|done]. }
  eexists. split; [done|]. split; [exists live, plive, last; by eapply quiet_wf|].
  transitivity s1; [done|]. transitivity s4.
  - assert (tqueue s3 = tqueue s1 /\ update_map s3 = update_map s1) as [Et Eum].
    { destruct (quiet_same _ _ Q2) as (_ & _ & _ & _ & _ & _ & ? & _ & _ & ?), (quiet_same _ _ Q3) as (_ & _ & _ & _ & _ & _ & ? & _ & _ & ?).
      split; congruence. }
    split; [lia|intros id u Hu; exists u; by rewrite F2, Eum| |intros q; by rewrite F1, Eq3].
    intros k e He Hne. rewrite <- Et in He. destruct (F8 k e He Hne) as [-> Hx]. split; [done|]. exists (ticks s1), (ticks s2).
    split; [lia|]. split; [lia|]. by rewrite <- En, <- Eu.
  - transitivity s5; [done|]. transitivity s6; [done|]. transitivity s7; [by apply kept_same|by apply quiet_kept].
Qed.

(** ** Answers *)

(** As [kept], but the update [o] may be gone, with its event. *)
Record kept_but (o : option Z) s s' : Prop := {
  kb_ticks : (ticks s <= ticks s')%nat;
  kb_updates id u : update_map s !! id = Some u -> o = Some id \/ exists u', update_map s' !! id = Some u'
    /\ id_ u' = id_ u /\ json_ u' = json_ u /\ expires_at_ u' = expires_at_ u /\ queue_id_ u' = queue_id_ u;
  kb_events k e : e ∈ source_view (tqueue s) k -> e ∉ source_view (tqueue s') k ->
    k = tqueue_id cfg /\ (o = Some (Queues.ev_id e) \/ expired s s' e);
  kb_order q : content (queue_updates s) q `prefix_of` content (queue_updates s') q
    \/ exists id rest, o = Some id /\ content (queue_updates s) q = id :: rest /\ rest `prefix_of` content (queue_updates s') q }.

Lemma kept_kept_but o s s' : kept s s' -> kept_but o s s'.
Proof.
  intros [K1 K2 K3 K4]. split; [done|intros id u Hu; right; by apply K2| |intros q; by left].
  intros k e He Hne. destruct (K3 k e He Hne). split; [done|by right].
Qed.

Lemma expired_weaken s s' t t' e : (ticks t <= ticks s)%nat -> (ticks s' <= ticks t')%nat -> expired s s' e -> expired t t' e.
Proof. intros H1 H2 (n & m & ? & ? & ?). exists n, m. split; [lia|]. by split; [lia|]. Qed.

Lemma kept_but_compose o s1 s2 s3 s4 : kept s1 s2 -> kept_but o s2 s3 -> kept s3 s4 -> kept_but o s1 s4.
Proof.
  intros [A1 A2 A3 A4] [B1 B2 B3 B4] [C1 C2 C3 C4]. split; [lia|..].
  - intros id u Hu. destruct (A2 id u Hu) as (u2 & Hu2 & <- & <- & <- & <-). destruct (B2 id u2 Hu2) as [?|(u3 & Hu3 & <- & <- & <- & <-)]; [by left|].
    right. by apply C2.
  - intros k e He Hne. destruct (decide (e ∈ source_view (tqueue s2) k)) as [H2|H2].
    + destruct (decide (e ∈ source_view (tqueue s3) k)) as [H3|H3].
      * destruct (C3 k e H3 Hne). split; [done|]. right. eapply expired_weaken; [| |done]; lia.
      * destruct (B3 k e H2 H3) as [? [?|?]]; split; try done; [by left|]. right. eapply expired_weaken; [| |done]; lia.
    + destruct (A3 k e He H2). split; [done|]. right. eapply expired_weaken; [| |done]; lia.
  - intros q. specialize (A4 q). specialize (C4 q). destruct (B4 q) as [HB|(id & rest & -> & E & HB)].
    + left. transitivity (content (queue_updates s2) q); [done|]. by transitivity (content (queue_updates s3) q).
    + rewrite E in A4. destruct (content (queue_updates s1) q) as [|x r]; [left; apply prefix_nil|].
      right. exists x, r. pose proof (prefix_cons_inv_1 _ _ _ _ A4) as ->. apply prefix_cons_inv_2 in A4. split; [done|]. split; [done|].
      transitivity rest; [done|]. by transitivity (content (queue_updates s3) q).
Qed.

(** What the answer to an update leaves alone. *)
Definition key_answer s :=
  (ready_connections s, connections s, pending_sockets s, out s, ready_sockets s, active_new_connection_flood s,
   pending_new_connection_flood s, max_loaded_updates s, unique_queue_id s,
   (last_pending_update_count s, ip_address_ s, ssl_ctx s, callback_ s, stop_flag s, was_checked s)).

Record settled (o : option Z) lost s s' live last : Prop := {
  se_delivers : delivers lost None s' live;
  se_rest : rest_ok s' last;
  se_key : key_answer s' = key_answer s;
  se_kept : kept_but o s s' }.

Lemma delete_size_le {A} (m : gmap Z A) k : (base.size (delete k m) <= base.size m)%nat.
Proof. rewrite map_size_delete. destruct (m !! k); cbn; lia. Qed.

Lemma drop_event_ok lost s live last u : delivers lost (Some (queue_id_ u)) s live -> rest_ok s last ->
  front_of (update_map s) (queue_updates s) (queue_id_ u) = Some u ->
  exists s', drop_event cfg s (id_ u) = Some s' /\ settled (Some (id_ u)) lost s s' live last /\ ticks s' = ticks s.
Proof.
  intros D [R1 R2 R3 R4 R5 R6 R7 R8] Hf. pose proof (dl_loaded _ _ _ _ _ _ _ _ D) as L. destruct (front_loaded _ _ _ _ L Hf) as (Hu & _ & Hh & Hq0).
  set (q := queue_id_ u) in *. set (id := id_ u) in *. unfold drop_event. rewrite Hu. cbn [mbind option_bind].
  cbn [queue_updates set_update_map]. fold q.
  destruct (content (queue_updates s) q) as [|id' rest] eqn:Ec; [done|]. injection Hh as ->.
  destruct (queue_updates s !! q) as [vq|] eqn:Ev; [|unfold content in Ec; by rewrite Ev in Ec]. cbn [mbind option_bind].
  assert (Esp : as_span vq = id :: rest) by (unfold content in Ec; by rewrite Ev in Ec).
  destruct (ld_queue _ _ L q vq Ev) as (Hok & _ & Hnd). rewrite Esp in Hnd. apply NoDup_cons in Hnd as [Hnin _].
  assert (He : empty vq = false) by (destruct (empty vq) eqn:E; [apply (empty_span vq Hok) in E; congruence|done]).
  rewrite He, bool_decide_eq_true_2 by (by rewrite front_span, Esp). cbn [negb].
  destruct (vector_pop_ok vq id rest Hok Esp) as (vq' & -> & Hok' & Esp'). cbn [mbind option_bind].
  pose proof (insert_size_le (queue_updates s) q vq') as Hsi. rewrite map_size_insert_Some in Hsi by (by eexists).
  pose proof (delete_size_le (queue_updates s) q) as Hsd.
  assert (Hci : forall q', content (<[q := vq']> (queue_updates s)) q' = if decide (q' = q) then rest else content (queue_updates s) q').
  { intros q'. by rewrite content_insert, Esp'. }
  assert (Hkept : forall s', ticks s' = ticks s -> update_map s' = delete id (update_map s) ->
    (forall q', content (queue_updates s') q' = if decide (q' = q) then rest else content (queue_updates s) q') ->
    (forall k', source_view (tqueue s') k' = if k' =? tqueue_id cfg then filter (fun e => Queues.ev_id e <> id) (source_view (tqueue s) (tqueue_id cfg))
       else source_view (tqueue s) k') -> kept_but (Some id) s s').
  { intros s' Et Eu Eq Es. split; [lia|..].
    - intros x v Hv. destruct (decide (x = id)) as [->|]; [by left|right]. exists v. by rewrite Eu, lookup_delete_ne.
    - intros k e Hin Hne. rewrite Es in Hne. destruct (Z.eqb_spec k (tqueue_id cfg)) as [->|]; [|done]. split; [done|]. left.
      rewrite list_elem_of_filter in Hne. destruct (decide (Queues.ev_id e = id)) as [->|]; [done|]. by destruct Hne.
    - intros q'. rewrite Eq. destruct (decide (q' = q)) as [->|]; [right; by exists id, rest|by left]. }
  destruct (source_forget_ok (tqueue s) (tqueue_id cfg) id R4) as (t & Et & Hst & Hview).
  destruct rest as [|id2 rest].
  - rewrite (proj2 (empty_span vq' Hok') Esp'). cbn [mbind option_bind tqueue set_queue_updates set_update_map]. rewrite Et.
    cbn [mbind option_bind]. eexists. split; [done|]. split; [|done].
    assert (Hcd : forall q', content (delete q (queue_updates s)) q' = if decide (q' = q) then [] else content (queue_updates s) q').
    { intros q'. by rewrite content_delete. }
    split; [| |done|by apply Hkept].
    + refine (drop_front cfg lost _ _ _ _ _ q id [] (delete q (queue_updates s)) D Ec Hcd _).
      intros q' v [_ Hv]%lookup_delete_Some. by destruct (ld_queue _ _ L q' v Hv) as (? & ? & _).
    + split; try done. cbn. lia.
  - assert (He' : empty vq' = false) by (destruct (empty vq') eqn:E; [apply (empty_span vq' Hok') in E; congruence|done]).
    rewrite He'. rewrite front_span, Esp'. cbn [head mbind option_bind].
    destruct (ld_event _ _ L q id2) as (v & Hv & Hvq); [rewrite Ec; by right; left|].
    destruct (ld_update _ _ L _ _ Hv) as (Ei & Hid2 & _). rewrite valid_id by done. cbn [negb update_map set_queue_updates set_update_map].
    assert (id <> id2) by (intros ->; apply Hnin; by left). rewrite lookup_delete_ne, Hv by done. cbn [mbind option_bind].
    cbn [tqueue set_queues set_queue_updates set_update_map]. rewrite Et. cbn [mbind option_bind].
    eexists. split; [done|]. split; [|done].
    pose proof (drop_front cfg lost _ _ _ _ _ q id (id2 :: rest) _ D Ec Hci) as Dn. cbn beta iota in Dn.
    split; [| |done|by apply Hkept].
    + rewrite Hvq. refine (schedule cfg lost _ _ _ live _ q v (Dn _) _).
      * intros q' w [[<- <-]|[_ Hw]]%lookup_insert_Some; [by rewrite Esp'|]. by destruct (ld_queue _ _ L q' w Hw) as (? & ? & _).
      * apply (front_intro _ _ _ id2); [by rewrite Hci, decide_True|by rewrite lookup_delete_ne].
    + split; try done. cbn. rewrite map_size_insert_Some by (by eexists). done.
Qed.

Lemma quiet_key_answer s s' : quiet s s' -> out s' = out s -> callback_ s' = callback_ s -> stop_flag s' = stop_flag s ->
  was_checked s' = was_checked s -> key_answer s' = key_answer s.
Proof. intros [K _ _ _ _ _] E1 E2 E3 E4. unfold key in K. injection K as. unfold key_answer. congruence. Qed.

Lemma settled_quiet o lost s s1 s' live last : quiet s s1 -> key_answer s1 = key_answer s -> settled o lost s1 s' live last ->
  settled o lost s s' live last.
Proof.
  intros Q E [H1 H2 H3 H4]. split; [done|done|congruence|]. apply (kept_but_compose o s s1 s' s'); [by apply quiet_kept|done|done].
Qed.

Lemma on_ok_ok lost s live last u : delivers lost (Some (queue_id_ u)) s live -> rest_ok s last ->
  front_of (update_map s) (queue_updates s) (queue_id_ u) = Some u ->
  exists s', on_update_ok cfg env s (id_ u) = Some s' /\ settled (Some (id_ u)) lost s s' live last.
Proof using Hclock.
  intros D R Hf. destruct (front_loaded _ _ _ _ (dl_loaded _ _ _ _ _ _ _ _ D) Hf) as (Hu & _).
  unfold on_update_ok. cbn [ask time_now ticks set_last_update_was_successful].
  set (s1 := set_last_success_time _ _).
  assert (Q : quiet s s1) by (split; try done; cbn; lia).
  assert (Hu1 : update_map s1 !! id_ u = Some u) by done. rewrite Hu1. cbn [mbind option_bind].
  destruct (drop_event_ok lost s1 live last u) as (s' & -> & S & _); [done|by eapply quiet_rest|done|].
  exists s'. split; [done|]. by eapply settled_quiet.
Qed.

(** Whether a failed update would expire before it is sent again. *)
Definition too_late (n : nat) (u : update) (retry_after : Z) : bool :=
  let random := random_fast env (S n) WEBHOOK_MAX_RESEND_TIMEOUT (WEBHOOK_MAX_RESEND_TIMEOUT * 2) in
  expires_at_ u <? get_unix_time (unix_time_difference env (S (S n))) (clock env n) + (next_delays random u retry_after).2.

Lemma on_error_ok lost s live last u retry_after : delivers lost (Some (queue_id_ u)) s live -> rest_ok s last ->
  front_of (update_map s) (queue_updates s) (queue_id_ u) = Some u ->
  exists s', on_update_error cfg env s (id_ u) retry_after = Some s'
    /\ settled (if too_late (ticks s) u retry_after then Some (id_ u) else None) lost s s' live last.
Proof using Hclock.
  intros D R Hf. pose proof (dl_loaded _ _ _ _ _ _ _ _ D) as L. destruct (front_loaded _ _ _ _ L Hf) as (Hu & _ & Hh & _).
  unfold on_update_error. cbn [ask time_now unix_time ticks set_last_update_was_successful set_ticks update_map].
  rewrite Hu. cbn [mbind option_bind ask ticks set_ticks unix_time]. set (s1 := set_ticks _ (S (S (S (ticks s))))).
  assert (Q : quiet s s1) by (split; try done; cbn; lia).
  unfold too_late. destruct (next_delays _ u retry_after) as [delay effective] eqn:Ed. cbn [snd].
  destruct (expires_at_ u <? _ + effective) eqn:El.
  - destruct (drop_event_ok lost s1 live last u) as (s' & -> & S & _); [done|by eapply quiet_rest|done|].
    exists s'. split; [done|]. by eapply settled_quiet.
  - eexists. split; [done|]. set (u' := mk_update _ _ _ _ _ _ _ _).
    destruct (dl_loose _ _ _ _ _ _ _ _ D _ eq_refl) as (w & Hw & Hun). rewrite Hf in Hw. injection Hw as <-.
    pose proof (touch_update cfg lost _ _ _ _ _ _ u u' D Hu ltac:(done) ltac:(done) ltac:(done) ltac:(right; apply Hun)) as D'.
    apply (settled_quiet _ _ s s1); [done|done|]. split.
    + refine (schedule cfg lost _ _ _ live _ (queue_id_ u) u' D' _). apply (front_intro _ _ _ (id_ u)); [done|by rewrite lookup_insert_eq].
    + pose proof (quiet_rest _ _ _ Q R) as [R1 R2 R3 R4 R5 R6 R7 R8]. by split.
    + done.
    + apply kept_kept_but. split; [done| |done|done]. intros id v Hv. cbn [update_map set_queues set_update_map].
      destruct (decide (id = id_ u)) as [->|Hne]; [rewrite lookup_insert_eq; exists u'|rewrite lookup_insert_ne by done; by exists v].
      change (update_map s !! id_ u = Some v) in Hv. rewrite Hu in Hv. by injection Hv as <-.
Qed.

(** ** Sending *)

Lemma last_snoc_inv {A} (l : list A) x : last l = Some x -> l = take (length l - 1) l ++ [x].
Proof.
  intros (k & ->)%last_Some. rewrite length_app. cbn [length]. replace (length k + 1 - 1)%nat with (length k) by lia. by rewrite take_app_length.
Qed.

Lemma rest_frame s s' last : rest_ok s last -> source_ok (tqueue s') -> (ticks s <= ticks s')%nat ->
  active_new_connection_flood s' = active_new_connection_flood s -> pending_new_connection_flood s' = pending_new_connection_flood s ->
  max_loaded_updates s' = max_loaded_updates s -> queue_updates s' = queue_updates s -> unique_queue_id s' = unique_queue_id s ->
  last_pending_update_count s' = last_pending_update_count s -> rest_ok s' last.
Proof using Hclock.
  intros [R1 R2 R3 R4 R5 R6 R7 R8] Hs Ht F1 F2 E1 E2 E3 E4. pose proof (clock_le _ _ Ht). split; rewrite ?F1, ?F2, ?E1, ?E2, ?E3, ?E4; try done. lra.
Qed.

(** The first queue, its first update and the text that is sent. *)
Lemma first_queue lost s live last k l : delivers lost None s live -> rest_ok s last -> queues s = k :: l ->
  exists vq u body, queue_updates s !! q_id k = Some vq /\ front vq = Some (id_ u) /\ Queues.is_valid (id_ u) = true
    /\ update_map s !! id_ u = Some u /\ queue_id_ u = q_id k /\ q_id k <> 0 /\ json_update (id_ u) (json_ u) = Some body
    /\ front_of (update_map s) (queue_updates s) (q_id k) = Some u /\ wakeup_at_ u = q_wakeup_at k.
Proof.
  intros D R E. pose proof (dl_loaded _ _ _ _ _ _ _ _ D) as L. destruct (dl_scheduled _ _ _ _ _ _ _ _ D k) as (u & Hf & Ek); [rewrite E; by left|].
  destruct (front_loaded _ _ _ _ L Hf) as (Hu & Hq & Hh & Hq0). destruct (ld_update _ _ L _ _ Hu) as (_ & Hid & Hj & _).
  unfold content in Hh. destruct (queue_updates s !! q_id k) as [vq|] eqn:Ev; [|done]. cbn in Hh.
  exists vq, u. eexists. split; [done|]. split; [by rewrite front_span|]. split; [by apply valid_id|]. do 3 (split; [done|]).
  split; [by unfold json_update; rewrite bool_decide_eq_false_2|]. split; [done|]. by rewrite Ek.
Qed.

Definition wf_more lost s : Prop := exists lost', lost ⊆ lost' /\ wf lost' s.

Lemma sockets_frame s s' live plive : sockets_ok s live plive -> connections s' = connections s -> pending_sockets s' = pending_sockets s ->
  ready_sockets s' = ready_sockets s -> opened (out s') = opened (out s) -> proxied (out s') = proxied (out s) -> sockets_ok s' live plive.
Proof. intros [S1 S2 S3] E1 E2 E3 E4 E5. split; congruence. Qed.

Lemma send_update_ok lost s : wf lost s -> exists r s', send_update cfg env s = (Some r, s') /\ wf_more lost s' /\ kept s s'
  /\ match r with
     | inl UrlTooLong => exists lost' q id, lost' !! q = Some id /\ wf lost' s'
     | inl _ => True
     | inr _ => (length (ready_connections s') < length (ready_connections s))%nat
     end.
Proof using Hclock Hcfg.
  intros (live & plive & last' & W). unfold send_update.
  assert (Hend : forall (r : unsent + unit) s', quiet s s' -> (r = inl NoConnection \/ r = inl NoPendingUpdates \/ r = inl NoReadyUpdates) ->
    exists r' s'', (Some r, s') = (Some r', s'') /\ wf_more lost s'' /\ kept s s''
      /\ match r' with
         | inl UrlTooLong => exists lost' q id, lost' !! q = Some id /\ wf lost' s''
         | inl _ => True
         | inr _ => (length (ready_connections s'') < length (ready_connections s))%nat
         end).
  { intros r s' Q Hr. exists r, s'. split; [done|]. split; [exists lost; split; [done|]; exists live, plive, last'; by eapply quiet_wf|].
    split; [by apply quiet_kept|]. by destruct Hr as [-> | [-> | -> ]]. }
  destruct (last (ready_connections s)) as [cid|] eqn:El; [|apply Hend; [done|auto]]. apply last_snoc_inv in El.
  destruct (queues s) as [|k l] eqn:Eq; [apply Hend; [done|auto]|].
  destruct (time_now env s) as [now s1] eqn:En. apply quiet_now in En as (-> & Q1 & T1).
  destruct (qltb _ _); [apply Hend; [etransitivity; [exact Q1|apply quiet_relax]|auto]|].
  pose proof (quiet_wf _ _ _ _ _ _ Q1 W) as [D1 S1 R1 C1]. destruct (quiet_same _ _ Q1) as (E1 & E2 & E3 & E4 & E5 & E6 & E7 & E8 & E9 & E10).
  assert (Eq1 : queues s1 = k :: l) by congruence.
  destruct (first_queue lost s1 live last' k l D1 R1 Eq1) as (vq & u & body & Hvq & Hfr & Hval & Hu & Hqu & Hq0 & Hbody & Hf & Hw).
  cbn [queue_updates set_queues]. rewrite (proj2 (Z.eqb_neq _ _)) by done. rewrite Hvq. cbn [mbind option_bind]. rewrite Hfr.
  cbn [mbind option_bind]. rewrite Hval. cbn [negb update_map set_queues]. rewrite Hu. cbn [mbind option_bind]. rewrite Hbody. cbn [mbind option_bind].
  set (u' := mk_update (id_ u) _ _ _ _ _ _ _). set (s2 := set_update_map (set_queues s1 l) (<[id_ u := u']> (update_map s1))).
  assert (D2 : delivers lost (Some (q_id k)) s2 live).
  { unfold delivers in D1. rewrite Eq1 in D1. apply take_first in D1.
    exact (touch_update cfg lost _ _ _ _ _ _ u u' D1 Hu eq_refl eq_refl eq_refl (or_introl eq_refl)). }
  assert (Hf2 : front_of (update_map s2) (queue_updates s2) (q_id k) = Some u').
  { unfold front_of in Hf. destruct (front_loaded _ _ _ _ (dl_loaded _ _ _ _ _ _ _ _ D1) Hf) as (_ & _ & Hh & _).
    apply (front_intro _ _ _ (id_ u)); [done|]. cbn. by rewrite lookup_insert_eq. }
  assert (K2 : kept s s2).
  { transitivity s1; [by apply quiet_kept|]. split; [done| |done|done]. intros id v Hv. cbn. destruct (decide (id = id_ u)) as [->|].
    - rewrite lookup_insert_eq. exists u'. rewrite Hu in Hv. by injection Hv as <-.
    - rewrite lookup_insert_ne by done. by exists v. }
  destruct (request_header cfg (len body)) as [header|e] eqn:Eh.
  - cbn [ready_connections set_update_map set_queues s2]. rewrite E6.
    set (s3 := set_ready_connections _ _).
    assert (Hc : exists c, live !! cid = Some c) by
      (destruct (proj1 (dl_ready_elem _ _ _ _ _ _ _ _ D2 cid)) as (c & ? & _); [cbn; rewrite E6, El; set_solver|by exists c]).
    destruct Hc as [c Hc]. destruct S1 as [S11 S12 S13].
    destruct (held_modify M _ _ _ cid c (fun c => mk_connection (actor_id_ c) (conn_id_ c) (id_ u') (conn_ip_generation c)) S11 Hc) as (c' & Em & S11' & _).
    change (connections s3) with (connections s1). rewrite Em. cbv beta iota. eexists (inr tt), _. split; [reflexivity|].
    assert (Ho : forall l', opened (((l' ++ [Conn cid (WriteNextNoflush header)]) ++ [Conn cid (WriteNextNoflush body)]) ++ [Conn cid WriteOk]) = opened l'
      /\ proxied (((l' ++ [Conn cid (WriteNextNoflush header)]) ++ [Conn cid (WriteNextNoflush body)]) ++ [Conn cid WriteOk]) = proxied l').
    { intros l'. by rewrite !opened_plain, !proxied_plain. }
    split; [exists lost; split; [done|]; exists (<[cid := mk_connection (actor_id_ c) (conn_id_ c) (id_ u) (conn_ip_generation c)]> live), plive, last'|].
    + split; [| |apply (rest_frame s1); try done; by apply R1|done].
      * unfold delivers in D2. cbn [ready_connections s2 set_update_map set_queues] in D2. rewrite E6, El in D2.
        exact (dispatch cfg lost _ _ _ _ _ (q_id k) cid c u' D2 Hf2 Hc).
      * destruct (Ho (out s1)) as [Ho1 Ho2]. match goal with |- sockets_ok ?s' _ _ => set (sf := s') end.
        assert (opened (out sf) = opened (out s1)) as Eo by exact Ho1. assert (proxied (out sf) = proxied (out s1)) as Ep by exact Ho2.
        split; [rewrite Eo; exact S11'|rewrite Ep; exact S12|]. rewrite map_size_insert_Some by (by eexists). exact S13.
    + split; [transitivity s2; [done|by apply kept_same]|]. cbn. rewrite length_take. pose proof (f_equal length El) as Hlen.
      rewrite length_app in Hlen. cbn in Hlen. lia.
  - eexists (inl UrlTooLong), s2. split; [reflexivity|].
    assert (W2 : wf (<[q_id k := id_ u]> lost) s2).
    { exists live, plive, last'. split; [| |apply (rest_frame s1); try done; by apply R1|done].
      - apply (lose cfg lost _ _ _ live _ (q_id k) u' D2 Hf2). exists body. split; [done|]. by rewrite Eh.
      - by eapply sockets_frame. }
    split; [|split; [done|by exists (<[q_id k := id_ u]> lost), (q_id k), (id_ u); rewrite lookup_insert_eq]].
    exists (<[q_id k := id_ u]> lost). split; [|done].
    apply insert_subseteq. destruct (lost !! q_id k) as [x|] eqn:Elost; [|done].
    destruct (dl_lost _ _ _ _ _ _ _ _ D2 _ _ Elost) as (_ & _ & _ & _ & _ & Hn). by destruct Hn.
Qed.

Lemma send_loop_ok fuel : forall lost s, wf lost s -> (length (ready_connections s) < fuel)%nat ->
  exists s', send_loop cfg env fuel s = Some s' /\ wf_more lost s' /\ kept s s'.
Proof using Hclock Hcfg.
  induction fuel as [|fuel IH]; intros lost s W Hf; [lia|]. cbn [send_loop].
  destruct (send_update_ok lost s W) as ([e|[]] & s1 & -> & (lost1 & H1 & W1) & K1 & Hr); [exists s1; split; [done|]; by split; [exists lost1|]|].
  destruct (IH lost1 s1 W1 ltac:(lia)) as (s2 & -> & (lost2 & H2 & W2) & K2). exists s2. split; [done|].
  split; [exists lost2; split; [by transitivity lost1|done]|by transitivity s1].
Qed.

(** ** The loop *)

Lemma wf_quiet lost s s' : quiet s s' -> wf lost s -> wf lost s'.
Proof using Hclock. intros Q (live & plive & last & W). exists live, plive, last. by eapply quiet_wf. Qed.

Lemma wf_in_more lost s : wf lost s -> wf_more lost s.
Proof. intros W. by exists lost. Qed.

Lemma wf_more_more lost lost' s : lost ⊆ lost' -> wf_more lost' s -> wf_more lost s.
Proof. intros H (l & ? & W). exists l. split; [by transitivity lost'|done]. Qed.

Lemma loop_ok lost s : wf lost s -> exists s', loop cfg env s = Some s' /\ wf_more lost s' /\ kept s s'.
Proof using Hclock Hcfg.
  intros W. unfold loop. set (s0 := set_wakeup_at s 0). assert (Q0 : quiet s s0) by by split. pose proof (wf_quiet _ _ _ Q0 W) as W0.
  assert (exists s1, unless_stopped (load_updates cfg env) s0 = Some s1 /\ wf lost s1 /\ kept s s1) as (s1 & -> & W1 & K1).
  { unfold unless_stopped. destruct (stop_flag s0); [exists s0; split; [done|]; by split; [|apply quiet_kept]|].
    destruct (load_updates_ok lost s0 W0) as (s1 & -> & W1 & K1). exists s1. split; [done|]. split; [done|].
    transitivity s0; [by apply quiet_kept|done]. }
  cbn [mbind option_bind].
  assert (exists s2, unless_stopped (fun s => Some (resolve_ip_address cfg env s)) s1 = Some s2 /\ wf lost s2 /\ kept s s2) as (s2 & -> & W2 & K2).
  { unfold unless_stopped. destruct (stop_flag s1); [by exists s1|]. eexists. split; [done|]. pose proof (quiet_resolve s1) as Q.
    split; [by eapply wf_quiet|]. transitivity s1; [done|by apply quiet_kept]. }
  cbn [mbind option_bind].
  assert (exists s3, unless_stopped (create_new_connections cfg env) s2 = Some s3 /\ wf lost s3 /\ kept s s3) as (s3 & -> & W3 & K3).
  { unfold unless_stopped. destruct (stop_flag s2); [by exists s2|]. destruct (create_new_ok lost s2 W2) as (s3 & -> & W3 & Hm).
    exists s3. split; [done|]. split; [done|]. transitivity s2; [done|by apply moved_kept]. }
  cbn [mbind option_bind].
  assert (exists s4, unless_stopped (send_updates cfg env) s3 = Some s4 /\ wf_more lost s4 /\ kept s s4) as (s4 & -> & (lost4 & H4 & W4) & K4).
  { unfold unless_stopped. destruct (stop_flag s3); [exists s3; split; [done|]; by split; [apply wf_in_more|]|].
    unfold send_updates. destruct (send_loop_ok (S (length (ready_connections s3))) lost s3 W3 ltac:(lia)) as (s4 & -> & W4 & K4).
    exists s4. split; [done|]. split; [done|]. by transitivity s3. }
  cbn [mbind option_bind]. assert (Hq : forall s5, quiet s4 s5 -> exists s', Some s5 = Some s' /\ wf_more lost s' /\ kept s s').
  { intros s5 Q. exists s5. split; [done|]. split; [exists lost4; split; [done|by eapply wf_quiet]|]. transitivity s4; [done|by apply quiet_kept]. }
  destruct (stop_flag s4).
  - apply Hq. transitivity (set_stopped s4 true); [by split|by apply quiet_emit].
  - apply Hq. destruct (Qeq_bool _ _); [done|by apply quiet_emit].
Qed.

(** ** Responses *)

Definition accepted (r : http_query) : bool :=
  bool_decide (hq_type r = ResponseType) && ((200 <=? hq_code r) && (hq_code r <=? 299)).
Definition retry_of (r : http_query) : Z := if bool_decide (hq_type r = ResponseType) then hq_get_retry_after r else 0.

Lemma quiet_send_query s r : quiet s (send_response_query cfg env s r).
Proof.
  unfold send_response_query. destruct (is_allowed_method _); [|done]. cbn [time_now ask].
  destruct (Query.create _ _ _ _ _ _ _ _ _ _ _) as [q sh]. etransitivity; [|by apply quiet_notify]. split; try done. cbn. lia.
Qed.

Lemma quiet_gone s code gone s' : check_gone env s code = (gone, s') -> quiet s s'.
Proof.
  unfold check_gone. cbn [time_now ask]. destruct (code =? 410); [destruct (Qeq_bool _ _)|]; intros [= <- <-]; split; try done; cbn; lia.
Qed.

Lemma read_response_ok s r : exists e retry close s', read_response cfg env s r = (e, retry, close, s') /\ quiet s s'
  /\ bool_decide (e = []) = accepted r /\ (accepted r = false -> retry = retry_of r).
Proof.
  unfold read_response, accepted, retry_of. case_bool_decide as Ht; cbn [andb].
  - destruct (_ && _).
    + eexists _, _, _, _. split; [done|]. split; [|done]. transitivity (send_response_query cfg env s r); [apply quiet_send_query|by split].
    + destruct (check_gone env s (hq_code r)) as [gone s1] eqn:E. apply quiet_gone in E. eexists _, _, _, _. split; [done|].
      split; [etransitivity; [exact E|apply quiet_webhook_error]|]. split; [by apply bool_decide_eq_false|done].
  - eexists _, _, _, _. split; [done|]. split; [apply quiet_webhook_error|]. split; [by apply bool_decide_eq_false|done].
Qed.

Lemma filter_absent (x : Z) (l : list Z) : x ∉ l -> filter (fun y => y <> x) l = l.
Proof.
  induction l as [|y l IH]; intros H; [done|]. apply not_elem_of_cons in H as [? ?]. rewrite filter_cons, decide_True by congruence.
  by rewrite IH.
Qed.

Lemma finish_ok lost s live plive last' id c close :
  delivery cfg lost None (update_map s) (queue_updates s) (queues s) (delete id live) (filter (fun x => x <> id) (ready_connections s)) ->
  (close = false -> id ∉ ready_connections s /\ actor_id_ c = true) ->
  sockets_ok s live plive -> rest_ok s last' -> callback_ok s -> live !! id = Some c -> conn_id_ c = id ->
  exists s', finish_connection s id close = Some s' /\ wf lost s' /\ kept s s'.
Proof using Hclock.
  intros D Hclose [S1 S2 S3] R C Hc Hid. unfold finish_connection.
  set (f := fun c => mk_connection (actor_id_ c) (conn_id_ c) 0 (conn_ip_generation c)).
  destruct (held_modify M _ _ _ id c f S1 Hc) as (cs & -> & S1' & _). cbn [mbind option_bind].
  pose proof (held_given _ _ _ _ id c S1 Hc) as Hg. destruct close.
  - rewrite (held_get _ _ _ _ id S1' Hg), lookup_insert_eq. cbn [mbind option_bind]. change (conn_id_ (f c)) with (conn_id_ c). rewrite Hid.
    pose proof (held_erase M cs no_connection _ _ id (f c) S1' (lookup_insert_eq _ _ _)) as S1''. rewrite delete_insert_eq in S1''.
    set (s1 := set_ready_connections _ _). set (s2 := if actor_id_ (f c) then _ else s1).
    assert (Q : quiet s1 s2) by (subst s2; destruct (actor_id_ (f c)); [by apply quiet_emit|done]).
    assert (W1 : wf_at lost s1 (delete id live) plive last').
    { split; [exact D| |by apply (rest_frame s); try done; apply R|done]. split; [done|done|].
      cbn [ready_sockets set_ready_connections set_connections s1]. pose proof (delete_size_le live id). lia. }
    eexists. split; [done|]. split.
    + apply (wf_quiet _ s2); [by split|]. apply (wf_quiet _ s1); [done|]. by exists (delete id live), plive, last'.
    + transitivity s1; [by apply kept_same|]. transitivity s2; [by apply quiet_kept|by apply kept_same].
  - destruct (Hclose eq_refl) as [Hn Ha]. rewrite filter_absent in D by done. eexists. split; [done|]. split; [|by apply kept_same].
    exists (<[id := f c]> live), plive, last'. split; [| |by apply (rest_frame s); try done; apply R|done].
    + unfold delivers. rewrite <- insert_delete_eq. refine (add_ready cfg lost None _ _ _ _ _ id (f c) D _ _ _ _); try done.
      apply lookup_delete_eq.
    + split; [exact S1'|done|]. rewrite map_size_insert_Some by (by eexists). done.
Qed.

(** The update that an answer on a connection removes. *)
Definition answer_forgets s (cid : Z) (response : option http_query) (id : Z) : Prop :=
  exists c u, Container.get (connections s) cid = Some c /\ event_id_ c = id /\ update_map s !! id = Some u
    /\ match response with
       | Some r => accepted r = true \/ exists n, (ticks s <= n)%nat /\ too_late n u (retry_of r) = true
       | None => exists n, (ticks s <= n)%nat /\ too_late n u 0 = true
       end.

Definition forgets_as s (P : Z -> Prop) s' : Prop := exists o, kept_but o s s' /\ forall id, o = Some id -> P id.

Lemma forgets_kept s P s' s'' : forgets_as s P s' -> kept s' s'' -> forgets_as s P s''.
Proof. intros (o & K & H) K'. exists o. split; [by eapply (kept_but_compose o s s s')|done]. Qed.

Lemma kept_forgets s P s' : kept s s' -> forgets_as s P s'.
Proof. intros K. exists None. split; [by apply kept_kept_but|done]. Qed.

(** After the response was read: the update is answered, the connection finished. *)
Lemma answer_ok lost s live plive last' cid c (success : bool) retry close :
  delivers lost None s live -> sockets_ok s (<[cid := c]> (delete cid live)) plive -> rest_ok s last' -> callback_ok s ->
  (exists c0, live !! cid = Some c0 /\ event_id_ c0 = event_id_ c) -> conn_id_ c = cid -> (close = false -> actor_id_ c = true) ->
  (event_id_ c = 0 -> success = false /\ close = true) ->
  exists s1 s', (if negb (Queues.is_empty (event_id_ c)) then
                   if success then on_update_ok cfg env s (event_id_ c) else on_update_error cfg env s (event_id_ c) retry
                 else if success then None else Some s) = Some s1
    /\ finish_connection s1 cid close = Some s' /\ wf lost s'
    /\ forgets_as s (fun id => event_id_ c = id /\ exists u, update_map s !! id = Some u
         /\ (success = true \/ (success = false /\ too_late (ticks s) u retry = true))) s'.
Proof using Hclock Hcfg.
  intros D S R C (c0 & Hc0 & Ee) Hid Hclose Hev. unfold Queues.is_empty. destruct (Z.eqb_spec (event_id_ c) 0) as [E0|E0]; cbn [negb].
  - destruct (Hev E0) as [-> ->]. exists s. destruct (finish_ok lost s (<[cid := c]> (delete cid live)) plive last' cid c true) as (s' & E & W & K); try done.
    + rewrite delete_insert_eq, delete_delete_eq. apply (release_ready cfg lost None _ _ _ live _ cid c0); [done|done|congruence].
    + apply lookup_insert_eq.
    + exists s'. split; [done|]. split; [done|]. split; [done|]. by apply kept_forgets.
  - rewrite <- Ee in E0. destruct (dl_flight _ _ _ _ _ _ _ _ D cid c0 Hc0 E0) as (u & Hu & _).
    destruct (release_busy cfg lost _ _ _ live _ cid c0 u D Hc0 E0 Hu) as [D' Hf].
    destruct (ld_update _ _ (dl_loaded _ _ _ _ _ _ _ _ D) _ _ Hu) as (Ei & _).
    assert (Hsettle : exists o s1, (if success then on_update_ok cfg env s (event_id_ c) else on_update_error cfg env s (event_id_ c) retry) = Some s1
      /\ settled o lost s s1 (delete cid live) last'
      /\ forall id, o = Some id -> event_id_ c = id /\ exists u, update_map s !! id = Some u
           /\ (success = true \/ (success = false /\ too_late (ticks s) u retry = true))).
    { rewrite <- Ee, <- Ei. destruct success.
      - destruct (on_ok_ok lost s (delete cid live) last' u D' R Hf) as (s1 & E & Hs). exists (Some (id_ u)), s1. split; [done|]. split; [done|].
        intros id [= <-]. split; [done|]. exists u. rewrite Ei. split; [done|by left].
      - destruct (on_error_ok lost s (delete cid live) last' u retry D' R Hf) as (s1 & E & Hs). eexists _, s1. split; [done|]. split; [exact Hs|].
        intros id Ho. destruct (too_late (ticks s) u retry) eqn:El; [|done]. injection Ho as <-. split; [done|]. exists u. rewrite Ei.
        split; [done|]. by right. }
    destruct Hsettle as (o & s1 & -> & [D1 R1 K1 KB] & Ho). exists s1. unfold key_answer in K1.
    injection K1 as F1 F2 F3 F4 F5 F6 F7 F8 F9 F10 F11 F12 F13 F14 F15.
    assert (Hn : cid ∉ ready_connections s1).
    { intros (c' & Hc' & _)%(dl_ready_elem _ _ _ _ _ _ _ _ D1). by rewrite lookup_delete_eq in Hc'. }
    destruct (finish_ok lost s1 (<[cid := c]> (delete cid live)) plive last' cid c close) as (s' & E & W & K); try done.
    + rewrite filter_absent by done. by rewrite delete_insert_eq, delete_delete_eq.
    + intros Hcl. split; [done|]. by apply Hclose.
    + eapply sockets_frame; [exact S|congruence..].
    + unfold callback_ok. by rewrite F13, F14.
    + apply lookup_insert_eq.
    + exists s'. split; [done|]. split; [done|]. split; [done|]. apply (forgets_kept _ _ s1); [|done]. by exists o.
Qed.

Lemma handle_ok lost s cid response : wf lost s -> cid ∈ opened (out s) ->
  (response <> None -> forall c, Container.get (connections s) cid = Some c -> event_id_ c <> 0) ->
  exists s', handle cfg env s cid response = Some s' /\ wf_more lost s' /\ forgets_as s (answer_forgets s cid response) s'.
Proof using Hclock Hcfg.
  intros W Hg Hev. pose proof W as (live & plive & last' & Wat). pose proof Wat as [D S R C]. pose proof S as [S1 S2 S3]. unfold handle.
  rewrite (held_get _ _ _ _ cid S1 Hg) in *. destruct (live !! cid) as [c|] eqn:Hc.
  2:{ exists s. split; [done|]. split; [by apply wf_in_more|by apply kept_forgets]. }
  destruct (dl_conn _ _ _ _ _ _ _ _ D cid c Hc) as [Hid Ha].
  assert (Hfin : forall s' (close : bool), wf lost s' -> exists s'', (if close then Some (emit s' CloseLater) else loop cfg env s') = Some s''
    /\ wf_more lost s'' /\ kept s' s'').
  { intros s' close W'. destruct close; [|by apply loop_ok]. eexists. split; [done|].
    split; [apply wf_in_more; eapply wf_quiet; [by apply quiet_emit|done]|by apply quiet_kept, quiet_emit]. }
  destruct response as [r|].
  - destruct (read_response_ok s r) as (e & retry & close & s1 & Er & Q & Hacc & Hretry). rewrite Er. cbn [mbind option_bind].
    pose proof (quiet_wf _ _ _ _ _ _ Q Wat) as [D1 S' R1 C1]. set (close' := close || _).
    destruct (answer_ok lost s1 live plive last' cid c (bool_decide (e = [])) retry close') as (s2 & s3 & E2 & E3 & W3 & F3); try done.
    + by rewrite insert_delete_eq, insert_id.
    + by exists c.
    + intros E0. by destruct (Hev ltac:(done) c eq_refl).
    + rewrite E2. cbn [mbind option_bind]. rewrite E3. cbn [mbind option_bind].
      destruct (Hfin s3 close W3) as (s4 & -> & W4 & K4). exists s4. split; [done|]. split; [done|].
      apply (forgets_kept _ _ s3); [|done]. destruct F3 as (o & KB & Ho). exists o. split.
      * by apply (kept_but_compose o s s1 s3 s3); [apply quiet_kept| |].
      * intros id Hid'. destruct (Ho id Hid') as (Ei & u & Hu & Hs). exists c, u. split; [by rewrite (held_get _ _ _ _ cid S1 Hg)|].
        destruct (quiet_same _ _ Q) as (_ & _ & _ & _ & _ & _ & Eum & _). rewrite Eum in Hu. split; [done|]. split; [done|].
        rewrite Hacc in Hs. destruct Hs as [?|[Hf Hl]]; [by left|right]. exists (ticks s1). split; [apply Q|]. by rewrite <- (Hretry Hf).
  - set (f := fun c => mk_connection false (conn_id_ c) (event_id_ c) (conn_ip_generation c)).
    destruct (held_modify M _ _ _ cid c f S1 Hc) as (cs & -> & S1' & _). cbn [mbind option_bind].
    rewrite bool_decide_eq_false_2 by done.
    destruct (answer_ok lost (set_connections s cs) live plive last' cid (f c) false 0 true) as (s2 & s3 & E2 & E3 & W3 & F3); try done.
    + split; [by rewrite insert_delete_eq|done|]. rewrite insert_delete_eq, map_size_insert_Some by (by eexists). done.
    + by destruct R; split.
    + by exists c.
    + change (event_id_ (f c)) with (event_id_ c) in E2. rewrite E2. cbn [mbind option_bind orb]. rewrite E3. cbn [mbind option_bind].
      destruct (Hfin s3 false W3) as (s4 & -> & W4 & K4). exists s4. split; [done|]. split; [done|].
      apply (forgets_kept _ _ s3); [|done]. destruct F3 as (o & KB & Ho). exists o. split.
      * by apply (kept_but_compose o s (set_connections s cs) s3 s3); [apply kept_same| |].
      * intros id Hid'. destruct (Ho id Hid') as (Ei & u & Hu & [?|[_ Hl]]); [done|]. exists c, u.
        split; [by rewrite (held_get _ _ _ _ cid S1 Hg)|]. split; [done|]. split; [done|]. by exists (ticks s).
Qed.

(** ** Events *)

(** What the environment sends: an answer of a proxy or a connection that was
    opened, a response only to a request, the update queues in good order.  After
    [stop] there are no events. *)
Definition allowed s (e : event T) : Prop :=
  stopped s = false /\
  match e with
  | Resolved _ => is_ip_address_being_resolved s = true
  | SocketReady _ id => id ∈ proxied (out s) /\ Container.get (pending_sockets s) id <> None
  | Response id _ => id ∈ opened (out s) /\ forall c, Container.get (connections s) id = Some c -> event_id_ c <> 0
  | ConnectionHangup id => id ∈ opened (out s)
  | Shared tq _ _ _ => source_ok tq
  | _ => True
  end.

(** The update that an event may remove from memory and from the queues. *)
Definition event_forgets s (e : event T) (id : Z) : Prop :=
  match e with
  | Response cid r => answer_forgets s cid (Some r) id
  | ConnectionHangup cid => answer_forgets s cid None id
  | _ => False
  end.

Definition advances lost s (P : Z -> Prop) (r : option (actor T)) : Prop :=
  exists s', r = Some s' /\ (stopped s' = false -> wf_more lost s') /\ forgets_as s P s'.

Lemma loop_advances lost lost' s s' P : lost ⊆ lost' -> wf lost' s' -> forgets_as s P s' -> advances lost s P (loop cfg env s').
Proof using Hclock Hcfg.
  intros H W F. destruct (loop_ok lost' s' W) as (s2 & -> & W2 & K2). exists s2. split; [done|].
  split; [intros _; by eapply wf_more_more|by eapply forgets_kept].
Qed.

Lemma quiet_advances lost s s' P : wf lost s -> quiet s s' -> advances lost s P (Some s').
Proof using Hclock.
  intros W Q. exists s'. split; [done|]. split; [intros _; by apply wf_in_more; eapply wf_quiet|]. by apply kept_forgets, quiet_kept.
Qed.

Lemma loop_quiet lost s s' P : wf lost s -> quiet s s' -> advances lost s P (loop cfg env s').
Proof using Hclock Hcfg.
  intros W Q. apply (loop_advances lost lost); [done|by eapply wf_quiet|by apply kept_forgets, quiet_kept].
Qed.

Lemma wf_callback_ok lost s : wf lost s -> callback_ok s.
Proof. intros (? & ? & ? & W). apply W. Qed.

Lemma check_ip_total a : exists r, check_ip_address cfg env a = Some r.
Proof.
  unfold check_ip_address. destruct a; cbn; [by eexists|..]; destruct (local_mode cfg); cbn; by eexists.
Qed.

(** The members that the invariant does not read. *)
Lemma wf_address lost s a g : wf lost s -> wf lost (set_ip_generation (set_ip_address_ s a) g).
Proof. intros (live & plive & last & [D1 [? ? ?] [] D4]). exists live, plive, last. split; [done|by split|by split|done]. Qed.

Lemma wf_ssl lost s b : wf lost s -> wf lost (set_ssl_ctx s b).
Proof. intros (live & plive & last & [D1 [? ? ?] [] D4]). exists live, plive, last. split; [done|by split|by split|done]. Qed.

Lemma resolved_ok lost s r P : wf lost s -> is_ip_address_being_resolved s = true ->
  advances lost s P (on_resolved_ip_address cfg env s r).
Proof using Hclock Hcfg.
  intros W Hr. unfold on_resolved_ip_address. rewrite Hr. cbn [negb time_now ask set_is_ip_address_being_resolved ticks set_ticks].
  set (s1 := relax_wakeup_at _ _). assert (Q : quiet s s1).
  { subst s1. etransitivity; [|apply quiet_relax]. split; try done. cbn. lia. }
  clearbody s1. pose proof (wf_quiet _ _ _ Q W) as W1.
  assert (He : forall e, advances lost s P (s ← on_error s1 e; loop cfg env s)).
  { intros e. destruct (quiet_on_error s1 e) as (s2 & -> & Q2); [by eapply wf_callback_ok|]. cbn. apply loop_quiet; [done|by transitivity s1]. }
  destruct r as [a|e]; [|apply He]. destruct (check_ip_total a) as [[u|e] ->]; cbn [mbind option_bind]; [|apply He].
  case_bool_decide; [by apply loop_quiet|]. cbn [mbind option_bind]. set (s2 := set_ip_generation _ _).
  assert (Q3 : quiet s2 (if was_checked s2 then on_webhook_verified env s2 else s2)).
  { destruct (was_checked s2); [apply quiet_verified|done]. }
  apply (loop_advances lost lost); [done|eapply wf_quiet; [exact Q3|by apply wf_address]|].
  apply kept_forgets. transitivity s1; [by apply quiet_kept|]. transitivity s2; [by apply kept_same|by apply quiet_kept].
Qed.

Lemma ssl_created_ok lost s r P : wf lost s -> advances lost s P (on_ssl_context_created cfg env s r).
Proof using Hclock Hcfg.
  intros W. unfold on_ssl_context_created. destruct r as [?|e].
  - apply (loop_advances lost lost); [done|by apply wf_ssl|]. apply kept_forgets. by apply kept_same.
  - destruct (quiet_create_error s "Can't create an SSL context" e true) as (s2 & -> & Q); [by eapply wf_callback_ok|]. by apply loop_quiet.
Qed.

Lemma socket_ready_ok lost s r id P : wf lost s -> id ∈ proxied (out s) -> Container.get (pending_sockets s) id <> None ->
  advances lost s P (on_socket_ready_async cfg env s r id).
Proof using Hclock Hcfg.
  intros (live & plive & last' & [D1 [S1 S2 S3] R1 C1]) Hid Hget. rewrite (held_get _ _ _ _ id S2 Hid) in Hget.
  destruct (plive !! id) as [d|] eqn:Hd; [|done]. unfold on_socket_ready_async.
  pose proof (held_erase M _ false _ _ id d S2 Hd) as S2'. set (c := Container.erase _ _ _) in *.
  assert (Hsz : Z.of_nat (base.size (delete id plive)) + 1 <= Z.of_nat (base.size plive)).
  { rewrite (map_size_delete_Some id plive) by (by eexists). enough (base.size plive <> 0)%nat by lia.
    intros E%map_size_empty_inv. by rewrite E in Hd. }
  set (s1 := set_pending_sockets s c).
  assert (W1 : wf lost s1).
  { exists live, (delete id plive), last'. split; [done|split; [done|done|cbn; lia]|by apply (rest_frame s); try done; apply R1|done]. }
  destruct r as [fd|e].
  - apply (loop_advances lost lost); [done| |].
    + exists live, (delete id plive), last'. split; [done| |by apply (rest_frame s); try done; apply R1|done].
      split; [done|done|]. cbn. rewrite len_app, len_cons, len_nil. lia.
    + apply kept_forgets. by apply kept_same.
  - pose proof (quiet_webhook_error s1 (st_message e)) as Q. set (s2 := on_webhook_error env s1 _) in *.
    pose proof (wf_quiet _ _ _ Q W1) as W2. destruct (quiet_on_error s2 e) as (s3 & -> & Q3); [by eapply wf_callback_ok|].
    cbn [mbind option_bind]. apply (loop_advances lost lost); [done|by eapply wf_quiet|]. apply kept_forgets.
    transitivity s1; [by apply kept_same|]. apply quiet_kept. by transitivity s2.
Qed.

Lemma event_ok lost s e : wf lost s -> allowed s e ->
  exists s', on_event cfg env s e = Some s' /\ (stopped s' = false -> wf_more lost s')
    /\ (match e with Shared _ _ _ _ => True | _ => forgets_as s (event_forgets s e) s' end).
Proof using Hclock Hcfg.
  intros W [Hs Ha]. destruct e as [| |r|r|r id|id r|e|id| | |tq sh n k]; cbn [on_event].
  - by apply loop_quiet; [|split].
  - by apply loop_quiet.
  - by apply resolved_ok.
  - by apply ssl_created_ok.
  - destruct Ha. by apply socket_ready_ok.
  - destruct Ha as [Hi Hev]. destruct (handle_ok lost s id (Some r) W Hi ltac:(done)) as (s' & -> & W' & F). by exists s'.
  - apply quiet_advances; [done|]. apply quiet_webhook_error.
  - destruct (handle_ok lost s id None W Ha ltac:(done)) as (s1 & E & (lost1 & H1 & W1) & F). unfold hangup_shared. rewrite E.
    by apply (loop_advances lost lost1).
  - eexists. split; [done|]. split; [done|]. apply kept_forgets. unfold close, notify. by destruct (callback_ s); apply kept_same.
  - eexists. split; [done|]. split; [done|]. apply kept_forgets. by apply kept_same.
  - eexists. split; [done|]. split; [|done]. intros _. apply wf_in_more. destruct W as (live & plive & last' & [D1 [? ? ?] R1 D4]).
    exists live, plive, last'. split; [done|by split| |done]. apply (rest_frame s); try done. cbn. lia.
Qed.

End Actor.
End Invariant.
