(* ===== verification/WebhookProperties.v ===== *)
(** * What webhooks promise

    The runs of the actor of [WebhookActor.v] and the theorems about all of them:
    no check fails, no update is forgotten, and what the actor waits for. *)

From Stdlib Require Import Qround.
From S2P Require Import Prelude TdMisc Utf8 Json HttpHeader IPAddress Query HttpConnection HttpUrl Base64 Containers TQueue WebhookActor WebhookDelivery WebhookInvariant.

Import Webhook Source VectorQueue VectorQueueFacts Delivery Laws ContainerMap Held FloodFacts Invariant.

Module Runs.

Section Runs.
Context {T : Type} `{!update_source T} `{!source_laws T}.
Context (cfg : config) (env : environment).
Implicit Types s : actor T.

#[local] Notation M := (max_connections cfg).

(** A clock that does not go back, and as many connections as the constructor
    lets through. *)
Record sound : Prop := {
  sound_clock n : (clock env n <= clock env (S n))%Q;
  sound_start : (0 <= clock env 0)%Q;
  sound_connections : 0 < M <= int32_max }.

(** The states of a webhook: the first one, after [start_up], and the others. *)
Inductive reached : actor T -> Prop :=
| reached_start tq shared total n address s :
    source_ok tq -> start_up cfg env (create tq shared total n address) = Some s -> reached s
| reached_step s e s' : reached s -> allowed s e -> step cfg env s e = Some s' -> reached s'.

(** What follows a state. *)
Inductive later s : actor T -> Prop :=
| later_refl : later s s
| later_step s1 e s2 : later s s1 -> allowed s1 e -> step cfg env s1 e = Some s2 -> later s s2.

Lemma reached_later s s' : reached s -> later s s' -> reached s'.
Proof. intros H. induction 1; [done|by eapply reached_step]. Qed.

Context (Hsound : sound).

Lemma clock_start n : (0 <= clock env n)%Q.
Proof using Hsound.
  destruct Hsound as [H1 H2 _]. pose proof (clock_le env H1 0 n ltac:(lia)). lra.
Qed.

Lemma start_ok tq shared total n address : source_ok tq ->
  exists s, start_up cfg env (create tq shared total n address) = Some s /\ wf cfg env ∅ s.
Proof using Hsound.
  intros Ht. unfold start_up. cbn [time_now ask create ticks set_ticks set_max_loaded_updates].
  set (s1 := set_pending_new_connection_flood _ _).
  assert (W1 : wf cfg env ∅ s1).
  { assert (Ef : active_new_connection_flood s1 = with_limits [(1 # 2, 10)]%Q /\ pending_new_connection_flood s1 = with_limits [(2, 1)]%Q
      /\ (n <= ticks s1)%nat /\ tqueue s1 = tq /\ max_loaded_updates s1 = M * 2 /\ queue_updates s1 = ∅ /\ unique_queue_id s1 = 2 ^ 60
      /\ last_pending_update_count s1 = 50 /\ connections s1 = Container.empty_container /\ out s1 = []
      /\ pending_sockets s1 = Container.empty_container /\ ready_sockets s1 = [] /\ update_map s1 = ∅ /\ queues s1 = []
      /\ ready_connections s1 = [] /\ callback_ s1 = true).
    { subst s1. destruct (from_db_flag cfg); cbn; split_and!; try done; lia. }
    destruct Ef as (E1 & E2 & E3 & E4 & E5 & E6 & E7 & E8 & E9 & E10 & E11 & E12 & E13 & E14 & E15 & E16).
    clearbody s1. exists ∅, ∅, 0%Q. split.
    - unfold delivers. rewrite E13, E6, E14, E15. split; try done.
      + split; [done|done|]. intros q id. unfold content. rewrite lookup_empty. by intros ?%elem_of_nil.
      + constructor.
      + constructor.
      + by intros k ?%elem_of_nil.
      + constructor.
      + intros id. split; [by intros ?%elem_of_nil|]. by intros (c & ? & _).
    - destruct Hsound as [_ _ HM]. split; rewrite ?E9, ?E10, ?E11, ?E12; [apply held_start; lia| apply held_start; lia|].
      rewrite !map_size_empty. change (len (@nil Z)) with 0. lia.
    - split; rewrite ?E1, ?E2, ?E4, ?E5, ?E6, ?E7, ?E8; try done.
      + apply with_limits_ok. repeat constructor; cbn; lra.
      + apply with_limits_ok. repeat constructor; cbn; lra.
      + apply clock_start.
      + lia.
      + rewrite map_size_empty. destruct Hsound as [_ _ HM]. lia.
    - by intros _. }
  clearbody s1. destruct Hsound as [Hclock _ Hcfg].
  assert (Hq : forall s2, quiet s1 s2 -> wf cfg env ∅ s2) by (intros s2 Q; by eapply wf_quiet).
  assert (He : forall s2 e, quiet s1 s2 -> exists s3, on_error s2 e = Some s3 /\ quiet s1 s3).
  { intros s2 e Q. destruct (quiet_on_error s2 e) as (s3 & E & Q'); [eapply wf_callback_ok; by apply Hq|].
    exists s3. split; [done|by transitivity s2]. }
  assert (exists s2, (if local_mode cfg then Some s1
    else if bool_decide (Url.protocol_ (url_ cfg) = Url.Https) then
         if allowed_port (Url.port_ (url_ cfg)) then Some s1
         else on_error s1 (Status 0 (lit "Webhook can be set up only on ports 80, 88, 443 or 8443"))
       else on_error s1 (Status 0 (lit "An HTTPS URL must be provided for webhook"))) = Some s2 /\ quiet s1 s2) as (s2 & -> & Q2).
  { destruct (local_mode cfg); [by exists s1|]. destruct (bool_decide _); [destruct (allowed_port _); [by exists s1|]|]; by apply He. }
  cbn [mbind option_bind].
  assert (exists r, (if fix_ip_address cfg && negb (stop_flag s2) then check_ip_address cfg env (ip_address_ s2) else Some (Ok tt)) = Some r)
    as (r & ->) by (destruct (_ && _); [apply check_ip_total|by eexists]).
  cbn [mbind option_bind]. destruct r as [u|e].
  2:{ destruct (He s2 e Q2) as (s3 & -> & Q3). exists s3. split; [done|by apply Hq]. }
  set (s3 := if from_db_flag cfg && _ then _ else s2).
  assert (Q3 : quiet s1 s3).
  { transitivity s2; [done|]. subst s3. destruct (_ && _); [|done]. transitivity (set_was_checked s2 true); [by split|apply quiet_notify; done]. }
  clearbody s3. set (s4 := if _ && negb (stop_flag s3) then _ else s3).
  assert (Q4 : quiet s1 s4) by (transitivity s3; [done|]; subst s4; destruct (_ && _); [by apply quiet_emit|done]).
  eexists. split; [done|]. apply Hq. transitivity s4; [done|by apply quiet_emit].
Qed.

Lemma quiet_tear_down s : quiet s (tear_down s).
Proof. by split. Qed.

(** What every event does. *)
Lemma step_ok lost s e : wf cfg env lost s -> allowed s e ->
  exists s', step cfg env s e = Some s' /\ (stopped s' = false -> wf_more cfg env lost s')
    /\ (match e with Shared _ _ _ _ => True | _ => forgets_as cfg env s (event_forgets env s e) s' end).
Proof using Hsound.
  intros W Ha. destruct Hsound as [Hclock _ Hcfg]. destruct (event_ok cfg env Hclock Hcfg lost s e W Ha) as (s1 & E & W1 & F).
  unfold step. rewrite E. cbn [mbind option_bind]. destruct (stopped s1) eqn:Es; [|exists s1; split; [done|]; split; [intros _; by apply W1|exact F]].
  eexists. split; [done|]. split; [by cbn; rewrite Es|]. destruct e; try done; apply (forgets_kept _ _ _ _ s1); try done; by apply kept_same.
Qed.

Lemma run_wf s : reached s -> stopped s = false -> exists lost, wf cfg env lost s.
Proof using Hsound.
  induction 1 as [tq shared total n address s Ht E|s e s' Hr IH Ha E]; intros Hs.
  - destruct (start_ok tq shared total n address Ht) as (s' & E' & W). rewrite E in E'. injection E' as <-. by exists ∅.
  - destruct (IH (proj1 Ha)) as [lost W]. destruct (step_ok lost s e W Ha) as (s1 & E' & W1 & _). rewrite E in E'. injection E' as <-.
    destruct (W1 Hs) as (lost' & _ & ?). by exists lost'.
Qed.

Lemma later_wf lost s s' : wf cfg env lost s -> later s s' -> stopped s' = false -> wf_more cfg env lost s'.
Proof using Hsound.
  intros W. induction 1 as [|s1 e s2 Hl IH Ha E]; intros Hs; [by apply wf_in_more|].
  destruct (IH (proj1 Ha)) as (lost1 & H1 & W1). destruct (step_ok lost1 s1 e W1 Ha) as (s3 & E' & W3 & _). rewrite E in E'. injection E' as <-.
  by apply (wf_more_more _ _ _ lost1), W3.
Qed.

End Runs.
End Runs.

(** ** Where the updates are *)

Import Runs.

Section Places.
Context {T : Type} `{!update_source T} `{!source_laws T}.
Context (cfg : config) (env : environment).
Implicit Types s : actor T.

(** A connection that was opened and is still there. *)
Definition conn s (cid : Z) (c : connection) : Prop := cid ∈ opened (out s) /\ Container.get (connections s) cid = Some c.

Definition first_update s (q : Z) : option update := front_of (update_map s) (queue_updates s) q.
Definition scheduled s (q : Z) : Prop := q ∈ q_id <$> queues s.
Definition in_flight s (id : Z) : Prop := exists cid c, conn s cid c /\ event_id_ c = id.

Lemma conn_live lost s live plive last cid c : wf_at cfg env lost s live plive last -> conn s cid c <-> live !! cid = Some c.
Proof.
  intros W. pose proof (so_connections _ _ _ _ (wf_sockets _ _ _ _ _ _ _ W)) as H. unfold conn. split.
  - intros [Hi Hc]. by rewrite <- (held_get _ _ _ _ cid H Hi).
  - intros Hc. pose proof (held_given _ _ _ _ cid c H Hc) as Hi. split; [done|]. by rewrite (held_get _ _ _ _ cid H Hi).
Qed.

(** The clauses of the invariant on the connections, without the maps behind them. *)
Lemma scheduled_place lost s q u : wf cfg env lost s -> first_update s q = Some u -> scheduled s q ->
  new_queue (wakeup_at_ u) q ∈ queues s /\ ~ in_flight s (id_ u) /\ lost !! q = None.
Proof.
  intros (live & plive & last & W) Hf Hs. pose proof (wf_delivers _ _ _ _ _ _ _ W) as D. pose proof Hs as (k & -> & Hk)%list_elem_of_fmap.
  destruct (dl_scheduled _ _ _ _ _ _ _ _ D k Hk) as (u' & Hf' & Ek). unfold first_update in Hf. rewrite Hf in Hf'. injection Hf' as <-.
  split; [by rewrite <- Ek|]. split.
  - intros (cid & c & Hc & E). rewrite (conn_live _ _ _ _ _ _ _ W) in Hc. by apply (live_event _ _ _ _ _ _ _ _ cid c u (q_id k) D Hc Hf E).
  - destruct (lost !! q_id k) as [x|] eqn:El; [|done]. destruct (dl_lost _ _ _ _ _ _ _ _ D _ _ El) as (_ & _ & _ & [Hn _] & _). by destruct Hn.
Qed.

Lemma flight_place lost s cid c : wf cfg env lost s -> conn s cid c -> event_id_ c <> 0 ->
  exists u, id_ u = event_id_ c /\ first_update s (queue_id_ u) = Some u /\ ~ scheduled s (queue_id_ u) /\ lost !! queue_id_ u = None
    /\ (forall cid' c', conn s cid' c' -> event_id_ c' = event_id_ c -> cid' = cid).
Proof.
  intros (live & plive & last & W) Hc Hn. pose proof (wf_delivers _ _ _ _ _ _ _ W) as D.
  rewrite (conn_live _ _ _ _ _ _ _ W) in Hc. destruct (dl_flight _ _ _ _ _ _ _ _ D cid c Hc Hn) as (u & Hu & Hh & Hns).
  destruct (ld_update _ _ (dl_loaded _ _ _ _ _ _ _ _ D) _ _ Hu) as (Ei & _). exists u. split; [done|]. split; [by eapply front_intro|].
  split; [done|]. split.
  - destruct (lost !! queue_id_ u) as [x|] eqn:El; [|done]. destruct (dl_lost _ _ _ _ _ _ _ _ D _ _ El) as (_ & _ & Hh' & [_ Hno] & _).
    rewrite Hh in Hh'. injection Hh' as <-. by destruct (Hno cid c Hc).
  - intros cid' c' Hc' E. rewrite (conn_live _ _ _ _ _ _ _ W) in Hc'. apply (dl_one _ _ _ _ _ _ _ _ D cid' cid c' c Hc' Hc E). congruence.
Qed.

Lemma every_place lost s q u : wf cfg env lost s -> first_update s q = Some u ->
  scheduled s q \/ in_flight s (id_ u) \/ is_Some (lost !! q).
Proof.
  intros (live & plive & last & W) Hf. pose proof (wf_delivers _ _ _ _ _ _ _ W) as D.
  destruct (dl_every _ _ _ _ _ _ _ _ D q u Hf) as [?|[?|[(cid & c & Hc & E)|?]]]; [done|by left| |by right; right].
  right; left. exists cid, c. by rewrite (conn_live _ _ _ _ _ _ _ W).
Qed.

Lemma lost_place lost s q id : wf cfg env lost s -> lost !! q = Some id ->
  exists u, id_ u = id /\ first_update s q = Some u /\ too_long cfg u /\ ~ scheduled s q /\ ~ in_flight s id.
Proof.
  intros (live & plive & last & W) Hl. pose proof (wf_delivers _ _ _ _ _ _ _ W) as D.
  destruct (dl_lost _ _ _ _ _ _ _ _ D q id Hl) as (u & Hu & Hh & [Hn Hno] & Ht & _).
  destruct (ld_update _ _ (dl_loaded _ _ _ _ _ _ _ _ D) _ _ Hu) as (Ei & _). exists u. split; [done|]. split; [by eapply front_intro|].
  split; [done|]. split; [done|]. intros (cid & c & Hc & E). rewrite (conn_live _ _ _ _ _ _ _ W) in Hc. by apply (Hno cid c Hc).
Qed.

Lemma loaded_place lost s q : wf cfg env lost s -> is_Some (queue_updates s !! q) -> exists u, first_update s q = Some u.
Proof.
  intros (live & plive & last & W) [vq Hq]. pose proof (wf_delivers _ _ _ _ _ _ _ W) as D. pose proof (dl_loaded _ _ _ _ _ _ _ _ D) as L.
  apply (front_exists _ _ _ L). unfold content. rewrite Hq. by apply (ld_queue _ _ L q vq Hq).
Qed.

End Places.

(** ** Properties *)

Section Properties.
Context {T : Type} `{!update_source T} `{!source_laws T}.

(** C26. No check of the webhook actor fails.  Whatever the addresses, sockets,
    certificates, random numbers and responses are, the actor starts, and every
    event that its environment may send is handled: the [CHECK]s of the source
    hold, its loops end and every identifier it uses is known. *)
Theorem webhook_checks (cfg : config) (env : environment) : sound cfg env ->
  (forall (tq : T) shared total n address, source_ok tq -> is_Some (start_up cfg env (create tq shared total n address)))
  /\ (forall (s : actor T) e, reached cfg env s -> allowed s e -> is_Some (step cfg env s e)).
Proof.
  intros H. split.
  - intros tq shared total n address Ht. destruct (start_ok cfg env H tq shared total n address Ht) as (s & E & _). by exists s.
  - intros s e Hr Ha. destruct (run_wf cfg env H s Hr (proj1 Ha)) as [lost W].
    destruct (step_ok cfg env H lost s e W Ha) as (s' & E & _). by exists s'.
Qed.

(** C27. A webhook forgets no update.  Over any event an update that was loaded is
    still there with its text, its expiry and its queue, and an event of the
    shared queues is still there, unless it was the update in flight on the
    connection of the event and the server accepted it or it would expire before
    it could be sent again (events of this bot also go when they have expired).
    The order of a queue is kept: only its first update leaves it, and new ones
    come last. *)
Theorem webhook_keeps_updates (cfg : config) (env : environment) (s s' : actor T) (e : event T) :
  sound cfg env -> reached cfg env s -> allowed s e -> (forall tq shared total n, e <> Shared tq shared total n) ->
  step cfg env s e = Some s' ->
  (forall id u, update_map s !! id = Some u -> event_forgets env s e id \/ exists u', update_map s' !! id = Some u'
     /\ id_ u' = id_ u /\ json_ u' = json_ u /\ expires_at_ u' = expires_at_ u /\ queue_id_ u' = queue_id_ u)
  /\ (forall k ev, ev ∈ source_view (tqueue s) k -> ev ∉ source_view (tqueue s') k ->
        k = tqueue_id cfg /\ (event_forgets env s e (Queues.ev_id ev) \/ expired env s s' ev))
  /\ (forall q, content (queue_updates s) q `prefix_of` content (queue_updates s') q
        \/ exists id rest, event_forgets env s e id /\ content (queue_updates s) q = id :: rest
             /\ rest `prefix_of` content (queue_updates s') q).
Proof.
  intros H Hr Ha Hne E. destruct (run_wf cfg env H s Hr (proj1 Ha)) as [lost W].
  destruct (step_ok cfg env H lost s e W Ha) as (s1 & E1 & _ & F). rewrite E in E1. injection E1 as <-.
  assert (F' : forgets_as cfg env s (event_forgets env s e) s') by (destruct e; try done; by destruct (Hne _ _ _ _ eq_refl)).
  destruct F' as (o & [_ K1 K2 K3] & Ho). split; [|split].
  - intros id u Hu. destruct (K1 id u Hu) as [?|?]; [left; by apply Ho|by right].
  - intros k ev H1 H2. destruct (K2 k ev H1 H2) as [? [?|?]]; (split; [done|]); [left; by apply Ho|by right].
  - intros q. destruct (K3 q) as [?|(id & rest & Eo & ?)]; [by left|]. right. exists id, rest. split; [by apply Ho|done].
Qed.

(** C28. Every loaded update has its place.  The first update of a queue that was
    loaded is either scheduled, once and at its time; or in flight, on exactly one
    connection; or its request does not fit in the buffer of the header.  A busy
    connection carries the first update of a queue, and the updates behind it
    wait: at most one update of a queue is on its way. *)
Theorem webhook_places (cfg : config) (env : environment) (s : actor T) :
  sound cfg env -> reached cfg env s -> stopped s = false ->
  NoDup (q_id <$> queues s) /\ StronglySorted queue_lt (queues s)
  /\ (forall q, is_Some (queue_updates s !! q) -> exists u, first_update s q = Some u
       /\ ((new_queue (wakeup_at_ u) q ∈ queues s /\ ~ in_flight s (id_ u))
           \/ (in_flight s (id_ u) /\ ~ scheduled s q)
           \/ (too_long cfg u /\ ~ scheduled s q /\ ~ in_flight s (id_ u))))
  /\ (forall cid c, conn s cid c -> event_id_ c <> 0 -> exists u, id_ u = event_id_ c /\ first_update s (queue_id_ u) = Some u
       /\ (forall cid' c', conn s cid' c' -> event_id_ c' = event_id_ c -> cid' = cid))
  /\ (forall cid, cid ∈ ready_connections s <-> exists c, conn s cid c /\ event_id_ c = 0).
Proof.
  intros H Hr Hs. destruct (run_wf cfg env H s Hr Hs) as [lost W]. pose proof W as (live & plive & last & Wat).
  pose proof (wf_delivers _ _ _ _ _ _ _ Wat) as D. split; [by apply D|]. split; [by apply D|]. split; [|split].
  - intros q Hq. destruct (loaded_place cfg env lost s q W Hq) as [u Hf]. exists u. split; [done|].
    destruct (every_place cfg env lost s q u W Hf) as [Hsc|[(cid & c & Hc & E)|[id Hl]]].
    + left. destruct (scheduled_place cfg env lost s q u W Hf Hsc) as (? & ? & _). done.
    + right; left. split; [by exists cid, c|]. intros Hsc. destruct (scheduled_place cfg env lost s q u W Hf Hsc) as (_ & Hn & _).
      apply Hn. by exists cid, c.
    + right; right. destruct (lost_place cfg env lost s q id W Hl) as (u' & <- & Hf' & ? & ? & ?). rewrite Hf in Hf'. by injection Hf' as <-.
  - intros cid c Hc Hn. destruct (flight_place cfg env lost s cid c W Hc Hn) as (u & ? & ? & _ & _ & ?). by exists u.
  - intros cid. rewrite (dl_ready_elem _ _ _ _ _ _ _ _ D). split; intros (c & Hc & ?); exists c; (split; [|done]); by apply (conn_live _ _ _ _ _ _ _ _ _ Wat).
Qed.

(** C31. Limits of a webhook.  The connections, the sockets on their way through a
    proxy and the sockets that are ready are never more than [max_connections],
    and no more than twice as many queues are loaded (as long as fewer than 2^22
    connections were opened, after which slots of the container wear out). *)
Theorem webhook_limits (cfg : config) (env : environment) (s : actor T) :
  sound cfg env -> reached cfg env s -> stopped s = false ->
  Z.of_nat (base.size (opened (out s))) < 2 ^ 22 -> Z.of_nat (base.size (proxied (out s))) < 2 ^ 22 ->
  Container.size (connections s) + Container.size (pending_sockets s) + len (ready_sockets s) <= max_connections cfg
  /\ Z.of_nat (base.size (queue_updates s)) <= 2 * max_connections cfg
  /\ Z.of_nat (length (ready_connections s)) <= Container.size (connections s).
Proof.
  intros H Hr Hs Ho Hp. destruct (run_wf cfg env H s Hr Hs) as (lost & live & plive & last & [D [S1 S2 S3] R _]).
  rewrite (held_size_eq _ _ _ _ S1 Ho), (held_size_eq _ _ _ _ S2 Hp). split; [done|]. split; [by apply R|].
  rewrite <- (size_list_to_set (C := gset Z)) by apply D. rewrite <- size_dom. apply inj_le, subseteq_size.
  intros cid Hcid%elem_of_list_to_set. destruct (proj1 (dl_ready_elem _ _ _ _ _ _ _ _ D cid) Hcid) as (c & Hc & _).
  by apply elem_of_dom.
Qed.

(** C30. A request that does not fit stops its queue for ever.  When the first
    update of a loaded queue is neither scheduled nor in flight, its request does
    not fit in the 4096 bytes of [HttpHeaderCreator]; in every state that follows
    it is still the first of its queue and nowhere else, so it and everything
    behind it is never sent again. *)
Theorem webhook_long_url_lost (cfg : config) (env : environment) (s s' : actor T) (q : Z) (u : update) :
  sound cfg env -> reached cfg env s -> stopped s = false ->
  first_update s q = Some u -> ~ scheduled s q -> ~ in_flight s (id_ u) ->
  later cfg env s s' -> stopped s' = false ->
  too_long cfg u /\ exists u', first_update s' q = Some u' /\ id_ u' = id_ u /\ ~ scheduled s' q /\ ~ in_flight s' (id_ u).
Proof.
  intros H Hr Hs Hf Hn1 Hn2 Hl Hs'. destruct (run_wf cfg env H s Hr Hs) as [lost W].
  destruct (every_place cfg env lost s q u W Hf) as [?|[?|[id Hq]]]; [done..|].
  destruct (lost_place cfg env lost s q id W Hq) as (v & Ei & Hf' & Ht & _). rewrite Hf in Hf'. injection Hf' as <-. subst id.
  split; [done|]. destruct (later_wf cfg env H lost s s' W Hl Hs') as (lost' & Hsub & W').
  destruct (lost_place cfg env lost' s' q (id_ u) W') as (u' & ? & ? & _ & ? & ?); [by eapply lookup_weaken|]. by exists u'.
Qed.

End Properties.

(** ** Samples *)

Section Samples.
Existing Instance Queues.memory_storage_ops.
#[local] Notation state := (actor (Queues.tqueue Queues.memory_storage)).

Definition sample_url (query : bytes) : Url.http_url := Url.mk_url Url.Https [] (lit "example.com") false 0 443 query.
Definition sample_config (query : bytes) : config := mk_config 7 (sample_url query) (lit "example.com") [] false false 2 [] false Invalid.
Definition sample_env : environment := mk_environment (fun n => inject_Z (Z.of_nat n)) (fun _ => 0%Q) (fun _ a _ => a)
  (fun n _ => Ok (Z.of_nat n)) (fun _ _ _ => Ok tt) st_message (fun _ => lit "1.2.3.4").

(** One update of a queue of its own, and two of one queue. *)
Definition sample_updates : Queues.tqueue Queues.memory_storage := default Queues.create (run_ops sample_start
  [Push 7 (lit "a") 100 0 0 2000001; Push 7 (lit "b") 100 5 0 2000001; Push 7 (lit "c") 100 5 0 2000001]).

Definition sample_first (query : bytes) : state :=
  let s := create sample_updates (Query.mk_shared 0 0) 0 0 Invalid in default s (start_up (sample_config query) sample_env s).
Definition sample_run (s : state) (query : bytes) (l : list (event (Queues.tqueue Queues.memory_storage))) : state :=
  foldl (fun s e => default s (step (sample_config query) sample_env s e)) s l.

Definition sample_ready : list (event (Queues.tqueue Queues.memory_storage)) :=
  [Retry; Resolved (Ok (V4 (ipv4 8 8 8 8) 443)); SslContextCreated (Ok tt)].
Definition sample_answer : http_query := mk_http_query [] ResponseType 200 [] [] [] true [] [] [] Invalid.
Definition sample_busy : state := sample_run (sample_first (lit "/hook")) (lit "/hook") sample_ready.

Lemma sample_sound query : sound (sample_config query) sample_env.
Proof. split; [|vm_compute; discriminate|by split]. intros n. cbn. rewrite <- Zle_Qle. lia. Qed.

Lemma sample_source_ok : source_ok sample_updates.
Proof.
  apply TQueue.reached_wf, (run_reached sample_start _ [Push 7 (lit "a") 100 0 0 2000001; Push 7 (lit "b") 100 5 0 2000001; Push 7 (lit "c") 100 5 0 2000001]).
  - apply TQueue.reached_storage; [|done]. repeat split; constructor.
  - vm_compute. repeat split; try done; by left.
  - vm_compute. reflexivity.
Qed.

Lemma sample_first_reached query : reached (sample_config query) sample_env (sample_first query).
Proof.
  destruct (start_ok _ _ (sample_sound query) sample_updates (Query.mk_shared 0 0) 0 0 Invalid sample_source_ok) as (s & E & _).
  unfold sample_first. rewrite E. by eapply reached_start; [apply sample_source_ok|].
Qed.

Lemma sample_run_reached s query e : reached (sample_config query) sample_env s -> allowed s e ->
  reached (sample_config query) sample_env (default s (step (sample_config query) sample_env s e)).
Proof.
  intros Hr Ha. destruct (run_wf _ _ (sample_sound query) s Hr (proj1 Ha)) as [lost W].
  destruct (step_ok _ _ (sample_sound query) lost s e W Ha) as (s' & E & _). rewrite E. by eapply reached_step.
Qed.

Lemma sample_run_later s query e : reached (sample_config query) sample_env s -> allowed s e ->
  later (sample_config query) sample_env s (sample_run s query [e]).
Proof.
  intros Hr Ha. destruct (run_wf _ _ (sample_sound query) s Hr (proj1 Ha)) as [lost W].
  destruct (step_ok _ _ (sample_sound query) lost s e W Ha) as (s' & E & _). cbn. rewrite E. eapply later_step; [apply later_refl|done|done].
Qed.

Lemma sample_busy_reached : reached (sample_config (lit "/hook")) sample_env sample_busy.
Proof.
  unfold sample_busy, sample_ready. unfold sample_run; cbn [foldl].
  apply sample_run_reached; [apply sample_run_reached; [apply sample_run_reached; [apply sample_first_reached|]|]|].
  all: vm_compute; repeat split.
Qed.

(** The text of the URL is longer than the buffer of the header. *)
Definition sample_long : bytes := lit "/" ++ replicate 5000 "a"%char.
Definition sample_lost : state := sample_run (sample_first sample_long) sample_long sample_ready.

Lemma sample_lost_reached : reached (sample_config sample_long) sample_env sample_lost.
Proof.
  unfold sample_lost, sample_ready. unfold sample_run; cbn [foldl].
  apply sample_run_reached; [apply sample_run_reached; [apply sample_run_reached; [apply sample_first_reached|]|]|].
  all: vm_compute; repeat split.
Qed.

Lemma sample_answer_allowed : allowed sample_busy (Response 256 sample_answer).
Proof. vm_compute. repeat split. intros c [= <-]. discriminate. Qed.

Lemma webhook_checks_witness : is_Some (step (sample_config (lit "/hook")) sample_env sample_busy (Response 256 sample_answer)).
Proof.
  apply (webhook_checks _ _ (sample_sound _)); [apply sample_busy_reached|apply sample_answer_allowed].
Defined.

(** The update 2000002 was accepted, the other two are still there. *)
Lemma webhook_keeps_updates_witness : exists s', step (sample_config (lit "/hook")) sample_env sample_busy (Response 256 sample_answer) = Some s'
  /\ update_map s' !! 2000002 = None /\ is_Some (update_map s' !! 2000001) /\ is_Some (update_map s' !! 2000003)
  /\ (forall id u, update_map sample_busy !! id = Some u -> event_forgets sample_env sample_busy (Response 256 sample_answer) id
        \/ exists u', update_map s' !! id = Some u' /\ id_ u' = id_ u /\ json_ u' = json_ u /\ expires_at_ u' = expires_at_ u
             /\ queue_id_ u' = queue_id_ u).
Proof.
  set (f := step _ _ _ _). assert (E : exists s', f = Some s') by (apply (webhook_checks _ _ (sample_sound _)); [apply sample_busy_reached|apply sample_answer_allowed]).
  destruct E as [s' E]. exists s'. split; [exact E|].
  assert (Ev : (fun s => (update_map s !! 2000002, bool_decide (is_Some (update_map s !! 2000001)), bool_decide (is_Some (update_map s !! 2000003)))) <$> f = Some (None, true, true))
    by (vm_compute; reflexivity).
  rewrite E in Ev. injection Ev as E1 E2 E3. split; [exact E1|].
  split; [by apply bool_decide_eq_true in E2|]. split; [by apply bool_decide_eq_true in E3|].
  apply (webhook_keeps_updates (sample_config (lit "/hook")) sample_env sample_busy s' (Response 256 sample_answer));
    [apply sample_sound|apply sample_busy_reached|apply sample_answer_allowed|discriminate|exact E].
Defined.

Lemma webhook_places_witness : exists u, first_update sample_busy 5 = Some u
  /\ ((new_queue (wakeup_at_ u) 5 ∈ queues sample_busy /\ ~ in_flight sample_busy (id_ u))
      \/ (in_flight sample_busy (id_ u) /\ ~ scheduled sample_busy 5)
      \/ (too_long (sample_config (lit "/hook")) u /\ ~ scheduled sample_busy 5 /\ ~ in_flight sample_busy (id_ u))).
Proof.
  apply (webhook_places (sample_config (lit "/hook")) sample_env sample_busy); [apply sample_sound|apply sample_busy_reached|reflexivity|].
  vm_compute. by eexists.
Defined.

Lemma webhook_limits_witness : Container.size (connections sample_busy) = 1
  /\ Container.size (connections sample_busy) + Container.size (pending_sockets sample_busy) + len (ready_sockets sample_busy) <= 2.
Proof.
  split; [reflexivity|].
  apply (webhook_limits (sample_config (lit "/hook")) sample_env sample_busy); [apply sample_sound|apply sample_busy_reached|reflexivity|reflexivity..].
Defined.

(** The first update of the queue 5 does not fit, and the connection is free. *)
Lemma sample_lost_facts : stopped sample_lost = false /\ stopped (sample_run sample_lost sample_long [Retry]) = false
  /\ id_ <$> first_update sample_lost 5 = Some 2000002 /\ ~ scheduled sample_lost 5.
Proof.
  split; [vm_compute; reflexivity|]. split; [vm_compute; reflexivity|]. split; [vm_compute; reflexivity|].
  assert (E : q_id <$> queues sample_lost = [2 ^ 60]) by (vm_compute; reflexivity). unfold scheduled. rewrite E.
  by intros ?%list_elem_of_singleton.
Qed.

Lemma sample_lost_opened : omap (fun e => match e with OpenConnection id _ => Some id | _ => None end) (out sample_lost) = [256].
Proof. vm_compute. reflexivity. Qed.

Lemma sample_lost_event : event_id_ <$> Container.get (connections sample_lost) 256 = Some 0.
Proof. vm_compute. reflexivity. Qed.

Lemma free_flight (s : state) id cid : omap (fun e => match e with OpenConnection id _ => Some id | _ => None end) (out s) = [cid] ->
  event_id_ <$> Container.get (connections s) cid = Some 0 -> id <> 0 -> ~ in_flight s id.
Proof.
  intros E1 E2 Hid (cid' & c & [Hi Hc] & E). unfold opened in Hi. rewrite E1 in Hi. apply elem_of_list_to_set, list_elem_of_singleton in Hi as ->.
  rewrite Hc in E2. injection E2 as E2. congruence.
Qed.

Lemma sample_lost_free : ~ in_flight sample_lost 2000002.
Proof. apply (free_flight _ _ 256 sample_lost_opened sample_lost_event). discriminate. Qed.

(** The request of 2000002 does not fit: it is not sent after the next loop either. *)
Lemma webhook_long_url_lost_witness : exists u u', first_update sample_lost 5 = Some u /\ id_ u = 2000002 /\ too_long (sample_config sample_long) u
  /\ first_update (sample_run sample_lost sample_long [Retry]) 5 = Some u' /\ id_ u' = id_ u
  /\ ~ in_flight (sample_run sample_lost sample_long [Retry]) (id_ u).
Proof.
  destruct sample_lost_facts as (E1 & E2 & E3 & Hn). destruct (first_update sample_lost 5) as [u|] eqn:Hu; [|discriminate E3].
  injection E3 as Ei.
  destruct (webhook_long_url_lost (sample_config sample_long) sample_env sample_lost (sample_run sample_lost sample_long [Retry]) 5 u)
    as (Ht & u' & Hu' & Ei' & _ & Hf).
  - apply sample_sound.
  - apply sample_lost_reached.
  - exact E1.
  - exact Hu.
  - exact Hn.
  - rewrite Ei. apply sample_lost_free.
  - apply (sample_run_later sample_lost sample_long Retry); [apply sample_lost_reached|by split].
  - exact E2.
  - exists u, u'. by split_and!.
Defined.

End Samples.
