(* ===== verification/WebhookLiveness.v ===== *)
(** * What a webhook waits for

    Module [Waits]: how the steps of the loop of [WebhookActor.v] move the time of
    its next wakeup, and that a loop never ends with a scheduled update and
    nothing that will run it again, but for the cases that the theorem names. *)

From Stdlib Require Import Qround.
From S2P Require Import Prelude TdMisc Utf8 Json HttpHeader IPAddress Query HttpConnection HttpUrl Base64 Containers TQueue WebhookActor WebhookDelivery WebhookInvariant WebhookProperties.

Import Webhook Source VectorQueue VectorQueueFacts Delivery Laws ContainerMap Held FloodFacts Invariant Runs.

Module Waits.

(** *** Sizes of containers *)

Lemma create_size {D} (c : Container.container D) d type id c' : Container.create c d type = Some (id, c') ->
  Container.size c' = Container.size c + 1.
Proof.
  unfold Container.create, Container.store, Container.size. destruct (last (Container.empty_slots c)) as [pos|] eqn:El.
  - cbn [mbind option_bind]. destruct (Container.encode_id _ _); [|done]. intros [= _ <-]. cbn.
    apply last_Some in El as [l El]. unfold len. rewrite length_alter, length_take, El, length_app. cbn. lia.
  - apply last_None in El. rewrite El. destruct (_ <=? _); [|done]. cbn [mbind option_bind].
    destruct (Container.encode_id _ _); [|done]. intros [= _ <-]. cbn. rewrite len_app, len_cons. change (len (@nil (Container.slot D))) with 0. cbn. lia.
Qed.

Lemma modify_size {D} (c : Container.container D) id f c' : Container.modify c id f = Some c' -> Container.size c' = Container.size c.
Proof.
  unfold Container.modify, Container.size. destruct (Container.decode_id c id); [|done]. intros [= <-]. cbn. unfold len. by rewrite length_alter.
Qed.

(** A step that touches none of the members of a frame. *)
Ltac frame := split; first [done | let H := fresh in intros H; exact H | let H := fresh in intros ? H; exact H].

Section Actor.
Context {T : Type} `{!update_source T}.
Context (cfg : config) (env : environment).
Implicit Types s : actor T.

(** The actor wakes up at some time, not after [t]. *)
Definition armed s (t : time) : Prop := (0 < wakeup_at s)%Q /\ (wakeup_at s <= t)%Q.

(** What every step of the loop respects. *)
Record framed s s' : Prop := {
  fm_stop : stop_flag s' = false -> stop_flag s = false;
  fm_ip : ip_address_ s' = ip_address_ s;
  fm_ssl : ssl_ctx s' = ssl_ctx s;
  fm_resolved : is_ip_address_being_resolved s = true -> is_ip_address_being_resolved s' = true;
  fm_timed : (0 <= wakeup_at s)%Q -> (0 <= wakeup_at s')%Q;
  fm_armed t : armed s t -> armed s' t }.

#[export] Instance framed_preorder : PreOrder framed.
Proof. split; [by intros s; split|]. intros s1 s2 s3 [A1 A2 A3 A4 A5 A6] [B1 B2 B3 B4 B5 B6]. split; [auto|congruence|congruence|auto..]. Qed.

Lemma relax_armed s at_ : (0 < at_)%Q -> (0 <= wakeup_at s)%Q -> armed (relax_wakeup_at s at_) at_.
Proof.
  intros H Hs. unfold relax_wakeup_at, armed. destruct (Qeq_bool (wakeup_at s) 0) eqn:E; cbn [orb]; [cbn; lra|].
  destruct (qltb_spec at_ (wakeup_at s)) as [Hl|Hl]; [cbn; lra|].
  assert (~ wakeup_at s == 0)%Q by (intros Hq; apply Qeq_bool_iff in Hq; congruence). lra.
Qed.

Lemma framed_relax s at_ : (0 < at_)%Q -> framed s (relax_wakeup_at s at_).
Proof.
  intros H. unfold relax_wakeup_at. destruct (Qeq_bool (wakeup_at s) 0) eqn:E; cbn [orb].
  - apply Qeq_bool_eq in E. split; try done; unfold armed; cbn; intros; lra.
  - destruct (qltb_spec at_ (wakeup_at s)) as [Hl|Hl]; [|done]. split; try done; unfold armed; cbn; intros; lra.
Qed.

(** *** Steps that only keep the frame *)

Lemma framed_emit s e : framed s (emit s e).
Proof. by split. Qed.

Lemma framed_notify s e : framed s (notify s e).
Proof. unfold notify. by destruct (callback_ s). Qed.

Lemma framed_webhook_error s e : framed s (on_webhook_error env s e).
Proof.
  unfold on_webhook_error. destruct (was_checked s); [|done]. cbn [time_now ask]. etransitivity; [apply framed_notify|]. frame.
Qed.

Lemma framed_on_error s e s' : on_error s e = Some s' -> framed s s'.
Proof.
  unfold on_error. destruct (_ && _); [|by intros [= <-]]. destruct (callback_ s); [|done]. by intros [= <-]; frame.
Qed.

Lemma framed_create_error s m e public s' : create_webhook_error env s m e public = Some s' -> framed s s'.
Proof. intros H. unfold create_webhook_error in H. apply framed_on_error in H. etransitivity; [apply framed_webhook_error|exact H]. Qed.

Lemma framed_verify s : framed s (verify env s).
Proof. unfold verify. destruct (was_checked s); [done|]. transitivity (set_was_checked s true); [frame|apply framed_notify]. Qed.

Lemma framed_ssl s ok s' : create_ssl_stream cfg env s = Some (ok, s') -> framed s s'.
Proof.
  unfold create_ssl_stream. destruct (bool_decide _); [by intros [= _ <-]|]. destruct (ssl_ctx s) eqn:Es; [|done]. cbn [ask].
  destruct (ssl_stream env _ _ _); [by intros [= _ <-]; frame|]. destruct (create_webhook_error _ _ _ _ _) as [s1|] eqn:E; [|done].
  intros [= _ <-]. apply framed_create_error in E. etransitivity; [|exact E]. frame.
Qed.

(** The connections and sockets that count. *)
Definition used s : Z := Container.size (connections s) + Container.size (pending_sockets s).

(** These steps leave the connections alone. *)
Definition pools s := (connections s, pending_sockets s, ready_sockets s).

Lemma pools_used s s' : pools s' = pools s -> used s' = used s /\ ready_sockets s' = ready_sockets s.
Proof. unfold pools, used. intros [= -> -> ->]. done. Qed.

Lemma pools_notify s e : pools (notify s e) = pools s.
Proof. unfold notify. by destruct (callback_ s). Qed.

Lemma pools_webhook_error s e : pools (on_webhook_error env s e) = pools s.
Proof. unfold on_webhook_error. destruct (was_checked s); [|done]. etransitivity; [|apply pools_notify]. done. Qed.

Lemma pools_on_error s e s' : on_error s e = Some s' -> pools s' = pools s.
Proof. unfold on_error. destruct (_ && _); [|by intros [= <-]]. destruct (callback_ s); [|done]. by intros [= <-]. Qed.

Lemma pools_create_error s m e public s' : create_webhook_error env s m e public = Some s' -> pools s' = pools s.
Proof. intros H. unfold create_webhook_error in H. apply pools_on_error in H. by rewrite H, pools_webhook_error. Qed.

Lemma pools_verify s : pools (verify env s) = pools s.
Proof. unfold verify. destruct (was_checked s); [done|]. etransitivity; [apply pools_notify|done]. Qed.

Lemma pools_relax s at_ : pools (relax_wakeup_at s at_) = pools s.
Proof. unfold relax_wakeup_at. by destruct (_ || _). Qed.

Lemma pools_ssl s ok s' : create_ssl_stream cfg env s = Some (ok, s') -> pools s' = pools s.
Proof.
  unfold create_ssl_stream. destruct (bool_decide _); [by intros [= _ <-]|]. destruct (ssl_ctx s) eqn:Es; [|done]. cbn [ask].
  destruct (ssl_stream env _ _ _); [by intros [= _ <-]|]. destruct (create_webhook_error _ _ _ _ _) as [s1|] eqn:E; [|done].
  intros [= _ <-]. by apply pools_create_error in E.
Qed.

Lemma fd_used s fd ok s' : create_connection_fd cfg env s fd = Some (ok, s') ->
  framed s s' /\ ready_sockets s' = ready_sockets s /\ (ok = true -> used s' = used s + 1).
Proof.
  unfold create_connection_fd. destruct (create_ssl_stream cfg env s) as [[ok1 s1]|] eqn:E1; [|done]. cbn [mbind option_bind].
  pose proof (framed_ssl _ _ _ E1) as F1. apply pools_ssl, pools_used in E1 as [U1 R1]. destruct ok1; cbn [negb].
  2:{ intros [= <- <-]. by split_and!. }
  destruct (Container.create _ _ _) as [[id c]|] eqn:E2; [|done]. cbn [mbind option_bind].
  destruct (Container.modify c id _) as [c'|] eqn:E3; [|done]. cbn [mbind option_bind]. set (s2 := set_total_connection_count _ _).
  intros [= <- <-]. apply create_size in E2. apply modify_size in E3. pose proof (pools_verify s2) as [U2 R2]%pools_used.
  split; [|split].
  - transitivity s1; [done|]. transitivity s2; [frame|apply framed_verify].
  - by rewrite R2.
  - intros _. rewrite U2, <- U1. unfold used. cbn. lia.
Qed.

Lemma connection_used s ok s' : create_connection cfg env s = Some (ok, s') ->
  framed s s' /\ ready_sockets s' = ready_sockets s /\ (ok = true -> used s' = used s + 1).
Proof.
  unfold create_connection. destruct (negb _); [done|]. cbn [ask]. set (s1 := set_ticks _ _).
  assert (Hfail : forall m e, (s ← create_webhook_error env s1 m e false; Some (false, s)) = Some (ok, s') ->
    framed s s' /\ ready_sockets s' = ready_sockets s /\ (ok = true -> used s' = used s + 1)).
  { intros m e. destruct (create_webhook_error _ _ _ _ _) as [s2|] eqn:E; [|done]. intros [= <- <-].
    pose proof (framed_create_error _ _ _ _ _ E). apply pools_create_error, pools_used in E as [_ E]. split; [|frame].
    transitivity s1; [frame|done]. }
  destruct (is_valid _).
  - destruct (open_socket env _ _); [|apply Hfail]. destruct (Container.create _ _ _) as [[id c]|]; [|done]. cbn [mbind option_bind].
    intros [= <- <-]. split; [|split; [|done]].
    + transitivity s1; [frame|]. transitivity (verify env s1); [apply framed_verify|frame].
    + by apply (pools_used s1 (verify env s1)), pools_verify.
  - destruct (open_socket env _ _); [|apply Hfail]. intros H%fd_used. destruct H as (F & R & U). split; [|split; [exact R|exact U]].
    transitivity s1; [frame|done].
Qed.

(** *** The loops *)

Lemma open_used active now need fuel : forall s go s', (0 <= now)%Q -> (0 <= wakeup_at s)%Q ->
  open_connections cfg env fuel active now need s = Some (go, s') ->
  framed s s' /\ ((exists t, armed s' t) \/ (go = true /\ need <= used s' + len (ready_sockets s'))).
Proof.
  induction fuel as [|fuel IH]; intros s go s' Hnow Hw; [done|]. cbn [open_connections]. fold (used s).
  destruct (Z.ltb_spec (used s + len (ready_sockets s)) need) as [Hlt|]; [|intros [= <- <-]; split; [done|by right]].
  set (flood := if active then _ else _). destruct (qltb_spec now (Flood.get_wakeup_at flood)) as [Hf|_].
  { intros [= <- <-]. split; [apply framed_relax; lra|]. left. eexists. apply relax_armed; [lra|done]. }
  destruct (Flood.add_event _ _) as [flood'|]; [|done]. cbn [mbind option_bind].
  set (s1 := if active then set_active_new_connection_flood s flood' else set_pending_new_connection_flood s flood').
  assert (F1 : framed s s1) by (subst s1; destruct active; frame).
  destruct (create_connection cfg env s1) as [[ok s2]|] eqn:E; [|done]. cbn [mbind option_bind]. apply connection_used in E as (F2 & _ & _).
  assert (F : framed s s2) by by transitivity s1. destruct ok; cbn [negb].
  - intros H. apply IH in H as [F3 Hr]; [|done|by apply F]. split; [by transitivity s2|done].
  - intros [= <- <-]. split; [transitivity s2; [done|apply framed_relax; lra]|]. left. eexists. apply relax_armed; [lra|by apply F].
Qed.

Lemma use_used now need fuel : forall s s', (0 <= now)%Q -> (0 <= wakeup_at s)%Q -> use_sockets cfg env fuel now need s = Some s' ->
  framed s s' /\ (need <= used s + len (ready_sockets s) -> (exists t, armed s' t) \/ need <= used s').
Proof.
  induction fuel as [|fuel IH]; intros s s' Hnow Hw; [done|]. cbn [use_sockets]. fold (used s).
  destruct (last (ready_sockets s)) as [fd|] eqn:El.
  2:{ apply last_None in El. intros [= <-]. split; [done|]. rewrite El. change (len (@nil Z)) with 0. intros ?. right. lia. }
  destruct (Z.ltb_spec (used s) need) as [Hlt|]; [|intros [= <-]; split; [done|by right]].
  apply last_Some in El as [l El]. set (s1 := set_ready_sockets s _).
  assert (Hlen : len (ready_sockets s1) = len (ready_sockets s) - 1).
  { subst s1. cbn. rewrite El. unfold len. rewrite length_take, length_app. cbn. lia. }
  assert (F1 : framed s s1) by frame.
  destruct (create_connection_fd cfg env s1 fd) as [[ok s2]|] eqn:E; [|done]. cbn [mbind option_bind]. apply fd_used in E as (F2 & R & U).
  assert (F : framed s s2) by by transitivity s1. destruct ok; cbn [negb].
  - intros H. apply IH in H as [F3 Hr]; [|done|by apply F]. split; [by transitivity s2|]. intros Hn. apply Hr. rewrite R, Hlen, U by done.
    change (used s1) with (used s). lia.
  - intros [= <-]. split; [transitivity s2; [done|apply framed_relax; lra]|]. intros _. left. eexists. apply relax_armed; [lra|by apply F].
Qed.

Context (Hnow : forall n, (0 <= clock env n)%Q).

Definition ssl_missing s : Prop := Url.protocol_ (url_ cfg) <> Url.Http /\ ssl_ctx s = false.

Lemma needed_pos s now need active : 0 < max_connections cfg -> queue_updates s <> ∅ -> needed_connections cfg s now = (need, active) -> 1 <= need.
Proof.
  intros HM Hq. unfold needed_connections. assert (0 < Z.of_nat (base.size (queue_updates s))) as Hs.
  { destruct (decide (base.size (queue_updates s) = 0%nat)) as [E%map_size_empty_inv|]; [done|lia]. }
  destruct (qltb _ _), (was_checked s); cbn [negb]; intros E;
    repeat match type of E with context [if ?b then _ else _] => destruct b eqn:? end; injection E as <- <-; lia.
Qed.

Lemma create_used s s' : 0 < max_connections cfg -> (0 <= wakeup_at s)%Q -> create_new_connections cfg env s = Some s' ->
  framed s s' /\ (queue_updates s <> ∅ -> is_valid (ip_address_ s) = false \/ ssl_missing s \/ (exists t, armed s' t) \/ 1 <= used s').
Proof using Hnow.
  intros HM Hw. unfold create_new_connections. destruct (is_valid _); cbn [negb]; [|intros [= <-]; split; [done|by left]].
  destruct (negb _ && _) eqn:Es.
  { intros [= <-]. split; [done|]. right; left. apply andb_true_iff in Es as [Es1%negb_true_iff%bool_decide_eq_false Es2%negb_true_iff]. by split. }
  cbn [time_now ask]. set (s1 := set_ticks s _). assert (F1 : framed s s1) by frame.
  destruct (needed_connections cfg s1 (clock env (ticks s))) as [need active] eqn:En.
  destruct (open_connections _ _ _ _ _ _ _) as [[go s2]|] eqn:E2; [|done]. cbn [mbind option_bind].
  apply open_used in E2 as [F2 H2]; [|apply Hnow|done]. assert (F : framed s s2) by by transitivity s1.
  destruct go; cbn [negb]; [|intros [= <-]; split; [done|]; destruct H2 as [?|[? _]]; [by right; right; left|done]].
  destruct (use_sockets _ _ _ _ _ _) as [s3|] eqn:E3; [|done]. cbn [mbind option_bind]. apply use_used in E3 as [F3 H3]; [|apply Hnow|by apply F].
  intros [= <-]. split; [transitivity s2; [done|]; transitivity s3; [done|frame]|]. intros Hq. right; right. apply needed_pos in En; [|done..].
  destruct H2 as [[t Ht]|[_ Hn]]; [left; exists t; by apply F3|]. destruct (H3 Hn) as [?|?]; [by left|]. right.
  change (used (set_ready_sockets s3 [])) with (used s3). lia.
Qed.

Lemma resolve_waits s : (0 <= wakeup_at s)%Q ->
  let s' := resolve_ip_address cfg env s in
  framed s s' /\ queue_updates s' = queue_updates s
  /\ (fix_ip_address cfg = true \/ is_ip_address_being_resolved s' = true \/ exists t, armed s' t).
Proof using Hnow.
  intros Hw. unfold resolve_ip_address. destruct (fix_ip_address cfg) eqn:Ef; cbn [orb]; [split; [done|split; [done|by left]]|].
  destruct (is_ip_address_being_resolved s) eqn:Er; [split; [done|split; [done|right; by left]]|]. cbn [time_now ask].
  destruct (qltb_spec (clock env (ticks s)) (next_ip_address_resolve_time (set_ticks s (S (ticks s))))) as [Hl|Hl].
  - pose proof (Hnow (ticks s)). set (s1 := set_ticks s _) in *. split; [|split].
    + transitivity s1; [frame|apply framed_relax; lra].
    + unfold relax_wakeup_at. by destruct (_ || _).
    + right; right. eexists. apply relax_armed; [lra|done].
  - split; [|split; [done|right; by left]]. split; first [done|intros H; exact H|intros t H; exact H].
Qed.

(** *** Loading and sending *)

(** What they do not read or write. *)
Definition flags s := (stop_flag s, ip_address_ s, ssl_ctx s, is_ip_address_being_resolved s, wakeup_at s).

Lemma flags_framed s s' : flags s' = flags s -> framed s s'.
Proof. unfold flags. intros [= E1 E2 E3 E4 E5]. unfold armed. split; unfold armed; congruence. Qed.

Lemma load_update_flags now unix s u s' : load_update now unix s u = Some s' -> flags s' = flags s.
Proof.
  unfold load_update. destruct (negb _); [done|]. destruct (update_map s !! _); [by intros [= <-]|]. destruct (negb _); [done|].
  destruct (Queues.next _); [|done]. cbn [Queues.ok_value mbind option_bind]. destruct (_ =? 0); cbn [update_map queue_updates set_unique_queue_id set_tqueue_offset];
    destruct (empty _); by intros [= <-].
Qed.

Lemma load_all_flags now unix l : forall s s', load_all now unix s l = Some s' -> flags s' = flags s.
Proof.
  induction l as [|u l IH]; intros s s'; cbn [load_all]; [by intros [= <-]|].
  destruct (load_update now unix s u) as [s1|] eqn:E; [|done]. cbn [mbind option_bind]. intros ->%IH. by apply load_update_flags in E.
Qed.

Lemma load_flags s s' : load_updates cfg env s = Some s' -> flags s' = flags s.
Proof.
  unfold load_updates. destruct (tqueue_empty s); [by intros [= <-]|]. destruct (_ <=? _); [destruct (_ =? _); [by intros [= <-]|done]|].
  set (s1 := if Queues.is_empty _ then _ else s). assert (E1 : flags s1 = flags s) by (subst s1; by destruct (Queues.is_empty _)). clearbody s1.
  cbn [time_now ask unix_time]. set (s2 := set_ticks _ _). assert (E2 : flags s2 = flags s1) by done.
  match goal with |- context [fetch ?a ?b ?c ?d] => destruct (fetch a b c d) as [[[total l] s3]|] eqn:Ef end; [|done]. cbn [mbind option_bind].
  assert (E3 : flags s3 = flags s2).
  { revert Ef. unfold fetch. cbv zeta. destruct (Queues.is_empty _); [by intros E; injection E; intros <- _ _|].
    destruct (source_get _ _ _ _ _) as [[[r l1] t]|]; [|done]. cbn [mbind option_bind]. destruct r; [by intros E; injection E; intros <- _ _|].
    destruct (source_get _ _ _ _ _) as [[[r l2] t2]|]; [|done]. cbn [mbind option_bind]. destruct (Queues.ok_value r); [|done].
    by intros E; injection E; intros <- _ _. }
  set (s4 := if bool_decide (l = []) then _ else s3). assert (E4 : flags s4 = flags s3) by (subst s4; by case_bool_decide).
  destruct (load_all _ _ s4 l) as [s5|] eqn:E5; [|done]. cbn [mbind option_bind]. apply load_all_flags in E5.
  destruct (pending_update_count _ _); [|done]. cbn [mbind option_bind]. set (s6 := set_last_pending_update_count _ _).
  assert (E6 : flags s6 = flags s5) by done. intros [= <-].
  destruct (_ && _); [unfold notify; destruct (callback_ s6)|]; unfold flags in *; cbn; congruence.
Qed.

Lemma send_update_waits s r s' : (0 <= wakeup_at s)%Q -> send_update cfg env s = (Some r, s') ->
  framed s s' /\ used s' = used s /\ queue_updates s' = queue_updates s
  /\ match r with
     | inl NoConnection => ready_connections s' = []
     | inl NoPendingUpdates => queues s' = []
     | inl NoReadyUpdates => exists k l, queues s' = k :: l /\ armed s' (q_wakeup_at k)
     | _ => True
     end.
Proof using Hnow.
  intros Hw. unfold send_update. destruct (last (ready_connections s)) as [cid|] eqn:El.
  2:{ apply last_None in El. intros [= <- <-]. by split_and!. }
  destruct (queues s) as [|k l] eqn:Eq; [intros [= <- <-]; by split_and!|]. cbn [time_now ask]. set (s1 := set_ticks s _).
  assert (F1 : framed s s1) by frame. destruct (qltb_spec (clock env (ticks s)) (q_wakeup_at k)) as [Hl|_].
  { pose proof (Hnow (ticks s)). intros [= <- <-]. split; [|split].
    - transitivity s1; [done|apply framed_relax; lra].
    - apply (pools_used s1), pools_relax.
    - split; [unfold relax_wakeup_at; by destruct (_ || _)|].
      exists k, l. split; [unfold relax_wakeup_at; by destruct (_ || _)|]. apply relax_armed; [lra|done]. }
  set (s2 := set_queues s1 l). destruct (if q_id k =? 0 then _ else _) as [[[id u] body]|]; [|done].
  destruct (request_header _ _); [|intros [= <- <-]; split; [transitivity s1; [done|frame]|by split_and!]].
  destruct (Container.modify _ _ _) as [c|] eqn:Em; [|done]. apply modify_size in Em. intros [= <- <-].
  split; [transitivity s1; [done|frame]|]. split; [|by split]. unfold used in *. cbn in *. lia.
Qed.

Lemma unless_runs f s s' : unless_stopped f s = Some s' -> stop_flag s' = false -> stop_flag s = false /\ f s = Some s'.
Proof. unfold unless_stopped. destruct (stop_flag s) eqn:E; [intros [= <-]; congruence|done]. Qed.

End Actor.
(** ** The end of a loop *)

Section Loop.
Context {T : Type} `{!update_source T} `{!source_laws T}.
Context (cfg : config) (env : environment) (Hsound : sound cfg env).
Implicit Types s : actor T.

Definition unsendable s : Prop := exists q u, first_update s q = Some u /\ too_long cfg u.

Lemma send_loop_waits fuel : forall lost s s', wf cfg env lost s -> (0 <= wakeup_at s)%Q -> send_loop cfg env fuel s = Some s' ->
  framed s s' /\ used s' = used s /\ queue_updates s' = queue_updates s
  /\ (ready_connections s' = [] \/ queues s' = [] \/ (exists k l, queues s' = k :: l /\ armed s' (q_wakeup_at k)) \/ unsendable s').
Proof using Hsound.
  pose proof Hsound as [Hclock _ Hcfg]. induction fuel as [|fuel IH]; intros lost s s' W Hw; [done|]. cbn [send_loop].
  destruct (send_update_ok cfg env Hclock Hcfg lost s W) as (r & s1 & E & (lost1 & _ & W1) & _ & Hr). rewrite E.
  pose proof (send_update_waits cfg env (clock_start cfg env Hsound) s r s1 Hw E) as (F & U & Q & Ho). destruct r as [e|[]].
  - intros [= <-]. do 3 (split; [done|]). destruct e; [by left|by right; left|by right; right; left|]. right; right; right.
    destruct Hr as (lost2 & q & id & Hl & W2). destruct (lost_place cfg env lost2 s1 q id W2 Hl) as (u & _ & ? & ? & _). by exists q, u.
  - intros H. destruct (IH lost1 s1 s' W1 ltac:(by apply F) H) as (F' & U' & Q' & H'). split; [by transitivity s1|]. split; [congruence|].
    split; [congruence|done].
Qed.

(** Connections and sockets that count are there. *)
Lemma used_exists lost s : wf cfg env lost s -> 1 <= used s -> ready_connections s = [] ->
  Z.of_nat (base.size (opened (out s))) < 2 ^ 22 -> Z.of_nat (base.size (proxied (out s))) < 2 ^ 22 ->
  (exists cid c, conn s cid c /\ event_id_ c <> 0) \/ exists id, id ∈ proxied (out s) /\ is_Some (Container.get (pending_sockets s) id).
Proof.
  intros (live & plive & last & W) Hu Hr Ho Hp. pose proof (wf_sockets _ _ _ _ _ _ _ W) as [S1 S2 _]. unfold used in Hu.
  rewrite (held_size_eq _ _ _ _ S1 Ho), (held_size_eq _ _ _ _ S2 Hp) in Hu.
  destruct (decide (live = ∅)) as [->|Hl].
  - rewrite map_size_empty in Hu. right. destruct (map_choose plive) as (id & d & Hd); [intros ->; rewrite map_size_empty in Hu; lia|].
    pose proof (held_given _ _ _ _ id d S2 Hd) as Hi. exists id. split; [done|]. rewrite (held_get _ _ _ _ id S2 Hi), Hd. by eexists.
  - left. apply map_choose in Hl as (cid & c & Hc). exists cid, c. split; [by apply (conn_live _ _ _ _ _ _ _ _ _ W)|].
    intros E. assert (cid ∈ ready_connections s) as Hin; [|rewrite Hr in Hin; by apply elem_of_nil in Hin].
    apply (dl_ready_elem _ _ _ _ _ _ _ _ (wf_delivers _ _ _ _ _ _ _ W)). by exists c.
Qed.

(** The steps of a loop that is not stopped. *)
Lemma loop_steps lost s s' : wf cfg env lost s -> loop cfg env s = Some s' -> stop_flag s' = false ->
  exists s1 s3 s4 lost3, let s2 := resolve_ip_address cfg env s1 in
    (0 <= wakeup_at s1)%Q /\ create_new_connections cfg env s2 = Some s3 /\ send_updates cfg env s3 = Some s4
    /\ wf cfg env lost3 s3 /\ queue_updates s3 = queue_updates s2 /\ (0 <= wakeup_at s3)%Q
    /\ Some (if Qeq_bool (wakeup_at s4) 0 then s4 else emit s4 (SetTimeoutAt (wakeup_at s4))) = Some s'.
Proof using Hsound.
  pose proof Hsound as [Hclock _ Hcfg]. pose proof (clock_start cfg env Hsound) as Hnow. intros W El Hstop. revert El. unfold loop.
  set (s0 := set_wakeup_at s 0). assert (W0 : wf cfg env lost s0) by (eapply wf_quiet; [done| |exact W]; by split).
  destruct (unless_stopped (load_updates cfg env) s0) as [s1|] eqn:E1; [|done]. cbn [mbind option_bind].
  destruct (unless_stopped (fun s => Some (resolve_ip_address cfg env s)) s1) as [s2|] eqn:E2; [|done]. cbn [mbind option_bind].
  destruct (unless_stopped (create_new_connections cfg env) s2) as [s3|] eqn:E3; [|done]. cbn [mbind option_bind].
  destruct (unless_stopped (send_updates cfg env) s3) as [s4|] eqn:E4; [|done]. cbn [mbind option_bind].
  destruct (stop_flag s4) eqn:Es4; [intros [= <-]; cbn in Hstop; congruence|]. intros Hend.
  apply unless_runs in E4 as [Es3 E4]; [|done]. apply unless_runs in E3 as [Es2 E3]; [|done].
  apply unless_runs in E2 as [Es1 E2]; [|done]. apply unless_runs in E1 as [_ E1]; [|done].
  destruct (load_updates_ok cfg env Hclock Hcfg lost s0 W0) as (s1' & E1' & W1 & _). rewrite E1 in E1'. injection E1' as <-.
  injection E2 as <-. assert (Hw1 : (0 <= wakeup_at s1)%Q) by (apply load_flags, flags_framed in E1; apply E1; cbn; lra).
  destruct (resolve_waits cfg env Hnow s1 Hw1) as (F2 & _ & _).
  assert (W2 : wf cfg env lost (resolve_ip_address cfg env s1)) by (eapply wf_quiet; [done|apply quiet_resolve|done]).
  destruct (create_new_ok cfg env Hclock Hcfg lost _ W2) as (s3' & E3' & W3 & Hm). rewrite E3 in E3'. injection E3' as <-.
  exists s1, s3, s4, lost. cbv zeta. do 4 (split; [done|]). split; [destruct Hm as [K _ _ _ _]; unfold key_loaded in K; by injection K|].
  split; [|done]. destruct (create_used cfg env Hnow _ _ (proj1 Hcfg) (fm_timed _ _ F2 Hw1) E3) as [F3 _]. apply F3, F2, Hw1.
Qed.


Lemma loop_waits lost s s' k l : wf cfg env lost s -> loop cfg env s = Some s' -> stop_flag s' = false -> queues s' = k :: l ->
  Z.of_nat (base.size (opened (out s'))) < 2 ^ 22 -> Z.of_nat (base.size (proxied (out s'))) < 2 ^ 22 ->
  (exists t, last (out s') = Some (SetTimeoutAt t) /\ (0 < t)%Q /\ (ready_connections s' <> [] -> t <= q_wakeup_at k)%Q)
  \/ unsendable s'
  \/ (ready_connections s' = []
      /\ ((exists cid c, conn s' cid c /\ event_id_ c <> 0)
          \/ (exists id, id ∈ proxied (out s') /\ is_Some (Container.get (pending_sockets s') id))
          \/ (is_valid (ip_address_ s') = false /\ (fix_ip_address cfg = true \/ is_ip_address_being_resolved s' = true))
          \/ ssl_missing cfg s')).
Proof using Hsound.
  pose proof Hsound as [Hclock _ Hcfg]. intros W El Hstop Hq Ho Hp.
  destruct (loop_ok cfg env Hclock Hcfg lost s W) as (s5 & E5 & (lost5 & _ & W5) & _). rewrite El in E5. injection E5 as <-.
  destruct (loop_steps lost s s' W El Hstop) as (s1 & s3 & s4 & lost3 & H). cbv zeta in H. set (s2 := resolve_ip_address cfg env s1) in *.
  destruct H as (Hw1 & Ec & Es & W3 & Eq3 & Hw3 & [= Ee]). pose proof (clock_start cfg env Hsound) as Hnow.
  destruct (resolve_waits cfg env Hnow s1 Hw1) as (F2 & _ & Hres). fold s2 in F2, Hres.
  destruct (create_used cfg env Hnow s2 s3 (proj1 Hcfg) (fm_timed _ _ F2 Hw1) Ec) as (F3 & Hcr).
  destruct (send_loop_waits _ lost3 s3 s4 W3 Hw3 Es) as (F4 & U4 & Q4 & H4).
  assert (Hset : forall t, armed s4 t -> exists t', last (out s') = Some (SetTimeoutAt t') /\ (0 < t')%Q /\ (t' <= t)%Q).
  { intros t [H1 H2]. destruct (Qeq_bool _ _) eqn:E; [apply Qeq_bool_eq in E; lra|]. rewrite <- Ee. exists (wakeup_at s4). cbn. by rewrite last_snoc. }
  assert (Esame : ready_connections s' = ready_connections s4 /\ queues s' = queues s4 /\ used s' = used s4 /\ framed s4 s'
    /\ queue_updates s' = queue_updates s4 /\ update_map s' = update_map s4).
  { rewrite <- Ee. destruct (Qeq_bool _ _); split_and!; done || frame. }
  destruct Esame as (R5 & Q5 & U5 & F5 & Qu5 & Um5). clear Ee. rewrite R5 in *. rewrite Q5 in Hq.
  destruct H4 as [Hr|[Hn|[(k' & l' & Ek & Ha)|(q & u & Hf & Ht)]]].
  - assert (Hne : queue_updates s2 <> ∅).
    { rewrite <- Eq3, <- Q4, <- Qu5. intros E. destruct W5 as (live & plive & last & W5). rewrite <- Q5 in Hq.
      destruct (dl_scheduled _ _ _ _ _ _ _ _ (wf_delivers _ _ _ _ _ _ _ W5) k) as (u & Hf & _); [rewrite Hq; by left|].
      unfold front_of, content in Hf. by rewrite E, lookup_empty in Hf. }
    assert (Harm : (exists t, armed s3 t) -> exists t, last (out s') = Some (SetTimeoutAt t) /\ (0 < t)%Q /\ ([] <> @nil Z -> t <= q_wakeup_at k)%Q).
    { intros [t Ht]. destruct (Hset t) as (t' & ? & ? & _); [by apply F4|]. by exists t'. }
    rewrite Hr. destruct (Hcr Hne) as [Hip|[[Hs1 Hs2]|[Ht|Hu]]].
    + destruct Hres as [Hfix|[Hrs|[t Ht]]]; [| |left; apply Harm; exists t; by apply F3].
      * right; right. split; [done|]. right; right; left. split; [|by left]. by rewrite (fm_ip _ _ F5), (fm_ip _ _ F4), (fm_ip _ _ F3).
      * right; right. split; [done|]. right; right; left. split; [|right; by apply F5, F4, F3]. by rewrite (fm_ip _ _ F5), (fm_ip _ _ F4), (fm_ip _ _ F3).
    + right; right. split; [done|]. right; right; right. split; [done|]. by rewrite (fm_ssl _ _ F5), (fm_ssl _ _ F4), (fm_ssl _ _ F3).
    + left. by apply Harm.
    + right; right. split; [done|]. destruct (used_exists lost5 s' W5) as [?|?]; [lia|by rewrite R5|done|done|by left|by right; left].
  - congruence.
  - rewrite Hq in Ek. injection Ek as <- <-. left. destruct (Hset _ Ha) as (t & ? & ? & ?). by exists t.
  - right; left. exists q, u. split; [|done]. unfold first_update in *. by rewrite Qu5, Um5.
Qed.

End Loop.

End Waits.

(** ** Property *)

Import Waits.

Section Property.
Context {T : Type} `{!update_source T} `{!source_laws T}.

(** C29. A webhook with something to send is always waiting for something.  When a
    loop of the actor ends with a scheduled update, the timeout is set (not after
    the first update is due, when a connection is free to send it), or every
    connection is busy with an update whose answer is to come, or a socket is on
    its way through the proxy, or the address is being looked up (or is fixed and
    was never valid), or the TLS context is not there yet, or an update was found
    whose request does not fit. *)
Theorem webhook_waits (cfg : config) (env : environment) (s s' : actor T) k l :
  sound cfg env -> reached cfg env s -> stopped s = false -> loop cfg env s = Some s' -> stop_flag s' = false -> queues s' = k :: l ->
  Z.of_nat (base.size (opened (out s'))) < 2 ^ 22 -> Z.of_nat (base.size (proxied (out s'))) < 2 ^ 22 ->
  (exists t, last (out s') = Some (SetTimeoutAt t) /\ (0 < t)%Q /\ (ready_connections s' <> [] -> t <= q_wakeup_at k)%Q)
  \/ unsendable cfg s'
  \/ (ready_connections s' = []
      /\ ((exists cid c, conn s' cid c /\ event_id_ c <> 0)
          \/ (exists id, id ∈ proxied (out s') /\ is_Some (Container.get (pending_sockets s') id))
          \/ (is_valid (ip_address_ s') = false /\ (fix_ip_address cfg = true \/ is_ip_address_being_resolved s' = true))
          \/ ssl_missing cfg s')).
Proof.
  intros H Hr Hs El Hstop Hq Ho Hp. destruct (run_wf cfg env H s Hr Hs) as [lost W]. by apply (loop_waits cfg env H lost s s' k l).
Qed.

End Property.

#[local] Existing Instance Queues.memory_storage_ops.

(** The second update waits for a connection. *)
Lemma webhook_waits_witness : exists s', loop (sample_config (lit "/hook")) sample_env sample_busy = Some s'
  /\ ((exists t, last (out s') = Some (SetTimeoutAt t) /\ (0 < t)%Q /\ (ready_connections s' <> [] -> t <= 1)%Q)
      \/ unsendable (sample_config (lit "/hook")) s'
      \/ (ready_connections s' = []
          /\ ((exists cid c, conn s' cid c /\ event_id_ c <> 0)
              \/ (exists id, id ∈ proxied (out s') /\ is_Some (Container.get (pending_sockets s') id))
              \/ (is_valid (ip_address_ s') = false /\ (false = true \/ is_ip_address_being_resolved s' = true))
              \/ ssl_missing (sample_config (lit "/hook")) s'))).
Proof.
  assert (Ev : (fun s => (stop_flag s, queues s, bool_decide (Z.of_nat (base.size (opened (out s))) < 2 ^ 22),
      bool_decide (Z.of_nat (base.size (proxied (out s))) < 2 ^ 22))) <$> loop (sample_config (lit "/hook")) sample_env sample_busy
    = Some (false, [mk_queue 1 1000000000 (2 ^ 60)], true, true)) by (vm_compute; reflexivity).
  destruct (loop (sample_config (lit "/hook")) sample_env sample_busy) as [s'|] eqn:E; [|discriminate Ev].
  injection Ev as E1 E2 E3 E4. exists s'. split; [reflexivity|].
  apply (webhook_waits (sample_config (lit "/hook")) sample_env sample_busy s' (mk_queue 1 1000000000 (2 ^ 60)) []);
    [apply sample_sound|apply sample_busy_reached|reflexivity|exact E|exact E1|exact E2|by apply bool_decide_eq_true in E3|by apply bool_decide_eq_true in E4].
Defined.
