(* ===== verification/ClientFiles.v ===== *)
(** * Files of a bot ([Client.h], [Client.cpp])

    Module [ClientError]: how an error of TDLib becomes the answer to a query.
    Module [Files]: the part of the actor [Client] that serves files: file streams
    (started, waiting for the authorization, listening to a file, removed), the
    downloads of [getFile], the release of local copies, and what happens to all
    of them when the client closes.  TDLib is the environment: it gets requests
    and answers them with objects.  Queries are answered by [Query.v]'s
    [answer_query], [fail_query] and [set_retry_after_error]; here the answer is
    an effect. *)

From Stdlib Require Import Qround.
From S2P Require Import Prelude TdMisc Utf8 Json IPAddress Stats Query FileStreamCore HttpHeader FileStreamConnection Workdir Containers.

Import Strings Route.

(** ** Errors *)

Module ClientError.

Definition upper (c : ascii) : bool := (ord "A"%char <=? ord c) && (ord c <=? ord "Z"%char).

Definition get_retry_after_time (error_message : bytes) : Z :=
  let prefix := lit "Too Many Requests: retry after " in
  if begins_with error_message prefix then
    match Integers.to_integer_safe check_utf8 32 (drop (length prefix) error_message) with
    | Ok r => if 0 <? r then r else 0
    | Err _ => 0
    end
  else 0.

(** What a query gets. *)
Inductive answer (A : Type) :=
| Failed (code : Z) (description : bytes)
| RetryAfter (seconds : Z)
| Answered (a : A).
Arguments Failed {A} code description.
Arguments RetryAfter {A} seconds.
Arguments Answered {A} a.

Definition is_message (m : bytes) (s : string) : bool := bool_decide (m = lit s).

(** The texts of the errors with the code 400, which may get another code. *)
Definition translate (method m : bytes) : Z * bytes :=
  if is_message m "MESSAGE_NOT_MODIFIED" then
    (400, lit "message is not modified: specified new message content and reply markup are exactly the same as a current content and reply markup of the message")
  else if is_message m "WC_CONVERT_URL_INVALID" || is_message m "EXTERNAL_URL_INVALID" then (400, lit "Wrong HTTP URL specified")
  else if is_message m "WEBPAGE_CURL_FAILED" then (400, lit "Failed to get HTTP URL content")
  else if is_message m "WEBPAGE_MEDIA_EMPTY" then (400, lit "Wrong type of the web page content")
  else if is_message m "MEDIA_GROUPED_INVALID" then (400, lit "Can't use the media of the specified type in the album")
  else if is_message m "REPLY_MARKUP_TOO_LONG" then (400, lit "reply markup is too long")
  else if is_message m "INPUT_USER_DEACTIVATED" then (403, lit "Forbidden: user is deactivated")
  else if is_message m "USER_IS_BLOCKED" then (403, lit "bot was blocked by the user")
  else if is_message m "USER_ADMIN_INVALID" then (400, lit "user is an administrator of the chat")
  else if is_message m "File generation failed" then (400, lit "can't upload file by URL")
  else if is_message m "CHAT_ABOUT_NOT_MODIFIED" then (400, lit "chat description is not modified")
  else if is_message m "PACK_SHORT_NAME_INVALID" then (400, lit "invalid sticker set name is specified")
  else if is_message m "PACK_SHORT_NAME_OCCUPIED" then (400, lit "sticker set name is already occupied")
  else if is_message m "STICKER_EMOJI_INVALID" then (400, lit "invalid sticker emojis")
  else if is_message m "QUERY_ID_INVALID" then (400, lit "query is too old and response timeout expired or query ID is invalid")
  else if is_message m "MESSAGE_DELETE_FORBIDDEN" then (400, lit "message can't be deleted")
  else if is_message m "RANK_CHANGE_FORBIDDEN" || is_message m "RANK_EMOJI_NOT_ALLOWED" || is_message m "RANK_INVALID" then
    (400, (if is_message method "setchatmembertag" then lit "TAG" else lit "CUSTOM_TITLE") ++ drop 4 m)
  else (400, m).

(** The code after the first conditional. *)
Definition public_code (code : Z) (message : bytes) : Z :=
  if (code <? 400) || (code =? 404) then 400
  else if (code =? 403) && forallb (fun c => (ord c =? ord "_"%char) || upper c || Chars.is_digit c) message then 400
  else code.

Definition prefix_of_code (code : Z) : option bytes :=
  if code =? 400 then Some (lit "Bad Request")
  else if code =? 401 then Some (lit "Unauthorized")
  else if code =? 403 then Some (lit "Forbidden")
  else if code =? 500 then Some (lit "Internal Server Error")
  else None.

Definition with_prefix (prefix message : bytes) : bytes :=
  if begins_with message prefix then message
  else prefix ++ match message with
                 | [] => []
                 | c :: rest =>
                   lit ": " ++ match rest with
                               | d :: _ => if (ord d =? ord "_"%char) || upper d then message else Chars.to_lower c :: rest
                               | [] => [Chars.to_lower c]
                               end
                 end.

(** [fail_query_with_error]; [method] is the method of the query. *)
Definition fail_query_with_error {A} (method : bytes) (error_code : Z) (error_message default_message : bytes) : answer A :=
  if error_code =? 429 then
    let retry_after_time := get_retry_after_time error_message in
    if 0 <? retry_after_time then RetryAfter retry_after_time else Failed 500 error_message
  else
    let code := public_code error_code error_message in
    let '(code, message) :=
      if code =? 400 then translate method (if bool_decide (default_message = []) then error_message else default_message)
      else (code, error_message) in
    match prefix_of_code code with
    | None => Failed 400 (lit "Bad Request: " ++ message)
    | Some prefix => Failed code (with_prefix prefix message)
    end.

End ClientError.

(** ** The files of a client *)

Module Files.
Import ClientError.

Definition MAX_DOWNLOAD_FILE_SIZE : Z := Z.shiftl 20 20.

(** [td_api::file] with its [td_api::localFile]. *)
Record td_file := mk_td_file {
  id_ : Z; size_ : Z; expected_size_ : Z; path_ : bytes; download_offset_ : Z; downloaded_prefix_size_ : Z;
  downloaded_size_ : Z; is_downloading_completed_ : bool; is_downloading_active_ : bool }.

(** The objects of TDLib that the handlers distinguish. *)
Inductive td_object := TdError (code : Z) (message : bytes) | TdFile (file : td_file) | TdOk.

Inductive td_function :=
| GetRemoteFile (file_id : bytes)
| DownloadFile (file_id : Z)              (* [downloadFile(file_id, 1, 0, 0, false)] *)
| CancelDownloadFile (file_id : Z)
| DeleteFile (file_id : Z)
| CloseTd
| LogOutTd
| SetBotUpdatesStatus (pending_update_count : Z) (error_message : bytes)
| SetAllowedUpdateTypes (types : option Z).  (* the option xallowed_update_types *)

(** The continuations given to [check_remote_file_id]. *)
Inductive on_success := GetFile (metadata_only : bool) | ReleaseLocalFile.

(** The [TdQueryCallback]s. *)
Inductive handler :=
| OnFileStreamRemoteFile (stream stream_id expected_size : Z)
| OnFileStreamDownload (file_id : Z)
| OnDownloadFile (file_id : Z)
| OnCancelDownloadFile
| OnDeleteFile (file_id : Z)
| OnDeleteFileQuery (query : Query.promised)
| OnCheckRemoteFileId (query : Query.promised) (k : on_success)
| OnOkQuery (query : Query.promised)
| OnOk.

(** [FileStreamRef], [PendingFileStream] *)
Record stream_ref := mk_stream_ref { ref_id : Z; ref_actor : Z }.
Record pending_stream := mk_pending_stream { p_stream : stream_ref; p_file_id : bytes; p_expected_size : Z }.

(** The results of queries: a file, as [JsonFile] prints it with or without its
    path, and [true]. *)
Inductive file_answer := FileAnswer (file : td_file) (with_path : bool) | TrueAnswer.

Inductive effect :=
| ToStream (stream : Z) (m : Stream.event)
| Reply (query : Query.promised) (a : answer file_answer)
| Request (id : Z) (f : td_function)
| SetTimeoutIn0.

Record delete_counters := mk_counters {
  file_delete_attempts : Z; file_delete_successes : Z; file_delete_failures : Z; file_delete_skipped_busy : Z;
  workdir_space_rejections : Z }.

Record client := mk_client {
  was_authorized : bool;
  closing : bool;
  logging_out : bool;
  need_close : bool;
  td_client : bool;  (* [td_client_] is not empty *)
  is_api_id_invalid : bool;
  clear_tqueue : bool;
  next_authorization_time : time;
  prev_retry_after : Z;
  retry_after_error_message : bytes;
  handlers : Container.container (option handler);  (* a slot is empty while its handler runs *)
  file_download_listeners : gmap Z (list Query.promised);
  download_started_file_ids : gset Z;
  file_stream_listeners : gmap Z (list stream_ref);
  active_file_streams : gmap Z Z;  (* from identifiers of streams to their actors *)
  pending_file_streams : list pending_stream;
  counters : delete_counters;  (* of [SharedData] *)
  ticks : nat;  (* questions asked to the environment *)
  out : list effect;
}.

Definition set_was_authorized (s : client) (v : bool) : client := mk_client v (closing s) (logging_out s)
  (need_close s) (td_client s) (is_api_id_invalid s) (clear_tqueue s) (next_authorization_time s) (prev_retry_after
  s) (retry_after_error_message s) (handlers s) (file_download_listeners s) (download_started_file_ids s)
  (file_stream_listeners s) (active_file_streams s) (pending_file_streams s) (counters s) (ticks s) (out s).
Definition set_closing (s : client) (v : bool) : client := mk_client (was_authorized s) v (logging_out s)
  (need_close s) (td_client s) (is_api_id_invalid s) (clear_tqueue s) (next_authorization_time s) (prev_retry_after
  s) (retry_after_error_message s) (handlers s) (file_download_listeners s) (download_started_file_ids s)
  (file_stream_listeners s) (active_file_streams s) (pending_file_streams s) (counters s) (ticks s) (out s).
Definition set_logging_out (s : client) (v : bool) : client := mk_client (was_authorized s) (closing s) v
  (need_close s) (td_client s) (is_api_id_invalid s) (clear_tqueue s) (next_authorization_time s) (prev_retry_after
  s) (retry_after_error_message s) (handlers s) (file_download_listeners s) (download_started_file_ids s)
  (file_stream_listeners s) (active_file_streams s) (pending_file_streams s) (counters s) (ticks s) (out s).
Definition set_need_close (s : client) (v : bool) : client := mk_client (was_authorized s) (closing s) (logging_out
  s) v (td_client s) (is_api_id_invalid s) (clear_tqueue s) (next_authorization_time s) (prev_retry_after s)
  (retry_after_error_message s) (handlers s) (file_download_listeners s) (download_started_file_ids s)
  (file_stream_listeners s) (active_file_streams s) (pending_file_streams s) (counters s) (ticks s) (out s).
Definition set_td_client (s : client) (v : bool) : client := mk_client (was_authorized s) (closing s) (logging_out
  s) (need_close s) v (is_api_id_invalid s) (clear_tqueue s) (next_authorization_time s) (prev_retry_after s)
  (retry_after_error_message s) (handlers s) (file_download_listeners s) (download_started_file_ids s)
  (file_stream_listeners s) (active_file_streams s) (pending_file_streams s) (counters s) (ticks s) (out s).
Definition set_is_api_id_invalid (s : client) (v : bool) : client := mk_client (was_authorized s) (closing s)
  (logging_out s) (need_close s) (td_client s) v (clear_tqueue s) (next_authorization_time s) (prev_retry_after s)
  (retry_after_error_message s) (handlers s) (file_download_listeners s) (download_started_file_ids s)
  (file_stream_listeners s) (active_file_streams s) (pending_file_streams s) (counters s) (ticks s) (out s).
Definition set_clear_tqueue (s : client) (v : bool) : client := mk_client (was_authorized s) (closing s)
  (logging_out s) (need_close s) (td_client s) (is_api_id_invalid s) v (next_authorization_time s)
  (prev_retry_after s) (retry_after_error_message s) (handlers s) (file_download_listeners s)
  (download_started_file_ids s) (file_stream_listeners s) (active_file_streams s) (pending_file_streams s)
  (counters s) (ticks s) (out s).
Definition set_next_authorization_time (s : client) (v : time) : client := mk_client (was_authorized s) (closing s)
  (logging_out s) (need_close s) (td_client s) (is_api_id_invalid s) (clear_tqueue s) v (prev_retry_after s)
  (retry_after_error_message s) (handlers s) (file_download_listeners s) (download_started_file_ids s)
  (file_stream_listeners s) (active_file_streams s) (pending_file_streams s) (counters s) (ticks s) (out s).
Definition set_prev_retry_after (s : client) (v : Z) : client := mk_client (was_authorized s) (closing s)
  (logging_out s) (need_close s) (td_client s) (is_api_id_invalid s) (clear_tqueue s) (next_authorization_time s) v
  (retry_after_error_message s) (handlers s) (file_download_listeners s) (download_started_file_ids s)
  (file_stream_listeners s) (active_file_streams s) (pending_file_streams s) (counters s) (ticks s) (out s).
Definition set_retry_after_error_message (s : client) (v : bytes) : client := mk_client (was_authorized s) (closing
  s) (logging_out s) (need_close s) (td_client s) (is_api_id_invalid s) (clear_tqueue s) (next_authorization_time
  s) (prev_retry_after s) v (handlers s) (file_download_listeners s) (download_started_file_ids s)
  (file_stream_listeners s) (active_file_streams s) (pending_file_streams s) (counters s) (ticks s) (out s).
Definition set_handlers (s : client) (v : Container.container (option handler)) : client := mk_client
  (was_authorized s) (closing s) (logging_out s) (need_close s) (td_client s) (is_api_id_invalid s) (clear_tqueue
  s) (next_authorization_time s) (prev_retry_after s) (retry_after_error_message s) v (file_download_listeners s)
  (download_started_file_ids s) (file_stream_listeners s) (active_file_streams s) (pending_file_streams s)
  (counters s) (ticks s) (out s).
Definition set_file_download_listeners (s : client) (v : gmap Z (list Query.promised)) : client := mk_client
  (was_authorized s) (closing s) (logging_out s) (need_close s) (td_client s) (is_api_id_invalid s) (clear_tqueue
  s) (next_authorization_time s) (prev_retry_after s) (retry_after_error_message s) (handlers s) v
  (download_started_file_ids s) (file_stream_listeners s) (active_file_streams s) (pending_file_streams s)
  (counters s) (ticks s) (out s).
Definition set_download_started_file_ids (s : client) (v : gset Z) : client := mk_client (was_authorized s)
  (closing s) (logging_out s) (need_close s) (td_client s) (is_api_id_invalid s) (clear_tqueue s)
  (next_authorization_time s) (prev_retry_after s) (retry_after_error_message s) (handlers s)
  (file_download_listeners s) v (file_stream_listeners s) (active_file_streams s) (pending_file_streams s)
  (counters s) (ticks s) (out s).
Definition set_file_stream_listeners (s : client) (v : gmap Z (list stream_ref)) : client := mk_client
  (was_authorized s) (closing s) (logging_out s) (need_close s) (td_client s) (is_api_id_invalid s) (clear_tqueue
  s) (next_authorization_time s) (prev_retry_after s) (retry_after_error_message s) (handlers s)
  (file_download_listeners s) (download_started_file_ids s) v (active_file_streams s) (pending_file_streams s)
  (counters s) (ticks s) (out s).
Definition set_active_file_streams (s : client) (v : gmap Z Z) : client := mk_client (was_authorized s) (closing s)
  (logging_out s) (need_close s) (td_client s) (is_api_id_invalid s) (clear_tqueue s) (next_authorization_time s)
  (prev_retry_after s) (retry_after_error_message s) (handlers s) (file_download_listeners s)
  (download_started_file_ids s) (file_stream_listeners s) v (pending_file_streams s) (counters s) (ticks s) (out
  s).
Definition set_pending_file_streams (s : client) (v : list pending_stream) : client := mk_client (was_authorized s)
  (closing s) (logging_out s) (need_close s) (td_client s) (is_api_id_invalid s) (clear_tqueue s)
  (next_authorization_time s) (prev_retry_after s) (retry_after_error_message s) (handlers s)
  (file_download_listeners s) (download_started_file_ids s) (file_stream_listeners s) (active_file_streams s) v
  (counters s) (ticks s) (out s).
Definition set_counters (s : client) (v : delete_counters) : client := mk_client (was_authorized s) (closing s)
  (logging_out s) (need_close s) (td_client s) (is_api_id_invalid s) (clear_tqueue s) (next_authorization_time s)
  (prev_retry_after s) (retry_after_error_message s) (handlers s) (file_download_listeners s)
  (download_started_file_ids s) (file_stream_listeners s) (active_file_streams s) (pending_file_streams s) v (ticks
  s) (out s).
Definition set_ticks (s : client) (v : nat) : client := mk_client (was_authorized s) (closing s) (logging_out s)
  (need_close s) (td_client s) (is_api_id_invalid s) (clear_tqueue s) (next_authorization_time s) (prev_retry_after
  s) (retry_after_error_message s) (handlers s) (file_download_listeners s) (download_started_file_ids s)
  (file_stream_listeners s) (active_file_streams s) (pending_file_streams s) (counters s) v (out s).
Definition set_out (s : client) (v : list effect) : client := mk_client (was_authorized s) (closing s) (logging_out
  s) (need_close s) (td_client s) (is_api_id_invalid s) (clear_tqueue s) (next_authorization_time s)
  (prev_retry_after s) (retry_after_error_message s) (handlers s) (file_download_listeners s)
  (download_started_file_ids s) (file_stream_listeners s) (active_file_streams s) (pending_file_streams s)
  (counters s) (ticks s) v.

(** The parameters, and what the environment answers to the n-th question:
    [Time::now] and [get_workdir_free_bytes]. *)
Record surroundings := mk_surroundings {
  local_mode : bool; workdir_min_free_bytes : Z; workdir_unknown_file_min_free_bytes : Z;
  server_start_time : time; start_time : time;  (* of the server and of the client *)
  clock : nat -> time; workdir_free_bytes : nat -> Z }.

Definition emit (s : client) (e : effect) : client := set_out s (out s ++ [e]).
Definition ask (s : client) : nat * client := (ticks s, set_ticks s (S (ticks s))).

Definition counted (s : client) (f : delete_counters -> delete_counters) : client := set_counters s (f (counters s)).
Definition on_local_file_delete_attempt (s : client) : client :=
  counted s (fun c => mk_counters (file_delete_attempts c + 1) (file_delete_successes c) (file_delete_failures c) (file_delete_skipped_busy c)
    (workdir_space_rejections c)).
Definition on_local_file_delete_finished (s : client) (success : bool) : client :=
  counted s (fun c => mk_counters (file_delete_attempts c) (if success then file_delete_successes c + 1 else file_delete_successes c)
    (if success then file_delete_failures c else file_delete_failures c + 1) (file_delete_skipped_busy c) (workdir_space_rejections c)).
Definition on_skipped_busy (s : client) : client :=
  counted s (fun c => mk_counters (file_delete_attempts c) (file_delete_successes c) (file_delete_failures c) (file_delete_skipped_busy c + 1)
    (workdir_space_rejections c)).
Definition on_space_rejection (s : client) : client :=
  counted s (fun c => mk_counters (file_delete_attempts c) (file_delete_successes c) (file_delete_failures c) (file_delete_skipped_busy c)
    (workdir_space_rejections c + 1)).

(** A double that fits, converted to int. *)
Definition trunc (x : time) : Z := Z.quot (Qnum x) (Zpos (Qden x)).

Section Files.
Context (env : surroundings).

(** [get_closing_error]: code, message and seconds; [None] is [CHECK(closing_)]. *)
Definition get_closing_error (s : client) : option (Z * bytes * Z * client) :=
  if logging_out s then
    if is_api_id_invalid s then Some (401, lit "Unauthorized: invalid api-id/api-hash", 0, s)
    else if qltb 0 (next_authorization_time s) then
      let '(n, s) := ask s in
      let left := (next_authorization_time s - clock env n)%Q in
      let retry_after := Z.max (trunc left) 0 + 1 in
      let s :=
        if retry_after =? prev_retry_after s then s
        else set_retry_after_error_message (set_prev_retry_after s retry_after)
               (lit "Too Many Requests: retry after " ++ Integers.print_int int32_min retry_after) in
      Some (429, retry_after_error_message s, retry_after, s)
    else if clear_tqueue s then Some (400, lit "Logged out", 0, s)
    else Some (401, lit "Unauthorized", 0, s)
  else if closing s then Some (500, lit "Internal Server Error: restart", 0, s)
  else None.

Definition fail_query_closing (s : client) (query : Query.promised) : option client :=
  '(code, message, retry_after, s) ← get_closing_error s;
  Some (emit s (Reply query (if 0 <? retry_after then RetryAfter retry_after else Failed code message))).

Definition method_of (query : Query.promised) : bytes := Query.method (Query.the_query query).

Definition fail_with_error (s : client) (query : Query.promised) (code : Z) (message default_message : bytes) : client :=
  emit s (Reply query (fail_query_with_error (method_of query) code message default_message)).

Definition is_file_being_downloaded (s : client) (file_id : Z) : bool := bool_decide (is_Some (file_download_listeners s !! file_id)).

Definition on_file_download (s : client) (file_id : Z) (r : result td_file) : client :=
  match file_download_listeners s !! file_id with
  | None => s
  | Some queries =>
    let s := set_file_download_listeners s (delete file_id (file_download_listeners s)) in
    let s := set_download_started_file_ids s (download_started_file_ids s ∖ {[file_id]}) in
    foldl (fun s query =>
             match r with
             | Err e => fail_with_error s query (st_code e) (st_message e) []
             | Ok file => emit s (Reply query (Answered (FileAnswer file true)))
             end) s queries
  end.

(** To every stream that listens to the file. *)
Definition to_listeners (s : client) (file_id : Z) (m : Stream.event) : client :=
  foldl (fun s r => emit s (ToStream (ref_actor r) m)) s (default [] (file_stream_listeners s !! file_id)).

(** [on_result] of the handlers for [td_api::error]. *)
Definition handle_error (s : client) (h : handler) (code : Z) (message : bytes) : client :=
  match h with
  | OnFileStreamRemoteFile stream stream_id _ =>
    match active_file_streams s !! stream_id with
    | None => s
    | Some _ => emit s (ToStream stream (Stream.FileError (Status code message)))
    end
  | OnFileStreamDownload file_id => to_listeners s file_id (Stream.FileError (Status code message))
  | OnDownloadFile file_id => on_file_download s file_id (Err (Status code message))
  | OnDeleteFile _ => on_local_file_delete_finished s false
  | OnDeleteFileQuery query => fail_with_error (on_local_file_delete_finished s false) query code message []
  | OnCheckRemoteFileId query _ => fail_with_error s query code message (lit "invalid file_id")
  | OnOkQuery query => fail_with_error s query code message []
  | OnCancelDownloadFile | OnOk => s
  end.

(** [do_send_request]; [None] is [CHECK(!td_client_.empty())]. *)
Definition do_send_request (s : client) (f : td_function) (h : handler) : option client :=
  if td_client s then
    '(id, c) ← Container.create (handlers s) (Some h) 0;
    Some (emit (set_handlers s c) (Request id f))
  else None.

Definition send_request (s : client) (f : td_function) (h : handler) : option client :=
  if closing s || logging_out s then
    '(code, message, _, s) ← get_closing_error s; Some (handle_error s h code message)
  else do_send_request s f h.

(** ** Downloads *)

Definition check_workdir_space_for_download (s : client) (file_size existing_local_size : Z) : bool * client :=
  let '(n, s) := ask s in
  let check := Space.check_workdir_space (workdir_free_bytes env n) (workdir_min_free_bytes env) file_size existing_local_size
                 (workdir_unknown_file_min_free_bytes env) in
  (Space.allowed check, if Space.allowed check then s else on_space_rejection s).

Definition do_get_file (s : client) (file : td_file) (query : Query.promised) : option client :=
  if negb (local_mode env) && (MAX_DOWNLOAD_FILE_SIZE <? Z.max (expected_size_ file) (downloaded_size_ file)) then
    Some (emit s (Reply query (Failed 400 (lit "Bad Request: file is too big"))))
  else
    let file_id := id_ file in
    let known_size := if 0 <? size_ file then size_ file else if 0 <? expected_size_ file then expected_size_ file else -1 in
    let '(allowed, s) := check_workdir_space_for_download s known_size (Z.max 0 (downloaded_size_ file)) in
    if negb allowed then
      Some (emit s (Reply query (Failed 507 (lit "Telegram workdir has insufficient free space to start a new download"))))
    else
      let queries := default [] (file_download_listeners s !! file_id) in
      let s := set_file_download_listeners s (<[file_id := queries ++ [query]]> (file_download_listeners s)) in
      send_request s (DownloadFile file_id) (OnDownloadFile file_id).

Definition on_update_file (s : client) (file : td_file) : option client :=
  let file_id := id_ file in
  let s := to_listeners s file_id (Stream.FileProgress (size_ file) (path_ file) (download_offset_ file) (downloaded_prefix_size_ file)
                                     (is_downloading_completed_ file) (is_downloading_active_ file)) in
  if negb (is_file_being_downloaded s file_id) then Some s
  else if negb (local_mode env) && (MAX_DOWNLOAD_FILE_SIZE <? downloaded_size_ file) then
    s ← (if is_downloading_active_ file then send_request s (CancelDownloadFile file_id) OnCancelDownloadFile else Some s);
    Some (on_file_download s file_id (error 400 "Bad Request: file is too big"))
  else if is_downloading_completed_ file then Some (on_file_download s file_id (Ok file))
  else if negb (is_downloading_active_ file) && bool_decide (file_id ∈ download_started_file_ids s) then
    if closing s || logging_out s then
      '(code, message, _, s) ← get_closing_error s; Some (on_file_download s file_id (Err (Status code message)))
    else Some (on_file_download s file_id (error 400 "Bad Request: wrong file_id or the file is temporarily unavailable"))
  else Some s.

(** ** Streams *)

Definition to_stream_error (s : client) (stream : Z) (e : status) : client := emit s (ToStream stream (Stream.FileError e)).

Definition start_file_stream (s : client) (stream stream_id : Z) (file_id : bytes) (expected_size : Z) : option client :=
  let s := set_active_file_streams s (<[stream_id := stream]> (active_file_streams s)) in
  if negb (was_authorized s) then
    Some (set_pending_file_streams s (pending_file_streams s ++ [mk_pending_stream (mk_stream_ref stream_id stream) file_id expected_size]))
  else if closing s || logging_out s then
    '(code, message, _, s) ← get_closing_error s; Some (to_stream_error s stream (Status code message))
  else if bool_decide (file_id = []) || (4096 <? len file_id) then
    Some (to_stream_error s stream (Status 400 (lit "Invalid file_id specified")))
  else send_request s (GetRemoteFile file_id) (OnFileStreamRemoteFile stream stream_id expected_size).

Definition start_file_streams (s : client) (l : list pending_stream) : option client :=
  foldl (fun s p => s ← s; start_file_stream s (ref_actor (p_stream p)) (ref_id (p_stream p)) (p_file_id p) (p_expected_size p))
    (Some s) l.

(** [TdOnFileStreamRemoteFileCallback::on_result] for a file. *)
Definition on_remote_file (s : client) (stream stream_id expected_size : Z) (file : td_file) : option client :=
  match active_file_streams s !! stream_id with
  | None => Some s
  | Some _ =>
    let file_id := id_ file in
    match Route.resolve_file_stream_size (size_ file) expected_size with
    | Err e => Some (to_stream_error s stream e)
    | Ok resolved_size =>
      let need_start_download := bool_decide (default [] (file_stream_listeners s !! file_id) = []) in
      let '(allowed, s) := if need_start_download then check_workdir_space_for_download s resolved_size (downloaded_size_ file) else (true, s) in
      if negb allowed then
        Some (to_stream_error s stream (Status 507 (lit "Telegram workdir has insufficient free space to start a new download")))
      else
        let listeners := default [] (file_stream_listeners s !! file_id) in
        let s := set_file_stream_listeners s (<[file_id := listeners ++ [mk_stream_ref stream_id stream]]> (file_stream_listeners s)) in
        let s := emit s (ToStream stream (Stream.FileReady file_id resolved_size (path_ file) (download_offset_ file)
                                            (downloaded_prefix_size_ file) (is_downloading_completed_ file))) in
        if need_start_download then send_request s (DownloadFile file_id) (OnFileStreamDownload file_id) else Some s
    end
  end.

Definition remove_file_stream (s : client) (stream_id file_id : Z) (remove_requested completed_ok : bool) : option client :=
  let s := set_active_file_streams s (delete stream_id (active_file_streams s)) in
  let s := set_pending_file_streams s (filter (fun p => ref_id (p_stream p) <> stream_id) (pending_file_streams s)) in
  if file_id =? 0 then Some s
  else
    match file_stream_listeners s !! file_id with
    | None => Some s
    | Some listeners =>
      let listeners := filter (fun r => ref_id r <> stream_id) listeners in
      if negb (bool_decide (listeners = [])) then Some (set_file_stream_listeners s (<[file_id := listeners]> (file_stream_listeners s)))
      else
        let download_listener_active := is_file_being_downloaded s file_id in
        let s := set_file_stream_listeners s (delete file_id (file_stream_listeners s)) in
        match decide_file_stream_local_copy_action (mk_decision_input remove_requested completed_ok false download_listener_active) with
        | DeleteLocalCopy => send_request (on_local_file_delete_attempt s) (DeleteFile file_id) (OnDeleteFile file_id)
        | CancelDownload => send_request s (CancelDownloadFile file_id) OnCancelDownloadFile
        | SkipBusy => Some (on_skipped_busy s)
        | ActionNone => Some s
        end
    end.

Definition request_file_redownload (s : client) (file_id : Z) : option client :=
  if closing s || logging_out s then Some s
  else if (file_id <=? 0) || negb (bool_decide (is_Some (file_stream_listeners s !! file_id))) then Some s
  else send_request s (DownloadFile file_id) (OnFileStreamDownload file_id).

Definition get_active_file_stream_listener_count (s : client) : Z :=
  map_fold (fun _ l n => n + len l) 0 (file_stream_listeners s).

(** ** Queries *)

Definition to_bool (value : bytes) : bool :=
  let value := trim (to_lower value) in
  is_message value "true" || is_message value "yes" || is_message value "1".

Definition check_remote_file_id (s : client) (file_id : bytes) (query : Query.promised) (k : on_success) : option client :=
  if bool_decide (file_id = []) then Some (emit s (Reply query (Failed 400 (lit "Bad Request: file_id not specified"))))
  else send_request s (GetRemoteFile file_id) (OnCheckRemoteFileId query k).

Definition process_get_file_query (s : client) (query : Query.promised) : option client :=
  let q := Query.the_query query in
  check_remote_file_id s (Query.arg q (lit "file_id")) query (GetFile (to_bool (Query.arg q (lit "metadata_only")))).

Definition process_release_local_file_query (s : client) (query : Query.promised) : option client :=
  check_remote_file_id s (Query.arg (Query.the_query query) (lit "file_id")) query ReleaseLocalFile.

Definition run_on_success (s : client) (k : on_success) (file : td_file) (query : Query.promised) : option client :=
  match k with
  | GetFile true => Some (emit s (Reply query (Answered (FileAnswer file false))))
  | GetFile false => do_get_file s file query
  | ReleaseLocalFile =>
    let local_file_id := id_ file in
    if (local_file_id <=? 0) || is_file_being_downloaded s local_file_id || bool_decide (is_Some (file_stream_listeners s !! local_file_id)) then
      Some (emit s (Reply query (Failed 409 (lit "Conflict: file is currently in use"))))
    else send_request (on_local_file_delete_attempt s) (DeleteFile local_file_id) (OnDeleteFileQuery query)
  end.

(** The methods that are modelled. *)
Inductive command := GetFileCommand | ReleaseLocalFileCommand | CloseCommand | LogOutCommand.

(** [on_cmd] for queries without attached files: what follows the methods that
    close the client; [None] is [CHECK(was_authorized_)]. *)
Definition on_method (s : client) (c : command) (query : Query.promised) : option client :=
  if logging_out s || closing s then fail_query_closing s query
  else if negb (was_authorized s) then None
  else match c with
       | GetFileCommand => process_get_file_query s query
       | ReleaseLocalFileCommand => process_release_local_file_query s query
       | _ => Some (emit s (Reply query (Failed 404 (lit "Not Found: method not found"))))
       end.

Definition on_cmd (s : client) (c : command) (query : Query.promised) : option client :=
  if td_client s && was_authorized s then
    match c with
    | CloseCommand =>
      let '(n, s) := ask s in
      let retry_after := trunc (10 * 60 - (clock env n - start_time env))%Q in
      if (0 <? retry_after) && qltb (server_start_time env + 10 * 60) (start_time env) then Some (emit s (Reply query (RetryAfter retry_after)))
      else do_send_request (set_need_close s true) CloseTd (OnOkQuery query)
    | LogOutCommand => do_send_request (set_clear_tqueue s true) LogOutTd (OnOkQuery query)
    | _ => on_method s c query
    end
  else on_method s c query.

(** ** Answers of TDLib *)

(** [on_result] of the handlers; [None] is a failed [CHECK] on the type of the
    object. *)
Definition handle_result (s : client) (h : handler) (o : td_object) : option client :=
  match o with
  | TdError code message => Some (handle_error s h code message)
  | TdFile file =>
    match h with
    | OnFileStreamRemoteFile stream stream_id expected_size => on_remote_file s stream stream_id expected_size file
    | OnFileStreamDownload _ => on_update_file s file
    | OnDownloadFile file_id =>
      let s := if is_file_being_downloaded s file_id then set_download_started_file_ids s ({[file_id]} ∪ download_started_file_ids s) else s in
      on_update_file s file
    | OnCheckRemoteFileId query k => run_on_success s k file query
    | _ => None
    end
  | TdOk =>
    match h with
    | OnDeleteFile _ => Some (on_local_file_delete_finished s true)
    | OnDeleteFileQuery query => Some (emit (on_local_file_delete_finished s true) (Reply query (Answered TrueAnswer)))
    | OnOkQuery query => Some (emit s (Reply query (Answered TrueAnswer)))
    | OnCancelDownloadFile | OnOk => Some s
    | OnFileStreamRemoteFile _ stream_id _ => if bool_decide (is_Some (active_file_streams s !! stream_id)) then None else Some s
    | _ => None
    end
  end.

(** [Client::on_result]: the handler is moved away while it runs. *)
Definition on_result (s : client) (id : Z) (o : td_object) : option client :=
  h ← Container.get (handlers s) id; h ← h;
  c ← Container.modify (handlers s) id (fun _ => None);
  s ← handle_result (set_handlers s c) h o;
  Some (set_handlers s (Container.erase None (handlers s) id)).

(** ** Authorization and closing *)

(** [authorizationStateReady] the first time. *)
Definition on_authorized (s : client) : option client :=
  if was_authorized s then Some s
  else
    let s := set_was_authorized s true in
    let pending := pending_file_streams s in
    start_file_streams (set_pending_file_streams s []) pending.

Definition close (s : client) : option client :=
  let s := set_need_close s true in
  if negb (td_client s) then Some (emit s SetTimeoutIn0)
  else if closing s then Some s
  else do_send_request s CloseTd OnOk.

Definition log_out (s : client) (error_code : Z) (error_message : bytes) : option client :=
  let s :=
    if is_message error_message "API_ID_INVALID" then set_is_api_id_invalid s true
    else if error_code =? 429 then
      let retry_after_time := get_retry_after_time error_message in
      if 0 <? retry_after_time then
        let '(n, s) := ask s in
        set_next_authorization_time s (qmax (next_authorization_time s) (clock env n + inject_Z retry_after_time))
      else s
    else if 500 <=? error_code then
      let '(n, s) := ask s in set_next_authorization_time s (qmax (next_authorization_time s) (clock env n + 1))
    else s in
  if td_client s && negb (logging_out s) && negb (closing s) then do_send_request s LogOutTd OnOk else Some s.

(** The queries of the downloads, in some order of the map. *)
Definition fail_queries_closing (s : client) (l : list Query.promised) : option client :=
  foldl (fun s q => s ← s; fail_query_closing s q) (Some s) l.

(** [on_closed]: what it does to files. *)
Definition close_files (s : client) : option client :=
  let queries := concat (map_to_list (file_download_listeners s)).*2 in
  s ← fail_queries_closing (set_file_download_listeners s ∅) queries;
  let s := foldl (fun s stream => to_stream_error s stream (Status 503 (lit "Bot API client is closing"))) s
             (map_to_list (active_file_streams s)).*2 in
  let s := set_active_file_streams s ∅ in
  let s := set_pending_file_streams s [] in
  let s := set_file_stream_listeners s ∅ in
  Some (set_download_started_file_ids s ∅).

(** [td_client_.reset()]; [None] is a failed [CHECK]. *)
Definition reset_td_client (s : client) : option client :=
  if negb (logging_out s || closing s) || negb (td_client s) then None else Some (set_td_client s false).

Definition on_closed (s : client) : option client := s ← reset_td_client s; close_files s.

Inductive event :=
| StartFileStream (stream stream_id : Z) (file_id : bytes) (expected_size : Z)
| RemoveFileStream (stream_id file_id : Z) (remove_requested completed_ok : bool)
| RequestFileRedownload (file_id : Z)
| Command (c : command) (query : Query.promised)
| Result (id : Z) (o : td_object)
| UpdateFile (file : td_file)
| Authorized
| LoggingOut
| Closing
| Closed
| Close
| LogOut (error_code : Z) (error_message : bytes).

Definition step (s : client) (e : event) : option client :=
  match e with
  | StartFileStream stream stream_id file_id expected_size => start_file_stream s stream stream_id file_id expected_size
  | RemoveFileStream stream_id file_id remove_requested completed_ok => remove_file_stream s stream_id file_id remove_requested completed_ok
  | RequestFileRedownload file_id => request_file_redownload s file_id
  | Command c query => on_cmd s c query
  | Result id o => on_result s id o
  | UpdateFile file => on_update_file s file
  | Authorized => on_authorized s
  | LoggingOut => Some (set_logging_out s true)
  | Closing => Some (set_closing s true)
  | Closed => on_closed s
  | Close => close s
  | LogOut code message => log_out s code message
  end.

End Files.

(** The members at their first values; a wrong token leaves no [td_client_]. *)
Definition create (good_token : bool) : client :=
  mk_client false false (negb good_token) false good_token false false 0 0 [] Container.empty_container ∅ ∅ ∅ ∅ []
    (mk_counters 0 0 0 0 0) 0 [].

End Files.
