(* ===== verification/FilesProperties.v ===== *)
(** * What a client promises about files

    [Ledger]: the handlers that TDLib still has to call, and the queries that wait
    in them or for a download; every operation of [ClientFiles.v] keeps the ledger
    balanced.  [Runs] are the events of a client in the order its actor handles
    them.  The properties: no check fails, every query gets one answer, a local
    copy is deleted only when nobody uses it, closing tells everybody. *)

From S2P Require Import Prelude TdMisc Utf8 Json IPAddress Stats Query FileStreamCore HttpHeader FileStreamConnection Workdir Containers ClientFiles.

Import ClientFiles.Files ClientError ContainerMap Held Route.

(** ** The ledger *)

Module Ledger.

Definition replied (l : list effect) : list Query.promised :=
  omap (fun e => match e with Reply q _ => Some q | _ => None end) l.

Definition requested (l : list effect) : list Z :=
  omap (fun e => match e with Request id _ => Some id | _ => None end) l.

(** The query that a handler will answer. *)
Definition query_of (h : handler) : option Query.promised :=
  match h with
  | OnDeleteFileQuery q | OnCheckRemoteFileId q _ | OnOkQuery q => Some q
  | _ => None
  end.

Definition queries_of (h : handler) : list Query.promised := option_list (query_of h).

Definition waiting_for_downloads (s : client) : list Query.promised := concat (map_to_list (file_download_listeners s)).*2.

(** The queries of a map of handlers. *)
Definition waiting_in (live : gmap Z (option handler)) : list Query.promised :=
  omap (fun h => h ≫= query_of) (map_to_list live).*2.

Definition balance (s : client) (live : gmap Z (option handler)) : list Query.promised :=
  replied (out s) ++ waiting_for_downloads s ++ waiting_in live.

Record ledger_ok (s : client) (live : gmap Z (option handler)) : Prop := {
  ok_held : held int32_max (handlers s) (list_to_set (requested (out s))) live;
  ok_ids : NoDup (requested (out s));
  ok_open : td_client s = true \/ closing s || logging_out s = true;
}.

(** What only the authorization states and the user's closing change. *)
Definition flags (s : client) : bool * bool * bool * bool * time :=
  (was_authorized s, closing s, logging_out s, td_client s, next_authorization_time s).

(** [s] with [live] becomes [s'] with [live']: at most [k] requests are made, the
    ledger gets [gain] and loses [lost], and only files of [P] are deleted. *)
Record moves (P : Z -> Prop) (k : Z) (gain lost : list Query.promised) (s : client) (live : gmap Z (option handler))
    (s' : client) (live' : gmap Z (option handler)) : Prop := {
  mv_ok : ledger_ok s' live';
  mv_balance : balance s' live' ++ lost ≡ₚ gain ++ balance s live;
  mv_room : Container.size (handlers s') <= Container.size (handlers s) + k;
  mv_flags : flags s' = flags s;
  mv_running : forall id, live !! id = Some None -> live' !! id = Some None;
  mv_out : exists new, out s' = out s ++ new /\ forall id f, Request id (DeleteFile f) ∈ new -> P f;
}.

Definition yields P k gain lost (s : client) (live : gmap Z (option handler)) (r : option client) : Prop :=
  exists s' live', r = Some s' /\ moves P k gain lost s live s' live'.

Definition room (k : Z) (s : client) : Prop := Container.size (handlers s) + k <= int32_max.

Definition never (f : Z) : Prop := False.

Lemma replied_app l k : replied (l ++ k) = replied l ++ replied k.
Proof. apply omap_app. Qed.

Lemma requested_app l k : requested (l ++ k) = requested l ++ requested k.
Proof. apply omap_app. Qed.

Lemma waiting_in_insert live id h : live !! id = None -> waiting_in (<[id := h]> live) ≡ₚ option_list (h ≫= query_of) ++ waiting_in live.
Proof. intros H. unfold waiting_in. rewrite (map_to_list_insert live id h H). cbn. by destruct (h ≫= query_of). Qed.

Lemma waiting_in_remove live id h : live !! id = Some h -> waiting_in live ≡ₚ option_list (h ≫= query_of) ++ waiting_in (delete id live).
Proof.
  intros H. rewrite <-(insert_delete_id live id h H) at 1. apply waiting_in_insert, lookup_delete_eq.
Qed.

Lemma waiting_in_set live id h h' : live !! id = Some h ->
  waiting_in (<[id := h']> live) ++ option_list (h ≫= query_of) ≡ₚ option_list (h' ≫= query_of) ++ waiting_in live.
Proof.
  intros H. rewrite (waiting_in_remove live id h H), <-(insert_delete_eq live id h').
  rewrite (waiting_in_insert (delete id live) id h') by apply lookup_delete_eq. solve_Permutation.
Qed.

Definition waits (m : gmap Z (list Query.promised)) : list Query.promised := concat (map_to_list m).*2.

Lemma waits_insert m id l : m !! id = None -> waits (<[id := l]> m) ≡ₚ l ++ waits m.
Proof. intros H. unfold waits. by rewrite (map_to_list_insert m id l H). Qed.

Lemma waits_remove m id l : m !! id = Some l -> waits m ≡ₚ l ++ waits (delete id m).
Proof. intros H. rewrite <-(insert_delete_id m id l H) at 1. apply waits_insert, lookup_delete_eq. Qed.

Lemma waits_add m id q : waits (<[id := default [] (m !! id) ++ [q]]> m) ≡ₚ q :: waits m.
Proof.
  destruct (m !! id) as [l|] eqn:E; cbn [default].
  - rewrite <-insert_delete_eq, (waits_insert (delete id m) id) by apply lookup_delete_eq. rewrite (waits_remove m id l E). solve_Permutation.
  - rewrite (waits_insert m id _ E). solve_Permutation.
Qed.

(** *** How moves compose *)

Lemma moves_refl P s live : ledger_ok s live -> moves P 0 [] [] s live s live.
Proof.
  intros H. split; [done| |lia|done|done|]; [by rewrite app_nil_r|]. exists []. rewrite app_nil_r. split; [done|]. by intros id f ?%elem_of_nil.
Qed.

Lemma moves_trans P k k' g g' l l' s live s1 live1 s2 live2 : moves P k g l s live s1 live1 -> moves P k' g' l' s1 live1 s2 live2 ->
  moves P (k + k') (g ++ g') (l ++ l') s live s2 live2.
Proof.
  intros [_ Hb Hr Hf Hu (n & En & Hn)] [Ho' Hb' Hr' Hf' Hu' (n' & En' & Hn')]. split; [done| |lia|congruence|by auto|].
  - rewrite (Permutation_app_comm l l'), app_assoc, Hb', <-app_assoc, Hb, !app_assoc. by rewrite (Permutation_app_comm g' g).
  - exists (n ++ n'). rewrite En', En, app_assoc. split; [done|]. intros id f [?|?]%elem_of_app; eauto.
Qed.

Lemma moves_weaken (P Q : Z -> Prop) k k' g g' l l' s live s' live' : moves P k g l s live s' live' -> (forall f, P f -> Q f) -> k <= k' ->
  g ++ l' ≡ₚ g' ++ l -> moves Q k' g' l' s live s' live'.
Proof.
  intros [Ho Hb Hr Hf Hu (n & En & Hn)] HP Hk Hg. split; [done| |lia|done|done|by exists n; eauto].
  apply (Permutation_app_inv_r l). rewrite <-!app_assoc, (Permutation_app_comm l' l), app_assoc, Hb.
  rewrite (Permutation_app_comm _ l), app_assoc, (Permutation_app_comm g), <-app_assoc, Hg. solve_Permutation.
Qed.

Lemma yields_some P k g l s live s' live' : moves P k g l s live s' live' -> yields P k g l s live (Some s').
Proof. intros H. by exists s', live'. Qed.

Lemma yields_bind P k k' g g' l l' s live r (f : client -> option client) : yields P k g l s live r ->
  (forall s' live', moves P k g l s live s' live' -> yields P k' g' l' s' live' (f s')) -> yields P (k + k') (g ++ g') (l ++ l') s live (r ≫= f).
Proof.
  intros (s1 & live1 & -> & H1) H. destruct (H s1 live1 H1) as (s2 & live2 & E & H2). exists s2, live2. split; [done|].
  by eapply moves_trans.
Qed.

Lemma yields_after P k k' g g' l l' s live s1 live1 r : moves P k g l s live s1 live1 -> yields P k' g' l' s1 live1 r ->
  yields P (k + k') (g ++ g') (l ++ l') s live r.
Proof. intros H1 (s2 & live2 & E & H2). exists s2, live2. split; [done|]. by eapply moves_trans. Qed.

Lemma yields_weaken (P Q : Z -> Prop) k k' g g' l l' s live r : yields P k g l s live r -> (forall f, P f -> Q f) -> k <= k' ->
  g ++ l' ≡ₚ g' ++ l -> yields Q k' g' l' s live r.
Proof. intros (s' & live' & E & H) HP Hk Hg. exists s', live'. split; [done|]. by eapply moves_weaken. Qed.

(** *** The moves of the operations *)

(** Everything but the fields of the ledger may change. *)
Definition alike (s s' : client) : Prop :=
  flags s' = flags s
  /\ handlers s' = handlers s /\ file_download_listeners s' = file_download_listeners s /\ out s' = out s.

Lemma alike_trans s s1 s2 : alike s s1 -> alike s1 s2 -> alike s s2.
Proof. intros (H1 & H2 & H3 & H4) (K1 & K2 & K3 & K4). split; [congruence|]. split; [congruence|]. split; congruence. Qed.

Lemma moves_alike P s live s' : ledger_ok s live -> alike s s' -> moves P 0 [] [] s live s' live.
Proof.
  intros [H1 H2 H3] (Hf & Hh & Hd & Ho). injection Hf as Ha Hc Hl Ht Hn. split; try done.
  - split; by rewrite ?Hh, ?Ho, ?Hc, ?Hl, ?Ht.
  - unfold balance, waiting_for_downloads. by rewrite Hd, Ho, app_nil_r.
  - rewrite Hh. lia.
  - unfold flags. by rewrite Ha, Hc, Hl, Ht, Hn.
  - exists []. rewrite app_nil_r. split; [done|]. by intros id f ?%elem_of_nil.
Qed.

Definition is_request (e : effect) : bool := match e with Request _ _ => true | _ => false end.

Definition replies (e : effect) : list Query.promised := match e with Reply q _ => [q] | _ => [] end.

Lemma moves_emit P s live e : ledger_ok s live -> is_request e = false -> moves P 0 (replies e) [] s live (emit s e) live.
Proof.
  intros [H1 H2 H3] He.
  assert (requested (out (emit s e)) = requested (out s)) as E by (cbn; rewrite requested_app; destruct e; try done; by rewrite app_nil_r).
  split; try done.
  - split; rewrite ?E; done.
  - unfold balance, waiting_for_downloads. cbn [emit out set_out file_download_listeners]. rewrite replied_app, app_nil_r.
    assert (replied [e] = replies e) as -> by by destruct e. solve_Permutation.
  - cbn. lia.
  - exists [e]. split; [done|]. intros id f E'%list_elem_of_singleton. by subst e.
Qed.

(** Effects that are no requests, one for each of a list. *)
Lemma moves_emits {A} P (g : A -> effect) l s live : ledger_ok s live -> (forall a, is_request (g a) = false) ->
  moves P 0 (concat (replies ∘ g <$> l)) [] s live (foldl (fun s a => emit s (g a)) s l) live.
Proof.
  revert s. induction l as [|a l IH]; intros s H Hg; [by apply moves_refl|]. cbn [foldl fmap list_fmap concat].
  pose proof (moves_emit P s live (g a) H (Hg a)) as Hm. change 0 with (0 + 0). change (@nil Query.promised) with ([] ++ @nil Query.promised).
  eapply moves_trans; [exact Hm|]. apply IH; [by apply (mv_ok _ _ _ _ _ _ _ _ Hm)|done].
Qed.

Lemma to_listeners_moves P s live file_id m : ledger_ok s live -> moves P 0 [] [] s live (to_listeners s file_id m) live.
Proof.
  intros H. unfold to_listeners. pose proof (moves_emits P (fun r => ToStream (ref_actor r) m) (default [] (file_stream_listeners s !! file_id)) s live H) as Hm.
  eapply moves_weaken; [by apply Hm|done|lia|]. generalize (default [] (file_stream_listeners s !! file_id)). induction l as [|x l IH]; [done|]. exact IH.
Qed.

Definition deleted (f : td_function) : Z -> Prop := match f with DeleteFile g => eq g | _ => never end.

Lemma do_send_yields s live f h : ledger_ok s live -> room 1 s -> td_client s = true ->
  yields (deleted f) 1 (queries_of h) [] s live (do_send_request s f h).
Proof.
  intros [H1 H2 H3] Hr Ht. unfold room in Hr. destruct (held_create int32_max (handlers s) _ live (Some h) H1 ltac:(lia) ltac:(done))
    as (id & c & E & Hn & Hg & H1' & Hs).
  unfold do_send_request. rewrite Ht, E. cbn [mbind option_bind]. exists (emit (set_handlers s c) (Request id f)), (<[id := Some h]> live).
  split; [done|]. assert (id ∉ requested (out s)) as Hid by (intros Hid; apply Hg; by apply elem_of_list_to_set).
  assert (requested (out (emit (set_handlers s c) (Request id f))) = requested (out s) ++ [id]) as Er by (cbn; by rewrite requested_app).
  split; [split| | | | |].
  - rewrite Er. cbn [handlers emit set_out set_handlers]. replace (list_to_set (requested (out s) ++ [id]) : gset Z) with ({[id]} ∪ list_to_set (requested (out s)) : gset Z); [done|].
    apply leibniz_equiv. rewrite list_to_set_app. cbn. set_solver.
  - rewrite Er. apply NoDup_app. split; [done|]. split; [|apply NoDup_singleton]. by intros x Hx ->%list_elem_of_singleton.
  - by left.
  - unfold balance, waiting_for_downloads. cbn [emit out set_out file_download_listeners set_handlers].
    rewrite replied_app, (waiting_in_insert live id _ Hn), app_nil_r. cbn [replied omap list_omap option_list mbind option_bind].
    unfold queries_of. rewrite app_nil_r. solve_Permutation.
  - cbn. lia.
  - done.
  - intros i Hi. rewrite lookup_insert_ne; [done|]. intros ->. by rewrite Hn in Hi.
  - exists [Request id f]. split; [done|]. intros i g E'%list_elem_of_singleton. by injection E' as -> <-.
Qed.

Lemma on_file_download_moves P s live file_id r : ledger_ok s live -> moves P 0 [] [] s live (on_file_download s file_id r) live.
Proof.
  intros H. unfold on_file_download. destruct (file_download_listeners s !! file_id) as [queries|] eqn:E; [|by apply moves_refl].
  set (s1 := set_download_started_file_ids _ _).
  assert (moves P 0 [] queries s live s1 live) as H1.
  { destruct H as [? ? ?]. split; try done; [|cbn; lia|].
    - unfold balance, waiting_for_downloads. cbn. fold (waits (file_download_listeners s)). fold (waits (delete file_id (file_download_listeners s))).
      rewrite (waits_remove _ _ _ E). solve_Permutation.
    - exists []. rewrite app_nil_r. split; [done|]. by intros id f ?%elem_of_nil. }
  assert (exists g : Query.promised -> effect, (forall q, is_request (g q) = false) /\ (forall q, replies (g q) = [q])
          /\ foldl (fun s query => match r with Err e => fail_with_error s query (st_code e) (st_message e) []
                     | Ok file => emit s (Reply query (Answered (FileAnswer file true))) end) s1 queries
             = foldl (fun s q => emit s (g q)) s1 queries) as (g & Hg & Hq & ->).
  { destruct r as [file|e]; [by exists (fun q => Reply q (Answered (FileAnswer file true)))|].
    by exists (fun q => Reply q (fail_query_with_error (method_of q) (st_code e) (st_message e) [])). }
  pose proof (moves_emits P g queries s1 live (mv_ok _ _ _ _ _ _ _ _ H1) Hg) as H2.
  replace (concat (replies ∘ g <$> queries)) with queries in H2; [|clear -Hq; induction queries as [|q l IH]; [done|]; cbn; by rewrite Hq, <-IH].
  eapply moves_weaken; [exact (moves_trans _ _ _ _ _ _ _ _ _ _ _ _ _ H1 H2)|done|lia|]. solve_Permutation.
Qed.

Lemma alike_counted s f : alike s (counted s f).
Proof. by split_and!. Qed.

(** What the handlers do with an error. *)
Lemma handle_error_moves P s live h code message : ledger_ok s live -> moves P 0 (queries_of h) [] s live (handle_error s h code message) live.
Proof.
  intros H. destruct h as [stream sid es|file_id|file_id| |file_id|q|q k|q|]; cbn [handle_error queries_of query_of option_list].
  - case_match; [|by apply moves_refl]. exact (moves_emit P s live (ToStream stream (Stream.FileError (Status code message))) H eq_refl).
  - by apply to_listeners_moves.
  - by apply on_file_download_moves.
  - by apply moves_refl.
  - apply moves_alike; [done|]. apply alike_counted.
  - pose proof (moves_alike P s live (on_local_file_delete_finished s false) H (alike_counted _ _)) as H1.
    exact (moves_trans _ _ _ _ _ _ _ _ _ _ _ _ _ H1 (moves_emit P _ live (Reply q _) (mv_ok _ _ _ _ _ _ _ _ H1) eq_refl)).
  - exact (moves_emit P s live (Reply q _) H eq_refl).
  - exact (moves_emit P s live (Reply q _) H eq_refl).
  - by apply moves_refl.
Qed.

Section Operations.
Context (env : surroundings).

Lemma get_closing_error_some s : closing s || logging_out s = true ->
  exists code message retry_after s', get_closing_error env s = Some (code, message, retry_after, s') /\ alike s s'
    /\ active_file_streams s' = active_file_streams s /\ file_stream_listeners s' = file_stream_listeners s
    /\ pending_file_streams s' = pending_file_streams s /\ download_started_file_ids s' = download_started_file_ids s.
Proof.
  intros H. unfold get_closing_error, ask. destruct (logging_out s) eqn:E; [|rewrite orb_false_r in H; rewrite H]; repeat case_match;
    eexists _, _, _, _; (split; [reflexivity|]); simplify_eq/=; split; try by split_and!.
  all: try case_match; by split_and!.
Qed.

Lemma fail_query_closing_yields P s live q : ledger_ok s live -> closing s || logging_out s = true ->
  yields P 0 [q] [] s live (fail_query_closing env s q).
Proof.
  intros H Hc. destruct (get_closing_error_some s Hc) as (code & m & ra & s' & E & Ha & _). unfold fail_query_closing. rewrite E.
  cbn [mbind option_bind]. apply (yields_after P 0 0 [] [q] [] [] s live s' live); [by apply moves_alike|].
  apply (yields_some _ _ _ _ _ _ _ live), (moves_emit P s' live (Reply q _)); [|done]. by apply (mv_ok P 0 [] [] s live), moves_alike.
Qed.

Lemma send_request_yields s live f h : ledger_ok s live -> room 1 s -> yields (deleted f) 1 (queries_of h) [] s live (send_request env s f h).
Proof.
  intros H Hr. unfold send_request. destruct (closing s || logging_out s) eqn:Hc.
  - destruct (get_closing_error_some s Hc) as (code & m & ra & s' & -> & Ha & _). cbn [mbind option_bind].
    apply (yields_weaken (deleted f) _ 0 _ (queries_of h) _ [] _); [|done|lia|done].
    apply (yields_after _ 0 0 [] (queries_of h) [] [] s live s' live); [by apply moves_alike|].
    apply (yields_some _ _ _ _ _ _ _ live), handle_error_moves. by apply (mv_ok (deleted f) 0 [] [] s live), moves_alike.
  - apply do_send_yields; [done|done|]. destruct (ok_open _ _ H) as [|Ho]; [done|]. by rewrite Hc in Ho.
Qed.

Lemma send_never s live f h : ledger_ok s live -> room 1 s -> (forall g, f <> DeleteFile g) ->
  yields never 1 (queries_of h) [] s live (send_request env s f h).
Proof.
  intros H Hr Hf. apply (yields_weaken (deleted f) _ 1 _ (queries_of h) _ [] _); [by apply send_request_yields| |lia|done].
  intros g Hg. destruct f as [| |?|g'| | | |]; try done. by destruct (Hf g').
Qed.

Lemma check_space_alike s n l : alike s (check_workdir_space_for_download env s n l).2.
Proof. unfold check_workdir_space_for_download. cbn. case_match; by split_and!. Qed.

Lemma room_alike k s s' : room k s -> alike s s' -> room k s'.
Proof. unfold room. by intros H (_ & -> & _). Qed.

Lemma ok_alike s live s' : ledger_ok s live -> alike s s' -> ledger_ok s' live.
Proof. intros H Ha. by apply (mv_ok never 0 [] [] s live), moves_alike. Qed.

Lemma do_get_file_yields s live file q : ledger_ok s live -> room 1 s -> yields never 1 [q] [] s live (do_get_file env s file q).
Proof.
  intros H Hr. unfold do_get_file. case_bool.
  { apply (yields_weaken never _ 0 _ [q] _ [] _); [|done|lia|done]. by apply (yields_some _ _ _ _ _ _ _ live), (moves_emit never s live (Reply q _)). }
  pose proof (check_space_alike s (if 0 <? size_ file then size_ file else if 0 <? expected_size_ file then expected_size_ file else -1)
                (Z.max 0 (downloaded_size_ file))) as Ha.
  destruct (check_workdir_space_for_download _ _ _ _) as [[] s1]; cbn [negb snd] in *.
  all: apply (yields_after never 0 1 [] [q] [] [] s live s1 live); [by apply moves_alike|].
  all: pose proof (ok_alike _ _ _ H Ha) as H1; pose proof (room_alike _ _ _ Hr Ha) as Hr1.
  - set (s2 := set_file_download_listeners _ _). assert (moves never 0 [q] [] s1 live s2 live) as H2.
    { destruct H1 as [? ? ?]. split; try done; [|cbn; lia|].
      - unfold balance, waiting_for_downloads. cbn. fold (waits (file_download_listeners s1)).
        fold (waits (<[id_ file := default [] (file_download_listeners s1 !! id_ file) ++ [q]]> (file_download_listeners s1))).
        rewrite waits_add, app_nil_r. solve_Permutation.
      - exists []. rewrite app_nil_r. split; [done|]. by intros i f ?%elem_of_nil. }
    apply (yields_after never 0 1 [q] [] [] [] _ _ _ _ _ H2). by apply (send_never s2 live); [apply (mv_ok _ _ _ _ _ _ _ _ H2)| |].
  - apply (yields_weaken never _ 0 _ [q] _ [] _); [|done|lia|done]. by apply (yields_some _ _ _ _ _ _ _ live), (moves_emit never s1 live (Reply q _)).
Qed.

Lemma yields_later P k g l s live s' live' : 0 <= k -> moves P 0 g l s live s' live' -> yields P k g l s live (Some s').
Proof. intros Hk H. exists s', live'. split; [done|]. eapply moves_weaken; [exact H|done|lia|done]. Qed.

Lemma on_update_file_yields s live file : ledger_ok s live -> room 1 s -> yields never 1 [] [] s live (on_update_file env s file).
Proof.
  intros H Hr. unfold on_update_file. set (m := Stream.FileProgress _ _ _ _ _ _).
  pose proof (to_listeners_moves never s live (id_ file) m H) as H1. set (s1 := to_listeners _ _ _) in *. clearbody s1.
  apply (yields_after never 0 1 [] [] [] [] _ _ _ _ _ H1). pose proof (mv_ok _ _ _ _ _ _ _ _ H1) as Ho.
  assert (room 1 s1) as Hr1 by (unfold room in *; pose proof (mv_room _ _ _ _ _ _ _ _ H1); lia). clear H1.
  case_bool; [apply (yields_later _ _ _ _ _ _ _ live); [lia|by apply moves_refl]|].
  case_bool; [|case_bool; [|case_bool]].
  - apply (yields_bind never 1 0 [] [] [] []).
    + case_bool; [by apply (send_never s1 live)|]. apply (yields_later _ _ _ _ _ _ _ live); [lia|by apply moves_refl].
    + intros s2 live2 H2. apply (yields_some _ _ _ _ _ _ _ live2), on_file_download_moves. by apply (mv_ok _ _ _ _ _ _ _ _ H2).
  - apply (yields_later _ _ _ _ _ _ _ live); [lia|by apply on_file_download_moves].
  - case_bool.
    + destruct (get_closing_error_some s1 ltac:(done)) as (code & msg & ra & s2 & -> & Ha & _). cbn [mbind option_bind].
      apply (yields_after never 0 1 [] [] [] [] s1 live s2 live); [by apply moves_alike|].
      apply (yields_later _ _ _ _ _ _ _ live); [lia|]. apply on_file_download_moves. by eapply ok_alike.
    + apply (yields_later _ _ _ _ _ _ _ live); [lia|by apply on_file_download_moves].
  - apply (yields_later _ _ _ _ _ _ _ live); [lia|by apply moves_refl].
Qed.

Lemma yields_alike P k g l s live s1 r : ledger_ok s live -> alike s s1 -> yields P k g l s1 live r -> yields P k g l s live r.
Proof. intros H Ha. apply (yields_after P 0 k [] g [] l). by apply moves_alike. Qed.

Lemma yields_quiet P k s live s' : 0 <= k -> ledger_ok s live -> alike s s' -> yields P k [] [] s live (Some s').
Proof. intros Hk H Ha. apply (yields_later _ _ _ _ _ _ _ live); [done|]. by apply moves_alike. Qed.

Lemma yields_to_stream P k s live e : 0 <= k -> ledger_ok s live -> is_request e = false -> replies e = [] ->
  yields P k [] [] s live (Some (emit s e)).
Proof. intros Hk H He E. apply (yields_later _ _ _ _ _ _ _ live); [done|]. pose proof (moves_emit P s live e H He) as Hm. by rewrite E in Hm. Qed.

Lemma yields_reply P k s live q a : 0 <= k -> ledger_ok s live -> yields P k [q] [] s live (Some (emit s (Reply q a))).
Proof. intros Hk H. apply (yields_later _ _ _ _ _ _ _ live); [done|]. by apply (moves_emit P s live (Reply q a)). Qed.

Lemma start_file_stream_yields s live stream stream_id file_id expected_size : ledger_ok s live -> room 1 s ->
  yields never 1 [] [] s live (start_file_stream env s stream stream_id file_id expected_size).
Proof.
  intros H Hr. unfold start_file_stream. set (s1 := set_active_file_streams s _).
  assert (alike s s1) as Ha by by split_and!. apply (yields_alike _ _ _ _ _ _ s1); [done|done|].
  pose proof (ok_alike _ _ _ H Ha) as H1. pose proof (room_alike _ _ _ Hr Ha) as Hr1. clearbody s1. clear s H Hr Ha.
  case_bool; [apply yields_quiet; [lia|done|by split_and!]|]. case_bool.
  - destruct (get_closing_error_some s1 ltac:(done)) as (code & msg & ra & s2 & -> & Ha & _). cbn [mbind option_bind].
    apply (yields_alike _ _ _ _ _ _ s2); [done|done|]. apply yields_to_stream; [lia| |done|done]. by eapply ok_alike.
  - case_bool; [by apply yields_to_stream|]. by apply (send_never s1 live _ (OnFileStreamRemoteFile _ _ _)).
Qed.

Lemma start_file_streams_yields l s live : ledger_ok s live -> room (len l) s ->
  yields never (len l) [] [] s live (start_file_streams env s l).
Proof.
  unfold start_file_streams. revert s live. induction l as [|p l IH]; intros s live H Hr.
  { apply (yields_some _ _ _ _ _ _ _ live). by apply moves_refl. }
  rewrite len_cons in *. cbn [foldl mbind option_bind].
  destruct (start_file_stream_yields s live (ref_actor (p_stream p)) (ref_id (p_stream p)) (p_file_id p) (p_expected_size p) H) as (s1 & live1 & -> & H1).
  { unfold room in *. pose proof (len_nonneg l). lia. }
  rewrite (Z.add_comm (len l)). apply (yields_after never 1 (len l) [] [] [] [] _ _ _ _ _ H1). apply IH; [by apply (mv_ok _ _ _ _ _ _ _ _ H1)|].
  unfold room in *. pose proof (mv_room _ _ _ _ _ _ _ _ H1). lia.
Qed.

Lemma on_remote_file_yields s live stream stream_id expected_size file : ledger_ok s live -> room 1 s ->
  yields never 1 [] [] s live (on_remote_file env s stream stream_id expected_size file).
Proof.
  intros H Hr. unfold on_remote_file. destruct (active_file_streams s !! stream_id); [|by apply yields_quiet; [| |split_and!]].
  destruct (resolve_file_stream_size _ _) as [a|]; [|by apply yields_to_stream].
  set (nd := bool_decide (default [] _ = [])). clearbody nd.
  pose proof (check_space_alike s a (downloaded_size_ file)) as Hs.
  destruct (if nd then check_workdir_space_for_download env s a (downloaded_size_ file) else (true, s)) as [allowed s1] eqn:E.
  assert (alike s s1) as Ha by (destruct nd; [by rewrite E in Hs|injection E as <- <-; by split_and!]). clear E Hs.
  apply (yields_alike _ _ _ _ _ _ s1); [done|done|]. pose proof (ok_alike _ _ _ H Ha) as H1. pose proof (room_alike _ _ _ Hr Ha) as Hr1.
  destruct allowed; cbn [negb]; [|by apply yields_to_stream]. set (s2 := set_file_stream_listeners s1 _).
  assert (alike s1 s2) as Ha2 by by split_and!. pose proof (ok_alike _ _ _ H1 Ha2) as H2. pose proof (room_alike _ _ _ Hr1 Ha2) as Hr2. clearbody s2.
  apply (yields_alike _ _ _ _ _ _ s2); [done|done|]. set (e := ToStream stream _).
  destruct nd; [|by apply yields_to_stream]. pose proof (moves_emit never s2 live e H2 eq_refl) as Hm.
  apply (yields_after never 0 1 [] [] [] [] _ _ _ _ _ Hm).
  apply (send_never _ live _ (OnFileStreamDownload (id_ file))); [by apply (mv_ok _ _ _ _ _ _ _ _ Hm)|exact Hr2|done].
Qed.


Lemma remove_file_stream_yields s live stream_id file_id rr co : ledger_ok s live -> room 1 s ->
  yields (eq file_id) 1 [] [] s live (remove_file_stream env s stream_id file_id rr co).
Proof.
  intros H Hr. unfold remove_file_stream. set (s1 := set_pending_file_streams _ _). assert (alike s s1) as Ha by by split_and!.
  pose proof (ok_alike _ _ _ H Ha) as H1. pose proof (room_alike _ _ _ Hr Ha) as Hr1. clearbody s1.
  apply (yields_alike _ _ _ _ _ _ s1); [done|done|]. case_bool; [by apply yields_quiet; [| |split_and!]|].
  destruct (file_stream_listeners s1 !! file_id); [|by apply yields_quiet; [| |split_and!]].
  case_bool; [by apply yields_quiet; [| |split_and!]|].
  set (s2 := set_file_stream_listeners s1 _). assert (alike s1 s2) as Ha2 by by split_and!.
  pose proof (ok_alike _ _ _ H1 Ha2) as H2. pose proof (room_alike _ _ _ Hr1 Ha2) as Hr2. clearbody s2.
  apply (yields_alike _ _ _ _ _ _ s2); [done|done|]. case_match.
  - by apply yields_quiet; [| |split_and!].
  - apply (yields_alike _ _ _ _ _ _ (on_local_file_delete_attempt s2)); [done|apply alike_counted|].
    by apply (send_request_yields _ live (DeleteFile file_id) (OnDeleteFile file_id)); [apply (ok_alike s2)|apply (room_alike _ s2)].
  - by apply (yields_weaken never _ 1 _ [] _ [] _); [apply (send_never s2 live _ OnCancelDownloadFile)| |lia|].
  - apply yields_quiet; [lia|done|apply alike_counted].
Qed.

Lemma request_file_redownload_yields s live file_id : ledger_ok s live -> room 1 s ->
  yields never 1 [] [] s live (request_file_redownload env s file_id).
Proof.
  intros H Hr. unfold request_file_redownload. do 2 (case_bool; [by apply yields_quiet; [| |split_and!]|]).
  by apply (send_never s live _ (OnFileStreamDownload file_id)).
Qed.

Lemma check_remote_file_id_yields s live file_id q k : ledger_ok s live -> room 1 s ->
  yields never 1 [q] [] s live (check_remote_file_id env s file_id q k).
Proof.
  intros H Hr. unfold check_remote_file_id. case_bool; [by apply yields_reply|].
  by apply (send_never s live _ (OnCheckRemoteFileId q k)).
Qed.

Lemma run_on_success_yields s live k file q : ledger_ok s live -> room 1 s ->
  yields (fun f => k = ReleaseLocalFile /\ f = id_ file) 1 [q] [] s live (run_on_success env s k file q).
Proof.
  intros H Hr. destruct k as [[]|]; cbn [run_on_success]; [by apply yields_reply| |].
  - apply (yields_weaken never _ 1 _ [q] _ [] _); [by apply do_get_file_yields|done|lia|done].
  - case_bool; [by apply yields_reply|]. apply (yields_alike _ _ _ _ _ _ (on_local_file_delete_attempt s)); [done|apply alike_counted|].
    apply (yields_weaken (deleted (DeleteFile (id_ file))) _ 1 _ [q] _ [] _); [|by cbn; intros f <-|lia|done].
    apply (send_request_yields _ live (DeleteFile (id_ file)) (OnDeleteFileQuery q)); [by apply (ok_alike s)|by apply (room_alike _ s)].
Qed.

(** The objects TDLib answers the function of a handler with. *)
Definition fits (h : handler) (o : td_object) : bool :=
  match o, h with
  | TdError _ _, _ => true
  | TdFile _, (OnFileStreamRemoteFile _ _ _ | OnFileStreamDownload _ | OnDownloadFile _ | OnCheckRemoteFileId _ _) => true
  | TdOk, (OnCancelDownloadFile | OnDeleteFile _ | OnDeleteFileQuery _ | OnOkQuery _ | OnOk) => true
  | _, _ => false
  end.

Definition removed_file (h : handler) (o : td_object) (f : Z) : Prop :=
  match h, o with OnCheckRemoteFileId _ ReleaseLocalFile, TdFile file => f = id_ file | _, _ => False end.

Lemma handle_result_yields s live h o : ledger_ok s live -> room 1 s -> fits h o = true ->
  yields (removed_file h o) 1 (queries_of h) [] s live (handle_result env s h o).
Proof.
  intros H Hr Hf. destruct o as [code message|file|]; cbn [handle_result].
  - apply (yields_later _ _ _ _ _ _ _ live); [lia|by apply handle_error_moves].
  - destruct h as [stream sid es|file_id|file_id| |file_id|q|q k|q|]; try done; cbn [queries_of query_of option_list].
    + by apply (yields_weaken never _ 1 _ [] _ [] _); [apply on_remote_file_yields| |lia|].
    + by apply (yields_weaken never _ 1 _ [] _ [] _); [apply on_update_file_yields| |lia|].
    + set (s1 := if is_file_being_downloaded s file_id then _ else _). assert (alike s s1) as Ha by (unfold s1; case_match; by split_and!).
      apply (yields_alike _ _ _ _ _ _ s1); [done|done|]. clearbody s1.
      apply (yields_weaken never _ 1 _ [] _ [] _); [|done|lia|done]. apply on_update_file_yields; [by eapply ok_alike|by eapply room_alike].
    + apply (yields_weaken (fun f => k = ReleaseLocalFile /\ f = id_ file) _ 1 _ [q] _ [] _); [by apply run_on_success_yields|by intros f [-> ->]|lia|done].
  - destruct h as [stream sid es|file_id|file_id| |file_id|q|q k|q|]; try done; cbn [queries_of query_of option_list].
    + by apply yields_quiet; [| |split_and!].
    + apply yields_quiet; [lia|done|apply alike_counted].
    + apply (yields_alike _ _ _ _ _ _ (on_local_file_delete_finished s true)); [done|apply alike_counted|].
      apply yields_reply; [lia|]. apply (ok_alike s); [done|apply alike_counted].
    + by apply yields_reply.
    + by apply yields_quiet; [| |split_and!].
Qed.

(** [Client::on_result]: the handler leaves its slot, answers, and the slot is
    erased. *)
Lemma on_result_yields s live id h o : ledger_ok s live -> room 1 s -> live !! id = Some (Some h) -> fits h o = true ->
  exists s' live', on_result env s id o = Some s' /\ ledger_ok s' live' /\ balance s' live' ≡ₚ balance s live
    /\ exists new, out s' = out s ++ new /\ forall i f, Request i (DeleteFile f) ∈ new -> removed_file h o f.
Proof.
  intros [Hh Hi Ho] Hr Hid Hf. unfold on_result. pose proof (held_given _ _ _ _ _ _ Hh Hid) as Hg.
  rewrite (held_get _ _ _ _ _ Hh Hg), Hid. cbn [mbind option_bind].
  destruct (held_modify _ _ _ _ id (Some h) (fun _ => None) Hh Hid) as (c & -> & Hh1 & Hs1). cbn [mbind option_bind].
  set (s1 := set_handlers s c). assert (ledger_ok s1 (<[id := None]> live)) as H1 by by split.
  destruct (handle_result_yields s1 _ h o H1) as (s2 & live2 & -> & H2); [unfold room in *; cbn; lia|done|]. cbn [mbind option_bind].
  destruct H2 as [[Hh2 Hi2 Ho2] Hb _ Hfl Hrun Hout]. specialize (Hrun id ltac:(by apply lookup_insert_eq)).
  exists (set_handlers s2 (Container.erase None (handlers s2) id)), (delete id live2). split; [done|]. split; [|split].
  - split; [|done|done]. by apply (held_erase _ _ _ _ _ _ None).
  - unfold balance, waiting_for_downloads in *. cbn [out set_handlers file_download_listeners] in *.
    pose proof (waiting_in_remove live2 id None Hrun) as E2. cbn in E2. pose proof (waiting_in_set live id _ None Hid) as E1. cbn in E1.
    rewrite <-E2. rewrite app_nil_r in Hb. rewrite Hb. unfold queries_of. rewrite <-E1. solve_Permutation.
  - exact Hout.
Qed.

(** *** Events *)

(** What may happen in a state. *)
Definition allowed (s : client) (e : event) : bool :=
  (Container.size (handlers s) + len (pending_file_streams s) + 1 <=? int32_max)
  && match e with
     | Command _ _ => was_authorized s || logging_out s || closing s
     | Result id o =>
       bool_decide (id ∈ requested (out s))
       && match Container.get (handlers s) id with Some (Some h) => fits h o | _ => false end
     | Closed => (logging_out s || closing s) && td_client s
     | _ => true
     end.

Definition query_received (e : event) : list Query.promised := match e with Command _ q => [q] | _ => [] end.

(** The files that an event may delete: it is the one a stream or a query leaves,
    and then nobody uses it. *)
Definition may_delete (s : client) (e : event) (f : Z) : Prop :=
  match e with
  | RemoveFileStream _ file_id _ _ => f = file_id
  | Result id o => exists h, Container.get (handlers s) id = Some (Some h) /\ removed_file h o f
  | _ => False
  end.

Definition handles (P : Z -> Prop) (gain : list Query.promised) (s : client) (live : gmap Z (option handler)) (r : option client) : Prop :=
  exists s' live', r = Some s' /\ ledger_ok s' live' /\ balance s' live' ≡ₚ gain ++ balance s live
    /\ exists new, out s' = out s ++ new /\ forall i f, Request i (DeleteFile f) ∈ new -> P f.

Lemma handles_yields (P Q : Z -> Prop) k gain s live r : yields P k gain [] s live r -> (forall f, P f -> Q f) -> handles Q gain s live r.
Proof.
  intros (s' & live' & E & [Ho Hb _ _ _ (n & En & Hn)]) HP. exists s', live'. split; [done|]. split; [done|]. split; [by rewrite app_nil_r in Hb|].
  exists n. eauto.
Qed.

(** Flags that change first. *)
Lemma handles_from P gain s live s1 r : handles P gain s1 live r -> file_download_listeners s1 = file_download_listeners s -> out s1 = out s ->
  handles P gain s live r.
Proof.
  intros (s' & live' & E & Ho & Hb & Hn) Hd Hout. exists s', live'. split; [done|]. split; [done|]. rewrite <-Hout. split; [|done].
  unfold balance, waiting_for_downloads in *. by rewrite <-Hout, <-Hd.
Qed.

Lemma handles_some (P : Z -> Prop) s live s' : ledger_ok s' live -> file_download_listeners s' = file_download_listeners s -> out s' = out s ->
  handles P [] s live (Some s').
Proof.
  intros H Hd Ho. apply (handles_from _ _ _ _ s'); [|done|done]. apply (handles_yields never _ 0); [|done].
  apply (yields_some _ _ _ _ _ _ _ live). by apply moves_refl.
Qed.

Lemma fail_queries_closing_yields l s live : ledger_ok s live -> closing s || logging_out s = true ->
  yields never 0 l [] s live (fail_queries_closing env s l).
Proof.
  unfold fail_queries_closing. revert s live. induction l as [|q l IH]; intros s live H Hc.
  { apply (yields_some _ _ _ _ _ _ _ live). by apply moves_refl. }
  cbn [foldl mbind option_bind]. destruct (fail_query_closing_yields never s live q H Hc) as (s1 & live1 & -> & H1).
  apply (yields_after never 0 0 [q] l [] [] _ _ _ _ _ H1). pose proof (mv_flags _ _ _ _ _ _ _ _ H1) as Hf. injection Hf as _ Hc1 Hl1 _ _.
  apply IH; [by apply (mv_ok _ _ _ _ _ _ _ _ H1)|]. by rewrite Hc1, Hl1.
Qed.

Lemma close_files_yields s live : ledger_ok s live -> logging_out s || closing s = true -> yields never 0 [] [] s live (close_files env s).
Proof.
  intros H Hc. unfold close_files. rewrite orb_comm in Hc. set (l := concat _).
  set (s2 := set_file_download_listeners s ∅). assert (ledger_ok s2 live) as H2 by by destruct H.
  destruct (fail_queries_closing_yields l s2 live H2 Hc) as (s3 & live3 & -> & H3). cbn [mbind option_bind].
  set (err := Status 503 _). set (streams := (map_to_list _).*2). set (s4 := foldl _ s3 streams).
  pose proof (moves_emits never (fun stream => ToStream stream (Stream.FileError err)) streams s3 live3 (mv_ok _ _ _ _ _ _ _ _ H3) (fun _ => eq_refl)) as H4.
  replace (concat _) with (@nil Query.promised) in H4 by (clear; induction streams; [done|cbn; done]).
  change (moves never 0 [] [] s3 live3 s4 live3) in H4.
  pose proof (moves_trans _ _ _ _ _ _ _ _ _ _ _ _ _ H3 H4) as [Ho Hb Hr Hf Hu (n & En & Hn)]. clearbody s4.
  eexists _, live3. split; [reflexivity|]. split; [by destruct Ho| |exact Hr|exact Hf|exact Hu|by exists n].
  rewrite !app_nil_r in Hb. rewrite app_nil_r. cbn [app]. etransitivity; [|etransitivity; [exact Hb|]]; [done|].
  unfold balance, waiting_for_downloads. cbn. unfold l. rewrite map_to_list_empty. cbn. solve_Permutation.
Qed.

Lemma on_closed_handles P s live : ledger_ok s live -> (logging_out s || closing s) && td_client s = true -> handles P [] s live (on_closed env s).
Proof.
  intros H [Hc Ht]%andb_true_iff. unfold on_closed, reset_td_client. rewrite Hc, Ht. cbn [negb orb mbind option_bind].
  assert (ledger_ok (set_td_client s false) live) as H1 by (destruct H; split; [done|done|right; cbn; by rewrite orb_comm]).
  apply (handles_from _ _ _ _ (set_td_client s false)); [|done|done]. by apply (handles_yields never _ 0); [apply close_files_yields|].
Qed.

Lemma do_send_handles P s live s1 f q : ledger_ok s live -> room 1 s -> alike s s1 -> td_client s = true -> (forall g, f <> DeleteFile g) ->
  handles P [q] s live (do_send_request s1 f (OnOkQuery q)).
Proof.
  intros H Hr Ha Ht Hf. apply (handles_yields (deleted f) _ 1); [|by intros g Hg; destruct f as [| |?|g'| | | |]; try done; destruct (Hf g')].
  apply (yields_alike _ _ _ _ _ _ s1); [done|done|].
  apply (do_send_yields s1 live f (OnOkQuery q)); [by eapply ok_alike|by eapply room_alike|]. destruct Ha as ([= _ _ _ -> _] & _). done.
Qed.

Lemma on_cmd_handles P s live c q : ledger_ok s live -> room 1 s -> was_authorized s || logging_out s || closing s = true ->
  handles P [q] s live (on_cmd env s c q).
Proof.
  intros H Hr Ha. unfold on_cmd. assert (handles P [q] s live (on_method env s c q)) as Hrest.
  { unfold on_method. destruct (logging_out s || closing s) eqn:Hc.
    - apply (handles_yields never _ 0); [|done]. apply fail_query_closing_yields; [done|by rewrite orb_comm].
    - rewrite <-orb_assoc, Hc, orb_false_r in Ha. rewrite Ha. cbn [negb]. apply (handles_yields never _ 1); [|done].
      destruct c; try (by apply check_remote_file_id_yields); by apply yields_reply. }
  case_bool; [|done]. apply andb_true_iff in Heqb as [Ht _].
  destruct c; try exact Hrest; [|by apply do_send_handles; [| |split_and!| |]].
  cbn [ask]. unfold ask. case_bool; [|by apply do_send_handles; [| |split_and!| |]].
  apply (handles_yields never _ 1); [|done]. apply (yields_alike _ _ _ _ _ _ (set_ticks s (S (ticks s)))); [done|by split_and!|].
  apply yields_reply; [lia|]. by apply (ok_alike s); [|split_and!].
Qed.

Lemma on_authorized_handles P s live : ledger_ok s live -> room (len (pending_file_streams s)) s -> handles P [] s live (on_authorized env s).
Proof.
  intros H Hr. unfold on_authorized. case_bool; [by apply (handles_some _ _ live)|].
  set (s1 := set_pending_file_streams _ _). apply (handles_from _ _ _ _ s1); [|done|done].
  apply (handles_yields never _ (len (pending_file_streams s))); [|done]. by apply start_file_streams_yields; [destruct H|].
Qed.

Lemma close_handles P s live : ledger_ok s live -> room 1 s -> handles P [] s live (close s).
Proof.
  intros H Hr. unfold close. set (s1 := set_need_close s true). apply (handles_from _ _ _ _ s1); [|done|done].
  assert (ledger_ok s1 live) as H1 by by destruct H. apply (handles_yields never _ 1); [|done].
  destruct (td_client s1) eqn:Ht; cbn [negb]; [|by apply yields_to_stream]. case_bool; [by apply yields_quiet; [| |split_and!]|].
  by apply (yields_weaken (deleted CloseTd) _ 1 _ [] _ [] _); [apply (do_send_yields s1 live CloseTd OnOk)| |lia|].
Qed.

Lemma log_out_handles P s live code message : ledger_ok s live -> room 1 s -> handles P [] s live (log_out env s code message).
Proof.
  intros H Hr. unfold log_out. set (s1 := if is_message message _ then _ else _).
  assert (handlers s1 = handlers s /\ file_download_listeners s1 = file_download_listeners s /\ out s1 = out s /\ closing s1 = closing s
          /\ logging_out s1 = logging_out s /\ td_client s1 = td_client s) as (Eh & Ed & Eo & Ec & El & Et) by (unfold s1, ask; repeat case_match; by split_and!).
  clearbody s1. assert (ledger_ok s1 live) as H1 by (destruct H; split; by rewrite ?Eh, ?Eo, ?Ec, ?El, ?Et).
  apply (handles_from _ _ _ _ s1); [|done|done]. apply (handles_yields never _ 1); [|done].
  case_bool; [|by apply yields_quiet; [| |split_and!]]. apply andb_true_iff in Heqb as [Ht _]. apply andb_true_iff in Ht as [Ht _].
  apply (yields_weaken (deleted LogOutTd) _ 1 _ [] _ [] _); [|done|lia|done]. apply (do_send_yields s1 live LogOutTd OnOk); [done| |done].
  unfold room in *. by rewrite Eh.
Qed.

(** No event that may happen fails a check, and the ledger stays balanced. *)
Lemma step_handles s live e : ledger_ok s live -> allowed s e = true ->
  handles (may_delete s e) (query_received e) s live (step env s e).
Proof.
  intros H [Hr He]%andb_true_iff. apply Z.leb_le in Hr. pose proof (len_nonneg (pending_file_streams s)).
  assert (room 1 s) as Hr1 by (unfold room; lia).
  destruct e as [st sid fid es|sid fid rr co|fid|c q|id o|file| | | | | |code message]; cbn [step query_received may_delete].
  - by apply (handles_yields never _ 1); [apply start_file_stream_yields|].
  - by apply (handles_yields (eq fid) _ 1); [apply remove_file_stream_yields|].
  - by apply (handles_yields never _ 1); [apply request_file_redownload_yields|].
  - by apply on_cmd_handles.
  - apply andb_true_iff in He as [Hid%bool_decide_eq_true He]. pose proof (ok_held _ _ H) as Hh.
    destruct (Container.get (handlers s) id) as [[h|]|] eqn:Eh; [|done..].
    assert (live !! id = Some (Some h)) as El by (rewrite <-Eh; symmetry; apply (held_get _ _ _ _ _ Hh); by apply elem_of_list_to_set).
    destruct (on_result_yields s live id h o H Hr1 El He) as (s' & live' & E & Ho & Hb & n & En & Hn).
    exists s', live'. split; [done|]. split; [done|]. split; [done|]. exists n. split; [done|]. intros i f Hin%Hn. by exists h.
  - by apply (handles_yields never _ 1); [apply on_update_file_yields|].
  - apply on_authorized_handles; [done|]. unfold room. lia.
  - apply (handles_some _ _ live); [|done|done]. destruct H as [? ? [?|?]]; split; try done; [by left|right]. cbn. by rewrite orb_true_r.
  - apply (handles_some _ _ live); [|done|done]. destruct H as [? ? [?|?]]; split; try done; [by left|right]. done.
  - by apply on_closed_handles.
  - by apply close_handles.
  - by apply log_out_handles.
Qed.

(** *** Flags *)

Lemma yields_flags P k g l s live r s' : yields P k g l s live r -> r = Some s' -> flags s' = flags s.
Proof. intros (s1 & live1 & -> & H) [= <-]. by apply (mv_flags _ _ _ _ _ _ _ _ H). Qed.

Lemma do_send_flags s f h s' : do_send_request s f h = Some s' -> flags s' = flags s.
Proof. unfold do_send_request. case_match; [|done]. by destruct (Container.create _ _ _) as [[id c]|]; intros [= <-]. Qed.

Lemma on_cmd_flags s live c q s' : ledger_ok s live -> room 1 s -> on_cmd env s c q = Some s' -> flags s' = flags s.
Proof.
  intros H Hr. assert (on_method env s c q = Some s' -> flags s' = flags s) as Hm.
  { unfold on_method. case_bool; [apply (yields_flags never 0 [q] [] s live), fail_query_closing_yields; [done|by rewrite orb_comm]|]. case_bool; [done|].
    destruct c; try (by intros [= <-]);
      (eapply (yields_flags never 1 [q] [] s live); by apply check_remote_file_id_yields). }
  unfold on_cmd, ask. case_bool; [|done]. destruct c; try exact Hm; [case_bool; [by intros [= <-]|]|]; by intros ->%do_send_flags.
Qed.

Lemma yields_room P k g l s live r s' : yields P k g l s live r -> r = Some s' -> Container.size (handlers s') <= Container.size (handlers s) + k.
Proof. intros (s1 & live1 & -> & H) [= <-]. apply (mv_room _ _ _ _ _ _ _ _ H). Qed.

Lemma do_send_room s live f h s' : ledger_ok s live -> room 1 s -> do_send_request s f h = Some s' ->
  Container.size (handlers s') <= Container.size (handlers s) + 1.
Proof.
  intros H Hr E. destruct (td_client s) eqn:Ht; [|unfold do_send_request in E; by rewrite Ht in E].
  by eapply yields_room; [apply (do_send_yields s live f h)|].
Qed.

Lemma on_cmd_room s live c q s' : ledger_ok s live -> room 1 s -> on_cmd env s c q = Some s' ->
  Container.size (handlers s') <= Container.size (handlers s) + 1.
Proof.
  intros H Hr. assert (on_method env s c q = Some s' -> Container.size (handlers s') <= Container.size (handlers s) + 1) as Hm.
  { unfold on_method. case_bool.
    - intros E. assert (Container.size (handlers s') <= Container.size (handlers s) + 0); [|lia].
      revert E. apply (yields_room never 0 [q] [] s live), fail_query_closing_yields; [done|by rewrite orb_comm].
    - case_bool; [done|]. destruct c; try (by intros [= <-]; cbn; lia); (eapply (yields_room never 1 [q] [] s live); by apply check_remote_file_id_yields). }
  unfold on_cmd, ask. case_bool; [|done]. destruct c; try exact Hm; [case_bool; [intros [= <-]; cbn; lia|]|].
  - intros E. refine (do_send_room _ live _ _ _ _ _ E); [by destruct H|exact Hr].
  - intros E. refine (do_send_room _ live _ _ _ _ _ E); [by destruct H|exact Hr].
Qed.

Lemma on_result_flags s live id o s' : ledger_ok s live -> room 1 s -> allowed s (Result id o) = true -> on_result env s id o = Some s' -> flags s' = flags s.
Proof.
  intros [Hh Hi Ho] Hr [_ [Hid%bool_decide_eq_true Hf]%andb_true_iff]%andb_true_iff.
  destruct (Container.get (handlers s) id) as [[h|]|] eqn:Eg; [|done..]. unfold on_result. rewrite Eg. cbn [mbind option_bind].
  assert (id ∈@{gset Z} list_to_set (requested (out s))) as Hg by by apply elem_of_list_to_set.
  assert (live !! id = Some (Some h)) as Hl by by rewrite <-(held_get _ _ _ _ _ Hh Hg).
  destruct (held_modify _ _ _ _ id (Some h) (fun _ => None) Hh Hl) as (c & -> & Hh1 & Hs1). cbn [mbind option_bind].
  set (s1 := set_handlers s c). assert (ledger_ok s1 (<[id := None]> live)) as H1 by by split.
  destruct (handle_result env s1 h o) as [s2|] eqn:E; [|done]. intros [= <-].
  change (flags s2 = flags s1). eapply (yields_flags _ 1 _ []); [apply (handle_result_yields s1 _ h o H1)|exact E]; [unfold room in *; cbn; lia|done].
Qed.

Lemma on_authorized_flags s live s' : ledger_ok s live -> room (len (pending_file_streams s)) s -> on_authorized env s = Some s' ->
  flags s' = (true, closing s, logging_out s, td_client s, next_authorization_time s)
  /\ Container.size (handlers s') <= Container.size (handlers s) + len (pending_file_streams s).
Proof.
  intros H Hr. unfold on_authorized. destruct (was_authorized s) eqn:E.
  - intros [= <-]. unfold flags. rewrite E. pose proof (len_nonneg (pending_file_streams s)). split; [done|lia].
  - set (s1 := set_pending_file_streams _ _). intros E1.
    assert (yields never (len (pending_file_streams s)) [] [] s1 live (start_file_streams env s1 (pending_file_streams s))) as Hy
      by (apply start_file_streams_yields; [by destruct H|exact Hr]).
    split; [exact (yields_flags _ _ _ _ _ _ _ _ Hy E1)|exact (yields_room _ _ _ _ _ _ _ _ Hy E1)].
Qed.

Lemma log_out_flags s code message s' : log_out env s code message = Some s' ->
  was_authorized s' = was_authorized s /\ closing s' = closing s /\ logging_out s' = logging_out s /\ td_client s' = td_client s.
Proof.
  unfold log_out. set (s1 := if is_message message _ then _ else _).
  assert (was_authorized s1 = was_authorized s /\ closing s1 = closing s /\ logging_out s1 = logging_out s /\ td_client s1 = td_client s) as (E1 & E2 & E3 & E4)
    by (unfold s1, ask; repeat case_match; by split_and!).
  clearbody s1. case_bool; [intros Hf%do_send_flags; injection Hf as -> -> -> -> _|intros [= <-]]; done.
Qed.

(** Only the named events change them. *)
Lemma step_flags s live e s' : ledger_ok s live -> allowed s e = true -> step env s e = Some s' ->
  match e with Authorized | LoggingOut | Closing | Closed | LogOut _ _ => False | _ => True end -> flags s' = flags s.
Proof.
  intros H Ha E He. pose proof Ha as [Hr _]%andb_true_iff. apply Z.leb_le in Hr. pose proof (len_nonneg (pending_file_streams s)).
  assert (room 1 s) as Hr1 by (unfold room; lia).
  destruct e as [st sid fid es|sid fid rr co|fid|c q|id o|file| | | | | |code message]; try done; cbn [step] in E.
  - by eapply (yields_flags never 1 [] [] s live); [apply start_file_stream_yields|exact E].
  - by eapply (yields_flags (eq fid) 1 [] [] s live); [apply remove_file_stream_yields|exact E].
  - by eapply (yields_flags never 1 [] [] s live); [apply request_file_redownload_yields|exact E].
  - by eapply on_cmd_flags.
  - by eapply on_result_flags.
  - by eapply (yields_flags never 1 [] [] s live); [apply on_update_file_yields|exact E].
  - unfold close in E. case_bool; [by injection E as <-|]. case_bool; [by injection E as <-|]. by apply do_send_flags in E.
Qed.

End Operations.

End Ledger.

(** ** Runs *)

Module FileRuns.
Import Ledger.

Section Runs.
Context (env : surroundings).

(** The states of a client, with the queries that it has received. *)
Inductive reached (good_token : bool) : list Query.promised -> client -> Prop :=
| reached_start : reached good_token [] (create good_token)
| reached_step qs s e s' : reached good_token qs s -> allowed s e = true -> step env s e = Some s' ->
  reached good_token (qs ++ query_received e) s'.

(** The handlers that TDLib has not called yet. *)
Definition outstanding (s : client) : list handler :=
  omap (fun id => mjoin (Container.get (handlers s) id)) (requested (out s)).

Lemma live_outstanding s live : ledger_ok s live -> waiting_in live ≡ₚ omap query_of (outstanding s).
Proof.
  intros [Hh Hi _]. unfold outstanding.
  assert (omap (fun id => mjoin (Container.get (handlers s) id)) (requested (out s)) = omap (fun id => mjoin (live !! id)) (requested (out s))) as ->.
  { assert (forall id, id ∈ requested (out s) -> Container.get (handlers s) id = live !! id) as Hg.
    { intros id Hid. apply (held_get _ _ _ _ _ Hh). by apply elem_of_list_to_set. }
    clear -Hg. induction (requested (out s)) as [|id l IH]; [done|]. cbn. rewrite (Hg id) by apply list_elem_of_here.
    rewrite IH; [done|]. intros i Hin. apply Hg. by apply list_elem_of_further. }
  assert (forall id h, live !! id = Some h -> id ∈ requested (out s)) as Hd.
  { intros id h Hid. pose proof (held_given _ _ _ _ _ _ Hh Hid) as Hg. by apply elem_of_list_to_set in Hg. }
  clear Hh. revert live Hd. induction Hi as [|id l Hid Hn IH]; intros live Hd.
  - assert (live = ∅) as -> by (apply map_empty; intros i; destruct (live !! i) eqn:E; [by apply Hd, elem_of_nil in E|done]).
    unfold waiting_in. by rewrite map_to_list_empty.
  - assert (omap (fun i => mjoin (live !! i)) l = omap (fun i => mjoin (delete id live !! i)) l) as E.
    { clear -Hid. induction l as [|j l IH]; [done|]. apply not_elem_of_cons in Hid as [Hne Hid]. cbn. rewrite lookup_delete_ne by done.
      by rewrite (IH Hid). }
    cbn. rewrite E. assert (waiting_in (delete id live) ≡ₚ omap query_of (omap (fun i => mjoin (delete id live !! i)) l)) as IHd.
    { apply IH. intros i h [Hne Hi]%lookup_delete_Some. by apply Hd, elem_of_cons in Hi as [->|]. }
    destruct (live !! id) as [h|] eqn:El; [|cbn; rewrite (delete_id live id El) in *; exact IHd].
    rewrite (waiting_in_remove live id h El), IHd. cbn. destruct h as [h|]; cbn; [by destruct (query_of h)|done].
Qed.

Lemma ledger_start good_token : ledger_ok (create good_token) ∅.
Proof. split; [by apply held_start|apply NoDup_nil_2|]. destruct good_token; [by left|by right]. Qed.

Lemma reached_ok good_token qs s : reached good_token qs s -> exists live, ledger_ok s live /\ balance s live ≡ₚ qs.
Proof.
  induction 1 as [|qs s e s' _ (live & Ho & Hb) Ha Hs]; [exists ∅; split; [apply ledger_start|done]|].
  destruct (step_handles env s live e Ho Ha) as (s1 & live1 & E & Ho1 & Hb1 & _). rewrite Hs in E. injection E as <-.
  exists live1. split; [done|]. rewrite Hb1, Hb. apply Permutation_app_comm.
Qed.

(** *** What gets deleted *)








(** *** Who listens *)

(** What most operations leave alone. *)
Definition streams_kept (s s' : client) : Prop :=
  file_stream_listeners s' = file_stream_listeners s /\ active_file_streams s' = active_file_streams s.

Lemma streams_kept_trans s s1 s2 : streams_kept s s1 -> streams_kept s1 s2 -> streams_kept s s2.
Proof. intros [H1 H2] [K1 K2]. split; congruence. Qed.

Lemma emits_kept {A} (g : A -> effect) l s : streams_kept s (foldl (fun s a => emit s (g a)) s l).
Proof. revert s. induction l as [|a l IH]; intros s; [done|]. by destruct (IH (emit s (g a))). Qed.

Lemma on_file_download_kept s f r : streams_kept s (on_file_download s f r).
Proof.
  unfold on_file_download. destruct (file_download_listeners s !! f) as [l|]; [|done]. set (s1 := set_download_started_file_ids _ _).
  apply (streams_kept_trans _ s1); [done|]. clearbody s1. revert s1. induction l as [|q l IH]; intros s1; [done|]. cbn [foldl].
  eapply streams_kept_trans; [|apply IH]. by destruct r.
Qed.

Lemma handle_error_kept s h code m : streams_kept s (handle_error s h code m).
Proof. destruct h; cbn [handle_error]; try done; [by case_match|apply emits_kept|apply on_file_download_kept]. Qed.

Lemma closing_error_kept s code m ra s' : get_closing_error env s = Some (code, m, ra, s') -> streams_kept s s'.
Proof.
  destruct (closing s || logging_out s) eqn:Hc.
  - destruct (get_closing_error_some env s Hc) as (? & ? & ? & ? & -> & _ & Ha & Hl & _). by intros [= <- <- <- <-].
  - apply orb_false_iff in Hc as [Hc Hl]. unfold get_closing_error. by rewrite Hl, Hc.
Qed.

Lemma do_send_kept s f h s' : do_send_request s f h = Some s' -> streams_kept s s'.
Proof. unfold do_send_request. case_match; [|done]. by destruct (Container.create _ _ _) as [[id c]|]; intros [= <-]. Qed.

Lemma send_request_kept s f h s' : send_request env s f h = Some s' -> streams_kept s s'.
Proof.
  unfold send_request. case_bool; [|apply do_send_kept]. destruct (get_closing_error env s) as [[[[code m] ra] s1]|] eqn:E; [|done].
  intros [= <-]. eapply streams_kept_trans; [by eapply closing_error_kept|apply handle_error_kept].
Qed.

Lemma check_space_kept s n l : streams_kept s (check_workdir_space_for_download env s n l).2.
Proof. unfold check_workdir_space_for_download. cbn. by case_match. Qed.

Lemma fail_query_closing_kept s q s' : fail_query_closing env s q = Some s' -> streams_kept s s'.
Proof.
  unfold fail_query_closing. destruct (get_closing_error env s) as [[[[code m] ra] s1]|] eqn:E; [|done]. intros [= <-].
  by apply (streams_kept_trans _ s1); [eapply closing_error_kept|].
Qed.

Lemma do_get_file_kept s file q s' : do_get_file env s file q = Some s' -> streams_kept s s'.
Proof.
  unfold do_get_file. case_bool; [by intros [= <-]|]. set (n := if 0 <? size_ file then _ else _).
  pose proof (check_space_kept s n (Z.max 0 (downloaded_size_ file))) as Hk. clearbody n.
  destruct (check_workdir_space_for_download _ _ _ _) as [[] s1]; cbn [negb snd] in *; [|by intros [= <-]].
  intros E%send_request_kept. by eapply streams_kept_trans.
Qed.

Lemma on_update_file_kept s file s' : on_update_file env s file = Some s' -> streams_kept s s'.
Proof.
  unfold on_update_file. set (s1 := to_listeners _ _ _). assert (streams_kept s s1) as Hk by apply emits_kept. clearbody s1.
  intros E. apply (streams_kept_trans _ s1); [done|]. clear s Hk.
  case_bool; [by injection E as <-|]. case_bool; [|case_bool; [|case_bool]].
  - assert (forall s2, Some (on_file_download s2 (id_ file) (error 400 "Bad Request: file is too big")) = Some s' -> streams_kept s2 s') as Hl
      by (intros s2 [= <-]; apply on_file_download_kept).
    case_bool; [|by apply Hl]. destruct (send_request _ _ _ _) as [s2|] eqn:Es; [|done]. apply Hl in E.
    by eapply streams_kept_trans; [eapply send_request_kept|].
  - injection E as <-. apply on_file_download_kept.
  - case_bool; [|injection E as <-; apply on_file_download_kept]. destruct (get_closing_error env s1) as [[[[code m] ra] s2]|] eqn:Ec; [|done].
    injection E as <-. eapply streams_kept_trans; [by eapply closing_error_kept|apply on_file_download_kept].
  - by injection E as <-.
Qed.

Definition listens (s : client) (f stream_id : Z) : Prop := stream_id ∈ ref_id <$> default [] (file_stream_listeners s !! f).

Lemma kept_listens s s' f sid : streams_kept s s' -> listens s f sid -> listens s' f sid.
Proof. unfold listens. by intros [-> _]. Qed.

Lemma on_remote_file_listens s stream sid' es file s' f sid : on_remote_file env s stream sid' es file = Some s' -> listens s f sid -> listens s' f sid.
Proof.
  unfold on_remote_file. destruct (active_file_streams s !! sid'); [|by intros [= <-]].
  destruct (resolve_file_stream_size _ _) as [a|]; [|by intros [= <-]]. set (nd := bool_decide _). clearbody nd.
  pose proof (check_space_kept s a (downloaded_size_ file)) as Hk.
  destruct (if nd then check_workdir_space_for_download env s a (downloaded_size_ file) else (true, s)) as [al s1] eqn:E.
  assert (streams_kept s s1) as Ha by (destruct nd; [by rewrite E in Hk|injection E as <- <-; done]). clear E Hk.
  intros Er Hl. apply (kept_listens _ _ _ _ Ha) in Hl. destruct al; cbn [negb] in Er; [|by injection Er as <-].
  set (s2 := set_file_stream_listeners s1 _) in *. assert (listens s2 f sid) as H2.
  { unfold listens, s2 in *. cbn. destruct (decide (id_ file = f)) as [->|Hn]; [|by rewrite lookup_insert_ne].
    rewrite lookup_insert_eq. cbn. rewrite fmap_app. apply elem_of_app. by left. }
  clearbody s2. destruct nd; [apply send_request_kept in Er; by eapply kept_listens|by injection Er as <-].
Qed.

Lemma remove_listens s sid' f' rr co s' f sid : remove_file_stream env s sid' f' rr co = Some s' -> ~ (sid' = sid /\ f' = f) ->
  listens s f sid -> listens s' f sid.
Proof.
  unfold remove_file_stream. set (s1 := set_pending_file_streams _ _). intros E Hne Hl. assert (listens s1 f sid) as H1 by done. clearbody s1. clear Hl.
  case_bool; [by injection E as <-|]. destruct (file_stream_listeners s1 !! f') as [l|] eqn:El; [|by injection E as <-].
  destruct (decide (f' = f)) as [->|Hf].
  - assert (exists r, r ∈ filter (fun r => ref_id r <> sid') l /\ ref_id r = sid) as (r & Hr & Es).
    { unfold listens in H1. rewrite El in H1. apply list_elem_of_fmap in H1 as (r & -> & Hr). exists r. split; [|done].
      apply list_elem_of_filter. split; [|done]. intros Es. by apply Hne. }
    rewrite bool_decide_eq_false_2 in E by (intros En; rewrite En in Hr; by apply elem_of_nil in Hr). injection E as <-.
    unfold listens. cbn. rewrite lookup_insert_eq. cbn. rewrite <-Es. by apply list_elem_of_fmap_2.
  - case_bool; [injection E as <-; unfold listens in *; cbn; by rewrite lookup_insert_ne|].
    set (s2 := set_file_stream_listeners s1 _) in *. assert (listens s2 f sid) as H2 by (unfold listens in *; cbn; by rewrite lookup_delete_ne).
    clearbody s2. destruct (decide_file_stream_local_copy_action _); [by injection E as <-| | |by injection E as <-]; apply send_request_kept in E;
      by eapply kept_listens.
Qed.

Lemma start_kept s stream sid' fid es s' : start_file_stream env s stream sid' fid es = Some s' -> file_stream_listeners s' = file_stream_listeners s.
Proof.
  unfold start_file_stream. set (s1 := set_active_file_streams s _). assert (file_stream_listeners s1 = file_stream_listeners s) as E1 by done. clearbody s1.
  case_bool; [by intros [= <-]|]. case_bool; [|case_bool; [by intros [= <-]|]].
  - destruct (get_closing_error env s1) as [[[[code m] ra] s2]|] eqn:Ec; [|done]. intros [= <-]. cbn. apply closing_error_kept in Ec as [-> _]. done.
  - intros [-> _]%send_request_kept. done.
Qed.

Lemma start_streams_kept l s s' : start_file_streams env s l = Some s' -> file_stream_listeners s' = file_stream_listeners s.
Proof.
  unfold start_file_streams. revert s. induction l as [|p l IH]; intros s; [by intros [= <-]|]. cbn [foldl mbind option_bind].
  destruct (start_file_stream _ _ _ _ _ _) as [s1|] eqn:E; [|clear; induction l; [done|]; by cbn].
  intros ->%IH. by eapply start_kept.
Qed.

Lemma handle_result_listens s h o s' f sid : handle_result env s h o = Some s' -> listens s f sid -> listens s' f sid.
Proof.
  destruct o as [code m|file|]; cbn [handle_result]; [intros [= <-]; apply kept_listens, handle_error_kept| |].
  - destruct h as [stream sid' es|file_id|file_id| |file_id|q|q k|q|]; try done.
    + apply on_remote_file_listens.
    + intros E%on_update_file_kept. by apply kept_listens.
    + intros E%on_update_file_kept. apply kept_listens. eapply streams_kept_trans; [|exact E]. by case_match.
    + destruct k as [[]|]; cbn [run_on_success]; [by intros [= <-]|intros E%do_get_file_kept; by apply kept_listens|].
      case_bool; [by intros [= <-]|]. intros E%send_request_kept. by apply kept_listens.
  - destruct h; try done; try (by intros [= <-]). case_bool; [done|by intros [= <-]].
Qed.

(** A listener leaves when its stream does, or when the client closes. *)
Lemma step_listens s e s' f sid : step env s e = Some s' ->
  match e with Closed => False | RemoveFileStream sid' f' _ _ => ~ (sid' = sid /\ f' = f) | _ => True end -> listens s f sid -> listens s' f sid.
Proof.
  destruct e as [st sid' fid es|sid' fid rr co|fid|c q|id o|file| | | | | |code m]; cbn [step]; intros E He Hl; try done.
  - unfold listens. by rewrite (start_kept _ _ _ _ _ _ E).
  - by eapply remove_listens.
  - revert E. unfold request_file_redownload. do 2 (case_bool; [by intros [= <-]|]). intros E%send_request_kept. by eapply kept_listens.
  - apply (kept_listens s); [|done].
    assert (forall fid k, check_remote_file_id env s fid q k = Some s' -> streams_kept s s') as Hc.
    { intros fid k. unfold check_remote_file_id. case_bool; [by intros [= <-]|]. apply send_request_kept. }
    assert (on_method env s c q = Some s' -> streams_kept s s') as Hm.
    { unfold on_method. case_bool; [apply fail_query_closing_kept|]. case_bool; [done|]. destruct c; try apply Hc; by intros [= <-]. }
    unfold on_cmd, ask in E. case_bool; [|auto]. destruct c; try (by apply Hm); [case_bool; [by injection E as <-|]|]; by apply do_send_kept in E.
  - unfold on_result in E. destruct (Container.get _ _) as [[h|]|]; try done. cbn [mbind option_bind] in E.
    destruct (Container.modify _ _ _) as [c|]; [|done]. cbn [mbind option_bind] in E.
    destruct (handle_result _ _ _ _) as [s1|] eqn:Eh; [|done]. injection E as <-. by apply (handle_result_listens _ _ _ _ f sid Eh).
  - by eapply kept_listens; [eapply on_update_file_kept|].
  - unfold on_authorized in E. case_bool; [by injection E as <-|]. apply start_streams_kept in E. unfold listens. by rewrite E.
  - by injection E as <-.
  - by injection E as <-.
  - unfold close in E. case_bool; [by injection E as <-|]. case_bool; [by injection E as <-|]. apply do_send_kept in E. by apply (kept_listens _ _ _ _ E).
  - unfold log_out in E. set (s1 := if is_message m _ then _ else _) in E. assert (listens s1 f sid) as H1 by (unfold s1, ask; by repeat case_match).
    clearbody s1. case_bool; [|by injection E as <-]. apply do_send_kept in E. by eapply kept_listens.
Qed.

(** *** Closing *)

Lemma fail_queries_closing_out l s : closing s || logging_out s = true -> exists s' answers, fail_queries_closing env s l = Some s'
  /\ out s' = out s ++ zip_with Reply l answers /\ length answers = length l /\ Forall (fun a => forall x, a <> Answered x) answers
  /\ streams_kept s s' /\ td_client s' = td_client s /\ file_download_listeners s' = file_download_listeners s.
Proof.
  unfold fail_queries_closing. revert s. induction l as [|q l IH]; intros s Hc.
  { exists s, []. rewrite app_nil_r. by split_and!. }
  cbn [foldl mbind option_bind]. unfold fail_query_closing at 2.
  destruct (get_closing_error_some env s Hc) as (code & m & ra & s1 & -> & (Hf & Hh & Hd & Ho) & Ha & Hl & _). cbn [mbind option_bind].
  set (a := if 0 <? ra then _ else _). injection Hf as _ Hc1 Hl1 Ht1 _.
  destruct (IH (emit s1 (Reply q a))) as (s' & answers & -> & Eo & El & Hall & Hk & Ht & Hd'); [by cbn; rewrite Hc1, Hl1|].
  exists s', (a :: answers). split; [done|]. split; [by rewrite Eo; cbn; rewrite Ho, <-app_assoc|]. split; [cbn; by rewrite El|].
  split; [constructor; [unfold a; by case_match|done]|]. split; [|by rewrite Ht, Hd'].
  by apply (streams_kept_trans _ (emit s1 (Reply q a))).
Qed.

Lemma emits_out {A} (g : A -> effect) l s : out (foldl (fun s a => emit s (g a)) s l) = out s ++ (g <$> l)
  /\ td_client (foldl (fun s a => emit s (g a)) s l) = td_client s
  /\ file_download_listeners (foldl (fun s a => emit s (g a)) s l) = file_download_listeners s.
Proof.
  revert s. induction l as [|a l IH]; intros s; [by rewrite app_nil_r|]. cbn [foldl]. destruct (IH (emit s (g a))) as (-> & -> & ->).
  split; [cbn; by rewrite <-app_assoc|done].
Qed.

Definition closing_error : status := Status 503 (lit "Bot API client is closing").

Lemma on_closed_out s : (logging_out s || closing s) && td_client s = true -> exists s' answers, on_closed env s = Some s'
  /\ out s' = out s ++ zip_with Reply (waiting_for_downloads s) answers
               ++ ((fun stream => ToStream stream (Stream.FileError closing_error)) <$> (map_to_list (active_file_streams s)).*2)
  /\ length answers = length (waiting_for_downloads s) /\ Forall (fun a => forall x, a <> Answered x) answers
  /\ td_client s' = false /\ file_download_listeners s' = ∅ /\ download_started_file_ids s' = ∅
  /\ file_stream_listeners s' = ∅ /\ active_file_streams s' = ∅ /\ pending_file_streams s' = [].
Proof.
  intros [Hc Ht]%andb_true_iff. unfold on_closed, reset_td_client. rewrite Hc, Ht. cbn [negb orb mbind option_bind]. unfold close_files. rewrite orb_comm in Hc.
  change (concat _) with (waiting_for_downloads s). set (s1 := set_file_download_listeners _ ∅).
  destruct (fail_queries_closing_out (waiting_for_downloads s) s1 Hc) as (s2 & answers & -> & Eo & El & Hall & [_ Ha] & Ht2 & Hd). cbn [mbind option_bind].
  destruct (emits_out (fun stream => ToStream stream (Stream.FileError closing_error)) (map_to_list (active_file_streams s2)).*2 s2) as (Eo2 & Ht3 & Hd3).
  change (Status 503 (lit "Bot API client is closing")) with closing_error. eexists _, answers. split; [reflexivity|].
  set (s3 := foldl (fun s stream => to_stream_error s stream closing_error) s2 (map_to_list (active_file_streams s2)).*2) in *.
  change (out s3 = out s2 ++ ((fun stream => ToStream stream (Stream.FileError closing_error)) <$> (map_to_list (active_file_streams s2)).*2)) in Eo2.
  change (td_client s3 = td_client s2) in Ht3. change (file_download_listeners s3 = file_download_listeners s2) in Hd3. clearbody s3.
  split; [|split; [done|split; [done|split; [|split; [|done]]]]].
  - cbn. by rewrite Eo2, Eo, Ha, <-app_assoc.
  - cbn. by rewrite Ht3, Ht2.
  - cbn. by rewrite Hd3, Hd.
Qed.

(** *** A stream that leaves early *)

Lemma cancel_sent s live f : ledger_ok s live -> room 1 s -> closing s || logging_out s = false ->
  exists id c, send_request env s (CancelDownloadFile f) OnCancelDownloadFile = Some (emit (set_handlers s c) (Request id (CancelDownloadFile f))).
Proof.
  intros H Hr Hc. destruct (ok_open _ _ H) as [Ht|Ho]; [|by rewrite Hc in Ho]. unfold room in Hr.
  destruct (held_create int32_max (handlers s) _ live (Some OnCancelDownloadFile) (ok_held _ _ H) ltac:(lia) ltac:(done)) as (id & c & E & _).
  exists id, c. unfold send_request, do_send_request. by rewrite Hc, Ht, E.
Qed.

Lemma foldl_none (es : list event) : foldl (fun s e => s ← s; step env s e) None es = None.
Proof. by induction es. Qed.

Lemma last_listener_leaves s live sid f rr l : ledger_ok s live -> room 1 s -> closing s || logging_out s = false -> f <> 0 ->
  file_stream_listeners s !! f = Some l -> filter (fun r => ref_id r <> sid) l = [] ->
  exists s' id, remove_file_stream env s sid f rr false = Some s' /\ out s' = out s ++ [Request id (CancelDownloadFile f)]
    /\ file_download_listeners s' = file_download_listeners s /\ download_started_file_ids s' = download_started_file_ids s
    /\ file_stream_listeners s' = delete f (file_stream_listeners s) /\ closing s' || logging_out s' = false.
Proof.
  intros H Hr Hc Hf El Ef. unfold remove_file_stream. rewrite (proj2 (Z.eqb_neq f 0) Hf). cbn [file_stream_listeners set_pending_file_streams set_active_file_streams].
  rewrite El, Ef, bool_decide_true by done. cbn [negb]. set (s2 := set_file_stream_listeners _ _).
  assert (alike s s2) as Ha by by split_and!.
  destruct (cancel_sent s2 live f (ok_alike _ _ _ H Ha) (room_alike _ _ _ Hr Ha) Hc) as (id & c & E).
  replace (decide_file_stream_local_copy_action _) with CancelDownload by (unfold decide_file_stream_local_copy_action; cbn; by destruct rr).
  rewrite E. by eexists _, id.
Qed.

Lemma update_gone_fails s file qs : file_download_listeners s !! id_ file = Some qs -> file_stream_listeners s !! id_ file = None ->
  id_ file ∈ download_started_file_ids s -> closing s || logging_out s = false ->
  is_downloading_completed_ file = false -> is_downloading_active_ file = false ->
  local_mode env = true \/ downloaded_size_ file <= MAX_DOWNLOAD_FILE_SIZE ->
  exists s', on_update_file env s file = Some s'
    /\ out s' = out s ++ ((fun q => Reply q (fail_query_with_error (method_of q) 400 (lit "Bad Request: wrong file_id or the file is temporarily unavailable") [])) <$> qs).
Proof.
  intros Hq Hl Hs Hc Hcomp Hact Hsize. unfold on_update_file. unfold to_listeners. rewrite Hl. cbn [default foldl].
  unfold is_file_being_downloaded. rewrite Hq, bool_decide_true by by eexists. cbn [negb].
  replace (negb (local_mode env) && (MAX_DOWNLOAD_FILE_SIZE <? downloaded_size_ file)) with false
    by (destruct Hsize as [->|Hle]; [done|rewrite (ltb_false _ _ Hle); by rewrite andb_false_r]).
  rewrite Hcomp, Hact, bool_decide_true, Hc by done. cbn [negb andb]. eexists. split; [reflexivity|].
  unfold on_file_download, error. rewrite Hq. cbn [st_code st_message].
  match goal with |- out (foldl _ ?s1 qs) = _ => set (s2 := s1) end.
  destruct (emits_out (fun q => Reply q (fail_query_with_error (method_of q) 400 (lit "Bad Request: wrong file_id or the file is temporarily unavailable") [])) qs s2)
    as [E _]. exact E.
Qed.

End Runs.
End FileRuns.

(** ** The properties *)

Import Ledger FileRuns.

Definition sample_env : surroundings := mk_surroundings true 1000 1000 0 0 (fun _ => 0%Q) (fun _ => 1000000).
Definition sample_query (m : string) : Query.promised :=
  Query.mk_promised (fst (Query.create 0 [lit "raw"] (lit "1:a") false (lit m) [(lit "file_id", lit "x")] [] [] None Invalid false)) true.
Definition sample_file (done active : bool) : td_file := mk_td_file 5 100 100 [] 0 0 0 done active.

(** The state after some events, each of which may happen. *)
Definition sample_step (s : option client) (e : event) : option client :=
  s ← s; if allowed s e then step sample_env s e else None.
Definition sample_state (es : list event) : option client := foldl sample_step (Some (create true)) es.

Lemma files_sample_reached es s : sample_state es = Some s -> reached sample_env true (concat (query_received <$> es)) s.
Proof.
  revert s. induction es as [|e es IH] using rev_ind; intros s; [intros [= <-]; constructor|].
  unfold sample_state. rewrite foldl_app. cbn [foldl]. change (foldl sample_step (Some (create true)) es) with (sample_state es).
  destruct (sample_state es) as [s0|]; [|done]. cbn [sample_step mbind option_bind]. case_match eqn:Ha; [|done]. intros Hs.
  rewrite fmap_app, concat_app. cbn [fmap list_fmap concat]. rewrite app_nil_r. eapply reached_step; [by apply IH|done|done].
Qed.

(** A stream listens to the file 5, and a [getFile] waits for its download. *)
Definition sample_events : list event :=
  [Authorized; StartFileStream 7 1 (lit "x") 0; Command GetFileCommand (sample_query "getfile");
   Result 256 (TdFile (sample_file false true)); Result 4294967552 (TdFile (sample_file false true));
   Result 8589934848 (TdFile (sample_file false true)); Result 512 (TdFile (sample_file false true))].
Definition sample_busy : client := default (create true) (sample_state sample_events).
Lemma sample_busy_eq : sample_state sample_events = Some sample_busy.
Proof. vm_compute. reflexivity. Qed.
Lemma files_sample_busy_reached : reached sample_env true [sample_query "getfile"] sample_busy.
Proof. exact (files_sample_reached sample_events sample_busy sample_busy_eq). Qed.


(** TDLib closes. *)
Definition sample_closing : client := default (create true) (sample_state (sample_events ++ [Closing])).
Lemma sample_closing_eq : sample_state (sample_events ++ [Closing]) = Some sample_closing.
Proof. vm_compute. reflexivity. Qed.
Lemma sample_closing_reached : reached sample_env true [sample_query "getfile"] sample_closing.
Proof. exact (files_sample_reached _ sample_closing sample_closing_eq). Qed.

(** The stream is torn down before it has handled that the file is ready. *)
Definition sample_stale_events : list event :=
  [Authorized; StartFileStream 7 1 (lit "x") 0; Result 256 (TdFile (sample_file false true)); RemoveFileStream 1 0 false false].
Definition sample_stale : client := default (create true) (sample_state sample_stale_events).
Lemma sample_stale_eq : sample_state sample_stale_events = Some sample_stale.
Proof. vm_compute. reflexivity. Qed.
Lemma sample_stale_listens : active_file_streams sample_stale = ∅ /\ listens sample_stale 5 1.
Proof. split; [vm_compute; reflexivity|]. unfold listens. apply (bool_decide_unpack _). vm_compute. exact I. Qed.

(** *** Theorems *)

(** C6. Every query that a client has received got exactly one answer, or waits for
    a download, or is in exactly one handler that TDLib has not called yet: at no
    time is a query lost or answered twice. *)
Theorem files_answer_queries env good_token qs s : reached env good_token qs s ->
  qs ≡ₚ replied (out s) ++ waiting_for_downloads s ++ omap query_of (outstanding s).
Proof.
  intros H. destruct (reached_ok env good_token qs s H) as (live & Ho & Hb).
  by rewrite <-Hb, <-(live_outstanding s live Ho).
Qed.



(** C9. Closing tells everybody: every query that waits for a download fails, every
    stream gets the error 503, nothing else is sent, and nothing is left in the
    tables of files and streams. *)
Theorem files_closed env good_token qs s : reached env good_token qs s -> allowed s Closed = true ->
  exists s' answers, step env s Closed = Some s'
    /\ out s' = out s ++ zip_with Reply (waiting_for_downloads s) answers
                 ++ ((fun stream => ToStream stream (Stream.FileError closing_error)) <$> (map_to_list (active_file_streams s)).*2)
    /\ length answers = length (waiting_for_downloads s) /\ Forall (fun a => forall x, a <> Answered x) answers
    /\ td_client s' = false /\ file_download_listeners s' = ∅ /\ download_started_file_ids s' = ∅
    /\ file_stream_listeners s' = ∅ /\ active_file_streams s' = ∅ /\ pending_file_streams s' = [].
Proof. intros _ [_ Ha]%andb_true_iff. by apply on_closed_out. Qed.

(** A stream that is torn down before it has handled the message that its file
    is ready tells the client the file 0, so the client keeps it as a listener of
    the file until the client closes: from then on the local copy is never
    released ([releaseLocalFile] answers 409), and a new stream of the file starts
    no download. *)
Theorem stale_listener env f sid s es s' : listens s f sid -> f <> 0 ->
  Forall (fun e => match e with Closed => False | RemoveFileStream i g _ _ => i = sid -> g = 0 | _ => True end) es ->
  foldl (fun s e => s ← s; step env s e) (Some s) es = Some s' ->
  listens s' f sid
  /\ (forall file q, id_ file = f -> run_on_success env s' ReleaseLocalFile file q
        = Some (emit s' (Reply q (Failed 409 (lit "Conflict: file is currently in use")))))
  /\ (forall file stream id expected_size, id_ file = f ->
        exists s2 m, on_remote_file env s' stream id expected_size file = Some s2 /\ out s2 = out s' ++ m /\ forall i g, Request i g ∉ m).
Proof.
  intros Hl Hf Hes E. assert (listens s' f sid) as H'.
  { revert s Hl E. induction Hes as [|e es He _ IH]; intros s Hl E; [by injection E as <-|]. cbn [foldl mbind option_bind] in E.
    destruct (step env s e) as [s1|] eqn:Es; [|by rewrite foldl_none in E].
    apply (IH s1); [|done]. apply (step_listens env s e s1 f sid Es); [|done]. destruct e; try done. intros [-> ->]. by apply Hf, He. }
  assert (file_stream_listeners s' !! f <> None) as Hn by (intros E'; unfold listens in H'; rewrite E' in H'; by apply elem_of_nil in H').
  assert (default [] (file_stream_listeners s' !! f) <> []) as Hd by (intros E'; unfold listens in H'; rewrite E' in H'; by apply elem_of_nil in H').
  split; [done|]. split.
  - intros file q <-. cbn [run_on_success]. rewrite (bool_decide_eq_true_2 (is_Some _)) by by apply not_eq_None_Some. by rewrite orb_true_r.
  - intros file stream id es' <-. unfold on_remote_file. rewrite bool_decide_eq_false_2 by done. cbn [negb].
    destruct (active_file_streams s' !! id); [|exists s', []; rewrite app_nil_r; split; [done|]; split; [done|]; intros i g; apply not_elem_of_nil].
    destruct (resolve_file_stream_size _ _) as [a|]; eexists _, [_]; (split; [reflexivity|]); (split; [reflexivity|]); by intros i g ?%list_elem_of_singleton.
Qed.

(** C10. When the last stream of a file leaves without having finished, the client
    cancels the download even if a [getFile] waits for the same file: once TDLib
    reports that the download has stopped, each of these queries fails. *)
Theorem early_leaver_fails_get_file env good_token qs s sid f rr l queries : reached env good_token qs s -> allowed s (RemoveFileStream sid f rr false) = true ->
  closing s || logging_out s = false -> f <> 0 -> file_stream_listeners s !! f = Some l -> filter (fun r => ref_id r <> sid) l = [] ->
  file_download_listeners s !! f = Some queries -> f ∈ download_started_file_ids s ->
  exists s1 id, step env s (RemoveFileStream sid f rr false) = Some s1 /\ out s1 = out s ++ [Request id (CancelDownloadFile f)]
    /\ file_download_listeners s1 = file_download_listeners s
    /\ forall file, id_ file = f -> is_downloading_completed_ file = false -> is_downloading_active_ file = false ->
          local_mode env = true \/ downloaded_size_ file <= MAX_DOWNLOAD_FILE_SIZE ->
          exists s2, step env s1 (UpdateFile file) = Some s2
            /\ out s2 = out s1 ++ ((fun q => Reply q (Failed 400 (lit "Bad Request: wrong file_id or the file is temporarily unavailable"))) <$> queries).
Proof.
  intros H [Hr%Z.leb_le _]%andb_true_iff Hc Hf El Ef Eq Hs. destruct (reached_ok env good_token qs s H) as (live & Ho & _).
  pose proof (len_nonneg (pending_file_streams s)).
  destruct (last_listener_leaves env s live sid f rr l Ho ltac:(unfold room; lia) Hc Hf El Ef) as (s1 & id & E & Eo & Ed & Es & Elis & Hc1).
  exists s1, id. split; [done|]. split; [done|]. split; [done|]. intros file <- Hcomp Hact Hsize.
  apply (update_gone_fails env s1 file queries); try done; [by rewrite Ed|rewrite Elis; apply lookup_delete_eq|by rewrite Es].
Qed.

(** *** Instances *)

Lemma files_answer_queries_witness : [sample_query "getfile"] ≡ₚ
  replied (out sample_busy) ++ waiting_for_downloads sample_busy ++ omap query_of (outstanding sample_busy).
Proof. exact (files_answer_queries sample_env true _ sample_busy files_sample_busy_reached). Defined.





Lemma sample_closing_allowed : allowed sample_closing Closed = true.
Proof. vm_compute. reflexivity. Qed.

Lemma files_closed_witness : exists s', step sample_env sample_closing Closed = Some s' /\ active_file_streams s' = ∅.
Proof.
  destruct (files_closed sample_env true _ sample_closing sample_closing_reached sample_closing_allowed)
    as (s' & answers & E & _ & _ & _ & _ & _ & _ & _ & Ha & _). exists s'. split; [exact E|exact Ha].
Defined.

Lemma stale_listener_witness : active_file_streams sample_stale = ∅
  /\ run_on_success sample_env sample_stale ReleaseLocalFile (sample_file true false) (sample_query "releaselocalfile")
     = Some (emit sample_stale (Reply (sample_query "releaselocalfile") (Failed 409 (lit "Conflict: file is currently in use")))).
Proof.
  destruct sample_stale_listens as [Ha Hl]. split; [done|].
  destruct (stale_listener sample_env 5 1 sample_stale [] sample_stale Hl ltac:(done) ltac:(constructor) eq_refl) as (_ & H & _).
  exact (H (sample_file true false) (sample_query "releaselocalfile") eq_refl).
Defined.

Lemma sample_busy_facts : allowed sample_busy (RemoveFileStream 1 5 false false) = true /\ closing sample_busy || logging_out sample_busy = false
  /\ file_stream_listeners sample_busy !! 5 = Some [mk_stream_ref 1 7] /\ file_download_listeners sample_busy !! 5 = Some [sample_query "getfile"]
  /\ 5 ∈ download_started_file_ids sample_busy.
Proof. do 4 (split; [vm_compute; reflexivity|]). apply (bool_decide_unpack _). vm_compute. exact I. Qed.

Lemma early_leaver_fails_get_file_witness : exists s1 s2, step sample_env sample_busy (RemoveFileStream 1 5 false false) = Some s1
  /\ step sample_env s1 (UpdateFile (sample_file false false)) = Some s2
  /\ out s2 = out s1 ++ [Reply (sample_query "getfile") (Failed 400 (lit "Bad Request: wrong file_id or the file is temporarily unavailable"))].
Proof.
  destruct sample_busy_facts as (Ha & Hc & Hl & Hd & Hs).
  destruct (early_leaver_fails_get_file sample_env true _ sample_busy 1 5 false [mk_stream_ref 1 7] [sample_query "getfile"]
              files_sample_busy_reached Ha Hc ltac:(done) Hl eq_refl Hd Hs) as (s1 & id & E & _ & _ & H).
  destruct (H (sample_file false false) eq_refl eq_refl eq_refl (or_introl eq_refl)) as (s2 & E2 & Eo).
  cbn [fmap list_fmap] in Eo. exists s1, s2. split; [exact E|]. split; [exact E2|exact Eo].
Defined.
