(* ===== verification/ClientUpdates.v ===== *)
(** * Updates of a bot ([Client.h], [Client.cpp])

    Module [Updates]: how a client hands out the updates of its bot - getUpdates
    with its long poll, setWebhook and deleteWebhook with the life of the webhook
    actor - on top of [ClientFiles.v] (the flags of the client, its requests to
    TDLib and its files) and of the shared queues of [TQueue.v].  The webhook
    actor, the scheduler that copies and unlinks certificates and the timer are
    the environment: they get effects and answer with events. *)

From Stdlib Require Import Qround.
From S2P Require Import Prelude TdMisc Utf8 Json IPAddress Stats Query FileStreamCore HttpHeader FileStreamConnection Workdir HttpUrl Base64 Containers TQueue ClientWebhook WebhookActor ClientFiles.

Import Strings ClientError.

Module Updates.
Module Webhook := ClientWebhook.Webhook.
#[local] Existing Instance Url.protocol_eq_dec.

Definition MAX_CERTIFICATE_FILE_SIZE : Z := Z.shiftl 3 20.
Definition MIN_PENDING_UPDATES_WARNING : Z := 200.
Definition LONG_POLL_MAX_TIMEOUT : Z := 50.
Definition LONG_POLL_MAX_DELAY : time := 2 # 1000.
Definition LONG_POLL_WAIT_AFTER : time := 1 # 1000.
Definition BOT_UPDATES_WARNING_DELAY : Z := 30.

Inductive webhook_query_type_t := Cancel | Verify.

(** A query kept in a member: [fail_query_closing] leaves it there, answered,
    when it has set a retry-after error. *)
Record held_query := mk_held { h_query : Query.promised; h_answered : bool }.

(** What queries get: the texts of updates, and [true] with a description. *)
Inductive update_answer := UpdateList (updates : list bytes) | TrueWith (description : bytes).

Inductive effect :=
| Answer (query : Query.promised) (a : answer update_answer)
| FailLater (query : Query.promised) (seconds : Z) (code : Z) (message : bytes)
(* to the webhook actor and to the one that counts *)
| CreateWebhook (generation : Z) (url : Url.http_url) (cert : bool) (max_connections : Z) (from_db : bool) (ip_address : bytes)
    (fix_ip_address : bool) (secret_token : bytes)
| CloseWebhook
| DropWebhook                              (* its owner is destroyed *)
| NotifyWebhook
| StatUpdate
(* [webhook_db_] *)
| SaveWebhook (value : bytes)
| EraseWebhook
(* to other schedulers *)
| CopyCertificate (from : bytes) (size : Z)
| UnlinkCertificate (closed : bytes)
| RemoveDirectory
(* to itself *)
| SetTimeoutIn (seconds : time)
| Stop.

Definition set_has_webhook_certificate (s : Webhook.webhook) (v : bool) : Webhook.webhook :=
  Webhook.mk_webhook v (Webhook.webhook_max_connections s) (Webhook.webhook_ip_address s)
  (Webhook.webhook_fix_ip_address s) (Webhook.webhook_secret_token s) (Webhook.allowed_update_types s)
  (Webhook.webhook_url s).
Definition set_webhook_max_connections (s : Webhook.webhook) (v : Z) : Webhook.webhook :=
  Webhook.mk_webhook (Webhook.has_webhook_certificate s) v (Webhook.webhook_ip_address s)
  (Webhook.webhook_fix_ip_address s) (Webhook.webhook_secret_token s) (Webhook.allowed_update_types s)
  (Webhook.webhook_url s).
Definition set_webhook_ip_address (s : Webhook.webhook) (v : bytes) : Webhook.webhook := Webhook.mk_webhook
  (Webhook.has_webhook_certificate s) (Webhook.webhook_max_connections s) v (Webhook.webhook_fix_ip_address s)
  (Webhook.webhook_secret_token s) (Webhook.allowed_update_types s) (Webhook.webhook_url s).
Definition set_webhook_fix_ip_address (s : Webhook.webhook) (v : bool) : Webhook.webhook :=
  Webhook.mk_webhook (Webhook.has_webhook_certificate s) (Webhook.webhook_max_connections s)
  (Webhook.webhook_ip_address s) v (Webhook.webhook_secret_token s) (Webhook.allowed_update_types s)
  (Webhook.webhook_url s).
Definition set_webhook_secret_token (s : Webhook.webhook) (v : bytes) : Webhook.webhook :=
  Webhook.mk_webhook (Webhook.has_webhook_certificate s) (Webhook.webhook_max_connections s)
  (Webhook.webhook_ip_address s) (Webhook.webhook_fix_ip_address s) v (Webhook.allowed_update_types s)
  (Webhook.webhook_url s).
Definition set_allowed_update_types (s : Webhook.webhook) (v : Z) : Webhook.webhook := Webhook.mk_webhook
  (Webhook.has_webhook_certificate s) (Webhook.webhook_max_connections s) (Webhook.webhook_ip_address s)
  (Webhook.webhook_fix_ip_address s) (Webhook.webhook_secret_token s) v (Webhook.webhook_url s).
Definition set_webhook_url (s : Webhook.webhook) (v : bytes) : Webhook.webhook := Webhook.mk_webhook
  (Webhook.has_webhook_certificate s) (Webhook.webhook_max_connections s) (Webhook.webhook_ip_address s)
  (Webhook.webhook_fix_ip_address s) (Webhook.webhook_secret_token s) (Webhook.allowed_update_types s) v.
Section WithQueues.
Context {St : Type} `{!Queues.storage_ops St}.

Record client := mk_client {
  base : Files.client;  (* files, flags and requests *)
  tqueue : Queues.tqueue St;  (* of [SharedData] *)
  cmd_queue : list Query.promised;
  long_poll_query : option Query.promised;
  long_poll_offset : Z;
  long_poll_limit : Z;
  long_poll_was_wakeup : bool;
  long_poll_hard_timeout : time;
  long_poll_slot : option time;  (* when [long_poll_slot_] raises its event *)
  next_bot_updates_warning_time : time;
  was_bot_updates_warning : bool;
  last_pending_update_count : Z;
  previous_get_updates_offset : Z;
  previous_get_updates_start_time : time;
  previous_get_updates_finish_time : time;
  next_get_updates_conflict_time : time;
  settings : Webhook.webhook;  (* the members that are stored *)
  webhook_id : bool;  (* owns a [WebhookActor] *)
  webhook_query_type : webhook_query_type_t;
  webhook_set_query : option held_query;
  active_webhook_set_query : option held_query;
  webhook_set_time : time;
  last_webhook_error_date : Z;  (* 0: there is no error *)
  last_webhook_error : option bytes;
  next_allowed_set_webhook_time : time;
  webhook_generation : Z;
  sent : list effect;  (* effects, but for those of [base] *)
}.

Definition set_base (s : client) (v : Files.client) : client := mk_client v (tqueue s) (cmd_queue s)
  (long_poll_query s) (long_poll_offset s) (long_poll_limit s) (long_poll_was_wakeup s) (long_poll_hard_timeout s)
  (long_poll_slot s) (next_bot_updates_warning_time s) (was_bot_updates_warning s) (last_pending_update_count s)
  (previous_get_updates_offset s) (previous_get_updates_start_time s) (previous_get_updates_finish_time s)
  (next_get_updates_conflict_time s) (settings s) (webhook_id s) (webhook_query_type s) (webhook_set_query s)
  (active_webhook_set_query s) (webhook_set_time s) (last_webhook_error_date s) (last_webhook_error s)
  (next_allowed_set_webhook_time s) (webhook_generation s) (sent s).
Definition set_tqueue (s : client) (v : Queues.tqueue St) : client := mk_client (base s) v (cmd_queue s)
  (long_poll_query s) (long_poll_offset s) (long_poll_limit s) (long_poll_was_wakeup s) (long_poll_hard_timeout s)
  (long_poll_slot s) (next_bot_updates_warning_time s) (was_bot_updates_warning s) (last_pending_update_count s)
  (previous_get_updates_offset s) (previous_get_updates_start_time s) (previous_get_updates_finish_time s)
  (next_get_updates_conflict_time s) (settings s) (webhook_id s) (webhook_query_type s) (webhook_set_query s)
  (active_webhook_set_query s) (webhook_set_time s) (last_webhook_error_date s) (last_webhook_error s)
  (next_allowed_set_webhook_time s) (webhook_generation s) (sent s).
Definition set_cmd_queue (s : client) (v : list Query.promised) : client := mk_client (base s) (tqueue s) v
  (long_poll_query s) (long_poll_offset s) (long_poll_limit s) (long_poll_was_wakeup s) (long_poll_hard_timeout s)
  (long_poll_slot s) (next_bot_updates_warning_time s) (was_bot_updates_warning s) (last_pending_update_count s)
  (previous_get_updates_offset s) (previous_get_updates_start_time s) (previous_get_updates_finish_time s)
  (next_get_updates_conflict_time s) (settings s) (webhook_id s) (webhook_query_type s) (webhook_set_query s)
  (active_webhook_set_query s) (webhook_set_time s) (last_webhook_error_date s) (last_webhook_error s)
  (next_allowed_set_webhook_time s) (webhook_generation s) (sent s).
Definition set_long_poll_query (s : client) (v : option Query.promised) : client := mk_client (base s) (tqueue s)
  (cmd_queue s) v (long_poll_offset s) (long_poll_limit s) (long_poll_was_wakeup s) (long_poll_hard_timeout s)
  (long_poll_slot s) (next_bot_updates_warning_time s) (was_bot_updates_warning s) (last_pending_update_count s)
  (previous_get_updates_offset s) (previous_get_updates_start_time s) (previous_get_updates_finish_time s)
  (next_get_updates_conflict_time s) (settings s) (webhook_id s) (webhook_query_type s) (webhook_set_query s)
  (active_webhook_set_query s) (webhook_set_time s) (last_webhook_error_date s) (last_webhook_error s)
  (next_allowed_set_webhook_time s) (webhook_generation s) (sent s).
Definition set_long_poll_offset (s : client) (v : Z) : client := mk_client (base s) (tqueue s) (cmd_queue s)
  (long_poll_query s) v (long_poll_limit s) (long_poll_was_wakeup s) (long_poll_hard_timeout s) (long_poll_slot s)
  (next_bot_updates_warning_time s) (was_bot_updates_warning s) (last_pending_update_count s)
  (previous_get_updates_offset s) (previous_get_updates_start_time s) (previous_get_updates_finish_time s)
  (next_get_updates_conflict_time s) (settings s) (webhook_id s) (webhook_query_type s) (webhook_set_query s)
  (active_webhook_set_query s) (webhook_set_time s) (last_webhook_error_date s) (last_webhook_error s)
  (next_allowed_set_webhook_time s) (webhook_generation s) (sent s).
Definition set_long_poll_limit (s : client) (v : Z) : client := mk_client (base s) (tqueue s) (cmd_queue s)
  (long_poll_query s) (long_poll_offset s) v (long_poll_was_wakeup s) (long_poll_hard_timeout s) (long_poll_slot s)
  (next_bot_updates_warning_time s) (was_bot_updates_warning s) (last_pending_update_count s)
  (previous_get_updates_offset s) (previous_get_updates_start_time s) (previous_get_updates_finish_time s)
  (next_get_updates_conflict_time s) (settings s) (webhook_id s) (webhook_query_type s) (webhook_set_query s)
  (active_webhook_set_query s) (webhook_set_time s) (last_webhook_error_date s) (last_webhook_error s)
  (next_allowed_set_webhook_time s) (webhook_generation s) (sent s).
Definition set_long_poll_was_wakeup (s : client) (v : bool) : client := mk_client (base s) (tqueue s) (cmd_queue s)
  (long_poll_query s) (long_poll_offset s) (long_poll_limit s) v (long_poll_hard_timeout s) (long_poll_slot s)
  (next_bot_updates_warning_time s) (was_bot_updates_warning s) (last_pending_update_count s)
  (previous_get_updates_offset s) (previous_get_updates_start_time s) (previous_get_updates_finish_time s)
  (next_get_updates_conflict_time s) (settings s) (webhook_id s) (webhook_query_type s) (webhook_set_query s)
  (active_webhook_set_query s) (webhook_set_time s) (last_webhook_error_date s) (last_webhook_error s)
  (next_allowed_set_webhook_time s) (webhook_generation s) (sent s).
Definition set_long_poll_hard_timeout (s : client) (v : time) : client := mk_client (base s) (tqueue s) (cmd_queue
  s) (long_poll_query s) (long_poll_offset s) (long_poll_limit s) (long_poll_was_wakeup s) v (long_poll_slot s)
  (next_bot_updates_warning_time s) (was_bot_updates_warning s) (last_pending_update_count s)
  (previous_get_updates_offset s) (previous_get_updates_start_time s) (previous_get_updates_finish_time s)
  (next_get_updates_conflict_time s) (settings s) (webhook_id s) (webhook_query_type s) (webhook_set_query s)
  (active_webhook_set_query s) (webhook_set_time s) (last_webhook_error_date s) (last_webhook_error s)
  (next_allowed_set_webhook_time s) (webhook_generation s) (sent s).
Definition set_long_poll_slot (s : client) (v : option time) : client := mk_client (base s) (tqueue s) (cmd_queue
  s) (long_poll_query s) (long_poll_offset s) (long_poll_limit s) (long_poll_was_wakeup s) (long_poll_hard_timeout
  s) v (next_bot_updates_warning_time s) (was_bot_updates_warning s) (last_pending_update_count s)
  (previous_get_updates_offset s) (previous_get_updates_start_time s) (previous_get_updates_finish_time s)
  (next_get_updates_conflict_time s) (settings s) (webhook_id s) (webhook_query_type s) (webhook_set_query s)
  (active_webhook_set_query s) (webhook_set_time s) (last_webhook_error_date s) (last_webhook_error s)
  (next_allowed_set_webhook_time s) (webhook_generation s) (sent s).
Definition set_next_bot_updates_warning_time (s : client) (v : time) : client := mk_client (base s) (tqueue s)
  (cmd_queue s) (long_poll_query s) (long_poll_offset s) (long_poll_limit s) (long_poll_was_wakeup s)
  (long_poll_hard_timeout s) (long_poll_slot s) v (was_bot_updates_warning s) (last_pending_update_count s)
  (previous_get_updates_offset s) (previous_get_updates_start_time s) (previous_get_updates_finish_time s)
  (next_get_updates_conflict_time s) (settings s) (webhook_id s) (webhook_query_type s) (webhook_set_query s)
  (active_webhook_set_query s) (webhook_set_time s) (last_webhook_error_date s) (last_webhook_error s)
  (next_allowed_set_webhook_time s) (webhook_generation s) (sent s).
Definition set_was_bot_updates_warning (s : client) (v : bool) : client := mk_client (base s) (tqueue s) (cmd_queue
  s) (long_poll_query s) (long_poll_offset s) (long_poll_limit s) (long_poll_was_wakeup s) (long_poll_hard_timeout
  s) (long_poll_slot s) (next_bot_updates_warning_time s) v (last_pending_update_count s)
  (previous_get_updates_offset s) (previous_get_updates_start_time s) (previous_get_updates_finish_time s)
  (next_get_updates_conflict_time s) (settings s) (webhook_id s) (webhook_query_type s) (webhook_set_query s)
  (active_webhook_set_query s) (webhook_set_time s) (last_webhook_error_date s) (last_webhook_error s)
  (next_allowed_set_webhook_time s) (webhook_generation s) (sent s).
Definition set_last_pending_update_count (s : client) (v : Z) : client := mk_client (base s) (tqueue s) (cmd_queue
  s) (long_poll_query s) (long_poll_offset s) (long_poll_limit s) (long_poll_was_wakeup s) (long_poll_hard_timeout
  s) (long_poll_slot s) (next_bot_updates_warning_time s) (was_bot_updates_warning s) v
  (previous_get_updates_offset s) (previous_get_updates_start_time s) (previous_get_updates_finish_time s)
  (next_get_updates_conflict_time s) (settings s) (webhook_id s) (webhook_query_type s) (webhook_set_query s)
  (active_webhook_set_query s) (webhook_set_time s) (last_webhook_error_date s) (last_webhook_error s)
  (next_allowed_set_webhook_time s) (webhook_generation s) (sent s).
Definition set_previous_get_updates_offset (s : client) (v : Z) : client := mk_client (base s) (tqueue s)
  (cmd_queue s) (long_poll_query s) (long_poll_offset s) (long_poll_limit s) (long_poll_was_wakeup s)
  (long_poll_hard_timeout s) (long_poll_slot s) (next_bot_updates_warning_time s) (was_bot_updates_warning s)
  (last_pending_update_count s) v (previous_get_updates_start_time s) (previous_get_updates_finish_time s)
  (next_get_updates_conflict_time s) (settings s) (webhook_id s) (webhook_query_type s) (webhook_set_query s)
  (active_webhook_set_query s) (webhook_set_time s) (last_webhook_error_date s) (last_webhook_error s)
  (next_allowed_set_webhook_time s) (webhook_generation s) (sent s).
Definition set_previous_get_updates_start_time (s : client) (v : time) : client := mk_client (base s) (tqueue s)
  (cmd_queue s) (long_poll_query s) (long_poll_offset s) (long_poll_limit s) (long_poll_was_wakeup s)
  (long_poll_hard_timeout s) (long_poll_slot s) (next_bot_updates_warning_time s) (was_bot_updates_warning s)
  (last_pending_update_count s) (previous_get_updates_offset s) v (previous_get_updates_finish_time s)
  (next_get_updates_conflict_time s) (settings s) (webhook_id s) (webhook_query_type s) (webhook_set_query s)
  (active_webhook_set_query s) (webhook_set_time s) (last_webhook_error_date s) (last_webhook_error s)
  (next_allowed_set_webhook_time s) (webhook_generation s) (sent s).
Definition set_previous_get_updates_finish_time (s : client) (v : time) : client := mk_client (base s) (tqueue s)
  (cmd_queue s) (long_poll_query s) (long_poll_offset s) (long_poll_limit s) (long_poll_was_wakeup s)
  (long_poll_hard_timeout s) (long_poll_slot s) (next_bot_updates_warning_time s) (was_bot_updates_warning s)
  (last_pending_update_count s) (previous_get_updates_offset s) (previous_get_updates_start_time s) v
  (next_get_updates_conflict_time s) (settings s) (webhook_id s) (webhook_query_type s) (webhook_set_query s)
  (active_webhook_set_query s) (webhook_set_time s) (last_webhook_error_date s) (last_webhook_error s)
  (next_allowed_set_webhook_time s) (webhook_generation s) (sent s).
Definition set_next_get_updates_conflict_time (s : client) (v : time) : client := mk_client (base s) (tqueue s)
  (cmd_queue s) (long_poll_query s) (long_poll_offset s) (long_poll_limit s) (long_poll_was_wakeup s)
  (long_poll_hard_timeout s) (long_poll_slot s) (next_bot_updates_warning_time s) (was_bot_updates_warning s)
  (last_pending_update_count s) (previous_get_updates_offset s) (previous_get_updates_start_time s)
  (previous_get_updates_finish_time s) v (settings s) (webhook_id s) (webhook_query_type s) (webhook_set_query s)
  (active_webhook_set_query s) (webhook_set_time s) (last_webhook_error_date s) (last_webhook_error s)
  (next_allowed_set_webhook_time s) (webhook_generation s) (sent s).
Definition set_settings (s : client) (v : Webhook.webhook) : client := mk_client (base s) (tqueue s) (cmd_queue s)
  (long_poll_query s) (long_poll_offset s) (long_poll_limit s) (long_poll_was_wakeup s) (long_poll_hard_timeout s)
  (long_poll_slot s) (next_bot_updates_warning_time s) (was_bot_updates_warning s) (last_pending_update_count s)
  (previous_get_updates_offset s) (previous_get_updates_start_time s) (previous_get_updates_finish_time s)
  (next_get_updates_conflict_time s) v (webhook_id s) (webhook_query_type s) (webhook_set_query s)
  (active_webhook_set_query s) (webhook_set_time s) (last_webhook_error_date s) (last_webhook_error s)
  (next_allowed_set_webhook_time s) (webhook_generation s) (sent s).
Definition set_webhook_id (s : client) (v : bool) : client := mk_client (base s) (tqueue s) (cmd_queue s)
  (long_poll_query s) (long_poll_offset s) (long_poll_limit s) (long_poll_was_wakeup s) (long_poll_hard_timeout s)
  (long_poll_slot s) (next_bot_updates_warning_time s) (was_bot_updates_warning s) (last_pending_update_count s)
  (previous_get_updates_offset s) (previous_get_updates_start_time s) (previous_get_updates_finish_time s)
  (next_get_updates_conflict_time s) (settings s) v (webhook_query_type s) (webhook_set_query s)
  (active_webhook_set_query s) (webhook_set_time s) (last_webhook_error_date s) (last_webhook_error s)
  (next_allowed_set_webhook_time s) (webhook_generation s) (sent s).
Definition set_webhook_query_type (s : client) (v : webhook_query_type_t) : client := mk_client (base s) (tqueue s)
  (cmd_queue s) (long_poll_query s) (long_poll_offset s) (long_poll_limit s) (long_poll_was_wakeup s)
  (long_poll_hard_timeout s) (long_poll_slot s) (next_bot_updates_warning_time s) (was_bot_updates_warning s)
  (last_pending_update_count s) (previous_get_updates_offset s) (previous_get_updates_start_time s)
  (previous_get_updates_finish_time s) (next_get_updates_conflict_time s) (settings s) (webhook_id s) v
  (webhook_set_query s) (active_webhook_set_query s) (webhook_set_time s) (last_webhook_error_date s)
  (last_webhook_error s) (next_allowed_set_webhook_time s) (webhook_generation s) (sent s).
Definition set_webhook_set_query (s : client) (v : option held_query) : client := mk_client (base s) (tqueue s)
  (cmd_queue s) (long_poll_query s) (long_poll_offset s) (long_poll_limit s) (long_poll_was_wakeup s)
  (long_poll_hard_timeout s) (long_poll_slot s) (next_bot_updates_warning_time s) (was_bot_updates_warning s)
  (last_pending_update_count s) (previous_get_updates_offset s) (previous_get_updates_start_time s)
  (previous_get_updates_finish_time s) (next_get_updates_conflict_time s) (settings s) (webhook_id s)
  (webhook_query_type s) v (active_webhook_set_query s) (webhook_set_time s) (last_webhook_error_date s)
  (last_webhook_error s) (next_allowed_set_webhook_time s) (webhook_generation s) (sent s).
Definition set_active_webhook_set_query (s : client) (v : option held_query) : client := mk_client (base s) (tqueue
  s) (cmd_queue s) (long_poll_query s) (long_poll_offset s) (long_poll_limit s) (long_poll_was_wakeup s)
  (long_poll_hard_timeout s) (long_poll_slot s) (next_bot_updates_warning_time s) (was_bot_updates_warning s)
  (last_pending_update_count s) (previous_get_updates_offset s) (previous_get_updates_start_time s)
  (previous_get_updates_finish_time s) (next_get_updates_conflict_time s) (settings s) (webhook_id s)
  (webhook_query_type s) (webhook_set_query s) v (webhook_set_time s) (last_webhook_error_date s)
  (last_webhook_error s) (next_allowed_set_webhook_time s) (webhook_generation s) (sent s).
Definition set_webhook_set_time (s : client) (v : time) : client := mk_client (base s) (tqueue s) (cmd_queue s)
  (long_poll_query s) (long_poll_offset s) (long_poll_limit s) (long_poll_was_wakeup s) (long_poll_hard_timeout s)
  (long_poll_slot s) (next_bot_updates_warning_time s) (was_bot_updates_warning s) (last_pending_update_count s)
  (previous_get_updates_offset s) (previous_get_updates_start_time s) (previous_get_updates_finish_time s)
  (next_get_updates_conflict_time s) (settings s) (webhook_id s) (webhook_query_type s) (webhook_set_query s)
  (active_webhook_set_query s) v (last_webhook_error_date s) (last_webhook_error s) (next_allowed_set_webhook_time
  s) (webhook_generation s) (sent s).
Definition set_last_webhook_error_date (s : client) (v : Z) : client := mk_client (base s) (tqueue s) (cmd_queue s)
  (long_poll_query s) (long_poll_offset s) (long_poll_limit s) (long_poll_was_wakeup s) (long_poll_hard_timeout s)
  (long_poll_slot s) (next_bot_updates_warning_time s) (was_bot_updates_warning s) (last_pending_update_count s)
  (previous_get_updates_offset s) (previous_get_updates_start_time s) (previous_get_updates_finish_time s)
  (next_get_updates_conflict_time s) (settings s) (webhook_id s) (webhook_query_type s) (webhook_set_query s)
  (active_webhook_set_query s) (webhook_set_time s) v (last_webhook_error s) (next_allowed_set_webhook_time s)
  (webhook_generation s) (sent s).
Definition set_last_webhook_error (s : client) (v : option bytes) : client := mk_client (base s) (tqueue s)
  (cmd_queue s) (long_poll_query s) (long_poll_offset s) (long_poll_limit s) (long_poll_was_wakeup s)
  (long_poll_hard_timeout s) (long_poll_slot s) (next_bot_updates_warning_time s) (was_bot_updates_warning s)
  (last_pending_update_count s) (previous_get_updates_offset s) (previous_get_updates_start_time s)
  (previous_get_updates_finish_time s) (next_get_updates_conflict_time s) (settings s) (webhook_id s)
  (webhook_query_type s) (webhook_set_query s) (active_webhook_set_query s) (webhook_set_time s)
  (last_webhook_error_date s) v (next_allowed_set_webhook_time s) (webhook_generation s) (sent s).
Definition set_next_allowed_set_webhook_time (s : client) (v : time) : client := mk_client (base s) (tqueue s)
  (cmd_queue s) (long_poll_query s) (long_poll_offset s) (long_poll_limit s) (long_poll_was_wakeup s)
  (long_poll_hard_timeout s) (long_poll_slot s) (next_bot_updates_warning_time s) (was_bot_updates_warning s)
  (last_pending_update_count s) (previous_get_updates_offset s) (previous_get_updates_start_time s)
  (previous_get_updates_finish_time s) (next_get_updates_conflict_time s) (settings s) (webhook_id s)
  (webhook_query_type s) (webhook_set_query s) (active_webhook_set_query s) (webhook_set_time s)
  (last_webhook_error_date s) (last_webhook_error s) v (webhook_generation s) (sent s).
Definition set_webhook_generation (s : client) (v : Z) : client := mk_client (base s) (tqueue s) (cmd_queue s)
  (long_poll_query s) (long_poll_offset s) (long_poll_limit s) (long_poll_was_wakeup s) (long_poll_hard_timeout s)
  (long_poll_slot s) (next_bot_updates_warning_time s) (was_bot_updates_warning s) (last_pending_update_count s)
  (previous_get_updates_offset s) (previous_get_updates_start_time s) (previous_get_updates_finish_time s)
  (next_get_updates_conflict_time s) (settings s) (webhook_id s) (webhook_query_type s) (webhook_set_query s)
  (active_webhook_set_query s) (webhook_set_time s) (last_webhook_error_date s) (last_webhook_error s)
  (next_allowed_set_webhook_time s) v (sent s).
Definition set_sent (s : client) (v : list effect) : client := mk_client (base s) (tqueue s) (cmd_queue s)
  (long_poll_query s) (long_poll_offset s) (long_poll_limit s) (long_poll_was_wakeup s) (long_poll_hard_timeout s)
  (long_poll_slot s) (next_bot_updates_warning_time s) (was_bot_updates_warning s) (last_pending_update_count s)
  (previous_get_updates_offset s) (previous_get_updates_start_time s) (previous_get_updates_finish_time s)
  (next_get_updates_conflict_time s) (settings s) (webhook_id s) (webhook_query_type s) (webhook_set_query s)
  (active_webhook_set_query s) (webhook_set_time s) (last_webhook_error_date s) (last_webhook_error s)
  (next_allowed_set_webhook_time s) (webhook_generation s) v.

(** What a client is given: the number of its queue, the parameters of the server,
    and the answers of [SharedData::get_unix_time] and [Random::fast] to the n-th
    question. *)
Record config := mk_config {
  files_env : Files.surroundings; tqueue_id : Z; default_max_webhook_connections : Z; authorization_date : Z;
  unix_time : nat -> Z; random_fast : nat -> Z }.

Definition emit (s : client) (e : effect) : client := set_sent s (sent s ++ [e]).
Definition with_settings (s : client) (f : Webhook.webhook -> Webhook.webhook) : client := set_settings s (f (settings s)).
Definition webhook_url (s : client) : bytes := Webhook.webhook_url (settings s).

Definition was_authorized (s : client) : bool := Files.was_authorized (base s).
Definition closing_or_logging_out (s : client) : bool := Files.logging_out (base s) || Files.closing (base s).

(** A question to the environment. *)
Definition ask (s : client) : nat * client := let '(n, b) := Files.ask (base s) in (n, set_base s b).

Definition no_url (l : bytes) : bool := bool_decide (l = []).

Section Client.
Context (inet_pton6 : bytes -> pton_result bytes) (cfg : config).
#[local] Notation env := (files_env cfg).

Definition now (s : client) : time * client := let '(n, s) := ask s in (Files.clock env n, s).

(** [get_unix_time]; [None] is [CHECK(was_authorized_)]. *)
Definition get_unix_time (s : client) : option (Z * client) :=
  if was_authorized s then let '(n, s) := ask s in Some (unix_time cfg n, s) else None.

Definition send_request (s : client) (f : Files.td_function) : option client :=
  b ← Files.send_request env (base s) f Files.OnOk; Some (set_base s b).

Definition fail_query (s : client) (code : Z) (message : bytes) (query : Query.promised) : client := emit s (Answer query (Failed code message)).

(** [answer_query] and [fail_query] of a member: a query that is answered already
    fails the [CHECK] of [Query::set_ok] and [Query::set_error]. *)
Definition take_held (h : held_query) : option Query.promised := if h_answered h then None else Some (h_query h).

(** [fail_query_closing] of a query that is not a member, and of a member. *)
Definition fail_query_closing (s : client) (query : Query.promised) : option client :=
  '(code, message, retry_after, b) ← Files.get_closing_error env (base s);
  Some (emit (set_base s b) (Answer query (if 0 <? retry_after then RetryAfter retry_after else Failed code message))).

Definition fail_member_closing (s : client) (h : held_query) : option (option held_query * client) :=
  query ← take_held h;
  '(code, message, retry_after, b) ← Files.get_closing_error env (base s);
  if 0 <? retry_after then Some (Some (mk_held query true), emit (set_base s b) (Answer query (RetryAfter retry_after)))
  else Some (None, emit (set_base s b) (Answer query (Failed code message))).

(** ** Arguments of queries *)

Definition get_integer_arg (q : Query.query) (field_name : string) (default_value min_value max_value : Z) : Z :=
  let s_arg := Query.arg q (lit field_name) in
  let value := if bool_decide (s_arg = []) then default_value else Integers.to_integer 32 s_arg in
  clamp value min_value max_value.

Definition get_webhook_certificate (q : Query.query) : option http_file :=
  match Query.file q (lit "certificate") with
  | Some file => Some file
  | None =>
    let attach_name := Query.arg q (lit "certificate") in
    if begins_with attach_name (lit "attach://") then Query.file q (drop (length (lit "attach://")) attach_name) else None
  end.

Definition get_webhook_max_connections (q : Query.query) : Z :=
  get_integer_arg q "max_connections" (default_max_webhook_connections cfg) 1 (if Files.local_mode env then 100000 else 100).

Definition get_webhook_fix_ip_address (q : Query.query) : bool :=
  if Query.is_internal q then Query.has_arg q (lit "fix_ip_address") else negb (bool_decide (Query.arg q (lit "ip_address") = [])).

Definition update_type_names : list bytes := lit <$>
  ["message"; "edited_message"; "channel_post"; "edited_channel_post"; "inline_query"; "chosen_inline_result"; "callback_query";
   "custom_event"; "custom_query"; "shipping_query"; "pre_checkout_query"; "poll"; "poll_answer"; "my_chat_member"; "chat_member";
   "chat_join_request"; "chat_boost"; "removed_chat_boost"; "message_reaction"; "message_reaction_count"; "business_connection";
   "business_message"; "edited_business_message"; "deleted_business_messages"; "purchased_paid_media"; "managed_bot"; "guest_message";
   "subscription"]%string.

(** The loop over the names; [None]: an element is not a string. *)
Fixpoint types_of (l : list json_value) (result : Z) : option Z :=
  match l with
  | [] => Some result
  | JString name :: l =>
    types_of l (foldl (fun r x => if bool_decide (x.2 = to_lower name) then Z.lor r (Z.shiftl 1 (Z.of_nat x.1)) else r)
                  result (imap (fun i n => (i, n)) update_type_names))
  | _ :: l => None
  end.

(** [None]: the parser is out of fuel. *)
Definition get_allowed_update_types (allowed_updates : bytes) (is_internal : bool) : option Z :=
  if bool_decide (allowed_updates = []) then Some 0
  else
    r ← Reader.json_decode allowed_updates;
    Some (match r with
          | Ok (JArray l) =>
            match types_of l 0 with
            | None => 0
            | Some result => if result =? 0 then Webhook.DEFAULT_ALLOWED_UPDATE_TYPES else result
            end
          | Ok (JNumber text) =>
            if is_internal then
              let number := Integers.to_unsigned 64 text in
              if bool_decide (Integers.print_uint number = text) && (0 <? number) then number else 0
            else 0
          | _ => 0
          end).

Definition update_allowed_update_types (s : client) (q : Query.query) : option (bool * client) :=
  types ← get_allowed_update_types (Query.arg q (lit "allowed_updates")) (Query.is_internal q);
  if negb (types =? 0) && negb (types =? Webhook.allowed_update_types (settings s)) then
    let s := with_settings s (fun w => set_allowed_update_types w types) in
    s ← send_request s (Files.SetAllowedUpdateTypes (if types =? Webhook.DEFAULT_ALLOWED_UPDATE_TYPES then None else Some types));
    Some (true, s)
  else Some (false, s).

Definition save_webhook (s : client) : client := emit s (SaveWebhook (Webhook.save_webhook (settings s))).

Definition get_pending_update_count (s : client) : Z := Queues.get_size (tqueue s) (tqueue_id cfg).

(** [None] is [CHECK(webhook_id_.empty())]. *)
Definition clear_tqueue (s : client) : option client :=
  if webhook_id s then None else Some (set_tqueue s (Queues.clear (tqueue s) (tqueue_id cfg) 0).2).

(** ** getUpdates *)

Definition fail_query_conflict (s : client) (message : string) (query : Query.promised) : client :=
  let '(now, s) := now s in
  if qleb (next_get_updates_conflict_time s) now then
    set_next_get_updates_conflict_time (fail_query s 409 (lit message) query) (now + 3)%Q
  else emit s (FailLater query 3 409 (lit message)).

Definition abort_long_poll (s : client) (from_set_webhook : bool) : client :=
  match long_poll_query s with
  | None => s
  | Some query =>
    fail_query_conflict (set_long_poll_query s None)
      (if from_set_webhook then "Conflict: terminated by setWebhook request"
       else "Conflict: terminated by other getUpdates request; make sure that only one bot instance is running") query
  end.

(** [JsonUpdates]: the updates that fit; [None] is a failed [CHECK]. *)
Fixpoint json_updates (left_len : Z) (l : list Queues.event) : option (list bytes) :=
  match l with
  | [] => Some []
  | e :: l =>
    let left_len := left_len - (50 + len (Queues.ev_data e)) in
    if left_len <=? 0 then Some []
    else text ← WebhookActor.Webhook.json_update (Queues.ev_id e) (Queues.ev_data e); rest ← json_updates left_len l; Some (text :: rest)
  end.

(** [last_pending_update_count_]. *)
Definition pending_update_count (total_size count : Z) : option Z :=
  if total_size <=? MIN_PENDING_UPDATES_WARNING / 2 then
    Some (if MIN_PENDING_UPDATES_WARNING <? count then MIN_PENDING_UPDATES_WARNING else count)
  else if count <=? total_size then WebhookActor.Webhook.raise_warning 65 total_size count
  else Some count.

(** The updates from an offset on, and how many there are. *)
Definition read_updates (s : client) (offset limit : Z) : option (list Queues.event * Z * client) :=
  if offset <=? 0 then Some ([], 0, s)
  else
    '(now, s) ← get_unix_time s;
    '(r, l, t) ← (match Queues.from_int32 offset with
                  | Ok from => Queues.get (tqueue s) (tqueue_id cfg) from true now (Z.to_nat limit)
                  | Err e => Some (Err e, [], tqueue s)
                  end);
    match r with
    | Ok total_size => Some (l, total_size, set_tqueue s t)
    | Err _ =>
      '(r, l, t) ← Queues.get t (tqueue_id cfg) (Queues.get_head t (tqueue_id cfg)) true now (Z.to_nat limit);
      match r with Ok total_size => Some (l, total_size, set_tqueue s t) | Err _ => None end
    end.

(** [-offset] is computed in [int]: [wrap_int] leaves the least one as it is. *)
Definition wrap_int (x : Z) : Z := if x =? 2 ^ 31 then - 2 ^ 31 else x.

Definition do_get_updates (s : client) (offset limit timeout : Z) (query : Query.promised) : option client :=
  let s := if offset <? 0 then set_tqueue s (Queues.clear (tqueue s) (tqueue_id cfg) (wrap 64 (wrap_int (- offset)))).2 else s in
  let offset := if offset <=? 0 then Queues.get_head (tqueue s) (tqueue_id cfg) else offset in
  '(updates, total_size, s) ← read_updates s offset limit;
  if total_size <? len updates then None
  else
    let total_size := total_size - len updates in
    count ← pending_update_count total_size (last_pending_update_count s);
    let s := set_last_pending_update_count s count in
    if negb (timeout =? 0) && bool_decide (updates = []) then
      let s := abort_long_poll s false in
      let s := set_long_poll_offset s offset in
      let s := set_long_poll_limit s limit in
      let s := set_long_poll_query s (Some query) in
      let s := set_long_poll_was_wakeup s false in
      let '(now, s) := now s in
      let s := set_long_poll_hard_timeout s (now + inject_Z timeout)%Q in
      Some (set_long_poll_slot s (Some (long_poll_hard_timeout s)))
    else
      let '(finish_time, s) := now s in
      let s := set_previous_get_updates_finish_time s finish_time in
      let '(now, s) := now s in
      let s := set_next_bot_updates_warning_time s (now + inject_Z BOT_UPDATES_WARNING_DELAY)%Q in
      s ← (if (total_size =? len updates) && was_bot_updates_warning s then
             s ← send_request s (Files.SetBotUpdatesStatus 0 []); Some (set_was_bot_updates_warning s false)
           else Some s);
      texts ← json_updates (Z.shiftl 1 22) updates;
      Some (emit s (Answer query (Answered (UpdateList texts)))).

(** A warning for the bot's owner when too many updates wait. *)
Definition warn_pending (s : client) (message : bytes) : option client :=
  let pending_update_count := get_pending_update_count s in
  if MIN_PENDING_UPDATES_WARNING <=? pending_update_count then
    let '(time, s) := now s in
    if qltb (next_bot_updates_warning_time s) time then
      s ← send_request s (Files.SetBotUpdatesStatus pending_update_count message);
      let '(time, s) := now s in
      Some (set_was_bot_updates_warning (set_next_bot_updates_warning_time s (time + inject_Z BOT_UPDATES_WARNING_DELAY)%Q) true)
    else Some s
  else Some s.

Definition long_poll_wakeup (s : client) (force_flag : bool) : option client :=
  match long_poll_query s with
  | None => warn_pending s (lit "The getUpdates method is not called for too long")
  | Some query =>
    if force_flag then do_get_updates (set_long_poll_query s None) (long_poll_offset s) (long_poll_limit s) 0 query
    else
      let '(now, s) := now s in
      let s := if long_poll_was_wakeup s then s
               else set_long_poll_was_wakeup (set_long_poll_hard_timeout s (qmin (now + LONG_POLL_MAX_DELAY)%Q (long_poll_hard_timeout s))) true in
      Some (set_long_poll_slot s (Some (qmin (now + LONG_POLL_WAIT_AFTER)%Q (long_poll_hard_timeout s))))
  end.

Definition webhook_is_active (s : client) : bool :=
  negb (no_url (webhook_url s)) || bool_decide (is_Some (webhook_set_query s)) || bool_decide (is_Some (active_webhook_set_query s)).

Definition process_get_updates_query (s : client) (query : Query.promised) : option client :=
  let q := Query.the_query query in
  if webhook_is_active s then
    Some (fail_query_conflict s
            "Conflict: can't use getUpdates method while webhook is active; use deleteWebhook to delete the webhook first" query)
  else
    let offset := get_integer_arg q "offset" 0 int32_min int32_max in
    let limit := get_integer_arg q "limit" 100 1 100 in
    let timeout := get_integer_arg q "timeout" 0 0 LONG_POLL_MAX_TIMEOUT in
    '(_, s) ← update_allowed_update_types s q;
    let '(now, s) := now s in
    let same := offset =? previous_get_updates_offset s in
    let timeout := if same && (timeout <? 3) && qltb now (previous_get_updates_start_time s + 3)%Q then 3 else timeout in
    let limit := if same && qltb now (previous_get_updates_start_time s + (1 # 2))%Q then 1 else limit in
    let s := set_previous_get_updates_start_time (set_previous_get_updates_offset s offset) now in
    do_get_updates s offset limit timeout query.

(** ** setWebhook *)

(** [finish_set_webhook]; the query is not a member. *)
Definition finish_set_webhook (s : client) (query : Query.promised) : option client :=
  let q := Query.the_query query in
  if bool_decide (is_Some (active_webhook_set_query s)) || bool_decide (is_Some (webhook_set_query s)) || negb (no_url (webhook_url s)) then None
  else if closing_or_logging_out s then fail_query_closing s query
  else
    let new_url := Query.arg q (lit "url") in
    if no_url new_url then None
    else
      let '(time, s) := now s in
      let s := set_webhook_set_time s time in
      let s := with_settings s (fun w => Webhook.mk_webhook (Webhook.has_webhook_certificate w) (get_webhook_max_connections q)
                                           (Query.arg q (lit "ip_address")) (get_webhook_fix_ip_address q) (Query.arg q (lit "secret_token"))
                                           (Webhook.allowed_update_types w) new_url) in
      let s := set_last_webhook_error (set_last_webhook_error_date s 0) None in
      '(_, s) ← update_allowed_update_types s q;
      match Url.parse_url inet_pton6 new_url Url.Https with
      | Err _ => None
      | Ok url =>
        let w := settings s in
        let s := emit s (CreateWebhook (webhook_generation s) url (Webhook.has_webhook_certificate w) (Webhook.webhook_max_connections w)
                           (Query.is_internal q) (Webhook.webhook_ip_address w) (Webhook.webhook_fix_ip_address w) (Webhook.webhook_secret_token w)) in
        let s := set_webhook_query_type (set_webhook_id s true) Verify in
        Some (set_webhook_set_query s (Some (mk_held query false)))
      end.

Definition is_set_webhook (q : Query.query) : bool := bool_decide (Query.method q = lit "setwebhook").
Definition new_url_of (q : Query.query) : bytes := if is_set_webhook q then Query.arg q (lit "url") else [].

(** The checks of a new URL and of the secret token. *)
Definition webhook_refusal (q : Query.query) : option bytes :=
  let secret_token := Query.arg q (lit "secret_token") in
  match Url.parse_url inet_pton6 (new_url_of q) Url.Https with
  | Err _ => Some (lit "Bad Request: invalid webhook URL specified")
  | Ok _ =>
    if 256 <? len secret_token then Some (lit "Bad Request: secret token is too long")
    else if negb (Codec.is_base64url_characters secret_token) then Some (lit "Bad Request: secret token contains unallowed characters")
    else None
  end.

Definition do_set_webhook (s : client) (query : Query.promised) (was_deleted : bool) : option client :=
  let q := Query.the_query query in
  if negb (no_url (webhook_url s)) then None
  else if closing_or_logging_out s then fail_query_closing s query
  else
    s ← (if Files.to_bool (Query.arg q (lit "drop_pending_updates")) then clear_tqueue s else Some s);
    if no_url (new_url_of q) then
      Some (emit s (Answer query (Answered (TrueWith (if was_deleted then lit "Webhook was deleted" else lit "Webhook is already deleted")))))
    else
      match webhook_refusal q with
      | Some message => Some (fail_query s 400 message query)
      | None =>
        if bool_decide (is_Some (active_webhook_set_query s)) then Some (emit s (Answer query (RetryAfter 1)))
        else if Webhook.has_webhook_certificate (settings s) then None
        else if Query.is_internal q then
          let s := with_settings s (fun w => set_has_webhook_certificate w (bool_decide (Query.arg q (lit "certificate") = lit "previous"))) in
          finish_set_webhook s query
        else
          match get_webhook_certificate q with
          | Some file =>
            if MAX_CERTIFICATE_FILE_SIZE <? file_size file then
              Some (fail_query s 400 (lit "Bad Request: certificate size is too big (" ++ Integers.print_int int64_min (file_size file) ++ lit " bytes)") query)
            else if bool_decide (is_Some (webhook_set_query s)) then None
            else Some (emit (set_active_webhook_set_query s (Some (mk_held query false))) (CopyCertificate (temp_file_name file) (file_size file)))
          | None => finish_set_webhook s query
          end
      end.

(** The webhook is already as the query asks. *)
Definition is_not_modified (s : client) (q : Query.query) : bool :=
  let new_url := new_url_of q in
  let w := settings s in
  let set := negb (no_url new_url) in
  let new_has_certificate := set && (bool_decide (is_Some (get_webhook_certificate q))
                                     || (Query.is_internal q && bool_decide (Query.arg q (lit "certificate") = lit "previous"))) in
  let new_max_connections := if set then get_webhook_max_connections q else 0 in
  let new_ip_address := if set then Query.arg q (lit "ip_address") else [] in
  let new_fix_ip_address := set && get_webhook_fix_ip_address q in
  let new_secret_token := if set then Query.arg q (lit "secret_token") else [] in
  bool_decide (Webhook.webhook_url w = new_url) && negb (Webhook.has_webhook_certificate w) && negb new_has_certificate
  && (new_max_connections =? Webhook.webhook_max_connections w) && Bool.eqb new_fix_ip_address (Webhook.webhook_fix_ip_address w)
  && bool_decide (new_secret_token = Webhook.webhook_secret_token w)
  && (negb new_fix_ip_address || bool_decide (new_ip_address = Webhook.webhook_ip_address w))
  && negb (Files.to_bool (Query.arg q (lit "drop_pending_updates"))).

(** What follows the checks: the old webhook is closed first. *)
Definition change_webhook (s : client) (query : Query.promised) : option client :=
  let s := if no_url (new_url_of (Query.the_query query)) then s else abort_long_poll s true in
  let s := set_webhook_generation s (wrap 64 (webhook_generation s + 1)) in
  if no_url (webhook_url s) then do_set_webhook s query false
  else
    let s := if webhook_id s then set_webhook_id (emit s CloseWebhook) false else s in
    let s := set_webhook_query_type s Cancel in
    if bool_decide (is_Some (active_webhook_set_query s)) then None
    else Some (set_webhook_set_query s (Some (mk_held query false))).

Definition process_set_webhook_query (s : client) (query : Query.promised) : option client :=
  let q := Query.the_query query in
  let new_url := new_url_of q in
  let '(now, s) := now s in
  let limited := negb (no_url new_url) && negb (Query.is_internal q) in
  if limited && qltb now (next_allowed_set_webhook_time s) then Some (emit s (Answer query (RetryAfter 1)))
  else
    let s := if limited then set_next_allowed_set_webhook_time s (now + 1)%Q else s in
    let s := set_next_bot_updates_warning_time s (qmax (next_bot_updates_warning_time s) (now + inject_Z BOT_UPDATES_WARNING_DELAY)%Q) in
    match webhook_set_query s with
    | Some h =>
      previous ← take_held h;
      change_webhook (fail_query_conflict (set_webhook_set_query s None) "Conflict: terminated by other setWebhook" previous) query
    | None =>
      if bool_decide (is_Some (active_webhook_set_query s)) then Some (emit s (Answer query (RetryAfter 1)))
      else if is_not_modified s q then
        '(updated, s) ← update_allowed_update_types s q;
        let s := if updated : bool then save_webhook s else s in
        Some (emit s (Answer query (Answered (TrueWith (if no_url new_url then lit "Webhook is already deleted" else lit "Webhook is already set")))))
      else change_webhook s query
    end.

(** ** Callbacks of the webhook *)

(** [link_token] is [get_link_token()]. *)
Definition webhook_verified (s : client) (link_token : Z) (cached_ip_address : bytes) : option client :=
  if negb (link_token =? webhook_generation s) then Some s
  else
    let need_save := bool_decide (is_Some (webhook_set_query s)) || negb (bool_decide (cached_ip_address = Webhook.webhook_ip_address (settings s))) in
    let s := with_settings s (fun w => set_webhook_ip_address w cached_ip_address) in
    s ← (match webhook_set_query s with
         | Some h => query ← take_held h; Some (emit (set_webhook_set_query s None) (Answer query (Answered (TrueWith (lit "Webhook was set")))))
         | None => Some s
         end);
    Some (if need_save then save_webhook s else s).

Definition webhook_success (s : client) : option client :=
  let '(time, s) := now s in
  let s := set_next_bot_updates_warning_time s (time + inject_Z BOT_UPDATES_WARNING_DELAY)%Q in
  if was_bot_updates_warning s then
    s ← send_request s (Files.SetBotUpdatesStatus 0 []); Some (set_was_bot_updates_warning s false)
  else Some s.

Definition webhook_error (s : client) (message : bytes) : option client :=
  '(date, s) ← get_unix_time s;
  let s := set_last_webhook_error (set_last_webhook_error_date s date) (Some message) in
  warn_pending s (lit "Webhook error. " ++ message).

Definition on_webhook_closed (s : client) (message : bytes) : option client :=
  let s := set_webhook_id s false in
  let s := with_settings s (fun w => Webhook.mk_webhook false 0 [] false [] (Webhook.allowed_update_types w) []) in
  let '(time, s) := now s in
  let s := set_webhook_set_time s time in
  let s := set_last_webhook_error (set_last_webhook_error_date s 0) None in
  let s := emit s EraseWebhook in
  match webhook_set_query s with
  | None => Some s
  | Some h =>
    query ← take_held h;
    let s := set_webhook_set_query s None in
    match webhook_query_type s with
    | Verify => Some (fail_query s 400 (lit "Bad Request: bad webhook: " ++ message) query)
    | Cancel => do_set_webhook s query true
    end
  end.

Definition webhook_closed (s : client) (message : bytes) : option client :=
  if Webhook.has_webhook_certificate (settings s) then Some (emit s (UnlinkCertificate message))
  else on_webhook_closed s message.

(** [None] is also [CHECK(active_webhook_set_query_)]. *)
Definition on_webhook_certificate_copied (s : client) (ok : bool) : option client :=
  h ← active_webhook_set_query s;
  query ← take_held h;
  let s := set_active_webhook_set_query s None in
  if ok then finish_set_webhook (with_settings s (fun w => set_has_webhook_certificate w true)) query
  else Some (fail_query s 500 (lit "Internal Server Error: failed to save certificate") query).

(** ** New updates *)

(** [add_update_impl]; [update] is the value that the caller prints. *)
Definition update_text (update_type : Z) (update : bytes) : bytes :=
  Writer.json_raw_string (default [] (update_type_names !! Z.to_nat update_type)) ++ lit ":" ++ update.

Definition add_update (s : client) (update_type : Z) (update : bytes) (timeout webhook_queue_id : Z) : option client :=
  if negb (Z.testbit (Webhook.allowed_update_types (settings s)) update_type) then Some s
  else
    let s := emit s StatUpdate in
    '(date, s) ← get_unix_time s;
    let '(n, s) := ask s in
    '(r, t) ← Queues.push (tqueue s) (tqueue_id cfg) (update_text update_type update) (date + timeout) webhook_queue_id 0 (random_fast cfg n);
    let s := set_tqueue s t in
    match r with
    | Err _ => Some s
    | Ok _ =>
      if no_url (webhook_url s) then long_poll_wakeup s false
      else Some (if webhook_id s then emit s NotifyWebhook else s)
    end.

(** ** Queries *)

Definition method_is (q : Query.query) (name : string) : bool := bool_decide (Query.method q = lit name).

(** The methods of [ClientFiles.v]. *)
Definition file_command (q : Query.query) : option Files.command :=
  if method_is q "getfile" then Some Files.GetFileCommand
  else if method_is q "releaselocalfile" then Some Files.ReleaseLocalFileCommand
  else if method_is q "close" then Some Files.CloseCommand
  else if method_is q "logout" then Some Files.LogOutCommand
  else None.

(** [on_cmd] for these methods, getUpdates, setWebhook and deleteWebhook. *)
Definition on_cmd (s : client) (query : Query.promised) : option client :=
  let q := Query.the_query query in
  match file_command q with
  | Some c => b ← Files.on_cmd env (base s) c query; Some (set_base s b)
  | None =>
    if closing_or_logging_out s then fail_query_closing s query
    else if negb (was_authorized s) then None
    else if method_is q "getupdates" then process_get_updates_query s query
    else if method_is q "setwebhook" || method_is q "deletewebhook" then process_set_webhook_query s query
    else Some (fail_query s 404 (lit "Not Found: method not found") query)
  end.

(** [loop]: the queue is empty afterwards. *)
Definition run_queries (s : client) (l : list Query.promised) : option client := foldl (fun s q => s ← s; on_cmd s q) (Some s) l.

Definition loop (s : client) : option client :=
  if was_authorized s || closing_or_logging_out s then
    let queries := cmd_queue s in run_queries (set_cmd_queue s []) queries
  else Some s.

(** [send] of a query that the statistics of the bot admit. *)
Definition send (s : client) (query : Query.promised) : option client := loop (set_cmd_queue s (cmd_queue s ++ [query])).

(** ** Closing *)

Definition finish_closing (s : client) : option client :=
  s ← (if Files.clear_tqueue (base s) && Files.logging_out (base s) then clear_tqueue s else Some s);
  if Files.need_close (base s) then Some (emit s Stop)
  else if qleb (Files.next_authorization_time (base s)) 0 then
    if was_authorized s then
      '(date, s) ← get_unix_time s;
      Some (emit s (SetTimeoutIn (if authorization_date cfg <? date - 1800 then 1 else 1800)))
    else Some (emit s (SetTimeoutIn 1800))
  else
    let '(time, s) := now s in
    Some (emit s (SetTimeoutIn (qmin (Files.next_authorization_time (base s) - time)%Q 1800))).

Definition fail_queries_closing (s : client) (l : list Query.promised) : option client := foldl (fun s q => s ← s; fail_query_closing s q) (Some s) l.

(** The members that hold queries of webhooks. *)
Definition fail_webhook_queries (s : client) : option client :=
  s ← (match webhook_set_query s with
       | Some h => '(h, s) ← fail_member_closing s h; Some (set_webhook_set_query s h)
       | None => Some s
       end);
  match active_webhook_set_query s with
  | Some h => '(h, s) ← fail_member_closing s h; Some (set_active_webhook_set_query s h)
  | None => Some s
  end.

Definition reset_webhook (s : client) : client :=
  if negb (no_url (webhook_url s)) && webhook_id s then set_webhook_id (emit s DropWebhook) false else s.

Definition close_long_poll (s : client) : option client :=
  match long_poll_query s with
  | Some _ => s ← long_poll_wakeup s true; if bool_decide (is_Some (long_poll_query s)) then None else Some s
  | None => Some s
  end.

Definition on_closed (s : client) : option client :=
  b ← Files.reset_td_client (base s);
  s ← fail_webhook_queries (set_base s b);
  s ← close_long_poll (reset_webhook s);
  s ← fail_queries_closing (set_cmd_queue s []) (cmd_queue s);
  b ← Files.close_files env (base s);
  let s := set_base s b in
  if Files.logging_out b then Some (emit (emit s EraseWebhook) RemoveDirectory) else finish_closing s.

Inductive event :=
| Send (query : Query.promised)
| FileEvent (e : Files.event)
| AddUpdate (update_type : Z) (update : bytes) (timeout webhook_queue_id : Z)
| SlotEvent
| WebhookVerified (link_token : Z) (cached_ip_address : bytes)
| WebhookSuccess
| WebhookError (message : bytes)
| WebhookClosed (message : bytes)
| CertificateUnlinked (message : bytes)
| CertificateCopied (ok : bool)
| DirectoryRemoved
| TimeoutExpired
| QueueChanged (o : TQueue.op).

(** The events of [ClientFiles.v]; queries and [on_closed] come from here. *)
Definition file_event (s : client) (e : Files.event) : option client :=
  match e with
  | Files.Command _ query => send s query
  | Files.Closed => on_closed s
  | Files.Authorized | Files.LoggingOut | Files.Closing => b ← Files.step env (base s) e; loop (set_base s b)
  | _ => b ← Files.step env (base s) e; Some (set_base s b)
  end.

Definition step (s : client) (e : event) : option client :=
  match e with
  | Send query => send s query
  | FileEvent e => file_event s e
  | AddUpdate update_type update timeout webhook_queue_id => add_update s update_type update timeout webhook_queue_id
  | SlotEvent => long_poll_wakeup s true
  | WebhookVerified link_token ip => webhook_verified s link_token ip
  | WebhookSuccess => webhook_success s
  | WebhookError message => webhook_error s message
  | WebhookClosed message => webhook_closed s message
  | CertificateUnlinked message => on_webhook_closed s message
  | CertificateCopied ok => on_webhook_certificate_copied s ok
  | DirectoryRemoved => finish_closing s
  | TimeoutExpired => Some (emit s Stop)
  | QueueChanged o => '(_, t) ← TQueue.apply_op (tqueue s) o; Some (set_tqueue s t)
  end.

End Client.

(** [start_up], at the time [start_time]. *)
Definition create (good_token : bool) (start_time : time) (t : Queues.tqueue St) : client :=
  mk_client (Files.create good_token) t [] None 0 0 false 0 None (start_time + 600)%Q false MIN_PENDING_UPDATES_WARNING
    (-1) (start_time - 100)%Q 0 (start_time - 100)%Q
    (Webhook.mk_webhook false 0 [] false [] Webhook.DEFAULT_ALLOWED_UPDATE_TYPES []) false Cancel None None start_time 0 None start_time 1 [].

End WithQueues.
End Updates.
