(* ===== verification/UpdatesBook.v ===== *)
(** * The book of the queries for updates

    Where the queries of [ClientUpdates.v] are - answered, or in the ledger of
    [FilesProperties.v] - and that every operation of getUpdates and setWebhook
    keeps the book: an operation is [calm] when it changes nothing else than what
    it answers, it [reads] when it answers a getUpdates query or lets it wait, and
    [takes] a setWebhook query when it answers it or lets it wait for a webhook,
    a certificate or the end of the old webhook. *)

From S2P Require Import Prelude TdMisc Utf8 Json TextParser IPAddress Stats Query FileStreamCore HttpHeader FileStreamConnection Workdir HttpUrl Base64 Containers TQueue ClientWebhook WebhookActor WebhookDelivery WebhookInvariant ClientFiles FilesProperties ClientUpdates.

Import Strings ClientError Updates Ledger.

Module Book.

Section WithQueues.
Context {St : Type} {ops : Queues.storage_ops St} {laws : TQueue.storage_laws St}.
Context (inet_pton6 : bytes -> pton_result bytes) (cfg : config).
#[local] Notation client := (Updates.client (St := St)).
Implicit Types (s : client) (live : gmap Z (option Files.handler)).

Definition answered (l : list effect) : list Query.promised :=
  omap (fun e => match e with Answer q _ | FailLater q _ _ _ => Some q | _ => None end) l.

Lemma answered_app l k : answered (l ++ k) = answered l ++ answered k.
Proof. apply omap_app. Qed.

(** The queries that are out of the hands of this part of the client. *)
Definition settled (s : client) live : list Query.promised := balance (base s) live ++ answered (sent s).

(** Effects after which somebody owes an event. *)
Definition owing (e : effect) : bool :=
  match e with CreateWebhook _ _ _ _ _ _ _ _ | CopyCertificate _ _ | UnlinkCertificate _ | RemoveDirectory => true | _ => false end.

Definition deeds (s : client) : list effect := base.filter (fun e => owing e = true) (sent s).

(** The fields that decide what may happen. *)
Definition core (s : client) :=
  (flags (base s), cmd_queue s, long_poll_query s, webhook_set_query s, active_webhook_set_query s, webhook_id s, webhook_query_type s,
   webhook_url s, Webhook.has_webhook_certificate (settings s)).

Definition good (s : client) live : Prop :=
  ledger_ok (base s) live /\ TQueue.wf (tqueue s) /\ 0 < last_pending_update_count s < 2 ^ 33.

Definition space (k : Z) (s : client) : Prop := room k (base s).

(** Nothing but [gain] is settled, at most [k] requests are made. *)
Record calm (k : Z) (gain : list Query.promised) (s : client) live (s' : client) live' : Prop := {
  cm_good : good s' live';
  cm_core : core s' = core s;
  cm_settled : settled s' live' ≡ₚ gain ++ settled s live;
  cm_room : Container.size (Files.handlers (base s')) <= Container.size (Files.handlers (base s)) + k;
  cm_deeds : deeds s' = deeds s }.

Definition quietly k gain s live (r : option client) : Prop := exists s' live', r = Some s' /\ calm k gain s live s' live'.

Lemma calm_refl s live : good s live -> calm 0 [] s live s live.
Proof. intros H. split; try done. lia. Qed.

Lemma calm_trans k k' g g' s live s1 live1 s2 live2 : calm k g s live s1 live1 -> calm k' g' s1 live1 s2 live2 -> calm (k + k') (g ++ g') s live s2 live2.
Proof.
  intros [_ Hc Hb Hr Hd] [Hg' Hc' Hb' Hr' Hd']. split; [done|congruence| |lia|congruence].
  rewrite Hb', Hb, !app_assoc. by rewrite (Permutation_app_comm g' g).
Qed.

Lemma quietly_after k k' g g' s live s1 live1 r : calm k g s live s1 live1 -> quietly k' g' s1 live1 r -> quietly (k + k') (g ++ g') s live r.
Proof. intros H (s2 & live2 & E & H'). exists s2, live2. split; [done|]. by eapply calm_trans. Qed.

Lemma calm_more k k' g s live s' live' : calm k g s live s' live' -> k <= k' -> calm k' g s live s' live'.
Proof. intros [? ? ? ? ?] Hk. split; try done. lia. Qed.

Lemma quietly_some k k' g s live s' live' : calm k g s live s' live' -> k <= k' -> quietly k' g s live (Some s').
Proof. intros H Hk. exists s', live'. split; [done|]. by eapply calm_more. Qed.

(** The fields that no book keeps. *)
Lemma calm_same s live s' : good s live -> alike (base s) (base s') -> TQueue.wf (tqueue s') -> 0 < last_pending_update_count s' < 2 ^ 33 ->
  core s' = core s -> sent s' = sent s -> calm 0 [] s live s' live.
Proof.
  intros (H & _ & _) Ha Hw Hc Hk Hs. pose proof (moves_alike never _ live _ H Ha) as Hm. split; [by split; [eapply ok_alike|]|done| | |].
  - pose proof (mv_balance _ _ _ _ _ _ _ _ Hm) as Hb. rewrite app_nil_r in Hb. unfold settled. by rewrite Hb, Hs.
  - pose proof (mv_room _ _ _ _ _ _ _ _ Hm). lia.
  - unfold deeds. by rewrite Hs.
Qed.

Lemma deeds_emit s e : deeds (emit s e) = deeds s ++ base.filter (fun e => owing e = true) [e].
Proof. unfold deeds. cbn [emit set_sent sent]. by rewrite filter_app. Qed.

Lemma calm_emit s live e : good s live -> owing e = false -> calm 0 (answered [e]) s live (emit s e) live.
Proof.
  intros H He. split; try done; [|cbn; lia|].
  - unfold settled. cbn [emit sent set_sent base]. rewrite answered_app. solve_Permutation.
  - rewrite deeds_emit, filter_cons_False, app_nil_r; [done|]. by rewrite He.
Qed.

Lemma calm_now s live : good s live -> calm 0 [] s live (now cfg s).2 live.
Proof. intros H. apply calm_same; try done; apply H. Qed.

Lemma now_calm s live t s1 : good s live -> now cfg s = (t, s1) -> calm 0 [] s live s1 live.
Proof. intros H E. pose proof (calm_now s live H) as Hc. by rewrite E in Hc. Qed.

Lemma ask_calm s live n s1 : good s live -> ask s = (n, s1) -> calm 0 [] s live s1 live.
Proof. intros H [= <- <-]. apply calm_same; try done; apply H. Qed.

Lemma core_authorized s s1 : core s1 = core s -> was_authorized s1 = was_authorized s.
Proof. unfold core, flags. unfold was_authorized. intros H. by injection H as E _ _ _ _ _ _ _ _ _ _ _ _. Qed.

Lemma core_closing s s1 : core s1 = core s -> closing_or_logging_out s1 = closing_or_logging_out s.
Proof. unfold core, flags, closing_or_logging_out. intros H. injection H as _ -> -> _ _ _ _ _ _ _ _ _ _. done. Qed.

Lemma space_calm k k' g s live s1 live1 : space (k + k') s -> calm k g s live s1 live1 -> space k' s1.
Proof. unfold space, room. intros H Hc. pose proof (cm_room _ _ _ _ _ _ Hc). lia. Qed.

Lemma space_less k k' s : space k s -> k' <= k -> space k' s.
Proof. unfold space, room. lia. Qed.

(** *** Requests and answers *)

Lemma send_request_calm s live f : good s live -> space 1 s -> (forall g, f <> Files.DeleteFile g) -> quietly 1 [] s live (send_request cfg s f).
Proof.
  intros (Ho & Hw & Hl) Hs Hf. unfold send_request.
  destruct (send_never (files_env cfg) (base s) live f Files.OnOk Ho Hs Hf) as (b & live' & E & Hm). rewrite E. cbn [mbind option_bind].
  exists (set_base s b), live'. split; [done|]. destruct Hm as [Ho' Hb Hr Hfl _ _]. split; try done.
  - unfold core. cbn. by rewrite Hfl.
  - unfold settled. cbn. rewrite app_nil_r in Hb. by rewrite Hb.
Qed.

Lemma fail_query_closing_calm s live q : good s live -> closing_or_logging_out s = true -> quietly 0 [q] s live (fail_query_closing cfg s q).
Proof.
  intros H Hc. unfold fail_query_closing. unfold closing_or_logging_out in Hc. rewrite orb_comm in Hc.
  destruct (get_closing_error_some (files_env cfg) (base s) Hc) as (code & m & ra & b & -> & Ha & _). cbn [mbind option_bind].
  assert (calm 0 [] s live (set_base s b) live) as H1.
  { apply calm_same; try done; try apply H. unfold core. cbn. by destruct Ha as [-> _]. }
  eexists _, live. split; [reflexivity|]. exact (calm_trans 0 0 [] [q] _ _ _ _ _ _ H1 (calm_emit (set_base s b) live (Answer q _) (cm_good _ _ _ _ _ _ H1) eq_refl)).
Qed.

Lemma answer_calm s live q a : good s live -> calm 0 [q] s live (emit s (Answer q a)) live.
Proof. intros H. by apply (calm_emit s live (Answer q a)). Qed.

Lemma get_unix_time_calm s live : good s live -> was_authorized s = true -> exists date s1, get_unix_time cfg s = Some (date, s1) /\ calm 0 [] s live s1 live.
Proof.
  intros H Ha. unfold get_unix_time. rewrite Ha. destruct (ask s) as [n s1] eqn:E. eexists _, s1. split; [done|]. by eapply ask_calm.
Qed.

Lemma fail_query_conflict_calm s live m q : good s live -> calm 0 [q] s live (fail_query_conflict cfg s m q) live.
Proof.
  intros H. unfold fail_query_conflict. destruct (now cfg s) as [t s1] eqn:E. pose proof (now_calm _ _ _ _ H E) as H1.
  pose proof (cm_good _ _ _ _ _ _ H1) as Hg. change [q] with ([] ++ [q]). change 0 with (0 + 0). case_bool.
  - set (s2 := fail_query s1 409 (lit m) q). assert (calm 0 [q] s1 live s2 live) as H2 by by apply answer_calm.
    apply (calm_trans 0 0 [] [q] _ _ _ _ _ _ H1). change [q] with ([q] ++ []). change 0 with (0 + 0). apply (calm_trans 0 0 [q] [] _ _ _ _ _ _ H2).
    apply calm_same; try done; apply (cm_good _ _ _ _ _ _ H2).
  - apply (calm_trans 0 0 [] [q] _ _ _ _ _ _ H1). by apply (calm_emit s1 live (FailLater q 3 409 (lit m))).
Qed.

Lemma json_decode_some text : exists r, Reader.json_decode text = Some r.
Proof.
  unfold Reader.json_decode. destruct (proj1 (decode_returns (Json.Reader.fuel_for (TextParser.Parser.init text))) text 100) as (r & s' & -> & _); [done|].
  destruct r; repeat case_match; by eexists.
Qed.

Lemma update_types_calm s live q : good s live -> space 1 s -> exists b s1 live1, update_allowed_update_types cfg s q = Some (b, s1) /\ calm 1 [] s live s1 live1.
Proof.
  intros H Hs. unfold update_allowed_update_types.
  assert (exists types, get_allowed_update_types (Query.Query.arg q (lit "allowed_updates")) (Query.Query.is_internal q) = Some types) as (types & ->).
  { unfold get_allowed_update_types. case_bool; [by eexists|]. destruct (json_decode_some (Query.Query.arg q (lit "allowed_updates"))) as (r & ->). by eexists. }
  cbn [mbind option_bind]. case_bool; [|eexists _, s, live; split; [reflexivity|]; eapply calm_more; [by apply calm_refl|lia]].
  set (s1 := with_settings s _). assert (calm 0 [] s live s1 live) as H1 by by apply calm_same; try done; apply H.
  destruct (send_request_calm s1 live (Files.SetAllowedUpdateTypes (if types =? Webhook.DEFAULT_ALLOWED_UPDATE_TYPES then None else Some types))
              (cm_good _ _ _ _ _ _ H1) Hs ltac:(done)) as (s2 & live2 & -> & H2). cbn [mbind option_bind].
  eexists _, s2, live2. split; [reflexivity|]. exact (calm_trans 0 1 [] [] _ _ _ _ _ _ H1 H2).
Qed.

(** *** Reading the queue *)

Lemma pruned_visible from_id fp now l l' : TQueue.pruned (TQueue.may_drop from_id fp now) l l' ->
  TQueue.visible from_id now l' = TQueue.visible from_id now l.
Proof.
  intros H. unfold TQueue.visible. induction H as [|x l l' _ IH|x l l' Hx _ IH]; [done| |].
  - rewrite !filter_cons, IH. done.
  - rewrite filter_cons, decide_False; [done|]. intros [? ?]. destruct Hx as [[_ ?]|[? ?]]; lia.
Qed.

Lemma get_read t k from_id fp now n : TQueue.wf t -> exists r l t', Queues.get t k from_id fp now n = Some (r, l, t') /\ TQueue.wf t'
  /\ match r with
     | Ok total => len l <= total <= Queues.MAX_QUEUE_EVENTS
                   /\ l = take n (TQueue.visible from_id now (TQueue.v_live (TQueue.view_of t k)))
     | Err _ => l = [] /\ t' = t
     end.
Proof.
  intros H. destruct (TQueue.op_step t (TQueue.Get k from_id fp now n) H I) as (o & t' & E & Hw & Hs). cbn [TQueue.apply_op] in E.
  destruct (Queues.get t k from_id fp now n) as [[[r l] t1]|] eqn:Eg; [|done]. cbn in E. injection E as <- <-.
  exists r, l, t1. split; [done|]. split; [done|]. destruct r as [total|e]; cbn [TQueue.spec] in Hs.
  - destruct Hs as (-> & live' & _ & -> & Hp & _). rewrite <-(pruned_visible _ _ _ _ _ Hp) at 1. split; [|done]. split.
    + unfold len. rewrite length_take. unfold TQueue.visible.
      pose proof (length_filter (fun e => from_id <= Queues.ev_id e /\ now <= Queues.ev_expires_at e) live'). lia.
    + apply TQueue.pruned_sublist, sublist_length in Hp. cbn [TQueue.view_of TQueue.v_live] in Hp. rewrite length_fmap in Hp.
      pose proof (TQueue.wq_count _ _ (TQueue.t_wf _ _ H k)) as Hc. unfold TQueue.live in Hp.
      pose proof (length_filter (fun e => Queues.data e <> []) (Queues.events (Queues.get_queue t k))). unfold len in *. lia.
  - split; [apply Hs|]. unfold Queues.get in Eg. repeat case_match; simplify_eq; try done.
    all: destruct (Queues.do_get _ _ _ _ _ _ _) as [[[? ?] ?]|]; cbn in Eg; by simplify_eq.
Qed.

Lemma get_head_ok t k now n : TQueue.wf t -> exists total l t', Queues.get t k (Queues.get_head t k) true now n = Some (Ok total, l, t') /\ TQueue.wf t'
  /\ len l <= total <= Queues.MAX_QUEUE_EVENTS /\ l = take n (TQueue.visible (Queues.get_head t k) now (TQueue.v_live (TQueue.view_of t k))).
Proof.
  intros H. destruct (get_read t k (Queues.get_head t k) true now n H) as (r & l & t' & E & Hw & Hr).
  destruct r as [total|e]; [exists total, l, t'; exact (conj E (conj Hw Hr))|]. exfalso. clear Hr. unfold Queues.get, Queues.get_head in E.
  pose proof (TQueue.t_wf _ _ H k) as Hq. unfold Queues.get_queue in Hq. destruct (Queues.queues t !! k) as [q|]; [|done]. cbn in Hq.
  assert (Queues.get_queue_head q <= Queues.tail_id q) as Hh.
  { unfold Queues.get_queue_head. destruct (Queues.events q) as [|e0 l0] eqn:Ee; [lia|].
    pose proof (TQueue.q_ids _ _ _ (TQueue.wq_ok _ _ Hq) e0) as Hi. rewrite Ee in Hi. pose proof (Hi (list_elem_of_here e0 l0)). lia. }
  rewrite ltb_false in E by lia. rewrite ltb_false in E by (unfold Queues.MAX_QUEUE_EVENTS; lia).
  destruct (Queues.do_get _ _ _ _ _ _ _) as [[[? ?] ?]|]; [|done]. cbn in E. by simplify_eq.
Qed.

(** What reading does: the first visible events come, the ones before are gone. *)
Definition reads_first (t : Queues.tqueue St) k from_id now n (l : list Queues.event) (t' : Queues.tqueue St) : Prop :=
  let old := TQueue.v_live (TQueue.view_of t k) in
  let new := TQueue.v_live (TQueue.view_of t' k) in
  l = take n (TQueue.visible from_id now old) /\ TQueue.visible from_id now new = TQueue.visible from_id now old
  /\ Forall (fun e => from_id <= Queues.ev_id e) new.

Lemma get_reads_first t k from_id now n total l t' : TQueue.wf t -> Queues.get t k from_id true now n = Some (Ok total, l, t') ->
  reads_first t k from_id now n l t'.
Proof.
  intros H E. destruct (TQueue.op_step t (TQueue.Get k from_id true now n) H I) as (o & t1 & E1 & _ & Hs). cbn [TQueue.apply_op] in E1.
  rewrite E in E1. injection E1 as <- <-. destruct Hs as (El & live' & Hv & _ & Hp & Hf). unfold reads_first. rewrite (Hv k), Z.eqb_refl. cbn [TQueue.v_live].
  split; [done|]. split; [by eapply pruned_visible|by apply Hf].
Qed.

(** Where getUpdates starts: at its offset, or at the first update that is left. *)
Definition start_id (t : Queues.tqueue St) k offset : Z :=
  let q := Queues.get_queue t k in
  if Queues.is_valid_id offset && (offset <=? Queues.tail_id q + 10) && (Queues.get_queue_head q - Queues.MAX_QUEUE_EVENTS <=? offset) then offset
  else Queues.get_queue_head q.

Lemma get_err t k from_id now n q : TQueue.wf t -> Queues.queues t !! k = Some q -> exists r l t', Queues.get t k from_id true now n = Some (r, l, t')
  /\ (is_ok r = (from_id <=? Queues.tail_id q + 10) && (Queues.get_queue_head q - Queues.MAX_QUEUE_EVENTS <=? from_id)) /\ (is_ok r = false -> t' = t).
Proof.
  intros H Hq. destruct (get_read t k from_id true now n H) as (r & l & t' & E & _). exists r, l, t'. split; [done|]. revert E.
  unfold Queues.get. rewrite Hq. destruct (Z.ltb_spec (Queues.tail_id q + 10) from_id).
  { intros [= <- <- <-]. by rewrite leb_false by lia. }
  destruct (Z.ltb_spec from_id (Queues.get_queue_head q - Queues.MAX_QUEUE_EVENTS)).
  { intros [= <- <- <-]. by rewrite (leb_false _ from_id), andb_false_r by lia. }
  destruct (Queues.do_get _ _ _ _ _ _ _) as [[[? ?] ?]|]; [|done]. intros [= <- <- <-]. cbn. by rewrite !leb_true by lia.
Qed.

Lemma read_updates_first s offset limit : TQueue.wf (tqueue s) -> was_authorized s = true -> 0 < offset ->
  exists l total t', read_updates cfg s offset limit = Some (l, total, set_tqueue (ask s).2 t')
    /\ reads_first (tqueue s) (tqueue_id cfg) (start_id (tqueue s) (tqueue_id cfg) offset) (unix_time cfg (Files.ticks (base s))) (Z.to_nat limit) l t'.
Proof.
  intros H Ha Ho. unfold read_updates, get_unix_time. rewrite Ha, leb_false by lia. cbn [ask Files.ask mbind option_bind].
  change (tqueue (set_base s _)) with (tqueue s). set (now := unix_time _ _). set (k := tqueue_id cfg). set (n := Z.to_nat limit). unfold start_id, Queues.from_int32.
  destruct (get_head_ok (tqueue s) k now n H) as (total0 & l0 & t0 & E0 & _). pose proof (get_reads_first _ _ _ _ _ _ _ _ H E0) as H0.
  assert (Queues.get_head (tqueue s) k = Queues.get_queue_head (Queues.get_queue (tqueue s) k)) as Eh.
  { unfold Queues.get_head, Queues.get_queue. by destruct (Queues.queues (tqueue s) !! k). }
  rewrite Eh in H0. destruct (Queues.is_valid_id offset); cbn [andb mbind option_bind]; [|rewrite E0; by exists l0, total0, t0].
  destruct (Queues.queues (tqueue s) !! k) as [q|] eqn:Eq.
  - destruct (get_err (tqueue s) k offset now n q H Eq) as (r & l & t' & E & Hr & Ht). rewrite E. cbn [mbind option_bind].
    assert (Queues.get_queue (tqueue s) k = q) as Egq by (unfold Queues.get_queue; by rewrite Eq). rewrite Egq in *. rewrite <-Hr. destruct r as [total|e]; cbn [is_ok] in *.
    + exists l, total, t'. split; [done|]. by apply (get_reads_first _ _ _ _ _ total).
    + rewrite (Ht eq_refl), E0. by exists l0, total0, t0.
  - assert (Queues.get (tqueue s) k offset true now n = Some (Ok 0, [], tqueue s)) as -> by (unfold Queues.get; by rewrite Eq).
    exists [], 0, (tqueue s). split; [done|]. unfold reads_first, TQueue.view_of, Queues.get_queue. rewrite Eq. cbn.
    by destruct n.
Qed.

Lemma visible_data (t : Queues.tqueue St) k from_id now n : Forall (fun e => Queues.ev_data e <> []) (take n (TQueue.visible from_id now (TQueue.v_live (TQueue.view_of t k)))).
Proof.
  apply Forall_take. unfold TQueue.visible. apply Forall_forall. intros e [_ He]%list_elem_of_filter. cbn in He.
  apply list_elem_of_fmap in He as (x & -> & Hx). by apply list_elem_of_filter in Hx as [? _].
Qed.

Lemma calm_tqueue s live t : good s live -> TQueue.wf t -> calm 0 [] s live (set_tqueue s t) live.
Proof. intros H Hw. apply calm_same; try done; apply H. Qed.

Lemma read_updates_calm s live offset limit : good s live -> was_authorized s = true ->
  exists l total s1, read_updates cfg s offset limit = Some (l, total, s1) /\ calm 0 [] s live s1 live
    /\ len l <= total <= Queues.MAX_QUEUE_EVENTS /\ Forall (fun e => Queues.ev_data e <> []) l.
Proof.
  intros H Ha. unfold read_updates. case_bool; [exists [], 0, s; split; [done|]; split; [by apply calm_refl|]; by split|].
  destruct (get_unix_time_calm s live H Ha) as (date & s1 & -> & H1). cbn [mbind option_bind]. pose proof (cm_good _ _ _ _ _ _ H1) as Hg.
  assert (forall t, TQueue.wf t -> calm 0 [] s live (set_tqueue s1 t) live) as Hset.
  { intros t Hw. exact (calm_trans 0 0 [] [] _ _ _ _ _ _ H1 (calm_tqueue s1 live t Hg Hw)). }
  destruct (get_head_ok (tqueue s1) (tqueue_id cfg) date (Z.to_nat limit) ltac:(apply Hg)) as (total & l & t' & Eh & Hw & Hl & El).
  destruct (Queues.from_int32 offset) as [from|e].
  - destruct (get_read (tqueue s1) (tqueue_id cfg) from true date (Z.to_nat limit) ltac:(apply Hg)) as (r & l1 & t1 & -> & Hw1 & Hr). cbn [mbind option_bind].
    destruct r as [total1|e1].
    + destruct Hr as [Hr ->]. eexists _, total1, _. split; [reflexivity|]. split; [by apply Hset|]. split; [done|]. apply visible_data.
    + destruct Hr as [-> ->]. rewrite Eh. cbn [mbind option_bind]. exists l, total, (set_tqueue s1 t'). split; [done|]. split; [by apply Hset|].
      split; [done|]. subst l. apply visible_data.
  - cbn [mbind option_bind]. rewrite Eh. cbn [mbind option_bind]. exists l, total, (set_tqueue s1 t'). split; [done|]. split; [by apply Hset|].
    split; [done|]. subst l. apply visible_data.
Qed.

Lemma json_updates_some left_len l : Forall (fun e => Queues.ev_data e <> []) l -> exists texts, json_updates left_len l = Some texts.
Proof.
  intros H. revert left_len. induction H as [|e l He _ IH]; intros left_len; cbn [json_updates]; [by eexists|]. case_bool; [by eexists|].
  unfold WebhookActor.Webhook.json_update. rewrite bool_decide_eq_false_2 by done. cbn [mbind option_bind].
  destruct (IH (left_len - (50 + len (Queues.ev_data e)))) as (texts & ->). by eexists.
Qed.

Lemma update_count_some total count : 0 < count < 2 ^ 33 -> 0 <= total <= Queues.MAX_QUEUE_EVENTS ->
  exists c, pending_update_count total count = Some c /\ 0 < c < 2 ^ 33.
Proof.
  intros Hc Ht. unfold pending_update_count, MIN_PENDING_UPDATES_WARNING. unfold Queues.MAX_QUEUE_EVENTS in Ht.
  case_bool; [eexists; split; [done|]; case_bool; lia|]. case_bool; [|by exists count].
  destruct (Invariant.raise_warning_ok total count 64) as (c & E & ?); [lia|lia|change (2 ^ 32) with 4294967296; lia| |exists c; split; [exact E|lia]].
  change (Z.of_nat 64) with 64. change (2 ^ 64) with 18446744073709551616. lia.
Qed.

(** *** The long poll *)

Lemma calm_long_poll k g s live s1 live1 lp : calm k g s live s1 live1 -> calm k g (set_long_poll_query s lp) live (set_long_poll_query s1 lp) live1.
Proof. intros [(? & ? & ?) Hc ? ? ?]. split; try done. unfold core, webhook_url in *. cbn in *. congruence. Qed.

Lemma long_poll_same s : set_long_poll_query s (long_poll_query s) = s.
Proof. by destruct s. Qed.

Lemma good_long_poll s live lp : good s live -> good (set_long_poll_query s lp) live.
Proof. done. Qed.

Lemma abort_long_poll_calm s live b : good s live ->
  calm 0 (option_list (long_poll_query s)) (set_long_poll_query s None) live (abort_long_poll cfg s b) live.
Proof.
  intros H. unfold abort_long_poll. destruct (long_poll_query s) as [q|] eqn:E.
  - by apply fail_query_conflict_calm.
  - pose proof (long_poll_same s) as Es. rewrite E in Es. rewrite Es. by apply calm_refl.
Qed.

Lemma calm_clear s live k : good s live -> 0 <= k -> calm 0 [] s live (set_tqueue s (Queues.clear (tqueue s) (tqueue_id cfg) k).2) live.
Proof.
  intros H Hk. apply calm_tqueue; [done|]. destruct H as (_ & Hw & _).
  destruct (TQueue.op_step (tqueue s) (TQueue.Clear (tqueue_id cfg) k) Hw Hk) as (o & t' & E & Hw' & _). cbn [TQueue.apply_op] in E.
  destruct (Queues.clear _ _ _) as [d t1]. by injection E as _ <-.
Qed.

(** A reader either waits or gets an answer; who waited before is told so. *)
Definition reads k s live (q : Query.promised) (waits : bool) (r : option client) : Prop :=
  exists s' live' lp g, r = Some s' /\ calm k g (set_long_poll_query s lp) live s' live'
    /\ (lp = long_poll_query s /\ g = [q] \/ waits = true /\ lp = Some q /\ g = option_list (long_poll_query s)).

Lemma reads_after k k' s live s1 live1 q b r : calm k [] s live s1 live1 -> reads k' s1 live1 q b r -> reads (k + k') s live q b r.
Proof.
  intros H (s' & live' & lp & g & E & H' & Hlp). exists s', live', lp, g. split; [done|].
  assert (long_poll_query s1 = long_poll_query s) as Eq by (pose proof (cm_core _ _ _ _ _ _ H) as Hc; unfold core in Hc; congruence).
  split; [|by rewrite <-Eq]. exact (calm_trans k k' [] g _ _ _ _ _ _ (calm_long_poll _ _ _ _ _ _ lp H) H').
Qed.

Lemma reads_waits k s live q b r : reads k s live q b r -> reads k s live q true r.
Proof. intros (s' & live' & lp & g & E & H & [?|(_ & ?)]); exists s', live', lp, g; split; [done| |done|]; (split; [done|]); [by left|by right]. Qed.

Lemma do_get_updates_reads s live offset limit timeout q : good s live -> space 1 s -> was_authorized s = true ->
  reads 1 s live q (negb (timeout =? 0)) (do_get_updates cfg s offset limit timeout q).
Proof.
  intros H Hs Ha. unfold do_get_updates.
  set (s1 := if offset <? 0 then _ else s). set (o := if offset <=? 0 then _ else offset).
  assert (calm 0 [] s live s1 live) as H1.
  { unfold s1. case_bool; [|by apply calm_refl]. apply calm_clear; [done|]. by apply wrap_bounds. }
  clearbody s1 o. apply (reads_after 0 1 _ _ _ _ _ _ _ H1). rewrite <-(core_authorized _ _ (cm_core _ _ _ _ _ _ H1)) in Ha.
  apply (space_calm 0 1 _ _ _ _ _ Hs) in H1 as Hs1. apply cm_good in H1. clear H Hs s. rename s1 into s, H1 into H, Hs1 into Hs.
  destruct (read_updates_calm s live o limit H Ha) as (l & total & s1 & -> & H1 & Ht & Hl). cbn [mbind option_bind].
  apply (reads_after 0 1 _ _ _ _ _ _ _ H1). rewrite <-(core_authorized _ _ (cm_core _ _ _ _ _ _ H1)) in Ha.
  apply (space_calm 0 1 _ _ _ _ _ Hs) in H1 as Hs1. apply cm_good in H1. clear H Hs s. rename s1 into s, H1 into H, Hs1 into Hs.
  rewrite ltb_false by lia. pose proof (len_nonneg l).
  destruct (update_count_some (total - len l) (last_pending_update_count s)) as (c & -> & Hc); [apply H|lia|]. cbn [mbind option_bind].
  set (s1 := set_last_pending_update_count s c). assert (calm 0 [] s live s1 live) as H1 by by apply calm_same; try done; apply H.
  apply (reads_after 0 1 _ _ _ _ _ _ _ H1). apply cm_good in H1 as Hg1. change (was_authorized s1 = true) in Ha. change (space 1 s1) in Hs.
  clearbody s1. clear H1 H Hc s. rename s1 into s, Hg1 into H. case_bool.
  - apply andb_true_iff in Heqb as [-> _]. pose proof (abort_long_poll_calm s live false H) as H1. set (s1 := abort_long_poll cfg s false) in *. clearbody s1.
    set (s2 := set_long_poll_was_wakeup _ _). assert (calm 0 [] (set_long_poll_query s1 (Some q)) live s2 live) as H2.
    { apply calm_same; try done; apply (cm_good _ _ _ _ _ _ H1). }
    destruct (now cfg s2) as [t s3] eqn:E. pose proof (now_calm _ _ _ _ (cm_good _ _ _ _ _ _ H2) E) as H3.
    set (s4 := set_long_poll_slot _ _). assert (calm 0 [] s3 live s4 live) as H4 by (apply calm_same; try done; apply (cm_good _ _ _ _ _ _ H3)).
    exists s4, live, (Some q), (option_list (long_poll_query s)). split; [done|]. split; [|by right]. apply (calm_more 0); [|lia].
    pose proof (calm_long_poll _ _ _ _ _ _ (Some q) H1) as H1'. pose proof (calm_trans _ _ _ _ _ _ _ _ _ _ H1' H2) as H5.
    pose proof (calm_trans _ _ _ _ _ _ _ _ _ _ H5 (calm_trans _ _ _ _ _ _ _ _ _ _ H3 H4)) as H6. by rewrite !app_nil_r in H6.
  - destruct (now cfg s) as [t1 s1] eqn:E1. pose proof (now_calm _ _ _ _ H E1) as H1.
    set (s2 := set_previous_get_updates_finish_time s1 t1). assert (calm 0 [] s1 live s2 live) as H2 by (apply calm_same; try done; apply (cm_good _ _ _ _ _ _ H1)).
    destruct (now cfg s2) as [t3 s3] eqn:E3. pose proof (now_calm _ _ _ _ (cm_good _ _ _ _ _ _ H2) E3) as H3.
    set (s4 := set_next_bot_updates_warning_time s3 _). assert (calm 0 [] s3 live s4 live) as H4 by (apply calm_same; try done; apply (cm_good _ _ _ _ _ _ H3)).
    pose proof (calm_trans _ _ _ _ _ _ _ _ _ _ (calm_trans _ _ _ _ _ _ _ _ _ _ H1 H2) (calm_trans _ _ _ _ _ _ _ _ _ _ H3 H4)) as H5.
    apply (reads_after 0 1 _ _ _ _ _ _ _ H5). apply (space_calm 0 1 _ _ _ _ _ Hs) in H5 as Hs5. apply cm_good in H5. clearbody s4. clear -H5 Hs5 Hl laws.
    assert (exists s' live', (if (total - len l =? len l) && was_bot_updates_warning s4
      then s' ← send_request cfg s4 (Files.SetBotUpdatesStatus 0 []); Some (set_was_bot_updates_warning s' false) else Some s4) = Some s' /\ calm 1 [] s4 live s' live') as (s5 & live5 & -> & H6).
    { case_bool; [|exists s4, live; split; [done|]; eapply calm_more; [by apply calm_refl|lia]].
      destruct (send_request_calm s4 live (Files.SetBotUpdatesStatus 0 []) H5 Hs5 ltac:(done)) as (s5 & live5 & -> & H6).
      eexists _, live5. split; [reflexivity|]. apply (calm_trans 1 0 [] [] _ _ _ _ _ _ H6). apply calm_same; try done; apply (cm_good _ _ _ _ _ _ H6). }
    cbn [mbind option_bind]. destruct (json_updates_some (Z.shiftl 1 22) l Hl) as (texts & ->). cbn [mbind option_bind].
    eexists _, live5, (long_poll_query s4), [q]. split; [reflexivity|]. rewrite long_poll_same. split; [|by left].
    exact (calm_trans 1 0 [] [q] _ _ _ _ _ _ H6 (answer_calm s5 live5 q _ (cm_good _ _ _ _ _ _ H6))).
Qed.

Lemma warn_pending_calm s live m : good s live -> space 1 s -> quietly 1 [] s live (warn_pending cfg s m).
Proof.
  intros H Hs. unfold warn_pending. assert (quietly 1 [] s live (Some s)) as Hq by (eapply quietly_some; [by apply calm_refl|lia]).
  case_bool; [|done]. destruct (now cfg s) as [t s1] eqn:E. pose proof (now_calm _ _ _ _ H E) as H1. pose proof (cm_good _ _ _ _ _ _ H1) as Hg.
  case_bool; [|by eapply quietly_some; [exact H1|]].
  apply (quietly_after 0 1 [] [] _ _ _ _ _ H1). apply (space_calm 0 1 _ _ _ _ _ Hs) in H1 as Hs1.
  destruct (send_request_calm s1 live (Files.SetBotUpdatesStatus (get_pending_update_count cfg s) m) Hg Hs1 ltac:(done)) as (s2 & live2 & -> & H2).
  cbn [mbind option_bind]. destruct (now cfg s2) as [t' s3] eqn:E3. pose proof (now_calm _ _ _ _ (cm_good _ _ _ _ _ _ H2) E3) as H3.
  eexists _, live2. split; [reflexivity|]. apply (calm_trans 1 0 [] [] _ _ _ _ _ _ (calm_trans 1 0 [] [] _ _ _ _ _ _ H2 H3)).
  apply calm_same; try done; apply (cm_good _ _ _ _ _ _ H3).
Qed.

(** Without force the long poll goes on. *)
Lemma long_poll_wakeup_calm s live (force : bool) : good s live -> space 1 s -> (long_poll_query s <> None -> was_authorized s = true) ->
  quietly 1 (if force then option_list (long_poll_query s) else []) (if force then set_long_poll_query s None else s) live
    (long_poll_wakeup cfg s force).
Proof.
  intros H Hs Ha. unfold long_poll_wakeup. destruct (long_poll_query s) as [q|] eqn:El.
  - specialize (Ha ltac:(done)). destruct force.
    + destruct (do_get_updates_reads (set_long_poll_query s None) live (long_poll_offset s) (long_poll_limit s) 0 q H Hs Ha)
        as (s' & live' & lp & g & E & Hc & [[-> ->]|[? _]]); [|done]. by exists s', live'.
    + destruct (now cfg s) as [t s1] eqn:E. pose proof (now_calm _ _ _ _ H E) as H1. apply (quietly_after 0 1 [] [] _ _ _ _ _ H1).
      pose proof (cm_good _ _ _ _ _ _ H1) as Hg. apply (quietly_some 0 1 [] _ _ _ live); [|lia]. by case_bool; apply calm_same; try done; apply Hg.
  - replace (if force then _ else []) with (@nil Query.promised) by by destruct force.
    replace (if force then _ else s) with s; [by apply warn_pending_calm|]. destruct force; [|done]. rewrite <-El. by rewrite long_poll_same.
Qed.

Lemma process_get_updates_reads s live q : good s live -> space 2 s -> was_authorized s = true ->
  reads 2 s live q (negb (webhook_is_active s)) (process_get_updates_query cfg s q).
Proof.
  intros H Hs Ha. unfold process_get_updates_query. case_bool.
  - exists (fail_query_conflict cfg s
      "Conflict: can't use getUpdates method while webhook is active; use deleteWebhook to delete the webhook first" q), live, (long_poll_query s), [q].
    split; [reflexivity|]. rewrite long_poll_same. split; [|by left]. eapply calm_more; [by apply fail_query_conflict_calm|lia].
  - cbn [negb].
    destruct (update_types_calm s live (Query.the_query q) H ltac:(by eapply space_less)) as (b & s1 & live1 & -> & H1). cbn [mbind option_bind].
    apply (space_calm 1 1 _ _ _ _ _ Hs) in H1 as Hs1. apply (reads_after 1 1 _ _ _ _ _ _ _ H1). rewrite <-(core_authorized _ _ (cm_core _ _ _ _ _ _ H1)) in Ha.
    apply cm_good in H1. destruct (now cfg s1) as [t s2] eqn:E. pose proof (now_calm _ _ _ _ H1 E) as H2.
    set (s3 := set_previous_get_updates_start_time _ _). assert (calm 0 [] s2 live1 s3 live1) as H3 by by apply calm_same; try done; apply (cm_good _ _ _ _ _ _ H2).
    pose proof (calm_trans 0 0 [] [] _ _ _ _ _ _ H2 H3) as H4. apply (reads_after 0 1 _ _ _ _ _ _ _ H4).
    apply (space_calm 0 1 _ _ _ _ _ Hs1) in H4 as Hs4. rewrite <-(core_authorized _ _ (cm_core _ _ _ _ _ _ H4)) in Ha. apply cm_good in H4.
    by eapply reads_waits, do_get_updates_reads.
Qed.

(** *** What a setWebhook query starts *)

Ltac carry := intros [(? & ? & ?) Hc ? ? ?]; split; try done; unfold core, webhook_url in *; cbn in *; congruence.

Lemma calm_set_query k g s live s1 live1 v : calm k g s live s1 live1 -> calm k g (set_webhook_set_query s v) live (set_webhook_set_query s1 v) live1.
Proof. carry. Qed.
Lemma calm_active_query k g s live s1 live1 v : calm k g s live s1 live1 -> calm k g (set_active_webhook_set_query s v) live (set_active_webhook_set_query s1 v) live1.
Proof. carry. Qed.
Lemma calm_query_type k g s live s1 live1 v : calm k g s live s1 live1 -> calm k g (set_webhook_query_type s v) live (set_webhook_query_type s1 v) live1.
Proof. carry. Qed.
Lemma calm_webhook_id k g s live s1 live1 v : calm k g s live s1 live1 -> calm k g (set_webhook_id s v) live (set_webhook_id s1 v) live1.
Proof. carry. Qed.

Lemma calm_settings k g s live s1 live1 f f' : calm k g s live s1 live1 ->
  Webhook.webhook_url (f (settings s)) = Webhook.webhook_url (f' (settings s1)) ->
  Webhook.has_webhook_certificate (f (settings s)) = Webhook.has_webhook_certificate (f' (settings s1)) ->
  calm k g (with_settings s f) live (with_settings s1 f') live1.
Proof. intros H Hu Ht. revert H. carry. Qed.

Lemma calm_emits k g s live s1 live1 e : calm k g s live s1 live1 -> calm k g (emit s e) live (emit s1 e) live1.
Proof.
  intros [(? & ? & ?) Hc Hb ? Hd]. split; try done.
  - unfold settled in *. cbn [emit set_sent sent base]. rewrite !answered_app, !app_assoc, Hb, <-!app_assoc. solve_Permutation.
  - by rewrite !deeds_emit, Hd.
Qed.

Definition is_create (e : effect) : bool := match e with CreateWebhook _ _ _ _ _ _ _ _ => true | _ => false end.

(** A webhook is created for the query, which waits for its verification. *)
Definition waits_verified (s : client) (e : effect) (q : Query.promised) : client :=
  set_webhook_set_query (set_webhook_query_type (set_webhook_id (emit s e) true) Verify) (Some (mk_held q false)).

Definition opened (s : client) (q : Query.promised) (e : effect) : client :=
  waits_verified (with_settings s (fun w => set_webhook_url w (Query.arg (Query.the_query q) (lit "url")))) e q.

(** Its certificate is copied first. *)
Definition copying (s : client) (q : Query.promised) (from : bytes) (size : Z) : client :=
  set_active_webhook_set_query (emit s (CopyCertificate from size)) (Some (mk_held q false)).

(** It waits for the end of the webhook that it replaces. *)
Definition replacing (s : client) (q : Query.promised) : client :=
  set_webhook_set_query (set_webhook_query_type (set_webhook_id s false) Cancel) (Some (mk_held q false)).

Lemma calm_waits_verified k g s live s1 live1 e q : calm k g s live s1 live1 -> calm k g (waits_verified s e q) live (waits_verified s1 e q) live1.
Proof. intros H. by apply calm_set_query, calm_query_type, calm_webhook_id, calm_emits. Qed.

Lemma calm_opened k g s live s1 live1 e q : calm k g s live s1 live1 -> calm k g (opened s q e) live (opened s1 q e) live1.
Proof. intros H. by apply calm_waits_verified, calm_settings; [|done|cbn; destruct H as [_ Hc _ _ _]; unfold core in Hc; congruence]. Qed.

Definition usable_url (q : Query.query) : Prop :=
  Query.arg q (lit "url") <> [] /\ exists u, Url.parse_url inet_pton6 (Query.arg q (lit "url")) Url.Https = Ok u.

(** Nobody waits for a webhook. *)
Definition idle (s : client) : Prop := webhook_set_query s = None /\ active_webhook_set_query s = None.

Inductive changes (k : Z) (gain : list Query.promised) (s : client) live (q : Query.promised) (s' : client) live' : Prop :=
| Done : calm k (gain ++ [q]) s live s' live' -> changes k gain s live q s' live'
| Copies from size : closing_or_logging_out s = false -> idle s -> long_poll_query s = None -> webhook_url s = [] -> usable_url (Query.the_query q) ->
  Webhook.has_webhook_certificate (settings s) = false -> calm k gain (copying s q from size) live s' live' -> changes k gain s live q s' live'
| Opens b e : closing_or_logging_out s = false -> idle s -> long_poll_query s = None -> webhook_url s = [] -> usable_url (Query.the_query q) ->
  is_create e = true -> calm k gain (opened (with_settings s (fun w => set_has_webhook_certificate w b)) q e) live s' live' -> changes k gain s live q s' live'
| Replaces : closing_or_logging_out s = false -> idle s -> webhook_url s <> [] ->
  calm k gain (replacing s q) live s' live' -> changes k gain s live q s' live'.

Lemma core_same s s1 : core s1 = core s -> webhook_query_type s1 = webhook_query_type s /\ long_poll_query s1 = long_poll_query s /\ webhook_set_query s1 = webhook_set_query s
  /\ active_webhook_set_query s1 = active_webhook_set_query s /\ webhook_id s1 = webhook_id s /\ webhook_url s1 = webhook_url s
  /\ Webhook.has_webhook_certificate (settings s1) = Webhook.has_webhook_certificate (settings s) /\ cmd_queue s1 = cmd_queue s.
Proof. unfold core. intros H. split_and!; congruence. Qed.

Lemma calm_replacing k g s live s1 live1 q : calm k g s live s1 live1 -> calm k g (replacing s q) live (replacing s1 q) live1.
Proof. intros H. by apply calm_set_query, calm_query_type, calm_webhook_id. Qed.

Lemma changes_after k k' g g' s live s1 live1 q s' live' : calm k g s live s1 live1 -> changes k' g' s1 live1 q s' live' ->
  changes (k + k') (g ++ g') s live q s' live'.
Proof.
  intros H Hc. destruct (core_same _ _ (cm_core _ _ _ _ _ _ H)) as (_ & El & Es & Ea & _ & Eu & Et & _).
  pose proof (core_closing _ _ (cm_core _ _ _ _ _ _ H)) as Ec. unfold idle in *.
  destruct Hc as [Hc|from size ? ? ? ? ? ? Hc|b e ? ? ? ? ? ? Hc|? ? ? Hc]; unfold idle in *; rewrite ?El, ?Es, ?Ea, ?Eu, ?Et, ?Ec in *.
  - apply Done. rewrite <-app_assoc. by eapply calm_trans.
  - eapply Copies; try done. eapply calm_trans; [|exact Hc]. by apply calm_active_query, calm_emits.
  - eapply Opens; try done. eapply calm_trans; [|exact Hc]. by apply calm_opened, calm_settings.
  - apply Replaces; try done. eapply calm_trans; [|exact Hc]. by apply calm_replacing.
Qed.

Lemma no_url_true l : no_url l = true <-> l = [].
Proof. apply bool_decide_eq_true. Qed.

Lemma no_url_false l : no_url l = false <-> l <> [].
Proof. apply bool_decide_eq_false. Qed.

(** A query that is not answered opens a webhook. *)
Lemma finish_set_webhook_opens s live q : good s live -> space 1 s -> idle s -> webhook_url s = [] -> usable_url (Query.the_query q) ->
  exists s' live', finish_set_webhook inet_pton6 cfg s q = Some s'
    /\ if closing_or_logging_out s then calm 0 [q] s live s' live'
       else exists e, is_create e = true /\ calm 1 [] (opened s q e) live s' live'.
Proof.
  intros H Hs [Hi1 Hi2] Hu [Ha (u & Hp)]. unfold finish_set_webhook. rewrite Hi1, Hi2, !bool_decide_eq_false_2 by by intros [].
  rewrite (proj2 (no_url_true _) Hu). cbn [orb negb]. case_bool; [by apply fail_query_closing_calm|].
  rewrite (proj2 (no_url_false _) Ha). destruct (now cfg s) as [t s1] eqn:E. pose proof (now_calm _ _ _ _ H E) as H1.
  match goal with |- context [update_allowed_update_types cfg ?x _] => set (s2 := x) end.
  assert (calm 0 [] (with_settings s (fun w => set_webhook_url w (Query.arg (Query.the_query q) (lit "url")))) live s2 live) as H2.
  { injection E as _ <-. apply calm_same; try done; apply H. }
  destruct (update_types_calm s2 live (Query.the_query q) (cm_good _ _ _ _ _ _ H2)) as (b & s3 & live3 & -> & H3); [apply (space_calm 0 1) in H2; [done|exact Hs]|].
  cbn [mbind option_bind]. rewrite Hp. eexists _, live3. split; [reflexivity|]. eexists. split; [|unfold opened; apply calm_waits_verified, (calm_trans 0 1 [] [] _ _ _ _ _ _ H2 H3)].
  done.
Qed.

Lemma refusal_none q : new_url_of q <> [] -> webhook_refusal inet_pton6 q = None -> usable_url q.
Proof.
  unfold new_url_of, webhook_refusal, usable_url. case_bool; [|done]. intros Hn. unfold new_url_of. rewrite Heqb. intros Hr. split; [done|].
  destruct (Url.parse_url _ _ _) as [u|e]; [by exists u|done].
Qed.

Definition begins k gain s live q (r : option client) : Prop := exists s' live', r = Some s' /\ changes k gain s live q s' live'.

Lemma begins_done k s live q s' live' : calm 0 [q] s live s' live' -> 0 <= k -> begins k [] s live q (Some s').
Proof. intros H Hk. exists s', live'. split; [done|]. apply Done. by apply (calm_more 0). Qed.

Lemma begins_after k k' g g' s live s1 live1 q r : calm k g s live s1 live1 -> begins k' g' s1 live1 q r -> begins (k + k') (g ++ g') s live q r.
Proof. intros H (s' & live' & E & H'). exists s', live'. split; [done|]. by eapply changes_after. Qed.

Lemma finish_begins s live q b : good s live -> space 1 s -> closing_or_logging_out s = false -> idle s -> long_poll_query s = None -> webhook_url s = [] ->
  usable_url (Query.the_query q) -> begins 1 [] s live q (finish_set_webhook inet_pton6 cfg (with_settings s (fun w => set_has_webhook_certificate w b)) q).
Proof.
  intros H Hs Hc Hi Hl Hu Hq. set (s1 := with_settings s _).
  destruct (finish_set_webhook_opens s1 live q H Hs Hi Hu Hq) as (s' & live' & -> & H1). change (closing_or_logging_out s1) with (closing_or_logging_out s) in H1.
  rewrite Hc in H1. destruct H1 as (e & He & H1). exists s', live'. split; [done|]. by eapply Opens.
Qed.

Lemma same_certificate s : with_settings s (fun w => set_has_webhook_certificate w (Webhook.has_webhook_certificate (settings s))) = s.
Proof. by destruct s as [? ? ? ? ? ? ? ? ? ? ? ? ? ? ? ? []]. Qed.

Lemma do_set_webhook_changes s live q b : good s live -> space 1 s -> webhook_url s = [] -> webhook_set_query s = None -> webhook_id s = false ->
  (new_url_of (Query.the_query q) <> [] -> long_poll_query s = None) ->
  (Webhook.has_webhook_certificate (settings s) = true -> closing_or_logging_out s = true) ->
  begins 1 [] s live q (do_set_webhook inet_pton6 cfg s q b).
Proof.
  intros H Hs Hu Hset Hid Hl Hcert. unfold do_set_webhook. rewrite (proj2 (no_url_true _) Hu). cbn [negb]. destruct (closing_or_logging_out s) eqn:Ec.
  { destruct (fail_query_closing_calm s live q H Ec) as (s' & live' & -> & H1). exists s', live'. split; [done|]. apply Done. by apply (calm_more 0). }
  assert (exists s1, (if Files.to_bool (Query.arg (Query.the_query q) (lit "drop_pending_updates")) then clear_tqueue cfg s else Some s) = Some s1
    /\ calm 0 [] s live s1 live) as (s1 & -> & H1).
  { case_bool; [|by exists s; split; [|apply calm_refl]]. unfold clear_tqueue. rewrite Hid. eexists. split; [reflexivity|]. by apply calm_clear. }
  cbn [mbind option_bind]. destruct (core_same _ _ (cm_core _ _ _ _ _ _ H1)) as (_ & El & Es & Ea & _ & Eu & Et & _).
  rewrite <-El in Hl. rewrite <-Et in Hcert. rewrite <-Eu in Hu. rewrite <-Es in Hset. pose proof (core_closing _ _ (cm_core _ _ _ _ _ _ H1)) as Ec1. rewrite Ec in Ec1.
  apply (space_calm 0 1 _ _ _ _ _ Hs) in H1 as Hs1. pose proof (cm_good _ _ _ _ _ _ H1) as Hg.
  apply (begins_after 0 1 [] [] _ _ _ _ _ _ H1).
  clear H1 H Hs El Es Ea Eu Et Ec Hid. destruct (no_url (new_url_of (Query.the_query q))) eqn:En.
  { eapply begins_done; [by apply answer_calm|lia]. }
  apply no_url_false in En. destruct (webhook_refusal inet_pton6 (Query.the_query q)) as [m|] eqn:Er.
  { eapply begins_done; [by apply answer_calm|lia]. }
  pose proof (refusal_none _ En Er) as Hq. destruct (bool_decide (is_Some (active_webhook_set_query s1))) eqn:Ea.
  { eapply begins_done; [by apply answer_calm|lia]. }
  apply bool_decide_eq_false, eq_None_not_Some in Ea. assert (idle s1) as Hi by done.
  destruct (Webhook.has_webhook_certificate (settings s1)) eqn:Et; [by specialize (Hcert eq_refl)|].
  assert (begins 1 [] s1 live q (finish_set_webhook inet_pton6 cfg s1 q)) as Hf.
  { pose proof (same_certificate s1) as Es. rewrite Et in Es. rewrite <-Es at 2. apply finish_begins; auto. }
  destruct (Query.is_internal _); [by apply finish_begins; auto|].
  destruct (get_webhook_certificate _) as [file|]; [|done]. destruct (_ <? file_size file); [by eapply begins_done; [by apply answer_calm|]|].
  rewrite Hset, bool_decide_eq_false_2 by by intros []. eexists _, live. split; [reflexivity|]. eapply Copies; auto. apply calm_more with 0; [|done].
  apply calm_refl. by apply (good_long_poll s1 live None).
Qed.

(** What is left of the queries that wait: the others get an answer. *)
Definition leaves (s : client) (sq : option held_query) (lp : option Query.promised) (g : list Query.promised) : Prop :=
  (sq = webhook_set_query s \/ sq = None) /\ (lp = long_poll_query s \/ lp = None)
  /\ g ++ option_list (h_query <$> sq) ++ option_list lp ≡ₚ option_list (h_query <$> webhook_set_query s) ++ option_list (long_poll_query s).

Definition left_with (s : client) (sq : option held_query) (lp : option Query.promised) : client :=
  set_long_poll_query (set_webhook_set_query s sq) lp.

(** The old webhook is closed. *)
Lemma replace_webhook_calm s live q :
  good s live -> calm 0 [] (replacing s q) live
    (set_webhook_set_query (set_webhook_query_type (if webhook_id s then set_webhook_id (emit s CloseWebhook) false else s) Cancel) (Some (mk_held q false))) live.
Proof.
  intros H. apply calm_set_query, calm_query_type. destruct (webhook_id s) eqn:E.
  - by apply calm_webhook_id, (calm_emit s live CloseWebhook).
  - replace (set_webhook_id s false) with s; [by apply calm_refl|]. rewrite <-E. by destruct s.
Qed.

Lemma change_webhook_changes s live q : good s live -> space 1 s -> closing_or_logging_out s = false -> idle s ->
  (Webhook.has_webhook_certificate (settings s) = true -> webhook_url s <> []) -> (webhook_id s = true -> webhook_url s <> []) ->
  (webhook_url s <> [] -> long_poll_query s = None) ->
  exists lp g, leaves s None lp g /\ begins 1 g (left_with s None lp) live q (change_webhook inet_pton6 cfg s q).
Proof.
  intros H Hs Hc [Hi1 Hi2] Hcert Hid Hl. unfold change_webhook.
  set (lp := if no_url (new_url_of (Query.the_query q)) then long_poll_query s else None).
  set (g := if no_url (new_url_of (Query.the_query q)) then [] else option_list (long_poll_query s)).
  set (s1 := if no_url _ then s else _).
  assert (left_with s None lp = set_long_poll_query s lp) as El by (unfold left_with; rewrite <-Hi1; by destruct s).
  assert (calm 0 g (left_with s None lp) live s1 live) as H1.
  { rewrite El. unfold lp, g, s1. destruct (no_url _); [rewrite long_poll_same; by apply calm_refl|by apply abort_long_poll_calm]. }
  exists lp, g. split.
  { unfold leaves. rewrite Hi1. split; [by right|]. unfold lp, g. destruct (no_url _); cbn; (split; [by auto|done]) || (split; [by right|by rewrite app_nil_r]). }
  set (s2 := set_webhook_generation s1 _). assert (calm 0 [] s1 live s2 live) as H2 by by apply calm_same; try done; apply (cm_good _ _ _ _ _ _ H1).
  pose proof (calm_trans 0 0 g [] _ _ _ _ _ _ H1 H2) as H3. rewrite app_nil_r in H3. rewrite <-(app_nil_r g).
  apply (begins_after 0 1 g [] _ _ _ _ _ _ H3). pose proof (cm_good _ _ _ _ _ _ H3) as Hg. clearbody s2.
  rewrite El in H3. destruct (core_same _ _ (cm_core _ _ _ _ _ _ H3)) as (_ & El2 & Es2 & Ea2 & Ei2 & Eu2 & Et2 & _). cbn in El2, Es2, Ea2, Ei2.
  change (webhook_url (set_long_poll_query s lp)) with (webhook_url s) in Eu2. change (settings (set_long_poll_query s lp)) with (settings s) in Et2.
  pose proof (core_closing _ _ (cm_core _ _ _ _ _ _ H3)) as Ec2. change (closing_or_logging_out (set_long_poll_query s lp)) with (closing_or_logging_out s) in Ec2.
  assert (space 1 s2) as Hs2 by (apply (space_calm 0 1) in H3; [done|exact Hs]).
  destruct (no_url (webhook_url s2)) eqn:Eu; rewrite ?no_url_true, ?no_url_false, Eu2 in Eu.
  - apply do_set_webhook_changes; try done; try congruence.
    + rewrite Ei2. destruct (webhook_id s) eqn:Ei; [|done]. by destruct Hid.
    + intros Hn%no_url_false. rewrite El2. unfold lp. by rewrite Hn.
    + rewrite Et2. intros Ht. by destruct Hcert.
  - rewrite bool_decide_eq_false_2 by (case_bool; cbn; rewrite Ea2, Hi2; by intros []).
    eexists _, live. split; [reflexivity|]. apply Replaces; [by rewrite Ec2|by split; congruence|by rewrite Eu2|].
    by apply calm_more with 0; [apply replace_webhook_calm|].
Qed.

(** What a setWebhook query relies on. *)
Record ready (s : client) : Prop := {
  rd_open : closing_or_logging_out s = false;
  rd_set : forall h, webhook_set_query s = Some h -> h_answered h = false /\ active_webhook_set_query s = None;
  rd_certificate : Webhook.has_webhook_certificate (settings s) = true -> webhook_url s <> [];
  rd_id : webhook_id s = true -> webhook_url s <> [];
  rd_poll : webhook_url s <> [] -> long_poll_query s = None }.

Lemma leaves_all s : leaves s (webhook_set_query s) (long_poll_query s) [].
Proof. by split; [left|split; [left|]]. Qed.

Lemma left_all s : left_with s (webhook_set_query s) (long_poll_query s) = s.
Proof. by destruct s. Qed.

Lemma calm_left k g s live s1 live1 sq lp : calm k g s live s1 live1 -> calm k g (left_with s sq lp) live (left_with s1 sq lp) live1.
Proof. intros H. by apply calm_long_poll, calm_set_query. Qed.

Lemma ready_calm k g s live s1 live1 : calm k g s live s1 live1 -> ready s -> ready s1.
Proof.
  intros H [H1 H2 H3 H4 H5]. destruct (core_same _ _ (cm_core _ _ _ _ _ _ H)) as (_ & El & Es & Ea & Ei & Eu & Et & _).
  pose proof (core_closing _ _ (cm_core _ _ _ _ _ _ H)) as Ec. split; rewrite ?Ec, ?El, ?Es, ?Ea, ?Ei, ?Eu, ?Et; done.
Qed.

Definition takes k s live q (r : option client) : Prop := exists sq lp g, leaves s sq lp g /\ begins k g (left_with s sq lp) live q r.

Lemma takes_after k k' s live s1 live1 q r : calm k [] s live s1 live1 -> takes k' s1 live1 q r -> takes (k + k') s live q r.
Proof.
  intros H (sq & lp & g & Hl & Hb). exists sq, lp, g. destruct (core_same _ _ (cm_core _ _ _ _ _ _ H)) as (_ & El & Es & _).
  split; [by unfold leaves in *; rewrite El, Es in Hl|]. exact (begins_after k k' [] g _ _ _ _ _ _ (calm_left _ _ _ _ _ _ sq lp H) Hb).
Qed.

Lemma takes_done k s live q s' live' : calm k [q] s live s' live' -> takes k s live q (Some s').
Proof.
  intros H. exists (webhook_set_query s), (long_poll_query s), []. split; [apply leaves_all|]. exists s', live'. split; [done|]. apply Done. by rewrite left_all.
Qed.

Lemma change_takes s live q : good s live -> space 1 s -> ready s -> webhook_set_query s = None -> active_webhook_set_query s = None ->
  takes 1 s live q (change_webhook inet_pton6 cfg s q).
Proof.
  intros H Hs [Hc _ Ht Hi Hl] Hs1 Ha. destruct (change_webhook_changes s live q H Hs Hc (conj Hs1 Ha) Ht Hi Hl) as (lp & g & ? & ?).
  by exists None, lp, g.
Qed.

Lemma process_set_webhook_takes s live q : good s live -> space 2 s -> ready s -> takes 2 s live q (process_set_webhook_query inet_pton6 cfg s q).
Proof.
  intros H Hs Hr. unfold process_set_webhook_query. destruct (now cfg s) as [t s1] eqn:E. pose proof (now_calm _ _ _ _ H E) as H1.
  set (limited := negb _ && negb _). apply (takes_after 0 2 _ _ _ _ _ _ H1). apply (space_calm 0 2 _ _ _ _ _ Hs) in H1 as Hs1.
  pose proof (ready_calm _ _ _ _ _ _ H1 Hr) as Hr1. apply cm_good in H1. clear H Hs Hr E s. rename s1 into s.
  destruct (limited && qltb t (next_allowed_set_webhook_time s)); [by apply (takes_done 2 _ _ _ _ live), (calm_more 0); [apply answer_calm|]|].
  set (s1 := if limited then _ else s). set (s2 := set_next_bot_updates_warning_time s1 _).
  assert (calm 0 [] s live s2 live) as H2 by (unfold s2, s1; destruct limited; apply calm_same; try done; apply H1).
  apply (takes_after 0 2 _ _ _ _ _ _ H2). apply (space_calm 0 2 _ _ _ _ _ Hs1) in H2 as Hs2. pose proof (ready_calm _ _ _ _ _ _ H2 Hr1) as Hr.
  apply cm_good in H2 as H. clearbody s2. clear H2 s1 Hs1 H1 Hr1 s. rename s2 into s, Hs2 into Hs.
  destruct (webhook_set_query s) as [h|] eqn:Eh.
  - destruct (rd_set _ Hr h Eh) as (Hh & Ha). unfold take_held. rewrite Hh. cbn [mbind option_bind].
    pose proof (fail_query_conflict_calm (set_webhook_set_query s None) live "Conflict: terminated by other setWebhook" (h_query h) H) as H3.
    set (s3 := fail_query_conflict _ _ _ _) in *. clearbody s3. destruct (core_same _ _ (cm_core _ _ _ _ _ _ H3)) as (_ & El & Es & Ea & _). cbn in El, Es, Ea.
    assert (ready (set_webhook_set_query s None)) as Hr' by by destruct Hr; split.
    assert (space 2 s3) as Hs3 by (apply (space_calm 0 2) in H3; [done|exact Hs]).
    destruct (change_takes s3 live q (cm_good _ _ _ _ _ _ H3) ltac:(by eapply space_less) (ready_calm _ _ _ _ _ _ H3 Hr')) as (sq & lp & g & (Hsq & Hlp & Hg) & s' & live' & Eq & Hb);
      [done|congruence|].
    rewrite Es in Hsq, Hg. rewrite El in Hlp, Hg. assert (sq = None) as -> by by destruct Hsq.
    exists None, lp, (h_query h :: g). split.
    { split; [by right|]. split; [done|]. rewrite Eh. cbn in *. by rewrite Hg. }
    exists s', live'. split; [done|]. apply calm_left with (sq := None) (lp := lp) in H3.
    pose proof (changes_after 0 1 [h_query h] g _ _ _ _ _ _ _ H3 Hb) as Hb'. by destruct Hb'; [apply Done|eapply Copies|eapply Opens|apply Replaces]; eauto; apply (calm_more 1).
  - destruct (bool_decide (is_Some (active_webhook_set_query s))) eqn:Ea.
    { by apply (takes_done 2 _ _ _ _ live), (calm_more 0); [apply answer_calm|]. }
    apply bool_decide_eq_false, eq_None_not_Some in Ea. destruct (is_not_modified cfg s (Query.the_query q)).
    + destruct (update_types_calm s live (Query.the_query q) H ltac:(by eapply space_less)) as (b & s1 & live1 & -> & H1). cbn [mbind option_bind].
      set (s2 := if b then _ else s1). assert (calm 0 [] s1 live1 s2 live1) as H2.
      { unfold s2. destruct b; [by apply (calm_emit s1 live1 (SaveWebhook _)); [apply (cm_good _ _ _ _ _ _ H1)|]|]. apply calm_refl, (cm_good _ _ _ _ _ _ H1). }
      eapply (takes_done 2 _ _ _ _ live1), calm_more;
        [exact (calm_trans 1 0 [] [q] _ _ _ _ _ _ H1 (calm_trans 0 0 [] [q] _ _ _ _ _ _ H2 (answer_calm s2 live1 q _ (cm_good _ _ _ _ _ _ H2))))|done].
    + destruct (change_takes s live q H ltac:(by eapply space_less) Hr Eh Ea) as (sq & lp & g & Hl & s' & live' & Eq & Hb).
      exists sq, lp, g. split; [done|]. exists s', live'. split; [done|].
      by destruct Hb; [apply Done|eapply Copies|eapply Opens|apply Replaces]; eauto; apply (calm_more 1).
Qed.

End WithQueues.
End Book.
