(* ===== verification/UpdatesInvariant.v ===== *)
(** * The shape of a client that hands out updates

    Module [Shape]: what the fields of a client and the events that it is owed can
    be at the same time - a long poll excludes a webhook, a query that waits for a
    webhook or a certificate is owed an event - and that every event that may
    happen succeeds, keeps the shape, and keeps the book of [UpdatesBook.v]. *)

From S2P Require Import Prelude TdMisc Utf8 Json TextParser IPAddress Stats Query FileStreamCore HttpHeader FileStreamConnection Workdir HttpUrl Base64 Containers TQueue ClientWebhook WebhookActor WebhookDelivery WebhookInvariant ClientFiles FilesProperties ClientUpdates UpdatesBook.

Import Strings ClientError Updates Ledger Book.

Module Shape.

(** The events that others owe to a client: a webhook that was created closes, a
    certificate is copied or removed, the directory is removed. *)
Record world := mk_world { w_webhook : bool; w_unlinking : bool; w_copying : bool; w_removing : bool }.

Definition tell (w : world) (e : effect) : world :=
  match e with
  | CreateWebhook _ _ _ _ _ _ _ _ => mk_world true (w_unlinking w) (w_copying w) (w_removing w)
  | UnlinkCertificate _ => mk_world (w_webhook w) true (w_copying w) (w_removing w)
  | CopyCertificate _ _ => mk_world (w_webhook w) (w_unlinking w) true (w_removing w)
  | RemoveDirectory => mk_world (w_webhook w) (w_unlinking w) (w_copying w) true
  | _ => w
  end.

Definition hear (w : world) (e : event) : world :=
  match e with
  | WebhookClosed _ => mk_world false (w_unlinking w) (w_copying w) (w_removing w)
  | CertificateUnlinked _ => mk_world (w_webhook w) false (w_copying w) (w_removing w)
  | CertificateCopied _ => mk_world (w_webhook w) (w_unlinking w) false (w_removing w)
  | DirectoryRemoved => mk_world (w_webhook w) (w_unlinking w) (w_copying w) false
  | _ => w
  end.

Section WithQueues.
Context {St : Type} {ops : Queues.storage_ops St} {laws : TQueue.storage_laws St}.
Context (inet_pton6 : bytes -> pton_result bytes) (cfg : config).
#[local] Notation client := (Updates.client (St := St)).
Implicit Types (s : client) (live : gmap Z (option Files.handler)) (w : world).

Record shape (w : world) (s : client) : Prop := {
  sh_time : was_authorized s = true -> qltb 0 (Files.next_authorization_time (base s)) = false;
  sh_authorized : was_authorized s = false ->
    long_poll_query s = None /\ webhook_set_query s = None /\ active_webhook_set_query s = None /\ w_webhook w = false;
  sh_td : Files.td_client (base s) = false ->
    long_poll_query s = None /\ webhook_set_query s = None /\ active_webhook_set_query s = None /\ webhook_id s = false;
  sh_queue : cmd_queue s <> [] -> was_authorized s = false /\ closing_or_logging_out s = false;
  sh_set : forall h, webhook_set_query s = Some h -> h_answered h = false /\ webhook_url s <> [] /\ active_webhook_set_query s = None;
  sh_active : forall h, active_webhook_set_query s = Some h ->
    h_answered h = false /\ webhook_url s = [] /\ w_copying w = true /\ usable_url inet_pton6 (Query.the_query (h_query h));
  sh_poll : long_poll_query s <> None -> webhook_is_active s = false;
  sh_id : webhook_id s = true -> webhook_url s <> [];
  sh_certificate : Webhook.has_webhook_certificate (settings s) = true -> webhook_url s <> [] \/ closing_or_logging_out s = true;
  sh_copying : w_copying w = true -> Files.td_client (base s) = true -> active_webhook_set_query s <> None;
  sh_owed : webhook_url s <> [] -> Files.td_client (base s) = true -> w_webhook w = true \/ w_unlinking w = true;
  sh_removing : w_removing w = true -> Files.td_client (base s) = false;
}.

(** All queries of a client. *)
Definition held_queries (s : client) : list Query.promised :=
  cmd_queue s ++ option_list (h_query <$> webhook_set_query s) ++ option_list (long_poll_query s) ++ option_list (h_query <$> active_webhook_set_query s).

Definition book (s : client) live : list Query.promised := settled s live ++ held_queries s.

(** [w] becomes what the new effects tell. *)
Definition turn (k : Z) (gain : list Query.promised) (w : world) s live (r : option client) : Prop :=
  exists s' live' new, r = Some s' /\ good s' live' /\ deeds s' = deeds s ++ new /\ shape (foldl tell w new) s'
    /\ book s' live' ≡ₚ gain ++ book s live /\ Container.size (Files.handlers (base s')) <= Container.size (Files.handlers (base s)) + k
    /\ flags (base s') = flags (base s).

(** *** Where shapes come from *)

Lemma shape_core w s s1 : core s1 = core s -> shape w s -> shape w s1.
Proof.
  intros Hc H. destruct (core_same _ _ Hc) as (_ & El & Es & Ea & Ei & Eu & Et & Eq).
  assert (flags (base s1) = flags (base s)) as Hf by (unfold core in Hc; congruence). injection Hf as Ew Ecl Elo Etd Ent.
  assert (was_authorized s1 = was_authorized s) as Ew' by exact Ew.
  assert (closing_or_logging_out s1 = closing_or_logging_out s) as Ec by (unfold closing_or_logging_out; congruence).
  destruct H. split; unfold webhook_is_active in *; rewrite ?Ew', ?Ec, ?Etd, ?Ent, ?El, ?Es, ?Ea, ?Ei, ?Eu, ?Et, ?Eq; done.
Qed.

Lemma held_core s s1 : core s1 = core s -> held_queries s1 = held_queries s.
Proof. intros Hc. destruct (core_same _ _ Hc) as (_ & El & Es & Ea & _ & _ & _ & Eq). unfold held_queries. by rewrite El, Es, Ea, Eq. Qed.

Lemma turn_of k g gain w s live s0 new s' live' : calm k g s0 live s' live' -> shape (foldl tell w new) s0 -> deeds s0 = deeds s ++ new ->
  base s0 = base s -> g ++ book s0 live ≡ₚ gain ++ book s live -> turn k gain w s live (Some s').
Proof.
  intros [Hg Hc Hb Hr Hd] Hs Hd0 Hh Hp. exists s', live', new. split; [done|]. split; [done|]. split; [by rewrite Hd, Hd0|].
  split; [by eapply shape_core|]. split; [|split; [by rewrite <-Hh|rewrite <-Hh; unfold core in Hc; congruence]].
  rewrite <-Hp. unfold book. rewrite Hb, (held_core _ _ Hc). solve_Permutation.
Qed.

Lemma turn_quiet k g w s live r : quietly k g s live r -> shape w s -> turn k g w s live r.
Proof. intros (s' & live' & -> & H) Hs. apply (turn_of k g g w s live s [] s' live'); try done. by rewrite app_nil_r. Qed.

Lemma turn_bind k k' g g' w s live r (f : client -> option client) : turn k g w s live r ->
  (forall s1 live1 w1, good s1 live1 -> shape w1 s1 -> Container.size (Files.handlers (base s1)) <= Container.size (Files.handlers (base s)) + k ->
     flags (base s1) = flags (base s) -> r = Some s1 -> turn k' g' w1 s1 live1 (f s1)) -> turn (k + k') (g ++ g') w s live (r ≫= f).
Proof.
  intros (s1 & live1 & new & -> & Hg & Hd & Hs & Hb & Hr & Hf) H.
  destruct (H s1 live1 _ Hg Hs Hr Hf eq_refl) as (s2 & live2 & new2 & E & Hg2 & Hd2 & Hs2 & Hb2 & Hr2 & Hf2).
  exists s2, live2, (new ++ new2). split; [done|]. split; [done|]. split; [by rewrite Hd2, Hd, app_assoc|]. split; [by rewrite foldl_app|].
  split; [|split; [lia|congruence]]. rewrite Hb2, Hb. solve_Permutation.
Qed.

Lemma inactive s : webhook_is_active s = false <-> webhook_url s = [] /\ webhook_set_query s = None /\ active_webhook_set_query s = None.
Proof.
  unfold webhook_is_active. rewrite !orb_false_iff, negb_false_iff, no_url_true, !bool_decide_eq_false, <-!eq_None_not_Some. tauto.
Qed.

Lemma shape_ready w s : shape w s -> closing_or_logging_out s = false -> ready s.
Proof.
  intros H Hc. split; [done| | |apply (sh_id _ _ H)|].
  - intros h Hh. destruct (sh_set _ _ H h Hh) as (? & _ & ?). done.
  - intros Ht. destruct (sh_certificate _ _ H Ht); [done|congruence].
  - intros Hu. destruct (long_poll_query s) eqn:E; [|done]. pose proof (sh_poll _ _ H) as Hp. rewrite E in Hp.
    by destruct (proj1 (inactive s) (Hp ltac:(done))).
Qed.

Lemma shape_left w s sq lp g : shape w s -> leaves s sq lp g -> shape w (left_with s sq lp).
Proof.
  intros [H1 H2 H3 H4 H5 H6 H7 H8 H9 H10 H11 H12] (Hsq & Hlp & _). split; try done; cbn.
  - intros (El & Es & ?)%H2. by destruct Hsq as [-> | ->], Hlp as [-> | ->].
  - intros (El & Es & ?)%H3. by destruct Hsq as [-> | ->], Hlp as [-> | ->].
  - intros h Hh. destruct Hsq as [-> | ->]; [by apply H5|done].
  - intros Hl. destruct Hlp as [-> | ->]; [|done]. destruct (proj1 (inactive s) (H7 Hl)) as (? & ? & ?). apply inactive. by destruct Hsq as [-> | ->].
Qed.

Lemma book_left s live sq lp g : leaves s sq lp g -> g ++ book (left_with s sq lp) live ≡ₚ book s live.
Proof.
  intros (_ & _ & Hg). unfold book, held_queries. cbn [left_with set_long_poll_query set_webhook_set_query long_poll_query webhook_set_query cmd_queue active_webhook_set_query].
  change (settled (left_with s sq lp) live) with (settled s live).
  transitivity (settled s live ++ cmd_queue s ++ (g ++ option_list (h_query <$> sq) ++ option_list lp) ++ option_list (h_query <$> active_webhook_set_query s));
    [solve_Permutation|]. rewrite Hg. solve_Permutation.
Qed.

Lemma open_td s live : good s live -> closing_or_logging_out s = false -> Files.td_client (base s) = true.
Proof. intros ([_ _ [?|Ho]] & _) Hc; [done|]. unfold closing_or_logging_out in Hc. rewrite orb_comm in Hc. congruence. Qed.

(** What remains to be said of an authorized client that runs and has no long poll. *)
Lemma shape_running w s w' s' : shape w s -> was_authorized s = true -> Files.td_client (base s) = true -> long_poll_query s = None ->
  base s' = base s -> cmd_queue s' = cmd_queue s -> long_poll_query s' = long_poll_query s -> w_removing w' = w_removing w ->
  (forall h, webhook_set_query s' = Some h -> h_answered h = false /\ webhook_url s' <> [] /\ active_webhook_set_query s' = None) ->
  (forall h, active_webhook_set_query s' = Some h ->
    h_answered h = false /\ webhook_url s' = [] /\ w_copying w' = true /\ usable_url inet_pton6 (Query.the_query (h_query h))) ->
  (webhook_id s' = true -> webhook_url s' <> []) ->
  (Webhook.has_webhook_certificate (settings s') = true -> webhook_url s' <> [] \/ closing_or_logging_out s' = true) ->
  (w_copying w' = true -> active_webhook_set_query s' <> None) ->
  (webhook_url s' <> [] -> w_webhook w' = true \/ w_unlinking w' = true) -> shape w' s'.
Proof.
  intros H Hw Ht Hl Eb Eq El Er H1 H2 H3 H4 H5 H6. pose proof (sh_time _ _ H) as Ht1. pose proof (sh_queue _ _ H) as Hq1.
  split; unfold was_authorized, closing_or_logging_out in *; rewrite ?Eb, ?Eq, ?El, ?Er in *; try assumption.
  - congruence.
  - congruence.
  - intros Hl'. congruence.
  - intros Hc _. by apply H5.
  - intros Hu _. by apply H6.
  - apply (sh_removing _ _ H).
Qed.

Lemma turn_changes k g w s live q s' live' : changes inet_pton6 k g s live q s' live' -> good s live -> shape w s -> was_authorized s = true ->
  turn k (g ++ [q]) w s live (Some s').
Proof.
  intros Hc Hg H Hw. destruct Hc as [Hc|from size Hcl [Hi1 Hi2] Hl Hu Hq Ht Hc|b e Hcl [Hi1 Hi2] Hl Hu Hq He Hc|Hcl [Hi1 Hi2] Hu Hc].
  - apply (turn_of k _ _ w s live s [] s' live' Hc); try done. by rewrite app_nil_r.
  - pose proof (open_td s live Hg Hcl) as Htd.
    apply (turn_of k _ _ w s live (copying s q from size) [CopyCertificate from size] s' live' Hc); [|apply deeds_emit|done|].
    + apply (shape_running w s); try done; cbn.
      * intros h Hh. congruence.
      * by intros h [= <-].
      * apply (sh_id _ _ H).
      * intros Ht'. congruence.
    + unfold book, held_queries, copying, settled. cbn. rewrite Hi2, answered_app. cbn. solve_Permutation.
  - pose proof (open_td s live Hg Hcl) as Htd.
    apply (turn_of k _ _ w s live (opened (with_settings s (fun x => set_has_webhook_certificate x b)) q e) [e] s' live' Hc); [| |done|].
    + destruct e; try done. destruct Hq as [Hq _]. apply (shape_running w s); try done; cbn.
      * by intros h [= <-].
      * intros h Hh. congruence.
      * intros _. by left.
      * intros Hc'. by apply (sh_copying _ _ H).
      * intros _. by left.
    + change (deeds (opened _ q e)) with (deeds (emit s e)). rewrite deeds_emit. by destruct e.
    + unfold book, held_queries, settled. destruct e; try done. cbn. rewrite Hi1, answered_app. cbn. solve_Permutation.
  - pose proof (open_td s live Hg Hcl) as Htd. apply (turn_of k _ _ w s live (replacing s q) [] s' live' Hc); [| |done|].
    + assert (long_poll_query s = None) as Hl by by apply (rd_poll s (shape_ready w s H Hcl)). apply (shape_running w s); try done; cbn.
      * by intros h [= <-].
      * intros h Hh. congruence.
      * apply (sh_certificate _ _ H).
      * intros Hc'. by apply (sh_copying _ _ H).
      * intros Hu'. by apply (sh_owed _ _ H).
    + by rewrite app_nil_r.
    + unfold book, held_queries, settled. cbn. rewrite Hi1. cbn. solve_Permutation.
Qed.

Lemma turn_takes k w s live q r : takes inet_pton6 k s live q r -> good s live -> shape w s -> was_authorized s = true -> turn k [q] w s live r.
Proof.
  intros (sq & lp & g & Hl & s' & live' & -> & Hc) Hg H Hw.
  destruct (turn_changes k g w (left_with s sq lp) live q s' live' Hc Hg (shape_left _ _ _ _ _ H Hl) Hw) as (s1 & live1 & new & E & ? & Hd & ? & Hb & ? & ?).
  exists s1, live1, new. split; [done|]. split; [done|]. split; [done|]. split; [done|]. split; [|done].
  rewrite Hb, <-(book_left s live sq lp g Hl). solve_Permutation.
Qed.

Lemma turn_reads k w s live q b r : reads k s live q b r -> (b = true -> webhook_is_active s = false) -> good s live -> shape w s ->
  was_authorized s = true -> closing_or_logging_out s = false -> turn k [q] w s live r.
Proof.
  intros (s' & live' & lp & g & -> & Hc & Hlp) Hb Hg H Hw Hcl. pose proof (open_td s live Hg Hcl) as Htd.
  apply (turn_of k g _ w s live _ [] s' live' Hc); [|by rewrite app_nil_r|done|].
  - destruct Hlp as [[-> ->]|(-> & -> & ->)]; [by rewrite long_poll_same|]. specialize (Hb eq_refl). destruct (proj1 (inactive s) Hb) as (Hu & Hs & Ha).
    destruct H. split; unfold webhook_is_active, was_authorized, closing_or_logging_out, webhook_url in *; cbn in *; try done; try congruence; try naive_solver.
  - unfold book, held_queries, settled. destruct Hlp as [[-> ->]|(-> & -> & ->)]; cbn; solve_Permutation.
Qed.

Lemma turn_base k g w s live b live' : ledger_ok b live' -> balance b live' ≡ₚ g ++ balance (base s) live -> flags b = flags (base s) ->
  Container.size (Files.handlers b) <= Container.size (Files.handlers (base s)) + k -> good s live -> shape w s -> turn k g w s live (Some (set_base s b)).
Proof.
  intros Ho Hb Hf Hr (_ & Hq1 & Hq2) H. exists (set_base s b), live', []. split; [done|]. split; [done|]. split; [by rewrite app_nil_r|].
  split; [apply (shape_core w s); [unfold core; cbn; by rewrite Hf|done]|]. split; [|done].
  unfold book, settled, held_queries. cbn. rewrite Hb. solve_Permutation.
Qed.

Lemma core_flags s s' : flags (base s') = flags (base s) -> was_authorized s' = was_authorized s /\ closing_or_logging_out s' = closing_or_logging_out s.
Proof. unfold closing_or_logging_out, was_authorized, flags. intros H. split; congruence. Qed.

Lemma on_cmd_turn w s live q : good s live -> shape w s -> space 2 s -> was_authorized s || closing_or_logging_out s = true ->
  turn 2 [q] w s live (on_cmd inet_pton6 cfg s q).
Proof.
  intros Hg H Hs Hw. unfold on_cmd. destruct (file_command _) as [c|].
  - assert (room 1 (base s)) as Hr by by eapply space_less. pose proof Hg as (Ho & _).
    destruct (on_cmd_handles (files_env cfg) never (base s) live c q Ho Hr) as (b & live' & E & Ho' & Hb & _).
    { unfold was_authorized, closing_or_logging_out in Hw. by rewrite <-orb_assoc. }
    rewrite E. cbn [mbind option_bind]. apply (turn_base 2 _ _ _ _ _ live'); try done.
    + exact (on_cmd_flags (files_env cfg) (base s) live c q b Ho Hr E).
    + pose proof (on_cmd_room (files_env cfg) (base s) live c q b Ho Hr E). lia.
  - destruct (closing_or_logging_out s) eqn:Ec.
    { destruct (fail_query_closing_calm cfg s live q Hg Ec) as (s' & live' & E & Hc). apply turn_quiet; [|done]. exists s', live'. split; [done|]. by apply (calm_more 0). }
    rewrite orb_false_r in Hw. rewrite Hw. cbn [negb]. destruct (method_is _ "getupdates").
    { eapply turn_reads; [by apply process_get_updates_reads| |done..]. by intros Hn%negb_true_iff. }
    destruct (method_is _ "setwebhook" || _).
    { by apply turn_takes; [apply process_set_webhook_takes; [| |eapply shape_ready]|..]. }
    apply turn_quiet; [|done]. eexists _, live. split; [reflexivity|]. by apply (calm_more 0); [apply answer_calm|].
Qed.

Lemma run_queries_turn l w s live : good s live -> shape w s -> space (2 * len l) s -> was_authorized s || closing_or_logging_out s = true ->
  turn (2 * len l) l w s live (run_queries inet_pton6 cfg s l).
Proof.
  unfold run_queries. revert w s live. induction l as [|q l IH]; intros w s live Hg H Hs Hw.
  { by apply turn_quiet; [exists s, live; split; [|apply calm_refl]|]. }
  rewrite len_cons in *. pose proof (len_nonneg l). change (foldl ?f (Some s) (q :: l)) with (foldl f (on_cmd inet_pton6 cfg s q) l).
  assert (turn (2 + 2 * len l) ([q] ++ l) w s live (on_cmd inet_pton6 cfg s q ≫= fun s1 => foldl (fun (r : option client) q => s ← r; on_cmd inet_pton6 cfg s q) (Some s1) l)) as Ht.
  { apply turn_bind.
    - apply on_cmd_turn; try done. eapply space_less; [exact Hs|lia].
    - intros s1 live1 w1 Hg1 H1 Hr1 Hf1 _. apply IH; [done|done|unfold space, room in *; lia|]. by destruct (core_flags _ _ Hf1) as [-> ->]. }
  replace (2 * (len l + 1)) with (2 + 2 * len l) by lia. destruct Ht as (s2 & live2 & new & E & Ht). exists s2, live2, new. split; [|exact Ht].
  destruct (on_cmd inet_pton6 cfg s q); [exact E|done].
Qed.

(** Queries only wait while the client is not authorized. *)
Lemma loop_turn w s live l : good s live -> cmd_queue s = [] -> shape w s -> space (2 * len l) s -> turn (2 * len l) l w s live (loop inet_pton6 cfg (set_cmd_queue s l)).
Proof.
  intros Hg Hq H Hs. unfold loop. pose proof (len_nonneg l).
  destruct (was_authorized (set_cmd_queue s l) || closing_or_logging_out (set_cmd_queue s l)) eqn:Hw.
  - cbn [set_cmd_queue cmd_queue]. replace (set_cmd_queue (set_cmd_queue s l) []) with s by (rewrite <-Hq; by destruct s). by apply run_queries_turn.
  - apply orb_false_iff in Hw as [Hw Hc]. exists (set_cmd_queue s l), live, []. split; [done|]. split; [done|]. split; [by rewrite app_nil_r|].
    split; [by destruct H|]. split; [|split; [cbn; lia|done]]. unfold book, settled, held_queries. cbn. rewrite Hq. cbn. solve_Permutation.
Qed.

(** *** Webhooks call back *)

Lemma turn_emit w s live e : good s live -> owing e = false -> answered [e] = [] -> shape w s -> turn 0 [] w s live (Some (emit s e)).
Proof. intros Hg He Ha H. apply turn_quiet; [|done]. exists (emit s e), live. split; [done|]. rewrite <-Ha. by apply calm_emit. Qed.

Lemma turn_weaken k k' g w s live r : turn k g w s live r -> k <= k' -> turn k' g w s live r.
Proof. intros (s' & live' & new & ? & ? & ? & ? & ? & ? & ?) Hk. exists s', live', new. split_and!; try done. lia. Qed.

Lemma webhook_verified_turn w s live token ip : good s live -> shape w s -> turn 0 [] w s live (webhook_verified s token ip).
Proof.
  intros Hg H. unfold webhook_verified. destruct (negb (token =? webhook_generation s)).
  { apply turn_quiet; [|done]. exists s, live. split; [done|]. by apply calm_refl. }
  set (s1 := with_settings s _). assert (shape w s1) as H1 by by apply (shape_core w s).
  destruct (webhook_set_query s) as [h|] eqn:Eh.
  - destruct (sh_set _ _ H h Eh) as (Hh & _ & Ha). change (webhook_set_query s1) with (webhook_set_query s). rewrite Eh, bool_decide_eq_true_2 by done.
    unfold take_held. rewrite Hh. cbn [mbind option_bind orb]. set (s0 := set_webhook_set_query s1 None).
    assert (leaves s1 None (long_poll_query s1) [h_query h]) as Hl.
    { split; [by right|]. split; [by left|]. change (webhook_set_query s1) with (webhook_set_query s). by rewrite Eh. }
    match goal with |- context [emit s0 ?e] => set (s2 := emit s0 e) end.
    assert (calm 0 [h_query h] s0 live s2 live) as H2 by by apply answer_calm.
    apply (turn_of 0 [h_query h] [] w s live s0 [] (save_webhook s2) live);
      [|exact (shape_left w s1 None _ _ H1 Hl)|by rewrite app_nil_r|done|exact (book_left s1 live None _ _ Hl)].
    apply (calm_trans 0 0 [h_query h] [] _ _ _ _ _ _ H2). by apply (calm_emit s2 live (SaveWebhook _)).
  - change (webhook_set_query s1) with (webhook_set_query s). rewrite Eh. cbn [mbind option_bind].
    assert (calm 0 [] s live s1 live) as H2 by (apply calm_same; try done; apply Hg).
    apply turn_quiet; [|done]. case_bool; [|by exists s1, live]. eexists _, live. split; [reflexivity|].
    apply (calm_trans 0 0 [] [] _ _ _ _ _ _ H2). by apply (calm_emit s1 live (SaveWebhook _)).
Qed.

Lemma webhook_success_turn w s live : good s live -> shape w s -> space 1 s -> turn 1 [] w s live (webhook_success cfg s).
Proof.
  intros Hg H Hs. apply turn_quiet; [|done]. unfold webhook_success. destruct (now cfg s) as [t s1] eqn:E. pose proof (now_calm _ _ _ _ _ Hg E) as H1.
  set (s2 := set_next_bot_updates_warning_time _ _).
  assert (calm 0 [] s1 live s2 live) as H2 by (apply calm_same; try done; apply (cm_good _ _ _ _ _ _ H1)).
  pose proof (calm_trans 0 0 [] [] _ _ _ _ _ _ H1 H2) as H3. clearbody s2. case_bool; [|by apply (quietly_some 0 1 [] _ _ _ live)].
  apply (quietly_after 0 1 [] [] _ _ _ _ _ H3). apply (space_calm 0 1 _ _ _ _ _ Hs) in H3 as Hs3.
  destruct (send_request_calm cfg s2 live (Files.SetBotUpdatesStatus 0 []) (cm_good _ _ _ _ _ _ H3) Hs3 ltac:(done)) as (s4 & live4 & -> & H4).
  cbn [mbind option_bind]. eexists _, live4. split; [reflexivity|]. apply (calm_trans 1 0 [] [] _ _ _ _ _ _ H4).
  apply calm_same; try done; apply (cm_good _ _ _ _ _ _ H4).
Qed.

Lemma webhook_error_turn w s live m : good s live -> shape w s -> space 1 s -> was_authorized s = true -> turn 1 [] w s live (webhook_error cfg s m).
Proof.
  intros Hg H Hs Hw. apply turn_quiet; [|done]. unfold webhook_error. destruct (get_unix_time_calm cfg s live Hg Hw) as (date & s1 & -> & H1).
  cbn [mbind option_bind]. set (s2 := set_last_webhook_error _ _).
  assert (calm 0 [] s1 live s2 live) as H2 by (apply calm_same; try done; apply (cm_good _ _ _ _ _ _ H1)).
  pose proof (calm_trans 0 0 [] [] _ _ _ _ _ _ H1 H2) as H3. apply (quietly_after 0 1 [] [] _ _ _ _ _ H3).
  apply warn_pending_calm; [apply (cm_good _ _ _ _ _ _ H3)|exact (space_calm 0 1 _ _ _ _ _ Hs H3)].
Qed.

Lemma turn_from k g gain w s live s0 r : turn k g w s0 live r -> deeds s0 = deeds s -> base s0 = base s -> g ++ book s0 live ≡ₚ gain ++ book s live ->
  turn k gain w s live r.
Proof.
  intros (s' & live' & new & E & Hg & Hd & Hs & Hb & Hr & Hf) Ed Eb Hp. exists s', live', new. rewrite <-Eb, <-Ed. split_and!; try done. by rewrite Hb.
Qed.

Definition closed_webhook (s : client) : client :=
  with_settings (set_webhook_id s false) (fun x => Webhook.mk_webhook false 0 [] false [] (Webhook.allowed_update_types x) []).

Lemma shape_closed w w' s : shape w s -> w_copying w' = w_copying w -> w_removing w' = w_removing w -> (w_webhook w' = true -> w_webhook w = true) ->
  shape w' (set_webhook_set_query (closed_webhook s) None).
Proof.
  intros [H1 H2 H3 H4 H5 H6 H7 H8 H9 H10 H11 H12] Hc Hr Hw. split; cbn; rewrite ?Hc, ?Hr; try done.
  - intros (? & ? & ? & ?)%H2. split_and!; try done. destruct (w_webhook w') eqn:E; [|done]. by rewrite Hw in *.
  - intros (? & ? & ? & ?)%H3. done.
  - intros h Hh. by destruct (H6 h Hh) as (? & ? & ? & ?).
  - intros (? & ? & Ha)%H7%inactive. by rewrite Ha.
Qed.

Lemma poll_none w s h : shape w s -> webhook_set_query s = Some h -> long_poll_query s = None /\ was_authorized s = true.
Proof.
  intros H Hh. split.
  - destruct (long_poll_query s) eqn:E; [|done]. pose proof (sh_poll _ _ H) as Hp. rewrite E in Hp.
    destruct (proj1 (inactive s) (Hp ltac:(done))) as (_ & ? & _). congruence.
  - destruct (was_authorized s) eqn:E; [done|]. destruct (sh_authorized _ _ H E) as (_ & ? & _). congruence.
Qed.

Lemma on_webhook_closed_turn w w' s live m : good s live -> shape w s -> space 1 s -> w_copying w' = w_copying w -> w_removing w' = w_removing w ->
  (w_webhook w' = true -> w_webhook w = true) -> turn 1 [] w' s live (on_webhook_closed inet_pton6 cfg s m).
Proof.
  intros Hg H Hs Hc Hre Hw. unfold on_webhook_closed. change (with_settings (set_webhook_id s false) _) with (closed_webhook s).
  destruct (now cfg (closed_webhook s)) as [t s1] eqn:E. set (s2 := emit _ EraseWebhook).
  assert (calm 0 [] (closed_webhook s) live s2 live) as H2.
  { pose proof (now_calm cfg (closed_webhook s) live t s1 Hg E) as H1. apply (calm_trans 0 0 [] [] _ _ _ _ _ _ H1).
    apply (calm_trans 0 0 [] [] _ _ (set_last_webhook_error (set_last_webhook_error_date (set_webhook_set_time s1 t) 0) None) live).
    - apply calm_same; try done; apply (cm_good _ _ _ _ _ _ H1).
    - by apply (calm_emit _ live EraseWebhook); [apply (cm_good _ _ _ _ _ _ H1)|]. }
  clearbody s2. destruct (core_same _ _ (cm_core _ _ _ _ _ _ H2)) as (Ety & El & Es & Ea & Ei & Eu & Et & _).
  set (s0 := set_webhook_set_query (closed_webhook s) None). pose proof (shape_closed w w' s H Hc Hre Hw) as H0. fold s0 in H0.
  pose proof (calm_set_query _ _ _ _ _ _ None H2) as H3. fold s0 in H3.
  rewrite Es. change (webhook_set_query (closed_webhook s)) with (webhook_set_query s). destruct (webhook_set_query s) as [h|] eqn:Eh.
  - destruct (sh_set _ _ H h Eh) as (Hh & Hu & Ha). unfold take_held. rewrite Hh. cbn [mbind option_bind].
    destruct (poll_none w s h H Eh) as [Hl Hau]. set (s3 := set_webhook_set_query s2 None) in *.
    assert (turn 1 [h_query h] w' s0 live (match webhook_query_type s3 with
      | Cancel => do_set_webhook inet_pton6 cfg s3 (h_query h) true
      | Verify => Some (fail_query s3 400 (lit "Bad Request: bad webhook: " ++ m) (h_query h)) end)) as Ht.
    { destruct (webhook_query_type s3).
      - apply turn_weaken with (0 + 1); [|done]. destruct (do_set_webhook_changes inet_pton6 cfg s3 live (h_query h) true) as (s' & live' & Eq & Hb).
        + apply (cm_good _ _ _ _ _ _ H3).
        + apply (space_calm 0 1) in H3; [done|exact Hs].
        + exact Eu.
        + done.
        + exact Ei.
        + intros _. change (long_poll_query s2 = None). by rewrite El.
        + change (Webhook.has_webhook_certificate (settings s3)) with (Webhook.has_webhook_certificate (settings s2)). by rewrite Et.
        + rewrite Eq. pose proof (changes_after inet_pton6 0 1 [] [] _ _ _ _ _ _ _ H3 Hb) as Hb'. by apply (turn_changes _ _ _ _ _ _ _ _ Hb').
      - apply turn_quiet; [|done]. eexists _, live. split; [reflexivity|]. apply (calm_more 0); [|done].
        apply (calm_trans 0 0 [] [h_query h] _ _ _ _ _ _ H3). by apply answer_calm, (cm_good _ _ _ _ _ _ H3). }
    apply (turn_from _ _ _ _ _ _ _ _ Ht); try done. unfold book, held_queries, settled, s0. cbn. rewrite Eh. cbn. solve_Permutation.
  - apply (turn_of 1 [] [] w' s live (closed_webhook s) [] s2 live); [by apply (calm_more 0)| |by rewrite app_nil_r|done|done].
    replace (closed_webhook s) with s0; [done|]. unfold s0, closed_webhook. rewrite <-Eh. by destruct s.
Qed.

Lemma webhook_closed_turn w s live m : good s live -> shape w s -> space 1 s ->
  turn 1 [] (hear w (WebhookClosed m)) s live (webhook_closed inet_pton6 cfg s m).
Proof.
  intros Hg H Hs. unfold webhook_closed. case_bool; [|by apply (on_webhook_closed_turn w)].
  apply (turn_of 1 [] [] _ s live (emit s (UnlinkCertificate m)) [UnlinkCertificate m] _ live); [|by destruct H; split; try done; naive_solver|apply deeds_emit|done|].
  - apply (calm_more 0); [|done]. apply calm_refl. done.
  - unfold book, held_queries, settled. cbn. by rewrite answered_app, app_nil_r.
Qed.

Lemma certificate_copied_turn w s live ok : good s live -> shape w s -> space 1 s -> Files.td_client (base s) = true -> w_copying w = true ->
  turn 1 [] (hear w (CertificateCopied ok)) s live (on_webhook_certificate_copied inet_pton6 cfg s ok).
Proof.
  intros Hg H Hs Htd Hw. unfold on_webhook_certificate_copied. destruct (active_webhook_set_query s) as [h|] eqn:Eh; [|by destruct (sh_copying _ _ H Hw Htd)].
  destruct (sh_active _ _ H h Eh) as (Hh & Hu & _ & Hq). cbn [mbind option_bind]. unfold take_held. rewrite Hh. cbn [mbind option_bind].
  assert (webhook_set_query s = None) as Es.
  { destruct (webhook_set_query s) as [h'|] eqn:E; [|done]. destruct (sh_set _ _ H h' E) as (_ & ? & _). done. }
  assert (long_poll_query s = None) as El.
  { destruct (long_poll_query s) eqn:E; [|done]. pose proof (sh_poll _ _ H) as Hp. rewrite E in Hp. destruct (proj1 (inactive s) (Hp ltac:(done))) as (_ & _ & ?). congruence. }
  assert (was_authorized s = true) as Hau.
  { destruct (was_authorized s) eqn:E; [done|]. destruct (sh_authorized _ _ H E) as (_ & _ & ? & _). congruence. }
  set (s0 := set_active_webhook_set_query s None). set (w' := hear w (CertificateCopied ok)).
  assert (shape w' s0) as H0.
  { destruct H as [H1 H2 H3 H4 H5 H6 H7 H8 H9 H10 H11 H12]. split; try done; cbn. - by intros (? & ? & ? & ?)%H2.
    - by intros (? & ? & ? & ?)%H3.
    - intros h' ?. congruence. }
  assert (h_query h :: book s0 live ≡ₚ book s live) as Hb.
  { unfold book, held_queries, settled, s0. cbn. rewrite Eh. cbn. solve_Permutation. }
  destruct ok; [|apply (turn_from 1 [h_query h] _ _ _ _ s0); [|done..]; apply turn_weaken with 0; [|done]; apply turn_quiet; [|done]; eexists _, live;
    split; [reflexivity|]; by apply answer_calm].
  apply (turn_from 1 [h_query h] _ _ _ _ s0); [|done..]. set (s1 := with_settings s0 _).
  destruct (finish_set_webhook_opens inet_pton6 cfg s1 live (h_query h) Hg Hs (conj Es eq_refl) Hu Hq) as (s' & live' & -> & Hc).
  destruct (closing_or_logging_out s1) eqn:Ec.
  - apply turn_weaken with 0; [|done]. apply (turn_of 0 [h_query h] _ _ s0 live s1 [] s' live' Hc); [|by rewrite app_nil_r|done|done].
    destruct H0. split; try done. intros _. by right.
  - destruct Hc as (e & He & Hc).
    by apply (turn_changes 1 [] w' s0 live (h_query h) s' live'); [eapply Opens|..].
Qed.

Lemma add_update_turn w s live ty u timeout wq : good s live -> shape w s -> space 1 s -> was_authorized s = true ->
  (forall n, TQueue.good_hint 0 (random_fast cfg n)) -> TQueue.roomy (Queues.callback (tqueue s)) ->
  turn 1 [] w s live (add_update cfg s ty u timeout wq).
Proof.
  intros Hg H Hs Hw Hf Hr. apply turn_quiet; [|done]. unfold add_update. case_bool; [by apply (quietly_some 0 1 [] _ _ _ live); [apply calm_refl|]|].
  set (s0 := emit s StatUpdate). assert (calm 0 [] s live s0 live) as H0 by by apply (calm_emit s live StatUpdate).
  destruct (get_unix_time_calm cfg s0 live (cm_good _ _ _ _ _ _ H0) Hw) as (date & s1 & E1 & H1). rewrite E1. cbn [mbind option_bind].
  assert (tqueue s1 = tqueue s) as Eq.
  { unfold get_unix_time in E1. destruct (was_authorized s0); [|done]. by injection E1 as _ <-. }
  destruct (ask s1) as [n s2] eqn:E2. pose proof (ask_calm s1 live n s2 (cm_good _ _ _ _ _ _ H1) E2) as H2.
  assert (tqueue s2 = tqueue s1) as Eq2 by by injection E2 as _ <-.
  pose proof (calm_trans 0 0 [] [] _ _ _ _ _ _ H0 (calm_trans 0 0 [] [] _ _ _ _ _ _ H1 H2)) as H3. pose proof (cm_good _ _ _ _ _ _ H3) as Hg3.
  destruct (TQueue.op_step (tqueue s2) (TQueue.Push (tqueue_id cfg) (update_text ty u) (date + timeout) wq 0 (random_fast cfg n))) as (o & t & E & Hwf & _).
  { apply Hg3. } { split; [apply Hf|]. by rewrite Eq2, Eq. }
  cbn [TQueue.apply_op] in E. destruct (Queues.push _ _ _ _ _ _ _) as [[r t1]|]; [|done]. cbn [mbind option_bind] in E |- *. injection E as _ <-.
  set (s4 := set_tqueue s2 t1). pose proof (calm_trans 0 0 [] [] _ _ _ _ _ _ H3 (calm_tqueue s2 live t1 Hg3 Hwf)) as H4. fold s4 in H4. clearbody s4.
  destruct r; [|by apply (quietly_some 0 1 [] _ _ _ live)]. apply (quietly_after 0 1 [] [] _ _ _ _ _ H4). case_bool.
  - apply (long_poll_wakeup_calm cfg s4 live false); [apply (cm_good _ _ _ _ _ _ H4)|exact (space_calm 0 1 _ _ _ _ _ Hs H4)|].
    intros _. by rewrite (core_authorized _ _ (cm_core _ _ _ _ _ _ H4)).
  - pose proof (cm_good _ _ _ _ _ _ H4). case_bool; apply (quietly_some 0 1 [] _ _ _ live); try done; [by apply (calm_emit s4 live NotifyWebhook)|by apply calm_refl].
Qed.

(** *** Closing *)

Lemma closing_error_plain b : Files.closing b || Files.logging_out b = true -> qltb 0 (Files.next_authorization_time b) = false ->
  exists code m, Files.get_closing_error (files_env cfg) b = Some (code, m, 0, b).
Proof.
  intros Hc Ht. unfold Files.get_closing_error. rewrite Ht. destruct (Files.logging_out b); [repeat case_match; eauto|]. rewrite orb_false_r in Hc. rewrite Hc. eauto.
Qed.

Lemma fail_member_calm s live h : good s live -> closing_or_logging_out s = true -> qltb 0 (Files.next_authorization_time (base s)) = false -> h_answered h = false ->
  exists s', fail_member_closing cfg s h = Some (None, s') /\ calm 0 [h_query h] s live s' live.
Proof.
  intros H Hc Ht Hh. unfold fail_member_closing, take_held. rewrite Hh. cbn [mbind option_bind].
  unfold closing_or_logging_out in Hc. rewrite orb_comm in Hc. destruct (closing_error_plain (base s) Hc Ht) as (code & m & ->). cbn [mbind option_bind].
  eexists. split; [reflexivity|]. replace (set_base s (base s)) with s by by destruct s. by apply answer_calm.
Qed.

Lemma fail_webhook_queries_calm s live : good s live -> closing_or_logging_out s = true ->
  (webhook_set_query s <> None \/ active_webhook_set_query s <> None -> qltb 0 (Files.next_authorization_time (base s)) = false) ->
  (forall h, webhook_set_query s = Some h \/ active_webhook_set_query s = Some h -> h_answered h = false) ->
  exists s', fail_webhook_queries cfg s = Some s'
    /\ calm 0 (option_list (h_query <$> webhook_set_query s) ++ option_list (h_query <$> active_webhook_set_query s))
         (set_active_webhook_set_query (set_webhook_set_query s None) None) live s' live.
Proof.
  intros H Hc Ht Hh. unfold fail_webhook_queries.
  assert (exists s1, (match webhook_set_query s with
      | Some h => '(h, s) ← fail_member_closing cfg s h; Some (set_webhook_set_query s h)
      | None => Some s
      end) = Some s1 /\ calm 0 (option_list (h_query <$> webhook_set_query s)) (set_webhook_set_query s None) live s1 live) as (s1 & -> & H1).
  { destruct (webhook_set_query s) as [h|] eqn:E.
    - destruct (fail_member_calm s live h H Hc) as (s1 & -> & H1); [apply Ht; by left|apply Hh; by left|]. cbn [mbind option_bind].
      eexists. split; [reflexivity|]. by apply calm_set_query.
    - exists s. split; [done|]. replace (set_webhook_set_query s None) with s by (rewrite <-E; by destruct s). by apply calm_refl. }
  cbn [mbind option_bind]. destruct (core_same _ _ (cm_core _ _ _ _ _ _ H1)) as (_ & _ & _ & Ea & _). cbn in Ea.
  pose proof (core_closing _ _ (cm_core _ _ _ _ _ _ H1)) as Ec. pose proof (cm_core _ _ _ _ _ _ H1) as Hcore.
  assert (Files.next_authorization_time (base s1) = Files.next_authorization_time (base s)) as Et by (unfold core, flags in Hcore; cbn in Hcore; congruence).
  pose proof (calm_active_query _ _ _ _ _ _ None H1) as H2. rewrite Ea. destruct (active_webhook_set_query s) as [h|] eqn:E.
  - destruct (fail_member_calm s1 live h (cm_good _ _ _ _ _ _ H1)) as (s2 & -> & H3); [by rewrite Ec|rewrite Et; apply Ht; by right|apply Hh; by right|].
    cbn [mbind option_bind]. eexists. split; [reflexivity|]. apply (calm_trans 0 0 _ [h_query h] _ _ _ _ _ _ H2). by apply calm_active_query.
  - exists s1. split; [done|]. rewrite app_nil_r. replace (set_active_webhook_set_query s1 None) with s1 in H2 by (rewrite <-Ea; by destruct s1). done.
Qed.

Lemma fail_queries_calm l s live : good s live -> closing_or_logging_out s = true -> quietly 0 l s live (fail_queries_closing cfg s l).
Proof.
  unfold fail_queries_closing. revert s live. induction l as [|q l IH]; intros s live H Hc.
  { exists s, live. split; [done|]. by apply calm_refl. }
  change (foldl ?f (Some s) (q :: l)) with (foldl f (fail_query_closing cfg s q) l).
  destruct (fail_query_closing_calm cfg s live q H Hc) as (s1 & live1 & -> & H1). apply (quietly_after 0 0 [q] l _ _ _ _ _ H1).
  apply IH; [apply (cm_good _ _ _ _ _ _ H1)|]. by rewrite (core_closing _ _ (cm_core _ _ _ _ _ _ H1)).
Qed.

Lemma finish_closing_calm s live : good s live -> webhook_id s = false -> quietly 0 [] s live (finish_closing cfg s).
Proof.
  intros H Hid. unfold finish_closing.
  assert (exists s1, (if Files.clear_tqueue (base s) && Files.logging_out (base s) then clear_tqueue cfg s else Some s) = Some s1 /\ calm 0 [] s live s1 live)
    as (s1 & -> & H1).
  { case_bool; [|by exists s; split; [|apply calm_refl]]. unfold clear_tqueue. rewrite Hid. eexists. split; [reflexivity|]. by apply calm_clear. }
  cbn [mbind option_bind]. apply (quietly_after 0 0 [] [] _ _ _ _ _ H1). apply cm_good in H1 as Hg.
  assert (forall e, owing e = false -> answered [e] = [] -> quietly 0 [] s1 live (Some (emit s1 e))) as He.
  { intros e He Ha. exists (emit s1 e), live. split; [done|]. rewrite <-Ha. by apply calm_emit. }
  case_bool; [by apply He|]. case_bool.
  - destruct (was_authorized s1) eqn:Ew; [|by apply He]. destruct (get_unix_time_calm cfg s1 live Hg Ew) as (date & s2 & -> & H2). cbn [mbind option_bind].
    eexists _, live. split; [reflexivity|]. apply (calm_trans 0 0 [] [] _ _ _ _ _ _ H2). by apply (calm_emit s2 live (SetTimeoutIn _)); [apply (cm_good _ _ _ _ _ _ H2)|].
  - destruct (now cfg s1) as [t s2] eqn:E2. pose proof (now_calm cfg s1 live t s2 Hg E2) as H2.
    eexists _, live. split; [reflexivity|]. apply (calm_trans 0 0 [] [] _ _ _ _ _ _ H2). by apply (calm_emit s2 live (SetTimeoutIn _)); [apply (cm_good _ _ _ _ _ _ H2)|].
Qed.

Lemma calm_cmd_queue k g s live s1 live1 v : calm k g s live s1 live1 -> calm k g (set_cmd_queue s v) live (set_cmd_queue s1 v) live1.
Proof. intros [(? & ? & ?) Hc ? ? ?]. split; try done. unfold core, webhook_url in *. cbn in *. congruence. Qed.

(** Nobody waits any more. *)
Definition shut (s : client) : client :=
  set_cmd_queue (set_long_poll_query (set_webhook_id (set_active_webhook_set_query (set_webhook_set_query s None) None) false) None) [].

Definition without_td (s : client) : client := set_base s (Files.set_td_client (base s) false).

Lemma shape_shut w s : shape w s -> closing_or_logging_out s = true -> shape w (shut (without_td s)).
Proof.
  intros [H1 H2 H3 H4 H5 H6 H7 H8 H9 H10 H11 H12] Hc. split; try done; cbn.
  - by intros (? & ? & ? & ?)%H2.
Qed.

Lemma book_shut s live : (option_list (h_query <$> webhook_set_query s) ++ option_list (h_query <$> active_webhook_set_query s)) ++ option_list (long_poll_query s)
  ++ cmd_queue s ++ book (shut (without_td s)) live ≡ₚ book s live.
Proof. unfold book, held_queries. change (settled (shut (without_td s)) live) with (settled s live). cbn. solve_Permutation. Qed.

Lemma quietly_bind k k' g g' s live r (f : client -> option client) : quietly k g s live r ->
  (forall s1 live1, calm k g s live s1 live1 -> quietly k' g' s1 live1 (f s1)) -> quietly (k + k') (g ++ g') s live (r ≫= f).
Proof. intros (s1 & live1 & -> & H1) H. by apply (quietly_after _ _ _ _ _ _ _ _ _ H1), H. Qed.

Lemma reset_webhook_calm s live : good s live -> (webhook_id s = true -> webhook_url s <> []) -> calm 0 [] (set_webhook_id s false) live (reset_webhook s) live.
Proof.
  intros H Hu. unfold reset_webhook. destruct (webhook_id s) eqn:E.
  - rewrite (proj2 (no_url_false _)) by by apply Hu. apply calm_webhook_id. by apply (calm_emit s live DropWebhook).
  - rewrite andb_false_r. replace (set_webhook_id s false) with s by (rewrite <-E; by destruct s). by apply calm_refl.
Qed.

Lemma close_long_poll_calm s live : good s live -> space 1 s -> (long_poll_query s <> None -> was_authorized s = true) ->
  quietly 1 (option_list (long_poll_query s)) (set_long_poll_query s None) live (close_long_poll cfg s).
Proof.
  intros H Hs Ha. unfold close_long_poll. destruct (long_poll_query s) as [q|] eqn:E.
  - destruct (long_poll_wakeup_calm cfg s live true H Hs) as (s1 & live1 & -> & H1); [by rewrite E|]. rewrite E in H1. cbn [mbind option_bind].
    destruct (core_same _ _ (cm_core _ _ _ _ _ _ H1)) as (_ & El & _). rewrite El, bool_decide_eq_false_2 by by intros []. by exists s1, live1.
  - replace (set_long_poll_query s None) with s by (rewrite <-E; by destruct s). apply (quietly_some 0 1 [] _ _ _ live); [by apply calm_refl|done].
Qed.

(** The queries of the members. *)
Lemma close_members_calm w s live : good (without_td s) live -> shape w s -> space 1 s -> closing_or_logging_out s = true ->
  quietly 1 (((option_list (h_query <$> webhook_set_query s) ++ option_list (h_query <$> active_webhook_set_query s)) ++ []) ++ option_list (long_poll_query s))
    (set_long_poll_query (set_webhook_id (set_active_webhook_set_query (set_webhook_set_query (without_td s) None) None) false) None) live
    (s ← fail_webhook_queries cfg (without_td s); close_long_poll cfg (reset_webhook s)).
Proof.
  intros Hg H Hs Hc. destruct (fail_webhook_queries_calm (without_td s) live Hg Hc) as (s1 & -> & H1).
  { intros Hw. apply (sh_time _ _ H). destruct (was_authorized s) eqn:E; [done|]. destruct (sh_authorized _ _ H E) as (_ & ? & ? & _). by destruct Hw as [[]|[]]. }
  { intros h [Hh|Hh]; [by apply (sh_set _ _ H)|by apply (sh_active _ _ H)]. }
  cbn [mbind option_bind]. destruct (core_same _ _ (cm_core _ _ _ _ _ _ H1)) as (_ & El & _ & _ & Ei & Eu & _).
  pose proof (reset_webhook_calm s1 live (cm_good _ _ _ _ _ _ H1)) as H2. rewrite Ei, Eu in H2. specialize (H2 (sh_id _ _ H)).
  pose proof (calm_trans 0 0 _ [] _ _ _ _ _ _ (calm_webhook_id _ _ _ _ _ _ false H1) H2) as H3. clear H1 H2 Ei Eu.
  destruct (core_same _ _ (cm_core _ _ _ _ _ _ H3)) as (_ & El3 & _).
  assert (long_poll_query (reset_webhook s1) = long_poll_query s) as El4 by exact El3.
  rewrite <-El4. apply (quietly_after 0 1 _ _ _ _ _ _ _ (calm_long_poll _ _ _ _ _ _ None H3)). apply close_long_poll_calm.
  - apply (cm_good _ _ _ _ _ _ H3).
  - apply (space_calm 0 1) in H3; [done|exact Hs].
  - rewrite El4, (core_authorized _ _ (cm_core _ _ _ _ _ _ H3)). intros Hl. destruct (was_authorized s) eqn:E; [exact E|]. by destruct (sh_authorized _ _ H E).
Qed.

Lemma close_files_calm s live : good s live -> closing_or_logging_out s = true ->
  exists b live', Files.close_files (files_env cfg) (base s) = Some b /\ calm 0 [] s live (set_base s b) live'.
Proof.
  intros (Ho & ? & ?) Hc. destruct (close_files_yields (files_env cfg) (base s) live Ho Hc) as (b & live' & -> & [Ho' Hb Hr Hf _ _]).
  exists b, live'. split; [done|]. split; try done.
  - unfold core. cbn. by rewrite Hf.
  - unfold settled. cbn. rewrite app_nil_r in Hb. by rewrite Hb.
Qed.

Lemma held_order s : ((option_list (h_query <$> webhook_set_query s) ++ option_list (h_query <$> active_webhook_set_query s)) ++ option_list (long_poll_query s))
  ++ cmd_queue s ≡ₚ held_queries s.
Proof. unfold held_queries. solve_Permutation. Qed.

(** All queries, before [on_closed] finishes. *)
Lemma close_all_calm w s live : good (without_td s) live -> shape w s -> space 1 s -> closing_or_logging_out s = true ->
  exists s1 live1 b, (s ← fail_webhook_queries cfg (without_td s); s ← close_long_poll cfg (reset_webhook s); fail_queries_closing cfg (set_cmd_queue s []) (cmd_queue s))
      = Some s1 /\ Files.close_files (files_env cfg) (base s1) = Some b /\ calm 1 (held_queries s) (shut (without_td s)) live (set_base s1 b) live1.
Proof.
  intros Hg H Hs Hc. destruct (close_members_calm w s live Hg H Hs Hc) as (s1 & live1 & E1 & H1).
  destruct (fail_webhook_queries cfg (without_td s)) as [s0|]; [|done]. cbn [mbind option_bind] in E1 |- *. rewrite E1. cbn [mbind option_bind].
  destruct (core_same _ _ (cm_core _ _ _ _ _ _ H1)) as (_ & _ & _ & _ & _ & _ & _ & Eq).
  apply (calm_cmd_queue _ _ _ _ _ _ []) in H1. fold (shut (without_td s)) in H1.
  assert (closing_or_logging_out (set_cmd_queue s1 []) = true) as Hc1 by by rewrite (core_closing _ _ (cm_core _ _ _ _ _ _ H1)).
  destruct (fail_queries_calm (cmd_queue s1) (set_cmd_queue s1 []) live1 (cm_good _ _ _ _ _ _ H1) Hc1) as (s2 & live2 & -> & H2).
  pose proof (core_closing _ _ (cm_core _ _ _ _ _ _ H2)) as Hc2. rewrite Hc1 in Hc2.
  destruct (close_files_calm s2 live2 (cm_good _ _ _ _ _ _ H2) Hc2) as (b & live3 & Eb & H3). exists s2, live3, b. split; [done|]. split; [done|].
  pose proof (calm_trans 1 0 _ _ _ _ _ _ _ _ H1 (calm_trans 0 0 _ _ _ _ _ _ _ _ H2 H3)) as [Ha Hb Hd He Hf]. split; try done.
  rewrite Hd, Eq. change (cmd_queue (set_long_poll_query _ None)) with (cmd_queue s). rewrite !app_nil_r. apply Permutation_app_tail, held_order.
Qed.

Lemma base_emit s e : base (emit s e) = base s.
Proof. done. Qed.

Lemma book_removing s live : book (emit s RemoveDirectory) live = book s live.
Proof. unfold book, settled, held_queries. cbn [emit set_sent sent base cmd_queue webhook_set_query long_poll_query active_webhook_set_query]. by rewrite answered_app, app_nil_r. Qed.

Lemma shape_removing w s : shape w s -> Files.td_client (base s) = false -> shape (tell w RemoveDirectory) (emit s RemoveDirectory).
Proof. intros H Ht. by destruct H. Qed.

Lemma on_closed_turn w s live : good s live -> shape w s -> space 1 s -> closing_or_logging_out s = true -> Files.td_client (base s) = true ->
  turn 1 (held_queries s) w (shut (without_td s)) live (on_closed cfg s).
Proof.
  intros Hg H Hs Hc Htd. unfold on_closed, Files.reset_td_client. pose proof Hc as Hc0. unfold closing_or_logging_out in Hc0. rewrite Hc0, Htd.
  cbn [negb orb mbind option_bind]. fold (without_td s).
  assert (good (without_td s) live) as Hg0 by (destruct Hg as ([? ? ?] & ? & ?); split; [split; [done|done|right; cbn; by rewrite orb_comm]|done]).
  destruct (close_all_calm w s live Hg0 H Hs Hc) as (s1 & live1 & b & E1 & Eb & H1). pose proof (shape_shut w s H Hc) as Hsh.
  destruct (fail_webhook_queries cfg (without_td s)) as [s2|]; [|done]. cbn [mbind option_bind] in E1 |- *.
  destruct (close_long_poll cfg (reset_webhook s2)) as [s3|]; [|done]. cbn [mbind option_bind] in E1 |- *. rewrite E1. cbn [mbind option_bind].
  rewrite Eb. cbn [mbind option_bind]. set (s4 := set_base s1 b) in *. clearbody s4. pose proof (cm_good _ _ _ _ _ _ H1) as Hg1. destruct (Files.logging_out b).
  - pose proof (calm_trans 1 0 _ [] _ _ _ _ _ _ H1 (calm_emit s4 live1 EraseWebhook Hg1 eq_refl)) as H2. rewrite app_nil_r in H2.
    apply (turn_of 1 (held_queries s) _ w (shut (without_td s)) live (emit (shut (without_td s)) RemoveDirectory) [RemoveDirectory] _ live1);
      [exact (calm_emits _ _ _ _ _ _ RemoveDirectory H2)|exact (shape_removing w _ Hsh eq_refl)|apply deeds_emit|apply base_emit|].
    by rewrite book_removing.
  - destruct (finish_closing_calm s4 live1 Hg1) as (s5 & live5 & -> & H2).
    { destruct (core_same _ _ (cm_core _ _ _ _ _ _ H1)) as (_ & _ & _ & _ & -> & _). done. }
    pose proof (calm_trans 1 0 _ [] _ _ _ _ _ _ H1 H2) as H3. rewrite app_nil_r in H3.
    by apply (turn_of 1 (held_queries s) _ w (shut (without_td s)) live (shut (without_td s)) [] s5 live5 H3 Hsh); [rewrite app_nil_r|..].
Qed.

(** *** Events *)

(** A number of requests that one event makes at most. *)
Definition requests (s : client) : Z := len (Files.pending_file_streams (base s)) + 2 * (len (cmd_queue s) + 1).

(** The methods of this model. *)
Definition is_modelled (q : Query.query) : bool :=
  match file_command q with Some _ => true | None => method_is q "getupdates" || method_is q "setwebhook" || method_is q "deletewebhook" end.

(** What may happen: queries are of these methods; the files are as in
    [FilesProperties.v] (queries come as [Send]); a client is authorized when it has not been told to wait, and TDLib
    refuses it only before; who owes an event sends it. *)
Definition allowed (w : world) (s : client) (e : event) : Prop :=
  Container.size (Files.handlers (base s)) + requests s <= int32_max
  /\ match e with
     | FileEvent (Files.Command _ _) => False
     | FileEvent Files.Authorized => qltb 0 (Files.next_authorization_time (base s)) = false
     | FileEvent (Files.LogOut code m) => was_authorized s = false
     | FileEvent e => Ledger.allowed (base s) e = true
     | AddUpdate _ _ _ _ => was_authorized s = true /\ TQueue.roomy (Queues.callback (tqueue s))
     | WebhookVerified _ _ | WebhookSuccess | WebhookError _ | WebhookClosed _ => w_webhook w = true
     | CertificateUnlinked _ => w_unlinking w = true
     | CertificateCopied _ => w_copying w = true
     | DirectoryRemoved => w_removing w = true
     | QueueChanged o => TQueue.allowed (tqueue s) o
     | Send q => is_modelled (Query.the_query q) = true
     | SlotEvent | TimeoutExpired => True
     end.

(** A certificate is copied before TDLib is gone. *)
Definition in_time (s : client) (e : event) : Prop :=
  match e with CertificateCopied _ => Files.td_client (base s) = true | _ => True end.

Definition query_received (e : event) : list Query.promised := match e with Send q => [q] | _ => [] end.

Definition handled (gain : list Query.promised) (w : world) s live (r : option client) : Prop :=
  exists s' live' new, r = Some s' /\ good s' live' /\ deeds s' = deeds s ++ new /\ shape (foldl tell w new) s'
    /\ book s' live' ≡ₚ gain ++ book s live.

Lemma handled_turn k g w s live r : turn k g w s live r -> handled g w s live r.
Proof. intros (s' & live' & new & ? & ? & ? & ? & ? & _). by exists s', live', new. Qed.

(** The client with other flags, and a queue. *)
Lemma shape_base w s b v : shape w s -> Files.td_client b = Files.td_client (base s) ->
  (was_authorized s = true -> Files.was_authorized b = true) ->
  (closing_or_logging_out s = true -> Files.logging_out b || Files.closing b = true) ->
  (Files.was_authorized b = true -> qltb 0 (Files.next_authorization_time b) = false) ->
  (v <> [] -> Files.was_authorized b = false /\ Files.logging_out b || Files.closing b = false) ->
  shape w (set_cmd_queue (set_base s b) v).
Proof.
  intros [H1 H2 H3 H4 H5 H6 H7 H8 H9 H10 H11 H12] Et Ha Hc Hn Hv.
  split; unfold was_authorized, closing_or_logging_out in *; cbn; rewrite ?Et; try done.
  - intros Hw. apply H2. destruct (Files.was_authorized (base s)); [|done]. by rewrite Ha in Hw.
  - intros Hce. destruct (H9 Hce); [by left|right; by apply Hc].
Qed.

Lemma same_queue s b : set_cmd_queue (set_base s b) (cmd_queue s) = set_base s b.
Proof. by destruct s. Qed.

Lemma handled_base g w s live b live' : ledger_ok b live' -> balance b live' ≡ₚ g ++ balance (base s) live -> good s live -> shape w (set_base s b) ->
  handled g w s live (Some (set_base s b)).
Proof.
  intros Ho Hb (_ & Hq1 & Hq2) H. exists (set_base s b), live', []. split; [done|]. split; [done|]. split; [by rewrite app_nil_r|]. split; [done|].
  unfold book, settled, held_queries. cbn. rewrite Hb. solve_Permutation.
Qed.

(** The flags change, and then the queries are taken. *)
Lemma handled_loop w s live b live' : ledger_ok b live' -> balance b live' ≡ₚ balance (base s) live -> good s live ->
  shape w (set_cmd_queue (set_base s b) []) -> room (2 * len (cmd_queue s)) b -> handled [] w s live (loop inet_pton6 cfg (set_base s b)).
Proof.
  intros Ho Hb (Hq0 & Hq1 & Hq2) H Hr. rewrite <-same_queue.
  destruct (loop_turn w (set_cmd_queue (set_base s b) []) live' (cmd_queue s)) as (s' & live2 & new & E & ? & Hd & ? & Hb' & _); try done.
  exists s', live2, new. split; [exact E|]. split; [done|]. split; [exact Hd|]. split; [done|]. rewrite Hb'.
  unfold book, settled, held_queries. cbn. rewrite Hb. solve_Permutation.
Qed.

Lemma send_handled w s live q : good s live -> shape w s -> space (2 * (len (cmd_queue s) + 1)) s -> handled [q] w s live (send inet_pton6 cfg s q).
Proof.
  intros Hg H Hs. unfold send.
  assert (shape w (set_cmd_queue s [])) as H0 by (destruct H; by split).
  destruct (loop_turn w (set_cmd_queue s []) live (cmd_queue s ++ [q])) as (s' & live' & new & E & Hg' & Hd & Hs' & Hb & _); try done.
  { rewrite len_app. exact Hs. }
  exists s', live', new. split; [exact E|]. split; [done|]. split; [exact Hd|]. split; [done|]. rewrite Hb. unfold book, settled, held_queries. cbn. solve_Permutation.
Qed.

(** Events that leave the flags alone. *)
Lemma other_event_handled w s live e : good s live -> shape w s -> Ledger.allowed (base s) e = true ->
  match e with Files.Command _ _ | Files.Authorized | Files.LoggingOut | Files.Closing | Files.Closed | Files.LogOut _ _ => False | _ => True end ->
  handled [] w s live (b ← Files.step (files_env cfg) (base s) e; Some (set_base s b)).
Proof.
  intros Hg H Ha He. pose proof Hg as (Ho & _). destruct (step_handles (files_env cfg) (base s) live e Ho Ha) as (b & live' & E & Ho' & Hb & _).
  rewrite E. cbn [mbind option_bind]. apply (handled_base [] w s live b live'); try done.
  - by destruct e.
  - apply (shape_core w s); [|done]. unfold core. cbn. rewrite (step_flags (files_env cfg) (base s) live e b Ho Ha E); [done|by destruct e].
Qed.

Lemma authorized_handled w s live : good s live -> shape w s -> Container.size (Files.handlers (base s)) + requests s <= int32_max ->
  qltb 0 (Files.next_authorization_time (base s)) = false -> handled [] w s live (file_event inet_pton6 cfg s Files.Authorized).
Proof.
  intros Hg H Hr Ht. cbn [file_event]. pose proof Hg as (Ho & _). unfold requests in Hr. pose proof (len_nonneg (cmd_queue s)).
  destruct (step_handles (files_env cfg) (base s) live Files.Authorized Ho) as (b & live' & E & Ho' & Hb & _).
  { apply andb_true_iff. split; [|done]. apply Z.leb_le. lia. }
  rewrite E. cbn [mbind option_bind]. cbn [Files.step] in E.
  destruct (on_authorized_flags (files_env cfg) (base s) live b Ho) as ([= Ew Ec El Etd Ent] & Hs); [unfold room; lia|done|].
  apply (handled_loop w s live b live' Ho' Hb Hg).
  - apply shape_base; try done; [|by rewrite Ent]. unfold closing_or_logging_out. by rewrite Ec, El.
  - unfold room. lia.
Qed.

(** TDLib tells that it closes. *)
Lemma closing_handled w s live b : good s live -> shape w s -> Container.size (Files.handlers (base s)) + requests s <= int32_max ->
  b = Files.set_logging_out (base s) true \/ b = Files.set_closing (base s) true -> handled [] w s live (loop inet_pton6 cfg (set_base s b)).
Proof.
  intros Hg H Hr Hb. unfold requests in Hr. pose proof (len_nonneg (Files.pending_file_streams (base s))). pose proof Hg as (Ho & _). apply (handled_loop w s live b live).
  - destruct Ho as [? ? Hop], Hb as [-> | ->]; split; try done; right; cbn; [by rewrite orb_true_r|done].
  - by destruct Hb as [-> | ->].
  - done.
  - apply shape_base; try done; destruct Hb as [-> | ->]; try done; cbn; try (by intros; rewrite orb_true_r); apply (sh_time _ _ H).
  - unfold room. destruct Hb as [-> | ->]; cbn; lia.
Qed.

Lemma closed_handled w s live : good s live -> shape w s -> space 1 s -> closing_or_logging_out s = true -> Files.td_client (base s) = true ->
  handled [] w s live (on_closed cfg s).
Proof.
  intros Hg H Hs Hc Ht. destruct (on_closed_turn w s live Hg H Hs Hc Ht) as (s' & live' & new & E & Hg' & Hd & Hsh & Hb & _).
  exists s', live', new. split; [done|]. split; [done|]. split; [exact Hd|]. split; [done|]. rewrite Hb. cbn [app]. etransitivity; [|apply (book_shut s live)].
  rewrite <-held_order, !app_assoc. done.
Qed.

Lemma log_out_handled w s live code m : good s live -> shape w s -> space 1 s -> was_authorized s = false ->
  handled [] w s live (file_event inet_pton6 cfg s (Files.LogOut code m)).
Proof.
  intros Hg H Hs Hw. cbn [file_event Files.step]. pose proof Hg as (Ho & _).
  destruct (log_out_handles (files_env cfg) never (base s) live code m Ho Hs) as (b & live' & E & Ho' & Hb & _).
  rewrite E. cbn [mbind option_bind]. destruct (log_out_flags (files_env cfg) (base s) code m b E) as (Ew & Ec & El & Et).
  apply (handled_base [] w s live b live'); try done. rewrite <-same_queue. apply shape_base; try done.
  - intros Hw'. congruence.
  - unfold closing_or_logging_out. by rewrite Ec, El.
  - rewrite Ew. unfold was_authorized in Hw. by rewrite Hw.
  - intros Hq. rewrite Ew, Ec, El. apply (sh_queue _ _ H Hq).
Qed.

Lemma queue_changed_handled w s live o : good s live -> shape w s -> TQueue.allowed (tqueue s) o ->
  turn 0 [] w s live (step inet_pton6 cfg s (QueueChanged o)).
Proof.
  intros Hg H Ha. apply turn_quiet; [|done]. cbn [step]. destruct (TQueue.op_step (tqueue s) o) as (r & t & E & Hw & _); [apply Hg|done|].
  rewrite E. cbn [mbind option_bind]. exists (set_tqueue s t), live. split; [done|]. by apply calm_tqueue.
Qed.

Lemma slot_turn w s live : good s live -> shape w s -> space 1 s -> turn 1 [] w s live (long_poll_wakeup cfg s true).
Proof.
  intros Hg H Hs. destruct (long_poll_wakeup_calm cfg s live true Hg Hs) as (s' & live' & -> & Hc).
  { intros Hl. destruct (was_authorized s) eqn:E; [done|]. by destruct (sh_authorized _ _ H E). }
  assert (leaves s (webhook_set_query s) None (option_list (long_poll_query s))) as Hl.
  { split; [by left|]. split; [by right|]. cbn. rewrite app_nil_r. apply Permutation_app_comm. }
  pose proof (shape_left w s _ _ _ H Hl) as Hsh. pose proof (book_left s live _ _ _ Hl) as Hb.
  replace (left_with s (webhook_set_query s) None) with (set_long_poll_query s None) in Hsh, Hb by by destruct s.
  by apply (turn_of 1 _ [] w s live _ [] s' live' Hc Hsh); [rewrite app_nil_r|..].
Qed.

Lemma directory_turn w s live : good s live -> shape w s -> w_removing w = true ->
  turn 0 [] (hear w DirectoryRemoved) s live (finish_closing cfg s).
Proof.
  intros Hg H Hw. pose proof (sh_removing _ _ H Hw) as Ht. apply turn_quiet; [|by destruct H].
  apply finish_closing_calm; [done|]. by destruct (sh_td _ _ H Ht) as (_ & _ & _ & ?).
Qed.

(** No event that may happen fails a check; the shape and the book are kept. *)
Lemma step_handled w s live e : (forall n, TQueue.good_hint 0 (random_fast cfg n)) -> good s live -> shape w s -> allowed w s e -> in_time s e ->
  handled (query_received e) (hear w e) s live (step inet_pton6 cfg s e).
Proof.
  intros Hf Hg H [Hr Ha] Ht. pose proof (len_nonneg (cmd_queue s)). pose proof (len_nonneg (Files.pending_file_streams (base s))).
  assert (space (2 * (len (cmd_queue s) + 1)) s) as Hs by (unfold space, room, requests in *; lia). assert (space 1 s) as Hs1 by (eapply space_less; [exact Hs|lia]).
  assert (w_webhook w = true -> was_authorized s = true) as Hauth.
  { intros Hw. destruct (was_authorized s) eqn:E; [done|]. destruct (sh_authorized _ _ H E) as (_ & _ & _ & ?). congruence. }
  destruct e as [q|e|ty u timeout wq| |token ip| |m|m|m|ok| | |o]; cbn [step query_received hear].
  - by apply send_handled.
  - destruct e as [st sid fid es|sid fid rr co|fid|c q|id o|file| | | | | |code m]; try done; cbn [file_event].
    + by apply other_event_handled.
    + by apply other_event_handled.
    + by apply other_event_handled.
    + by apply other_event_handled.
    + by apply other_event_handled.
    + by apply authorized_handled.
    + apply (closing_handled w s live); [done|done|done|by left].
    + apply (closing_handled w s live); [done|done|done|by right].
    + apply andb_true_iff in Ha as [_ [Hc Htd]%andb_true_iff]. by apply (closed_handled w).
    + by apply other_event_handled.
    + by apply log_out_handled.
  - destruct Ha as [Hw Hro]. eapply handled_turn. by apply add_update_turn.
  - eapply handled_turn. by apply slot_turn.
  - eapply handled_turn. by apply webhook_verified_turn.
  - eapply handled_turn. by apply webhook_success_turn.
  - eapply handled_turn. apply webhook_error_turn; auto.
  - eapply handled_turn. by apply webhook_closed_turn.
  - eapply handled_turn. by apply (on_webhook_closed_turn w).
  - eapply handled_turn. by apply (certificate_copied_turn w s live ok).
  - eapply handled_turn. by apply directory_turn.
  - eapply handled_turn. by apply turn_emit.
  - eapply handled_turn. by apply (queue_changed_handled w s live o).
Qed.

End WithQueues.
End Shape.
