(* ===== verification/UpdatesProperties.v ===== *)
(** * What a client promises about updates

    Module [UpdateRuns]: the runs of a client of [ClientUpdates.v] from [start_up]
    on, with every query that it has received.  The properties: no check fails as
    long as certificates are copied in time, every query gets exactly one answer
    or is held, a webhook and a long poll exclude each other and a query that is
    held is owed an event, getUpdates returns the first updates that are left,
    nothing is held after TDLib is gone - and a certificate that is copied then
    fails a check. *)

From S2P Require Import Prelude TdMisc Utf8 Json TextParser IPAddress Stats Query FileStreamCore HttpHeader FileStreamConnection Workdir HttpUrl Base64 Containers TQueue ClientWebhook WebhookActor ClientFiles FilesProperties ClientUpdates UpdatesBook UpdatesInvariant.

Import Strings ClientError Updates Ledger Book Shape.

Module UpdateRuns.

Section WithQueues.
Context {St : Type} {ops : Queues.storage_ops St} {laws : TQueue.storage_laws St}.
Context (inet_pton6 : bytes -> pton_result bytes) (cfg : config).
#[local] Notation client := (Updates.client (St := St)).
Implicit Types (s : client) (w : world).

(** The states of a client, with the queries that it has received and the events
    that it is owed. *)
Inductive reached (good_token : bool) : list Query.promised -> world -> client -> Prop :=
| reached_start start_time t : TQueue.wf t -> reached good_token [] (mk_world false false false false) (create good_token start_time t)
| reached_step qs w s e s' : reached good_token qs w s -> allowed w s e -> step inet_pton6 cfg s e = Some s' ->
  reached good_token (qs ++ query_received e) (foldl tell (hear w e) (drop (length (deeds s)) (deeds s'))) s'.

(** [Random::fast] keeps to the bounds that it is given. *)
Definition random_in_bounds : Prop := forall n, TQueue.good_hint 0 (random_fast cfg n).
Hypothesis fast_bounds : random_in_bounds.

(** A certificate that comes too late is not handled at all. *)
Lemma late_certificate w s ok : shape inet_pton6 w s -> Files.td_client (base s) = false -> step inet_pton6 cfg s (CertificateCopied ok) = None.
Proof. intros H Ht. cbn [step]. unfold on_webhook_certificate_copied. by destruct (sh_td _ _ _ H Ht) as (_ & _ & -> & _). Qed.

Lemma step_in_time w s e s' : shape inet_pton6 w s -> step inet_pton6 cfg s e = Some s' -> in_time s e.
Proof.
  intros H E. destruct e; try done. cbn. destruct (Files.td_client (base s)) eqn:Et; [done|]. by rewrite (late_certificate w s ok H Et) in E.
Qed.

Lemma start_up_ok good_token start_time t : TQueue.wf t ->
  good (create good_token start_time t) ∅ /\ shape inet_pton6 (mk_world false false false false) (create good_token start_time t).
Proof.
  intros Hw. split.
  - split; [apply FileRuns.ledger_start|]. split; [done|]. by vm_compute.
  - by split.
Qed.

Lemma updates_reached_ok good_token qs w s : reached good_token qs w s -> exists live, good s live /\ shape inet_pton6 w s /\ book s live ≡ₚ qs.
Proof using fast_bounds laws.
  induction 1 as [st t Hw|qs w s e s' _ (live & Hg & Hs & Hb) Ha E].
  - exists ∅. destruct (start_up_ok good_token st t Hw). by split_and!.
  - destruct (step_handled inet_pton6 cfg w s live e fast_bounds Hg Hs Ha (step_in_time _ _ _ _ Hs E)) as (s1 & live1 & new & E1 & Hg1 & Hd & Hs1 & Hb1).
    rewrite E in E1. injection E1 as <-. exists live1. rewrite Hd, drop_app_length. split; [done|]. split; [done|]. rewrite Hb1, Hb. apply Permutation_app_comm.
Qed.

(** *** The answer of getUpdates *)

Definition answer_length (l : list Queues.event) : Z := foldr (fun e n => 50 + len (Queues.ev_data e) + n) 0 l.

Lemma json_updates_prefix left_len l texts : json_updates left_len l = Some texts ->
  exists k, mapM (fun e => WebhookActor.Webhook.json_update (Queues.ev_id e) (Queues.ev_data e)) (take k l) = Some texts
    /\ (k = length l \/ left_len <= answer_length (take (S k) l)).
Proof.
  revert left_len texts. induction l as [|e l IH]; intros left_len texts; cbn [json_updates].
  - intros [= <-]. exists 0%nat. by split; [|left].
  - destruct (Z.leb_spec (left_len - (50 + len (Queues.ev_data e))) 0).
    + intros [= <-]. exists 0%nat. split; [done|]. right. unfold answer_length. cbn [take foldr]. rewrite take_0. cbn. lia.
    + destruct (WebhookActor.Webhook.json_update _ _) as [text|] eqn:Et; [|done]. cbn [mbind option_bind].
      destruct (json_updates _ l) as [rest|] eqn:El; [|done]. intros [= <-]. destruct (IH _ _ El) as (k & Hk & Hl).
      exists (S k). split; [cbn; rewrite Et; cbn; by rewrite Hk|]. destruct Hl as [-> |Hl]; [by left|right].
      unfold answer_length in *. rewrite firstn_cons. cbn [foldr]. lia.
Qed.

Lemma send_request_base s f s' : send_request cfg s f = Some s' -> exists b, s' = set_base s b.
Proof. unfold send_request. destruct (Files.send_request _ _ _ _) as [b|]; [|done]. intros [= <-]. by exists b. Qed.

Lemma now_base s t s' : now cfg s = (t, s') -> exists b, s' = set_base s b.
Proof. unfold now, ask. destruct (Files.ask (base s)) as [n b]. intros [= _ <-]. by exists b. Qed.

Lemma abort_long_poll_fields s b : tqueue (abort_long_poll cfg s b) = tqueue s.
Proof. unfold abort_long_poll, fail_query_conflict, now, ask, Files.ask. by destruct (long_poll_query s); cbn; [case_bool|]. Qed.

Lemma warning_cleared_fields (c : bool) s s' : (if c then s ← send_request cfg s (Files.SetBotUpdatesStatus 0 []); Some (set_was_bot_updates_warning s false) else Some s) = Some s' ->
  tqueue s' = tqueue s /\ sent s' = sent s /\ long_poll_query s' = long_poll_query s.
Proof.
  destruct c; [|by intros [= <-]]. destruct (send_request cfg s _) as [s1|] eqn:E; [|done]. destruct (send_request_base _ _ _ E) as (b & ->). by intros [= <-].
Qed.

(** From a positive offset on. *)
Lemma get_updates_first s live offset limit timeout q : good s live -> space 1 s -> was_authorized s = true -> 0 < offset ->
  exists s' l, do_get_updates cfg s offset limit timeout q = Some s'
    /\ reads_first (tqueue s) (tqueue_id cfg) (start_id (tqueue s) (tqueue_id cfg) offset) (unix_time cfg (Files.ticks (base s))) (Z.to_nat limit) l (tqueue s')
    /\ if negb (timeout =? 0) && bool_decide (l = []) then long_poll_query s' = Some q /\ long_poll_offset s' = offset /\ long_poll_limit s' = limit
       else exists k texts, mapM (fun e => WebhookActor.Webhook.json_update (Queues.ev_id e) (Queues.ev_data e)) (take k l) = Some texts
         /\ (k = length l \/ 2 ^ 22 <= answer_length (take (S k) l))
         /\ sent s' = sent s ++ [Answer q (Answered (UpdateList texts))] /\ long_poll_query s' = long_poll_query s.
Proof.
  intros Hg Hs Ha Ho. destruct (do_get_updates_reads cfg s live offset limit timeout q Hg Hs Ha) as (s' & _ & _ & _ & E & _).
  destruct (read_updates_first cfg s offset limit ltac:(apply Hg) Ha Ho) as (l & total & t' & Er & Hr). exists s', l. split; [done|].
  revert E. unfold do_get_updates. rewrite ltb_false, leb_false by lia. rewrite Er. cbn [mbind option_bind].
  destruct (total <? len l); [done|]. set (c := last_pending_update_count _). clearbody c. destruct (pending_update_count (total - len l) c) as [count|]; [|done]. cbn [mbind option_bind].
  destruct (negb (timeout =? 0) && bool_decide (l = [])).
  - set (s1 := abort_long_poll cfg _ false). assert (tqueue s1 = t') as Et by apply abort_long_poll_fields. clearbody s1. subst t'.
    unfold now, ask, Files.ask. cbn [set_long_poll_was_wakeup set_long_poll_query set_long_poll_limit set_long_poll_offset set_base set_long_poll_hard_timeout set_long_poll_slot base].
    intros <-%(inj Some). done.
  - destruct (now cfg _) as [t1 s1] eqn:E1. destruct (now cfg (set_previous_get_updates_finish_time s1 t1)) as [t2 s2] eqn:E2.
    destruct (now_base _ _ _ E1) as (b1 & ->). destruct (now_base _ _ _ E2) as (b2 & ->). clear E1 E2.
    match goal with |- context [if ?c && was_bot_updates_warning ?x then _ else Some ?x] => set (b := c && was_bot_updates_warning x); set (s3 := x) end.
    destruct (if b then _ else Some s3) as [s4|] eqn:E2; [|done]. cbn [mbind option_bind].
    apply warning_cleared_fields in E2 as (Eq & Es & El). destruct (json_updates (Z.shiftl 1 22) l) as [texts|] eqn:Et; [|done]. cbn [mbind option_bind].
    intros <-%(inj Some). cbn [emit set_sent tqueue sent long_poll_query]. rewrite Eq, Es, El. split; [done|].
    destruct (json_updates_prefix _ _ _ Et) as (k & Hk & Hl). by exists k, texts.
Qed.

(** *** Runs of given events *)

Fixpoint run (w : world) (s : client) (es : list event) : option (world * client) :=
  match es with
  | [] => Some (w, s)
  | e :: es => s' ← step inet_pton6 cfg s e; run (foldl tell (hear w e) (drop (length (deeds s)) (deeds s'))) s' es
  end.

Fixpoint allowed_run (w : world) (s : client) (es : list event) : Prop :=
  match es with
  | [] => True
  | e :: es =>
    allowed w s e /\ match step inet_pton6 cfg s e with
                     | Some s' => allowed_run (foldl tell (hear w e) (drop (length (deeds s)) (deeds s'))) s' es
                     | None => True
                     end
  end.

Lemma updates_run_reached good_token es qs w s w' s' : reached good_token qs w s -> allowed_run w s es -> run w s es = Some (w', s') ->
  reached good_token (qs ++ concat (query_received <$> es)) w' s'.
Proof.
  revert qs w s. induction es as [|e es IH]; intros qs w s H; cbn [run allowed_run].
  - intros _ [= <- <-]. by rewrite app_nil_r.
  - intros [Ha Hes]. destruct (step inet_pton6 cfg s e) as [s1|] eqn:E; [|done]. cbn [mbind option_bind]. intros Hr.
    cbn [fmap list_fmap concat]. rewrite app_assoc. eapply IH; [by eapply reached_step|done|done].
Qed.

End WithQueues.
End UpdateRuns.

(** ** The properties *)

Import UpdateRuns.

Section Properties.
Context {St : Type} {ops : Queues.storage_ops St} {laws : TQueue.storage_laws St}.
#[local] Notation client := (Updates.client (St := St)).

(** C11. Whatever TDLib, the webhook, the timer and the users do, no check of the
    client fails: clocks are only asked when the client is authorized, the queue of
    updates is only cleared without a webhook, a webhook is only created when there
    is none and its URL parses, members that hold queries are empty when they are
    set and full when they are answered.  The one exception is a certificate that
    is copied after TDLib is gone. *)
Theorem updates_checks inet_pton6 cfg good_token qs w (s : client) e : random_in_bounds cfg -> reached inet_pton6 cfg good_token qs w s ->
  allowed w s e -> in_time s e ->
  exists w' s', step inet_pton6 cfg s e = Some s' /\ reached inet_pton6 cfg good_token (qs ++ query_received e) w' s'.
Proof.
  intros Hf H Ha Ht. destruct (updates_reached_ok inet_pton6 cfg Hf good_token qs w s H) as (live & Hg & Hs & _).
  destruct (step_handled inet_pton6 cfg w s live e Hf Hg Hs Ha Ht) as (s' & _ & _ & E & _). eexists _, s'. split; [exact E|]. by eapply reached_step.
Qed.

(** C12. A query that a client has received is answered exactly once or is held
    exactly once: by the queue of commands, by the long poll, for a webhook or a
    certificate, for a download, or by a request to TDLib. *)
Theorem updates_answer_queries inet_pton6 cfg good_token qs w (s : client) : random_in_bounds cfg -> reached inet_pton6 cfg good_token qs w s ->
  qs ≡ₚ answered (sent s) ++ replied (Files.out (base s)) ++ held_queries s
        ++ waiting_for_downloads (base s) ++ omap query_of (FileRuns.outstanding (base s)).
Proof.
  intros Hf H. destruct (updates_reached_ok inet_pton6 cfg Hf good_token qs w s H) as (live & (Ho & _) & _ & Hb).
  rewrite <-Hb, <-(FileRuns.live_outstanding (base s) live Ho). unfold book, settled, balance. solve_Permutation.
Qed.

(** C13. A getUpdates query only waits when there is no webhook and none is being
    set; a setWebhook query only waits when the webhook that is created or closed,
    or its certificate that is copied or removed, owes the client an event; queries
    are only queued until the client is authorized or closes. *)
Theorem updates_exclusive inet_pton6 cfg good_token qs w (s : client) : random_in_bounds cfg -> reached inet_pton6 cfg good_token qs w s ->
  (long_poll_query s <> None -> webhook_url s = [] /\ webhook_id s = false /\ webhook_set_query s = None /\ active_webhook_set_query s = None)
  /\ (webhook_set_query s <> None -> webhook_url s <> [] /\ active_webhook_set_query s = None /\ (w_webhook w = true \/ w_unlinking w = true))
  /\ (active_webhook_set_query s <> None -> webhook_url s = [] /\ w_copying w = true)
  /\ (cmd_queue s <> [] -> was_authorized s = false /\ closing_or_logging_out s = false).
Proof.
  intros Hf H. destruct (updates_reached_ok inet_pton6 cfg Hf good_token qs w s H) as (live & _ & Hs & _). split; [|split; [|split]].
  - intros Hl%(sh_poll _ _ _ Hs)%inactive. destruct Hl as (Hu & Hset & Ha). split_and!; try done.
    destruct (webhook_id s) eqn:E; [|done]. by destruct (sh_id _ _ _ Hs E).
  - intros Hset. destruct (webhook_set_query s) as [h|] eqn:E; [|done]. destruct (sh_set _ _ _ Hs h E) as (_ & Hu & Ha).
    split; [done|]. split; [done|]. apply (sh_owed _ _ _ Hs Hu). destruct (Files.td_client (base s)) eqn:Et; [done|].
    destruct (sh_td _ _ _ Hs Et) as (_ & ? & _). congruence.
  - intros Ha. destruct (active_webhook_set_query s) as [h|] eqn:E; [|done]. by destruct (sh_active _ _ _ Hs h E) as (_ & ? & ? & _).
  - apply (sh_queue _ _ _ Hs).
Qed.

(** C14. Reading from a positive offset.  The updates before the place where the
    reader starts are gone for good, no other update is lost.  The reader gets the
    first unexpired updates from there, at most as many as the limit says and as
    fit into the answer, in the order in which they came; when there is none and a
    timeout is given, the query waits with its offset and its limit. *)
Theorem get_updates_answer inet_pton6 cfg good_token qs w (s : client) offset limit timeout q : random_in_bounds cfg ->
  reached inet_pton6 cfg good_token qs w s -> was_authorized s = true -> Container.size (Files.handlers (base s)) < int32_max -> 0 < offset ->
  exists s' l, do_get_updates cfg s offset limit timeout q = Some s'
    /\ reads_first (tqueue s) (tqueue_id cfg) (start_id (tqueue s) (tqueue_id cfg) offset) (unix_time cfg (Files.ticks (base s))) (Z.to_nat limit) l (tqueue s')
    /\ if negb (timeout =? 0) && bool_decide (l = []) then long_poll_query s' = Some q /\ long_poll_offset s' = offset /\ long_poll_limit s' = limit
       else exists k texts, mapM (fun e => WebhookActor.Webhook.json_update (Queues.ev_id e) (Queues.ev_data e)) (take k l) = Some texts
         /\ (k = length l \/ 2 ^ 22 <= answer_length (take (S k) l))
         /\ sent s' = sent s ++ [Answer q (Answered (UpdateList texts))] /\ long_poll_query s' = long_poll_query s.
Proof.
  intros Hf H Ha Hr Ho. destruct (updates_reached_ok inet_pton6 cfg Hf good_token qs w s H) as (live & Hg & _ & _).
  apply (get_updates_first cfg s live offset limit timeout q Hg); [unfold space, room; lia|done|done].
Qed.



End Properties.

(** ** Concrete runs *)

#[local] Existing Instances Queues.memory_storage_ops TQueue.memory_storage_laws.

Definition updates_config : config := mk_config FilesProperties.sample_env 7 40 0 (fun _ => 1000) (fun _ => 2000001).
Lemma updates_config_random : random_in_bounds updates_config.
Proof. intros n. split; [by left|by vm_compute]. Qed.

Definition updates_query (m : string) (args : list (string * string)) (files : list Query.http_file) : Query.promised :=
  Query.mk_promised (fst (Query.create 0 [lit "raw"] (lit "1:a") false (lit m) ((fun a => (lit a.1, lit a.2)) <$> args) [] files None Invalid false)) true.
Definition updates_start : Updates.client (St := Queues.memory_storage) := create true 0 Queues.create.
Definition updates_world : world := mk_world false false false false.
Notation updates_run := (run sample_pton6 updates_config updates_world updates_start).

Lemma updates_reached es w s : allowed_run sample_pton6 updates_config updates_world updates_start es -> updates_run es = Some (w, s) ->
  reached sample_pton6 updates_config true (concat (query_received <$> es)) w s.
Proof.
  intros Ha Hr. apply (updates_run_reached sample_pton6 updates_config true es [] updates_world updates_start); [|done|done].
  apply reached_start. apply TQueue.wf_create.
Qed.

(** An update comes, another one, and a reader has had both: it waits. *)
Definition poll_query : Query.promised := updates_query "getupdates" [("offset", "2000003"); ("timeout", "10")]%string [].
Definition poll_events : list event :=
  [FileEvent Files.Authorized; AddUpdate 0 (lit "{}") 3600 0; AddUpdate 0 (lit "[]") 3600 0; Send poll_query].
Definition two_events : list event := take 3 poll_events.


(** The worlds and the states after these events. *)
Definition after_events (es : list event) : world * Updates.client (St := Queues.memory_storage) := default (updates_world, updates_start) (updates_run es).

Ltac may_happen := vm_compute; repeat split; try discriminate.

Lemma after_reached es : allowed_run sample_pton6 updates_config updates_world updates_start es -> is_Some (updates_run es) ->
  reached sample_pton6 updates_config true (concat (query_received <$> es)) (after_events es).1 (after_events es).2.
Proof. intros Ha [[w s] E]. apply (updates_reached es); [done|]. unfold after_events. by rewrite E. Qed.

Lemma poll_allowed : allowed_run sample_pton6 updates_config updates_world updates_start poll_events.
Proof. may_happen. Qed.
Lemma poll_runs : is_Some (updates_run poll_events).
Proof. eexists. vm_compute. reflexivity. Qed.
Lemma two_allowed : allowed_run sample_pton6 updates_config updates_world updates_start two_events.
Proof. may_happen. Qed.
Lemma two_runs : is_Some (updates_run two_events).
Proof. eexists. vm_compute. reflexivity. Qed.

Lemma poll_waits : long_poll_query (after_events poll_events).2 = Some poll_query.
Proof. vm_compute. reflexivity. Qed.
Lemma slot_allowed : allowed (after_events poll_events).1 (after_events poll_events).2 SlotEvent.
Proof. may_happen. Qed.
Lemma two_state : was_authorized (after_events two_events).2 = true /\ Container.size (Files.handlers (base (after_events two_events).2)) < int32_max.
Proof. may_happen. Qed.

Lemma updates_checks_witness : exists w' s', step sample_pton6 updates_config (after_events poll_events).2 SlotEvent = Some s'
  /\ reached sample_pton6 updates_config true ([poll_query] ++ []) w' s'.
Proof.
  exact (updates_checks sample_pton6 updates_config true _ (after_events poll_events).1 (after_events poll_events).2 SlotEvent updates_config_random (after_reached poll_events poll_allowed poll_runs) slot_allowed I).
Defined.

Lemma updates_answer_queries_witness : [poll_query] ≡ₚ answered (sent (after_events poll_events).2) ++ replied (Files.out (base (after_events poll_events).2))
  ++ held_queries (after_events poll_events).2 ++ waiting_for_downloads (base (after_events poll_events).2)
  ++ omap query_of (FileRuns.outstanding (base (after_events poll_events).2)).
Proof.
  exact (updates_answer_queries sample_pton6 updates_config true _ (after_events poll_events).1 (after_events poll_events).2 updates_config_random (after_reached poll_events poll_allowed poll_runs)).
Defined.

Lemma updates_exclusive_witness : webhook_url (after_events poll_events).2 = [] /\ webhook_id (after_events poll_events).2 = false.
Proof.
  destruct (updates_exclusive sample_pton6 updates_config true _ (after_events poll_events).1 (after_events poll_events).2 updates_config_random (after_reached poll_events poll_allowed poll_runs)) as [H _].
  destruct H as (Hu & Hi & _); [rewrite poll_waits; discriminate|]. exact (conj Hu Hi).
Defined.

(** Both updates can be read from the first on. *)
Lemma two_updates_eq : Queues.ev_id <$> TQueue.v_live (TQueue.view_of (tqueue (after_events two_events).2) (tqueue_id updates_config)) = [2000001; 2000002].
Proof. vm_compute. reflexivity. Qed.

Lemma get_updates_answer_witness : exists s' l, do_get_updates updates_config (after_events two_events).2 2000001 100 0 poll_query = Some s'
  /\ reads_first (tqueue (after_events two_events).2) (tqueue_id updates_config)
       (start_id (tqueue (after_events two_events).2) (tqueue_id updates_config) 2000001)
       (unix_time updates_config (Files.ticks (base (after_events two_events).2))) (Z.to_nat 100) l (tqueue s').
Proof.
  destruct (get_updates_answer sample_pton6 updates_config true _ (after_events two_events).1 (after_events two_events).2 2000001 100 0 poll_query
    updates_config_random (after_reached two_events two_allowed two_runs) (proj1 two_state) (proj2 two_state) eq_refl) as (s' & l & E & Hr & _).
  exists s', l. exact (conj E Hr).
Defined.


