(* ===== verification/ClientManager.v ===== *)
(** * The client manager ([ClientManager.h], [ClientManager.cpp])

    Module [Manager]: the actor that owns the clients: creation of clients with
    its rate limits, admission of queries and of file streams, and the closing of
    the server.  The closures it sends are the list [out]. *)

From Stdlib Require Import Qround.
From S2P Require Import Prelude TdMisc Utf8 TextParser Json IPAddress Query Containers ClientWebhook.

(** ** The actor *)

Module Manager.
Import Containers.Container Flood.

Record parameters := mk_parameters {
  file_streaming_enabled : bool; file_stream_max_connections : Z; local_mode : bool;
  range_rem : Z; range_mod : Z }.

(** [TokenRange::operator()], whose argument is a [uint64]. *)
Definition token_range (p : parameters) (x : Z) : bool := wrap 64 x mod range_mod p =? range_rem p.

Record client_info := mk_client_info { ci_token : bytes; ci_tqueue_id : Z }.
Definition no_client_info : client_info := mk_client_info [] 0.

(** The closures the actor sends, the actors it creates, and what it does to
    its own timeout. *)
Inductive effect :=
| StreamError (stream : Z) (e : status)
| StreamClient (stream client : Z)
| StartFileStream (client stream : Z) (file_id : bytes) (expected_size : Z)
| CreateClient (client : Z) (token : bytes) (is_test_dc : bool) (tqueue_id : Z)
| SendQuery (client : Z) (query : Query.promised)
| SendLater (query : Query.promised)
| Delivered (query : option Query.query) (stat : list Stats.BotStat.event)
| EraseWebhook (key : bytes)
| CloseClient (client : Z)
| CloseDatabases
| CreateWatchdog | KickWatchdog | DestroyWatchdog
| SetTimeoutIn (t : time) | CancelTimeout
| Resolve (promise : Z)
| Stop.

Record manager := mk_manager {
  clients : container client_info;
  token_to_id : gmap bytes Z;
  flood_controls : gmap bytes flood_control;
  global_flood_control : flood_control;
  is_global_flood_control_enabled : bool;
  active_client_count : gmap Z Z;
  close_flag : bool; close_db_started : bool; close_finished : bool;
  active_file_stream_ids : gset Z;
  active_file_streams_by_token : gmap bytes Z;
  active_file_stream_token : gmap Z bytes;
  close_promises : list Z;
  next_tqueue_gc_time : time; tqueue_deleted_events : Z; last_tqueue_deleted_events : Z;
  webhook_db : gmap bytes bytes;
  shared_data : Query.shared;
  first_byte_timeouts : Z; idle_timeouts : Z;
  out : list effect }.

Definition set_clients (m : manager) (v : container client_info) : manager := mk_manager v (token_to_id m)
  (flood_controls m) (global_flood_control m) (is_global_flood_control_enabled m) (active_client_count m) (close_flag
  m) (close_db_started m) (close_finished m) (active_file_stream_ids m) (active_file_streams_by_token m)
  (active_file_stream_token m) (close_promises m) (next_tqueue_gc_time m) (tqueue_deleted_events m)
  (last_tqueue_deleted_events m) (webhook_db m) (shared_data m) (first_byte_timeouts m) (idle_timeouts m) (out m).
Definition set_token_to_id (m : manager) (v : gmap bytes Z) : manager := mk_manager (clients m) v (flood_controls m)
  (global_flood_control m) (is_global_flood_control_enabled m) (active_client_count m) (close_flag m)
  (close_db_started m) (close_finished m) (active_file_stream_ids m) (active_file_streams_by_token m)
  (active_file_stream_token m) (close_promises m) (next_tqueue_gc_time m) (tqueue_deleted_events m)
  (last_tqueue_deleted_events m) (webhook_db m) (shared_data m) (first_byte_timeouts m) (idle_timeouts m) (out m).
Definition set_flood_controls (m : manager) (v : gmap bytes flood_control) : manager := mk_manager (clients m)
  (token_to_id m) v (global_flood_control m) (is_global_flood_control_enabled m) (active_client_count m) (close_flag
  m) (close_db_started m) (close_finished m) (active_file_stream_ids m) (active_file_streams_by_token m)
  (active_file_stream_token m) (close_promises m) (next_tqueue_gc_time m) (tqueue_deleted_events m)
  (last_tqueue_deleted_events m) (webhook_db m) (shared_data m) (first_byte_timeouts m) (idle_timeouts m) (out m).
Definition set_global_flood_control (m : manager) (v : flood_control) : manager := mk_manager (clients m) (token_to_id
  m) (flood_controls m) v (is_global_flood_control_enabled m) (active_client_count m) (close_flag m) (close_db_started
  m) (close_finished m) (active_file_stream_ids m) (active_file_streams_by_token m) (active_file_stream_token m)
  (close_promises m) (next_tqueue_gc_time m) (tqueue_deleted_events m) (last_tqueue_deleted_events m) (webhook_db m)
  (shared_data m) (first_byte_timeouts m) (idle_timeouts m) (out m).
Definition set_is_global_flood_control_enabled (m : manager) (v : bool) : manager := mk_manager (clients m)
  (token_to_id m) (flood_controls m) (global_flood_control m) v (active_client_count m) (close_flag m)
  (close_db_started m) (close_finished m) (active_file_stream_ids m) (active_file_streams_by_token m)
  (active_file_stream_token m) (close_promises m) (next_tqueue_gc_time m) (tqueue_deleted_events m)
  (last_tqueue_deleted_events m) (webhook_db m) (shared_data m) (first_byte_timeouts m) (idle_timeouts m) (out m).
Definition set_active_client_count (m : manager) (v : gmap Z Z) : manager := mk_manager (clients m) (token_to_id m)
  (flood_controls m) (global_flood_control m) (is_global_flood_control_enabled m) v (close_flag m) (close_db_started
  m) (close_finished m) (active_file_stream_ids m) (active_file_streams_by_token m) (active_file_stream_token m)
  (close_promises m) (next_tqueue_gc_time m) (tqueue_deleted_events m) (last_tqueue_deleted_events m) (webhook_db m)
  (shared_data m) (first_byte_timeouts m) (idle_timeouts m) (out m).
Definition set_close_flag (m : manager) (v : bool) : manager := mk_manager (clients m) (token_to_id m) (flood_controls
  m) (global_flood_control m) (is_global_flood_control_enabled m) (active_client_count m) v (close_db_started m)
  (close_finished m) (active_file_stream_ids m) (active_file_streams_by_token m) (active_file_stream_token m)
  (close_promises m) (next_tqueue_gc_time m) (tqueue_deleted_events m) (last_tqueue_deleted_events m) (webhook_db m)
  (shared_data m) (first_byte_timeouts m) (idle_timeouts m) (out m).
Definition set_close_db_started (m : manager) (v : bool) : manager := mk_manager (clients m) (token_to_id m)
  (flood_controls m) (global_flood_control m) (is_global_flood_control_enabled m) (active_client_count m) (close_flag
  m) v (close_finished m) (active_file_stream_ids m) (active_file_streams_by_token m) (active_file_stream_token m)
  (close_promises m) (next_tqueue_gc_time m) (tqueue_deleted_events m) (last_tqueue_deleted_events m) (webhook_db m)
  (shared_data m) (first_byte_timeouts m) (idle_timeouts m) (out m).
Definition set_close_finished (m : manager) (v : bool) : manager := mk_manager (clients m) (token_to_id m)
  (flood_controls m) (global_flood_control m) (is_global_flood_control_enabled m) (active_client_count m) (close_flag
  m) (close_db_started m) v (active_file_stream_ids m) (active_file_streams_by_token m) (active_file_stream_token m)
  (close_promises m) (next_tqueue_gc_time m) (tqueue_deleted_events m) (last_tqueue_deleted_events m) (webhook_db m)
  (shared_data m) (first_byte_timeouts m) (idle_timeouts m) (out m).
Definition set_active_file_stream_ids (m : manager) (v : gset Z) : manager := mk_manager (clients m) (token_to_id m)
  (flood_controls m) (global_flood_control m) (is_global_flood_control_enabled m) (active_client_count m) (close_flag
  m) (close_db_started m) (close_finished m) v (active_file_streams_by_token m) (active_file_stream_token m)
  (close_promises m) (next_tqueue_gc_time m) (tqueue_deleted_events m) (last_tqueue_deleted_events m) (webhook_db m)
  (shared_data m) (first_byte_timeouts m) (idle_timeouts m) (out m).
Definition set_active_file_streams_by_token (m : manager) (v : gmap bytes Z) : manager := mk_manager (clients m)
  (token_to_id m) (flood_controls m) (global_flood_control m) (is_global_flood_control_enabled m) (active_client_count
  m) (close_flag m) (close_db_started m) (close_finished m) (active_file_stream_ids m) v (active_file_stream_token m)
  (close_promises m) (next_tqueue_gc_time m) (tqueue_deleted_events m) (last_tqueue_deleted_events m) (webhook_db m)
  (shared_data m) (first_byte_timeouts m) (idle_timeouts m) (out m).
Definition set_active_file_stream_token (m : manager) (v : gmap Z bytes) : manager := mk_manager (clients m)
  (token_to_id m) (flood_controls m) (global_flood_control m) (is_global_flood_control_enabled m) (active_client_count
  m) (close_flag m) (close_db_started m) (close_finished m) (active_file_stream_ids m) (active_file_streams_by_token
  m) v (close_promises m) (next_tqueue_gc_time m) (tqueue_deleted_events m) (last_tqueue_deleted_events m) (webhook_db
  m) (shared_data m) (first_byte_timeouts m) (idle_timeouts m) (out m).
Definition set_close_promises (m : manager) (v : list Z) : manager := mk_manager (clients m) (token_to_id m)
  (flood_controls m) (global_flood_control m) (is_global_flood_control_enabled m) (active_client_count m) (close_flag
  m) (close_db_started m) (close_finished m) (active_file_stream_ids m) (active_file_streams_by_token m)
  (active_file_stream_token m) v (next_tqueue_gc_time m) (tqueue_deleted_events m) (last_tqueue_deleted_events m)
  (webhook_db m) (shared_data m) (first_byte_timeouts m) (idle_timeouts m) (out m).
Definition set_next_tqueue_gc_time (m : manager) (v : time) : manager := mk_manager (clients m) (token_to_id m)
  (flood_controls m) (global_flood_control m) (is_global_flood_control_enabled m) (active_client_count m) (close_flag
  m) (close_db_started m) (close_finished m) (active_file_stream_ids m) (active_file_streams_by_token m)
  (active_file_stream_token m) (close_promises m) v (tqueue_deleted_events m) (last_tqueue_deleted_events m)
  (webhook_db m) (shared_data m) (first_byte_timeouts m) (idle_timeouts m) (out m).
Definition set_tqueue_deleted_events (m : manager) (v : Z) : manager := mk_manager (clients m) (token_to_id m)
  (flood_controls m) (global_flood_control m) (is_global_flood_control_enabled m) (active_client_count m) (close_flag
  m) (close_db_started m) (close_finished m) (active_file_stream_ids m) (active_file_streams_by_token m)
  (active_file_stream_token m) (close_promises m) (next_tqueue_gc_time m) v (last_tqueue_deleted_events m) (webhook_db
  m) (shared_data m) (first_byte_timeouts m) (idle_timeouts m) (out m).
Definition set_last_tqueue_deleted_events (m : manager) (v : Z) : manager := mk_manager (clients m) (token_to_id m)
  (flood_controls m) (global_flood_control m) (is_global_flood_control_enabled m) (active_client_count m) (close_flag
  m) (close_db_started m) (close_finished m) (active_file_stream_ids m) (active_file_streams_by_token m)
  (active_file_stream_token m) (close_promises m) (next_tqueue_gc_time m) (tqueue_deleted_events m) v (webhook_db m)
  (shared_data m) (first_byte_timeouts m) (idle_timeouts m) (out m).
Definition set_webhook_db (m : manager) (v : gmap bytes bytes) : manager := mk_manager (clients m) (token_to_id m)
  (flood_controls m) (global_flood_control m) (is_global_flood_control_enabled m) (active_client_count m) (close_flag
  m) (close_db_started m) (close_finished m) (active_file_stream_ids m) (active_file_streams_by_token m)
  (active_file_stream_token m) (close_promises m) (next_tqueue_gc_time m) (tqueue_deleted_events m)
  (last_tqueue_deleted_events m) v (shared_data m) (first_byte_timeouts m) (idle_timeouts m) (out m).
Definition set_shared_data (m : manager) (v : Query.shared) : manager := mk_manager (clients m) (token_to_id m)
  (flood_controls m) (global_flood_control m) (is_global_flood_control_enabled m) (active_client_count m) (close_flag
  m) (close_db_started m) (close_finished m) (active_file_stream_ids m) (active_file_streams_by_token m)
  (active_file_stream_token m) (close_promises m) (next_tqueue_gc_time m) (tqueue_deleted_events m)
  (last_tqueue_deleted_events m) (webhook_db m) v (first_byte_timeouts m) (idle_timeouts m) (out m).
Definition set_first_byte_timeouts (m : manager) (v : Z) : manager := mk_manager (clients m) (token_to_id m)
  (flood_controls m) (global_flood_control m) (is_global_flood_control_enabled m) (active_client_count m) (close_flag
  m) (close_db_started m) (close_finished m) (active_file_stream_ids m) (active_file_streams_by_token m)
  (active_file_stream_token m) (close_promises m) (next_tqueue_gc_time m) (tqueue_deleted_events m)
  (last_tqueue_deleted_events m) (webhook_db m) (shared_data m) v (idle_timeouts m) (out m).
Definition set_idle_timeouts (m : manager) (v : Z) : manager := mk_manager (clients m) (token_to_id m) (flood_controls
  m) (global_flood_control m) (is_global_flood_control_enabled m) (active_client_count m) (close_flag m)
  (close_db_started m) (close_finished m) (active_file_stream_ids m) (active_file_streams_by_token m)
  (active_file_stream_token m) (close_promises m) (next_tqueue_gc_time m) (tqueue_deleted_events m)
  (last_tqueue_deleted_events m) (webhook_db m) (shared_data m) (first_byte_timeouts m) v (out m).
Definition set_out (m : manager) (v : list effect) : manager := mk_manager (clients m) (token_to_id m) (flood_controls
  m) (global_flood_control m) (is_global_flood_control_enabled m) (active_client_count m) (close_flag m)
  (close_db_started m) (close_finished m) (active_file_stream_ids m) (active_file_streams_by_token m)
  (active_file_stream_token m) (close_promises m) (next_tqueue_gc_time m) (tqueue_deleted_events m)
  (last_tqueue_deleted_events m) (webhook_db m) (shared_data m) (first_byte_timeouts m) (idle_timeouts m) v.

Definition emit (m : manager) (e : effect) : manager := set_out m (out m ++ [e]).

Definition create (db : gmap bytes bytes) (sh : Query.shared) : manager :=
  mk_manager empty_container ∅ ∅ new_flood false ∅ false false false ∅ ∅ ∅ [] 0 0 0 db sh 0 0 [].

Definition get_tqueue_id (user_id : Z) (is_test_dc : bool) : Z := user_id + (if is_test_dc then Z.shiftl 1 54 else 0).

(** The key of a client: [token + "/test"] for the test environment. *)
Definition token_key (token : bytes) (is_test_dc : bool) : bytes := token ++ (if is_test_dc then lit "/test" else []).

(** The checks on the text of a token that both entry points make. *)
Definition is_bad_token (token : bytes) : bool :=
  bool_decide (head token = Some "0"%char) || (80 <? len token) || contains "/"%char token || negb (contains ":"%char token).

(** [to_integer_safe<int64>(token.substr(0, token.find(':')))] *)
Definition token_user_id (token : bytes) : result Z :=
  Integers.to_integer_safe check_utf8 64 (take (default (length token) (find ":"%char token)) token).

(** What the limits of an address let through: [Some t] is a refusal until [t].
    The outer option is a failed check. *)
Definition admit_event (f : flood_control) (now : time) : option (option time * flood_control) :=
  if qltb now (get_wakeup_at f) then Some (Some (get_wakeup_at f), f)
  else f ← add_event f now; Some (None, f).

Definition new_ip_flood : flood_control := add_limit (add_limit new_flood 60 20) (60 * 60) 600.

Section Ip.
(** The text of an address without its IPv6 interface ([init_host_port],
    [clear_ipv6_interface], [get_ip_str]), and [IPAddress::get_ip_str]. *)
Context (normalize_ip : bytes -> bytes) (get_ip_str : ip_address -> bytes).

Definition admit_ip (m : manager) (ip_address : bytes) (now : time) : option (option time * manager) :=
  if bool_decide (ip_address = []) then Some (None, m)
  else
    let ip_address := normalize_ip ip_address in
    '(refused, f) ← admit_event (default new_ip_flood (flood_controls m !! ip_address)) now;
    Some (refused, set_flood_controls m (<[ip_address := f]> (flood_controls m))).

Definition admit_global (m : manager) (now : time) : option (option time * manager) :=
  if is_global_flood_control_enabled m then
    '(refused, f) ← admit_event (global_flood_control m) now; Some (refused, set_global_flood_control m f)
  else Some (None, m).

(** The flood control of both entry points. *)
Definition admit_client (m : manager) (ip_address : bytes) (now : time) : option (option time * manager) :=
  '(refused, m) ← admit_ip m ip_address now;
  match refused with Some _ => Some (refused, m) | None => admit_global m now end.

(** A new client in [clients_], its actor and its entry in [token_to_id_]. *)
Definition create_client (m : manager) (token : bytes) (is_test_dc : bool) (user_id : Z) : option (Z * manager) :=
  let key := token_key token is_test_dc in
  let tqueue_id := get_tqueue_id user_id is_test_dc in
  '(id, c) ← Container.create (clients m) (mk_client_info key tqueue_id) 0;
  let m := emit (set_clients m c) (CreateClient id token is_test_dc tqueue_id) in
  Some (id, set_token_to_id m (<[key := id]> (token_to_id m))).

Definition per_bot_limit (p : parameters) : Z := Z.max 1 (Z.quot (file_stream_max_connections p) 4).

Definition active_streams (m : manager) (key : bytes) : Z := default 0 (active_file_streams_by_token m !! key).

(** The registration of an admitted stream, and the closures to the stream and
    its client. *)
Definition register_stream (m : manager) (stream_id client : Z) (key file_id : bytes) (expected_size : Z) : manager :=
  let m := set_active_file_stream_ids m ({[stream_id]} ∪ active_file_stream_ids m) in
  let m := set_active_file_stream_token m (<[stream_id := key]> (active_file_stream_token m)) in
  let m := set_active_file_streams_by_token m (<[key := active_streams m key + 1]> (active_file_streams_by_token m)) in
  let m := emit m (StreamClient stream_id client) in
  emit m (StartFileStream client stream_id file_id expected_size).

Definition send_file_stream (p : parameters) (workdir_disk_emergency : bool) (m : manager) (stream_id : Z) (token : bytes)
    (is_test_dc : bool) (file_id : bytes) (expected_size : Z) (peer_ip_address : bytes) (now : time) : option manager :=
  let fail code message := Some (emit m (StreamError stream_id (Status code (lit message)))) in
  if workdir_disk_emergency then fail 507 "Telegram workdir disk space exhausted; service is shutting down"
  else if close_flag m then fail 503 "Bot API server is closing"
  else if negb (file_streaming_enabled p) then fail 404 "File streaming endpoint is disabled"
  else if wrap 64 (file_stream_max_connections p) <=? Z.of_nat (base.size (active_file_stream_ids m)) then
    fail 429 "Too many active file streams"
  else if bool_decide (token = []) || is_bad_token token then fail 401 "Invalid token specified"
  else
    match token_user_id token with
    | Err _ => fail 401 "Invalid token specified"
    | Ok user_id =>
      if (user_id <=? 0) || (Z.shiftl 1 54 <=? user_id) then fail 401 "Invalid token specified"
      else if negb (token_range p user_id) then fail 421 "Unallowed token specified"
      else if bool_decide (file_id = []) || (4096 <? len file_id) then fail 400 "Invalid file_id specified"
      else
        let key := token_key token is_test_dc in
        if per_bot_limit p <=? active_streams m key then fail 429 "Too many active file streams for this token"
        else
          match token_to_id m !! key with
          | Some client => Some (register_stream m stream_id client key file_id expected_size)
          | None =>
            '(refused, m) ← admit_client m peer_ip_address now;
            match refused with
            | Some _ => Some (emit m (StreamError stream_id (Status 429 (lit "Too many authentication attempts"))))
            | None =>
              '(client, m) ← create_client m token is_test_dc user_id;
              Some (register_stream m stream_id client key file_id expected_size)
            end
          end
    end.

Definition release_file_stream (m : manager) (stream_id : Z) : manager :=
  let m := set_active_file_stream_ids m (active_file_stream_ids m ∖ {[stream_id]}) in
  match active_file_stream_token m !! stream_id with
  | None => m
  | Some key =>
    let m :=
      match active_file_streams_by_token m !! key with
      | None => m
      | Some n =>
        if n - 1 <=? 0 then set_active_file_streams_by_token m (delete key (active_file_streams_by_token m))
        else set_active_file_streams_by_token m (<[key := n - 1]> (active_file_streams_by_token m))
      end in
    set_active_file_stream_token m (delete stream_id (active_file_stream_token m))
  end.

Definition on_file_stream_timeout (m : manager) (first_byte_timeout : bool) : manager :=
  if first_byte_timeout then set_first_byte_timeouts m (first_byte_timeouts m + 1)
  else set_idle_timeouts m (idle_timeouts m + 1).

(** *** Queries *)

(** What happens to a query when its pointer is reset. *)
Definition deliver (m : manager) (r : option (option Query.query * list Stats.BotStat.event)) : option manager :=
  '(q, ev) ← r; Some (emit m (Delivered q ev)).

Definition drop_query (m : manager) (p : Query.promised) : option manager :=
  deliver m (Query.promise_deleter (Query.has_promise p) (Query.the_query p)).

Definition fail_query (m : manager) (p : Query.promised) (code : Z) (description : string) : option manager :=
  deliver m (Query.fail_query (Query.has_promise p) code (lit description) (Query.the_query p) []).

(** [return query->set_retry_after_error(...)] *)
Definition retry_after (m : manager) (p : Query.promised) (wakeup_at now : time) : option manager :=
  '(q, ev) ← Query.set_retry_after_error (Query.the_query p) (Qfloor (wakeup_at - now) + 1);
  '(d, ev') ← Query.promise_deleter (Query.has_promise p) q;
  Some (emit m (Delivered d (ev ++ ev'))).

(** The webhook that a new client gets back before its first query. *)
Definition restore_webhook (m : manager) (client : Z) (q : Query.query) (now : time) : option manager :=
  if bool_decide (Query.method q = lit "deletewebhook") || bool_decide (Query.method q = lit "setwebhook") then Some m
  else
    let key := Webhook.webhook_key (Query.token q) (Query.is_test_dc q) in
    let webhook_info := default [] (webhook_db m !! key) in
    if bool_decide (webhook_info = []) then Some m
    else
      let '(restore, sh) := Webhook.get_webhook_restore_query now key webhook_info (shared_data m) in
      sh ← sh;
      Some (emit (set_shared_data m sh) (SendQuery client (Query.mk_promised restore false))).

Definition send (pr : parameters) (m : manager) (p : Query.promised) (now : time) : option manager :=
  let q := Query.the_query p in
  if close_flag m then drop_query m p
  else if is_bad_token (Query.token q) then fail_query m p 401 "Unauthorized: invalid token specified"
  else
    match token_user_id (Query.token q) with
    | Err _ => fail_query m p 421 "Misdirected Request: unallowed token specified"
    | Ok user_id =>
      if negb (token_range pr user_id) then fail_query m p 421 "Misdirected Request: unallowed token specified"
      else if (user_id <=? 0) || (Z.shiftl 1 54 <=? user_id) then fail_query m p 401 "Unauthorized: invalid token specified"
      else
        match token_to_id m !! token_key (Query.token q) (Query.is_test_dc q) with
        | Some client => Some (emit m (SendQuery client p))
        | None =>
          if bool_decide (Query.method q = lit "close") then
            fail_query m p 400 "Bad Request: the bot has already been closed"
          else
            ip_address ← Query.get_peer_ip_address get_ip_str q;
            '(refused, m) ← admit_client m ip_address now;
            match refused with
            | Some wakeup_at => retry_after m p wakeup_at now
            | None =>
              '(client, m) ← create_client m (Query.token q) (Query.is_test_dc q) user_id;
              m ← restore_webhook m client q now;
              Some (emit m (SendQuery client p))
            end
        end
    end.
End Ip.

(** *** Start and end *)

(** The part of [start_up] after the databases are open: the stored webhooks are
    restored, those of other servers are dropped. *)
Definition restore_stored (p : parameters) (now : time) (m : manager) (kv : bytes * bytes) : option manager :=
  let '(key, value) := kv in
  if negb (token_range p (Integers.to_unsigned 64 key)) then
    Some (emit (set_webhook_db m (delete key (webhook_db m))) (EraseWebhook key))
  else
    let '(q, sh) := Webhook.get_webhook_restore_query now key value (shared_data m) in
    sh ← sh; Some (emit (set_shared_data m sh) (SendLater (Query.mk_promised q false))).

Fixpoint restore_all (p : parameters) (now : time) (m : manager) (l : list (bytes * bytes)) : option manager :=
  match l with
  | [] => Some m
  | kv :: l => m ← restore_stored p now m kv; restore_all p now m l
  end.

(** [webhooks] is [webhook_db.get_all()], in some order. *)
Definition start_up (p : parameters) (m : manager) (webhooks : list (bytes * bytes)) (now : time) : option manager :=
  m ← restore_all p now (set_next_tqueue_gc_time m (now + 600)%Q) webhooks;
  Some (emit (emit m CreateWatchdog) (SetTimeoutIn 600)).

Definition close_db (m : manager) : manager :=
  if close_db_started m || close_finished m then m
  else emit (emit (set_close_db_started m true) (SetTimeoutIn 10)) CloseDatabases.

Definition finish_close (m : manager) : manager :=
  if close_finished m then m
  else
    let m := emit (set_close_finished m true) CancelTimeout in
    let promises := close_promises m in
    let m := set_close_promises m [] in
    emit (foldl (fun m promise => emit m (Resolve promise)) m promises) Stop.

Definition close (m : manager) (promise : Z) : manager :=
  let m := set_close_promises m (close_promises m ++ [promise]) in
  if close_flag m then m
  else
    let m := emit (emit (set_close_flag m true) DestroyWatchdog) (SetTimeoutIn 30) in
    let ids := ids (clients m) in
    let m := foldl (fun m id => emit m (CloseClient id)) m ids in
    if bool_decide (ids = []) then close_db m else m.

(** A client tells that its session is open or closed ([None] is a failed check). *)
Definition raw_event (m : manager) (id : Z) (opened : bool) : option manager :=
  info ← get (clients m) id;
  if ci_tqueue_id info =? 0 then None
  else
    let value := default 0 (active_client_count m !! ci_tqueue_id info) in
    if opened then Some (set_active_client_count m (<[ci_tqueue_id info := value + 1]> (active_client_count m)))
    else if value <=? 0 then None
    else if value - 1 =? 0 then Some (set_active_client_count m (delete (ci_tqueue_id info) (active_client_count m)))
    else Some (set_active_client_count m (<[ci_tqueue_id info := value - 1]> (active_client_count m))).

(** A client is gone. *)
Definition hangup_shared (m : manager) (id : Z) : option manager :=
  info ← get (clients m) id;
  let m := set_token_to_id m (delete (ci_token info) (token_to_id m)) in
  let m := set_clients m (erase no_client_info (clients m) id) in
  if close_flag m && empty (clients m) then
    if bool_decide (active_client_count m = ∅) then Some (close_db m) else None
  else Some m.

(** [gc] is what [TQueue::run_gc] returns: the events it deleted, and whether it
    has finished. *)
Definition collect_garbage (m : manager) (now : time) (gc : Z * bool) : manager :=
  if qltb (next_tqueue_gc_time m) now then
    let '(deleted_events, is_finished) := gc in
    let m := set_next_tqueue_gc_time m (now + (if is_finished : bool then 60 else 1))%Q in
    let m := set_tqueue_deleted_events m (tqueue_deleted_events m + deleted_events) in
    if last_tqueue_deleted_events m + 10000 <? tqueue_deleted_events m then
      set_last_tqueue_deleted_events m (tqueue_deleted_events m)
    else m
  else m.

Definition timeout_expired (p : parameters) (m : manager) (now : time) (gc : Z * bool) : manager :=
  if close_flag m then finish_close m
  else
    let m := emit (emit m KickWatchdog) (SetTimeoutIn (0.25 / 10)) in
    let m := collect_garbage m now gc in
    if negb (is_global_flood_control_enabled m) && negb (local_mode p) then
      let m := set_is_global_flood_control_enabled m true in
      set_global_flood_control m (add_limit (add_limit (global_flood_control m) 60 1000) (60 * 60) 10000)
    else m.

End Manager.

(** ** Facts *)

Import Containers.ContainerMap Containers.FloodFacts Manager.

(** *** The shape of the operations *)

(** The state of the flood control replaced. *)
Definition with_floods (m : manager) (f : gmap bytes Flood.flood_control) (g : Flood.flood_control) : manager :=
  set_global_flood_control (set_flood_controls m f) g.

Definition emits (m : manager) (es : list effect) : manager := foldl emit m es.

Lemma option_case {A} (o : option A) : (exists a, o = Some a) \/ o = None.
Proof. destruct o; [left; by eexists|by right]. Qed.

(** Runs a bind in the hypothesis [H]. *)
Tactic Notation "bind_as" hyp(H) simple_intropattern(pat) := let E := fresh "E" in
  match type of H with mbind _ ?o = Some _ => destruct o as pat eqn:E; try discriminate H; cbn [mbind option_bind] in H end.

Section Shapes.
Context (normalize_ip : bytes -> bytes) (get_ip_str : ip_address -> bytes).

Lemma admit_client_shape m ip now r m' : admit_client normalize_ip m ip now = Some (r, m') ->
  exists f g, m' = with_floods m f g.
Proof.
  unfold admit_client. intros H. bind_as H [[r1 m1]|].
  assert (exists f, m1 = set_flood_controls m f) as [f ->].
  { unfold admit_ip in E. case_bool_decide; [injection E as <- <-; exists (flood_controls m); by destruct m|].
    bind_as E [[r2 f]|]. injection E as <- <-. by eexists. }
  destruct r1 as [w|].
  - injection H as <- <-. exists f, (global_flood_control m). by destruct m.
  - unfold admit_global in H. case_match; [|injection H as <- <-; exists f, (global_flood_control m); by destruct m].
    bind_as H [[r2 g]|]. injection H as <- <-. by eexists _, _.
Qed.

(** The flood control lets something through or holds it back. *)
Definition admitted (m : manager) (now : time) (f : gmap bytes Flood.flood_control) (g : Flood.flood_control) : Prop :=
  exists ip r, admit_client normalize_ip m ip now = Some (r, with_floods m f g).

(** A client that was just created. *)
Definition created_client (m : manager) (token : bytes) (dc : bool) (user_id client : Z) c : manager :=
  set_token_to_id (emit (set_clients m c) (CreateClient client token dc (get_tqueue_id user_id dc)))
    (<[token_key token dc := client]> (token_to_id m)).

Lemma create_client_shape m token dc user_id client m' : create_client m token dc user_id = Some (client, m') ->
  exists c, Containers.Container.create (clients m) (mk_client_info (token_key token dc) (get_tqueue_id user_id dc)) 0 = Some (client, c)
  /\ m' = created_client m token dc user_id client c.
Proof. unfold create_client. intros H. bind_as H [[id c]|]. injection H as <- <-. by exists c. Qed.

(** Who may become a client. *)
Definition good_token (pr : parameters) (token : bytes) (user_id : Z) : Prop :=
  is_bad_token token = false /\ token_user_id token = Ok user_id /\ 0 < user_id < 2 ^ 54 /\ token_range pr user_id = true.

Lemma deliver_shape m r m' : deliver m r = Some m' -> exists d ev, r = Some (d, ev) /\ m' = emit m (Delivered d ev).
Proof. unfold deliver. intros H. bind_as H [[d ev]|]. injection H as <-. by exists d, ev. Qed.

(** The webhook of a new client may be sent to it before its first query. *)
Lemma restore_webhook_shape m client q now m' : restore_webhook m client q now = Some m' ->
  m' = m \/ exists sh r, m' = emit (set_shared_data m sh) (SendQuery client (Query.mk_promised r false)).
Proof.
  unfold restore_webhook. destruct (_ || _); [intros [= <-]; by left|].
  destruct (bool_decide (_ = [])); [intros [= <-]; by left|].
  destruct (Webhook.get_webhook_restore_query _ _ _ _) as [r sh]. intros H'. bind_as H' [sh'|]. injection H' as <-. right. by eexists _, _.
Qed.

(** A stored webhook comes back. *)
Lemma restore_webhook_stored m client q now m' info : restore_webhook m client q now = Some m' ->
  Query.method q <> lit "deletewebhook" -> Query.method q <> lit "setwebhook" ->
  webhook_db m !! Webhook.webhook_key (Query.token q) (Query.is_test_dc q) = Some info -> info <> [] ->
  exists sh r, m' = emit (set_shared_data m sh) (SendQuery client (Query.mk_promised r false))
    /\ r = fst (Webhook.get_webhook_restore_query now (Webhook.webhook_key (Query.token q) (Query.is_test_dc q)) info (shared_data m)).
Proof.
  intros H H1 H2 Hi Hne. unfold restore_webhook in H. rewrite !bool_decide_false in H by done. rewrite Hi in H. cbn [orb default] in H.
  rewrite bool_decide_false in H by done. change (Datatypes.id info) with info in H.
  destruct (Webhook.get_webhook_restore_query _ _ _ _) as [r s] eqn:Eq. bind_as H [s1|]. injection H as <-. eexists _, r.
  by split.
Qed.

(** What becomes of a query in [send]: it is delivered at once, given to its
    client, or given to a new client. *)
Inductive send_result (pr : parameters) (m : manager) (p : Query.promised) (now : time) : manager -> Prop :=
| SentClosed d ev : close_flag m = true -> Query.promise_deleter (Query.has_promise p) (Query.the_query p) = Some (d, ev) ->
    send_result pr m p now (emit m (Delivered d ev))
| SentFailed d ev code message : code = 400 \/ code = 401 \/ code = 421 -> close_flag m = false ->
    Query.fail_query (Query.has_promise p) code (lit message) (Query.the_query p) [] = Some (d, ev) ->
    send_result pr m p now (emit m (Delivered d ev))
| SentRetry f g wait q ev d ev' : close_flag m = false -> admitted m now f g -> Query.set_retry_after_error (Query.the_query p) wait = Some (q, ev) ->
    Query.promise_deleter (Query.has_promise p) q = Some (d, ev') ->
    send_result pr m p now (emit (with_floods m f g) (Delivered d (ev ++ ev')))
| SentClient client : close_flag m = false ->
    token_to_id m !! token_key (Query.token (Query.the_query p)) (Query.is_test_dc (Query.the_query p)) = Some client ->
    send_result pr m p now (emit m (SendQuery client p))
| SentNew f g c client user_id m1 : close_flag m = false -> admitted m now f g -> good_token pr (Query.token (Query.the_query p)) user_id ->
    let key := token_key (Query.token (Query.the_query p)) (Query.is_test_dc (Query.the_query p)) in
    token_to_id m !! key = None ->
    Containers.Container.create (clients m) (mk_client_info key (get_tqueue_id user_id (Query.is_test_dc (Query.the_query p)))) 0
      = Some (client, c) ->
    let m0 := created_client (with_floods m f g) (Query.token (Query.the_query p)) (Query.is_test_dc (Query.the_query p)) user_id client c in
    restore_webhook m0 client (Query.the_query p) now = Some m1 ->
    send_result pr m p now (emit m1 (SendQuery client p)).

Lemma send_shape pr m p now m' : send normalize_ip get_ip_str pr m p now = Some m' -> send_result pr m p now m'.
Proof.
  unfold send. destruct (close_flag m) eqn:Hc.
  { intros (d & ev & Hd & ->)%deliver_shape. by apply SentClosed. }
  assert (Hfail : forall code message m', code = 400 \/ code = 401 \/ code = 421 -> fail_query m p code message = Some m' -> send_result pr m p now m').
  { intros code message m2 H (d & ev & Hd & ->)%deliver_shape. by eapply SentFailed. }
  destruct (is_bad_token _) eqn:Hb; [apply Hfail; auto|].
  destruct (token_user_id _) as [user_id|e] eqn:Hu; [|apply Hfail; auto].
  destruct (token_range pr user_id) eqn:Hr; [|apply Hfail; auto]. cbn [negb].
  destruct (_ || _) eqn:Hl; [apply Hfail; auto|]. apply orb_false_iff in Hl as [?%Z.leb_gt ?%Z.leb_gt].
  destruct (token_to_id m !! _) as [client|] eqn:Ht; [intros [= <-]; by apply SentClient|].
  case_bool_decide; [apply Hfail; auto|]. intros Hs. bind_as Hs [ip|]. bind_as Hs [[[w|] m1]|].
  - pose proof E0 as Hadm. apply admit_client_shape in E0 as (f & g & ->). unfold retry_after in Hs. bind_as Hs [[q ev]|]. bind_as Hs [[d ev']|].
    injection Hs as <-. eapply SentRetry; [done|by eexists _, _|done..].
  - pose proof E0 as Hadm. apply admit_client_shape in E0 as (f & g & ->). bind_as Hs [[client m2]|]. bind_as Hs [m3|]. injection Hs as <-.
    apply create_client_shape in E0 as (c & Hcr & ->). eapply SentNew; [done|by eexists _, _| |done|exact Hcr|done].
    split; [done|]. split; [done|]. split; [|done]. split; [done|]. by change (2 ^ 54) with (Z.shiftl 1 54).
Qed.

(** What becomes of a file stream in [send_file_stream]. *)
Inductive stream_result (pr : parameters) (m : manager) (stream_id : Z) (token : bytes) (dc : bool) (file_id : bytes) (expected_size : Z) (now : time)
  : manager -> Prop :=
| StreamFailed code message : code ∈ [400; 401; 404; 421; 429; 503; 507] ->
    stream_result pr m stream_id token dc file_id expected_size now (emit m (StreamError stream_id (Status code (lit message))))
| StreamFlood f g : admitted m now f g ->
    stream_result pr m stream_id token dc file_id expected_size now 
      (emit (with_floods m f g) (StreamError stream_id (Status 429 (lit "Too many authentication attempts"))))
| StreamKnown client : close_flag m = false ->
    Z.of_nat (base.size (active_file_stream_ids m)) < wrap 64 (file_stream_max_connections pr) ->
    active_streams m (token_key token dc) < per_bot_limit pr -> token_to_id m !! token_key token dc = Some client ->
    stream_result pr m stream_id token dc file_id expected_size now (register_stream m stream_id client (token_key token dc) file_id expected_size)
| StreamNew f g c client user_id : close_flag m = false -> admitted m now f g ->
    Z.of_nat (base.size (active_file_stream_ids m)) < wrap 64 (file_stream_max_connections pr) ->
    active_streams m (token_key token dc) < per_bot_limit pr -> good_token pr token user_id ->
    token_to_id m !! token_key token dc = None ->
    Containers.Container.create (clients m) (mk_client_info (token_key token dc) (get_tqueue_id user_id dc)) 0 = Some (client, c) ->
    stream_result pr m stream_id token dc file_id expected_size now
      (register_stream (created_client (with_floods m f g) token dc user_id client c) stream_id client (token_key token dc) file_id expected_size).

Lemma send_file_stream_shape pr emergency m stream_id token dc file_id expected_size ip now m' :
  send_file_stream normalize_ip pr emergency m stream_id token dc file_id expected_size ip now = Some m' ->
  stream_result pr m stream_id token dc file_id expected_size now m'.
Proof.
  assert (Hfail : forall code message m', code ∈ [400; 401; 404; 421; 429; 503; 507] ->
    Some (emit m (StreamError stream_id (Status code (lit message)))) = Some m' -> stream_result pr m stream_id token dc file_id expected_size now m').
  { intros code message m2 H [= <-]. by apply StreamFailed. }
  unfold send_file_stream. destruct emergency; [apply Hfail; set_solver|].
  destruct (close_flag m) eqn:Hc; [apply Hfail; set_solver|]. destruct (file_streaming_enabled pr); [|apply Hfail; set_solver].
  cbn [negb]. destruct (_ <=? _) eqn:Hm; [apply Hfail; set_solver|]. apply Z.leb_gt in Hm.
  destruct (bool_decide (token = []) || is_bad_token token) eqn:Hb; [apply Hfail; set_solver|]. apply orb_false_iff in Hb as [_ Hb].
  destruct (token_user_id token) as [user_id|e] eqn:Hu; [|apply Hfail; set_solver].
  destruct ((user_id <=? 0) || _) eqn:Hl; [apply Hfail; set_solver|]. apply orb_false_iff in Hl as [?%Z.leb_gt ?%Z.leb_gt].
  destruct (token_range pr user_id) eqn:Hr; [|apply Hfail; set_solver]. cbn [negb].
  destruct (_ || _); [apply Hfail; set_solver|]. destruct (per_bot_limit pr <=? _) eqn:Hp; [apply Hfail; set_solver|]. apply Z.leb_gt in Hp.
  destruct (token_to_id m !! _) as [client|] eqn:Ht; [intros [= <-]; by apply StreamKnown|].
  intros Hs. bind_as Hs [[[w|] m1]|].
  - injection Hs as <-. pose proof E as Hadm. apply admit_client_shape in E as (f & g & ->). apply StreamFlood. by eexists _, _.
  - pose proof E as Hadm. apply admit_client_shape in E as (f & g & ->). bind_as Hs [[client m2]|]. injection Hs as <-.
    apply create_client_shape in E as (c & Hcr & ->). eapply StreamNew; [done|by eexists _, _|done..].
Qed.
End Shapes.

(** *** The actor in its environment *)

(** The closures the manager receives, [now] and what its environment tells it. *)
Inductive event :=
| Send (p : Query.promised) (now : time)
| SendFileStream (emergency : bool) (stream_id : Z) (token : bytes) (is_test_dc : bool) (file_id : bytes) (expected_size : Z)
    (peer_ip_address : bytes) (now : time)
| ReleaseFileStream (stream_id : Z)
| OnFileStreamTimeout (first_byte_timeout : bool)
| RawEvent (id : Z) (opened : bool)
| HangupShared (id : Z)
| Close (promise : Z)
| FinishClose
| TimeoutExpired (now : time) (gc : Z * bool).

Section Run.
Context (normalize_ip : bytes -> bytes) (get_ip_str : ip_address -> bytes) (pr : parameters).

Definition handle (m : manager) (ev : event) : option manager :=
  match ev with
  | Send p now => send normalize_ip get_ip_str pr m p now
  | SendFileStream emergency id token dc file_id size ip now => send_file_stream normalize_ip pr emergency m id token dc file_id size ip now
  | ReleaseFileStream id => Some (release_file_stream m id)
  | OnFileStreamTimeout b => Some (on_file_stream_timeout m b)
  | RawEvent id opened => raw_event m id opened
  | HangupShared id => hangup_shared m id
  | Close promise => Some (close m promise)
  | FinishClose => Some (finish_close m)
  | TimeoutExpired now gc => Some (timeout_expired pr m now gc)
  end.

(** The clients created so far, as the manager's effects name them. *)
Definition client_of (e : effect) : option Z := match e with CreateClient id _ _ _ => Some id | _ => None end.
Definition created (m : manager) : gset Z := list_to_set (omap client_of (out m)).

Definition time_of (ev : event) : option time :=
  match ev with Send _ now | SendFileStream _ _ _ _ _ _ _ now | TimeoutExpired now _ => Some now | _ => None end.

(** What its environment keeps to: time does not go back; a stream asks once; only
    a client that was created tells of itself; the databases are closed when it was
    asked to close them; nothing comes after it stopped. *)
Definition allowed (m : manager) (asked : gset Z) (last : time) (ev : event) : Prop :=
  Stop ∉ out m /\ (last <= default last (time_of ev))%Q
  /\ match ev with
     | SendFileStream _ id _ _ _ _ _ _ => id ∉ asked
     | RawEvent id _ | HangupShared id => id ∈ created m
     | FinishClose => CloseDatabases ∈ out m
     | _ => True
     end.

Definition asks (ev : event) (asked : gset Z) : gset Z :=
  match ev with SendFileStream _ id _ _ _ _ _ _ => {[id]} ∪ asked | _ => asked end.

(** The states reached, the streams that asked, the time, and the events in their
    order. *)
Inductive reached (db : gmap bytes bytes) (sh : Query.shared) : manager -> gset Z -> time -> list event -> Prop :=
| reached_start webhooks now m : (0 <= now)%Q -> start_up pr (create db sh) webhooks now = Some m -> reached db sh m ∅ now []
| reached_step m asked last evs ev m' : reached db sh m asked last evs -> allowed m asked last ev -> handle m ev = Some m' ->
    reached db sh m' (asks ev asked) (default last (time_of ev)) (evs ++ [ev]).

End Run.

Lemma emit_all {A} (f : A -> effect) (l : list A) m : foldl (fun m x => emit m (f x)) m l = set_out m (out m ++ (f <$> l)).
Proof.
  revert m. induction l as [|x l IH]; intros m; cbn [foldl]; [rewrite app_nil_r; by destruct m|].
  rewrite IH. unfold emit. cbn [out set_out fmap list_fmap]. by rewrite <- app_assoc.
Qed.

(** *** The quotas of file streams *)

Definition streams (m : manager) : gset Z * gmap bytes Z * gmap Z bytes :=
  (active_file_stream_ids m, active_file_streams_by_token m, active_file_stream_token m).

(** The streams of a token. *)
Definition streams_of (key : bytes) (tokens : gmap Z bytes) : gmap Z bytes := base.filter (fun kv => snd kv = key) tokens.

Record quota (pr : parameters) (asked : gset Z) (s : gset Z * gmap bytes Z * gmap Z bytes) : Prop := {
  quota_ids : dom (snd s) = fst (fst s);
  quota_asked : fst (fst s) ⊆ asked;
  quota_count key : default 0 (snd (fst s) !! key) = Z.of_nat (base.size (streams_of key (snd s)));
  quota_positive key n : snd (fst s) !! key = Some n -> 0 < n;
  quota_all : Z.of_nat (base.size (fst (fst s))) <= wrap 64 (file_stream_max_connections pr);
  quota_each key : default 0 (snd (fst s) !! key) <= per_bot_limit pr }.

Lemma streams_of_insert id key key' tokens : tokens !! id = None ->
  Z.of_nat (base.size (streams_of key' (<[id := key]> tokens)))
  = Z.of_nat (base.size (streams_of key' tokens)) + if decide (key = key') then 1 else 0.
Proof.
  intros H. unfold streams_of. case_decide as E.
  - rewrite map_filter_insert_True by done. rewrite map_size_insert_None; [lia|]. apply map_lookup_filter_None. by left.
  - rewrite map_filter_insert_False, delete_id by done. lia.
Qed.

Lemma streams_of_delete id key key' tokens : tokens !! id = Some key ->
  Z.of_nat (base.size (streams_of key' (delete id tokens)))
  = Z.of_nat (base.size (streams_of key' tokens)) - if decide (key = key') then 1 else 0.
Proof.
  intros H. rewrite <- (insert_delete_id tokens id key H) at 2. rewrite streams_of_insert by apply lookup_delete_eq. lia.
Qed.

Lemma quota_register pr asked m id client key file_id size : quota pr asked (streams m) -> id ∉ asked ->
  Z.of_nat (base.size (active_file_stream_ids m)) < wrap 64 (file_stream_max_connections pr) ->
  active_streams m key < per_bot_limit pr -> quota pr ({[id]} ∪ asked) (streams (register_stream m id client key file_id size)).
Proof.
  intros [H1 H2 H3 H4 H5 H6] Hid Hm Hk. change (streams (register_stream m id client key file_id size)) with
    ({[id]} ∪ active_file_stream_ids m, <[key := active_streams m key + 1]> (active_file_streams_by_token m),
     <[id := key]> (active_file_stream_token m)).
  unfold active_streams in *. cbn [streams fst snd] in *.
  assert (Hn : active_file_stream_token m !! id = None) by (apply not_elem_of_dom; set_solver).
  assert (H0 : 0 <= default 0 (active_file_streams_by_token m !! key)) by (rewrite H3; lia).
  split; cbn [fst snd].
  - rewrite dom_insert_L. by rewrite H1.
  - set_solver.
  - intros key'. rewrite streams_of_insert, <- H3 by done. case_decide as E; [subst; by rewrite lookup_insert_eq|].
    rewrite lookup_insert_ne by done. lia.
  - intros key' n. destruct (decide (key' = key)) as [->|]; [rewrite lookup_insert_eq; intros [= <-]; lia|].
    rewrite lookup_insert_ne by done. apply H4.
  - rewrite size_union, size_singleton by set_solver. lia.
  - intros key'. destruct (decide (key' = key)) as [->|]; [rewrite lookup_insert_eq; cbn; lia|].
    rewrite lookup_insert_ne by done. apply H6.
Qed.

Lemma quota_release pr asked m id : quota pr asked (streams m) ->
  quota pr asked (streams (release_file_stream m id))
  /\ id ∉ active_file_stream_ids (release_file_stream m id)
  /\ (id ∈ active_file_stream_ids m -> base.size (active_file_stream_ids m) = S (base.size (active_file_stream_ids (release_file_stream m id)))).
Proof.
  intros [H1 H2 H3 H4 H5 H6]. cbn [streams fst snd] in *. unfold release_file_stream. cbn [active_file_stream_token set_active_file_stream_ids].
  assert (Hsz : id ∈ active_file_stream_ids m -> base.size (active_file_stream_ids m) = S (base.size (active_file_stream_ids m ∖ {[id]}))).
  { intros Hin. rewrite (union_difference_L {[id]} (active_file_stream_ids m)) at 1 by set_solver.
    by rewrite size_union, size_singleton by set_solver. }
  assert (Hle : (base.size (active_file_stream_ids m ∖ {[id]}) <= base.size (active_file_stream_ids m))%nat) by (apply subseteq_size; set_solver).
  destruct (active_file_stream_token m !! id) as [key|] eqn:Et.
  - assert (Hc : default 0 (active_file_streams_by_token m !! key) = Z.of_nat (base.size (streams_of key (delete id (active_file_stream_token m)))) + 1).
    { rewrite (streams_of_delete id key key), <- H3, decide_True by done. lia. }
    cbn [active_file_streams_by_token set_active_file_stream_ids].
    destruct (active_file_streams_by_token m !! key) as [n|] eqn:En; [|cbn in Hc; lia]. cbn [default Datatypes.id] in Hc.
    assert (Hs : forall bt, (forall key', default 0 (bt !! key') = default 0 (active_file_streams_by_token m !! key') - if decide (key = key') then 1 else 0) ->
      (forall key' k, bt !! key' = Some k -> 0 < k) ->
      quota pr asked (active_file_stream_ids m ∖ {[id]}, bt, delete id (active_file_stream_token m))).
    { intros bt Hb Hp. split; cbn [fst snd].
      - rewrite dom_delete_L. by rewrite H1.
      - set_solver.
      - intros key'. by rewrite Hb, H3, (streams_of_delete id key key').
      - done.
      - lia.
      - intros key'. rewrite Hb. specialize (H6 key'). case_decide; lia. }
    split; [|split; [|]].
    + destruct (n - 1 <=? 0) eqn:E1; [apply Z.leb_le in E1; apply (Hs (delete key (active_file_streams_by_token m)))
        |apply Z.leb_gt in E1; apply (Hs (<[key := n - 1]> (active_file_streams_by_token m)))]; intros key'.
      * case_decide as E; [subst; rewrite lookup_delete_eq, En; cbn [default Datatypes.id]; specialize (H4 _ _ En); lia|].
        rewrite lookup_delete_ne by done. lia.
      * intros k [_ Hk]%lookup_delete_Some. by eapply H4.
      * case_decide as E; [subst; rewrite lookup_insert_eq, En; cbn; lia|]. rewrite lookup_insert_ne by done. lia.
      * intros k. destruct (decide (key' = key)) as [->|]; [rewrite lookup_insert_eq; intros [= <-]; lia|].
        rewrite lookup_insert_ne by done. apply H4.
    + destruct (n - 1 <=? 0); cbn; set_solver.
    + destruct (n - 1 <=? 0); exact Hsz.
  - apply not_elem_of_dom in Et. rewrite H1 in Et. assert (active_file_stream_ids m ∖ {[id]} = active_file_stream_ids m) as E by set_solver.
    split; [|split; [cbn; set_solver|exact Hsz]].
    change (streams (set_active_file_stream_ids m (active_file_stream_ids m ∖ {[id]}))) with
      (active_file_stream_ids m ∖ {[id]}, active_file_streams_by_token m, active_file_stream_token m). rewrite E. by split.
Qed.

Section Invariants.
Context (pr : parameters).

(** The start restores webhooks only. *)
Lemma restore_all_shape l now m m' : restore_all pr now m l = Some m' ->
  exists webhooks sh es, m' = set_out (set_shared_data (set_webhook_db m webhooks) sh) (out m ++ es)
  /\ Forall (fun e => match e with EraseWebhook _ | SendLater _ => True | _ => False end) es.
Proof.
  revert m. induction l as [|kv l IH]; intros m; cbn [restore_all].
  - intros [= <-]. exists (webhook_db m), (shared_data m), []. rewrite app_nil_r. by destruct m.
  - destruct kv as [key value]. unfold restore_stored. case_match.
    + cbn [mbind option_bind]. intros (w & s & es & -> & H')%IH. exists w, s, (EraseWebhook key :: es).
      split; [|by constructor]. unfold emit. cbn [out set_out]. by rewrite <- app_assoc.
    + destruct (Webhook.get_webhook_restore_query _ _ _ _) as [q s]. intros Hs. bind_as Hs [m1|]. bind_as E [s1|].
      injection E as <-. apply IH in Hs as (w & s' & es & -> & H').
      eexists w, s', (SendLater (Query.mk_promised q false) :: es). split; [|by constructor]. unfold emit. cbn [out set_out].
      by rewrite <- app_assoc.
Qed.

Lemma start_up_shape l now m m' : start_up pr m l now = Some m' ->
  exists webhooks sh es gc, m' = set_out (set_shared_data (set_webhook_db (set_next_tqueue_gc_time m gc) webhooks) sh) (out m ++ es)
  /\ Forall (fun e => match e with EraseWebhook _ | SendLater _ | CreateWatchdog | SetTimeoutIn _ => True | _ => False end) es.
Proof.
  unfold start_up. intros Hs. bind_as Hs [m1|]. injection Hs as <-. apply restore_all_shape in E as (w & s & es & -> & H).
  exists w, s, (es ++ [CreateWatchdog; SetTimeoutIn 600]), (now + 600)%Q. split.
  - unfold emit. cbn [out set_out set_next_tqueue_gc_time]. by rewrite <- !app_assoc.
  - apply Forall_app. split; [|by repeat constructor]. eapply Forall_impl; [exact H|]. by intros [].
Qed.

(** Closing and time change neither clients nor streams. *)
Definition same_actors (m m' : manager) : Prop :=
  clients m' = clients m /\ token_to_id m' = token_to_id m /\ streams m' = streams m /\ created m' = created m.

Lemma created_emits m l : Forall (fun e => client_of e = None) l -> created (set_out m (out m ++ l)) = created m.
Proof.
  intros H. unfold created. cbn [out set_out]. rewrite omap_app. replace (omap client_of l) with (@nil Z); [by rewrite app_nil_r|].
  symmetry. induction H as [|e l He H IH]; [done|]. cbn. by rewrite He.
Qed.

Lemma same_emits m l : Forall (fun e => client_of e = None) l -> same_actors m (set_out m (out m ++ l)).
Proof. intros H. split; [done|]. split; [done|]. split; [done|]. by apply created_emits. Qed.

Lemma same_emit m e : client_of e = None -> same_actors m (emit m e).
Proof. intros. apply same_emits. by constructor. Qed.

#[export] Instance same_actors_preorder : PreOrder same_actors.
Proof.
  split; [by split|]. intros m1 m2 m3 (? & ? & ? & ?) (? & ? & ? & ?). unfold same_actors. intuition congruence.
Qed.

Lemma same_close_db m : same_actors m (close_db m).
Proof. unfold close_db. case_match; [done|]. by do 2 (etrans; [|by apply same_emit]). Qed.

Lemma same_finish_close m : same_actors m (finish_close m).
Proof.
  unfold finish_close. case_match; [done|]. rewrite (emit_all Resolve). etrans; [|by apply same_emit].
  etrans; [|apply same_emits, Forall_fmap, Forall_true; by intros]. by apply (same_emit (set_close_finished m true) CancelTimeout).
Qed.

Lemma same_close m p : same_actors m (close m p).
Proof.
  unfold close. case_match; [done|]. rewrite (emit_all CloseClient).
  set (m1 := set_out _ _). assert (same_actors m m1) as H1.
  { etrans; [|apply same_emits, Forall_fmap, Forall_true; by intros].
    by do 2 (etrans; [|by apply same_emit]). }
  case_match; [|done]. etrans; [exact H1|]. apply same_close_db.
Qed.

Lemma same_timeout m now gc : same_actors m (timeout_expired pr m now gc).
Proof.
  unfold timeout_expired. case_match; [apply same_finish_close|]. set (m1 := emit (emit m KickWatchdog) _).
  assert (same_actors m m1) as H1 by by do 2 (etrans; [|by apply same_emit]).
  assert (same_actors m (collect_garbage m1 now gc)) as H2.
  { unfold collect_garbage. destruct gc as [d f]. repeat case_match; try done; destruct H1 as (? & ? & ? & ?); by split. }
  case_match; [|done]. by etrans.
Qed.

Lemma same_release m id : created (release_file_stream m id) = created m.
Proof. unfold release_file_stream. by repeat case_match. Qed.

Lemma same_on_timeout m b : created (on_file_stream_timeout m b) = created m.
Proof. unfold on_file_stream_timeout. by case_match. Qed.

Lemma same_raw m id opened m' : raw_event m id opened = Some m' -> same_actors m m'.
Proof.
  unfold raw_event. intros Hs. bind_as Hs [info|]. repeat case_match; try discriminate; injection Hs as <-; by split.
Qed.

Lemma hangup_shape m id m' : hangup_shared m id = Some m' ->
  exists info, Containers.Container.get (clients m) id = Some info
  /\ let m1 := set_clients (set_token_to_id m (delete (ci_token info) (token_to_id m)))
                 (Containers.Container.erase no_client_info (clients m) id) in
     m' = (if close_flag m && Containers.Container.empty (clients m1) then close_db m1 else m1).
Proof.
  unfold hangup_shared. intros Hs. bind_as Hs [info|]. exists info. split; [done|].
  cbn [close_flag set_clients set_token_to_id clients token_to_id] in *.
  destruct (close_flag m && _); [case_bool_decide; [|discriminate]|]; by injection Hs as <-.
Qed.

Lemma created_hangup m id m' : hangup_shared m id = Some m' -> created m' = created m.
Proof.
  intros (info & _ & ->)%hangup_shape. cbn zeta. destruct (_ && _); [|done]. set (m1 := set_clients _ _).
  by destruct (same_close_db m1) as (_ & _ & _ & ->).
Qed.

(** *** Clients *)

(** The manager's view of its clients: a map from the identifiers in use, whose
    keys [token_to_id_] inverts. *)
Definition client_map (m : manager) (live : gmap Z client_info) : Prop :=
  (forall key id, token_to_id m !! key = Some id <-> exists info, live !! id = Some info /\ ci_token info = key)
  /\ (forall id info, live !! id = Some info -> exists token dc user_id,
       info = mk_client_info (token_key token dc) (get_tqueue_id user_id dc) /\ good_token pr token user_id).

Definition clients_ok (m : manager) (live : gmap Z client_info) (n : Z) : Prop :=
  holds (clients m) (created m) live n /\ client_map m live.

Lemma clients_same m m' live n : same_actors m m' -> clients_ok m live n -> clients_ok m' live n.
Proof. intros (H1 & H2 & _ & H4) [H [Hk Hi]]. split; [by rewrite H1, H4|]. split; [by rewrite H2|done]. Qed.

Lemma clients_create m live n f g token dc user_id client c : clients_ok m live n -> good_token pr token user_id ->
  token_to_id m !! token_key token dc = None ->
  Containers.Container.create (clients m) (mk_client_info (token_key token dc) (get_tqueue_id user_id dc)) 0 = Some (client, c) ->
  client ∉ created m
  /\ clients_ok (created_client (with_floods m f g) token dc user_id client c)
      (<[client := mk_client_info (token_key token dc) (get_tqueue_id user_id dc)]> live) (n + 1).
Proof.
  intros [H [Hk Hi]] Hg Hn Hc. destruct (holds_create _ _ _ _ _ 0 _ _ H ltac:(lia) Hc) as [Hid H']. split; [done|].
  set (info := mk_client_info _ _) in *. split; [|split].
  - assert (created (created_client (with_floods m f g) token dc user_id client c) = {[client]} ∪ created m) as ->; [|done].
    unfold created. cbn. rewrite omap_app, list_to_set_app_L. cbn. set_solver.
  - intros key id. cbn [created_client token_to_id set_token_to_id emit set_out set_clients with_floods set_global_flood_control set_flood_controls].
    assert (Hlc : live !! client = None).
    { destruct (live !! client) eqn:E; [|done]. exfalso. by eapply Hid, holds_given. }
    destruct (decide (key = token_key token dc)) as [->|Hne].
    + rewrite lookup_insert_eq. split.
      * intros [= <-]. exists info. by rewrite lookup_insert_eq.
      * intros (i & Hl & Ek). destruct (decide (id = client)) as [->|Hne']; [done|]. rewrite lookup_insert_ne in Hl by done.
        assert (token_to_id m !! token_key token dc = Some id) as Hx by (apply Hk; by exists i). by rewrite Hn in Hx.
    + rewrite lookup_insert_ne by done. rewrite Hk. split; intros (i & Hl & Ek); exists i.
      * rewrite lookup_insert_ne; [done|]. intros ->. by rewrite Hlc in Hl.
      * destruct (decide (id = client)) as [->|Hne']; [|by rewrite lookup_insert_ne in Hl].
        rewrite lookup_insert_eq in Hl. injection Hl as <-. by rewrite <- Ek in Hne.
  - intros id i. destruct (decide (id = client)) as [->|Hne]; [|rewrite lookup_insert_ne by done; apply Hi].
    rewrite lookup_insert_eq. intros [= <-]. by exists token, dc, user_id.
Qed.

Lemma clients_hangup m live n id m' : clients_ok m live n -> id ∈ created m -> hangup_shared m id = Some m' ->
  clients_ok m' (delete id live) (n + 1).
Proof.
  intros [H [Hk Hi]] Hid (info & Hg & Hm)%hangup_shape.
  assert (Hl : live !! id = Some info) by by rewrite <- (holds_get _ _ _ _ _ H Hid).
  set (m1 := set_clients _ _) in Hm.
  assert (clients_ok m1 (delete id live) (n + 1)) as Hok.
  { split; [by apply holds_erase|]. split.
    - intros key i. subst m1. cbn [token_to_id set_clients set_token_to_id]. rewrite lookup_delete_Some, Hk. split.
      + intros [Hne (inf & Hl' & Ek)]. exists inf. split; [|done]. apply lookup_delete_Some. split; [|done].
        intros ->. rewrite Hl in Hl'. injection Hl' as <-. done.
      + intros (inf & [Hne Hl']%lookup_delete_Some & Ek). split; [|by exists inf]. intros <-.
        assert (token_to_id m !! ci_token info = Some id) as E1 by (apply Hk; by exists info).
        assert (token_to_id m !! ci_token info = Some i) as E2 by (apply Hk; by exists inf). congruence.
    - intros i inf [_ Hl']%lookup_delete_Some. by eapply Hi. }
  rewrite Hm. case_match; [|done]. eapply clients_same; [apply same_close_db|done].
Qed.

Lemma clients_more m live n k : clients_ok m live n -> n <= k -> clients_ok m live k.
Proof.
  intros [(tr & Htr & Hn & Hg & Hl) Hm] Hk. split; [|done]. exists tr. split; [|split; [lia|done]].
  destruct Htr as [? ? ? ? ? ? H7]. split; try done. intros pos s Hs. specialize (H7 pos s Hs). lia.
Qed.

Lemma same_send normalize_ip p m now m' : send_result normalize_ip pr m p now m' ->
  same_actors m m' \/ exists f g token dc user_id client c, good_token pr token user_id /\ token_to_id m !! token_key token dc = None
    /\ close_flag m = false
    /\ Containers.Container.create (clients m) (mk_client_info (token_key token dc) (get_tqueue_id user_id dc)) 0 = Some (client, c)
    /\ same_actors (created_client (with_floods m f g) token dc user_id client c) m'.
Proof.
  intros [| | | |f g c client user_id m1 Hc _ Hg key Hn Hcr m0 Hm1%restore_webhook_shape].
  - left. by apply same_emit.
  - left. by apply same_emit.
  - left. by apply (same_emit (with_floods m f g)).
  - left. by apply same_emit.
  - right. exists f, g, (Query.token (Query.the_query p)), (Query.is_test_dc (Query.the_query p)), user_id, client, c.
    split; [done|]. split; [done|]. split; [done|]. split; [done|]. etrans; [|by apply same_emit].
    destruct Hm1 as [->|(s & q & ->)]; [done|]. subst m0.
    by apply (same_emit (set_shared_data (created_client (with_floods m f g) _ _ user_id client c) s)).
Qed.

(** What [register_stream] leaves alone. *)
Lemma clients_register m live n id client key file_id size : clients_ok m live n ->
  clients_ok (register_stream m id client key file_id size) live n.
Proof.
  intros [H Hm]. split; [|done]. assert (created (register_stream m id client key file_id size) = created m) as ->; [|done].
  unfold created. cbn. by rewrite !omap_app, !app_nil_r.
Qed.

End Invariants.

(** *** Flood control *)

Lemma flood_ok_later f last now : flood_ok f last -> (last <= now)%Q -> flood_ok f now.
Proof.
  intros [H0 H] Hl. split; [lra|]. eapply Forall_impl; [exact H|]. intros b (H1 & H2 & H3). split; [done|]. split; [done|].
  destruct H3; [left; lra|by right].
Qed.

Record floods_ok (m : manager) (last : time) : Prop := {
  floods_ip ip f : flood_controls m !! ip = Some f -> flood_ok f last;
  floods_global : flood_ok (global_flood_control m) last;
  floods_disabled : is_global_flood_control_enabled m = false -> global_flood_control m = Flood.new_flood }.

Lemma floods_later m last now : floods_ok m last -> (last <= now)%Q -> floods_ok m now.
Proof. intros [H1 H2 H3] Hl. split; [|by eapply flood_ok_later|done]. intros ip f Hf. eapply flood_ok_later; [by eapply H1|done]. Qed.

Lemma limits_ok last limits : (0 <= last)%Q -> Forall is_limit limits -> flood_ok (with_limits limits) last.
Proof. intros H0 H. eapply flood_ok_later; [by apply with_limits_ok|done]. Qed.

Lemma admit_event_total f last now : flood_ok f last -> (last <= now)%Q ->
  exists r f', admit_event f now = Some (r, f') /\ flood_ok f' now.
Proof.
  intros H Hl. unfold admit_event. destruct (qltb_spec now (Flood.get_wakeup_at f)) as [Hw|Hw].
  - eexists _, f. split; [done|]. by eapply flood_ok_later.
  - destruct (add_event_total f last now H Hl) as (f' & -> & Hf); [lra|]. cbn [mbind option_bind]. by eexists _, f'.
Qed.

(** The flood control never fails a check, whoever asks. *)
Lemma admit_client_total normalize_ip m last ip now : floods_ok m last -> (last <= now)%Q ->
  exists r m', admit_client normalize_ip m ip now = Some (r, m') /\ floods_ok m' now.
Proof.
  intros H Hl. assert (0 <= last)%Q as H0 by (destruct (floods_global m last H); lra). unfold admit_client.
  assert (exists r1 m1, admit_ip normalize_ip m ip now = Some (r1, m1) /\ floods_ok m1 now) as (r1 & m1 & -> & H1).
  { unfold admit_ip. case_bool_decide; [eexists _, m; split; [done|by eapply floods_later]|].
    set (f := default _ _). assert (flood_ok f last) as Hf.
    { subst f. destruct (flood_controls m !! normalize_ip ip) as [f|] eqn:E; [by eapply floods_ip|].
      apply (limits_ok last [(60, 20); (60 * 60, 600)]%Q); [done|]. repeat constructor; cbn; lra. }
    destruct (admit_event_total f last now Hf Hl) as (r & f' & -> & Hf'). cbn [mbind option_bind]. eexists _, _. split; [done|].
    destruct (floods_later m last now H Hl) as [G1 G2 G3]. split; cbn; [|done..]. intros ip' f0.
    destruct (decide (ip' = normalize_ip ip)) as [->|]; [rewrite lookup_insert_eq; by intros [= <-]|].
    rewrite lookup_insert_ne by done. apply G1. }
  cbn [mbind option_bind]. destruct r1 as [w|]; [by eexists _, m1|]. unfold admit_global.
  destruct (is_global_flood_control_enabled m1) eqn:Ee; [|by eexists _, m1]. destruct H1 as [G1 G2 G3].
  destruct (admit_event_total _ _ now G2 ltac:(lra)) as (r & g & -> & Hg). cbn [mbind option_bind]. eexists _, _. split; [done|].
  split; [done|done|]. cbn. congruence.
Qed.

Lemma floods_admitted normalize_ip m last now f g : floods_ok m last -> (last <= now)%Q -> admitted normalize_ip m now f g ->
  floods_ok (with_floods m f g) now.
Proof.
  intros H Hl (ip & r & E). destruct (admit_client_total normalize_ip m last ip now H Hl) as (r' & m' & E' & H').
  rewrite E in E'. by injection E' as <- <-.
Qed.

Section Reached.
Context (normalize_ip : bytes -> bytes) (get_ip_str : ip_address -> bytes) (pr : parameters).
Context (db : gmap bytes bytes) (sh : Query.shared).
#[local] Notation handle := (handle normalize_ip get_ip_str pr).
#[local] Notation reached := (reached normalize_ip get_ip_str pr db sh).
#[local] Notation clients_ok := (clients_ok pr).

Lemma clients_step m asked last ev m' live n : clients_ok m live n -> allowed m asked last ev -> handle m ev = Some m' ->
  exists live', clients_ok m' live' (n + 1).
Proof.
  intros H (_ & _ & Ha) Hh. pose proof (clients_more _ _ _ _ (n + 1) H ltac:(lia)) as H'.
  destruct ev; cbn [handle] in Hh.
  - apply send_shape, same_send in Hh as [Hs|(f & g & token & dc & user_id & client & c & Hg & Hn & _ & Hc & Hs)];
      [exists live; by eapply clients_same|].
    destruct (clients_create _ _ _ _ f g _ _ _ _ _ H Hg Hn Hc) as [_ H1]. eexists. eapply clients_same; [exact Hs|exact H1].
  - apply send_file_stream_shape in Hh. destruct Hh.
    + exists live. eapply clients_same; [by apply same_emit|done].
    + exists live. eapply clients_same; [by apply (same_emit (with_floods m f g))|done].
    + exists live. by apply clients_register.
    + eexists. apply clients_register. by eapply clients_create.
  - injection Hh as <-. exists live. destruct H' as [H1 H2]. unfold release_file_stream. repeat case_match; by split.
  - injection Hh as <-. exists live. destruct H' as [H1 H2]. unfold on_file_stream_timeout. case_match; by split.
  - exists live. eapply clients_same; [by eapply same_raw|done].
  - eexists. by eapply clients_hangup.
  - injection Hh as <-. exists live. eapply clients_same; [apply same_close|done].
  - injection Hh as <-. exists live. eapply clients_same; [apply same_finish_close|done].
  - injection Hh as <-. exists live. eapply clients_same; [apply same_timeout|done].
Qed.

Lemma clients_reached m asked last evs : reached m asked last evs -> exists live, clients_ok m live (len evs).
Proof.
  induction 1 as [webhooks now m _ Hs|m asked last evs ev m' _ [live IH] Ha Hh].
  - apply start_up_shape in Hs as (w & s & es & gc & -> & Hes). exists ∅. split.
    + assert (created (set_out (set_shared_data (set_webhook_db (set_next_tqueue_gc_time (create db sh) gc) w) s)
        (out (create db sh) ++ es)) = ∅) as ->; [|apply holds_start].
      unfold created. cbn [out set_out create]. cbn [app]. replace (omap client_of es) with (@nil Z); [done|].
      symmetry. clear -Hes. induction Hes as [|e es He _ IH]; [done|]. cbn. destruct e; done.
    + split; [|done]. intros key id. cbn. rewrite lookup_empty. split; [done|]. intros (i & Hi & _). by rewrite lookup_empty in Hi.
  - rewrite len_app. change (len [ev]) with 1. by eapply clients_step.
Qed.

(** Only streams touch the quotas. *)
Lemma handle_streams m ev m' : handle m ev = Some m' ->
  match ev with SendFileStream _ _ _ _ _ _ _ _ | ReleaseFileStream _ => True | _ => streams m' = streams m end.
Proof.
  destruct ev; cbn [handle]; try done; intros H.
  - apply send_shape, same_send in H as [Hs|(f & g & token & dc & user_id & client & c & _ & _ & _ & _ & Hs)]; by apply Hs.
  - injection H as <-. unfold on_file_stream_timeout. by case_match.
  - by apply same_raw in H as (_ & _ & ? & _).
  - apply hangup_shape in H as (info & _ & ->). cbn zeta. case_match; [|done]. by destruct (same_close_db
      (set_clients (set_token_to_id m (delete (ci_token info) (token_to_id m))) (Containers.Container.erase no_client_info (clients m) id)))
      as (_ & _ & ? & _).
  - injection H as <-. by apply same_close.
  - injection H as <-. by apply same_finish_close.
  - injection H as <-. by apply same_timeout.
Qed.

Lemma quota_step m asked last ev m' : quota pr asked (streams m) -> allowed m asked last ev -> handle m ev = Some m' ->
  quota pr (asks ev asked) (streams m').
Proof.
  intros H (_ & _ & Ha) Hh. pose proof (handle_streams m ev m' Hh) as Hs.
  destruct ev; try (rewrite Hs; exact H); cbn [handle asks] in *.
  - assert (quota pr ({[stream_id]} ∪ asked) (streams m)) as H' by (destruct H; split; try done; set_solver).
    apply send_file_stream_shape in Hh. destruct Hh; try done.
    + by apply quota_register.
    + by apply (quota_register pr asked (created_client (with_floods m f g) token is_test_dc user_id client c)).
  - injection Hh as <-. by apply quota_release.
Qed.

Lemma quota_reached m asked last evs : reached m asked last evs -> quota pr asked (streams m).
Proof.
  induction 1 as [webhooks now m _ Hs|m asked last evs ev m' _ IH Ha Hh]; [|by eapply quota_step].
  apply start_up_shape in Hs as (w & s & es & gc & -> & _). split; cbn.
  - by rewrite dom_empty_L.
  - done.
  - intros key. by rewrite lookup_empty.
  - intros key n. by rewrite lookup_empty.
  - rewrite size_empty. apply wrap_bounds. lia.
  - intros key. rewrite lookup_empty. cbn. unfold per_bot_limit. lia.
Qed.

Lemma floods_same m m' now : flood_controls m' = flood_controls m -> global_flood_control m' = global_flood_control m ->
  is_global_flood_control_enabled m' = is_global_flood_control_enabled m -> floods_ok m now -> floods_ok m' now.
Proof. intros E1 E2 E3 [H1 H2 H3]. split; rewrite ?E1, ?E2, ?E3; [by apply H1|done|done]. Qed.

Lemma floods_finish m now : floods_ok m now -> floods_ok (finish_close m) now.
Proof.
  intros H. unfold finish_close. case_match; [done|]. rewrite (emit_all Resolve). by apply (floods_same m).
Qed.

Lemma floods_step m asked last ev m' : floods_ok m last -> allowed m asked last ev -> handle m ev = Some m' ->
  floods_ok m' (default last (time_of ev)).
Proof.
  intros H (_ & Hl & _) Hh. pose proof (floods_later m last _ H Hl) as Hn. destruct ev; cbn [handle time_of default] in *.
  - apply send_shape in Hh. destruct Hh as [| |f g wait q ev d ev' _ Had _ _| |f g c client user_id m1 _ Had _ key _ _ m0 Hm1%restore_webhook_shape].
    1, 2, 4: by apply (floods_same m).
    + apply (floods_same (with_floods m f g)); try done. by apply (floods_admitted normalize_ip m last).
    + assert (floods_ok m0 now) as H0 by (apply (floods_same (with_floods m f g)); try done; by apply (floods_admitted normalize_ip m last)).
      destruct Hm1 as [->|(s & q & ->)]; by apply (floods_same m0).
  - apply send_file_stream_shape in Hh. destruct Hh as [|f g Had| |f g c client user_id _ Had].
    1, 3: by apply (floods_same m).
    all: apply (floods_same (with_floods m f g)); try done; by apply (floods_admitted normalize_ip m last).
  - injection Hh as <-. unfold release_file_stream. repeat case_match; by apply (floods_same m).
  - injection Hh as <-. unfold on_file_stream_timeout. case_match; by apply (floods_same m).
  - unfold raw_event in Hh. bind_as Hh [info|]. repeat case_match; try discriminate; injection Hh as <-; by apply (floods_same m).
  - apply hangup_shape in Hh as (info & _ & ->). unfold close_db. cbn zeta. repeat case_match; by apply (floods_same m).
  - injection Hh as <-. unfold close, close_db. repeat case_match; try rewrite (emit_all CloseClient); by apply (floods_same m).
  - injection Hh as <-. by apply floods_finish.
  - injection Hh as <-. unfold timeout_expired. case_match; [by apply floods_finish|].
    set (m1 := collect_garbage _ _ _). assert (floods_ok m1 now) as H1.
    { subst m1. unfold collect_garbage. destruct gc. repeat case_match; by apply (floods_same m). }
    destruct (negb _ && _) eqn:E; [|done]. apply andb_true_iff in E as [E%negb_true_iff _].
    destruct H1 as [G1 G2 G3]. split; cbn; [done| |done]. rewrite (G3 E).
    apply (limits_ok now [(60, 1000); (60 * 60, 10000)]%Q); [by destruct G2|]. repeat constructor; cbn; lra.
Qed.

Lemma floods_reached m asked last evs : reached m asked last evs -> floods_ok m last.
Proof.
  induction 1 as [webhooks now m H0 Hs|m asked last evs ev m' _ IH Ha Hh]; [|by eapply floods_step].
  apply start_up_shape in Hs as (w & s & es & gc & -> & _). split; cbn; [intros ip f; by rewrite lookup_empty| |done].
  split; [done|constructor].
Qed.

(** *** Closing *)

Definition is_closing (e : effect) : bool := match e with Resolve _ | CloseDatabases | Stop => true | _ => false end.

Definition closing_effects (m : manager) : list effect := List.filter is_closing (out m).

Definition promises (evs : list event) : list Z := omap (fun ev => match ev with Close p => Some p | _ => None end) evs.

(** All that closing has done: the databases at most once, and then, at the end, every
    promise in its order and the stop. *)
Record closing_ok (m : manager) (ps : list Z) : Prop := {
  closing_flag : close_flag m = negb (bool_decide (ps = []));
  closing_started : close_db_started m || close_finished m = true -> close_flag m = true;
  closing_pending : close_promises m = if close_finished m then [] else ps;
  closing_out : closing_effects m = (if close_db_started m then [CloseDatabases] else [])
    ++ (if close_finished m then (Resolve <$> ps) ++ [Stop] else []) }.

Definition same_closing (m m' : manager) : Prop :=
  close_flag m' = close_flag m /\ close_db_started m' = close_db_started m /\ close_finished m' = close_finished m
  /\ close_promises m' = close_promises m /\ closing_effects m' = closing_effects m.

Lemma closing_same m m' ps : same_closing m m' -> closing_ok m ps -> closing_ok m' ps.
Proof. intros (E1 & E2 & E3 & E4 & E5) [H1 H2 H3 H4]. by split; rewrite ?E1, ?E2, ?E3, ?E4, ?E5. Qed.

Lemma effects_emits m l : closing_effects (set_out m (out m ++ l)) = closing_effects m ++ List.filter is_closing l.
Proof. unfold closing_effects. cbn [out set_out]. apply List.filter_app. Qed.

(** Effects that have nothing to do with closing. *)
Lemma closing_emits m l : List.filter is_closing l = [] -> same_closing m (set_out m (out m ++ l)).
Proof. intros H. split; [done|]. split; [done|]. split; [done|]. split; [done|]. by rewrite effects_emits, H, app_nil_r. Qed.

Lemma closing_emit m e : is_closing e = false -> same_closing m (emit m e).
Proof. intros H. apply closing_emits. cbn. by rewrite H. Qed.

#[local] Instance same_closing_preorder : PreOrder same_closing.
Proof.
  split; [by split|]. intros m1 m2 m3 (? & ? & ? & ? & ?) (? & ? & ? & ? & ?). unfold same_closing. intuition congruence.
Qed.

Lemma closing_finish m ps : closing_ok m ps -> close_flag m = true -> closing_ok (finish_close m) ps.
Proof.
  intros [H1 H2 H3 H4] Hf. unfold finish_close. destruct (close_finished m) eqn:E; [by split; rewrite ?E|].
  rewrite (emit_all Resolve). set (m1 := set_close_promises _ _).
  assert (forall m' l k, emit (set_out m' (out m' ++ l)) k = set_out m' (out m' ++ (l ++ [k]))) as ->.
  { intros. unfold emit. cbn [out set_out]. by rewrite <- app_assoc. }
  change (close_promises (emit (set_close_finished m true) CancelTimeout)) with (close_promises m).
  split; [done|done|done|]. rewrite effects_emits, List.filter_app.
  change (closing_effects m1) with (closing_effects (emit m CancelTimeout)).
  destruct (closing_emit m CancelTimeout eq_refl) as (_ & _ & _ & _ & ->). rewrite H4, H3, app_nil_r.
  assert (List.filter is_closing (Resolve <$> ps) = Resolve <$> ps) as ->; [|done].
  clear. induction ps as [|p ps IH]; [done|]. cbn. by f_equal.
Qed.

Lemma closing_db m ps : closing_ok m ps -> close_flag m = true -> closing_ok (close_db m) ps.
Proof.
  intros [H1 H2 H3 H4] Hf. unfold close_db. destruct (close_db_started m || close_finished m) eqn:E; [by split|].
  apply orb_false_iff in E as [E1 E2]. set (m1 := emit (set_close_db_started m true) (SetTimeoutIn 10)).
  split; [done|done|done|]. unfold emit at 1. rewrite effects_emits. cbn [List.filter is_closing].
  change (closing_effects m1) with (closing_effects (emit m (SetTimeoutIn 10))).
  destruct (closing_emit m (SetTimeoutIn 10) eq_refl) as (_ & _ & _ & _ & ->). rewrite H4, E1.
  change (close_finished (emit m1 _)) with (close_finished m). by rewrite E2.
Qed.

Lemma closing_close m ps p : closing_ok m ps -> close_finished m = false -> closing_ok (close m p) (ps ++ [p]).
Proof.
  intros [H1 H2 H3 H4] Hf. rewrite Hf in H3, H4. unfold close. set (m1 := set_close_promises m _).
  change (close_flag m1) with (close_flag m).
  assert (forall m', same_closing (set_close_flag m1 true) m' -> closing_ok m' (ps ++ [p])) as Hok.
  { intros m' Hs. eapply closing_same; [exact Hs|]. split; cbn.
    - rewrite bool_decide_false; [done|]. by destruct ps.
    - done.
    - by rewrite Hf, H3.
    - rewrite Hf. exact H4. }
  destruct (close_flag m) eqn:Ec.
  - apply Hok. split; [exact Ec|]. by split.
  - set (m2 := emit (emit (set_close_flag m1 true) DestroyWatchdog) _). rewrite (emit_all CloseClient).
    assert (closing_ok (set_out m2 (out m2 ++ (CloseClient <$> Containers.Container.ids (clients m2)))) (ps ++ [p])) as H.
    { apply Hok. etrans; [|apply closing_emits].
      - etrans; [|by apply closing_emit]. by apply closing_emit.
      - clear. generalize (Containers.Container.ids (clients m2)). intros l. induction l as [|i l IH]; [done|]. exact IH. }
    destruct (bool_decide (Containers.Container.ids _ = [])); [|exact H]. by apply closing_db.
Qed.

Lemma closing_stopped m ps : closing_ok m ps -> close_finished m = true <-> Stop ∈ out m.
Proof.
  intros [_ _ _ H4]. assert (Stop ∈ out m <-> Stop ∈ closing_effects m) as E.
  { unfold closing_effects. rewrite !list_elem_of_In, List.filter_In. by split; [|intros []]. }
  rewrite E, H4. destruct (close_finished m); [split; [set_solver|done]|]. rewrite app_nil_r.
  split; [done|]. case_match; set_solver.
Qed.

Lemma closing_register m id client key file_id size : same_closing m (register_stream m id client key file_id size).
Proof. unfold register_stream. etrans; [|by apply closing_emit]. etrans; [|by apply closing_emit]. by split. Qed.

(** Every event. *)
Lemma closing_step m asked last ev m' evs : closing_ok m (promises evs) -> allowed m asked last ev -> handle m ev = Some m' ->
  closing_ok m' (promises (evs ++ [ev])).
Proof.
  intros H (Hns & _ & Ha) Hh. assert (close_finished m = false) as Hnf.
  { destruct (close_finished m) eqn:E; [|done]. exfalso. by apply Hns, (closing_stopped _ _ H). }
  unfold promises. rewrite omap_app. fold (promises evs). destruct ev; cbn [handle omap list_omap] in *; rewrite ?app_nil_r.
  - eapply closing_same; [|exact H]. apply send_shape in Hh.
    destruct Hh as [| | | |f g c client user_id m1 _ _ _ key _ _ m0 Hm1%restore_webhook_shape]; [by apply closing_emit..| |by apply closing_emit|].
    + by apply (closing_emit (with_floods m f g)).
    + assert (same_closing m m0) as H0 by by apply (closing_emit m (CreateClient client _ _ _)).
      etrans; [exact H0|]. etrans; [|by apply closing_emit]. destruct Hm1 as [->|(s & q & ->)]; [done|].
      by apply (closing_emit (set_shared_data m0 s)).
  - eapply closing_same; [|exact H]. apply send_file_stream_shape in Hh. destruct Hh.
    + by apply closing_emit.
    + by apply (closing_emit (with_floods m f g)).
    + apply closing_register.
    + etrans; [|apply closing_register]. by apply (closing_emit m (CreateClient client _ _ _)).
  - injection Hh as <-. eapply closing_same; [|exact H]. unfold release_file_stream. by repeat case_match.
  - injection Hh as <-. eapply closing_same; [|exact H]. unfold on_file_stream_timeout. by repeat case_match.
  - eapply closing_same; [|exact H]. unfold raw_event in Hh. bind_as Hh [info|]. repeat case_match; try discriminate; by injection Hh as <-.
  - apply hangup_shape in Hh as (info & _ & ->). set (m1 := set_clients _ _).
    assert (closing_ok m1 (promises evs)) as H1 by by eapply closing_same; [|exact H].
    change (close_flag m) with (close_flag m1). destruct (close_flag m1) eqn:Ec; [|done]. cbn [andb]. case_match; [by apply closing_db|done].
  - injection Hh as <-. by apply closing_close.
  - injection Hh as <-. apply closing_finish; [done|]. destruct H as [_ H2 _ H4]. apply H2.
    assert (CloseDatabases ∈ closing_effects m) as Hd by (unfold closing_effects; rewrite list_elem_of_In, List.filter_In, <- list_elem_of_In; by split).
    rewrite H4, Hnf, app_nil_r in Hd. destruct (close_db_started m); [done|]. by apply not_elem_of_nil in Hd.
  - injection Hh as <-. unfold timeout_expired. destruct (close_flag m) eqn:Ec; [by apply closing_finish|].
    eapply closing_same; [|exact H]. set (m1 := collect_garbage _ _ _). assert (same_closing m m1) as H1.
    { transitivity (emit (emit m KickWatchdog) (SetTimeoutIn (0.25 / 10))).
      { etrans; [|by apply closing_emit]. by apply closing_emit. }
      subst m1. unfold collect_garbage. destruct gc. by repeat case_match. }
    destruct (negb _ && _); [|done]. etrans; [exact H1|]. by split.
Qed.

Lemma closing_reached m asked last evs : reached m asked last evs -> closing_ok m (promises evs).
Proof.
  induction 1 as [webhooks now m _ Hs|m asked last evs ev m' _ IH Ha Hh]; [|by eapply closing_step].
  apply start_up_shape in Hs as (w & s & es & gc & -> & Hes). split; cbn; try done.
  unfold closing_effects. cbn [out set_out app]. clear -Hes. induction Hes as [|e es He _ IH]; [done|]. by destruct e.
Qed.

(** The databases are closed when, and only when, no client is left. *)
Record ended_ok (m : manager) : Prop := {
  ended_empty : close_db_started m = true -> Containers.Container.empty (clients m) = true;
  ended_all : close_flag m = true -> Containers.Container.empty (clients m) = true -> close_db_started m || close_finished m = true }.

Lemma empty_live m live n : clients_ok m live n -> n + 1 < 2 ^ 24 -> Containers.Container.empty (clients m) = true <-> live = ∅.
Proof.
  intros [H _] Hn. unfold Containers.Container.empty. rewrite (holds_size _ _ _ _ H Hn), Z.eqb_eq, <- map_size_empty_iff. lia.
Qed.

Lemma ids_live m live n : clients_ok m live n -> n + 1 < 2 ^ 24 -> Containers.Container.ids (clients m) = [] <-> live = ∅.
Proof.
  intros [H _] Hn. pose proof (holds_ids _ _ _ _ H Hn) as Hp. split.
  - intros E. rewrite E in Hp. apply Permutation_nil_l in Hp. by apply dom_empty_iff_L, leibniz_equiv, elements_empty_iff.
  - intros ->. rewrite dom_empty_L, elements_empty in Hp. by apply Permutation_nil_r.
Qed.

Lemma ended_open m : close_db_started m = false -> close_flag m = false -> ended_ok m.
Proof. intros E1 E2. split; congruence. Qed.

Lemma ended_same m m' : same_closing m m' -> clients m' = clients m -> ended_ok m -> ended_ok m'.
Proof. intros (E1 & E2 & E3 & _) E4 [H1 H2]. by split; rewrite ?E1, ?E2, ?E3, ?E4. Qed.

Lemma close_db_fields m : close_db_started (close_db m) || close_finished (close_db m) = true
  /\ clients (close_db m) = clients m /\ close_flag (close_db m) = close_flag m.
Proof. unfold close_db. by destruct (close_db_started m || close_finished m) eqn:E. Qed.

Lemma ended_db m : Containers.Container.empty (clients m) = true -> ended_ok (close_db m).
Proof.
  intros H. destruct (close_db_fields m) as (E1 & E2 & E3). split; rewrite E2; [done|]. by rewrite E1.
Qed.

Lemma finish_fields m : clients (finish_close m) = clients m /\ close_flag (finish_close m) = close_flag m
  /\ close_db_started (finish_close m) = close_db_started m /\ close_finished (finish_close m) = true.
Proof.
  unfold finish_close. destruct (close_finished m) eqn:E; [done|]. by rewrite (emit_all Resolve).
Qed.

Lemma ended_finish m : ended_ok m -> ended_ok (finish_close m).
Proof. intros [H1 H2]. destruct (finish_fields m) as (E1 & E2 & E3 & E4). split; rewrite ?E1, ?E2, ?E3, ?E4, ?orb_true_r; [done|done]. Qed.

Lemma ended_step m asked last ev m' live n ps : clients_ok m live n -> n + 1 < 2 ^ 24 -> closing_ok m ps -> ended_ok m ->
  allowed m asked last ev -> handle m ev = Some m' -> ended_ok m'.
Proof.
  intros Hl Hn Hc H (Hns & _ & Ha) Hh. assert (Hfree : close_flag m = false -> close_db_started m = false).
  { destruct Hc as [_ H2 _ _]. destruct (close_db_started m); [|done]. intros E. by rewrite H2 in E. }
  assert (Hfin : close_finished m = false).
  { destruct (close_finished m) eqn:E; [|done]. exfalso. by apply Hns, (closing_stopped _ _ Hc). }
  destruct ev; cbn [handle] in Hh.
  - apply send_shape in Hh. destruct Hh as [| | | |f g c client user_id m1 Hf _ _ key _ _ m0 Hm1%restore_webhook_shape]; try by eapply (ended_same m); [split|].
    + apply (ended_same m); [by apply closing_emit|done|done].
    + apply (ended_same m); [by apply closing_emit|done|done].
    + apply (ended_same m); [by apply (closing_emit (with_floods m f g))|done|done].
    + apply (ended_same m); [by apply closing_emit|done|done].
    + apply ended_open; destruct Hm1 as [->|(s & q & ->)]; by try apply Hfree.
  - apply send_file_stream_shape in Hh. destruct Hh as [| |client Hf|f g c client user_id Hf].
    + apply (ended_same m); [by apply closing_emit|done|done].
    + apply (ended_same m); [by apply (closing_emit (with_floods m f g))|done|done].
    + apply (ended_same m); [apply closing_register|done|done].
    + apply ended_open; by try apply Hfree.
  - injection Hh as <-. destruct H. unfold release_file_stream. repeat case_match; by split.
  - injection Hh as <-. destruct H. unfold on_file_stream_timeout. repeat case_match; by split.
  - unfold raw_event in Hh. bind_as Hh [info|]. destruct H. repeat case_match; try discriminate; injection Hh as <-; by split.
  - apply hangup_shape in Hh as (info & Hg & ->). set (m1 := set_clients _ _).
    assert (live <> ∅) as Hne.
    { intros ->. destruct Hl as [Hl _]. rewrite (holds_get _ _ _ _ _ Hl Ha) in Hg. by rewrite lookup_empty in Hg. }
    assert (Containers.Container.empty (clients m) = false) as He.
    { apply not_true_iff_false. by rewrite (empty_live _ _ _ Hl Hn). }
    assert (close_db_started m = false) as Hs.
    { destruct (close_db_started m) eqn:E; [|done]. by rewrite (ended_empty m H E) in He. }
    cbn zeta. destruct (close_flag m && _) eqn:E; [apply andb_true_iff in E as [E1 E2]; by apply ended_db|].
    split; [by change (close_db_started m1) with (close_db_started m); rewrite Hs|].
    change (close_flag m1) with (close_flag m). intros E1 E2. by rewrite E1, E2 in E.
  - injection Hh as <-. unfold close. set (m1 := set_close_promises m _). change (close_flag m1) with (close_flag m).
    destruct (close_flag m) eqn:Ef; [destruct H as [H1 H2]; split; [exact H1|intros _; by apply H2]|].
    rewrite (emit_all CloseClient). set (m2 := emit (emit (set_close_flag m1 true) DestroyWatchdog) _).
    change (clients m2) with (clients m). case_bool_decide as Ei.
    + apply ended_db. cbn. by apply (empty_live _ _ _ Hl Hn), (ids_live _ _ _ Hl Hn).
    + assert (Containers.Container.empty (clients m) = false) as He.
      { apply not_true_iff_false. rewrite (empty_live _ _ _ Hl Hn). intros E. by apply Ei, (ids_live _ _ _ Hl Hn). }
      split; cbn; [by rewrite (Hfree eq_refl)|by rewrite He].
  - injection Hh as <-. by apply ended_finish.
  - injection Hh as <-. unfold timeout_expired. destruct (close_flag m) eqn:Ef; [by apply ended_finish|].
    set (m1 := collect_garbage _ _ _).
    assert (close_db_started m1 = false /\ close_flag m1 = false) as [E1 E2].
    { subst m1. unfold collect_garbage. destruct gc. repeat case_match; split; cbn; by try apply Hfree. }
    case_match; by apply ended_open.
Qed.

Lemma ended_reached m asked last evs : reached m asked last evs -> len evs + 1 < 2 ^ 24 -> ended_ok m.
Proof.
  induction 1 as [webhooks now m _ Hs|m asked last evs ev m' Hr IH Ha Hh].
  - intros _. apply start_up_shape in Hs as (w & s & es & gc & -> & Hes). by apply ended_open.
  - rewrite len_app. change (len [ev]) with 1. intros Hn. destruct (clients_reached _ _ _ _ Hr) as [live Hl].
    eapply ended_step; [exact Hl|lia|by eapply closing_reached|apply IH; lia|exact Ha|exact Hh].
Qed.

(** *** Queries *)

(** How a query comes back to its connection. *)
Definition answered (promise : bool) (code : Z) (d : option Query.query) : Prop :=
  if promise then exists q, d = Some q /\ Query.state_ q = Query.SError /\ Query.http_status_code q = code else d = None.

Lemma deleter_error promise q code : Query.state_ q = Query.SError -> Query.http_status_code q = code ->
  exists d ev, Query.promise_deleter promise q = Some (d, ev) /\ answered promise code d.
Proof.
  intros H Hc. unfold Query.promise_deleter. destruct promise; [|by exists None, []].
  rewrite (proj2 (is_ready_iff q)) by by rewrite H. exists (Some q), []. split; [done|]. by exists q.
Qed.

Lemma fail_query_total promise code message q : check_utf8 (lit message) = true -> Query.state_ q = Query.SQuery ->
  exists d ev, Query.fail_query promise code (lit message) q [] = Some (d, ev) /\ answered promise code d.
Proof.
  intros Hm Hq. destruct (error_json_text code (lit message) [] Hm ltac:(constructor)) as (t & Ht & _).
  unfold Query.fail_query. rewrite Ht. cbn [mbind option_bind]. unfold Query.set_error. rewrite bool_decide_true by done.
  cbn [mbind option_bind Query.respond].
  match goal with |- context [Query.promise_deleter promise ?q1] => destruct (deleter_error promise q1 code) as (d & ev & -> & Hd); [done..|] end.
  cbn [mbind option_bind]. by eexists d, _.
Qed.

Lemma retry_total promise n q : Query.state_ q = Query.SQuery ->
  exists q1 ev1 d ev2, Query.set_retry_after_error q n = Some (q1, ev1)
  /\ Query.promise_deleter promise q1 = Some (d, ev2) /\ answered promise 429 d.
Proof.
  intros Hq. destruct (retry_after_text n) as (t & Ht & _). unfold Query.set_retry_after_error. rewrite Ht. cbn [mbind option_bind].
  unfold Query.set_error. rewrite bool_decide_true by done. eexists _, _.
  destruct (deleter_error promise (fst (Query.respond (Query.with_retry_after q n) Query.SError 429 t)) 429) as (d & ev & E & Hd); [done..|].
  exists d, ev. split; [done|]. by split.
Qed.

Lemma drop_total promise q : Query.state_ q = Query.SQuery ->
  exists d ev, Query.promise_deleter promise q = Some (d, ev) /\ answered promise 429 d.
Proof.
  intros Hq. unfold Query.promise_deleter. destruct promise; [|by exists None, []].
  assert (Query.is_ready q = false) as -> by (unfold Query.is_ready; by rewrite bool_decide_true).
  destruct (retry_total true 5 q Hq) as (q1 & ev1 & d & ev2 & E & E' & Hd). rewrite E. cbn [mbind option_bind].
  eexists _, _. split; [done|]. exists q1. split; [done|]. unfold Query.set_retry_after_error in E. bind_as E [t|].
  unfold Query.set_error in E. destruct (bool_decide _); [|done]. by injection E as <- <-.
Qed.

Lemma deliver_some m d ev : deliver m (Some (d, ev)) = Some (emit m (Delivered d ev)).
Proof. done. Qed.

Lemma restore_webhook_total m client q now : exists m', restore_webhook m client q now = Some m'.
Proof.
  unfold restore_webhook. destruct (_ || _); [by eexists|]. destruct (bool_decide (_ = [])); [by eexists|].
  unfold Webhook.get_webhook_restore_query, Query.create. cbn [mbind option_bind]. by eexists.
Qed.

Lemma get_peer_total q : exists ip, Query.get_peer_ip_address get_ip_str q = Some ip.
Proof.
  unfold Query.get_peer_ip_address. destruct (is_valid (Query.peer_ip_address q)) eqn:E; [|by eexists].
  unfold is_reserved. destruct (Query.peer_ip_address q) as [|ip port|ip port]; [done|by eexists..].
Qed.

(** There are slots left for a client. *)
Definition room (m : manager) : Prop := len (Containers.Container.slots (clients m)) <= int32_max.

Lemma create_total m live n info : clients_ok m live n -> room m ->
  exists id c, Containers.Container.create (clients m) info 0 = Some (id, c).
Proof.
  intros [(tr & [H1 _ H3 _ _ _ _] & _) _] Hr. destruct (last (Containers.Container.empty_slots (clients m))) as [pos|] eqn:E.
  - apply last_Some in E as [l E]. destruct (H3 pos) as (s & Hs & _); [rewrite E; set_solver|].
    rewrite (Containers.ContainerFacts.create_reuse (clients m) info 0 pos l s) by (try done; lia). by eexists _, _.
  - apply last_None in E. rewrite Containers.ContainerFacts.create_grow by (try done; lia). unfold room in Hr.
    rewrite (proj2 (Z.leb_le _ _) Hr). by eexists _, _.
Qed.

Lemma create_client_total m live n token dc user_id : clients_ok m live n -> room m ->
  exists client m', create_client m token dc user_id = Some (client, m').
Proof.
  intros H Hr. unfold create_client. destruct (create_total m live n (mk_client_info (token_key token dc) (get_tqueue_id user_id dc)) H Hr) as (id & c & ->).
  by eexists _, _.
Qed.

Lemma send_total m live n last p now : clients_ok m live n -> floods_ok m last -> (last <= now)%Q -> room m ->
  Query.state_ (Query.the_query p) = Query.SQuery -> exists m', send normalize_ip get_ip_str pr m p now = Some m'.
Proof.
  intros Hl Hf Hn Hr Hq. unfold send.
  assert (Hfail : forall code message, check_utf8 (lit message) = true -> exists m', fail_query m p code message = Some m').
  { intros code message Hm. unfold fail_query. destruct (fail_query_total (Query.has_promise p) code message _ Hm Hq) as (d & ev & -> & _). by eexists. }
  destruct (close_flag m).
  { unfold drop_query. destruct (drop_total (Query.has_promise p) _ Hq) as (d & ev & -> & _). by eexists. }
  destruct (is_bad_token _); [by apply Hfail|]. destruct (token_user_id _) as [user_id|e]; [|by apply Hfail].
  destruct (negb _); [by apply Hfail|]. destruct (_ || _); [by apply Hfail|]. destruct (token_to_id m !! _); [by eexists|].
  destruct (bool_decide _); [by apply Hfail|]. destruct (get_peer_total (Query.the_query p)) as (ip & ->). cbn [mbind option_bind].
  destruct (admit_client_total normalize_ip m last ip now Hf Hn) as (r & m1 & E & _). rewrite E. cbn [mbind option_bind].
  destruct (admit_client_shape _ _ _ _ _ _ E) as (f & g & ->). destruct r as [w|].
  - unfold retry_after. destruct (retry_total (Query.has_promise p) (Qfloor (w - now) + 1) _ Hq) as (q1 & ev1 & d & ev2 & E1 & E2 & _).
    rewrite E1. cbn [mbind option_bind]. rewrite E2. by eexists.
  - destruct (create_client_total (with_floods m f g) live n (Query.token (Query.the_query p)) (Query.is_test_dc (Query.the_query p)) user_id Hl Hr)
      as (client & m2 & ->). cbn [mbind option_bind].
    destruct (restore_webhook_total m2 client (Query.the_query p) now) as (m3 & ->). by eexists.
Qed.

Lemma send_file_stream_total m live n last emergency id token dc file_id size ip now : clients_ok m live n -> floods_ok m last ->
  (last <= now)%Q -> room m -> exists m', send_file_stream normalize_ip pr emergency m id token dc file_id size ip now = Some m'.
Proof.
  intros Hl Hf Hn Hr. unfold send_file_stream.
  do 4 (match goal with |- context [if ?b then _ else _] => destruct b end; [by eexists|]).
  destruct (_ || _); [by eexists|]. destruct (token_user_id token) as [user_id|e]; [|by eexists].
  do 4 (match goal with |- context [if ?b then _ else _] => destruct b end; [by eexists|]).
  destruct (token_to_id m !! _); [by eexists|].
  destruct (admit_client_total normalize_ip m last ip now Hf Hn) as (r & m1 & E & _). rewrite E. cbn [mbind option_bind].
  destruct (admit_client_shape _ _ _ _ _ _ E) as (f & g & ->). destruct r as [w|]; [by eexists|].
  destruct (create_client_total (with_floods m f g) live n token dc user_id Hl Hr) as (client & m2 & ->). by eexists.
Qed.
End Reached.



Lemma tqueue_id_inj u dc u' dc' : 0 < u < 2 ^ 54 -> 0 < u' < 2 ^ 54 -> get_tqueue_id u dc = get_tqueue_id u' dc' -> u = u' /\ dc = dc'.
Proof.
  unfold get_tqueue_id. rewrite Z.shiftl_1_l. change (2 ^ 54) with 18014398509481984. intros. destruct dc, dc'; split; try done; lia.
Qed.

Lemma out_emit m e : out (emit m e) = out m ++ [e].
Proof. done. Qed.

Lemma out_created m token dc user_id client c :
  out (created_client m token dc user_id client c) = out m ++ [CreateClient client token dc (get_tqueue_id user_id dc)].
Proof. done. Qed.

Lemma out_register m id client key file_id size :
  out (register_stream m id client key file_id size) = out m ++ [StreamClient id client; StartFileStream client id file_id size].
Proof. unfold register_stream, emit. cbn [out set_out]. by rewrite <- app_assoc. Qed.

(** A query of a client that is there. *)
Lemma send_known normalize_ip get_ip_str pr m p now user_id client : good_token pr (Query.token (Query.the_query p)) user_id ->
  close_flag m = false -> token_to_id m !! token_key (Query.token (Query.the_query p)) (Query.is_test_dc (Query.the_query p)) = Some client ->
  send normalize_ip get_ip_str pr m p now = Some (emit m (SendQuery client p)).
Proof.
  intros (Hb & Hu & Hr & Hrg) Hc Hk. unfold send. rewrite Hc, Hb, Hu, Hrg. cbn [negb].
  assert ((user_id <=? 0) || (Z.shiftl 1 54 <=? user_id) = false) as ->; [|by rewrite Hk].
  rewrite Z.shiftl_1_l. apply orb_false_iff. rewrite !Z.leb_gt. lia.
Qed.

(** ** Properties *)

Section Properties.
Context (normalize_ip : bytes -> bytes) (get_ip_str : ip_address -> bytes) (pr : parameters).
Context (db : gmap bytes bytes) (sh : Query.shared).
#[local] Notation reached := (reached normalize_ip get_ip_str pr db sh).

(** C34. The quotas of file streams.  Whatever happens, the streams that hold a
    slot are those whose token is recorded; their number never exceeds the
    configured one, and no bot has more than its share; the count kept for a bot
    is the number of its streams.  Releasing a stream frees its slot, whatever
    the state, and releasing it again or releasing an unknown one changes nothing. *)
Theorem stream_quota (m : manager) (asked : gset Z) (last : time) (evs : list event) :
  reached m asked last evs ->
  dom (active_file_stream_token m) = active_file_stream_ids m
  /\ Z.of_nat (base.size (active_file_stream_ids m)) <= wrap 64 (file_stream_max_connections pr)
  /\ (forall key, active_streams m key = Z.of_nat (base.size (streams_of key (active_file_stream_token m)))
       /\ active_streams m key <= Z.max 1 (Z.quot (file_stream_max_connections pr) 4))
  /\ (forall id, let m' := release_file_stream m id in
       active_file_stream_ids m' = active_file_stream_ids m ∖ {[id]}
       /\ active_file_stream_token m' = delete id (active_file_stream_token m)
       /\ (id ∉ active_file_stream_ids m -> m' = set_active_file_stream_ids m (active_file_stream_ids m))).
Proof.
  intros H%quota_reached. pose proof H as [H1 H2 H3 H4 H5 H6]. cbn [streams fst snd] in *.
  split; [done|]. split; [done|]. split; [by split; [apply H3|apply H6]|]. intros id. cbn zeta. unfold release_file_stream.
  cbn [active_file_stream_token active_file_streams_by_token set_active_file_stream_ids].
  destruct (active_file_stream_token m !! id) as [key|] eqn:E.
  - split; [by repeat case_match|]. split; [by repeat case_match|]. intros Hn. exfalso. apply Hn. rewrite <- H1. by apply elem_of_dom_2 in E.
  - split; [done|]. split; [cbn; by rewrite delete_id|]. intros Hn. f_equal. set_solver.
Qed.


(** Every query is answered or given to its client.  Whatever was sent before,
    a new query passes every check of [send]: either its connection gets an error
    at once (400, 401, 421 or 429) and no client is created, or the query is given
    to the client of its bot and environment, which is there; a new client gets at most the query
    that restores its webhook before. *)
Theorem send_delivers (m : manager) (asked : gset Z) (last : time) (evs : list event) (p : Query.promised) (now : time) :
  reached m asked last evs -> (last <= now)%Q -> room m -> Query.state_ (Query.the_query p) = Query.SQuery ->
  let key := token_key (Query.token (Query.the_query p)) (Query.is_test_dc (Query.the_query p)) in
  exists m', send normalize_ip get_ip_str pr m p now = Some m'
  /\ ((exists code d ev, code ∈ [400; 401; 421; 429] /\ answered (Query.has_promise p) code d
        /\ out m' = out m ++ [Delivered d ev] /\ clients m' = clients m /\ token_to_id m' = token_to_id m)
      \/ (exists client info before, close_flag m = false /\ out m' = out m ++ before ++ [SendQuery client p]
        /\ token_to_id m' !! key = Some client /\ Containers.Container.get (clients m') client = Some info /\ ci_token info = key
        /\ (before = [] /\ clients m' = clients m
            \/ token_to_id m !! key = None /\ exists e restore, before = e :: restore /\ client_of e = Some client
               /\ (restore = [] \/ exists q, restore = [SendQuery client (Query.mk_promised q false)])))).
Proof.
  intros H Hn Hr Hq key. destruct (clients_reached _ _ _ _ _ _ _ _ _ H) as [live Hl]. pose proof (floods_reached _ _ _ _ _ _ _ _ _ H) as Hf.
  destruct (send_total normalize_ip get_ip_str pr m live (len evs) last p now) as [m' E]; [done..|].
  exists m'. split; [done|]. apply send_shape in E.
  destruct E as [d ev Hc Hd|d ev code msg Hcode Hc Hd|f g wait q ev d ev' Hc Had Hd Hd'|client Hc Ht|f g c client user_id m1 Hc Had Hg key' Ht Hcr m0 Hm1%restore_webhook_shape].
  - left. destruct (drop_total (Query.has_promise p) _ Hq) as (d' & ev' & Hd' & Ha). rewrite Hd in Hd'. injection Hd' as <- <-.
    exists 429, d, ev. split; [set_solver|]. by split.
  - left. exists code, d, ev. split; [set_solver|]. split; [|done]. unfold Query.fail_query in Hd. bind_as Hd [t|]. bind_as Hd [[q1 ev1]|].
    bind_as Hd [[d1 ev2]|]. injection Hd as <- _. unfold Query.set_error in E0. destruct (bool_decide _); [|done]. injection E0 as <- _.
    match type of E1 with Query.promise_deleter _ ?q1 = _ => destruct (deleter_error (Query.has_promise p) q1 code) as (d2 & ev3 & E2 & Ha); [done..|] end.
    rewrite E1 in E2. by injection E2 as <- _.
  - left. destruct (retry_total (Query.has_promise p) wait _ Hq) as (q1 & ev1 & d1 & ev2 & E1 & E2 & Ha). rewrite Hd in E1. injection E1 as <- <-.
    rewrite Hd' in E2. injection E2 as <- <-. exists 429, d, (ev ++ ev'). split; [set_solver|]. by split.
  - right. destruct Hl as [Hl [Hk Hi]]. apply Hk in Ht as Hx. destruct Hx as (info & Hlv & Ek). exists client, info, [].
    split; [done|]. split; [done|]. split; [done|]. split; [|split; [done|by left]].
    change (clients (emit m (SendQuery client p))) with (clients m). rewrite (holds_get _ _ _ _ _ Hl); [done|by eapply holds_given].
  - right. destruct (clients_create pr m live _ f g _ _ _ _ _ Hl Hg Ht Hcr) as [Hnew [Hl' [Hk' _]]]. fold m0 in Hl', Hk'.
    assert (exists restore, out m1 = out m ++ CreateClient client (Query.token (Query.the_query p)) (Query.is_test_dc (Query.the_query p))
        (get_tqueue_id user_id (Query.is_test_dc (Query.the_query p))) :: restore
      /\ (restore = [] \/ exists q, restore = [SendQuery client (Query.mk_promised q false)])
      /\ clients m1 = clients m0 /\ token_to_id m1 = token_to_id m0) as (restore & E1 & E2 & E3 & E4).
    { destruct Hm1 as [->|(s & q & ->)]; [exists []; split; [done|]; split; [by left|done]|].
      exists [SendQuery client (Query.mk_promised q false)]. split; [|by split; [right; exists q|]].
      unfold m0, created_client, emit. cbn. by rewrite <- app_assoc. }
    set (info := mk_client_info key (get_tqueue_id user_id (Query.is_test_dc (Query.the_query p)))).
    exists client, info, (CreateClient client (Query.token (Query.the_query p)) (Query.is_test_dc (Query.the_query p))
        (get_tqueue_id user_id (Query.is_test_dc (Query.the_query p))) :: restore).
    split; [done|]. split; [unfold emit; cbn [out set_out]; by rewrite E1, <- app_assoc|].
    change (clients (emit m1 (SendQuery client p))) with (clients m1). change (token_to_id (emit m1 (SendQuery client p))) with (token_to_id m1).
    rewrite E3, E4. assert (created m0 = {[client]} ∪ created m) as Hcm.
    { unfold created, m0, created_client. cbn. rewrite omap_app, list_to_set_app_L. cbn. set_solver. }
    split; [cbn; by rewrite lookup_insert_eq|]. split; [|split; [done|right; split; [done|by eexists _, restore]]].
    rewrite (holds_get _ _ _ _ _ Hl'); [by rewrite lookup_insert_eq|]. rewrite Hcm. set_solver.
Qed.

(** A file stream is admitted or refused, never both.  A request passes every
    check of [send_file_stream].  Either the stream gets one error, and neither
    the clients nor the streams change, or its slot is taken, it is given to the client of
    its bot and environment, which is there, and that client is told to start it.
    Nothing is admitted while the server closes, when no slot is free, or when the bot has its share. *)
Theorem stream_admission (m : manager) (asked : gset Z) (last : time) (evs : list event) (emergency : bool)
    (id : Z) (token : bytes) (dc : bool) (file_id : bytes) (size : Z) (ip : bytes) (now : time) :
  reached m asked last evs -> (last <= now)%Q -> room m -> id ∉ asked ->
  let key := token_key token dc in
  exists m', send_file_stream normalize_ip pr emergency m id token dc file_id size ip now = Some m'
  /\ ((exists e, out m' = out m ++ [StreamError id e] /\ st_code e ∈ [400; 401; 404; 421; 429; 503; 507]
        /\ same_actors m m' /\ id ∉ active_file_stream_ids m')
      \/ (exists client info before, emergency = false /\ close_flag m = false
        /\ Z.of_nat (base.size (active_file_stream_ids m)) < wrap 64 (file_stream_max_connections pr)
        /\ active_streams m key < per_bot_limit pr
        /\ out m' = out m ++ before ++ [StreamClient id client; StartFileStream client id file_id size]
        /\ token_to_id m' !! key = Some client /\ Containers.Container.get (clients m') client = Some info /\ ci_token info = key
        /\ active_file_stream_ids m' = {[id]} ∪ active_file_stream_ids m /\ active_streams m' key = active_streams m key + 1
        /\ (before = [] /\ clients m' = clients m \/ token_to_id m !! key = None /\ exists e, before = [e] /\ client_of e = Some client))).
Proof.
  intros H Hn Hr Hid key. destruct (clients_reached _ _ _ _ _ _ _ _ _ H) as [live Hl]. pose proof (floods_reached _ _ _ _ _ _ _ _ _ H) as Hf.
  pose proof (quota_reached _ _ _ _ _ _ _ _ _ H) as Hq.
  destruct (send_file_stream_total normalize_ip pr m live (len evs) last emergency id token dc file_id size ip now) as [m' E]; [done..|].
  exists m'. split; [done|]. assert (id ∉ active_file_stream_ids m) as Hida by (pose proof (quota_asked _ _ _ Hq) as Hs; cbn in Hs; set_solver).
  assert (emergency = true -> m' = emit m (StreamError id (Status 507 (lit "Telegram workdir disk space exhausted; service is shutting down")))) as He.
  { intros ->. by injection E as <-. }
  apply send_file_stream_shape in E. destruct emergency.
  { left. rewrite (He eq_refl). eexists. split; [done|]. split; [cbn; set_solver|]. split; [by apply same_emit|done]. }
  destruct E as [code msg Hc|f g Had|client Hc Hm Hk Ht|f g c client user_id Hc Had Hm Hk Hg Ht Hcr].
  - left. eexists. split; [done|]. split; [done|]. split; [by apply same_emit|done].
  - left. eexists. split; [done|]. split; [cbn; set_solver|]. split; [by apply (same_emit (with_floods m f g))|done].
  - right. destruct Hl as [Hl [Hk' _]]. apply Hk' in Ht as Hx. destruct Hx as (info & Hlv & Ek). exists client, info, [].
    split; [done|]. split; [done|]. split; [done|]. split; [done|].
    split; [unfold register_stream, emit; cbn; by rewrite <- app_assoc|]. split; [done|].
    split; [change (Containers.Container.get (clients m) client = Some info); rewrite (holds_get _ _ _ _ _ Hl); [done|by eapply holds_given]|].
    split; [done|]. split; [done|]. split; [|by left].
    unfold active_streams, register_stream. cbn. by rewrite lookup_insert_eq.
  - right. destruct (clients_create pr m live _ f g _ _ _ _ _ Hl Hg Ht Hcr) as [Hnew [Hl' _]].
    exists client, (mk_client_info key (get_tqueue_id user_id dc)), [CreateClient client token dc (get_tqueue_id user_id dc)].
    split; [done|]. split; [done|]. split; [done|]. split; [done|].
    split; [unfold register_stream, created_client, emit; cbn; by rewrite <- !app_assoc|].
    split; [cbn; by rewrite lookup_insert_eq|].
    split; [|split; [done|split; [done|split; [unfold active_streams, register_stream; cbn; by rewrite lookup_insert_eq|right; split; [done|by eexists]]]]].
    change (Containers.Container.get (clients (created_client (with_floods m f g) token dc user_id client c)) client
      = Some (mk_client_info key (get_tqueue_id user_id dc))).
    rewrite (holds_get _ _ _ _ _ Hl'); [by rewrite lookup_insert_eq|].
    unfold created, created_client. cbn. rewrite omap_app, list_to_set_app_L. cbn. set_solver.
Qed.

(** C36. Closing.  All that ever happens at the end is, in this order: the databases are
    closed at most once, when no client is left; every promise given to [close] is
    resolved exactly once, in the order they came; the manager stops.  When closing has begun and no client
    is left, the databases have been closed or the manager has stopped, and the
    timeout and the end of the databases' closing stop it; after [close] no client is created. *)
Theorem closing (m : manager) (asked : gset Z) (last : time) (evs : list event) :
  reached m asked last evs -> len evs + 1 < 2 ^ 24 ->
  closing_effects m = (if close_db_started m then [CloseDatabases] else [])
    ++ (if close_finished m then (Resolve <$> promises evs) ++ [Stop] else [])
  /\ (close_db_started m = true -> Containers.Container.ids (clients m) = [])
  /\ (close_flag m = true <-> promises evs <> [])
  /\ (close_flag m = true -> Containers.Container.ids (clients m) = [] -> CloseDatabases ∈ out m \/ Stop ∈ out m)
  /\ (close_flag m = true -> forall now gc, Stop ∈ out (timeout_expired pr m now gc))
  /\ (close_flag m = true -> Stop ∈ out (finish_close m))
  /\ (close_flag m = true -> forall ev m', allowed m asked last ev -> handle normalize_ip get_ip_str pr m ev = Some m' -> created m' = created m).
Proof.
  intros H Hn. pose proof (closing_reached _ _ _ _ _ _ _ _ _ H) as Hc. pose proof (ended_reached _ _ _ _ _ _ _ _ _ H Hn) as [He1 He2].
  destruct (clients_reached _ _ _ _ _ _ _ _ _ H) as [live Hl]. pose proof (empty_live pr m live _ Hl Hn) as Hem.
  pose proof (ids_live pr m live _ Hl Hn) as Hid. pose proof Hc as [H1 H2 H3 H4].
  assert (Hout : forall e, e ∈ closing_effects m -> e ∈ out m).
  { intros e. unfold closing_effects. rewrite !list_elem_of_In, List.filter_In. tauto. }
  assert (Hstop : close_flag m = true -> Stop ∈ out (finish_close m)).
  { intros Hf. apply (closing_stopped _ (promises evs)); [by apply closing_finish|]. apply finish_fields. }
  split; [done|]. split; [intros Hs; by apply Hid, Hem, He1|]. split.
  { rewrite H1, negb_true_iff, bool_decide_eq_false. done. }
  split; [|split; [|split; [done|]]].
  - intros Hf Hi. specialize (He2 Hf). rewrite Hem, <- Hid in He2. specialize (He2 Hi). apply orb_true_iff in He2 as [E|E].
    + left. apply Hout. rewrite H4, E. by left.
    + right. by apply (closing_stopped _ _ Hc).
  - intros Hf now gc. unfold timeout_expired. rewrite Hf. by apply Hstop.
  - intros Hf ev m' (_ & _ & Ha) Hh. destruct ev; cbn [handle] in Hh.
    + apply send_shape, same_send in Hh as [Hs|(f & g & t & d & u & i & c & _ & _ & Hf' & _)]; [by apply Hs|congruence].
    + apply send_file_stream_shape in Hh. destruct Hh; [by apply same_emit|by apply (same_emit (with_floods m f g))|congruence..].
    + injection Hh as <-. apply same_release.
    + injection Hh as <-. apply same_on_timeout.
    + by apply same_raw in Hh as (_ & _ & _ & ?).
    + by apply created_hangup in Hh.
    + injection Hh as <-. by apply same_close.
    + injection Hh as <-. by apply same_finish_close.
    + injection Hh as <-. by apply same_timeout.
Qed.

(** C37. A client created for a file stream does not get its webhook back.  When a
    stream creates the client of a bot, the next query of that bot is given to the
    client alone; the same query, coming first, is preceded by the query that
    restores the webhook that is stored for the bot. *)
Theorem stream_client_skips_webhook (m m1 m2 : manager) (p : Query.promised) (id : Z) (file_id : bytes) (size : Z) (ip : bytes) (now : time) :
  let q := Query.the_query p in let key := token_key (Query.token q) (Query.is_test_dc q) in
  token_to_id m !! key = None ->
  send_file_stream normalize_ip pr false m id (Query.token q) (Query.is_test_dc q) file_id size ip now = Some m1 ->
  id ∈ active_file_stream_ids m1 -> id ∉ active_file_stream_ids m ->
  send normalize_ip get_ip_str pr m1 p now = Some m2 ->
  (exists client e, client_of e = Some client
    /\ out m2 = out m ++ [e; StreamClient id client; StartFileStream client id file_id size; SendQuery client p])
  /\ (forall info m2', webhook_db m !! Webhook.webhook_key (Query.token q) (Query.is_test_dc q) = Some info -> info <> [] ->
       Query.method q <> lit "deletewebhook" -> Query.method q <> lit "setwebhook" ->
       send normalize_ip get_ip_str pr m p now = Some m2' ->
       (exists client, token_to_id m2' !! key = Some client) ->
       exists client e r, client_of e = Some client
         /\ r = fst (Webhook.get_webhook_restore_query now (Webhook.webhook_key (Query.token q) (Query.is_test_dc q)) info (shared_data m))
         /\ out m2' = out m ++ [e; SendQuery client (Query.mk_promised r false); SendQuery client p]).
Proof.
  intros q key Hk Hs Hin Hout Hq. split.
  2: { subst key q. intros info m2' Hi Hne Hd1 Hd2 Hs' [client' Hcl]. apply send_shape in Hs'.
    destruct Hs' as [| | |client|f g c client user_id m3 _ _ _ key' _ Hcr m0 Hm1]; cbn in Hcl; try congruence.
    destruct (restore_webhook_stored m0 client (Query.the_query p) now m3 info Hm1) as (s & r & -> & Er); [done..|].
    exists client, (CreateClient client (Query.token (Query.the_query p)) (Query.is_test_dc (Query.the_query p)) (get_tqueue_id user_id (Query.is_test_dc (Query.the_query p)))), r.
    split; [done|]. split; [exact Er|]. rewrite !out_emit.
    change (out (set_shared_data m0 s)) with (out m0). unfold m0. rewrite out_created, <- !app_assoc. done. }
  apply send_file_stream_shape in Hs.
  destruct Hs as [code msg Hc|f g Had|client Hc Hm Hk' Ht|f g c client user_id Hc Had Hm Hk' Hg Ht Hcr];
    [by destruct (Hout Hin)|by destruct (Hout Hin)|by unfold key in Hk; rewrite Hk in Ht|].
  exists client, (CreateClient client (Query.token q) (Query.is_test_dc q) (get_tqueue_id user_id (Query.is_test_dc q))).
  split; [done|]. set (m0 := created_client _ _ _ _ _ _) in Hq.
  rewrite (send_known normalize_ip get_ip_str pr _ p now user_id client) in Hq; [|done|exact Hc|by apply lookup_insert_eq].
  injection Hq as <-. rewrite !out_emit. rewrite out_register. unfold m0.
  rewrite out_created. by rewrite <- !app_assoc.
Qed.
End Properties.

(** *** Instances *)

Definition sample_parameters : parameters := mk_parameters true 4 false 0 1.
Definition sample_query : Query.promised :=
  Query.mk_promised (fst (Query.create 0 [lit "raw"] (lit "1:a") false (lit "getMe") [] [] [] None Invalid false)) true.
Definition sample_stream : event := SendFileStream false 7 (lit "1:a") false (lit "file") (-1) (lit "9.9.9.9") 1.

(** The state after some events, which the environment of the samples allows. *)
Definition sample_handle (m : option manager) (ev : event) : option manager :=
  m ← m; handle id (fun _ => []) sample_parameters m ev.
Definition sample_state (evs : list event) : option manager :=
  foldl sample_handle (start_up sample_parameters (create {[lit "1:a" := lit "#maxc40/https://b"]} (Query.mk_shared 0 0)) [] 0) evs.
Definition sample_reached : manager -> gset Z -> time -> list event -> Prop :=
  reached id (fun _ => []) sample_parameters {[lit "1:a" := lit "#maxc40/https://b"]} (Query.mk_shared 0 0).

Lemma sample_start_reached m : sample_state [] = Some m -> sample_reached m ∅ 0 [].
Proof. intros H. eapply reached_start; [lra|exact H]. Qed.

Lemma sample_stream_reached : exists m, sample_state [sample_stream] = Some m /\ sample_reached m {[7]} 1 [sample_stream].
Proof.
  destruct (sample_state []) as [m0|] eqn:E0; [|vm_compute in E0; discriminate].
  destruct (sample_state [sample_stream]) as [m|] eqn:E; [|vm_compute in E; discriminate].
  exists m. split; [done|]. replace {[7]} with (asks sample_stream ∅) by set_solver.
  change 1%Q with (default 0 (time_of sample_stream))%Q. apply (reached_step id (fun _ => []) _ _ _ m0 ∅ 0 [] sample_stream m).
  - by apply sample_start_reached.
  - split; [|split; [cbn; lra|cbn; set_solver]]. assert (out m0 = [CreateWatchdog; SetTimeoutIn 600]) as -> by (injection E0 as <-; reflexivity).
    set_solver.
  - rewrite <- E. change (sample_state [sample_stream]) with (sample_handle (sample_state []) sample_stream). by rewrite E0.
Qed.

Lemma stream_quota_witness : exists m, sample_state [sample_stream] = Some m /\ active_streams m (lit "1:a") <= 1.
Proof.
  destruct sample_stream_reached as (m & E & H). exists m. split; [exact E|].
  destruct (stream_quota _ _ _ _ _ _ _ _ _ H) as (_ & _ & Hk & _). apply (Hk (lit "1:a")).
Defined.


Lemma send_delivers_witness : exists m m', sample_state [sample_stream] = Some m
  /\ send id (fun _ => []) sample_parameters m sample_query 2 = Some m'.
Proof.
  destruct sample_stream_reached as (m & E & H). exists m.
  destruct (send_delivers _ _ _ _ _ _ _ _ _ sample_query 2 H) as (m' & Hs & _); [lra| |reflexivity|].
  - vm_compute in E. injection E as <-. vm_compute. discriminate.
  - exists m'. by split.
Defined.

Lemma stream_admission_witness : exists m m', sample_state [sample_stream] = Some m
  /\ send_file_stream id sample_parameters false m 8 (lit "2:b") false (lit "file") 5 [] 2 = Some m'.
Proof.
  destruct sample_stream_reached as (m & E & H). exists m.
  destruct (stream_admission _ _ _ _ _ _ _ _ _ false 8 (lit "2:b") false (lit "file") 5 [] 2 H) as (m' & Hs & _); [lra| |set_solver|].
  - vm_compute in E. injection E as <-. vm_compute. discriminate.
  - exists m'. by split.
Defined.

Lemma closing_witness : exists m, sample_state [sample_stream] = Some m /\ closing_effects m = [].
Proof.
  destruct sample_stream_reached as (m & E & H). exists m. split; [exact E|].
  destruct (closing _ _ _ _ _ _ _ _ _ H) as (-> & _); [vm_compute; reflexivity|].
  vm_compute in E. injection E as <-. reflexivity.
Defined.

Lemma stream_client_skips_webhook_witness : exists m m1 m2, sample_state [] = Some m
  /\ send id (fun _ => []) sample_parameters m1 sample_query 2 = Some m2
  /\ exists client e, client_of e = Some client
     /\ out m2 = out m ++ [e; StreamClient 7 client; StartFileStream client 7 (lit "file") (-1); SendQuery client sample_query].
Proof.
  destruct (sample_state []) as [m|] eqn:E; [|vm_compute in E; discriminate].
  destruct (send_file_stream id sample_parameters false m 7 (lit "1:a") false (lit "file") (-1) [] 2) as [m1|] eqn:E1;
    [|exfalso; vm_compute in E; injection E as <-; vm_compute in E1; discriminate].
  destruct (send id (fun _ => []) sample_parameters m1 sample_query 2) as [m2|] eqn:E2;
    [|exfalso; vm_compute in E; injection E as <-; vm_compute in E1; injection E1 as <-; vm_compute in E2; discriminate].
  exists m, m1, m2. split; [done|]. split; [done|].
  refine (proj1 (stream_client_skips_webhook id (fun _ => []) sample_parameters m m1 m2 sample_query 7 (lit "file") (-1) [] 2 _ E1 _ _ E2)).
  - vm_compute in E. injection E as <-. reflexivity.
  - vm_compute in E. injection E as <-. vm_compute in E1. injection E1 as <-. vm_compute. reflexivity.
  - vm_compute in E. injection E as <-. intros H. vm_compute in H. discriminate.
Defined.
